(* ===== verification/_CoqProject ===== *)
-Q . S2P
Prelude.v
Utf8.v
Errors.v
Json.v
Canonical.v
Strings.v
Tiers.v
CanonicalParse.v
CanonicalRound.v
Time.v
Crypto.v
Transport.v
Signing.v
CanonicalErrors.v
Values.v
Envelope.v
Instances.v
TransportTheorems.v
UrlGuard.v
Ocsp.v
Http.v
HttpTheorems.v
Replay.v
Resolver.v
Constraints.v
Pipeline.v
Samples.v
PipelineSpec.v
PipelineTheorems.v
PipelineHistory.v
PipelineResponses.v
SharedReplay.v
RedisStore.v
Unwrap.v
EtcdStore.v
Graft.v
Policy.v
PolicySpec.v
PolicyTheorems.v
PolicyMint.v
TrustCache.v
KeySet.v
Sigv4.v
KeySource.v
Proxy.v
DurableReplay.v
ClientRequest.v
ClientRequestTheorems.v
ProxyMeta.v
ProxyTheorems.v
ProxyResponses.v
ProxyClient.v
ClientResponse.v
ClientAudience.v
Correlation.v
HostSession.v
ClientProxy.v
Sandbox.v
Launch.v
LaunchTheorems.v
OneShot.v
Persistent.v
PersistentTheorems.v
Serve.v
Cli.v
CliTheorems.v
Kms.v
Startup.v
StartupTheorems.v
KmsTheorems.v
Pkcs11.v
Pkcs11Theorems.v
DeviceKeys.v
ClientCli.v
FileSystem.v
FileServer.v
DemoServer.v
PySdk.v
Conformance.v
EchoServer.v
