(* ===== verification/Prelude.v ===== *)
(** * MCP-S verified

    A verification of the MCP-S reference implementation: object-signed
    requests and responses for the Model Context Protocol.  The repository is
    under [src/]; this library models its Rust crates and proves what they
    promise to each other.

    ** The program

    A host or a client-side proxy signs a JSON-RPC request with an envelope in
    [params._meta] and sends it over mutual TLS.  The sidecar [mcps-proxy]
    reads it from the socket, vets the client certificate, verifies the
    request (structure, signature, freshness, audience, authorization,
    replay), optionally evaluates an authorization policy, binds the signer to
    the channel, forwards a scrubbed request with a block of verified facts to
    an unmodified inner server, and signs the answer.  The client verifies the
    answer against the hash of its request and unwraps the original result.
    The sidecar is configured by its command line, keeps its keys in files, in a
    cloud service or on a token, shares its replay cache through Redis or etcd,
    and launches the inner server in a restricted process.

    ** Files and the sources they model

    A file named after a component holds its model, and its theorems where no
    file of theorems goes with it.

    Language and library: this file ([result], the [?] operator as [let?] and
    [try?], [outcome] for panics, record updates, list and integer lemmas),
    [Utf8] (chars, UTF-8, UTF-16), [Strings] ([str] operations), [Json]
    ([serde_json::Value]), [Values], [Graft] (values up to member order, depth,
    paths), [FileSystem] ([std::path] and [std::fs], with links).

    [mcps-core]: [Errors] (ids.rs, error.rs, audit.rs); [Canonical],
    [CanonicalParse], [CanonicalRound], [CanonicalErrors] (canonical.rs);
    [Time] (time.rs); [Crypto] (encoding.rs, hash.rs, crypto.rs); [Signing]
    (signing.rs); [Envelope] (envelope.rs); [Constraints] (constraints.rs);
    [Replay] (replay.rs); [Resolver] (resolver.rs); [Pipeline],
    [PipelineSpec], [PipelineTheorems], [PipelineHistory],
    [PipelineResponses] (pipeline.rs); [Unwrap] (wire.rs, unwrap.rs).

    [mcps-policy]: [Policy], [PolicySpec], [PolicyTheorems], [PolicyMint].

    [mcps-proxy], requests: [Transport], [TransportTheorems] (transport.rs);
    [UrlGuard], [Ocsp] (ocsp.rs); [Http], [HttpTheorems] (the framing of
    tls.rs, and mcps-transport/src/lib.rs); [Serve] (tls.rs from the accepted
    socket on, with the time bound of its read phase); [TrustCache] (trust_cache.rs, live_trust.rs, push_trust.rs);
    [KeySet] (authorized_keyset.rs); [Proxy], [ProxyMeta], [ProxyTheorems],
    [ProxyResponses], [ProxyClient] (proxy.rs).

    [mcps-proxy], replay stores: [SharedReplay], [DurableReplay]
    (shared_replay.rs, durable_replay.rs); [RedisStore] (redis_store.rs),
    [EtcdStore] (etcd_store.rs), two implementations of the interface
    [ExpiringStore] that the shared cache is proved against; [Tiers]
    (replay_tier.rs, revocation_tier.rs).

    [mcps-proxy], keys: [KeySource] (key_source.rs,
    delegated_response_signer.rs); [Sigv4] (aws_sigv4.rs); [Kms], [KmsTheorems]
    (kms_keysource.rs, aws_kms_keysource.rs, gcp_kms_keysource.rs,
    delegated_tls.rs); [Pkcs11], [Pkcs11Theorems] (pkcs11_native.rs,
    pkcs11_keysource.rs); [DeviceKeys] (the composition of the cloud sources
    with start-up).

    [mcps-proxy], inner servers: [Sandbox] (sandbox.rs, sandbox_linux.rs),
    [Launch], [LaunchTheorems] (inner_launch.rs, rlimits.rs); [OneShot] (the
    one-shot inner server of cli.rs); [Persistent], [PersistentTheorems]
    (persistent_inner.rs).

    [mcps-proxy], the program: [Cli], [CliTheorems] (cli.rs); [Startup],
    [StartupTheorems] (main.rs, with the builders of cli.rs).

    Clients: [ClientRequest], [ClientRequestTheorems], [ClientResponse] (with
    the support probe), [ClientAudience], [Correlation] (mcps-client-core, and
    the request signer of mcps-host); [HostSession] (mcps-host); [ClientProxy]
    (mcps-client-proxy); [ClientCli] (mcps-client-proxy-cli); [PySdk] (the
    native core of the Python SDK, sdk/python).

    Demonstration and conformance: [FileServer] (mcps-demo-fileserver);
    [DemoServer] (mcps-demo-server); [Conformance], [EchoServer]
    (mcps-conformance: the runner, and the two servers it compares).

    [Instances] and [Samples], and the ends of [PolicySpec] and [Proxy], hold
    concrete stand-ins for the parameters and the messages of the witnesses.

    ** How the code is represented

    A fallible function returns [result]; an in-place update returns the new
    state next to the result; a function that can panic returns [outcome].
    Objects behind a trait are a class of operations over a state type
    ([ReplayCache], [AtomicReplayStore], [InnerServer], [Read], [Tls],
    [InvalidationChannel], [LoginSessionFactory]) with a second class for what
    their users rely on ([ReplayContract], [RetentionContract], [PromptCache]
    for a cache that decides on what it holds when the call begins,
    [AtomicStoreContract], [ExpiringStore], [FactoryLaws], ...); the
    implementations discharge it and the users are proved against it.  Threads
    that interleave (the connection cap, the correlation store, the watchdog
    of a one-shot call) are step relations whose reachable states are treated
    by rule induction.  So are histories: deliveries one after the other, each
    at an instant not before the last, with maintenance in between, and the
    life of a started sidecar ([sidecar_reaches]).  Machine integers are [Z] with their width written out
    where an operation can leave it.  Texts of error messages are constructors
    where no caller reads them.

    Code that is not in the repository is a parameter with named laws:
    base64, SHA-256 and Ed25519 ([Base64Laws], [Sha2Laws], [DalekLaws]),
    serde_json's reader and writer ([SerdeJsonLaws], [SerdeSerLaws],
    [SerdeWrites]) and the derived deserializers ([DeserializeLaws]), X.509,
    DER and the OCSP responder, rustls ([TlsLaws]: data is read only from a
    peer that proved a certificate; [TlsSocketLaws], [ClientSocketLaws]: it
    touches time only through the calls it makes on the socket, any number of
    them for one read of its session), a socket with timeouts
    ([TimedSocketLaws]), the file system and the kernel between
    fork and exec ([Fs], [Platform], [Kernel]), Landlock and seccomp
    ([SandboxHost], [SandboxKernel]), the host at start-up ([Host]), the Redis
    server and the etcd gateway ([RedisLaws], [EtcdLaws]: their clocks go on
    during every call and other clients work on them), the HTTP exchange
    with a cloud service, the PKCS#11 module (its function list, with
    [CkSessions] and [CkFinds] for a module that tracks its sessions and whose
    searches end), the child behind the pipes ([ChildIo], [ChildLaws]:
    the wait is bounded only after a kill that succeeded),
    permissions and disk space ([Access]), Unicode lower-casing
    ([LowercaseLaws]).  The modules [Toy], [ToyProxy] and [ToyPolicy], and
    stand-ins beside the theorems they serve, instantiate them; the claims
    that have such laws as hypotheses have a witness there.

    ** Bounds and fuel

    The canonicalizer's parser recurses to [MAX_PARSE_DEPTH] = 128 and is given
    room for every input ([parse_domain]: it always returns).  serde_json reads
    to a nesting of 127; statements about messages the sidecar re-serializes
    ask for a few levels less (124 to 126) because it adds members.  The
    durable cache keeps instants that fit a JSON-safe integer, so its skew is
    below 2^52.  The HTTP readers get as many steps as their byte limits allow
    reads of at least one byte, plus two, and are proved to return.  SHA-1
    pads within 64 steps.  A close interrupted by a signal is retried as often
    as the kernel's [close_patience] says.  A one-shot call has at most ten
    steps.  A dispatch to the persistent inner server needs more fuel
    than its read timeout has nanoseconds, since every wait of it takes time;
    a token search needs one step for each object
    found and one more.  A walk of a path follows at most [MAX_LINKS] = 40
    links, as Linux does.

    ** What the theorems show

    - Verification: a request or response is accepted exactly when it is
      authentic in the sense of an abstract specification, its verdict repeats
      the signed claims, a triple of signer, audience and nonce is accepted
      again only after the whole window (signed expiry and skew) of the earlier
      acceptance, over any cache that keeps its contract (restarts and failed
      writes of the durable cache included), and unauthenticated traffic does
      not touch the cache.
    - Codec: canonical bytes read back and are unambiguous; the parser always
      returns; timestamps round-trip; a preimage determines everything outside
      the excluded paths.
    - Policy: the reference profile and the evaluator allow exactly what their
      specifications say; minted grants are honoured.
    - Sidecar: complete mediation, the forwarded form has one writer, the
      answer verifies and unwraps at the client, and the one input on which the
      handler panics.
    - Transport: identities, assertions and the URL guard are exact or safe
      against every spelling; framing round-trips and is bounded against any
      peer; the read phase of a connection is bounded in time below TLS; every
      connection ends and reaches the inner server only after every guard on
      the certificate its own peer proved; at most the configured number is
      served at once.
    - Trust and stores: bounded exposure after revocation; the shared cache
      decides as the reference cache; nodes over one Redis server or one etcd
      cluster, reading its second, accept a triple again only after its window
      on that clock, whatever fails.
    - Keys: whatever a cloud service or a token answers, a response signature
      leaves the sidecar only if it verifies under the advertised key, and a
      handshake is delegated only to the key its certificate names; on a token,
      the calls are the search by class, key type and label, the EdDSA
      signature by the object found and the read of its public counterpart.
    - Start: an accepted command line is a closed posture; start-up then fails
      only for outside reasons and decides with what its files say; under a
      strict flag the chain from the command line to the inner server holds as
      one theorem.  The inner server is contained (descriptors, environment,
      limits, Landlock rules and the system-call filter), and a call to a
      one-shot or a persistent inner server returns whatever the child does; a
      persistent child that failed is killed and waited for.
    - Clients: built requests are accepted and bound to the admitted signer;
      responses are used only when genuine; whole exchanges succeed end to end;
      the client command line answers every line, in order.
    - Demonstration and conformance: the file server stays below its root; the
      native echo server and the sidecar around a plain one are the same server
      to a client ([native_wrapped_agree]); a report counts what it judged.

    Theorems that are no claims of their own record where the code and its
    comments disagree ([header_limit_lost], [held_pipe_hangs],
    [signal_after_reaping], [forwarded_header_ignored],
    [fallback_leaks_descriptor], [panics_exhaust_cap], [short_body_accepted],
    [client_response_deadline_missed], [redis_late_command_accepts_twice],
    [failed_kill_blocks], ...).

    ** Not modelled

    TLS and X.509 themselves and the construction of rustls configurations,
    which are calls of that library; the texts of warnings on standard error
    and the sinks of the logs; the loopback HTTP transport of the conformance
    harness; the walkthrough and the scripted demos, which drive the modelled
    crates and keep no state of their own; tests and their helpers. *)

From stdpp Require Export base list list_numbers sorting.
From stdpp Require Export strings gmap.
From Stdlib Require Export ZArith Lia.
From Stdlib Require Import Ascii.

#[export] Set Warnings "-register-all,-clear-no-such-hyp".
Open Scope list_scope.
Open Scope Z_scope.

(** ** Rust results *)

(** [Result<A, E>] of the Rust standard library. *)
Inductive result (A E : Type) : Type :=
| Ok (a : A)
| Err (e : E).
Arguments Ok {A E} a.
Arguments Err {A E} e.

Declare Scope rust_scope.
Delimit Scope rust_scope with rust.

(** The [?] operator: [let? x := c in k] returns early on [Err]. *)
Notation "'let?' x ':=' c 'in' k" :=
  (match c with Ok x => k | Err e => Err e end)
  (at level 10, x pattern, c at level 99, k at level 200)
  : rust_scope.

(** [c?;] on a unit result. *)
Notation "'try?' c ';;' k" :=
  (match c with Ok _ => k | Err e => Err e end)
  (at level 10, c at level 99, k at level 200)
  : rust_scope.

Open Scope rust_scope.

(** [Option::ok_or]. *)
Definition ok_or {A E : Type} (o : option A) (e : E) : result A E :=
  match o with Some a => Ok a | None => Err e end.

(** [Result::map_err]. *)
Definition map_err {A E F : Type} (f : E -> F) (r : result A E) : result A F :=
  match r with Ok a => Ok a | Err e => Err (f e) end.

(** [Result::ok]. *)
Definition result_ok {A E : Type} (r : result A E) : option A :=
  match r with Ok a => Some a | Err _ => None end.

Definition is_ok {A E : Type} (r : result A E) : bool :=
  match r with Ok _ => true | Err _ => false end.

#[export] Instance result_eq_dec `{EqDecision A, EqDecision E} : EqDecision (result A E).
Proof. solve_decision. Defined.

(** ** Assignment to a field

    [r <| f := v |>] is the struct [r] after [r.f = v].  A record declares its
    eta expansion once; the setter of a field is found from it. *)

Class Settable (R : Type) := rebuild : R -> R.
Class Setter {R T : Type} (field : R -> T) := set_field : (T -> T) -> R -> R.
Arguments set_field {R T} field {_} f r.

Ltac derive_setter field :=
  match type of field with
  | ?R -> ?T =>
      let inst := constr:(_ : Settable R) in
      let eta := eval cbv delta [rebuild] in inst in
      let eta := (let h := head_of_term eta in eval unfold h in eta) in
      match eval pattern field in eta with
      | ?g field => exact (fun (f : T -> T) => g (fun r => f (field r)))
      end
  end
with head_of_term t := match t with ?h _ => head_of_term h | _ => t end.

#[export] Hint Extern 1 (Setter ?field) => derive_setter field : typeclass_instances.

Notation "r '<|' f ':=' v '|>'" := (set_field f (fun _ => v) r)
  (at level 1, left associativity, f at level 200, v at level 200) : rust_scope.
Notation "r '<|' f '::=' g '|>'" := (set_field f g r)
  (at level 1, left associativity, f at level 200, g at level 200) : rust_scope.

(** ** Strings and bytes

    A Rust [char] is its code point, a [str] the list of its chars (what
    [str::chars] yields), a byte a [Z] in [0, 256). *)

Abbreviation rchar := Z (only parsing).
Abbreviation rstr := (list Z) (only parsing).
Abbreviation bytes := (list Z) (only parsing).

(** An ASCII string literal of the source. *)
Definition str (s : string) : rstr :=
  (fun a => Z.of_nat (nat_of_ascii a)) <$> String.list_ascii_of_string s.
Arguments str s%_string_scope : simpl never.

(** A literal holding JSON text: the apostrophe stands for the double quote. *)
Definition json_text (s : string) : rstr :=
  (fun c => if c =? 39 then 34 else c) <$> str s.
Arguments json_text s%_string_scope : simpl never.

(** [str::strip_prefix]. *)
Fixpoint strip_prefix (pre s : list Z) : option (list Z) :=
  match pre, s with
  | [], _ => Some s
  | p :: pre', c :: s' => if p =? c then strip_prefix pre' s' else None
  | _ :: _, [] => None
  end.

(** [str::starts_with]. *)
Definition starts_with (pre s : list Z) : bool :=
  match strip_prefix pre s with Some _ => true | None => false end.

(** [str::is_empty], [Vec::is_empty]. *)
Definition is_empty {A} (l : list A) : bool :=
  match l with [] => true | _ => false end.

(** [char::is_ascii_digit] and [u8::is_ascii_digit]. *)
Definition is_ascii_digit (c : Z) : bool := (48 <=? c) && (c <=? 57).

(** ** Machine integers *)

Definition I64_MIN : Z := - 2 ^ 63.
Definition I64_MAX : Z := 2 ^ 63 - 1.
Definition U64_MAX : Z := 2 ^ 64 - 1.

Definition in_i64 (z : Z) : Prop := I64_MIN <= z <= I64_MAX.
Definition in_u64 (z : Z) : Prop := 0 <= z <= U64_MAX.

Definition sat_i64 (z : Z) : Z := Z.max I64_MIN (Z.min I64_MAX z).

(** [i64::saturating_add], [i64::saturating_sub]. *)
Definition saturating_add (a b : Z) : Z := sat_i64 (a + b).
Definition saturating_sub (a b : Z) : Z := sat_i64 (a - b).

(** ** Decimal [Display] and [FromStr] *)

Fixpoint dec_digits (fuel : nat) (n : Z) (acc : rstr) : rstr :=
  match fuel with
  | O => acc
  | S fuel' =>
      let acc' := (48 + n mod 10) :: acc in
      if n <? 10 then acc' else dec_digits fuel' (n / 10) acc'
  end.

(** [Display] of an unsigned integer; [log2 n + 1] binary digits are at least
    as many as the decimal ones, so the fuel is never exhausted
    ([dec_value_display_unsigned]). *)
Definition display_unsigned (n : Z) : rstr :=
  dec_digits (S (Z.to_nat (Z.log2 n))) n [].

(** [Display] of a signed integer. *)
Definition display_signed (z : Z) : rstr :=
  if z <? 0 then 45 :: display_unsigned (- z) else display_unsigned z.

(** [{:0w}]: zero padding between the sign and the digits, to width [w]. *)
Definition display_padded (w : nat) (z : Z) : rstr :=
  if z <? 0
  then 45 :: replicate (w - 1 - length (display_unsigned (- z))) 48 ++ display_unsigned (- z)
  else replicate (w - length (display_unsigned z)) 48 ++ display_unsigned z.

Fixpoint dec_value (acc : Z) (ds : rstr) : Z :=
  match ds with
  | [] => acc
  | d :: ds' => dec_value (acc * 10 + (d - 48)) ds'
  end.

(** [str::parse::<i64>]: an optional sign, at least one digit, digits only,
    in range. *)
Definition parse_i64 (s : rstr) : option Z :=
  let body (neg : bool) (ds : rstr) :=
    if negb (is_empty ds) && forallb is_ascii_digit ds then
      let v := if neg then - dec_value 0 ds else dec_value 0 ds in
      if (I64_MIN <=? v) && (v <=? I64_MAX) then Some v else None
    else None in
  match s with
  | c :: ds => if c =? 45 then body true ds else if c =? 43 then body false ds else body false s
  | [] => None
  end.

(** ** Tactics *)

(** Case analysis on every match of hypothesis [H] towards a given outcome,
    closing the impossible branches. *)
Ltac inv_match H :=
  repeat (let E := fresh "E" in
          match type of H with
          | context [match ?c with _ => _ end] => destruct c eqn:E; try discriminate H
          end).

(** Turn the boolean tests of the code into propositions. *)
Ltac breflect :=
  repeat match goal with
  | H : _ && _ = true |- _ => apply andb_true_iff in H; destruct H
  | H : _ || _ = false |- _ => apply orb_false_iff in H; destruct H
  | H : negb _ = true |- _ => apply negb_true_iff in H
  | H : negb _ = false |- _ => apply negb_false_iff in H
  | H : (_ <? _) = true |- _ => apply Z.ltb_lt in H
  | H : (_ <? _) = false |- _ => apply Z.ltb_ge in H
  | H : (_ <=? _) = true |- _ => apply Z.leb_le in H
  | H : (_ <=? _) = false |- _ => apply Z.leb_gt in H
  | H : (_ =? _) = true |- _ => apply Z.eqb_eq in H
  | H : (_ =? _) = false |- _ => apply Z.eqb_neq in H
  | H : bool_decide _ = true |- _ => apply bool_decide_eq_true in H
  | H : bool_decide _ = false |- _ => apply bool_decide_eq_false in H
  end.

(** Resolve an integer or boolean guard of the goal whose value follows by
    linear arithmetic. *)
Ltac zguard :=
  repeat match goal with
  | |- context [?a <? ?b] =>
      first [ rewrite (proj2 (Z.ltb_lt a b)) by lia
            | rewrite (proj2 (Z.ltb_ge a b)) by lia ]
  | |- context [?a <=? ?b] =>
      first [ rewrite (proj2 (Z.leb_le a b)) by lia
            | rewrite (proj2 (Z.leb_gt a b)) by lia ]
  | |- context [?a =? ?b] =>
      first [ rewrite (proj2 (Z.eqb_eq a b)) by lia
            | rewrite (proj2 (Z.eqb_neq a b)) by lia ]
  end; cbn [andb orb negb].

Create HintDb mcps.

(** ** Generic lemmas *)

Lemma ok_or_Ok {A E} (o : option A) (e : E) a : ok_or o e = Ok a <-> o = Some a.
Proof. destruct o; cbn; naive_solver. Qed.

Lemma map_err_Ok {A E F} (f : E -> F) (r : result A E) a : map_err f r = Ok a <-> r = Ok a.
Proof. destruct r; cbn; naive_solver. Qed.

Lemma strip_prefix_Some pre s t : strip_prefix pre s = Some t <-> s = pre ++ t.
Proof.
  revert s; induction pre as [|p pre IH]; intros [|c s]; cbn; try naive_solver.
  destruct (Z.eqb_spec p c) as [->|Hne]; [rewrite IH|]; naive_solver.
Qed.

Lemma starts_with_spec pre s : starts_with pre s = true <-> exists t, s = pre ++ t.
Proof.
  unfold starts_with. destruct (strip_prefix pre s) as [t|] eqn:E.
  - apply strip_prefix_Some in E. naive_solver.
  - split; [done|]. intros [t Ht]. apply strip_prefix_Some in Ht. congruence.
Qed.

Lemma is_ascii_digit_spec c : is_ascii_digit c = true <-> 48 <= c <= 57.
Proof. unfold is_ascii_digit. rewrite andb_true_iff, !Z.leb_le. lia. Qed.

Lemma forallb_Forall_true {A} (p : A -> bool) l :
  forallb p l = true <-> Forall (fun x => p x = true) l.
Proof. induction l; cbn; [naive_solver|]. rewrite andb_true_iff, Forall_cons. naive_solver. Qed.

Lemma existsb_false_Forall {A} (p : A -> bool) l :
  existsb p l = false <-> Forall (fun x => p x = false) l.
Proof. induction l; cbn; [naive_solver|]. rewrite orb_false_iff, Forall_cons. naive_solver. Qed.

Lemma sat_i64_in_range z : in_i64 (sat_i64 z).
Proof. unfold in_i64, sat_i64, I64_MIN, I64_MAX. lia. Qed.

Lemma sat_i64_id z : in_i64 z -> sat_i64 z = z.
Proof. unfold in_i64, sat_i64, I64_MIN, I64_MAX. lia. Qed.

Lemma dec_value_app a xs ys : dec_value a (xs ++ ys) = dec_value (dec_value a xs) ys.
Proof. revert a; induction xs; cbn; auto. Qed.

Lemma dec_value_nonneg a ds :
  0 <= a -> Forall (fun d => is_ascii_digit d = true) ds -> a <= dec_value a ds.
Proof.
  intros Ha Hds; revert a Ha. induction Hds as [|d ds Hd _ IH]; intros a Ha; cbn; [lia|].
  apply is_ascii_digit_spec in Hd. specialize (IH (a * 10 + (d - 48))). lia.
Qed.

(** What the decimal printer yields: the digits of [n], most significant
    first, without a leading zero. *)
Definition dec_repr (n : Z) (ds : rstr) : Prop :=
  ds <> [] /\ Forall (fun d => is_ascii_digit d = true) ds /\ dec_value 0 ds = n /\
  (head ds = Some 48 -> ds = [48]).

Lemma dec_digits_spec fuel n acc :
  0 <= n < 10 ^ Z.of_nat fuel -> (0 < fuel)%nat ->
  exists ds, dec_digits fuel n acc = ds ++ acc /\ dec_repr n ds /\
    (forall k, (0 < k)%nat -> n < 10 ^ Z.of_nat k -> (length ds <= k)%nat).
Proof.
  revert n acc; induction fuel as [|fuel IH]; intros n acc Hn Hfuel; [lia|].
  cbn [dec_digits]. destruct (n <? 10) eqn:Hlt; breflect.
  - exists [48 + n mod 10]. rewrite Z.mod_small by lia. unfold dec_repr; cbn [length head dec_value].
    repeat split; [done| |lia| |lia].
    + repeat constructor. apply is_ascii_digit_spec. lia.
    + intros [= Hz]. f_equal. lia.
  - rewrite Nat2Z.inj_succ, Z.pow_succ_r in Hn by lia.
    assert (0 < fuel)%nat by (destruct fuel; cbn in Hn; lia).
    assert (Hq : 0 <= n / 10 < 10 ^ Z.of_nat fuel).
    { split; [apply Z.div_pos; lia|]. apply Z.div_lt_upper_bound; lia. }
    destruct (IH (n / 10) ((48 + n mod 10) :: acc)) as (ds & -> & (Hne & Hd & Hv & Hh) & Hlen); [done..|].
    pose proof (Z.mod_pos_bound n 10). pose proof (Z.div_mod n 10).
    exists (ds ++ [48 + n mod 10]). rewrite <- (assoc_L (++)). split; [done|].
    unfold dec_repr. rewrite dec_value_app, Hv; cbn [dec_value]. repeat split.
    + by destruct ds.
    + apply Forall_app; split; [done|]. repeat constructor. apply is_ascii_digit_spec. lia.
    + lia.
    + destruct ds as [|d ds]; [done|]. cbn. intros [= ->]. specialize (Hh eq_refl). simplify_eq.
      cbn in Hv. lia.
    + intros [|[|k]] Hk Hn'; [lia| |].
      { cbn in Hn'. lia. }
      rewrite length_app; cbn. specialize (Hlen (S k)).
      rewrite Nat2Z.inj_succ, Z.pow_succ_r in Hn' by lia.
      assert (length ds <= S k)%nat; [|lia].
      apply Hlen; [lia|]. apply Z.div_lt_upper_bound; lia.
Qed.

Lemma display_unsigned_spec n :
  0 <= n -> dec_repr n (display_unsigned n) /\
  (forall k, (0 < k)%nat -> n < 10 ^ Z.of_nat k -> (length (display_unsigned n) <= k)%nat).
Proof.
  intros Hn. unfold display_unsigned.
  destruct (dec_digits_spec (S (Z.to_nat (Z.log2 n))) n []) as (ds & -> & Hr & Hl); [|lia|].
  - split; [done|]. rewrite Nat2Z.inj_succ, Z2Nat.id by apply Z.log2_nonneg.
    destruct (Z.eq_dec n 0) as [->|]; [done|].
    pose proof (Z.log2_spec n ltac:(lia)) as [_ H2].
    eapply Z.lt_le_trans; [exact H2|]. apply Z.pow_le_mono_l. lia.
  - by rewrite app_nil_r.
Qed.

Lemma dec_value_display_unsigned n : 0 <= n -> dec_value 0 (display_unsigned n) = n.
Proof. intros Hn. by destruct (display_unsigned_spec n Hn) as [(_ & _ & ? & _) _]. Qed.
