(* ===== verification/Utf8.v ===== *)
(** * Rust chars, UTF-8 and UTF-16

    The encodings of the Rust standard library the canonicalizer relies on:
    the Unicode scalar values a [char] ranges over, [char::from_u32], the
    UTF-8 validation of [std::str::from_utf8], [String::into_bytes] and
    [str::encode_utf16], with the round trips between them. *)

From S2P Require Import Prelude.

(** A Unicode scalar value: what a Rust [char] can hold. *)
Definition is_scalar (c : Z) : bool :=
  ((0 <=? c) && (c <? 0xD800)) || ((0xE000 <=? c) && (c <=? 0x10FFFF)).

(** Every [str] consists of scalar values. *)
Definition str_wf (s : rstr) : Prop := Forall (fun c => is_scalar c = true) s.

#[export] Instance str_wf_dec s : Decision (str_wf s).
Proof. unfold str_wf. apply _. Defined.

(** [char::from_u32]. *)
Definition char_from_u32 (c : Z) : option rchar :=
  if is_scalar c then Some c else None.

(** ** UTF-8 *)

Definition utf8_encode_char (c : rchar) : bytes :=
  if c <? 0x80 then [c]
  else if c <? 0x800 then [0xC0 + c / 64; 0x80 + c mod 64]
  else if c <? 0x10000 then [0xE0 + c / 4096; 0x80 + c / 64 mod 64; 0x80 + c mod 64]
  else [0xF0 + c / 262144; 0x80 + c / 4096 mod 64; 0x80 + c / 64 mod 64; 0x80 + c mod 64].

(** [str::as_bytes], [String::into_bytes]. *)
Definition as_bytes (s : rstr) : bytes := s ≫= utf8_encode_char.
Arguments as_bytes : simpl never.

(** [str::len]: the length in bytes. *)
Definition str_len (s : rstr) : Z := Z.of_nat (length (as_bytes s)).

Definition in_range (lo hi b : Z) : bool := (lo <=? b) && (b <=? hi).
Definition is_cont : Z -> bool := in_range 0x80 0xBF.

(** The second-byte range after a three-byte lead: no overlong form, no
    surrogate. *)
Definition second_of_3 (b0 : Z) : Z -> bool :=
  if b0 =? 0xE0 then in_range 0xA0 0xBF
  else if b0 =? 0xED then in_range 0x80 0x9F
  else is_cont.

(** The second-byte range after a four-byte lead: no overlong form, nothing
    above [U+10FFFF]. *)
Definition second_of_4 (b0 : Z) : Z -> bool :=
  if b0 =? 0xF0 then in_range 0x90 0xBF
  else if b0 =? 0xF4 then in_range 0x80 0x8F
  else is_cont.

(** [std::str::from_utf8]. *)
Fixpoint from_utf8 (bs : bytes) : option rstr :=
  match bs with
  | [] => Some []
  | b0 :: r0 =>
      if in_range 0 0x7F b0 then cons b0 <$> from_utf8 r0
      else if in_range 0xC2 0xDF b0 then
        match r0 with
        | b1 :: r1 =>
            if is_cont b1
            then cons ((b0 - 0xC0) * 64 + (b1 - 0x80)) <$> from_utf8 r1
            else None
        | _ => None
        end
      else if in_range 0xE0 0xEF b0 then
        match r0 with
        | b1 :: b2 :: r2 =>
            if second_of_3 b0 b1 && is_cont b2
            then cons ((b0 - 0xE0) * 4096 + (b1 - 0x80) * 64 + (b2 - 0x80)) <$> from_utf8 r2
            else None
        | _ => None
        end
      else if in_range 0xF0 0xF4 b0 then
        match r0 with
        | b1 :: b2 :: b3 :: r3 =>
            if second_of_4 b0 b1 && is_cont b2 && is_cont b3
            then cons ((b0 - 0xF0) * 262144 + (b1 - 0x80) * 4096 + (b2 - 0x80) * 64 + (b3 - 0x80))
                 <$> from_utf8 r3
            else None
        | _ => None
        end
      else None
  end.

(** ** UTF-16 *)

Definition utf16_encode_char (c : rchar) : list Z :=
  if c <? 0x10000 then [c]
  else [0xD800 + (c - 0x10000) / 1024; 0xDC00 + (c - 0x10000) mod 1024].

(** [str::encode_utf16]. *)
Definition encode_utf16 (s : rstr) : list Z := s ≫= utf16_encode_char.

(** ** Round trips *)

Lemma is_scalar_spec c :
  is_scalar c = true <-> (0 <= c < 0xD800 \/ 0xE000 <= c <= 0x10FFFF).
Proof.
  unfold is_scalar. rewrite orb_true_iff, !andb_true_iff, Z.ltb_lt, !Z.leb_le. lia.
Qed.

Lemma in_range_spec lo hi b : in_range lo hi b = true <-> lo <= b <= hi.
Proof. unfold in_range. rewrite andb_true_iff, !Z.leb_le. lia. Qed.

Ltac ranges :=
  unfold second_of_3, second_of_4, is_cont in *;
  repeat match goal with
  | H : context [if ?a =? ?b then _ else _] |- _ => destruct (Z.eqb_spec a b)
  | |- context [if ?a =? ?b then _ else _] => destruct (Z.eqb_spec a b)
  | H : in_range _ _ _ = true |- _ => apply in_range_spec in H
  | H : _ && _ = true |- _ => apply andb_true_iff in H; destruct H
  end.

(** Decoding one encoded char gives it back and leaves the rest. *)
Lemma from_utf8_encode_char c bs :
  is_scalar c = true -> from_utf8 (utf8_encode_char c ++ bs) = cons c <$> from_utf8 bs.
Proof.
  intros Hc%is_scalar_spec. unfold utf8_encode_char.
  pose proof (Z.div_mod c 64). pose proof (Z.mod_pos_bound c 64).
  pose proof (Z.div_mod (c / 64) 64). pose proof (Z.mod_pos_bound (c / 64) 64).
  pose proof (Z.div_mod (c / 4096) 64). pose proof (Z.mod_pos_bound (c / 4096) 64).
  assert (c / 64 / 64 = c / 4096) by (by rewrite Z.div_div by lia).
  assert (c / 4096 / 64 = c / 262144) by (by rewrite Z.div_div by lia).
  destruct (c <? 0x80) eqn:E1; [|destruct (c <? 0x800) eqn:E2; [|destruct (c <? 0x10000) eqn:E3]];
    breflect; cbn [app from_utf8]; unfold in_range; zguard.
  - done.
  - replace (is_cont _) with true by (symmetry; apply in_range_spec; lia).
    do 2 f_equal. lia.
  - replace (second_of_3 _ _ && _) with true.
    + do 2 f_equal. lia.
    + symmetry. apply andb_true_iff; split; ranges; apply in_range_spec; lia.
  - replace (second_of_4 _ _ && _ && _) with true.
    + do 2 f_equal. lia.
    + symmetry. rewrite !andb_true_iff; repeat split; ranges; apply in_range_spec; lia.
Qed.

Lemma from_utf8_as_bytes_app s bs :
  str_wf s -> from_utf8 (as_bytes s ++ bs) = app s <$> from_utf8 bs.
Proof.
  intros Hs. induction Hs as [|c s Hc _ IH]; unfold as_bytes; cbn.
  - by destruct (from_utf8 bs).
  - rewrite <- (assoc_L (++)), from_utf8_encode_char by done.
    change (s ≫= utf8_encode_char) with (as_bytes s). rewrite IH. by destruct (from_utf8 bs).
Qed.

Lemma from_utf8_as_bytes s : str_wf s -> from_utf8 (as_bytes s) = Some s.
Proof.
  intros Hs. rewrite <- (app_nil_r (as_bytes s)), from_utf8_as_bytes_app by done.
  cbn. by rewrite app_nil_r.
Qed.

Lemma as_bytes_inj s t : str_wf s -> str_wf t -> as_bytes s = as_bytes t -> s = t.
Proof.
  intros Hs Ht E. apply (f_equal from_utf8) in E.
  rewrite !from_utf8_as_bytes in E by done. congruence.
Qed.

Lemma as_bytes_app s t : as_bytes (s ++ t) = as_bytes s ++ as_bytes t.
Proof. apply bind_app. Qed.

(** A decoded byte string is the encoding of its chars, all of them scalar. *)
Lemma from_utf8_sound bs s : from_utf8 bs = Some s -> str_wf s /\ as_bytes s = bs.
Proof.
  assert (Hn : forall n bs s, (length bs <= n)%nat -> from_utf8 bs = Some s ->
                 str_wf s /\ as_bytes s = bs); [|intros; eauto].
  clear bs s; induction n as [|n IH]; intros [|b0 r] s Hl Hd; cbn in Hl, Hd; simplify_eq;
    try lia; try (split; [constructor|done]).
  inv_match Hd; apply fmap_Some in Hd as (s' & Hd & ->); apply IH in Hd as [Hw <-]; cbn in *; try lia;
    ranges; (split; [constructor; [apply is_scalar_spec; lia|done]|]);
    unfold as_bytes; cbn [mbind list_bind]; unfold utf8_encode_char; zguard; cbn [app];
    repeat (apply (f_equal2 cons); [Z.to_euclidean_division_equations; lia|]); done.
Qed.

(** The UTF-16 form of a string determines it: surrogate units never occur
    as chars, so the code units split back uniquely. *)
Lemma encode_utf16_inj s t :
  str_wf s -> str_wf t -> encode_utf16 s = encode_utf16 t -> s = t.
Proof.
  intros Hs; revert t; induction Hs as [|c s Hc _ IH]; intros t Ht E;
    destruct Ht as [|d t Hd Ht]; cbn in E; [done| | |];
    apply is_scalar_spec in Hd || idtac; apply is_scalar_spec in Hc || idtac;
    unfold utf16_encode_char in E.
  - by destruct (d <? 0x10000).
  - by destruct (c <? 0x10000).
  - destruct (c <? 0x10000) eqn:Ec, (d <? 0x10000) eqn:Ed; breflect; cbn in E; simplify_eq.
    + f_equal. by apply IH.
    + Z.to_euclidean_division_equations; lia.
    + Z.to_euclidean_division_equations; lia.
    + assert (c = d) as -> by (Z.to_euclidean_division_equations; lia).
      f_equal. by apply IH.
Qed.

#[export] Hint Resolve from_utf8_as_bytes : mcps.
