(* ===== verification/Errors.v ===== *)
(** * Frozen identifiers, error taxonomy and audit vocabulary

    [mcps-core/src/ids.rs], [error.rs], [audit.rs] and the wire form of an
    error in [wire.rs]: the constants that live inside the signed preimage,
    the [McpsError] taxonomy with its frozen wire tokens, and the audit
    events derived from it. *)

From S2P Require Import Prelude.

(** ** ids.rs *)

Definition EXTENSION_ID : rstr := str "se.syncom/mcps".
Definition REQUEST_META_KEY : rstr := str "se.syncom/mcps.request".
Definition RESPONSE_META_KEY : rstr := str "se.syncom/mcps.response".
Definition VERIFIED_META_KEY : rstr := str "se.syncom/mcps.verified".
Definition VERSION_DRAFT_01 : rstr := str "draft-01".
Definition VERSION_DRAFT_02 : rstr := str "draft-02".
Definition CANONICALIZATION_ID_INT53_V1 : rstr := str "mcps-jcs-int53-json-v1".
Definition DRAFT_02_CANONICALIZATION_ALLOWLIST : list rstr := [CANONICALIZATION_ID_INT53_V1].
Definition SIG_ALG_ED25519 : rstr := str "Ed25519".
Definition BINDING_TYPE_OPAQUE_BYTES : rstr := str "opaque-bytes".
Definition BINDING_TYPE_AUTHZ_SYSTEM_REFERENCE : rstr := str "authz-system-reference".
Definition DIGEST_ALG_SHA256 : rstr := str "sha256".
Definition RESPONSE_WRAP_VALUE_KEY : rstr := str "value".
Definition RESPONSE_WRAP_INNER_ERROR_KEY : rstr := str "inner_error".
Definition OBSERVABILITY_META_KEYS : list rstr :=
  [str "traceparent"; str "tracestate"; str "baggage"].

(** ** error.rs *)

Inductive McpsError : Type :=
| MissingEnvelope
| UnsupportedVersion
| InvalidSignature
| CanonicalizationFailed
| ExpiredRequest
| ReplayDetected
| InvalidAudience
| ActorBindingFailed
| TransportBindingFailed
| AuthorizationHashMissing
| OnBehalfOfMissing
| OnBehalfOfInvalidFormat
| ResponseSigInvalid
| ResponseHashMismatch
| DowngradeForbidden
| BatchForbidden
| NotificationForbidden
| UnknownEnvelopeField
| TrustResolverUnavailable
| ReplayCacheUnavailable
| CanonicalizationIdMissing
| CanonicalizationIdUnknown
| CanonicalizationIdNotAllowed
| CanonicalizationIdMismatch
| AuthorizationBindingMissing
| AuthorizationBindingTypeUnsupported
| AuthorizationBindingMalformed
| AuthorizationBindingProfileRequired
| AuthorizationBindingAmbiguousBytes.

#[export] Instance McpsError_eq_dec : EqDecision McpsError.
Proof. solve_decision. Defined.

(** Every variant, in declaration order. *)
Definition all_mcps_errors : list McpsError :=
  [ MissingEnvelope; UnsupportedVersion; InvalidSignature; CanonicalizationFailed;
    ExpiredRequest; ReplayDetected; InvalidAudience; ActorBindingFailed;
    TransportBindingFailed; AuthorizationHashMissing; OnBehalfOfMissing;
    OnBehalfOfInvalidFormat; ResponseSigInvalid; ResponseHashMismatch;
    DowngradeForbidden; BatchForbidden; NotificationForbidden; UnknownEnvelopeField;
    TrustResolverUnavailable; ReplayCacheUnavailable; CanonicalizationIdMissing;
    CanonicalizationIdUnknown; CanonicalizationIdNotAllowed; CanonicalizationIdMismatch;
    AuthorizationBindingMissing; AuthorizationBindingTypeUnsupported;
    AuthorizationBindingMalformed; AuthorizationBindingProfileRequired;
    AuthorizationBindingAmbiguousBytes ].

(** [McpsError::wire_code]. *)
Definition wire_code (e : McpsError) : rstr :=
  match e with
  | MissingEnvelope => str "mcps.missing_envelope"
  | UnsupportedVersion => str "mcps.unsupported_version"
  | InvalidSignature => str "mcps.invalid_signature"
  | CanonicalizationFailed => str "mcps.canonicalization_failed"
  | ExpiredRequest => str "mcps.expired_request"
  | ReplayDetected => str "mcps.replay_detected"
  | InvalidAudience => str "mcps.invalid_audience"
  | ActorBindingFailed => str "mcps.actor_binding_failed"
  | TransportBindingFailed => str "mcps.transport_binding_failed"
  | AuthorizationHashMissing => str "mcps.authorization_hash_missing"
  | OnBehalfOfMissing => str "mcps.on_behalf_of_missing"
  | OnBehalfOfInvalidFormat => str "mcps.on_behalf_of_invalid_format"
  | ResponseSigInvalid => str "mcps.response_sig_invalid"
  | ResponseHashMismatch => str "mcps.response_hash_mismatch"
  | DowngradeForbidden => str "mcps.downgrade_forbidden"
  | BatchForbidden => str "mcps.batch_forbidden"
  | NotificationForbidden => str "mcps.notification_forbidden"
  | UnknownEnvelopeField => str "mcps.unknown_envelope_field"
  | TrustResolverUnavailable => str "mcps.trust_resolver_unavailable"
  | ReplayCacheUnavailable => str "mcps.replay_cache_unavailable"
  | CanonicalizationIdMissing => str "mcps.canonicalization_id_missing"
  | CanonicalizationIdUnknown => str "mcps.canonicalization_id_unknown"
  | CanonicalizationIdNotAllowed => str "mcps.canonicalization_id_not_allowed"
  | CanonicalizationIdMismatch => str "mcps.canonicalization_id_mismatch"
  | AuthorizationBindingMissing => str "mcps.authorization_binding_missing"
  | AuthorizationBindingTypeUnsupported => str "mcps.authorization_binding_type_unsupported"
  | AuthorizationBindingMalformed => str "mcps.authorization_binding_malformed"
  | AuthorizationBindingProfileRequired => str "mcps.authorization_binding_profile_required"
  | AuthorizationBindingAmbiguousBytes => str "mcps.authorization_binding_ambiguous_bytes"
  end.

(** ** audit.rs *)

Definition REQUEST_ACCEPTED : rstr := str "mcps.request.accepted".
Definition RESPONSE_SIGNED : rstr := str "mcps.response.signed".
Definition REQUEST_REJECTED : rstr := str "mcps.request.rejected".
Definition RESPONSE_REJECTED : rstr := str "mcps.response.rejected".
Definition SUCCESS_EVENT_TYPES : list rstr := [REQUEST_ACCEPTED; RESPONSE_SIGNED].
Definition REJECTION_EVENT_TYPES : list rstr := [REQUEST_REJECTED; RESPONSE_REJECTED].

Definition rejection_reason (e : McpsError) : rstr := wire_code e.

Definition reason_label (e : McpsError) : rstr :=
  match e with
  | MissingEnvelope => str "Missing MCP-S envelope"
  | UnsupportedVersion => str "Unsupported envelope version"
  | InvalidSignature => str "Invalid signature"
  | CanonicalizationFailed => str "Canonicalization failed"
  | ExpiredRequest => str "Expired request"
  | ReplayDetected => str "Replay detected"
  | InvalidAudience => str "Invalid audience"
  | ActorBindingFailed => str "Signer trust binding failed"
  | TransportBindingFailed => str "Transport binding failed"
  | AuthorizationHashMissing => str "Authorization hash missing"
  | OnBehalfOfMissing => str "on_behalf_of missing"
  | OnBehalfOfInvalidFormat => str "on_behalf_of malformed"
  | ResponseSigInvalid => str "Invalid response signature"
  | ResponseHashMismatch => str "Response/request hash mismatch"
  | DowngradeForbidden => str "Security downgrade forbidden"
  | BatchForbidden => str "JSON-RPC batch forbidden"
  | NotificationForbidden => str "Security notification forbidden"
  | UnknownEnvelopeField => str "Unknown envelope field"
  | TrustResolverUnavailable => str "Trust resolver unavailable"
  | ReplayCacheUnavailable => str "Replay cache unavailable"
  | CanonicalizationIdMissing => str "canonicalization_id missing"
  | CanonicalizationIdUnknown => str "canonicalization_id unknown"
  | CanonicalizationIdNotAllowed => str "canonicalization_id not allowed by profile"
  | CanonicalizationIdMismatch => str "canonicalization_id mismatch"
  | AuthorizationBindingMissing => str "authorization_binding missing"
  | AuthorizationBindingTypeUnsupported => str "authorization_binding type unsupported"
  | AuthorizationBindingMalformed => str "authorization_binding malformed"
  | AuthorizationBindingProfileRequired => str "authorization_binding profile required"
  | AuthorizationBindingAmbiguousBytes => str "authorization_binding ambiguous bytes"
  end.

Inductive Decision_ : Type := Accepted | Signed | Rejected.

Record AuditEvent : Type := {
  event_type : rstr;
  decision : Decision_;
  reason : option rstr;
  ae_reason_label : option rstr;
}.

Definition request_accepted : AuditEvent :=
  {| event_type := REQUEST_ACCEPTED; decision := Accepted;
     reason := None; ae_reason_label := None |}.

Definition response_signed : AuditEvent :=
  {| event_type := RESPONSE_SIGNED; decision := Signed;
     reason := None; ae_reason_label := None |}.

Definition request_rejected (e : McpsError) : AuditEvent :=
  {| event_type := REQUEST_REJECTED; decision := Rejected;
     reason := Some (rejection_reason e); ae_reason_label := Some (reason_label e) |}.

Definition response_rejected (e : McpsError) : AuditEvent :=
  {| event_type := RESPONSE_REJECTED; decision := Rejected;
     reason := Some (rejection_reason e); ae_reason_label := Some (reason_label e) |}.

(** ** The taxonomy is faithful on the wire *)

Lemma all_mcps_errors_complete e : e ∈ all_mcps_errors.
Proof. destruct e; unfold all_mcps_errors; set_solver. Qed.

(** Distinct verdicts have distinct wire tokens: decided on the table. *)
Lemma wire_code_inj e1 e2 : wire_code e1 = wire_code e2 -> e1 = e2.
Proof.
  assert (H : forallb (fun a => forallb (fun b =>
            implb (bool_decide (wire_code a = wire_code b)) (bool_decide (a = b)))
            all_mcps_errors) all_mcps_errors = true) by (vm_compute; reflexivity).
  intros Heq. rewrite forallb_Forall_true, Forall_forall in H.
  specialize (H e1 (all_mcps_errors_complete e1)). rewrite forallb_Forall_true, Forall_forall in H.
  specialize (H e2 (all_mcps_errors_complete e2)). rewrite (bool_decide_eq_true_2 _ Heq) in H.
  by apply bool_decide_eq_true in H.
Qed.
