(* ===== verification/Json.v ===== *)
(** * The [serde_json] value the source works on

    [serde_json] is not part of the repository; its [Value] enum is the data
    type every layer matches on, so its variants and the accessors the source
    calls ([get], [as_str], [as_object], [Map::remove], ...) are written out
    here.  What [serde_json] and [serde]'s derived code compute (parsing bytes
    into a [Value], deserializing a [Value] into a struct) stays a parameter:
    see [Envelope.v]. *)

From S2P Require Import Prelude Utf8.

(** [serde_json::Number] without [arbitrary_precision]: a [u64], a negative
    [i64] or an [f64] (its bit pattern; a [Value] never holds NaN). *)
Inductive Number : Type :=
| PosInt (u : Z)
| NegInt (i : Z)
| Float (bits : Z).

(** [Number::as_i64]. *)
Definition as_i64 (n : Number) : option Z :=
  match n with
  | PosInt u => if u <=? I64_MAX then Some u else None
  | NegInt i => Some i
  | Float _ => None
  end.

(** [Number::as_u64]. *)
Definition as_u64 (n : Number) : option Z :=
  match n with PosInt u => Some u | _ => None end.

(** [serde_json::Value]; a [Map] is its entries in iteration order. *)
Inductive Value : Type :=
| VNull
| VBool (b : bool)
| VNumber (n : Number)
| VString (s : rstr)
| VArray (items : list Value)
| VObject (members : list (rstr * Value)).

Abbreviation Map := (list (rstr * Value)) (only parsing).

(** [Map::get]. *)
Fixpoint map_get {V : Type} (k : rstr) (m : list (rstr * V)) : option V :=
  match m with
  | [] => None
  | (k', v) :: m' => if bool_decide (k' = k) then Some v else map_get k m'
  end.

(** [Map::contains_key]. *)
Definition map_contains_key {V : Type} (k : rstr) (m : list (rstr * V)) : bool :=
  match map_get k m with Some _ => true | None => false end.

(** [Map::remove], keeping the remaining entries. *)
Fixpoint map_remove {V : Type} (k : rstr) (m : list (rstr * V)) : list (rstr * V) :=
  match m with
  | [] => []
  | (k', v) :: m' =>
      if bool_decide (k' = k) then map_remove k m' else (k', v) :: map_remove k m'
  end.

(** In-place change of the entry at [k], through [Map::get_mut]. *)
Definition map_alter {V : Type} (f : V -> V) (k : rstr) (m : list (rstr * V)) : list (rstr * V) :=
  (fun kv => if bool_decide (kv.1 = k) then (kv.1, f kv.2) else kv) <$> m.

(** [Ord] on [String]: byte order, which is code-point order. *)
Fixpoint str_ltb (s t : rstr) : bool :=
  match s, t with
  | _, [] => false
  | [], _ :: _ => true
  | c :: s', d :: t' => if c =? d then str_ltb s' t' else c <? d
  end.

(** A fresh entry at its place in key order. *)
Fixpoint map_place {V : Type} (k : rstr) (v : V) (m : list (rstr * V)) : list (rstr * V) :=
  match m with
  | [] => [(k, v)]
  | (k', v') :: m' => if str_ltb k k' then (k, v) :: m else (k', v') :: map_place k v m'
  end.

(** [Map::insert]: overwrites, or adds the entry. *)
Definition map_insert {V : Type} (k : rstr) (v : V) (m : list (rstr * V)) : list (rstr * V) :=
  if map_contains_key k m then map_alter (fun _ => v) k m else map_place k v m.

(** [json!({ ... })]: an object literal, inserted member by member. *)
Definition json_object (members : list (rstr * Value)) : Value :=
  VObject (foldl (fun m kv => map_insert kv.1 kv.2 m) [] members).

(** [Value::from(i64)]. *)
Definition value_of_i64 (i : Z) : Value := VNumber (if i <? 0 then NegInt i else PosInt i).

(** [Value::get(&str)]: only an object has members. *)
Definition get (k : rstr) (v : Value) : option Value :=
  match v with VObject m => map_get k m | _ => None end.

Definition as_str (v : Value) : option rstr :=
  match v with VString s => Some s | _ => None end.

Definition as_bool (v : Value) : option bool :=
  match v with VBool b => Some b | _ => None end.

Definition as_object (v : Value) : option Map :=
  match v with VObject m => Some m | _ => None end.

Definition is_array (v : Value) : bool :=
  match v with VArray _ => true | _ => false end.

Definition is_object (v : Value) : bool :=
  match v with VObject _ => true | _ => false end.

(** ** Induction and well-formedness *)

Section Value_ind.
Context (P : Value -> Prop).
Context (Hnull : P VNull) (Hbool : forall b, P (VBool b)) (Hnum : forall n, P (VNumber n)).
Context (Hstr : forall s, P (VString s)).
Context (Harr : forall l, Forall P l -> P (VArray l)).
Context (Hobj : forall m, Forall (fun kv => P kv.2) m -> P (VObject m)).

Fixpoint Value_ind' (v : Value) : P v :=
  match v with
  | VNull => Hnull
  | VBool b => Hbool b
  | VNumber n => Hnum n
  | VString s => Hstr s
  | VArray l =>
      Harr l ((fix go l := match l return Forall P l with
                           | [] => Forall_nil_2 _
                           | x :: l' => Forall_cons_2 _ _ _ (Value_ind' x) (go l')
                           end) l)
  | VObject m =>
      Hobj m ((fix go m := match m return Forall (fun kv => P kv.2) m with
                           | [] => Forall_nil_2 _
                           | kv :: m' => Forall_cons_2 _ _ _ (Value_ind' kv.2) (go m')
                           end) m)
  end.
End Value_ind.

#[export] Instance Number_eq_dec : EqDecision Number.
Proof. solve_decision. Defined.

Fixpoint value_eq_dec (v w : Value) {struct v} : {v = w} + {v <> w}.
Proof.
  refine (match v, w with
          | VNull, VNull => left _
          | VBool a, VBool b => if decide (a = b) then left _ else right _
          | VNumber a, VNumber b => if decide (a = b) then left _ else right _
          | VString a, VString b => if decide (a = b) then left _ else right _
          | VArray a, VArray b =>
              if @list_eq_dec Value value_eq_dec a b then left _ else right _
          | VObject a, VObject b =>
              if @list_eq_dec (rstr * Value)
                   (fun x y => match decide (x.1 = y.1), value_eq_dec x.2 y.2 with
                               | left e1, left e2 => left _
                               | _, _ => right _
                               end) a b
              then left _ else right _
          | _, _ => right _
          end); try congruence; destruct x, y; cbn in *; congruence.
Defined.

#[export] Instance Value_eq_dec : EqDecision Value := value_eq_dec.

(** [Value] as [serde_json] builds it: integers at their width, strings of
    scalar values, and no member name twice in one object ([Map] is a map). *)
Inductive value_wf : Value -> Prop :=
| wf_null : value_wf VNull
| wf_bool b : value_wf (VBool b)
| wf_pos u : 0 <= u <= U64_MAX -> value_wf (VNumber (PosInt u))
| wf_neg i : I64_MIN <= i < 0 -> value_wf (VNumber (NegInt i))
| wf_float b : value_wf (VNumber (Float b))
| wf_string s : str_wf s -> value_wf (VString s)
| wf_array l : Forall value_wf l -> value_wf (VArray l)
| wf_object m :
    NoDup m.*1 -> Forall str_wf m.*1 -> Forall (fun kv => value_wf kv.2) m ->
    value_wf (VObject m).

(** ** Lookup lemmas *)

Lemma value_wf_string s : value_wf (VString s) -> str_wf s.
Proof. by inversion 1. Qed.

Lemma map_get_Some {V} k (v : V) m : map_get k m = Some v -> (k, v) ∈ m.
Proof.
  induction m as [|[k' v'] m IH]; cbn; [done|].
  case_bool_decide; intros; simplify_eq; set_solver.
Qed.

Lemma map_get_None {V} k (m : list (rstr * V)) : map_get k m = None <-> k ∉ m.*1.
Proof.
  induction m as [|[k' v'] m IH]; cbn; [set_solver|].
  case_bool_decide; set_solver.
Qed.

Lemma map_get_elem {V} k (v : V) m : NoDup m.*1 -> (k, v) ∈ m -> map_get k m = Some v.
Proof.
  induction m as [|[k' v'] m IH]; cbn; [set_solver|].
  intros [Hn Hd]%NoDup_cons Hin. case_bool_decide as Hk.
  - apply elem_of_cons in Hin as [|Hin]; simplify_eq; [done|].
    destruct Hn. apply list_elem_of_fmap. by exists (k, v).
  - apply IH; [done|]. set_solver.
Qed.

Lemma map_get_alter {V} (f : V -> V) k k' m :
  map_get k (map_alter f k' m) = (if bool_decide (k' = k) then f else id) <$> map_get k m.
Proof.
  induction m as [|[k0 v0] m IH]; cbn; [done|].
  destruct (decide (k0 = k')) as [->|H1]; destruct (decide (k' = k)) as [->|H2];
    repeat case_bool_decide; cbn in *; simplify_eq; try done.
Qed.

Lemma map_get_remove {V} k k' (m : list (rstr * V)) :
  map_get k (map_remove k' m) = if bool_decide (k' = k) then None else map_get k m.
Proof.
  induction m as [|[k0 v0] m IH]; cbn [map_remove map_get]; [by case_bool_decide|].
  destruct (bool_decide (k0 = k')) eqn:E; breflect; cbn [map_get]; rewrite IH;
    repeat case_bool_decide; simplify_eq; done.
Qed.

Lemma map_alter_keys {V} (f : V -> V) k m : (map_alter f k m).*1 = m.*1.
Proof.
  unfold map_alter. rewrite <- list_fmap_compose. apply list_fmap_ext.
  intros i [k' v] _. cbn. by case_bool_decide.
Qed.

Lemma map_remove_sublist {V} k (m : list (rstr * V)) : sublist (map_remove k m) m.
Proof.
  induction m as [|[k0 v0] m IH]; cbn; [done|]. case_bool_decide; by constructor.
Qed.

Lemma map_remove_NoDup {V} k (m : list (rstr * V)) : NoDup m.*1 -> NoDup (map_remove k m).*1.
Proof. intros. eapply sublist_NoDup; [done|]. apply fmap_sublist, map_remove_sublist. Qed.

Lemma map_contains_key_spec {V} k (m : list (rstr * V)) :
  map_contains_key k m = true <-> k ∈ m.*1.
Proof.
  unfold map_contains_key. destruct (map_get k m) eqn:E.
  - apply map_get_Some in E. split; [|done]. intros _. apply list_elem_of_fmap. by eexists (_, _).
  - apply map_get_None in E. done.
Qed.

Lemma map_contains_key_false {V} k (m : list (rstr * V)) :
  map_contains_key k m = false <-> k ∉ m.*1.
Proof. rewrite <- map_contains_key_spec. by destruct (map_contains_key k m). Qed.

Lemma map_place_perm {V} k (v : V) m : map_place k v m ≡ₚ (k, v) :: m.
Proof.
  induction m as [|[k0 v0] m IH]; cbn; [done|].
  destruct (str_ltb k k0); [done|]. rewrite IH. apply Permutation_swap.
Qed.

Lemma map_insert_NoDup {V} k (v : V) m : NoDup m.*1 -> NoDup (map_insert k v m).*1.
Proof.
  intros Hm. unfold map_insert. destruct (map_contains_key k m) eqn:E.
  - by rewrite map_alter_keys.
  - rewrite map_place_perm. cbn. apply NoDup_cons; split; [|done].
    rewrite <- map_contains_key_spec. congruence.
Qed.

Lemma map_get_place {V} k k' (v : V) m :
  k' ∉ m.*1 -> map_get k (map_place k' v m) = if bool_decide (k' = k) then Some v else map_get k m.
Proof.
  induction m as [|[k0 v0] m IH]; intros Hk; cbn [map_place map_get]; [done|].
  destruct (str_ltb k' k0); cbn [map_get]; [done|]. rewrite IH by set_solver.
  repeat case_bool_decide; simplify_eq; set_solver.
Qed.

Lemma map_get_insert {V} k k' (v : V) m :
  map_get k (map_insert k' v m) = if bool_decide (k' = k) then Some v else map_get k m.
Proof.
  unfold map_insert. destruct (map_contains_key k' m) eqn:E.
  - rewrite map_get_alter. unfold map_contains_key in E.
    case_bool_decide; simplify_eq; [by destruct (map_get k m)|by destruct (map_get k m)].
  - apply map_get_place. rewrite <- map_contains_key_spec. congruence.
Qed.

Lemma map_get_app {V} k (m1 m2 : list (rstr * V)) :
  map_get k (m1 ++ m2) = match map_get k m1 with Some v => Some v | None => map_get k m2 end.
Proof. induction m1 as [|[k' v'] m1 IH]; cbn; [done|]. by case_bool_decide. Qed.

(** The lookups of an object literal: the last member of a name counts. *)
Lemma json_object_get k members :
  get k (json_object members) = map_get k (reverse members).
Proof.
  unfold json_object; cbn [get].
  assert (H : forall m, map_get k (foldl (fun m kv => map_insert kv.1 kv.2 m) m members)
                = match map_get k (reverse members) with Some v => Some v | None => map_get k m end).
  { induction members as [|[k' v'] members IH]; intros m; cbn [foldl]; [done|].
    rewrite IH, reverse_cons, map_get_app, map_get_insert. cbn [fst snd map_get].
    destruct (map_get k (reverse members)); [done|]. by case_bool_decide. }
  rewrite H. by destruct (map_get k (reverse members)).
Qed.

Lemma json_object_NoDup members :
  NoDup (foldl (fun m kv => map_insert kv.1 kv.2 m) [] members : list (rstr * Value)).*1.
Proof.
  assert (H : forall m : list (rstr * Value), NoDup m.*1 ->
            NoDup (foldl (fun m kv => map_insert kv.1 kv.2 m) m members).*1).
  { induction members as [|[k v] members IH]; intros m Hm; cbn; [done|]. by apply IH, map_insert_NoDup. }
  apply H. constructor.
Qed.

(** Two maps with the same lookups have the same entries, up to order. *)
Lemma map_get_ext_perm {V} (m1 m2 : list (rstr * V)) :
  NoDup m1.*1 -> NoDup m2.*1 -> (forall k, map_get k m1 = map_get k m2) -> m1 ≡ₚ m2.
Proof.
  intros H1 H2 Hext. apply NoDup_Permutation; [by eapply NoDup_fmap_1..|].
  intros [k v]. split; intros Hin.
  - apply map_get_Some. rewrite <- Hext. by apply map_get_elem.
  - apply map_get_Some. rewrite Hext. by apply map_get_elem.
Qed.
