(* ===== verification/Canonical.v ===== *)
(** * RFC 8785 canonicalization: data and operations

    [mcps-core/src/canonical.rs], whole: the [JcsValue] tree, the raw-bytes
    parser with its JCS-safe domain checks, the canonical serializer, and the
    conversion from [serde_json::Value].

    The nesting depth is carried as the room that is left,
    [MAX_PARSE_DEPTH - depth]: the test [depth >= MAX_PARSE_DEPTH] of the code
    is [room = 0], and [depth + 1] is the predecessor, so the recursions of the
    code are structural.  The parser's state is the list of chars not yet
    consumed ([chars\[pos..\]]).  The loops of the parser run on fuel, the
    number of remaining chars plus one, and running out of it is a result of
    its own ([PFuel]) that [CanonicalParse.v] proves never to occur. *)

From S2P Require Import Prelude Utf8 Errors Json.

Definition MAX_SAFE_INTEGER : Z := 9007199254740991.
Definition MAX_PARSE_DEPTH : nat := 128.

(** [JcsValue]. *)
Inductive JcsValue : Type :=
| JNull
| JBool (b : bool)
| JInteger (i : Z)
| JString (s : rstr)
| JArray (items : list JcsValue)
| JObject (members : list (rstr * JcsValue)).

Definition check_safe_integer (i : Z) : result unit McpsError :=
  if (- MAX_SAFE_INTEGER <=? i) && (i <=? MAX_SAFE_INTEGER)
  then Ok tt else Err CanonicalizationFailed.

(** A loop that pushes [f x] for each [x], stopping at the first error. *)
Fixpoint map_result {A B E : Type} (f : A -> result B E) (l : list A) : result (list B) E :=
  match l with
  | [] => Ok []
  | x :: l' => let? y := f x in let? ys := map_result f l' in Ok (y :: ys)
  end.

(** ** From [serde_json::Value] *)

Definition from_serde_number (n : Number) : result JcsValue McpsError :=
  match as_i64 n with
  | Some i => try? check_safe_integer i ;; Ok (JInteger i)
  | None =>
      match as_u64 n with
      | Some u => if MAX_SAFE_INTEGER <? u then Err CanonicalizationFailed else Ok (JInteger u)
      | None => Err CanonicalizationFailed
      end
  end.

Definition on_member {A B E : Type} (f : A -> result B E) (kv : rstr * A) : result (rstr * B) E :=
  let? v := f kv.2 in Ok (kv.1, v).

Fixpoint from_serde_value_at (room : nat) (v : Value) : result JcsValue McpsError :=
  match v with
  | VNull => Ok JNull
  | VBool b => Ok (JBool b)
  | VNumber n => from_serde_number n
  | VString s => Ok (JString s)
  | VArray items =>
      match room with
      | O => Err CanonicalizationFailed
      | S room' => let? out := map_result (from_serde_value_at room') items in Ok (JArray out)
      end
  | VObject m =>
      match room with
      | O => Err CanonicalizationFailed
      | S room' =>
          let? out := map_result (on_member (from_serde_value_at room')) m in Ok (JObject out)
      end
  end.

Definition from_serde_value (v : Value) : result JcsValue McpsError :=
  from_serde_value_at MAX_PARSE_DEPTH v.

(** ** Canonical serialization *)

Definition write_integer (i : Z) : rstr := display_signed i.

Definition hex_digit (n : Z) : rchar := if n <? 10 then 48 + n else 87 + n.

(** [{:04x}] of a code point below [0x10000]. *)
Definition hex4 (n : Z) : rstr :=
  [hex_digit (n / 4096 mod 16); hex_digit (n / 256 mod 16);
   hex_digit (n / 16 mod 16); hex_digit (n mod 16)].

(** The escape of one char in [write_string]: the double quote (34), the
    backslash (92), the short forms, then [\u00xx] for the other controls. *)
Definition write_char (c : rchar) : rstr :=
  if c =? 34 then [92; 34]
  else if c =? 92 then [92; 92]
  else if c =? 8 then str "\b"
  else if c =? 9 then str "\t"
  else if c =? 10 then str "\n"
  else if c =? 12 then str "\f"
  else if c =? 13 then str "\r"
  else if c <=? 31 then str "\u" ++ hex4 c
  else [c].

Definition write_string (s : rstr) : rstr :=
  [34] ++ (s ≫= write_char) ++ [34].

Fixpoint cmp_units (a b : list Z) : comparison :=
  match a, b with
  | x :: a', y :: b' => match x ?= y with Eq => cmp_units a' b' | other => other end
  | _ :: _, [] => Gt
  | [], _ :: _ => Lt
  | [], [] => Eq
  end.

Definition cmp_utf16 (a b : rstr) : comparison :=
  cmp_units (encode_utf16 a) (encode_utf16 b).
Arguments cmp_utf16 : simpl never.

(** [slice::sort_by] on the member names: the stable sort. *)
Fixpoint insert_member {V : Type} (x : rstr * V) (l : list (rstr * V)) : list (rstr * V) :=
  match l with
  | [] => [x]
  | y :: l' =>
      match cmp_utf16 x.1 y.1 with
      | Gt => y :: insert_member x l'
      | _ => x :: y :: l'
      end
  end.

Fixpoint sort_members {V : Type} (l : list (rstr * V)) : list (rstr * V) :=
  match l with
  | [] => []
  | x :: l' => insert_member x (sort_members l')
  end.

(** [sorted.windows(2).any(..)]: two neighbours with the same name. *)
Fixpoint adjacent_dup {V : Type} (l : list (rstr * V)) : bool :=
  match l with
  | x :: (y :: _) as l' => bool_decide (x.1 = y.1) || adjacent_dup l'
  | _ => false
  end.

(** The separators of an emitted container: a comma before every element
    but the first. *)
Fixpoint join_comma (pieces : list rstr) : rstr :=
  match pieces with
  | [] => []
  | [p] => p
  | p :: ps => p ++ [44] ++ join_comma ps
  end.

Definition write_member {E : Type} (w : JcsValue -> result rstr E) (kv : rstr * JcsValue)
  : result rstr E :=
  let? t := w kv.2 in Ok (write_string kv.1 ++ [58] ++ t).

(** The text [write_value] appends to its output buffer. *)
Fixpoint write_value (room : nat) (v : JcsValue) : result rstr McpsError :=
  match v with
  | JNull => Ok (str "null")
  | JBool true => Ok (str "true")
  | JBool false => Ok (str "false")
  | JInteger i => Ok (write_integer i)
  | JString s => Ok (write_string s)
  | JArray items =>
      match room with
      | O => Err CanonicalizationFailed
      | S room' =>
          let? pieces := map_result (write_value room') items in
          Ok ([91] ++ join_comma pieces ++ [93])
      end
  | JObject members =>
      match room with
      | O => Err CanonicalizationFailed
      | S room' =>
          let sorted := sort_members members in
          if adjacent_dup sorted then Err CanonicalizationFailed else
          let? pieces := map_result (write_member (write_value room')) sorted in
          Ok ([123] ++ join_comma pieces ++ [125])
      end
  end.

Definition canonicalize_value (v : JcsValue) : result bytes McpsError :=
  let? out := write_value MAX_PARSE_DEPTH v in Ok (as_bytes out).

Definition canonicalize_json_value (v : Value) : result bytes McpsError :=
  let? jcs := from_serde_value v in canonicalize_value jcs.

(** ** The raw-bytes parser *)

(** The outcome of a parser step: a value with the remaining chars, an error,
    or an exhausted loop bound. *)
Inductive presult (A : Type) : Type :=
| POk (a : A) (p : rstr)
| PErr (e : McpsError)
| PFuel.
Arguments POk {A} a p.
Arguments PErr {A} e.
Arguments PFuel {A}.

Notation "'do?' ( x , p ) ':=' c 'in' k" :=
  (match c with POk x p => k | PErr e => PErr e | PFuel => PFuel end)
  (at level 10, x pattern, p name, c at level 99, k at level 200) : rust_scope.

Definition PFail {A : Type} : presult A := PErr CanonicalizationFailed.

Definition at_end (p : rstr) : bool := is_empty p.
Definition peek (p : rstr) : option rchar := head p.

(** [self.peek() == Some(c)]. *)
Definition peek_is (c : rchar) (p : rstr) : bool :=
  match p with c' :: _ => c' =? c | [] => false end.

Definition bump (p : rstr) : option rchar * rstr :=
  match p with c :: p' => (Some c, p') | [] => (None, p) end.

Definition is_ws (c : rchar) : bool := (c =? 32) || (c =? 9) || (c =? 10) || (c =? 13).

Fixpoint skip_ws (p : rstr) : rstr :=
  match p with
  | c :: p' => if is_ws c then skip_ws p' else p
  | [] => []
  end.

Definition expect (c : rchar) (p : rstr) : presult unit :=
  match p with
  | c' :: p' => if c' =? c then POk tt p' else PFail
  | [] => PFail
  end.

Fixpoint parse_literal (literal : rstr) (p : rstr) : presult unit :=
  match literal with
  | [] => POk tt p
  | c :: literal' => do? (_, p') := expect c p in parse_literal literal' p'
  end.

Definition parse_bool (p : rstr) : presult JcsValue :=
  if peek_is 116 p then do? (_, p') := parse_literal (str "true") p in POk (JBool true) p'
  else if peek_is 102 p then do? (_, p') := parse_literal (str "false") p in POk (JBool false) p'
  else PFail.

Definition parse_null (p : rstr) : presult JcsValue :=
  do? (_, p') := parse_literal (str "null") p in POk JNull p'.

(** [char::to_digit(16)]. *)
Definition to_digit16 (c : rchar) : option Z :=
  if (48 <=? c) && (c <=? 57) then Some (c - 48)
  else if (97 <=? c) && (c <=? 102) then Some (c - 87)
  else if (65 <=? c) && (c <=? 70) then Some (c - 55)
  else None.

Fixpoint read_hex (n : nat) (value : Z) (p : rstr) : presult Z :=
  match n with
  | O => POk value p
  | S n' =>
      match p with
      | c :: p' =>
          match to_digit16 c with
          | Some digit => read_hex n' (value * 16 + digit) p'
          | None => PFail
          end
      | [] => PFail
      end
  end.

Definition read_hex4 (p : rstr) : presult Z := read_hex 4 0 p.

Definition lift_char (c : Z) (p : rstr) : presult rchar :=
  match char_from_u32 c with Some ch => POk ch p | None => PFail end.

Definition parse_unicode_escape (p : rstr) : presult rchar :=
  do? (first, p) := read_hex4 p in
  if (0xD800 <=? first) && (first <=? 0xDBFF) then
    do? (_, p) := expect 92 p in
    do? (_, p) := expect 117 p in
    do? (second, p) := read_hex4 p in
    if negb ((0xDC00 <=? second) && (second <=? 0xDFFF)) then PFail
    else lift_char (0x10000 + Z.shiftl (first - 0xD800) 10 + (second - 0xDC00)) p
  else if (0xDC00 <=? first) && (first <=? 0xDFFF) then PFail
  else lift_char first p.

(** The char an escape stands for; the backslash is already consumed. *)
Definition parse_escape (p : rstr) : presult rchar :=
  match p with
  | [] => PFail
  | esc :: p' =>
      if esc =? 34 then POk 34 p'
      else if esc =? 92 then POk 92 p'
      else if esc =? 47 then POk 47 p'
      else if esc =? 98 then POk 8 p'
      else if esc =? 102 then POk 12 p'
      else if esc =? 110 then POk 10 p'
      else if esc =? 114 then POk 13 p'
      else if esc =? 116 then POk 9 p'
      else if esc =? 117 then parse_unicode_escape p'
      else PFail
  end.

Fixpoint parse_string_loop (fuel : nat) (out : rstr) (p : rstr) : presult rstr :=
  match fuel with
  | O => PFuel
  | S fuel' =>
      match p with
      | [] => PFail
      | c :: p' =>
          if c =? 34 then POk out p'
          else if c =? 92 then
            do? (ch, p'') := parse_escape p' in parse_string_loop fuel' (out ++ [ch]) p''
          else if c <=? 31 then PFail
          else parse_string_loop fuel' (out ++ [c]) p'
      end
  end.

Definition parse_string (p : rstr) : presult rstr :=
  do? (_, p) := expect 34 p in parse_string_loop (S (length p)) [] p.

Fixpoint skip_digits (p : rstr) : rstr :=
  match p with
  | d :: p' => if is_ascii_digit d then skip_digits p' else p
  | [] => []
  end.

(** The integer part: a single [0], or a non-zero digit and more digits. *)
Definition skip_int_part (p : rstr) : option rstr :=
  match p with
  | c :: p' =>
      if c =? 48 then Some p'
      else if (49 <=? c) && (c <=? 57) then Some (skip_digits p')
      else None
  | [] => None
  end.

Definition parse_number (start : rstr) : presult JcsValue :=
  let p := if peek_is 45 start then (bump start).2 else start in
  match skip_int_part p with
  | None => PFail
  | Some p =>
      if peek_is 46 p || peek_is 101 p || peek_is 69 p then PFail
      else
        let token := take (length start - length p) start in
        match parse_i64 token with
        | None => PFail
        | Some parsed =>
            match check_safe_integer parsed with
            | Err e => PErr e
            | Ok _ => POk (JInteger parsed) p
            end
        end
  end.

Section containers.
Context (parse_value : rstr -> presult JcsValue).

Fixpoint object_loop (fuel : nat) (members : list (rstr * JcsValue)) (seen : gset rstr)
    (p : rstr) : presult JcsValue :=
  match fuel with
  | O => PFuel
  | S fuel' =>
      let p := skip_ws p in
      if negb (peek_is 34 p) then PFail else
      do? (key, p) := parse_string p in
      if bool_decide (key ∈ seen) then PFail else
      let p := skip_ws p in
      do? (_, p) := expect 58 p in
      let p := skip_ws p in
      do? (value, p) := parse_value p in
      let p := skip_ws p in
      match p with
      | c :: p' =>
          if c =? 44 then object_loop fuel' (members ++ [(key, value)]) ({[key]} ∪ seen) p'
          else if c =? 125 then POk (JObject (members ++ [(key, value)])) p'
          else PFail
      | [] => PFail
      end
  end.

Definition parse_object (p : rstr) : presult JcsValue :=
  do? (_, p) := expect 123 p in
  let p := skip_ws p in
  if peek_is 125 p then POk (JObject []) (bump p).2
  else object_loop (S (length p)) [] ∅ p.

Fixpoint array_loop (fuel : nat) (items : list JcsValue) (p : rstr) : presult JcsValue :=
  match fuel with
  | O => PFuel
  | S fuel' =>
      let p := skip_ws p in
      do? (value, p) := parse_value p in
      let p := skip_ws p in
      match p with
      | c :: p' =>
          if c =? 44 then array_loop fuel' (items ++ [value]) p'
          else if c =? 93 then POk (JArray (items ++ [value])) p'
          else PFail
      | [] => PFail
      end
  end.

Definition parse_array (p : rstr) : presult JcsValue :=
  do? (_, p) := expect 91 p in
  let p := skip_ws p in
  if peek_is 93 p then POk (JArray []) (bump p).2
  else array_loop (S (length p)) [] p.
End containers.

(** The leaf cases of [parse_value], which add no depth. *)
Definition parse_leaf (p : rstr) : presult JcsValue :=
  match p with
  | [] => PFail
  | c :: _ =>
      if c =? 34 then do? (s, p') := parse_string p in POk (JString s) p'
      else if (c =? 116) || (c =? 102) then parse_bool p
      else if c =? 110 then parse_null p
      else if (c =? 45) || is_ascii_digit c then parse_number p
      else PFail
  end.

Fixpoint parse_value (room : nat) (p : rstr) : presult JcsValue :=
  if peek_is 123 p || peek_is 91 p then
    match room with
    | O => PFail
    | S room' =>
        if peek_is 123 p then parse_object (parse_value room') p
        else parse_array (parse_value room') p
    end
  else parse_leaf p.

(** [parse], with the loop-bound outcome still visible. *)
Definition parse_steps (input : bytes) : presult JcsValue :=
  match from_utf8 input with
  | None => PFail
  | Some text =>
      let p := skip_ws text in
      do? (value, p) := parse_value MAX_PARSE_DEPTH p in
      let p := skip_ws p in
      if negb (at_end p) then PFail else POk value p
  end.

Definition parse (input : bytes) : result JcsValue McpsError :=
  match parse_steps input with
  | POk v _ => Ok v
  | PErr e => Err e
  | PFuel => Err CanonicalizationFailed
  end.

Definition canonicalize (input : bytes) : result bytes McpsError :=
  let? value := parse input in canonicalize_value value.

Example canonicalize_sorts :
  canonicalize (json_text " { 'b' : [ 1, -0 , true ] , 'a':'\u00e9\n' } ")
  = Ok (json_text "{'a':'" ++ [0xC3; 0xA9] ++ json_text "\n','b':[1,0,true]}").
Proof. vm_compute. reflexivity. Qed.
