(* ===== verification/Strings.v ===== *)
(** * String slices and byte orders of the Rust standard library

    The [str] methods the proxy's header parsers use, over strings as lists
    of code points: trimming, lines, splitting, ASCII case, and the
    big-endian integer encodings. *)

From S2P Require Import Prelude Utf8 Canonical.

(** [char::is_whitespace]: the Unicode property [White_Space]. *)
Definition is_whitespace (c : rchar) : bool :=
  in_range 0x9 0xD c || (c =? 0x20) || (c =? 0x85) || (c =? 0xA0) || (c =? 0x1680) ||
  in_range 0x2000 0x200A c || (c =? 0x2028) || (c =? 0x2029) || (c =? 0x202F) ||
  (c =? 0x205F) || (c =? 0x3000).

(** [char::is_control]: the general category [Cc]. *)
Definition is_control (c : rchar) : bool := in_range 0 0x1F c || in_range 0x7F 0x9F c.

Fixpoint trim_start (s : rstr) : rstr :=
  match s with
  | c :: s' => if is_whitespace c then trim_start s' else s
  | [] => []
  end.

(** [str::trim]. *)
Definition trim (s : rstr) : rstr := reverse (trim_start (reverse (trim_start s))).

(** [str::to_ascii_lowercase], [str::eq_ignore_ascii_case]. *)
Definition ascii_lower (c : rchar) : rchar := if in_range 65 90 c then c + 32 else c.
Definition to_ascii_lowercase (s : rstr) : rstr := ascii_lower <$> s.
Definition eq_ignore_ascii_case (s t : rstr) : bool :=
  bool_decide (to_ascii_lowercase s = to_ascii_lowercase t).

(** [u8::is_ascii_hexdigit]. *)
Definition is_ascii_hexdigit (b : Z) : bool :=
  in_range 48 57 b || in_range 65 70 b || in_range 97 102 b.

(** [str::strip_suffix]. *)
Definition strip_suffix (suf s : rstr) : option rstr :=
  reverse <$> strip_prefix (reverse suf) (reverse s).

(** [str::split_once] at a char. *)
Fixpoint split_once (sep : rchar) (s : rstr) : option (rstr * rstr) :=
  match s with
  | [] => None
  | c :: s' =>
      if c =? sep then Some ([], s')
      else prod_map (cons c) id <$> split_once sep s'
  end.

(** [str::split] at a char. *)
Fixpoint split_on (sep : rchar) (part s : rstr) : list rstr :=
  match s with
  | [] => [part]
  | c :: s' => if c =? sep then part :: split_on sep [] s' else split_on sep (part ++ [c]) s'
  end.
Definition str_split (sep : rchar) (s : rstr) : list rstr := split_on sep [] s.

(** [str::lines]: pieces ended by a newline, the newline and one carriage
    return before it removed; a last piece without a newline is kept when it
    is not empty. *)
Fixpoint lines_from (part s : rstr) : list rstr :=
  match s with
  | [] => if is_empty part then [] else [part]
  | c :: s' =>
      if c =? 10
      then match strip_suffix [13] part with Some line => line | None => part end :: lines_from [] s'
      else lines_from (part ++ [c]) s'
  end.
Definition str_lines (s : rstr) : list rstr := lines_from [] s.

(** [str::parse] at an unsigned type with the given maximum: an optional plus
    sign, then digits only, in range. *)
Definition parse_unsigned (max : Z) (s : rstr) : option Z :=
  let ds := match s with c :: d :: ds => if c =? 43 then d :: ds else s | _ => s end in
  if negb (is_empty ds) && forallb is_ascii_digit ds && (dec_value 0 ds <=? max)
  then Some (dec_value 0 ds) else None.

(** ** Big-endian integers *)

Fixpoint be_bytes (n : nat) (z : Z) : bytes :=
  match n with
  | O => []
  | S n' => be_bytes n' (z / 256) ++ [z mod 256]
  end.

Definition be_value (bs : bytes) : Z := foldl (fun a b => a * 256 + b) 0 bs.

(** [u64::to_be_bytes], [i64::to_be_bytes] (two's complement). *)
Definition to_be_bytes (z : Z) : bytes := be_bytes 8 z.
Arguments to_be_bytes : simpl never.

(** [i64::from_be_bytes]. *)
Definition i64_from_be_bytes (bs : bytes) : Z :=
  let v := be_value bs in if v <? 2 ^ 63 then v else v - 2 ^ 64.

(** ** Lemmas *)

Lemma strip_suffix_Some suf s t : strip_suffix suf s = Some t <-> s = t ++ suf.
Proof.
  unfold strip_suffix. rewrite fmap_Some. setoid_rewrite strip_prefix_Some. split.
  - intros (x & Hx & ->). rewrite <- (reverse_involutive s), Hx, reverse_app, reverse_involutive. done.
  - intros ->. exists (reverse t). by rewrite reverse_app, reverse_involutive.
Qed.

Lemma split_once_Some sep s a b :
  split_once sep s = Some (a, b) <-> s = a ++ [sep] ++ b /\ sep ∉ a.
Proof.
  revert a b. induction s as [|c s IH]; intros a b; cbn; [destruct a; naive_solver|].
  destruct (Z.eqb_spec c sep) as [->|Hne].
  - split; [intros [= <- <-]; split; [done|apply not_elem_of_nil]|].
    intros [Hs Ha]. destruct a as [|x a]; cbn in Hs; simplify_eq; [done|]. set_solver.
  - rewrite fmap_Some. split.
    + intros ([x y] & [-> Hx]%IH & [= -> ->]). split; [done|]. rewrite not_elem_of_cons. naive_solver.
    + intros [Hs Ha]. destruct a as [|x a]; cbn in Hs; [naive_solver|]. simplify_eq.
      exists (a, b). rewrite IH. split; [|done]. split; [done|]. set_solver.
Qed.

Lemma split_once_None sep s : split_once sep s = None <-> sep ∉ s.
Proof.
  induction s as [|c s IH]; cbn; [split; [intros; apply not_elem_of_nil|done]|].
  rewrite not_elem_of_cons. destruct (Z.eqb_spec c sep) as [->|Hne]; [naive_solver|].
  rewrite fmap_None, IH. naive_solver.
Qed.

(** A part ends at the first separator. *)
Lemma sep_inj (c : rchar) s s' t t' : c ∉ s -> c ∉ s' -> s ++ c :: t = s' ++ c :: t' -> s = s' /\ t = t'.
Proof.
  revert s'. induction s as [|x s IH]; intros [|y s'] Hs Hs' H; cbn in H; inversion H; subst; clear H.
  - done.
  - destruct Hs'. by left.
  - destruct Hs. by left.
  - apply not_elem_of_cons in Hs as [_ Hs], Hs' as [_ Hs']. by destruct (IH s' Hs Hs' ltac:(done)) as [-> ->].
Qed.

(** Joining with a separator. *)
Fixpoint join_with (sep : rchar) (parts : list rstr) : rstr :=
  match parts with
  | [] => []
  | [p] => p
  | p :: ps => p ++ [sep] ++ join_with sep ps
  end.

Lemma join_with_cons sep p ps : ps <> [] -> join_with sep (p :: ps) = p ++ [sep] ++ join_with sep ps.
Proof. by destruct ps. Qed.

Lemma split_on_spec sep part s :
  sep ∉ part ->
  split_on sep part s <> [] /\ join_with sep (split_on sep part s) = part ++ s /\
  Forall (fun p => sep ∉ p) (split_on sep part s).
Proof.
  revert part. induction s as [|c s IH]; intros part Hp; cbn.
  - rewrite app_nil_r. split; [done|]. split; [done|]. by repeat constructor.
  - destruct (Z.eqb_spec c sep) as [->|Hne].
    + destruct (IH [] ltac:(apply not_elem_of_nil)) as (Hn & Hj & Hf).
      rewrite join_with_cons by done. rewrite Hj. split; [done|]. split; [done|]. by constructor.
    + destruct (IH (part ++ [c])) as (Hn & Hj & Hf).
      { rewrite not_elem_of_app, not_elem_of_cons. split; [done|]. split; [congruence|apply not_elem_of_nil]. }
      rewrite Hj. split; [done|]. split; [by rewrite <- (assoc_L (++))|done].
Qed.

Lemma length_be_bytes n z : length (be_bytes n z) = n.
Proof. revert z; induction n; intros z; cbn; [done|]. rewrite length_app, IHn. cbn. lia. Qed.

Lemma be_bytes_range n z : Forall (fun b => 0 <= b < 256) (be_bytes n z).
Proof.
  revert z; induction n; intros z; cbn; [done|]. apply Forall_app; split; [done|].
  repeat constructor; apply Z.mod_pos_bound; lia.
Qed.

Lemma be_value_bytes n z : be_value (be_bytes n z) = z mod 256 ^ Z.of_nat n.
Proof.
  revert z. induction n as [|n IH]; intros z; cbn [be_bytes]; [by rewrite Z.mod_1_r|].
  unfold be_value in *. rewrite foldl_app, IH. cbn [foldl].
  rewrite Nat2Z.inj_succ, Z.pow_succ_r by lia.
  rewrite Z.rem_mul_r by (try apply Z.pow_pos_nonneg; lia). lia.
Qed.

Lemma to_be_bytes_unsigned z : in_u64 z -> be_value (to_be_bytes z) = z.
Proof.
  unfold in_u64, U64_MAX, to_be_bytes. intros Hz. rewrite be_value_bytes. apply Z.mod_small.
  change (256 ^ Z.of_nat 8) with (2 ^ 64). lia.
Qed.

Lemma to_be_bytes_signed z : in_i64 z -> i64_from_be_bytes (to_be_bytes z) = z.
Proof.
  unfold in_i64, I64_MIN, I64_MAX, i64_from_be_bytes, to_be_bytes. intros Hz. rewrite be_value_bytes.
  change (256 ^ Z.of_nat 8) with (2 ^ 64). destruct (Z.ltb_spec z 0).
  - rewrite <- (Z.mod_add z 1 (2 ^ 64)) by lia. rewrite Z.mod_small by lia. zguard. lia.
  - rewrite Z.mod_small by lia. zguard. lia.
Qed.

Lemma to_be_bytes_unsigned_inj a b : in_u64 a -> in_u64 b -> to_be_bytes a = to_be_bytes b -> a = b.
Proof. intros Ha Hb E. by rewrite <- (to_be_bytes_unsigned a), E, to_be_bytes_unsigned. Qed.

Lemma to_be_bytes_signed_inj a b : in_i64 a -> in_i64 b -> to_be_bytes a = to_be_bytes b -> a = b.
Proof. intros Ha Hb E. by rewrite <- (to_be_bytes_signed a), E, to_be_bytes_signed. Qed.

(** ** Parsing what is displayed *)

Lemma parse_unsigned_display max n : 0 <= n <= max -> parse_unsigned max (display_unsigned n) = Some n.
Proof.
  intros Hn. destruct (display_unsigned_spec n ltac:(lia)) as [(Hne & Hd & Hv & _) _]. unfold parse_unsigned.
  assert (E : match display_unsigned n with c :: d :: ds => if c =? 43 then d :: ds else display_unsigned n | _ => display_unsigned n end = display_unsigned n).
  { destruct (display_unsigned n) as [|c [|d ds]]; try done. apply Forall_cons in Hd as [Hd%is_ascii_digit_spec _].
    destruct (Z.eqb_spec c 43); [lia|done]. }
  rewrite E, Hv. destruct (display_unsigned n) eqn:Eq; [done|]. rewrite <- Eq in *. cbn [is_empty negb].
  rewrite (proj2 (forallb_Forall_true _ _)) by done. rewrite (proj2 (Z.leb_le _ _)) by lia. by rewrite Eq.
Qed.

Lemma parse_unsigned_range max s n : parse_unsigned max s = Some n -> 0 <= n <= max.
Proof.
  unfold parse_unsigned. set (ds := match s with [] => _ | _ => _ end). destruct (_ && _) eqn:E; [|done]. intros [= <-].
  breflect. split; [|done]. apply dec_value_nonneg; [done|]. by apply forallb_Forall_true.
Qed.

Lemma trim_start_id s c t : s = c :: t -> is_whitespace c = false -> trim_start s = s.
Proof. intros -> H. cbn. by rewrite H. Qed.

(** Trimming text without white space at its ends. *)
Lemma trim_padded s :
  s <> [] -> Forall (fun c => is_whitespace c = false) s -> trim (32 :: s) = s /\ trim s = s.
Proof.
  intros Hne H. assert (E : trim s = s).
  { unfold trim. destruct s as [|c t]; [done|]. rewrite (trim_start_id _ c t eq_refl) by (by inversion H).
    destruct (reverse (c :: t)) as [|r rs] eqn:Er.
    { apply (f_equal length) in Er. rewrite length_reverse in Er. done. }
    rewrite (trim_start_id _ r rs eq_refl); [by rewrite <- Er, reverse_involutive|].
    eapply (Forall_forall _ (c :: t)) in H; [exact H|]. apply elem_of_reverse. rewrite Er. by left. }
  split; [|done]. unfold trim in *. exact E.
Qed.
