(* ===== verification/Tiers.v ===== *)
(** * Declared durability and revocation tiers

    [mcps-proxy/src/replay_tier.rs] and [revocation_tier.rs]: the tiers an
    operator declares, the parsing of their names, and the claims the sidecar
    surfaces for them.  [str::to_lowercase] is a function of the Unicode tables;
    only its values on ASCII text matter. *)

From S2P Require Import Prelude Utf8 Canonical Strings.

Definition is_ascii_text (s : rstr) : bool := forallb (fun c => in_range 0 127 c) s.

Class Lowercase := to_lowercase : rstr -> rstr.
Class LowercaseLaws `{Lowercase} : Prop := {
  to_lowercase_ascii s : is_ascii_text s = true -> to_lowercase s = to_ascii_lowercase s;
}.

(** [str::parse] at [i64] and [u32]. *)
Definition parse_i64 (s : rstr) : option Z :=
  match s with
  | c :: d :: _ =>
      if c =? 45 then if is_ascii_digit d then Z.opp <$> parse_unsigned (2 ^ 63) (drop 1 s) else None
      else parse_unsigned (2 ^ 63 - 1) s
  | _ => parse_unsigned (2 ^ 63 - 1) s
  end.
Definition parse_u64 (s : rstr) : option Z := parse_unsigned U64_MAX s.
Definition parse_u32 (s : rstr) : option Z := parse_unsigned (2 ^ 32 - 1) s.

(** ** The replay store *)

Inductive ReplayDurabilityTier : Type :=
| RedisAsyncBounded
| RedisWaitQuorum (quorum timeout_ms : Z)
| Linearizable
| SingleStoreFailClosed.

Inductive TierError : Type := TierUnknown | TierNoParameters | TierBadQuorum | TierBadTimeout | TierBadWindow | TierTrailing.

(** [parts.next().and_then(parse).filter(|q| *q >= 1)]. *)
Definition positive_part (parse : rstr -> option Z) (part : option rstr) : option Z :=
  p ← part; n ← parse p; if 1 <=? n then Some n else None.

Module ReplayTier.
Definition parse `{Lowercase} (value : rstr) : result ReplayDurabilityTier TierError :=
  let lower := to_lowercase (trim value) in
  if bool_decide (lower = str "redis-async") then Ok RedisAsyncBounded
  else if bool_decide (lower = str "linearizable") then Ok Linearizable
  else if bool_decide (lower = str "single-store-fail-closed") then Ok SingleStoreFailClosed
  else
    let? rest := ok_or (strip_prefix (str "redis-wait-quorum") lower) TierUnknown in
    let parts := str_split 58 rest in
    if negb (bool_decide (head parts = Some [])) then Err TierNoParameters
    else
      let? quorum := ok_or (positive_part parse_u32 (parts !! 1%nat)) TierBadQuorum in
      let? timeout_ms := ok_or (positive_part parse_u64 (parts !! 2%nat)) TierBadTimeout in
      match parts !! 3%nat with
      | Some _ => Err TierTrailing
      | None => Ok (RedisWaitQuorum quorum timeout_ms)
      end.

Definition wire_name (t : ReplayDurabilityTier) : rstr :=
  match t with
  | RedisAsyncBounded => str "REDIS_ASYNC"
  | RedisWaitQuorum _ _ => str "REDIS_WAIT_QUORUM"
  | Linearizable => str "LINEARIZABLE"
  | SingleStoreFailClosed => str "SINGLE_STORE_FAIL_CLOSED"
  end.

Definition guarantee (t : ReplayDurabilityTier) : rstr :=
  match t with
  | RedisAsyncBounded =>
      str "replay-safe in steady state; a failover or restart-with-state-loss may reopen a replay window bounded by the freshness window"
  | RedisWaitQuorum _ _ =>
      str "materially reduced failover replay risk; WAIT timeout or insufficient acks fail closed; not linearizable / not unconditional"
  | Linearizable =>
      str "strongest horizontal replay-safety claim, conditional on the store's durable linearizable write contract and correct freshness enforcement"
  | SingleStoreFailClosed =>
      str "strong only under the fail-closed invariant: the fleet rejects protected requests on store unavailability or possible state loss until the freshness window elapses"
  end.

Definition startup_audit_line (t : ReplayDurabilityTier) (backend : rstr) : rstr :=
  str "replay-store backend=" ++ backend ++ str " tier=" ++ wire_name t ++ str " guarantee=" ++ [34] ++ guarantee t ++ [34].

Definition meets_strict_production_minimum (t : ReplayDurabilityTier) : bool :=
  match t with RedisWaitQuorum _ _ | Linearizable => true | _ => false end.

(** How an operator spells a tier. *)
Definition spelling (t : ReplayDurabilityTier) : rstr :=
  match t with
  | RedisAsyncBounded => str "redis-async"
  | RedisWaitQuorum q ms => str "redis-wait-quorum:" ++ display_unsigned q ++ [58] ++ display_unsigned ms
  | Linearizable => str "linearizable"
  | SingleStoreFailClosed => str "single-store-fail-closed"
  end.
End ReplayTier.

(** ** Revocation *)

Inductive RevocationTier : Type :=
| BoundedCache (t_secs : Z)
| Live
| Push (t_secs : Z).

Module RevTier.
Definition parse_window (rest : rstr) : result Z TierError :=
  let parts := str_split 58 rest in
  if negb (bool_decide (head parts = Some [])) then Err TierNoParameters
  else
    let? t_secs := ok_or (positive_part parse_i64 (parts !! 1%nat)) TierBadWindow in
    match parts !! 2%nat with
    | Some _ => Err TierTrailing
    | None => Ok t_secs
    end.

Definition parse `{Lowercase} (value : rstr) : result RevocationTier TierError :=
  let lower := to_lowercase (trim value) in
  if bool_decide (lower = str "live") then Ok Live
  else
    match strip_prefix (str "bounded-cache") lower with
    | Some rest => let? t_secs := parse_window rest in Ok (BoundedCache t_secs)
    | None =>
        match strip_prefix (str "push") lower with
        | Some rest => let? t_secs := parse_window rest in Ok (Push t_secs)
        | None => Err TierUnknown
        end
    end.

Definition wire_name (t : RevocationTier) : rstr :=
  match t with BoundedCache _ => str "BOUNDED_CACHE" | Live => str "LIVE" | Push _ => str "PUSH" end.

Definition guarantee (t : RevocationTier) : rstr :=
  match t with
  | BoundedCache _ =>
      str "revocation enforced fleet-wide within the bounded window T; on store outage cached active state is usable only until T, then fail closed; NOT zero-window / NOT live / NOT push"
  | Live =>
      str "near-zero revocation window: the store is consulted on every verification with no positive-trust caching, at the cost of a per-request store round-trip and a hard availability dependency (store unavailability fails closed); NOT proven zero-window"
  | Push _ =>
      str "near-zero revocation window with bounded-T fallback: a pushed revocation evicts affected entries immediately, but on invalidation-channel failure entries fall back to expiry within the bounded window T; NOT zero-window (the reference channel does not prove reliable ordering/delivery)"
  end.

Definition startup_audit_line (t : RevocationTier) (backend : rstr) : rstr :=
  str "trust-store backend=" ++ backend ++ str " revocation-tier=" ++ wire_name t ++ str " guarantee=" ++ [34] ++ guarantee t ++ [34].

Definition claims_zero_window (_ : RevocationTier) : bool := false.

Definition spelling (t : RevocationTier) : rstr :=
  match t with
  | BoundedCache n => str "bounded-cache:" ++ display_unsigned n
  | Live => str "live"
  | Push n => str "push:" ++ display_unsigned n
  end.
End RevTier.

(** ** Parsing *)


Lemma split_on_app sep part a b : sep ∉ a -> split_on sep part (a ++ sep :: b) = (part ++ a) :: str_split sep b.
Proof.
  revert part. induction a as [|c a IH]; intros part Ha; cbn [app split_on].
  - by rewrite Z.eqb_refl, app_nil_r.
  - rewrite not_elem_of_cons in Ha. rewrite (proj2 (Z.eqb_neq c sep)) by (intros ->; tauto).
    rewrite IH by tauto. by rewrite <- (assoc_L (++)).
Qed.

Lemma split_on_last sep part a : sep ∉ a -> split_on sep part a = [part ++ a].
Proof.
  revert part. induction a as [|c a IH]; intros part Ha; cbn [split_on]; [by rewrite app_nil_r|].
  rewrite not_elem_of_cons in Ha. rewrite (proj2 (Z.eqb_neq c sep)) by (intros ->; tauto).
  rewrite IH by tauto. by rewrite <- (assoc_L (++)).
Qed.

Lemma display_no_colon n : 0 <= n -> 58 ∉ display_unsigned n.
Proof.
  intros Hn. destruct (display_unsigned_spec n Hn) as [(_ & Hd & _) _]. intros H.
  eapply (Forall_forall _ (display_unsigned n)) in Hd; [|exact H]. cbn in Hd. lia.
Qed.

Lemma parse_i64_of_display n : 0 <= n < 2 ^ 63 -> parse_i64 (display_unsigned n) = Some n.
Proof.
  intros Hn. assert (E : parse_i64 (display_unsigned n) = parse_unsigned (2 ^ 63 - 1) (display_unsigned n)).
  { destruct (display_unsigned_spec n ltac:(lia)) as [(_ & Hd & _) _]. unfold parse_i64.
    destruct (display_unsigned n) as [|c [|d ds]]; try done.
    apply Forall_cons in Hd as [Hd%is_ascii_digit_spec _]. by rewrite (proj2 (Z.eqb_neq c 45)) by lia. }
  rewrite E. apply parse_unsigned_display. lia.
Qed.

Lemma parse_i64_range s n : parse_i64 s = Some n -> -2 ^ 63 <= n < 2 ^ 63.
Proof.
  assert (H : forall s, parse_unsigned (2 ^ 63 - 1) s = Some n -> -2 ^ 63 <= n < 2 ^ 63)
    by (intros s' Hs%parse_unsigned_range; lia).
  unfold parse_i64. destruct s as [|c [|d ds]]; try apply H. destruct (c =? 45); [|apply H]. destruct (is_ascii_digit d); [|done].
  intros (m & Hm%parse_unsigned_range & ->)%fmap_Some. lia.
Qed.

Lemma positive_part_display parse max n :
  (forall n, 0 <= n <= max -> parse (display_unsigned n) = Some n) -> 1 <= n <= max ->
  positive_part parse (Some (display_unsigned n)) = Some n.
Proof. intros Hp Hn. unfold positive_part. cbn [mbind option_bind]. rewrite Hp by lia. cbn [mbind option_bind]. by rewrite (proj2 (Z.leb_le 1 n)) by lia. Qed.

Lemma positive_part_Some parse part n : positive_part parse part = Some n -> exists p, part = Some p /\ parse p = Some n /\ 1 <= n.
Proof.
  unfold positive_part. intros (p & -> & (m & Hm & H)%bind_Some)%bind_Some. exists p. destruct (Z.leb_spec 1 m); [|done].
  by simplify_eq.
Qed.

Definition replay_tier_ok (t : ReplayDurabilityTier) : Prop :=
  match t with RedisWaitQuorum q ms => 1 <= q < 2 ^ 32 /\ 1 <= ms < 2 ^ 64 | _ => True end.

Definition revocation_tier_ok (t : RevocationTier) : Prop :=
  match t with BoundedCache n | Push n => 1 <= n < 2 ^ 63 | Live => True end.

Ltac not_literal n := rewrite bool_decide_eq_false_2 by (intros E; apply (f_equal (take n)) in E; vm_compute in E; discriminate).

Lemma prefixed_window n : 1 <= n < 2 ^ 63 -> RevTier.parse_window (58 :: display_unsigned n) = Ok n.
Proof.
  intros Hn. unfold RevTier.parse_window, str_split. change (58 :: display_unsigned n) with ([] ++ 58 :: display_unsigned n).
  rewrite split_on_app by apply not_elem_of_nil. unfold str_split. rewrite split_on_last by (apply display_no_colon; lia). cbn [app head list_lookup lookup].
  rewrite bool_decide_eq_true_2 by done. cbn [negb].
  rewrite (positive_part_display _ (2 ^ 63 - 1)); [done| |lia]. intros m Hm. apply parse_i64_of_display. lia.
Qed.

Lemma parse_window_range rest n : RevTier.parse_window rest = Ok n -> 1 <= n < 2 ^ 63.
Proof.
  unfold RevTier.parse_window. destruct (negb _); [done|].
  destruct (positive_part _ _) as [m|] eqn:E; cbn [ok_or]; [|done]. case_match; [done|]. intros [= <-].
  apply positive_part_Some in E as (p & _ & Hp%parse_i64_range & H1). lia.
Qed.

Lemma replay_tier_parse_ok `{Lowercase} value t : ReplayTier.parse value = Ok t -> replay_tier_ok t.
Proof.
  unfold ReplayTier.parse. repeat (destruct (bool_decide _); [intros [= <-]; exact I|]).
  destruct (strip_prefix _ _); cbn [ok_or]; [|done]. destruct (negb _); [done|].
  destruct (positive_part parse_u32 _) as [q|] eqn:Eq; cbn [ok_or]; [|done].
  destruct (positive_part parse_u64 _) as [ms|] eqn:Em; cbn [ok_or]; [|done]. case_match; [done|]. intros [= <-].
  apply positive_part_Some in Eq as (? & _ & Hq%parse_unsigned_range & ?).
  apply positive_part_Some in Em as (? & _ & Hm%parse_unsigned_range & ?). unfold U64_MAX in *. cbn. lia.
Qed.

Lemma revocation_tier_parse_ok `{Lowercase} value t : RevTier.parse value = Ok t -> revocation_tier_ok t.
Proof.
  unfold RevTier.parse. destruct (bool_decide _); [intros [= <-]; exact I|].
  destruct (strip_prefix (str "bounded-cache") _) as [rest|]; [|destruct (strip_prefix _ _) as [rest|]; [|done]];
    (destruct (RevTier.parse_window rest) as [n|] eqn:E; [|done]); intros [= <-]; by apply parse_window_range in E.
Qed.

(** The declared tiers read back: whatever the case of its letters and the
    blanks around it, the spelling of a tier with parameters in range is parsed
    to that tier; and a tier that is accepted has a positive quorum and timeout
    of their widths, or a positive window, so no spelling disables a bound. *)
Theorem tiers_roundtrip `{LowercaseLaws} value :
  (forall t, is_ascii_text (trim value) = true -> to_ascii_lowercase (trim value) = ReplayTier.spelling t -> replay_tier_ok t ->
     ReplayTier.parse value = Ok t) /\
  (forall t, ReplayTier.parse value = Ok t -> replay_tier_ok t) /\
  (forall t, is_ascii_text (trim value) = true -> to_ascii_lowercase (trim value) = RevTier.spelling t -> revocation_tier_ok t ->
     RevTier.parse value = Ok t) /\
  (forall t, RevTier.parse value = Ok t -> revocation_tier_ok t).
Proof.
  split_and!.
  - intros t Ha Hs Ht. unfold ReplayTier.parse. rewrite to_lowercase_ascii, Hs by done. destruct t as [|q ms| |]; try done.
    destruct Ht as [Hq Hm]. cbn [ReplayTier.spelling]. not_literal 8%nat. not_literal 8%nat. not_literal 8%nat.
    assert (E : strip_prefix (str "redis-wait-quorum") (str "redis-wait-quorum:" ++ display_unsigned q ++ [58] ++ display_unsigned ms) =
      Some ([] ++ 58 :: (display_unsigned q ++ 58 :: display_unsigned ms))) by (apply strip_prefix_Some; done).
    rewrite E. cbn [ok_or]. unfold str_split. rewrite split_on_app by apply not_elem_of_nil. unfold str_split.
    rewrite split_on_app by (apply display_no_colon; lia). unfold str_split. rewrite split_on_last by (apply display_no_colon; lia).
    cbn [app head lookup list_lookup]. rewrite bool_decide_eq_true_2 by done. cbn [negb].
    rewrite (positive_part_display _ (2 ^ 32 - 1)); [|intros; by apply parse_unsigned_display|lia]. cbn [ok_or].
    rewrite (positive_part_display _ (2 ^ 64 - 1)); [done|intros; by apply parse_unsigned_display|lia].
  - apply replay_tier_parse_ok.
  - intros t Ha Hs Ht. unfold RevTier.parse. rewrite to_lowercase_ascii, Hs by done. destruct t as [n| |n]; cbn [RevTier.spelling].
    + not_literal 4%nat.
      assert (E : strip_prefix (str "bounded-cache") (str "bounded-cache:" ++ display_unsigned n) = Some (58 :: display_unsigned n))
        by (apply strip_prefix_Some; done).
      rewrite E. by rewrite prefixed_window.
    + done.
    + not_literal 4%nat.
      assert (E0 : strip_prefix (str "bounded-cache") (str "push:" ++ display_unsigned n) = None) by reflexivity.
      assert (E : strip_prefix (str "push") (str "push:" ++ display_unsigned n) = Some (58 :: display_unsigned n))
        by (apply strip_prefix_Some; done).
      rewrite E0, E. by rewrite prefixed_window.
  - apply revocation_tier_parse_ok.
Qed.

(** A stand-in that leaves other characters alone. *)
Definition ascii_only_lowercase : Lowercase := to_ascii_lowercase.
Lemma ascii_only_lowercase_laws : @LowercaseLaws ascii_only_lowercase.
Proof. split. done. Qed.
