(* ===== verification/CanonicalParse.v ===== *)
(** * The canonicalizer's parser: termination and the JCS-safe domain

    Every parser step consumes input and never exhausts its loop bound, and
    whatever it returns lies in the JCS-safe domain: integers within
    +-(2^53 - 1), strings of scalar values, unique member names at every
    level, nesting at most [MAX_PARSE_DEPTH]. *)

From S2P Require Import Prelude Utf8 Errors Json Canonical.

(** ** The JCS-safe domain *)

(** [jcs_wf room v]: [v] is JCS-safe and nests at most [room] containers. *)
Inductive jcs_wf : nat -> JcsValue -> Prop :=
| jwf_null room : jcs_wf room JNull
| jwf_bool room b : jcs_wf room (JBool b)
| jwf_integer room i :
    - MAX_SAFE_INTEGER <= i <= MAX_SAFE_INTEGER -> jcs_wf room (JInteger i)
| jwf_string room s : str_wf s -> jcs_wf room (JString s)
| jwf_array room l : Forall (jcs_wf room) l -> jcs_wf (S room) (JArray l)
| jwf_object room m :
    NoDup m.*1 -> Forall str_wf m.*1 -> Forall (fun kv => jcs_wf room kv.2) m ->
    jcs_wf (S room) (JObject m).

#[export] Hint Constructors jcs_wf : mcps.

(** ** What a parser step does *)

(** [parsed P n p r]: run on [p], the step [r] either fails (always with
    [CanonicalizationFailed]), or returns a
    value satisfying [P] and a suffix of [p] shorter by at least [n] chars;
    it never runs out of its loop bound. *)
Definition parsed {A} (P : A -> Prop) (n : nat) (p : rstr) (r : presult A) : Prop :=
  match r with
  | POk a p' => P a /\ p' `suffix_of` p /\ (length p' + n <= length p)%nat
  | PErr e => e = CanonicalizationFailed
  | PFuel => False
  end.

Lemma str_wf_suffix p p' : p' `suffix_of` p -> str_wf p -> str_wf p'.
Proof. intros [k ->] [_ H]%Forall_app. done. Qed.

Lemma parsed_mono {A} (P Q : A -> Prop) n m p r :
  parsed P n p r -> (forall a, P a -> Q a) -> (m <= n)%nat -> parsed Q m p r.
Proof. destruct r; cbn; [|done..]. intros (? & ? & ?) ? ?. repeat split; [auto|done|lia]. Qed.

Lemma parsed_suffix {A} (P : A -> Prop) n p p' r :
  p' `suffix_of` p -> parsed P n p' r -> parsed P n p r.
Proof.
  destruct r; cbn; [|done..]. intros Hs (? & ? & ?). pose proof (suffix_length _ _ Hs).
  repeat split; [done|by etrans|lia].
Qed.

Lemma parsed_bind {A B} (P : A -> Prop) (Q : B -> Prop) n m l p r k :
  parsed P n p r -> (l <= n + m)%nat ->
  (forall a p', P a -> p' `suffix_of` p -> (length p' + n <= length p)%nat -> parsed Q m p' (k a p')) ->
  parsed Q l p (do? (a, p') := r in k a p').
Proof.
  destruct r as [a p'| |]; cbn; [|done..]. intros (Ha & Hs & Hl) Hle Hk.
  specialize (Hk a p' Ha Hs Hl). destruct (k a p') as [b p''| |]; cbn in *; [|done..].
  destruct Hk as (? & ? & ?). repeat split; [done|by etrans|lia].
Qed.

Lemma skip_ws_suffix p : skip_ws p `suffix_of` p.
Proof.
  induction p as [|c p IH]; cbn; [done|]. destruct (is_ws c); [by apply suffix_cons_r|done].
Qed.

Lemma skip_digits_suffix p : skip_digits p `suffix_of` p.
Proof.
  induction p as [|c p IH]; cbn; [done|]. destruct (is_ascii_digit c); [by apply suffix_cons_r|done].
Qed.

Lemma bump_suffix p : (bump p).2 `suffix_of` p.
Proof. destruct p; cbn; [done|by apply suffix_cons_r]. Qed.

#[export] Hint Resolve skip_ws_suffix skip_digits_suffix bump_suffix str_wf_suffix suffix_cons_r : mcps.

Lemma str_wf_skip_ws p p' : p' `suffix_of` skip_ws p -> str_wf p -> str_wf p'.
Proof. intros. eapply str_wf_suffix; [etrans; [done|apply skip_ws_suffix]|done]. Qed.

Lemma expect_parsed c p : parsed (fun _ => True) 1 p (expect c p).
Proof.
  destruct p as [|c' p]; cbn; [done|]. destruct (c' =? c); cbn; [|done].
  repeat split; [by apply suffix_cons_r|lia].
Qed.

Lemma parse_literal_parsed lit p : parsed (fun _ => True) (length lit) p (parse_literal lit p).
Proof.
  revert p; induction lit as [|c lit IH]; intros p; cbn [parse_literal length].
  - repeat split; [done|lia].
  - eapply parsed_bind; [apply expect_parsed| |intros; apply IH]. lia.
Qed.

Lemma read_hex_parsed n v p : parsed (fun _ => True) n p (read_hex n v p).
Proof.
  revert v p; induction n as [|n IH]; intros v p; cbn [read_hex].
  - repeat split; [done|lia].
  - destruct p as [|c p]; [done|]. destruct (to_digit16 c); [|done].
    specialize (IH (v * 16 + z) p). destruct (read_hex _ _ p); cbn in *; [|done..].
    destruct IH as (_ & ? & ?). repeat split; [by apply suffix_cons_r|lia].
Qed.

Lemma lift_char_parsed c p : parsed (fun ch => is_scalar ch = true) 0 p (lift_char c p).
Proof.
  unfold lift_char, char_from_u32. destruct (is_scalar c) eqn:E; cbn; [|done].
  repeat split; [done|done|lia].
Qed.

Lemma parse_unicode_escape_parsed p :
  parsed (fun ch => is_scalar ch = true) 4 p (parse_unicode_escape p).
Proof.
  unfold parse_unicode_escape, read_hex4.
  eapply (parsed_bind _ _ _ 0); [apply read_hex_parsed|lia|]. intros first p1 _ _ _.
  destruct (_ && _); [|destruct (_ && _); [done|apply lift_char_parsed]].
  eapply (parsed_bind _ _ _ 0); [apply expect_parsed|lia|]. intros _ p2 _ _ _.
  eapply (parsed_bind _ _ _ 0); [apply expect_parsed|lia|]. intros _ p3 _ _ _.
  eapply (parsed_bind _ _ _ 0); [apply read_hex_parsed|lia|]. intros second p4 _ _ _.
  destruct (negb _); [done|apply lift_char_parsed].
Qed.

Lemma parse_escape_parsed p : parsed (fun ch => is_scalar ch = true) 1 p (parse_escape p).
Proof.
  destruct p as [|c p]; [done|]. unfold parse_escape.
  repeat (destruct (c =? _); [repeat split; [by apply suffix_cons_r|cbn; lia]|]).
  destruct (c =? 117); [|done].
  apply (parsed_suffix _ _ _ p); [by apply suffix_cons_r|].
  eapply parsed_mono; [apply parse_unicode_escape_parsed|done|lia].
Qed.

Lemma str_wf_snoc s c : str_wf s -> is_scalar c = true -> str_wf (s ++ [c]).
Proof. intros. apply Forall_app; split; [done|]. by constructor. Qed.

Lemma parse_string_loop_parsed fuel out p :
  (length p < fuel)%nat -> str_wf p -> str_wf out ->
  parsed str_wf 1 p (parse_string_loop fuel out p).
Proof.
  revert out p; induction fuel as [|fuel IH]; intros out p Hf Hp Hout; [lia|].
  destruct p as [|c p]; [done|]. cbn [parse_string_loop length] in *.
  apply Forall_cons in Hp as [Hc Hp].
  destruct (c =? 34); [by repeat split; [done|apply suffix_cons_r|cbn; lia]|].
  apply (parsed_suffix _ _ _ p); [by apply suffix_cons_r|].
  destruct (c =? 92).
  - eapply (parsed_bind _ _ _ 0); [apply parse_escape_parsed|lia|]. intros ch p' Hch Hs Hl.
    eapply parsed_mono; [apply IH; [lia|eauto with mcps|by apply str_wf_snoc]|done|lia].
  - destruct (c <=? 31); [done|]. apply IH; [lia|done|by apply str_wf_snoc].
Qed.

Lemma parse_string_parsed p : str_wf p -> parsed str_wf 2 p (parse_string p).
Proof.
  intros Hp. eapply (parsed_bind _ _ 1 1); [apply expect_parsed|lia|]. intros _ p' _ Hs Hl.
  apply parse_string_loop_parsed; [lia|eauto with mcps|constructor].
Qed.

Lemma skip_int_part_suffix p p' :
  skip_int_part p = Some p' -> p' `suffix_of` p /\ (length p' < length p)%nat.
Proof.
  destruct p as [|c p]; cbn; [done|]. intros H. inv_match H; simplify_eq; split;
    try (pose proof (suffix_length _ _ (skip_digits_suffix p)); lia); eauto with mcps.
Qed.

Lemma check_safe_integer_Ok i :
  check_safe_integer i = Ok tt <-> - MAX_SAFE_INTEGER <= i <= MAX_SAFE_INTEGER.
Proof.
  unfold check_safe_integer. destruct (_ && _) eqn:E; split; intros; breflect; try done; lia.
Qed.

Lemma parse_number_parsed room p : parsed (jcs_wf room) 1 p (parse_number p).
Proof.
  unfold parse_number. set (q := if peek_is 45 p then _ else _).
  assert (Hq : q `suffix_of` p) by (subst q; destruct (peek_is 45 p); auto with mcps).
  destruct (skip_int_part q) as [p'|] eqn:E; [|done].
  apply skip_int_part_suffix in E as [Hs Hl].
  pose proof (suffix_length _ _ Hq).
  destruct (_ || _); [done|]. destruct (parse_i64 _) as [i|]; [|done].
  destruct (check_safe_integer i) as [[]|e] eqn:Hi;
    [|cbn; unfold check_safe_integer in Hi; by destruct (_ && _); simplify_eq].
  apply check_safe_integer_Ok in Hi. repeat split; [by constructor|by etrans|lia].
Qed.

Lemma parse_leaf_parsed room p : str_wf p -> parsed (jcs_wf room) 1 p (parse_leaf p).
Proof.
  intros Hp. unfold parse_leaf. destruct p as [|c p]; [done|]. set (q := c :: p) in *.
  destruct (c =? 34).
  { eapply (parsed_bind _ _ _ 0); [by apply parse_string_parsed|lia|].
    intros s p' Hs _ _. repeat split; [by constructor|done|lia]. }
  assert (Hlit : forall lit v, lit <> [] -> (forall room, jcs_wf room v) ->
            parsed (jcs_wf room) 1 q (do? (_, p') := parse_literal lit q in POk v p')).
  { intros lit v Hne Hv. eapply (parsed_bind _ _ _ 0); [apply parse_literal_parsed| |].
    - destruct lit; [done|cbn; lia].
    - intros _ p' _ _ _. repeat split; [done|done|lia]. }
  destruct (_ || _).
  { unfold parse_bool. destruct (peek_is 116 q); [|destruct (peek_is 102 q); [|done]];
      apply Hlit; auto with mcps; done. }
  destruct (c =? 110); [apply Hlit; auto with mcps; done|].
  destruct (_ || _); [apply parse_number_parsed|done].
Qed.

Section loops.
Context (room : nat) (pv : rstr -> presult JcsValue).
Context (Hpv : forall p, str_wf p -> parsed (jcs_wf room) 1 p (pv p)).

Lemma array_loop_parsed fuel items p :
  (length p < fuel)%nat -> str_wf p -> Forall (jcs_wf room) items ->
  parsed (jcs_wf (S room)) 1 p (array_loop pv fuel items p).
Proof.
  revert items p; induction fuel as [|fuel IH]; intros items p Hf Hp Hi; [lia|].
  cbn [array_loop]. apply (parsed_suffix _ _ _ (skip_ws p)); [apply skip_ws_suffix|].
  pose proof (suffix_length _ _ (skip_ws_suffix p)).
  eapply (parsed_bind _ _ _ 1); [apply Hpv; eauto with mcps|lia|]. intros v p1 Hv Hs1 Hl1.
  assert (str_wf p1) by eauto with mcps.
  pose proof (suffix_length _ _ (skip_ws_suffix p1)).
  apply (parsed_suffix _ _ _ (skip_ws p1)); [apply skip_ws_suffix|].
  destruct (skip_ws p1) as [|c p2] eqn:Ews; [done|]. cbn [length] in *.
  assert (str_wf (c :: p2)) as [_ Hp2]%Forall_cons by (rewrite <- Ews; eauto with mcps).
  destruct (c =? 44).
  - apply (parsed_suffix _ _ _ p2); [by apply suffix_cons_r|].
    apply IH; [lia|done|]. apply Forall_app; auto.
  - destruct (c =? 93); [|done]. repeat split; [|by apply suffix_cons_r|cbn; lia].
    constructor. apply Forall_app; auto.
Qed.

Lemma parse_array_parsed p : str_wf p -> parsed (jcs_wf (S room)) 1 p (parse_array pv p).
Proof.
  intros Hp. eapply (parsed_bind _ _ _ 0); [apply expect_parsed|lia|]. intros _ p' _ Hs Hl.
  apply (parsed_suffix _ _ _ (skip_ws p')); [apply skip_ws_suffix|].
  destruct (peek_is 93 _).
  - repeat split; [by constructor|apply bump_suffix|].
    pose proof (suffix_length _ _ (bump_suffix (skip_ws p'))). lia.
  - eapply parsed_mono; [apply array_loop_parsed; [lia|eauto with mcps|constructor]|done|lia].
Qed.

Lemma object_loop_parsed fuel members seen p :
  (length p < fuel)%nat -> str_wf p ->
  NoDup members.*1 -> Forall str_wf members.*1 -> Forall (fun kv => jcs_wf room kv.2) members ->
  (forall k, k ∈ members.*1 -> k ∈ seen) ->
  parsed (jcs_wf (S room)) 1 p (object_loop pv fuel members seen p).
Proof.
  revert members seen p; induction fuel as [|fuel IH]; intros members seen p Hf Hp Hd Hk Hv Hseen; [lia|].
  cbn [object_loop]. apply (parsed_suffix _ _ _ (skip_ws p)); [apply skip_ws_suffix|].
  pose proof (suffix_length _ _ (skip_ws_suffix p)).
  destruct (negb _); [done|].
  eapply (parsed_bind _ _ _ 1); [apply parse_string_parsed; eauto with mcps|lia|].
  intros key p1 Hkey Hs1 Hl1. apply str_wf_skip_ws in Hs1; [|done]. case_bool_decide as Hnew; [done|].
  apply (parsed_suffix _ _ _ (skip_ws p1)); [apply skip_ws_suffix|].
  pose proof (suffix_length _ _ (skip_ws_suffix p1)).
  eapply (parsed_bind _ _ _ 1); [apply expect_parsed|lia|]. intros _ p2 _ Hs2 Hl2.
  apply str_wf_skip_ws in Hs2; [|done]. apply (parsed_suffix _ _ _ (skip_ws p2)); [apply skip_ws_suffix|].
  pose proof (suffix_length _ _ (skip_ws_suffix p2)).
  eapply (parsed_bind _ _ _ 1); [apply Hpv; eauto with mcps|lia|].
  intros v p3 Hval Hs3 Hl3. apply str_wf_skip_ws in Hs3; [|done].
  apply (parsed_suffix _ _ _ (skip_ws p3)); [apply skip_ws_suffix|].
  pose proof (suffix_length _ _ (skip_ws_suffix p3)).
  assert (Hw3 : str_wf (skip_ws p3)) by eauto with mcps.
  destruct (skip_ws p3) as [|c p4]; [done|]. cbn [length] in *.
  apply Forall_cons in Hw3 as [_ Hp4].
  assert (NoDup (members ++ [(key, v)]).*1).
  { rewrite fmap_app. apply NoDup_app. split; [done|].
    split; [set_solver|apply NoDup_singleton]. }
  assert (Forall str_wf (members ++ [(key, v)]).*1).
  { rewrite fmap_app. apply Forall_app; cbn; auto. }
  assert (Forall (fun kv => jcs_wf room kv.2) (members ++ [(key, v)])).
  { apply Forall_app; auto. }
  destruct (c =? 44).
  - apply (parsed_suffix _ _ _ p4); [by apply suffix_cons_r|].
    apply IH; [lia|done..|]. intros k. rewrite fmap_app. set_solver.
  - destruct (c =? 125); [|done]. repeat split; [|by apply suffix_cons_r|cbn; lia].
    by constructor.
Qed.

Lemma parse_object_parsed p : str_wf p -> parsed (jcs_wf (S room)) 1 p (parse_object pv p).
Proof.
  intros Hp. eapply (parsed_bind _ _ _ 0); [apply expect_parsed|lia|]. intros _ p' _ Hs Hl.
  apply (parsed_suffix _ _ _ (skip_ws p')); [apply skip_ws_suffix|].
  destruct (peek_is 125 _).
  - repeat split; [constructor; constructor|apply bump_suffix|].
    pose proof (suffix_length _ _ (bump_suffix (skip_ws p'))). lia.
  - eapply parsed_mono;
      [apply object_loop_parsed; [lia|eauto with mcps|constructor..|set_solver]|done|lia].
Qed.
End loops.

Lemma parse_value_parsed room p : str_wf p -> parsed (jcs_wf room) 1 p (parse_value room p).
Proof.
  revert p; induction room as [|room IH]; intros p Hp; cbn [parse_value].
  - destruct (_ || _); [done|by apply parse_leaf_parsed].
  - destruct (_ || _); [|by apply parse_leaf_parsed].
    destruct (peek_is 123 p); [by apply parse_object_parsed|by apply parse_array_parsed].
Qed.

(** [parse] in one step: success carries a JCS-safe value, and the loop bound
    is never what stops it. *)
Lemma parse_steps_spec input :
  match parse_steps input with
  | POk v _ => jcs_wf MAX_PARSE_DEPTH v
  | PErr e => e = CanonicalizationFailed
  | PFuel => False
  end.
Proof.
  unfold parse_steps. destruct (from_utf8 input) as [text|] eqn:E; [|done].
  apply from_utf8_sound in E as [Hw _].
  pose proof (parse_value_parsed MAX_PARSE_DEPTH (skip_ws text) ltac:(eauto with mcps)) as H.
  destruct (parse_value _ _) as [v p| |]; [|done..]. destruct H as [H _].
  by destruct (negb _).
Qed.

(** ** Member ordering: UTF-16 code units and the canonical sort

    [cmp_utf16] is a total order that identifies only equal strings, the sort
    of [write_value] yields a permutation in that order, and for distinct
    member names the sorted order is unique, hence independent of the order
    the members came in. *)

(** ** The comparison *)

Lemma cmp_units_refl a : cmp_units a a = Eq.
Proof. induction a as [|x a IH]; cbn; [done|]. by rewrite Z.compare_refl. Qed.

Lemma cmp_units_eq a b : cmp_units a b = Eq -> a = b.
Proof.
  revert b; induction a as [|x a IH]; intros [|y b]; cbn; try done.
  destruct (Z.compare_spec x y); try done. subst. intros H. by rewrite (IH _ H).
Qed.

Lemma cmp_units_antisym a b : cmp_units b a = CompOpp (cmp_units a b).
Proof.
  revert b; induction a as [|x a IH]; intros [|y b]; cbn; try done.
  rewrite (Z.compare_antisym x y). destruct (x ?= y); cbn; auto.
Qed.

Lemma cmp_units_lt_trans a b c :
  cmp_units a b = Lt -> cmp_units b c = Lt -> cmp_units a c = Lt.
Proof.
  revert b c; induction a as [|x a IH]; intros [|y b] [|z c]; cbn; try done.
  destruct (Z.compare_spec x y), (Z.compare_spec y z); try done; subst; intros H1 H2.
  - rewrite Z.compare_refl. eauto.
  - by rewrite (proj2 (Z.compare_lt_iff _ _)).
  - by rewrite (proj2 (Z.compare_lt_iff _ _)).
  - rewrite (proj2 (Z.compare_lt_iff _ _)); [done|lia].
Qed.

Lemma cmp_utf16_refl a : cmp_utf16 a a = Eq.
Proof. apply cmp_units_refl. Qed.

Lemma cmp_utf16_eq a b : str_wf a -> str_wf b -> cmp_utf16 a b = Eq -> a = b.
Proof. intros Ha Hb H%cmp_units_eq. by apply encode_utf16_inj. Qed.

Lemma cmp_utf16_antisym a b : cmp_utf16 b a = CompOpp (cmp_utf16 a b).
Proof. apply cmp_units_antisym. Qed.

Lemma cmp_utf16_lt_trans a b c :
  cmp_utf16 a b = Lt -> cmp_utf16 b c = Lt -> cmp_utf16 a c = Lt.
Proof. apply cmp_units_lt_trans. Qed.

(** ** The sort *)

(** Strictly increasing member names. *)
Definition key_lt {V : Type} (x y : rstr * V) : Prop := cmp_utf16 x.1 y.1 = Lt.

#[export] Instance key_lt_trans {V} : Transitive (@key_lt V).
Proof. intros x y z. apply cmp_utf16_lt_trans. Qed.

Lemma key_lt_irrefl {V} (x : rstr * V) : ~ key_lt x x.
Proof. unfold key_lt. by rewrite cmp_utf16_refl. Qed.

#[export] Instance key_lt_antisym {V} : AntiSymm (=) (@key_lt V).
Proof. intros x y H1 H2. destruct (key_lt_irrefl x). by transitivity y. Qed.

Lemma insert_member_perm {V} (x : rstr * V) l : insert_member x l ≡ₚ x :: l.
Proof.
  induction l as [|y l IH]; cbn; [done|]. destruct (cmp_utf16 x.1 y.1); try done.
  rewrite IH. apply Permutation_swap.
Qed.

Lemma sort_members_perm {V} (l : list (rstr * V)) : sort_members l ≡ₚ l.
Proof. induction l as [|x l IH]; cbn; [done|]. by rewrite insert_member_perm, IH. Qed.

Lemma insert_member_sorted {V} (x : rstr * V) l :
  StronglySorted key_lt l -> Forall (fun y => cmp_utf16 x.1 y.1 <> Eq) l ->
  StronglySorted key_lt (insert_member x l).
Proof.
  induction l as [|y l IH]; cbn; intros Hs Hne; [by repeat constructor|].
  apply StronglySorted_inv in Hs as [Hs Hy]. apply Forall_cons in Hne as [Hxy Hne].
  destruct (cmp_utf16 x.1 y.1) eqn:E; [done| |].
  - repeat constructor; [done|done|done|]. eapply Forall_impl; [exact Hy|].
    intros z Hz. by transitivity y.
  - constructor; [by apply IH|]. rewrite insert_member_perm. constructor; [|done].
    unfold key_lt. by rewrite cmp_utf16_antisym, E.
Qed.

Lemma sort_members_sorted {V} (l : list (rstr * V)) :
  NoDup l.*1 -> Forall str_wf l.*1 -> StronglySorted key_lt (sort_members l).
Proof.
  induction l as [|x l IH]; cbn; intros Hd Hw; [constructor|].
  apply NoDup_cons in Hd as [Hx Hd]. apply Forall_cons in Hw as [Hwx Hw].
  apply insert_member_sorted; [by apply IH|]. rewrite sort_members_perm.
  apply Forall_forall. intros y Hy Heq.
  assert (Hyk : y.1 ∈ l.*1) by (apply list_elem_of_fmap; eauto).
  apply cmp_utf16_eq in Heq; [|done|by eapply Forall_forall in Hw].
  destruct Hx. by rewrite Heq.
Qed.

(** The sorted order is unique: it does not depend on the input order. *)
Lemma sort_members_unique {V} (l1 l2 : list (rstr * V)) :
  NoDup l1.*1 -> Forall str_wf l1.*1 -> l1 ≡ₚ l2 -> sort_members l1 = sort_members l2.
Proof.
  intros Hd Hw Hp. apply (StronglySorted_unique key_lt).
  - by apply sort_members_sorted.
  - apply sort_members_sorted; by rewrite <- Hp.
  - by rewrite !sort_members_perm.
Qed.

Lemma sort_members_idemp {V} (l : list (rstr * V)) :
  NoDup l.*1 -> Forall str_wf l.*1 -> sort_members (sort_members l) = sort_members l.
Proof.
  intros Hd Hw. apply sort_members_unique; [by rewrite sort_members_perm..|].
  apply sort_members_perm.
Qed.

(** The sort looks at the names only. *)
Lemma sort_members_fmap {V W} (f : V -> W) (l : list (rstr * V)) :
  sort_members (prod_map id f <$> l) = prod_map id f <$> sort_members l.
Proof.
  induction l as [|[k v] l IH]; cbn; [done|]. rewrite IH. generalize (sort_members l) as s.
  induction s as [|[k' v'] s IHs]; cbn in *; [done|]. unfold id in *.
  destruct (cmp_utf16 k k'); cbn; [done..|]. by rewrite IHs.
Qed.

(** Duplicate names end up adjacent, so the neighbour scan finds exactly
    them. *)
Lemma adjacent_dup_sorted {V} (l : list (rstr * V)) :
  StronglySorted key_lt l -> adjacent_dup l = false.
Proof.
  induction l as [|x l IH]; intros Hs; [done|]. apply StronglySorted_inv in Hs as [Hs Hx].
  destruct l as [|y l]; [done|]. cbn [adjacent_dup]. apply Forall_cons in Hx as [Hxy _].
  rewrite bool_decide_eq_false_2; [by apply IH|]. intros Heq. unfold key_lt in Hxy.
  by rewrite Heq, cmp_utf16_refl in Hxy.
Qed.

(** Without a uniqueness hypothesis the result is still weakly sorted. *)
Definition key_le {V : Type} (x y : rstr * V) : Prop := cmp_utf16 x.1 y.1 <> Gt.

#[export] Instance key_le_trans {V} : Transitive (@key_le V).
Proof.
  intros x y z. unfold key_le, cmp_utf16.
  generalize (encode_utf16 x.1) (encode_utf16 y.1) (encode_utf16 z.1). intros a b c.
  destruct (cmp_units a b) eqn:E1; [apply cmp_units_eq in E1 as ->; done| |done].
  intros _. destruct (cmp_units b c) eqn:E2; [apply cmp_units_eq in E2 as <-; by rewrite E1| |done].
  intros _. by rewrite (cmp_units_lt_trans _ _ _ E1 E2).
Qed.

Lemma sort_members_weakly_sorted {V} (l : list (rstr * V)) :
  StronglySorted key_le (sort_members l).
Proof.
  induction l as [|x l IH]; cbn; [constructor|]. revert IH.
  generalize (sort_members l) as s. induction s as [|y s IHs]; cbn; intros Hs; [by repeat constructor|].
  destruct (StronglySorted_inv Hs) as [Hs' Hy].
  assert (Hle : cmp_utf16 x.1 y.1 <> Gt -> StronglySorted key_le (x :: y :: s)).
  { intros Hxy. repeat constructor; [done|done|done|]. eapply Forall_impl; [exact Hy|].
    intros z Hz. by transitivity y. }
  destruct (cmp_utf16 x.1 y.1) eqn:E; [by apply Hle..|].
  constructor; [by apply IHs|]. rewrite insert_member_perm. constructor; [|done].
  unfold key_le. by rewrite cmp_utf16_antisym, E.
Qed.

Lemma adjacent_dup_complete {V} (l : list (rstr * V)) :
  Forall str_wf l.*1 -> StronglySorted key_le l -> adjacent_dup l = false -> NoDup l.*1.
Proof.
  induction l as [|x l IH]; intros Hw Hs Hd; cbn; [constructor|].
  apply StronglySorted_inv in Hs as [Hs Hx]. cbn in Hw. apply Forall_cons in Hw as [Hwx Hw].
  destruct l as [|y l]; [apply NoDup_singleton|]. cbn [adjacent_dup] in Hd. breflect.
  apply NoDup_cons; split; [|by apply IH]. cbn in Hw. apply Forall_cons in Hw as [Hwy Hw].
  apply Forall_cons in Hx as [Hxy Hx]. apply StronglySorted_inv in Hs as [_ Hy].
  assert (Hlt : key_lt x y).
  { unfold key_lt, key_le in *. destruct (cmp_utf16 x.1 y.1) eqn:E; [|done..].
    by apply cmp_utf16_eq in E. }
  intros [Heq|Hin]%elem_of_cons; [done|].
  apply list_elem_of_fmap in Hin as (z & Hz & Hin). rewrite Forall_forall in Hy.
  specialize (Hy z Hin). unfold key_lt, key_le in *. rewrite <- Hz, cmp_utf16_antisym, Hlt in Hy. done.
Qed.

(** So an object passes the neighbour scan exactly when its member names are
    distinct. *)
Lemma adjacent_dup_sort {V} (l : list (rstr * V)) :
  Forall str_wf l.*1 -> (adjacent_dup (sort_members l) = false <-> NoDup l.*1).
Proof.
  intros Hw. split.
  - intros H. rewrite <- (sort_members_perm l).
    apply adjacent_dup_complete; [by rewrite sort_members_perm|apply sort_members_weakly_sorted|done].
  - intros. by apply adjacent_dup_sorted, sort_members_sorted.
Qed.
