(* ===== verification/CanonicalRound.v ===== *)
(** * Canonicalization: parse after print

    For every JCS-safe value the serializer succeeds, and the parser reads its
    output back as the value with the members of every object in canonical
    order ([canon]).  Injectivity, idempotence and independence of the member
    order follow. *)

From S2P Require Import Prelude Utf8 Errors Json Canonical CanonicalParse.

(** The canonical form of a tree: members sorted at every level. *)
Fixpoint canon (v : JcsValue) : JcsValue :=
  match v with
  | JArray l => JArray (canon <$> l)
  | JObject m => JObject (sort_members (prod_map id canon <$> m))
  | _ => v
  end.

(** ** Strings *)

Lemma to_digit16_hex_digit d : 0 <= d < 16 -> to_digit16 (hex_digit d) = Some d.
Proof.
  intros Hd. unfold hex_digit, to_digit16. destruct (d <? 10) eqn:E; breflect; zguard; f_equal; lia.
Qed.

Lemma read_hex4_hex4 c p : 0 <= c < 65536 -> read_hex4 (hex4 c ++ p) = POk c p.
Proof.
  intros Hc. unfold read_hex4, hex4. cbn [app read_hex].
  rewrite !to_digit16_hex_digit by (apply Z.mod_pos_bound; lia).
  f_equal. Z.to_euclidean_division_equations; lia.
Qed.

Lemma parse_unicode_escape_hex4 c p : 0 <= c <= 31 -> parse_unicode_escape (hex4 c ++ p) = POk c p.
Proof.
  intros Hc. unfold parse_unicode_escape. rewrite read_hex4_hex4 by lia. zguard.
  unfold lift_char, char_from_u32. by rewrite (proj2 (is_scalar_spec c)) by lia.
Qed.

(** One step of the string loop reads one written char. *)
Lemma parse_string_loop_char fuel out c p :
  is_scalar c = true ->
  parse_string_loop (S fuel) out (write_char c ++ p) = parse_string_loop fuel (out ++ [c]) p.
Proof.
  intros Hc%is_scalar_spec. unfold write_char.
  repeat match goal with
  | |- context [if ?a =? ?b then _ else _] =>
      destruct (Z.eqb_spec a b) as [->|]; [reflexivity|]
  end.
  destruct (c <=? 31) eqn:E; breflect.
  - rewrite <- (assoc_L (++)). change (str "\u") with [92; 117].
    cbn [app parse_string_loop parse_escape]. zguard. by rewrite parse_unicode_escape_hex4 by lia.
  - cbn [app parse_string_loop]. by zguard.
Qed.

Lemma parse_string_loop_written fuel out s p :
  str_wf s -> (length s < fuel)%nat ->
  parse_string_loop fuel out ((s ≫= write_char) ++ 34 :: p) = POk (out ++ s) p.
Proof.
  intros Hs; revert fuel out; induction Hs as [|c s Hc _ IH]; intros [|fuel] out Hf; cbn in Hf; try lia.
  - cbn. by rewrite app_nil_r.
  - cbn [mbind list_bind]. rewrite <- (assoc_L (++)), parse_string_loop_char by done.
    change (list_bind rchar Z write_char s) with (s ≫= write_char).
    rewrite IH by lia. by rewrite <- (assoc_L (++)).
Qed.

Lemma write_char_nonempty c : (1 <= length (write_char c))%nat.
Proof.
  unfold write_char. repeat (destruct (_ =? _); [vm_compute; lia|]).
  destruct (_ <=? _); [|cbn; lia].
  rewrite length_app. change (length (str "\u")) with 2%nat. lia.
Qed.

Lemma length_written s : (length s <= length (s ≫= write_char))%nat.
Proof.
  induction s as [|c s IH]; cbn; [done|]. rewrite length_app. pose proof (write_char_nonempty c). lia.
Qed.

Lemma parse_string_written s p : str_wf s -> parse_string (write_string s ++ p) = POk s p.
Proof.
  intros Hs. unfold parse_string, write_string. cbn [app expect].
  rewrite Z.eqb_refl. rewrite <- (assoc_L (++)). cbn [app].
  apply parse_string_loop_written; [done|]. rewrite length_app. pose proof (length_written s). lia.
Qed.

(** ** Integers *)

(** What may follow a value inside canonical text. *)
Definition delim (p : rstr) : Prop :=
  match p with [] => True | c :: _ => c = 44 \/ c = 93 \/ c = 125 end.

Lemma skip_digits_written ds p :
  Forall (fun d => is_ascii_digit d = true) ds -> delim p -> skip_digits (ds ++ p) = p.
Proof.
  intros Hd Hp. induction Hd as [|d ds Hd _ IH]; cbn; [|by rewrite Hd].
  destruct p as [|c p]; [done|]. cbn in *. unfold is_ascii_digit. by destruct Hp as [->|[->| ->]].
Qed.

Lemma skip_int_part_written n ds p :
  dec_repr n ds -> delim p -> skip_int_part (ds ++ p) = Some p.
Proof.
  intros (Hne & Hd & _ & Hz) Hp. destruct ds as [|d ds]; [done|]. cbn in *.
  apply Forall_cons in Hd as [Hd Hds]. apply is_ascii_digit_spec in Hd.
  destruct (Z.eqb_spec d 48) as [->|].
  - specialize (Hz eq_refl). by simplify_eq.
  - zguard. by rewrite skip_digits_written.
Qed.

Lemma parse_i64_display i : in_i64 i -> parse_i64 (display_signed i) = Some i.
Proof.
  unfold in_i64. intros Hi. unfold display_signed.
  assert (Hdig : forall n, 0 <= n -> exists d ds, display_unsigned n = d :: ds /\ 48 <= d <= 57 /\
            forallb is_ascii_digit (d :: ds) = true /\ dec_value 0 (d :: ds) = n).
  { intros n Hn. destruct (display_unsigned_spec n Hn) as [(Hne & Hd & Hv & _) _].
    destruct (display_unsigned n) as [|d ds]; [done|]. exists d, ds.
    pose proof Hd as [Hd1%is_ascii_digit_spec _]%Forall_cons.
    rewrite forallb_Forall_true. auto. }
  destruct (i <? 0) eqn:E; breflect.
  - destruct (Hdig (- i)) as (d & ds & -> & _ & Hf & Hv); [lia|].
    cbn [parse_i64]. change (45 =? 45) with true. cbn [is_empty negb andb]. rewrite Hf, Hv.
    zguard. f_equal. lia.
  - destruct (Hdig i) as (d & ds & -> & Hd & Hf & Hv); [lia|].
    cbn [parse_i64]. zguard. cbn [is_empty negb andb]. rewrite Hf, Hv. by zguard.
Qed.

Lemma display_unsigned_inj a b : 0 <= a -> 0 <= b -> display_unsigned a = display_unsigned b -> a = b.
Proof. intros Ha Hb H. rewrite <- (dec_value_display_unsigned a), <- (dec_value_display_unsigned b) by done. by rewrite H. Qed.

Lemma display_signed_inj a b : display_signed a = display_signed b -> a = b.
Proof.
  assert (Hd : forall n s, 0 <= n -> display_unsigned n <> 45 :: s).
  { intros n s Hn E. destruct (display_unsigned_spec n Hn) as [(_ & Hf & _) _]. rewrite E in Hf.
    by apply Forall_cons in Hf as [Hf _]. }
  unfold display_signed. destruct (Z.ltb_spec a 0), (Z.ltb_spec b 0); intros E.
  - injection E as E. apply display_unsigned_inj in E; lia.
  - symmetry in E. by apply Hd in E.
  - by apply Hd in E.
  - by apply display_unsigned_inj.
Qed.

Lemma parse_number_written i p :
  - MAX_SAFE_INTEGER <= i <= MAX_SAFE_INTEGER -> delim p ->
  parse_number (display_signed i ++ p) = POk (JInteger i) p.
Proof.
  intros Hi Hp. unfold parse_number.
  assert (Hskip : skip_int_part (if peek_is 45 (display_signed i ++ p)
                    then (bump (display_signed i ++ p)).2 else display_signed i ++ p) = Some p).
  { unfold display_signed. destruct (i <? 0) eqn:E; breflect.
    - cbn. by eapply skip_int_part_written; [apply display_unsigned_spec; lia|].
    - destruct (display_unsigned_spec i E) as [Hr _]. pose proof Hr as (Hne & Hd & _).
      rewrite <- (skip_int_part_written i _ p) by done.
      destruct (display_unsigned i) as [|d ds]; [done|]. apply Forall_cons in Hd as [Hd _].
      apply is_ascii_digit_spec in Hd. cbn [app peek_is]. by zguard. }
  rewrite Hskip.
  replace (peek_is 46 p || peek_is 101 p || peek_is 69 p) with false
    by (destruct p as [|c p]; [done|cbn in *; by destruct Hp as [->|[->| ->]]]).
  rewrite length_app, Nat.add_sub, take_app_length, parse_i64_display.
  - by rewrite (proj2 (check_safe_integer_Ok i)).
  - unfold in_i64, I64_MIN, I64_MAX. unfold MAX_SAFE_INTEGER in Hi. lia.
Qed.

(** ** Containers *)

(** The first char of a written value: not whitespace and not a closing
    bracket. *)
Definition starter (t : rstr) : Prop :=
  exists c t', t = c :: t' /\ is_ws c = false /\ c <> 93 /\ c <> 125.

(** [reads pv v t]: [pv] reads the text [t], wherever a value may end, as the
    canonical form of [v]. *)
Definition reads (pv : rstr -> presult JcsValue) (v : JcsValue) (t : rstr) : Prop :=
  starter t /\ forall p, delim p -> pv (t ++ p) = POk (canon v) p.

Lemma skip_ws_starter t p : starter t -> skip_ws (t ++ p) = t ++ p.
Proof. intros (c & t' & -> & Hc & _). cbn. by rewrite Hc. Qed.

Lemma starter_length t : starter t -> (1 <= length t)%nat.
Proof. intros (c & t' & -> & _). cbn. lia. Qed.

Section containers.
Context (pv : rstr -> presult JcsValue).

Lemma array_loop_written l ts fuel acc p :
  l <> [] -> Forall2 (reads pv) l ts -> (length (join_comma ts ++ 93%Z :: p) < fuel)%nat ->
  array_loop pv fuel acc (join_comma ts ++ 93 :: p) = POk (JArray (acc ++ (canon <$> l))) p.
Proof.
  intros Hne Hall; revert fuel acc Hne.
  induction Hall as [|v t l ts [Hst Hv] Hall IH]; intros [|fuel] acc Hne Hf; [done|done|lia|].
  cbn [array_loop]. destruct Hall as [|v2 t2 l ts Hv2 Hall].
  - cbn [join_comma]. rewrite skip_ws_starter, Hv by (try done; cbn; auto). done.
  - change (join_comma (t :: t2 :: ts)) with (t ++ 44 :: join_comma (t2 :: ts)) in *.
    rewrite <- (assoc_L (++)) in *. cbn [app] in *.
    rewrite skip_ws_starter, Hv by (try done; cbn; auto). cbn [skip_ws is_ws].
    change (is_ws 44) with false. cbn [array_loop].
    rewrite Z.eqb_refl, (IH fuel) by (try done; rewrite length_app in Hf; cbn [length] in Hf; lia).
    by rewrite <- (assoc_L (++)).
Qed.

Lemma parse_array_written l ts p :
  Forall2 (reads pv) l ts ->
  parse_array pv ([91] ++ join_comma ts ++ [93] ++ p) = POk (JArray (canon <$> l)) p.
Proof.
  intros Hall. unfold parse_array. cbn [app expect]. rewrite Z.eqb_refl.
  destruct (decide (l = [])) as [->|Hne].
  - apply Forall2_nil_inv_l in Hall as ->. done.
  - assert (Hst : starter (join_comma ts)).
    { destruct Hall as [|v t l ts [(c & t' & -> & Hc) _] Hall]; [done|].
      destruct Hall; cbn; unfold starter; eauto. }
    rewrite skip_ws_starter by done. destruct Hst as (c & t' & Hj & Hst).
    rewrite Hj. cbn [app peek_is]. rewrite (proj2 (Z.eqb_neq c 93)) by naive_solver.
    replace (c :: t' ++ 93 :: p) with (join_comma ts ++ 93 :: p) by (by rewrite Hj).
    by rewrite (array_loop_written l) by (done || lia).
Qed.

(** A written member: name, colon, value text. *)
Definition member_text (kv : rstr * JcsValue) (t : rstr) : rstr := write_string kv.1 ++ [58] ++ t.

Lemma object_loop_written l ts fuel acc seen p :
  l <> [] -> Forall2 (fun kv => reads pv kv.2) l ts ->
  NoDup l.*1 -> Forall str_wf l.*1 -> (forall k, k ∈ l.*1 -> k ∉ seen) ->
  (length (join_comma (zip_with member_text l ts) ++ 125%Z :: p) < fuel)%nat ->
  object_loop pv fuel acc seen (join_comma (zip_with member_text l ts) ++ 125 :: p)
  = POk (JObject (acc ++ (prod_map id canon <$> l))) p.
Proof.
  intros Hne Hall; revert fuel acc seen Hne.
  induction Hall as [|[k v] t l ts [Hst Hv] Hall IH];
    intros [|fuel] acc seen Hne Hd Hw Hseen Hf; [done|done|lia|].
  apply NoDup_cons in Hd as [Hk Hd]. apply Forall_cons in Hw as [Hwk Hw]. cbn [fst snd] in *.
  assert (Hstep : forall q, delim q ->
    object_loop pv (S fuel) acc seen (member_text (k, v) t ++ q) =
    match skip_ws q with
    | c :: p' =>
        if c =? 44 then object_loop pv fuel (acc ++ [(k, canon v)]) ({[k]} ∪ seen) p'
        else if c =? 125 then POk (JObject (acc ++ [(k, canon v)])) p' else PFail
    | [] => PFail
    end).
  { intros q Hq.
    assert (Hm : member_text (k, v) t ++ q = write_string k ++ 58 :: t ++ q)
      by (unfold member_text; by rewrite <- !(assoc_L (++))).
    assert (exists r, write_string k ++ 58 :: t ++ q = 34 :: r) as [r Hr] by (by eexists).
    rewrite Hm. cbn [object_loop].
    replace (skip_ws (write_string k ++ _)) with (write_string k ++ 58 :: t ++ q)
      by (by rewrite Hr).
    replace (peek_is 34 (write_string k ++ _)) with true by (by rewrite Hr). cbn [negb].
    rewrite parse_string_written by done.
    rewrite bool_decide_eq_false_2 by set_solver. cbn [skip_ws]. change (is_ws 58) with false.
    cbn [expect]. rewrite Z.eqb_refl, skip_ws_starter, Hv by done. done. }
  cbn [zip_with]. destruct Hall as [|[k2 v2] t2 l ts Hv2 Hall].
  - cbn [zip_with join_comma]. rewrite Hstep by (cbn; auto). done.
  - cbn [zip_with] in *.
    change (join_comma (?a :: ?b :: ?r)) with (a ++ 44 :: join_comma (b :: r)) in *.
    rewrite <- (assoc_L (++)) in *. cbn [app] in *.
    rewrite Hstep by (cbn; auto). cbn [skip_ws]. change (is_ws 44) with false.
    cbv iota. rewrite Z.eqb_refl.
    rewrite IH; try done.
    + by rewrite <- (assoc_L (++)).
    + set_solver.
    + rewrite length_app in Hf. cbn [length] in Hf. lia.
Qed.
End containers.

Lemma parse_object_written pv l ts p :
  Forall2 (fun kv => reads pv kv.2) l ts -> NoDup l.*1 -> Forall str_wf l.*1 ->
  parse_object pv ([123] ++ join_comma (zip_with member_text l ts) ++ [125] ++ p)
  = POk (JObject (prod_map id canon <$> l)) p.
Proof.
  intros Hall Hd Hw. unfold parse_object. cbn [app expect]. rewrite Z.eqb_refl.
  destruct (decide (l = [])) as [->|Hne].
  - apply Forall2_nil_inv_l in Hall as ->. done.
  - assert (exists r, join_comma (zip_with member_text l ts) ++ 125 :: p = 34 :: r) as [r Hr].
    { destruct Hall as [|kv t l ts _ Hall]; [done|]. destruct Hall; by eexists. }
    replace (skip_ws (join_comma _ ++ _)) with (join_comma (zip_with member_text l ts) ++ 125 :: p)
      by (by rewrite Hr).
    replace (peek_is 125 _) with false by (by rewrite Hr).
    by rewrite (object_loop_written pv l) by (done || set_solver || lia).
Qed.

Lemma map_result_Ok {A B E} (f : A -> result B E) l ts :
  map_result f l = Ok ts <-> Forall2 (fun x t => f x = Ok t) l ts.
Proof.
  revert ts; induction l as [|x l IH]; intros ts; cbn.
  - split; [intros; simplify_eq; constructor|]. intros H; by inversion H.
  - split.
    + intros H. destruct (f x) eqn:Ef; [|done]. destruct (map_result f l) eqn:El; [|done].
      simplify_eq. constructor; [done|]. by apply IH.
    + intros H. inversion H as [|? t ? ts' Hx Hl]; subst. rewrite Hx.
      by rewrite (proj2 (IH ts') Hl).
Qed.

(** ** The written text is a string *)

Lemma str_wf_ascii s : forallb (fun c => (0 <=? c) && (c <=? 127)) s = true -> str_wf s.
Proof.
  rewrite forallb_Forall_true. intros H. eapply Forall_impl; [exact H|]. intros c Hc; cbn in Hc.
  breflect. apply is_scalar_spec. lia.
Qed.

Lemma str_wf_app s t : str_wf (s ++ t) <-> str_wf s /\ str_wf t.
Proof. apply Forall_app. Qed.

Lemma str_wf_hex4 c : str_wf (hex4 c).
Proof.
  unfold hex4. repeat (constructor; [apply is_scalar_spec; unfold hex_digit;
    match goal with |- context [?a mod 16] => pose proof (Z.mod_pos_bound a 16) end;
    destruct (_ <? 10); lia|]). constructor.
Qed.

Lemma str_wf_write_char c : is_scalar c = true -> str_wf (write_char c).
Proof.
  intros Hc. unfold write_char.
  repeat (destruct (_ =? _); [by apply str_wf_ascii|]).
  destruct (c <=? 31); [apply str_wf_app; split; [by apply str_wf_ascii|apply str_wf_hex4]|].
  by constructor.
Qed.

Lemma str_wf_write_string s : str_wf s -> str_wf (write_string s).
Proof.
  intros Hs. unfold write_string. rewrite !str_wf_app. repeat split; [by apply str_wf_ascii| |by apply str_wf_ascii].
  induction Hs as [|c s Hc _ IH]; cbn; [constructor|]. apply str_wf_app. split; [by apply str_wf_write_char|done].
Qed.

Lemma str_wf_display_unsigned n : 0 <= n -> str_wf (display_unsigned n).
Proof.
  intros Hn. destruct (display_unsigned_spec n Hn) as [(_ & Hd & _) _].
  eapply Forall_impl; [exact Hd|]. intros d Hdg; cbn in Hdg.
  apply is_ascii_digit_spec in Hdg. apply is_scalar_spec. lia.
Qed.

Lemma str_wf_display_signed i : str_wf (display_signed i).
Proof.
  unfold display_signed. destruct (i <? 0) eqn:E; breflect; [constructor; [done|]|];
    apply str_wf_display_unsigned; lia.
Qed.

Lemma str_wf_join ts : Forall str_wf ts -> str_wf (join_comma ts).
Proof.
  induction 1 as [|t ts Ht Hts IH]; [constructor|]. destruct Hts; [done|].
  cbn [join_comma] in *. rewrite str_wf_app. split; [done|]. constructor; [done|exact IH].
Qed.

(** ** Parse after print *)

Definition written (room : nat) (v : JcsValue) (t : rstr) : Prop :=
  write_value room v = Ok t /\ str_wf t /\ reads (parse_value room) v t.

Lemma parse_value_leaf room p :
  peek_is 123 p || peek_is 91 p = false -> parse_value room p = parse_leaf p.
Proof. destruct room; cbn [parse_value]; by intros ->. Qed.

Lemma written_literal room v s (lit : rstr := str s) :
  write_value room v = Ok lit -> canon v = v -> str_wf lit -> starter lit ->
  (forall p, peek_is 123 (lit ++ p) || peek_is 91 (lit ++ p) = false) ->
  (forall p, parse_leaf (lit ++ p) = POk v p) -> exists t, written room v t.
Proof.
  intros Hw Hc Hwf Hst Hpk Hp. exists lit. repeat split; [done..|]. intros p _.
  rewrite parse_value_leaf by done. by rewrite Hp, Hc.
Qed.

Lemma written_integer room i :
  - MAX_SAFE_INTEGER <= i <= MAX_SAFE_INTEGER -> written room (JInteger i) (display_signed i).
Proof.
  intros Hi. split; [by destruct room|]. split; [apply str_wf_display_signed|].
  assert (exists c t, display_signed i = c :: t /\ (c = 45 \/ is_ascii_digit c = true)) as (c & t & Ht & Hc).
  { unfold display_signed. destruct (i <? 0) eqn:E; breflect; [by eauto|].
    destruct (display_unsigned_spec i E) as [(Hne & Hd & _) _].
    destruct (display_unsigned i) as [|d ds]; [done|]. apply Forall_cons in Hd as [Hd _]. eauto. }
  assert (Hcr : c = 45 \/ 48 <= c <= 57) by (rewrite is_ascii_digit_spec in Hc; done).
  split.
  - exists c, t. unfold is_ws. split; [done|]. zguard. split; [done|lia].
  - intros p Hp. rewrite parse_value_leaf by (rewrite Ht; cbn; by zguard).
    change (canon (JInteger i)) with (JInteger i). rewrite <- (parse_number_written i p Hi Hp), Ht. cbn [app parse_leaf]. zguard.
    cbn [orb]. by replace ((c =? 45) || is_ascii_digit c) with true
      by (destruct Hc as [->| ->]; [done|by rewrite orb_true_r]).
Qed.

Lemma written_string room s : str_wf s -> written room (JString s) (write_string s).
Proof.
  intros Hs. split; [by destruct room|]. split; [by apply str_wf_write_string|]. split.
  - unfold starter, write_string. cbn. eexists _, _. eauto.
  - intros p _. rewrite parse_value_leaf by done.
    unfold parse_leaf. unfold write_string at 1. cbn [app]. change (34 =? 34) with true. cbv iota.
    by rewrite parse_string_written.
Qed.

Lemma written_bool_null room v :
  (v = JNull \/ exists b, v = JBool b) -> exists t, written room v t.
Proof.
  intros [->|[[] ->]];
    [apply (written_literal _ _ "null") | apply (written_literal _ _ "true")
    | apply (written_literal _ _ "false")];
    first [by destruct room | done | by apply str_wf_ascii | by eexists _, _].
Qed.

Lemma Forall_exists_Forall2 {A B} (R : A -> B -> Prop) l :
  Forall (fun x => exists y, R x y) l -> exists ys, Forall2 R l ys.
Proof.
  induction 1 as [|x l [y Hy] _ [ys IH]]; [by exists []|]. exists (y :: ys). by constructor.
Qed.

Lemma written_array room l :
  Forall (fun v => exists t, written room v t) l -> exists t, written (S room) (JArray l) t.
Proof.
  intros (ts & Hts)%Forall_exists_Forall2. exists ([91] ++ join_comma ts ++ [93]). repeat split.
  - cbn [write_value]. rewrite (proj2 (map_result_Ok _ _ ts)); [done|].
    eapply Forall2_impl; [exact Hts|]. by intros ?? [].
  - rewrite !str_wf_app. split; [by apply str_wf_ascii|]. split; [|by apply str_wf_ascii].
    apply str_wf_join. eapply Forall2_Forall_r; [exact Hts|].
    apply Forall_true. by intros v t (_ & Ht & _).
  - by eexists _, _.
  - intros p _. cbn [parse_value]. cbn [app peek_is]. change (91 =? 123) with false.
    change (91 =? 91) with true. cbn [orb]. cbv iota.
    pose proof (parse_array_written (parse_value room) l ts p) as H. cbn [app] in H.
    rewrite <- (assoc_L (++)). cbn [app]. rewrite H; [done|].
    eapply Forall2_impl; [exact Hts|]. by intros ?? (_ & _ & ?).
Qed.

Lemma written_object room m :
  NoDup m.*1 -> Forall str_wf m.*1 ->
  Forall (fun kv => exists t, written room kv.2 t) m -> exists t, written (S room) (JObject m) t.
Proof.
  intros Hd Hw Hm. rewrite <- (sort_members_perm m) in Hm.
  apply Forall_exists_Forall2 in Hm as (ts & Hts).
  set (sm := sort_members m) in *.
  assert (Hsw : Forall str_wf sm.*1) by (unfold sm; by rewrite sort_members_perm).
  assert (Hsd : NoDup sm.*1) by (unfold sm; by rewrite sort_members_perm).
  exists ([123] ++ join_comma (zip_with member_text sm ts) ++ [125]). repeat split.
  - cbn [write_value]. fold sm.
    assert (Hadj : adjacent_dup sm = false) by (by apply adjacent_dup_sort). rewrite Hadj.
    rewrite (proj2 (map_result_Ok _ _ (zip_with member_text sm ts))); [done|].
    clear - Hts. induction Hts as [|kv t l ts [Ht _] _ IH]; cbn; constructor; [|done].
    unfold write_member. by rewrite Ht.
  - rewrite !str_wf_app. split; [by apply str_wf_ascii|]. split; [|by apply str_wf_ascii].
    apply str_wf_join. clear - Hts Hsw. induction Hts as [|kv t l ts (_ & Ht & _) _ IH]; cbn; [constructor|].
    apply Forall_cons in Hsw as [Hk Hsw]. constructor; [|by apply IH].
    change (str_wf (write_string kv.1 ++ [58] ++ t)). rewrite !str_wf_app.
    split; [by apply str_wf_write_string|]. split; [by apply str_wf_ascii|done].
  - by eexists _, _.
  - intros p _. cbn [parse_value]. cbn [app peek_is]. change (123 =? 123) with true.
    cbn [orb]. cbv iota.
    pose proof (parse_object_written (parse_value room) sm ts p) as H. cbn [app] in H.
    rewrite <- (assoc_L (++)). cbn [app]. rewrite H; [|..|done|done].
    + cbn [canon]. by rewrite sort_members_fmap.
    + eapply Forall2_impl; [exact Hts|]. by intros ?? (_ & _ & ?).
Qed.

Lemma write_reads room v : jcs_wf room v -> exists t, written room v t.
Proof.
  revert v; induction room as [|room IH]; intros v Hv;
    inversion Hv as [| | | |? l Hl|? m Hd Hw Hm]; subst;
    try (eexists; by apply written_integer); try (eexists; by apply written_string);
    try (apply written_bool_null; by eauto).
  - apply written_array. eapply Forall_impl; [exact Hl|]. auto.
  - apply written_object; [done..|]. eapply Forall_impl; [exact Hm|]. cbn. auto.
Qed.

(** ** The canonical form is a fixed point *)

Lemma map_result_fmap {A B C E} (f : B -> result C E) (g : A -> B) l :
  map_result f (g <$> l) = map_result (f ∘ g) l.
Proof. induction l as [|x l IH]; cbn; [done|]. by rewrite IH. Qed.

Lemma map_result_ext {A B E} (f g : A -> result B E) l :
  Forall (fun x => f x = g x) l -> map_result f l = map_result g l.
Proof. induction 1 as [|x l Hx _ IH]; cbn; [done|]. by rewrite Hx, IH. Qed.

Lemma adjacent_dup_fmap {V W} (f : V -> W) (l : list (rstr * V)) :
  adjacent_dup (prod_map id f <$> l) = adjacent_dup l.
Proof.
  induction l as [|x l IH]; [done|]. destruct l as [|y l]; [done|].
  change (bool_decide (x.1 = y.1) || adjacent_dup (prod_map id f <$> y :: l)
          = bool_decide (x.1 = y.1) || adjacent_dup (y :: l)). by rewrite IH.
Qed.

Lemma fst_prod_map {V W} (f : V -> W) (l : list (rstr * V)) : (prod_map id f <$> l).*1 = l.*1.
Proof. rewrite <- list_fmap_compose. by apply list_fmap_ext. Qed.

Lemma canon_wf room v : jcs_wf room v -> jcs_wf room (canon v).
Proof.
  revert v; induction room as [|room IH]; intros v Hv;
    inversion Hv as [| | | |? l Hl|? m Hd Hw Hm]; subst; try exact Hv; cbn [canon]; constructor.
  - apply Forall_fmap. eapply Forall_impl; [exact Hl|]. intros x. cbn. apply IH.
  - by rewrite sort_members_perm, fst_prod_map.
  - by rewrite sort_members_perm, fst_prod_map.
  - rewrite sort_members_perm. apply Forall_fmap. eapply Forall_impl; [exact Hm|]. intros x. cbn. apply IH.
Qed.

Lemma write_value_canon room v : jcs_wf room v -> write_value room (canon v) = write_value room v.
Proof.
  revert v; induction room as [|room IH]; intros v Hv;
    inversion Hv as [| | | |? l Hl|? m Hd Hw Hm]; subst; try reflexivity; cbn [canon write_value].
  - rewrite map_result_fmap, (map_result_ext _ (write_value room)); [done|].
    eapply Forall_impl; [exact Hl|]. cbn. auto.
  - rewrite !sort_members_fmap, sort_members_idemp by (rewrite ?fst_prod_map; done).
    rewrite adjacent_dup_fmap, map_result_fmap.
    rewrite (map_result_ext _ (write_member (write_value room))); [done|].
    rewrite sort_members_perm. eapply Forall_impl; [exact Hm|]. intros kv Hkv.
    change (write_member (write_value room) (kv.1, canon kv.2) = write_member (write_value room) kv).
    unfold write_member. cbn [fst snd]. by rewrite IH.
Qed.

(** ** Serializing and reading back *)

Lemma parse_written v t :
  written MAX_PARSE_DEPTH v t -> parse (as_bytes t) = Ok (canon v).
Proof.
  intros (_ & Hwf & Hst & Hr). unfold parse, parse_steps. rewrite from_utf8_as_bytes by done.
  rewrite <- (app_nil_r t), skip_ws_starter, Hr by done. done.
Qed.

Lemma canonicalize_value_ok v :
  jcs_wf MAX_PARSE_DEPTH v ->
  exists t, written MAX_PARSE_DEPTH v t /\ canonicalize_value v = Ok (as_bytes t).
Proof.
  intros Hv. destruct (write_reads _ _ Hv) as [t Ht]. exists t. split; [done|].
  unfold canonicalize_value. by destruct Ht as [-> _].
Qed.

Lemma parse_Ok_wf input v : parse input = Ok v -> jcs_wf MAX_PARSE_DEPTH v.
Proof.
  unfold parse. pose proof (parse_steps_spec input) as H.
  destruct (parse_steps input); [|done..]. intros; by simplify_eq.
Qed.

Lemma canonicalize_value_canon v :
  jcs_wf MAX_PARSE_DEPTH v -> canonicalize_value (canon v) = canonicalize_value v.
Proof. intros Hv. unfold canonicalize_value. by rewrite write_value_canon. Qed.

Lemma canonicalize_value_inj v w bs :
  jcs_wf MAX_PARSE_DEPTH v -> jcs_wf MAX_PARSE_DEPTH w ->
  canonicalize_value v = Ok bs -> canonicalize_value w = Ok bs -> canon v = canon w.
Proof.
  intros Hv Hw Ev Ew.
  destruct (canonicalize_value_ok v Hv) as (t & Ht & Ev'), (canonicalize_value_ok w Hw) as (u & Hu & Ew').
  apply parse_written in Ht, Hu. congruence.
Qed.

(** C15: Round trip of the canonicalizer: every JCS-safe value of nesting at
    most [MAX_PARSE_DEPTH] serializes, and parsing the canonical bytes yields
    the value itself with its members in canonical order. *)
Theorem canonicalize_value_roundtrip v :
  jcs_wf MAX_PARSE_DEPTH v ->
  exists bs, canonicalize_value v = Ok bs /\ parse bs = Ok (canon v).
Proof.
  intros Hv. destruct (canonicalize_value_ok v Hv) as (t & Ht & ->).
  eexists; split; [done|]. by apply parse_written.
Qed.

Definition sample_value : JcsValue :=
  JObject [(str "b", JArray [JInteger (-7); JBool true; JNull]);
           (str "a", JString [34; 10; 0; 233; 128512])].

Lemma sample_value_wf : jcs_wf MAX_PARSE_DEPTH sample_value.
Proof.
  unfold MAX_PARSE_DEPTH, sample_value. constructor.
  - apply (bool_decide_unpack _). vm_compute. exact I.
  - apply (bool_decide_unpack _). vm_compute. exact I.
  - constructor; [|constructor; [|constructor]]; cbn [snd].
    + constructor. repeat constructor; unfold MAX_SAFE_INTEGER; lia.
    + constructor. apply (bool_decide_unpack _). vm_compute. exact I.
Qed.

Lemma canonicalize_value_roundtrip_witness :
  exists bs, canonicalize_value sample_value = Ok bs /\ parse bs = Ok (canon sample_value).
Proof. exact (canonicalize_value_roundtrip sample_value sample_value_wf). Defined.

(** The preimage is unambiguous: two JCS-safe values have the same
    canonical bytes exactly when they are the same value up to the order of
    object members. *)
Theorem canonicalize_value_injective v w :
  jcs_wf MAX_PARSE_DEPTH v -> jcs_wf MAX_PARSE_DEPTH w ->
  (canonicalize_value v = canonicalize_value w <-> canon v = canon w).
Proof.
  intros Hv Hw. split.
  - intros E. destruct (canonicalize_value_ok v Hv) as (t & _ & Ev).
    eapply canonicalize_value_inj; [done..|exact Ev|congruence].
  - intros E. rewrite <- (canonicalize_value_canon v), <- (canonicalize_value_canon w) by done.
    by rewrite E.
Qed.

(** Canonicalization is idempotent on wire bytes: canonical bytes
    canonicalize to themselves. *)
Theorem canonicalize_idempotent input bs :
  canonicalize input = Ok bs -> canonicalize bs = Ok bs.
Proof.
  unfold canonicalize. destruct (parse input) as [v|] eqn:Ep; [|done]. intros Ec.
  pose proof (parse_Ok_wf _ _ Ep) as Hv.
  destruct (canonicalize_value_ok v Hv) as (t & Ht & Ec'). rewrite Ec in Ec'. simplify_eq.
  rewrite (parse_written _ _ Ht). by rewrite canonicalize_value_canon.
Qed.

(** C16: The raw-bytes path fails closed and stays inside its domain: on any
    input it returns a verdict without exhausting a loop bound; on success the
    tree is JCS-safe (unique member names, integers within +-(2^53-1), scalar
    strings, nesting at most 128), it canonicalizes, and the only error is
    [CanonicalizationFailed]. *)
Theorem parse_domain input :
  parse_steps input <> PFuel /\
  match parse input with
  | Ok v => jcs_wf MAX_PARSE_DEPTH v /\ exists bs, canonicalize input = Ok bs
  | Err e => e = CanonicalizationFailed /\ canonicalize input = Err CanonicalizationFailed
  end.
Proof.
  pose proof (parse_steps_spec input) as H. unfold canonicalize, parse.
  destruct (parse_steps input) as [v p|e|]; [|subst; by repeat split|done].
  split; [done|]. split; [done|]. destruct (canonicalize_value_ok v H) as (t & _ & ->). by eexists.
Qed.

(** ** Independence of the member order *)

(** Two trees that differ only in the order of object members. *)
Inductive jcs_equiv : JcsValue -> JcsValue -> Prop :=
| jeq_refl v : jcs_equiv v v
| jeq_array l1 l2 : Forall2 jcs_equiv l1 l2 -> jcs_equiv (JArray l1) (JArray l2)
| jeq_object m1 m2 m3 :
    Forall2 (fun a b => a.1 = b.1 /\ jcs_equiv a.2 b.2) m1 m2 -> m2 ≡ₚ m3 ->
    jcs_equiv (JObject m1) (JObject m3).

Lemma jcs_equiv_canon room v w : jcs_wf room v -> jcs_equiv v w -> canon v = canon w.
Proof.
  revert v w; induction room as [|room IH]; intros v w Hv He;
    inversion Hv as [| | | |? l Hl|? m Hd Hw Hm]; subst; inversion He as [|? l2 Hll|? m2 m3 Hmm Hp]; subst;
    try done; cbn [canon].
  - f_equal. revert Hl. clear - IH Hll. induction Hll as [|a b l1 l2 Hab _ IHl]; intros Hl; cbn; [done|].
    apply Forall_cons in Hl as [Ha Hl]. by rewrite (IH a b), IHl.
  - f_equal.
    assert (E : prod_map id canon <$> m = prod_map id canon <$> m2).
    { revert Hm. clear - IH Hmm. induction Hmm as [|[k a] [k' b] l1 l2 [Hk Hab] _ IHl]; intros Hm; cbn in *; [done|].
      apply Forall_cons in Hm as [Ha Hm]. subst. cbn in *. by rewrite (IH a b), IHl. }
    assert (E1 : m2.*1 = m.*1) by (by rewrite <- (fst_prod_map canon m2), <- E, fst_prod_map).
    rewrite E. apply sort_members_unique; rewrite ?fst_prod_map, ?E1; [done..|]. by rewrite Hp.
Qed.

(** The canonical bytes do not depend on the order in which the members
    of any object were written: trees equal up to member order have the same
    serialization. *)
Lemma canonicalize_value_member_order v w :
  jcs_wf MAX_PARSE_DEPTH v -> jcs_wf MAX_PARSE_DEPTH w -> jcs_equiv v w ->
  canonicalize_value v = canonicalize_value w.
Proof.
  intros Hv Hw He. rewrite <- (canonicalize_value_canon v), <- (canonicalize_value_canon w) by done.
  by rewrite (jcs_equiv_canon MAX_PARSE_DEPTH v w).
Qed.
