(* ===== verification/Time.v ===== *)
(** * RFC 3339 timestamps and freshness

    [mcps-core/src/time.rs], whole: the strict timestamp parser, the civil
    calendar conversions in both directions, the formatter and the freshness
    window.  [/] and [%] of the code are truncating ([Z.quot], [Z.rem]). *)

From S2P Require Import Prelude Utf8 Errors.

Definition DAYS_IN_MONTH : list Z := [31; 28; 31; 30; 31; 30; 31; 31; 30; 31; 30; 31].

Definition is_leap_year (year : Z) : bool :=
  ((Z.rem year 4 =? 0) && negb (Z.rem year 100 =? 0)) || (Z.rem year 400 =? 0).

Fixpoint digits_value (value : Z) (bs : bytes) : option Z :=
  match bs with
  | [] => Some value
  | b :: bs' =>
      if negb (is_ascii_digit b) then None
      else digits_value (value * 10 + (b - 48)) bs'
  end.

(** [parse_fixed_digits]. *)
Definition parse_fixed_digits (bs : bytes) (start n : nat) : option Z :=
  if (length bs <? start + n)%nat then None
  else digits_value 0 (take n (drop start bs)).

(** [days_from_civil]. *)
Definition days_from_civil (year month day : Z) : Z :=
  let y := if month <=? 2 then year - 1 else year in
  let era := Z.quot (if 0 <=? y then y else y - 399) 400 in
  let yoe := y - era * 400 in
  let doy := Z.quot (153 * (if 2 <? month then month - 3 else month + 9) + 2) 5 + day - 1 in
  let doe := yoe * 365 + Z.quot yoe 4 - Z.quot yoe 100 + doy in
  era * 146097 + doe - 719468.

(** The tail after the seconds field: [Z], or a fraction of one or more
    digits and [Z]. *)
Definition fraction_ok (tail : bytes) : bool :=
  if bool_decide (tail = [90]) then true
  else match tail with
  | 46 :: frac =>
      match last frac with
      | Some 90 =>
          let digits := take (length frac - 1) frac in
          negb (is_empty digits) && forallb is_ascii_digit digits
      | _ => false
      end
  | _ => false
  end.

Definition max_day (year month : Z) : Z :=
  if (month =? 2) && is_leap_year year then 29
  else DAYS_IN_MONTH !!! Z.to_nat (month - 1).

(** [parse_rfc3339_utc]. *)
Definition parse_rfc3339_utc (s : rstr) : result Z McpsError :=
  let b := as_bytes s in
  if (length b <? 20)%nat then Err ExpiredRequest else
  if negb ((b !!! 4%nat =? 45) && (b !!! 7%nat =? 45) && (b !!! 10%nat =? 84)
           && (b !!! 13%nat =? 58) && (b !!! 16%nat =? 58))
  then Err ExpiredRequest else
  match parse_fixed_digits b 0 4, parse_fixed_digits b 5 2, parse_fixed_digits b 8 2,
        parse_fixed_digits b 11 2, parse_fixed_digits b 14 2, parse_fixed_digits b 17 2 with
  | Some year, Some month, Some day, Some hour, Some minute, Some second =>
      if negb (fraction_ok (drop 19 b)) then Err ExpiredRequest else
      if negb ((1 <=? month) && (month <=? 12)) then Err ExpiredRequest else
      if (day <? 1) || (max_day year month <? day) then Err ExpiredRequest else
      if (23 <? hour) || (59 <? minute) || (59 <? second) then Err ExpiredRequest else
      Ok (days_from_civil year month day * 86400 + hour * 3600 + minute * 60 + second)
  | _, _, _, _, _, _ => Err ExpiredRequest
  end.

(** [check_freshness]. *)
Definition check_freshness (issued_at expires_at : rstr) (now_unix max_clock_skew_secs : Z)
  : result unit McpsError :=
  let? issued := parse_rfc3339_utc issued_at in
  let? expires := parse_rfc3339_utc expires_at in
  if expires <? issued then Err ExpiredRequest else
  let lower := saturating_sub issued max_clock_skew_secs in
  let upper := saturating_add expires max_clock_skew_secs in
  if (now_unix <? lower) || (upper <? now_unix) then Err ExpiredRequest else Ok tt.

(** [civil_from_days]. *)
Definition civil_from_days (z : Z) : Z * Z * Z :=
  let z := z + 719468 in
  let era := Z.quot (if 0 <=? z then z else z - 146096) 146097 in
  let doe := z - era * 146097 in
  let yoe := Z.quot (doe - Z.quot doe 1460 + Z.quot doe 36524 - Z.quot doe 146096) 365 in
  let y := yoe + era * 400 in
  let doy := doe - (365 * yoe + Z.quot yoe 4 - Z.quot yoe 100) in
  let mp := Z.quot (5 * doy + 2) 153 in
  let d := doy - Z.quot (153 * mp + 2) 5 + 1 in
  let m := if mp <? 10 then mp + 3 else mp - 9 in
  (if m <=? 2 then y + 1 else y, m, d).

(** [unix_to_rfc3339_utc]; [div_euclid] and [rem_euclid] by a positive number
    are the floored [/] and [mod] of [Z]. *)
Definition unix_to_rfc3339_utc (unix : Z) : rstr :=
  let days := unix / 86400 in
  let secs := unix mod 86400 in
  let '(year, month, day) := civil_from_days days in
  let hh := Z.quot secs 3600 in
  let mm := Z.quot (Z.rem secs 3600) 60 in
  let ss := Z.rem secs 60 in
  display_padded 4 year ++ [45] ++ display_padded 2 month ++ [45] ++ display_padded 2 day ++
  [84] ++ display_padded 2 hh ++ [58] ++ display_padded 2 mm ++ [58] ++ display_padded 2 ss ++ [90].

Example format_epoch : unix_to_rfc3339_utc 0 = str "1970-01-01T00:00:00Z".
Proof. vm_compute. reflexivity. Qed.

Example parse_leap_day : parse_rfc3339_utc (str "2024-02-29T23:59:59.25Z") = Ok 1709251199.
Proof. vm_compute. reflexivity. Qed.

(** ** The Gregorian cycle *)

(** A valid civil date. *)
Definition date_ok (year month day : Z) : bool :=
  (1 <=? month) && (month <=? 12) && (1 <=? day) && (day <=? max_day year month).

Lemma era_floor y n m : 0 < n -> m = n - 1 -> Z.quot (if 0 <=? y then y else y - m) n = y / n.
Proof.
  intros Hn ->. destruct (0 <=? y) eqn:E; breflect; [by apply Z.quot_div_nonneg|].
  Z.to_euclidean_division_equations; nia.
Qed.

Lemma is_leap_year_cycle y k : is_leap_year (y + 400 * k) = is_leap_year y.
Proof.
  unfold is_leap_year.
  assert (H : forall n, 0 < n -> (n | 400) -> (Z.rem (y + 400 * k) n =? 0) = (Z.rem y n =? 0)).
  { intros n Hn Hd. apply eq_iff_eq_true. rewrite !Z.eqb_eq, !Z.rem_divide by lia.
    split; intros H.
    - replace y with (y + 400 * k - 400 * k) by lia. by apply Z.divide_sub_r, Z.divide_mul_l.
    - by apply Z.divide_add_r, Z.divide_mul_l. }
  rewrite !H; [done|lia|by exists 1|lia|by exists 4|lia|by exists 100].
Qed.

(** The month and day computed from the day of the (March-based) year, decided
    for its 366 values. *)
Definition doy_month (doy : Z) : Z :=
  let mp := Z.quot (5 * doy + 2) 153 in if mp <? 10 then mp + 3 else mp - 9.
Definition doy_day (doy : Z) : Z :=
  let mp := Z.quot (5 * doy + 2) 153 in doy - Z.quot (153 * mp + 2) 5 + 1.
Definition month_start (m : Z) : Z := Z.quot (153 * (if 2 <? m then m - 3 else m + 9) + 2) 5.

Definition doy_check (doy : Z) : bool :=
  let m := doy_month doy in let d := doy_day doy in
  (1 <=? m) && (m <=? 12) && (1 <=? d) &&
  (d <=? (if m =? 2 then (if doy =? 365 then 29 else 28) else DAYS_IN_MONTH !!! Z.to_nat (m - 1))) &&
  (month_start m + d - 1 =? doy) && Bool.eqb (m <=? 2) (306 <=? doy).

Lemma doy_checked doy : 0 <= doy <= 365 -> doy_check doy = true.
Proof.
  intros H. assert (Hall : forallb doy_check (seqZ 0 366) = true) by (vm_compute; reflexivity).
  rewrite forallb_Forall_true, Forall_forall in Hall. apply Hall, elem_of_seqZ. lia.
Qed.

(** The year and day of the year computed from the day of the cycle. *)
Lemma yoe_spec doe :
  0 <= doe < 146097 ->
  let yoe := Z.quot (doe - Z.quot doe 1460 + Z.quot doe 36524 - Z.quot doe 146096) 365 in
  let doy := doe - (365 * yoe + Z.quot yoe 4 - Z.quot yoe 100) in
  0 <= yoe <= 399 /\ 0 <= doy <= 365 /\ (doy = 365 -> is_leap_year (yoe + 1) = true).
Proof.
  intros H. cbv zeta. rewrite !(Z.quot_div_nonneg doe) by lia.
  rewrite (Z.quot_div_nonneg (doe - _ + _ - _)) by (Z.to_euclidean_division_equations; lia).
  set (yoe := _ / 365).
  assert (Hy : 0 <= yoe <= 399) by (subst yoe; Z.to_euclidean_division_equations; lia).
  rewrite !(Z.quot_div_nonneg yoe) by lia.
  assert (0 <= doe - (365 * yoe + yoe / 4 - yoe / 100) <= 365)
    by (subst yoe; Z.to_euclidean_division_equations; lia).
  split; [done|]. split; [done|]. intros Hleap.
  assert ((yoe + 1) mod 4 = 0 /\ ((yoe + 1) mod 100 <> 0 \/ yoe = 399)) as [H4 H100]
    by (subst yoe; Z.to_euclidean_division_equations; lia).
  clearbody yoe. unfold is_leap_year. rewrite !Z.rem_mod_nonneg, H4 by lia.
  destruct H100 as [H100| ->]; [|done]. by rewrite (proj2 (Z.eqb_neq _ _) H100).
Qed.

(** A date assembled from a cycle, a year of it and a day of that year. *)
Lemma date_assembly era yoe doy :
  0 <= yoe <= 399 -> 0 <= doy <= 365 -> (doy = 365 -> is_leap_year (yoe + 1) = true) ->
  let m := doy_month doy in
  let y := yoe + era * 400 + (if m <=? 2 then 1 else 0) in
  date_ok y m (doy_day doy) = true /\
  days_from_civil y m (doy_day doy)
  = era * 146097 + (yoe * 365 + Z.quot yoe 4 - Z.quot yoe 100 + doy) - 719468 /\
  (m <=? 2) = (306 <=? doy).
Proof.
  intros Hyoe Hdoy Hleap. pose proof (doy_checked doy Hdoy) as Hc. unfold doy_check in Hc.
  cbv zeta in *. set (m := doy_month doy) in *. set (d := doy_day doy) in *. clearbody m d.
  rewrite !andb_true_iff, Bool.eqb_true_iff, !Z.leb_le, Z.eqb_eq in Hc.
  destruct Hc as (((((H1 & H2) & H3) & H4) & H5) & H6).
  split; [|split; [|done]].
  - unfold date_ok, max_day. rewrite !andb_true_iff, !Z.leb_le. split; [done|]. revert H4.
    destruct (Z.eqb_spec m 2) as [->|]; [|done]. change (2 <=? 2) with true. cbv iota.
    destruct (Z.eqb_spec doy 365) as [Ed|].
    + replace (yoe + era * 400 + 1) with (yoe + 1 + 400 * era) by lia.
      by rewrite is_leap_year_cycle, Hleap by done.
    + change (DAYS_IN_MONTH !!! Z.to_nat (2 - 1)) with 28.
      cbn [andb]. destruct (is_leap_year (yoe + era * 400 + 1)); lia.
  - unfold days_from_civil. cbv zeta. fold (month_start m).
    replace (if m <=? 2 then _ else _) with (yoe + era * 400) by (destruct (m <=? 2); lia).
    rewrite (era_floor _ 400) by lia. rewrite Z.div_add, Z.div_small by lia.
    replace (yoe + era * 400 - (0 + era) * 400) with yoe by lia. lia.
Qed.

(** Every day number is a valid date, which converts back to it. *)
Lemma civil_from_days_valid z :
  let '(y, m, d) := civil_from_days z in
  date_ok y m d = true /\ days_from_civil y m d = z /\
  (-719528 <= z <= 2932896 -> 0 <= y <= 9999).
Proof.
  unfold civil_from_days. cbv zeta. rewrite (era_floor _ 146097) by lia.
  set (era := (z + 719468) / 146097). set (doe := z + 719468 - era * 146097).
  assert (Hdoe : 0 <= doe < 146097) by (subst doe era; Z.to_euclidean_division_equations; lia).
  assert (Hz : z = era * 146097 + doe - 719468) by (subst doe; lia). clearbody doe era.
  pose proof (yoe_spec doe Hdoe) as (Hyoe & Hdoy & Hleap). cbv zeta in Hyoe, Hdoy, Hleap.
  set (yoe := Z.quot (doe - _ + _ - _) 365) in *. clearbody yoe.
  set (doy := doe - (365 * yoe + _ - _)) in *.
  assert (Hd : doe = yoe * 365 + Z.quot yoe 4 - Z.quot yoe 100 + doy) by (subst doy; lia). clearbody doy.
  change (doy - Z.quot (153 * Z.quot (5 * doy + 2) 153 + 2) 5 + 1) with (doy_day doy).
  change (if Z.quot (5 * doy + 2) 153 <? 10 then Z.quot (5 * doy + 2) 153 + 3
          else Z.quot (5 * doy + 2) 153 - 9) with (doy_month doy).
  pose proof (date_assembly era yoe doy Hyoe Hdoy Hleap) as (Hok & Hback & Hm). cbv zeta in Hok, Hback, Hm.
  replace (if doy_month doy <=? 2 then yoe + era * 400 + 1 else yoe + era * 400)
    with (yoe + era * 400 + (if doy_month doy <=? 2 then 1 else 0)) by (destruct (_ <=? 2); lia).
  split; [done|]. split; [lia|]. intros Hr. rewrite Hm. clear Hok Hback Hm Hleap.
  destruct (306 <=? doy) eqn:E; breflect; Z.to_euclidean_division_equations; lia.
Qed.

(** ** Digits *)

Lemma digits_value_spec v ds :
  digits_value v ds =
  if forallb is_ascii_digit ds then Some (dec_value v ds) else None.
Proof.
  revert v; induction ds as [|d ds IH]; intros v; cbn; [done|].
  destruct (is_ascii_digit d); cbn; [apply IH|done].
Qed.

Lemma dec_value_bound v ds :
  0 <= v -> Forall (fun d => is_ascii_digit d = true) ds ->
  0 <= dec_value v ds < (v + 1) * 10 ^ Z.of_nat (length ds).
Proof.
  intros Hv Hds; revert v Hv; induction Hds as [|d ds Hd _ IH]; intros v Hv; cbn [dec_value length].
  - rewrite Z.pow_0_r. lia.
  - apply is_ascii_digit_spec in Hd. specialize (IH (v * 10 + (d - 48)) ltac:(lia)).
    rewrite Nat2Z.inj_succ, Z.pow_succ_r by lia. nia.
Qed.

Lemma parse_fixed_digits_bound bs start n v :
  parse_fixed_digits bs start n = Some v -> 0 <= v < 10 ^ Z.of_nat n.
Proof.
  unfold parse_fixed_digits. destruct (_ <? _)%nat eqn:E; [done|]. apply Nat.ltb_ge in E.
  rewrite digits_value_spec. destruct (forallb _ _) eqn:Ed; [|done]. intros; simplify_eq.
  apply forallb_Forall_true in Ed. pose proof (dec_value_bound 0 _ ltac:(lia) Ed) as Hb.
  rewrite length_take, length_drop in Hb. replace (n `min` _)%nat with n in Hb by lia. lia.
Qed.

Lemma dec_value_zeros k ds : dec_value 0 (replicate k 48 ++ ds) = dec_value 0 ds.
Proof. induction k; cbn; auto. Qed.

(** A padded field is exactly [w] digits, of the right value. *)
Lemma display_padded_spec w n :
  (0 < w)%nat -> 0 <= n < 10 ^ Z.of_nat w ->
  length (display_padded w n) = w /\
  forallb is_ascii_digit (display_padded w n) = true /\ dec_value 0 (display_padded w n) = n.
Proof.
  intros Hw Hn. unfold display_padded. zguard.
  destruct (display_unsigned_spec n) as [(Hne & Hd & Hv & _) Hl]; [lia|].
  specialize (Hl w Hw ltac:(lia)). split; [|split].
  - rewrite length_app, length_replicate. lia.
  - rewrite forallb_Forall_true, Forall_app. split; [|done]. by apply Forall_replicate.
  - by rewrite dec_value_zeros.
Qed.

Lemma two_digits n :
  0 <= n < 100 ->
  exists a b, display_padded 2 n = [a; b] /\ is_ascii_digit a = true /\ is_ascii_digit b = true /\
    dec_value 0 [a; b] = n.
Proof.
  intros Hn. destruct (display_padded_spec 2 n) as (Hl & Hd & Hv); [lia|done|].
  destruct (display_padded 2 n) as [|a [|b [|]]]; try done. exists a, b. cbn [forallb] in Hd. breflect. auto.
Qed.

Lemma four_digits n :
  0 <= n < 10000 ->
  exists a b c d, display_padded 4 n = [a; b; c; d] /\ forallb is_ascii_digit [a; b; c; d] = true /\
    dec_value 0 [a; b; c; d] = n.
Proof.
  intros Hn. destruct (display_padded_spec 4 n) as (Hl & Hd & Hv); [lia|done|].
  destruct (display_padded 4 n) as [|a [|b [|c [|d [|]]]]]; try done. by exists a, b, c, d.
Qed.

Lemma as_bytes_ascii s : Forall (fun c => 0 <= c < 128) s -> as_bytes s = s.
Proof.
  unfold as_bytes. induction 1 as [|c s Hc _ IH]; cbn; [done|].
  rewrite IH. unfold utf8_encode_char. by zguard.
Qed.

(** ** Properties of the parser and the formatter *)

Lemma max_day_le_31 y m : 1 <= m <= 12 -> max_day y m <= 31.
Proof.
  intros Hm. unfold max_day. destruct (_ && _); [lia|].
  assert (H : forallb (fun m => DAYS_IN_MONTH !!! Z.to_nat (m - 1) <=? 31) (seqZ 1 12) = true)
    by (vm_compute; reflexivity).
  rewrite forallb_Forall_true, Forall_forall in H. apply Z.leb_le, H, elem_of_seqZ. lia.
Qed.

Lemma date_ok_spec y m d :
  date_ok y m d = true <-> 1 <= m <= 12 /\ 1 <= d <= max_day y m.
Proof. unfold date_ok. rewrite !andb_true_iff, !Z.leb_le. lia. Qed.

Lemma days_from_civil_bound y m d :
  0 <= y <= 9999 -> date_ok y m d = true -> -719528 <= days_from_civil y m d <= 2932896.
Proof.
  intros Hy [Hm Hd]%date_ok_spec. pose proof (max_day_le_31 y m Hm).
  assert (Hd' : 1 <= d <= 31) by lia. clear Hd H. unfold days_from_civil. cbv zeta.
  rewrite (era_floor _ 400) by lia.
  assert (m = 1 \/ m = 2 \/ m = 3 \/ m = 4 \/ m = 5 \/ m = 6 \/ m = 7 \/ m = 8 \/ m = 9 \/
          m = 10 \/ m = 11 \/ m = 12) as Hc by lia. clear Hm.
  repeat destruct Hc as [->|Hc]; try subst m;
    match goal with |- context [if ?a <=? 2 then _ else _] =>
      let v := eval vm_compute in (a <=? 2) in change (a <=? 2) with v;
      let w := eval vm_compute in (2 <? a) in change (2 <? a) with w end;
    cbv iota; Z.to_euclidean_division_equations; lia.
Qed.

(** The fields an accepted timestamp carries. *)
Lemma parse_rfc3339_utc_fields s t :
  parse_rfc3339_utc s = Ok t ->
  exists y m d hh mm ss, 0 <= y <= 9999 /\ date_ok y m d = true /\
    0 <= hh <= 23 /\ 0 <= mm <= 59 /\ 0 <= ss <= 59 /\
    t = days_from_civil y m d * 86400 + hh * 3600 + mm * 60 + ss.
Proof.
  unfold parse_rfc3339_utc. intros H. inv_match H. simplify_eq.
  repeat match goal with
  | E : parse_fixed_digits _ _ _ = Some _ |- _ => apply parse_fixed_digits_bound in E
  end.
  breflect. eexists _, _, _, _, _, _. rewrite date_ok_spec. repeat split; try reflexivity; lia.
Qed.

Lemma parse_rfc3339_utc_bound s t :
  parse_rfc3339_utc s = Ok t -> -62167219200 <= t <= 253402300799.
Proof.
  intros (y & m & d & hh & mm & ss & Hy & Hok & Hh & Hmi & Hs & ->)%parse_rfc3339_utc_fields.
  pose proof (days_from_civil_bound y m d Hy Hok). lia.
Qed.

Lemma parse_rfc3339_utc_Err s e : parse_rfc3339_utc s = Err e -> e = ExpiredRequest.
Proof. unfold parse_rfc3339_utc. intros H. inv_match H; by simplify_eq. Qed.

Lemma parse_formatted y m d hh mm ss :
  0 <= y <= 9999 -> date_ok y m d = true -> 0 <= hh <= 23 -> 0 <= mm <= 59 -> 0 <= ss <= 59 ->
  parse_rfc3339_utc
    (display_padded 4 y ++ [45] ++ display_padded 2 m ++ [45] ++ display_padded 2 d ++
     [84] ++ display_padded 2 hh ++ [58] ++ display_padded 2 mm ++ [58] ++ display_padded 2 ss ++ [90])
  = Ok (days_from_civil y m d * 86400 + hh * 3600 + mm * 60 + ss).
Proof.
  intros Hy Hok Hh Hmi Hs. pose proof Hok as [Hm Hd]%date_ok_spec. pose proof (max_day_le_31 y m Hm).
  destruct (four_digits y) as (y1 & y2 & y3 & y4 & -> & Dy & Vy); [lia|].
  destruct (two_digits m) as (m1 & m2 & -> & Dm1 & Dm2 & Vm); [lia|].
  destruct (two_digits d) as (d1 & d2 & -> & Dd1 & Dd2 & Vd); [lia|].
  destruct (two_digits hh) as (h1 & h2 & -> & Dh1 & Dh2 & Vh); [lia|].
  destruct (two_digits mm) as (i1 & i2 & -> & Di1 & Di2 & Vi); [lia|].
  destruct (two_digits ss) as (s1 & s2 & -> & Ds1 & Ds2 & Vs); [lia|].
  cbn [app]. cbn [forallb] in Dy. rewrite !andb_true_iff in Dy. destruct Dy as (Dy1 & Dy2 & Dy3 & Dy4 & _).
  unfold parse_rfc3339_utc. rewrite as_bytes_ascii by
    (repeat (constructor; [first [lia | apply is_ascii_digit_spec in Dy1, Dy2, Dy3, Dy4, Dm1, Dm2, Dd1, Dd2,
       Dh1, Dh2, Di1, Di2, Ds1, Ds2; lia]|]); constructor).
  cbn [length Nat.ltb Nat.leb]. unfold parse_fixed_digits.
  cbn -[dec_value days_from_civil max_day is_ascii_digit fraction_ok Z.mul Z.add Z.ltb Z.leb].
  rewrite Dy1, Dy2, Dy3, Dy4, Dm1, Dm2, Dd1, Dd2, Dh1, Dh2, Di1, Di2, Ds1, Ds2.
  cbn [dec_value negb] in *. rewrite Vy, Vm, Vd, Vh, Vi, Vs.
  change (fraction_ok [90]) with true. cbn [negb]. by zguard.
Qed.

Lemma parse_unix_to_rfc3339 t :
  -62167219200 <= t <= 253402300799 -> parse_rfc3339_utc (unix_to_rfc3339_utc t) = Ok t.
Proof.
  intros Ht. unfold unix_to_rfc3339_utc.
  pose proof (civil_from_days_valid (t / 86400)) as Hc.
  destruct (civil_from_days (t / 86400)) as [[y m] d]. destruct Hc as (Hok & Hback & Hy).
  assert (Hsec : 0 <= t mod 86400 < 86400) by (apply Z.mod_pos_bound; lia).
  rewrite parse_formatted; [|try done; Z.to_euclidean_division_equations; lia..].
  rewrite Hback. f_equal. Z.to_euclidean_division_equations; lia.
Qed.

(** Timestamp round trip: for every instant from year 0 to year 9999 the
    formatted RFC 3339 text parses back to the same Unix second. *)
Theorem rfc3339_roundtrip t :
  -62167219200 <= t <= 253402300799 -> parse_rfc3339_utc (unix_to_rfc3339_utc t) = Ok t.
Proof. apply parse_unix_to_rfc3339. Qed.

(** The calendar conversion is exact: [civil_from_days] and
    [days_from_civil] are mutually inverse on every day number, the epoch is
    1970-01-01, and every day number denotes a valid Gregorian date. *)
Theorem civil_calendar_exact z :
  days_from_civil 1970 1 1 = 0 /\
  let '(y, m, d) := civil_from_days z in
  date_ok y m d = true /\ days_from_civil y m d = z.
Proof.
  split; [reflexivity|]. pose proof (civil_from_days_valid z) as H.
  destruct (civil_from_days z) as [[y m] d]. tauto.
Qed.

(** The date after a given one. *)
Definition next_date (y m d : Z) : Z * Z * Z :=
  if d <? max_day y m then (y, m, d + 1)
  else if m <? 12 then (y, m + 1, 1) else (y + 1, 1, 1).

Lemma days_from_civil_closed y m d :
  days_from_civil y m d =
  (let c := if m <=? 2 then y - 1 else y in 365 * c + c / 4 - c / 100 + c / 400)
  + month_start m + d - 719469.
Proof.
  unfold days_from_civil. cbv zeta. fold (month_start m). set (c := if m <=? 2 then y - 1 else y).
  rewrite (era_floor c 400) by lia. clearbody c.
  rewrite !Z.quot_div_nonneg by (Z.to_euclidean_division_equations; lia).
  Z.to_euclidean_division_equations; lia.
Qed.

(** Evaluate the month tables at a concrete month. *)
Ltac eval_month :=
  repeat match goal with
  | |- context [month_start ?k] => progress (let v := eval vm_compute in (month_start k) in
                                             change (month_start k) with v)
  | |- context [DAYS_IN_MONTH !!! ?k] =>
      let v := eval vm_compute in (DAYS_IN_MONTH !!! k) in change (DAYS_IN_MONTH !!! k) with v
  | |- context [?a <=? 2] =>
      progress (let v := eval vm_compute in (a <=? 2) in change (a <=? 2) with v)
  | |- context [?a <? 12] =>
      progress (let v := eval vm_compute in (a <? 12) in change (a <? 12) with v)
  | |- context [?a =? 2] =>
      progress (let v := eval vm_compute in (a =? 2) in change (a =? 2) with v)
  end; cbn [andb]; cbv iota.

Lemma february_end y :
  0 <= y ->
  365 * y + y / 4 - y / 100 + y / 400 =
  365 * (y - 1) + (y - 1) / 4 - (y - 1) / 100 + (y - 1) / 400 + (if is_leap_year y then 366 else 365).
Proof.
  intros Hy. unfold is_leap_year. rewrite !Z.rem_mod_nonneg by lia.
  destruct (Z.eqb_spec (y mod 4) 0), (Z.eqb_spec (y mod 100) 0), (Z.eqb_spec (y mod 400) 0); cbn;
    Z.to_euclidean_division_equations; lia.
Qed.

(** Consecutive dates are consecutive day numbers: across every month end,
    leap day and year end, the day number of the next valid date is one more,
    so timestamps order like the dates they name. *)
Lemma days_from_civil_successor y m d :
  0 <= y -> date_ok y m d = true ->
  let '(y', m', d') := next_date y m d in
  days_from_civil y' m' d' = days_from_civil y m d + 1.
Proof.
  intros Hy [Hm Hd]%date_ok_spec. unfold next_date. destruct (d <? max_day y m) eqn:E; breflect.
  { rewrite !days_from_civil_closed. lia. }
  assert (d = max_day y m) as -> by lia. clear Hd E. pose proof (february_end y Hy) as Hfeb.
  assert (m = 1 \/ m = 2 \/ m = 3 \/ m = 4 \/ m = 5 \/ m = 6 \/ m = 7 \/ m = 8 \/ m = 9 \/
          m = 10 \/ m = 11 \/ m = 12) as Hc by lia. clear Hm.
  repeat destruct Hc as [->|Hc]; try subst m; unfold max_day; eval_month;
    rewrite !days_from_civil_closed; cbv zeta; eval_month; rewrite ?Z.add_simpl_r; try lia.
  destruct (is_leap_year y); lia.
Qed.

(** Accepted timestamps are bounded: a timestamp that parses lies between
    year 0 and the end of year 9999, far inside [i64], so no arithmetic of the
    parser or of the freshness window can wrap; everything else is rejected
    as [ExpiredRequest]. *)
Lemma parse_rfc3339_in_i64 s :
  match parse_rfc3339_utc s with
  | Ok t => -62167219200 <= t <= 253402300799 /\ in_i64 t
  | Err e => e = ExpiredRequest
  end.
Proof.
  destruct (parse_rfc3339_utc s) as [t|e] eqn:E; [|by eapply parse_rfc3339_utc_Err].
  apply parse_rfc3339_utc_bound in E. unfold in_i64, I64_MIN, I64_MAX. lia.
Qed.

(** ** The freshness window *)

Lemma check_freshness_Err i e now skew err :
  check_freshness i e now skew = Err err -> err = ExpiredRequest.
Proof.
  unfold check_freshness. intros H. inv_match H; simplify_eq; try done; eauto using parse_rfc3339_utc_Err.
Qed.

Lemma check_freshness_Ok i e now skew u :
  check_freshness i e now skew = Ok u <->
  exists ti te, parse_rfc3339_utc i = Ok ti /\ parse_rfc3339_utc e = Ok te /\ ti <= te /\
    saturating_sub ti skew <= now <= saturating_add te skew.
Proof.
  unfold check_freshness. destruct u. split.
  - intros H. inv_match H. breflect. eauto 10.
  - intros (ti & te & -> & -> & Hle & Hw). by zguard.
Qed.

(** The freshness check admits exactly the window
    [issued_at - skew, expires_at + skew], both ends included, of well-formed
    timestamps in order; outside it the verdict is [ExpiredRequest]; and a
    smaller skew never admits more. *)
Theorem check_freshness_window i e now skew :
  in_i64 now -> 0 <= skew ->
  ((check_freshness i e now skew = Ok tt <->
    exists ti te, parse_rfc3339_utc i = Ok ti /\ parse_rfc3339_utc e = Ok te /\ ti <= te /\
      ti - skew <= now <= te + skew) /\
   (check_freshness i e now skew <> Ok tt -> check_freshness i e now skew = Err ExpiredRequest) /\
   (forall skew', skew' <= skew -> check_freshness i e now skew' = Ok tt ->
      check_freshness i e now skew = Ok tt)).
Proof.
  unfold in_i64. intros Hnow Hskew. split; [|split].
  - rewrite check_freshness_Ok. split; intros (ti & te & Hi & He & Hle & Hw); exists ti, te;
      (do 3 (split; [done|])); apply parse_rfc3339_utc_bound in Hi, He;
      unfold saturating_sub, saturating_add, sat_i64, I64_MIN, I64_MAX in *; lia.
  - intros H. destruct (check_freshness i e now skew) as [[]|err] eqn:E; [done|].
    by apply check_freshness_Err in E as ->.
  - intros skew' Hs. rewrite !check_freshness_Ok.
    intros (ti & te & Hi & He & Hle & Hw). exists ti, te. do 3 (split; [done|]).
    unfold saturating_sub, saturating_add, sat_i64 in *. lia.
Qed.
