(* ===== verification/Crypto.v ===== *)
(** * Encodings, hash identifiers and Ed25519 verification

    [mcps-core/src/encoding.rs], [hash.rs] and [crypto.rs].  The [base64],
    [sha2] and [ed25519-dalek] crates are parameters: a class of operations
    each, with the documented behaviour the source relies on in a class of
    laws of its own. *)

From S2P Require Import Prelude Utf8 Errors.

(** ** The third-party crates *)

(** [base64]'s [URL_SAFE_NO_PAD] engine. *)
Class Base64 := {
  base64_encode : bytes -> rstr;
  base64_decode : rstr -> option bytes;
}.

(** Bytes of a buffer. *)
Definition bytes_wf (bs : bytes) : Prop := Forall (fun b => 0 <= b < 256) bs.

(** Decoding inverts encoding, and what is encoded is an ordinary string. *)
Class Base64Laws `{Base64} : Prop := {
  base64_decode_encode bs : bytes_wf bs -> base64_decode (base64_encode bs) = Some bs;
  base64_encode_wf bs : bytes_wf bs -> str_wf (base64_encode bs);
}.

(** [sha2::Sha256::digest]. *)
Class Sha2 := sha256_digest : bytes -> bytes.

Class Sha2Laws `{Sha2} : Prop := {
  sha256_length bs : length (sha256_digest bs) = 32%nat;
  sha256_wf bs : bytes_wf (sha256_digest bs);
}.

(** [ed25519_dalek]: verifying keys, signing keys, [verify_strict]. *)
Class Dalek := {
  DalekVerifyingKey : Type;
  DalekSigningKey : Type;
  dalek_vk_from_bytes : bytes -> option DalekVerifyingKey;
  dalek_vk_to_bytes : DalekVerifyingKey -> bytes;
  dalek_verify_strict : DalekVerifyingKey -> bytes -> bytes -> bool;
  dalek_sk_from_bytes : bytes -> DalekSigningKey;
  dalek_verifying_key : DalekSigningKey -> DalekVerifyingKey;
  dalek_sign : DalekSigningKey -> bytes -> bytes;
}.

(** A signature is 64 bytes and verifies under the matching key; a key's
    bytes decode to it. *)
Class DalekLaws `{Dalek} : Prop := {
  dalek_sign_length sk m : length (dalek_sign sk m) = 64%nat;
  dalek_sign_wf sk m : bytes_wf (dalek_sign sk m);
  dalek_verify_sign sk m : dalek_verify_strict (dalek_verifying_key sk) m (dalek_sign sk m) = true;
  dalek_vk_roundtrip vk : dalek_vk_from_bytes (dalek_vk_to_bytes vk) = Some vk;
  dalek_vk_length vk : length (dalek_vk_to_bytes vk) = 32%nat;
  dalek_vk_wf vk : bytes_wf (dalek_vk_to_bytes vk);
}.

(** ** encoding.rs *)
Section Encoding.
Context `{Base64}.

Definition b64url_encode (bs : bytes) : rstr := base64_encode bs.

Definition b64url_decode (s : rstr) : result bytes McpsError :=
  ok_or (base64_decode s) CanonicalizationFailed.
End Encoding.

(** [bytes.try_into::<[u8; n]>()]. *)
Definition try_into_array (n : nat) (bs : bytes) : option bytes :=
  if bool_decide (length bs = n) then Some bs else None.

(** ** hash.rs *)
Section Hash.
Context `{Base64, Sha2}.

Definition SHA256_PREFIX : rstr := str "sha256:".
Definition SHA256_LEN : nat := 32.

Definition sha256_hash_id (bs : bytes) : rstr :=
  SHA256_PREFIX ++ b64url_encode (sha256_digest bs).

Definition parse_hash_id (s : rstr) : result bytes McpsError :=
  let? body := ok_or (strip_prefix SHA256_PREFIX s) CanonicalizationFailed in
  let? bs := b64url_decode body in
  ok_or (try_into_array SHA256_LEN bs) CanonicalizationFailed.
End Hash.

(** ** crypto.rs *)
Section Crypto.
Context `{Base64, Dalek}.

Definition SIGNATURE_LEN : nat := 64.

Definition ensure_ed25519_alg (alg : rstr) (on_error : McpsError) : result unit McpsError :=
  if bool_decide (alg = SIG_ALG_ED25519) then Ok tt else Err on_error.

(** [VerificationKey] wraps a [DalekVerifyingKey], [SigningKey] a
    [DalekSigningKey]. *)
Record VerificationKey : Type := { vk_inner : DalekVerifyingKey }.
Record SigningKey : Type := { sk_inner : DalekSigningKey }.

Definition vk_from_bytes (bs : bytes) : result VerificationKey McpsError :=
  let? inner := ok_or (dalek_vk_from_bytes bs) ActorBindingFailed in
  Ok {| vk_inner := inner |}.

Definition vk_from_b64url (s : rstr) : result VerificationKey McpsError :=
  let? decoded := map_err (fun _ => ActorBindingFailed) (b64url_decode s) in
  let? array := ok_or (try_into_array 32 decoded) ActorBindingFailed in
  vk_from_bytes array.

Definition vk_to_bytes (k : VerificationKey) : bytes := dalek_vk_to_bytes (vk_inner k).
Definition vk_to_b64url (k : VerificationKey) : rstr := b64url_encode (vk_to_bytes k).

Definition sk_from_seed_bytes (seed : bytes) : SigningKey :=
  {| sk_inner := dalek_sk_from_bytes seed |}.
Definition public_key (k : SigningKey) : VerificationKey :=
  {| vk_inner := dalek_verifying_key (sk_inner k) |}.
Definition sign (k : SigningKey) (preimage : bytes) : rstr :=
  b64url_encode (dalek_sign (sk_inner k) preimage).

Definition verify_ed25519_with (preimage : bytes) (signature_b64url : rstr)
    (key : VerificationKey) (on_error : McpsError) : result unit McpsError :=
  match b64url_decode signature_b64url with
  | Err _ => Err on_error
  | Ok bs =>
      match try_into_array SIGNATURE_LEN bs with
      | None => Err on_error
      | Some array =>
          if dalek_verify_strict (vk_inner key) preimage array then Ok tt else Err on_error
      end
  end.

Definition verify_ed25519 (preimage : bytes) (signature_b64url : rstr) (key : VerificationKey)
  : result unit McpsError :=
  verify_ed25519_with preimage signature_b64url key InvalidSignature.
End Crypto.

(** ** Round trips and error mapping *)
Section CryptoFacts.
Context `{B64 : Base64, SH : Sha2, DK : Dalek, B64L : !Base64Laws, SHL : !Sha2Laws, DKL : !DalekLaws}.

Lemma b64url_roundtrip bs : bytes_wf bs -> b64url_decode (b64url_encode bs) = Ok bs.
Proof. intros. unfold b64url_decode, b64url_encode. by rewrite base64_decode_encode. Qed.

(** What an accepted signature check means. *)
Lemma verify_ed25519_with_Ok pre sig key e u :
  verify_ed25519_with pre sig key e = Ok u ->
  exists raw, base64_decode sig = Some raw /\ length raw = SIGNATURE_LEN /\
    dalek_verify_strict (vk_inner key) pre raw = true.
Proof.
  unfold verify_ed25519_with, b64url_decode, try_into_array. intros Hv.
  destruct (ok_or _ _) as [raw|] eqn:E; [|done]. apply ok_or_Ok in E.
  case_bool_decide; [|done]. destruct (dalek_verify_strict _ _ _) eqn:Ev; [|done]. eauto.
Qed.

Lemma verify_ed25519_with_Err pre sig key e e' :
  verify_ed25519_with pre sig key e = Err e' -> e' = e.
Proof. unfold verify_ed25519_with. intros Hv. inv_match Hv; by simplify_eq. Qed.

Lemma verify_sign pre sk e : verify_ed25519_with pre (sign sk pre) (public_key sk) e = Ok tt.
Proof.
  unfold verify_ed25519_with, sign, try_into_array, SIGNATURE_LEN.
  rewrite b64url_roundtrip by apply dalek_sign_wf.
  rewrite bool_decide_eq_true_2 by apply dalek_sign_length. cbn. by rewrite dalek_verify_sign.
Qed.

Lemma parse_hash_id_roundtrip bs : parse_hash_id (sha256_hash_id bs) = Ok (sha256_digest bs).
Proof.
  unfold parse_hash_id, sha256_hash_id, try_into_array, SHA256_LEN.
  rewrite (proj2 (strip_prefix_Some _ _ _)) by done. cbn [ok_or].
  rewrite b64url_roundtrip by apply sha256_wf.
  by rewrite bool_decide_eq_true_2 by apply sha256_length.
Qed.

Lemma vk_b64url_roundtrip k : vk_from_b64url (vk_to_b64url k) = Ok k.
Proof.
  unfold vk_from_b64url, vk_to_b64url, vk_to_bytes, try_into_array.
  rewrite b64url_roundtrip by apply dalek_vk_wf. cbn.
  rewrite bool_decide_eq_true_2 by apply dalek_vk_length. cbn. unfold vk_from_bytes.
  rewrite dalek_vk_roundtrip. by destruct k.
Qed.
End CryptoFacts.
