(* ===== verification/Transport.v ===== *)
(** * Transport identities, header parsing and ingress assertions

    [mcps-proxy/src/transport.rs]: the header view, the trusted reverse-proxy
    identity provider (plain and XFCC), the signer/identity binding policies
    and the verifier of LB-signed, request-bound assertions. *)

From S2P Require Import Prelude Utf8 Errors Canonical Strings Crypto.

Inductive IdentitySource : Type := SourceUriSan | SourceDnsSan | SourceCommonName.
Inductive IdentityPolicy : Type := PolicyUriSan | PolicyDnsSan | PolicyCnLegacy.

#[export] Instance IdentitySource_eq_dec : EqDecision IdentitySource.
Proof. solve_decision. Defined.

Record TransportIdentity : Type := { ti_value : rstr; ti_source : IdentitySource }.

(** ** Request headers *)

(** [(lowercased-name, raw-value)] pairs in wire order. *)
Record RequestHeaders : Type := { headers : list (rstr * rstr) }.

(** The body of the loop of [RequestHeaders::parse] for one line after the
    request line. *)
Definition header_line (line : rstr) : option (rstr * rstr) :=
  if is_empty (trim line) then None
  else '(name, value) ← split_once 58 line; Some (to_ascii_lowercase (trim name), trim value).

(** The first line is the request line. *)
Definition parse_headers (header_block : rstr) : RequestHeaders :=
  {| headers := omap header_line (drop 1 (str_lines header_block)) |}.

Definition headers_from_pairs (pairs : list (rstr * rstr)) : RequestHeaders :=
  {| headers := prod_map to_ascii_lowercase id <$> pairs |}.

Definition first_header (h : RequestHeaders) (name : rstr) : option rstr :=
  let lowered := to_ascii_lowercase name in
  snd <$> List.find (fun nv => bool_decide (nv.1 = lowered)) (headers h).

Definition count_header (h : RequestHeaders) (name : rstr) : nat :=
  let lowered := to_ascii_lowercase name in
  length (filter (fun nv => nv.1 = lowered) (headers h)).

(** ** Asserted identities *)

Definition MAX_ASSERTED_IDENTITY_LEN : Z := 8192.

Inductive AssertedIdentityRejection : Type := AssertedEmpty | AssertedTooLong | AssertedMalformed.

Definition validate_asserted_identity_value (value : rstr) : result rstr AssertedIdentityRejection :=
  let trimmed := trim value in
  if is_empty trimmed then Err AssertedEmpty
  else if MAX_ASSERTED_IDENTITY_LEN <? str_len trimmed then Err AssertedTooLong
  else if existsb is_control trimmed then Err AssertedMalformed
  else Ok trimmed.

Definition MCP_METHOD_HEADER : rstr := str "mcp-method".
Definition MCP_NAME_HEADER : rstr := str "mcp-name".

Inductive RoutingHeaderRejection : Type :=
| RoutingDuplicate (header : rstr)
| RoutingMalformed (header : rstr).

(** One iteration of the loop of [validate_routing_headers]. *)
Definition check_routing_header (h : RequestHeaders) (header : rstr)
  : result unit RoutingHeaderRejection :=
  match count_header h header with
  | 0%nat => Ok tt
  | 1%nat =>
      let value := default [] (first_header h header) in
      match validate_asserted_identity_value value with
      | Ok _ => Ok tt
      | Err _ => Err (RoutingMalformed header)
      end
  | _ => Err (RoutingDuplicate header)
  end.

Definition validate_routing_headers (h : RequestHeaders) : result unit RoutingHeaderRejection :=
  try? check_routing_header h MCP_METHOD_HEADER ;;
  check_routing_header h MCP_NAME_HEADER.

(** ** Quoted and escaped splitting *)

(** The scan of [split_outside_quotes] from inside or outside a quoted span,
    with the characters of the open part. *)
Fixpoint split_quoted_loop (sep : rchar) (in_quotes : bool) (part s : rstr) : option (list rstr) :=
  match s with
  | [] => if in_quotes then None else Some [part]
  | ch :: s' =>
      if ch =? 34 then split_quoted_loop sep (negb in_quotes) (part ++ [ch]) s'
      else if (ch =? sep) && negb in_quotes
      then cons part <$> split_quoted_loop sep in_quotes [] s'
      else split_quoted_loop sep in_quotes (part ++ [ch]) s'
  end.

Definition split_outside_quotes (value : rstr) (sep : rchar) : option (list rstr) :=
  split_quoted_loop sep false [] value.

Definition split_xfcc_elements (value : rstr) : option (list rstr) := split_outside_quotes value 44.
Definition split_xfcc_element_pairs (element : rstr) : option (list rstr) :=
  split_outside_quotes element 59.

Definition strip_optional_quotes (value : rstr) : rstr :=
  default value (inner ← strip_prefix [34] value; strip_suffix [34] inner).

(** The scan of [split_unescaped]. *)
Fixpoint split_unescaped_loop (sep : rchar) (in_quotes escaped : bool) (segment s : rstr) : list rstr :=
  match s with
  | [] => [segment]
  | ch :: s' =>
      if escaped then split_unescaped_loop sep in_quotes false (segment ++ [ch]) s'
      else if ch =? 92 then split_unescaped_loop sep in_quotes true (segment ++ [ch]) s'
      else if ch =? 34 then split_unescaped_loop sep (negb in_quotes) false (segment ++ [ch]) s'
      else if (ch =? sep) && negb in_quotes
      then segment :: split_unescaped_loop sep in_quotes false [] s'
      else split_unescaped_loop sep in_quotes false (segment ++ [ch]) s'
  end.

Definition split_unescaped (input : rstr) (sep : rchar) : list rstr :=
  split_unescaped_loop sep false false [] input.

(** The byte loop of [unescape_rfc2253_value]. *)
Fixpoint unescape_bytes (bs : bytes) : option bytes :=
  match bs with
  | [] => Some []
  | b :: rest =>
      if negb (b =? 92) then cons b <$> unescape_bytes rest
      else
        match rest with
        | [] => None
        | next :: rest1 =>
            match rest1 with
            | after :: rest2 =>
                if is_ascii_hexdigit next && is_ascii_hexdigit after
                then hi ← to_digit16 next; lo ← to_digit16 after;
                     cons ((hi * 16 + lo) mod 256) <$> unescape_bytes rest2
                else cons next <$> unescape_bytes rest1
            | [] => cons next <$> unescape_bytes rest1
            end
        end
  end.

Definition unescape_rfc2253_value (value : rstr) : option rstr :=
  out ← unescape_bytes (as_bytes (strip_optional_quotes value)); from_utf8 out.

(** The value of the first [CN] attribute, whatever it unescapes to. *)
Fixpoint first_common_name (attrs : list rstr) : option rstr :=
  match attrs with
  | [] => None
  | attr :: attrs' =>
      match split_once 61 attr with
      | None => first_common_name attrs'
      | Some (attr_type, attr_value) =>
          if eq_ignore_ascii_case (trim attr_type) (str "cn")
          then unescape_rfc2253_value (trim attr_value)
          else first_common_name attrs'
      end
  end.

Definition common_name_from_rfc2253 (dn : rstr) : option rstr :=
  first_common_name (rdn ← split_unescaped dn 44; split_unescaped rdn 43).

(** ** The reverse-proxy identity provider *)

Inductive ReverseProxyHeaderFormat : Type := FormatPlain | FormatXfcc.

Record ReverseProxyMtlsProvider : Type := {
  header_name : rstr;
  rp_format : ReverseProxyHeaderFormat;
  rp_policy : IdentityPolicy;
}.

Definition rp_source (p : ReverseProxyMtlsProvider) : IdentitySource :=
  match rp_policy p with
  | PolicyUriSan => SourceUriSan
  | PolicyDnsSan => SourceDnsSan
  | PolicyCnLegacy => SourceCommonName
  end.

Definition parse_plain (p : ReverseProxyMtlsProvider) (value : rstr) : option TransportIdentity :=
  validated ← result_ok (validate_asserted_identity_value value);
  Some {| ti_value := validated; ti_source := rp_source p |}.

Definition wanted_keys (policy : IdentityPolicy) : list rstr :=
  match policy with
  | PolicyUriSan => [str "uri"]
  | PolicyDnsSan => [str "dns"]
  | PolicyCnLegacy => [str "subject"; str "cn"]
  end.

(** One iteration of the inner loop of [parse_xfcc]: [None] is the early
    [return None], [Some found] goes on with the value found so far. *)
Definition xfcc_pair (policy : IdentityPolicy) (found : option rstr) (pair : rstr)
  : option (option rstr) :=
  match split_once 61 pair with
  | None => Some found
  | Some (key, raw_value) =>
      let key := to_ascii_lowercase (trim key) in
      if negb (existsb (fun w => bool_decide (w = key)) (wanted_keys policy)) then Some found
      else
        let stripped := strip_optional_quotes (trim raw_value) in
        extracted ← (if bool_decide (key = str "subject") then common_name_from_rfc2253 stripped
                     else Some stripped);
        if is_empty extracted then None
        else
          match found with
          | Some existing => if bool_decide (existing = extracted) then Some found else None
          | None => Some (Some extracted)
          end
  end.

(** A [for] loop whose body may return [None] from the function. *)
Fixpoint fold_option {A B} (f : A -> B -> option A) (a : A) (l : list B) : option A :=
  match l with
  | [] => Some a
  | b :: l' => a' ← f a b; fold_option f a' l'
  end.

Definition parse_xfcc (p : ReverseProxyMtlsProvider) (value : rstr) : option TransportIdentity :=
  elements ← split_xfcc_elements value;
  found ← fold_option (fun found element =>
            pairs ← split_xfcc_element_pairs element;
            fold_option (xfcc_pair (rp_policy p)) found pairs) None elements;
  value ← found;
  identity ← result_ok (validate_asserted_identity_value value);
  Some {| ti_value := identity; ti_source := rp_source p |}.

(** [StaticIdentityProvider]: the identity it was built with, whatever the
    request. *)
Record StaticIdentityProvider : Type := { static_identity : option TransportIdentity }.

Definition static_verified_identity (p : StaticIdentityProvider) (request : RequestHeaders) : option TransportIdentity := static_identity p.

Definition verified_identity (p : ReverseProxyMtlsProvider) (request : RequestHeaders)
  : option TransportIdentity :=
  if bool_decide (count_header request (header_name p) <> 1%nat) then None
  else
    value ← first_header request (header_name p);
    match rp_format p with
    | FormatPlain => parse_plain p value
    | FormatXfcc => parse_xfcc p value
    end.

(** ** Binding policies *)

(** [trait TransportBindingPolicy], its one method. *)
Definition TransportBindingPolicy : Type :=
  rstr -> option TransportIdentity -> result unit McpsError.

Definition exact_match_check : TransportBindingPolicy := fun signer identity =>
  match identity with
  | Some i => if bool_decide (ti_value i = signer) then Ok tt else Err TransportBindingFailed
  | None => Err TransportBindingFailed
  end.

Record MappedBinding : Type := { allowed : gmap rstr (gset rstr) }.

Definition mapped_binding_new : MappedBinding := {| allowed := ∅ |}.

Definition permit (m : MappedBinding) (signer identity : rstr) : MappedBinding :=
  {| allowed := <[signer := {[ identity ]} ∪ default ∅ (allowed m !! signer)]> (allowed m) |}.

Definition mapped_check (m : MappedBinding) : TransportBindingPolicy := fun signer identity =>
  let? identity := ok_or identity TransportBindingFailed in
  match allowed m !! signer with
  | Some set => if bool_decide (ti_value identity ∈ set) then Ok tt else Err TransportBindingFailed
  | None => Err TransportBindingFailed
  end.

(** ** LB-signed, request-bound assertions *)

Definition LB_ASSERTION_DOMAIN_TAG : bytes := str "mcps/lb-ingress-assertion/v1".
Definition DEFAULT_LB_ASSERTION_MAX_AGE_SECS : Z := 30.

Record LbAssertion : Type := {
  lba_key_id : rstr;
  asserted_client_identity : rstr;
  lba_request_hash : rstr;
  validation_time : Z;
}.

Inductive LbAssertionRejection : Type :=
| LbMalformed | LbUnknownKeyId | LbBadSignature | LbRequestHashMismatch | LbStale.

(** A variable-length field behind its length. *)
Definition framed (field : bytes) : bytes := to_be_bytes (Z.of_nat (length field)) ++ field.
Arguments framed : simpl never.

Definition lb_signing_preimage (a : LbAssertion) : bytes :=
  LB_ASSERTION_DOMAIN_TAG ++
  ([as_bytes (lba_key_id a); as_bytes (asserted_client_identity a); as_bytes (lba_request_hash a)]
     ≫= framed) ++
  to_be_bytes (validation_time a).

Section LbBinding.
Context `{Base64, Sha2, Dalek}.

Record LbKeyEntry : Type := { lbk_key_id : rstr; lbk_key : VerificationKey }.

Record LbAssertionBinding : Type := {
  lb_keys : list LbKeyEntry;
  lb_source : IdentitySource;
  max_age_secs : Z;
}.

Definition lb_binding_new (source : IdentitySource) : LbAssertionBinding :=
  {| lb_keys := []; lb_source := source; max_age_secs := DEFAULT_LB_ASSERTION_MAX_AGE_SECS |}.

Definition with_max_age_secs (b : LbAssertionBinding) (secs : Z) : LbAssertionBinding :=
  {| lb_keys := lb_keys b; lb_source := lb_source b; max_age_secs := secs |}.

Definition add_key (b : LbAssertionBinding) (key_id : rstr) (key : VerificationKey)
  : LbAssertionBinding :=
  {| lb_keys := filter (fun e => lbk_key_id e <> key_id) (lb_keys b)
                ++ [{| lbk_key_id := key_id; lbk_key := key |}];
     lb_source := lb_source b; max_age_secs := max_age_secs b |}.

Definition key_for (b : LbAssertionBinding) (key_id : rstr) : option VerificationKey :=
  lbk_key <$> List.find (fun e => bool_decide (lbk_key_id e = key_id)) (lb_keys b).

Definition decode_b64url_field (field : rstr) : result rstr LbAssertionRejection :=
  let? bs := map_err (fun _ => LbMalformed) (b64url_decode field) in
  ok_or (from_utf8 bs) LbMalformed.

Definition lb_parse (value : rstr) : result (LbAssertion * rstr) LbAssertionRejection :=
  let trimmed := trim value in
  if is_empty trimmed || (MAX_ASSERTED_IDENTITY_LEN <? str_len trimmed) then Err LbMalformed
  else
    match str_split 46 trimmed with
    | [part0; part1; part2; part3; part4] =>
        let? key_id := decode_b64url_field part0 in
        let? identity := decode_b64url_field part1 in
        let? request_hash := decode_b64url_field part2 in
        let? time_bytes := map_err (fun _ => LbMalformed) (b64url_decode part3) in
        let? array := ok_or (try_into_array 8 time_bytes) LbMalformed in
        if is_empty part4 then Err LbMalformed
        else if negb (is_ok (validate_asserted_identity_value identity)) then Err LbMalformed
        else if is_empty key_id || is_empty request_hash || existsb is_control key_id ||
                existsb is_control request_hash then Err LbMalformed
        else Ok ({| lba_key_id := key_id; asserted_client_identity := identity;
                    lba_request_hash := request_hash;
                    validation_time := i64_from_be_bytes array |}, part4)
    | _ => Err LbMalformed
    end.

(** [- max_age_secs] is the exact negation: it wraps only at [i64::MIN], which
    no window of seconds is. *)
Definition lb_verify (b : LbAssertionBinding) (assertion_value in_hand_request_hash : rstr)
    (now_unix : Z) : result TransportIdentity LbAssertionRejection :=
  let? (assertion, signature_b64url) := lb_parse assertion_value in
  let? key := ok_or (key_for b (lba_key_id assertion)) LbUnknownKeyId in
  try? map_err (fun _ => LbBadSignature)
         (verify_ed25519_with (lb_signing_preimage assertion) signature_b64url key
            TransportBindingFailed) ;;
  let? bound := map_err (fun _ => LbRequestHashMismatch) (parse_hash_id (lba_request_hash assertion)) in
  let? in_hand := map_err (fun _ => LbRequestHashMismatch) (parse_hash_id in_hand_request_hash) in
  if negb (bool_decide (bound = in_hand)) then Err LbRequestHashMismatch
  else
    let age := saturating_sub now_unix (validation_time assertion) in
    if (max_age_secs b <? age) || (age <? - max_age_secs b) then Err LbStale
    else Ok {| ti_value := asserted_client_identity assertion; ti_source := lb_source b |}.
End LbBinding.
