(* ===== verification/Signing.v ===== *)
(** * The signing preimage

    [mcps-core/src/signing.rs]: the preimage that is signed and verified, the
    enumerable exclusion predicate, and [request_hash].  In-place mutation
    through [get_mut] is a function from the object to the changed object.
    The theorems compare the code with its declarative reading (delete exactly
    the excluded paths, canonicalize) and say which objects share a preimage. *)

From S2P Require Import Prelude Utf8 Errors Json Canonical CanonicalParse.
From S2P Require Import CanonicalRound Crypto.

(** [EnvelopeLocation]. *)
Inductive EnvelopeLocation : Type := Request | Response.

Definition container_key (l : EnvelopeLocation) : rstr :=
  match l with Request => str "params" | Response => str "result" end.

Definition meta_key (l : EnvelopeLocation) : rstr :=
  match l with Request => REQUEST_META_KEY | Response => RESPONSE_META_KEY end.

(** [*object.get_mut(k)?] mutated by [f]; an absent member is left alone. *)
Definition update_member (k : rstr) (f : Value -> Value) (v : Value) : Value :=
  match v with VObject m => VObject (map_alter f k m) | _ => v end.

(** Mutation behind a chain of [get_mut] calls. *)
Fixpoint update_at (ks : list rstr) (f : Value -> Value) (v : Value) : Value :=
  match ks with [] => f v | k :: ks' => update_member k (update_at ks' f) v end.

(** [as_object_mut] followed by [remove]. *)
Definition remove_member (k : rstr) (v : Value) : Value :=
  match v with VObject m => VObject (map_remove k m) | _ => v end.

Definition strip_signature_value (object : Value) (location : EnvelopeLocation)
  : result Value McpsError :=
  let? container := ok_or (get (container_key location) object) MissingEnvelope in
  let? meta := ok_or (get (str "_meta") container) MissingEnvelope in
  let? envelope := ok_or (get (meta_key location) meta) MissingEnvelope in
  let? signature := ok_or (get (str "signature") envelope) MissingEnvelope in
  let? signature_obj := ok_or (as_object signature) MissingEnvelope in
  Ok (update_at [container_key location; str "_meta"; meta_key location; str "signature"]
        (fun _ => VObject (map_remove (str "value") signature_obj)) object).

(** The loop over [OBSERVABILITY_META_KEYS], each [remove] in turn. *)
Definition strip_observability_meta (object : Value) (location : EnvelopeLocation) : Value :=
  update_at [container_key location; str "_meta"]
    (fun meta => foldl (fun m key => remove_member key m) meta OBSERVABILITY_META_KEYS) object.

Definition signing_preimage (object : Value) (location : EnvelopeLocation)
  : result bytes McpsError :=
  let? cloned := strip_signature_value object location in
  canonicalize_json_value (strip_observability_meta cloned location).

Definition request_signing_preimage (object : Value) : result bytes McpsError :=
  signing_preimage object Request.

Definition response_signing_preimage (object : Value) : result bytes McpsError :=
  signing_preimage object Response.

Definition preimage_exclusion_paths (location : EnvelopeLocation) : list (list rstr) :=
  let container := container_key location in
  [container; str "_meta"; meta_key location; str "signature"; str "value"]
  :: ((fun key => [container; str "_meta"; key]) <$> OBSERVABILITY_META_KEYS).

Section RequestHash.
Context `{Base64, Sha2}.

Definition request_hash (request_object : Value) : result rstr McpsError :=
  let? preimage := request_signing_preimage request_object in
  Ok (sha256_hash_id preimage).
End RequestHash.

(** ** The declarative reading: delete the excluded paths *)

(** The value at a path of object keys. *)
Fixpoint path_get (ks : list rstr) (v : Value) : option Value :=
  match ks with [] => Some v | k :: ks' => get k v ≫= path_get ks' end.

(** Delete the member a path leads to, when it is there. *)
Fixpoint delete_path (ks : list rstr) (v : Value) : Value :=
  match ks with
  | [] => v
  | [k] => remove_member k v
  | k :: ks' => update_member k (delete_path ks') v
  end.

Definition delete_paths (paths : list (list rstr)) (v : Value) : Value :=
  foldl (fun v p => delete_path p v) v paths.

(** The envelope's signature block is there and is an object. *)
Definition has_signature_block (location : EnvelopeLocation) (v : Value) : bool :=
  match path_get [container_key location; str "_meta"; meta_key location; str "signature"] v with
  | Some (VObject _) => true
  | _ => false
  end.

(** The object the signature covers. *)
Definition signed_part (location : EnvelopeLocation) (v : Value) : Value :=
  delete_paths (preimage_exclusion_paths location) v.

Lemma map_alter_ext {V} (f g : V -> V) k (m : list (rstr * V)) :
  (forall v, (k, v) ∈ m -> f v = g v) -> map_alter f k m = map_alter g k m.
Proof.
  intros H. apply list_fmap_ext. intros i [k' v] Hi%list_elem_of_lookup_2; cbn.
  case_bool_decide; [|done]. subst. by rewrite H.
Qed.

Lemma map_alter_compose {V} (f g : V -> V) k (m : list (rstr * V)) :
  map_alter g k (map_alter f k m) = map_alter (fun v => g (f v)) k m.
Proof.
  unfold map_alter. rewrite <- list_fmap_compose. apply list_fmap_ext.
  intros i [k' v] _; cbn. by repeat case_bool_decide.
Qed.

Lemma update_at_compose ks f g v :
  update_at ks g (update_at ks f v) = update_at ks (fun x => g (f x)) v.
Proof.
  revert v; induction ks as [|k ks IH]; intros v; cbn; [done|].
  destruct v; cbn; try done. rewrite map_alter_compose. f_equal. apply map_alter_ext; auto.
Qed.

Lemma delete_path_snoc ks k v : delete_path (ks ++ [k]) v = update_at ks (remove_member k) v.
Proof.
  revert v; induction ks as [|k0 ks IH]; intros v; [done|].
  destruct ks as [|k1 ks]; [done|]. cbn [app delete_path update_at] in *.
  destruct v; cbn; try done. f_equal. apply map_alter_ext. intros w _. apply IH.
Qed.

(** On an object with unique names, a mutation sees the value at the path. *)
Lemma update_at_get ks f g v :
  value_wf v -> (forall w, path_get ks v = Some w -> f w = g w) -> update_at ks f v = update_at ks g v.
Proof.
  revert v; induction ks as [|k ks IH]; intros v Hv H; cbn in *; [by apply H|].
  destruct v as [| | | | |m]; cbn; try done. f_equal. inversion Hv as [| | | | | | |? Hd _ Hm]; subst.
  apply map_alter_ext. intros w Hw. apply IH.
  - by eapply (Forall_forall _ m) in Hm; [|exact Hw].
  - intros x Hx. apply H. cbn. by rewrite (map_get_elem _ w).
Qed.

Lemma strip_signature_value_spec location v :
  value_wf v ->
  strip_signature_value v location =
  if has_signature_block location v
  then Ok (delete_path [container_key location; str "_meta"; meta_key location; str "signature"; str "value"] v)
  else Err MissingEnvelope.
Proof.
  intros Hv. set (ks := [container_key location; str "_meta"; meta_key location; str "signature"]).
  unfold has_signature_block. fold ks.
  change (delete_path _ v) with (delete_path (ks ++ [str "value"]) v). rewrite delete_path_snoc.
  destruct (path_get ks v) as [sg|] eqn:E.
  - rewrite (update_at_get ks _ (fun _ => remove_member (str "value") sg)) by naive_solver.
    revert E. subst ks. cbn [path_get]. unfold strip_signature_value.
    repeat (destruct (get _ _); cbn; [|done]). intros [= ->]. by destruct sg.
  - revert E. subst ks. cbn [path_get]. unfold strip_signature_value.
    by repeat (destruct (get _ _); cbn; [|done]).
Qed.

Lemma strip_observability_meta_spec location v :
  strip_observability_meta v location =
  delete_paths ((fun key => [container_key location; str "_meta"; key]) <$> OBSERVABILITY_META_KEYS) v.
Proof.
  unfold strip_observability_meta, delete_paths, OBSERVABILITY_META_KEYS.
  cbn [fmap list_fmap foldl].
  repeat match goal with |- context [delete_path [?a; ?b; ?c] ?w] =>
    change (delete_path [a; b; c] w) with (update_at [a; b] (remove_member c) w) end.
  by rewrite !update_at_compose.
Qed.

Lemma signing_preimage_spec object location :
  value_wf object ->
  signing_preimage object location =
  if has_signature_block location object
  then canonicalize_json_value (signed_part location object)
  else Err MissingEnvelope.
Proof.
  intros Hv. unfold signing_preimage. rewrite strip_signature_value_spec by done.
  destruct (has_signature_block location object); [|done].
  by rewrite strip_observability_meta_spec.
Qed.

(** ** Values up to the order of members *)

(** Equality up to the order in which object members are written. *)
Inductive value_equiv : Value -> Value -> Prop :=
| veq_null : value_equiv VNull VNull
| veq_bool b : value_equiv (VBool b) (VBool b)
| veq_number n : value_equiv (VNumber n) (VNumber n)
| veq_string s : value_equiv (VString s) (VString s)
| veq_array l1 l2 : Forall2 value_equiv l1 l2 -> value_equiv (VArray l1) (VArray l2)
| veq_object m1 m2 :
    (forall k, option_Forall2 value_equiv (map_get k m1) (map_get k m2)) ->
    value_equiv (VObject m1) (VObject m2).

Lemma map_result_Err {A B E} (f : A -> result B E) l :
  (forall x, x ∈ l -> is_ok (f x) = true) -> exists ys, map_result f l = Ok ys.
Proof.
  induction l as [|x l IH]; intros H; cbn; [by eexists|].
  pose proof (H x ltac:(left)) as Hx. destruct (f x); [|done].
  destruct IH as [ys ->]; [intros; apply H; by right|]. by eexists.
Qed.

(** The members of a converted object are the converted members. *)
Lemma map_result_on_member {A B E} (f : A -> result B E) (m : list (rstr * A)) out :
  map_result (on_member f) m = Ok out <->
  Forall2 (fun a b => a.1 = b.1 /\ f a.2 = Ok b.2) m out.
Proof.
  rewrite map_result_Ok. split; intros H; (eapply Forall2_impl; [exact H|]);
    intros [k a] [k' b]; unfold on_member; cbn; destruct (f a); naive_solver.
Qed.

Lemma Forall2_fst {A B} (R : A -> B -> Prop) (m : list (rstr * A)) (out : list (rstr * B)) :
  Forall2 (fun a b => a.1 = b.1 /\ R a.2 b.2) m out -> out.*1 = m.*1.
Proof. induction 1 as [|a b m out [Hk _] _ IH]; cbn; [done|]. by rewrite Hk, IH. Qed.

Lemma Forall2_map_get {A B} (R : A -> B -> Prop) (m : list (rstr * A)) (out : list (rstr * B)) k :
  Forall2 (fun a b => a.1 = b.1 /\ R a.2 b.2) m out -> option_Forall2 R (map_get k m) (map_get k out).
Proof.
  induction 1 as [|[k1 a] [k2 b] m out [Hk Hab] _ IH]; cbn in *; [constructor|]. subst.
  case_bool_decide; [by constructor|done].
Qed.

(** On well-formed numbers the conversion keeps the integer. *)
Lemma from_serde_number_inv n j :
  value_wf (VNumber n) -> from_serde_number n = Ok j ->
  exists i, j = JInteger i /\ - MAX_SAFE_INTEGER <= i <= MAX_SAFE_INTEGER /\
    n = if i <? 0 then NegInt i else PosInt i.
Proof.
  unfold from_serde_number. intros W H.
  destruct (as_i64 n) as [i|] eqn:Ei.
  - destruct (check_safe_integer i) as [[]|] eqn:E; [|done]. simplify_eq.
    apply check_safe_integer_Ok in E. exists i. repeat split; [lia..|].
    inversion W; subst; cbn in Ei; [destruct (_ <=? _) in Ei| |]; simplify_eq; by zguard.
  - destruct n as [u|i|b]; cbn in H, Ei; simplify_eq. inversion W; subst.
    destruct (_ <=? _) eqn:E1 in Ei; [done|]. destruct (_ <? _) eqn:E2 in H; [done|].
    breflect. unfold MAX_SAFE_INTEGER, I64_MAX in *. lia.
Qed.

Lemma from_serde_number_inj n1 n2 j :
  value_wf (VNumber n1) -> value_wf (VNumber n2) ->
  from_serde_number n1 = Ok j -> from_serde_number n2 = Ok j -> n1 = n2.
Proof.
  intros W1 W2 H1 H2. apply from_serde_number_inv in H1 as (i & -> & _ & ->); [|done].
  by apply from_serde_number_inv in H2 as (i' & [= <-] & _ & ->).
Qed.

Lemma from_serde_number_wf n room j :
  value_wf (VNumber n) -> from_serde_number n = Ok j -> jcs_wf room j.
Proof. intros W H. apply from_serde_number_inv in H as (i & -> & ? & _); [|done]. by constructor. Qed.

Lemma Forall2_Forall_r {A B} (R : A -> B -> Prop) (P : A -> Prop) (Q : B -> Prop) l k :
  Forall2 R l k -> Forall P l -> (forall a b, P a -> R a b -> Q b) -> Forall Q k.
Proof. induction 1; inversion 1; subst; constructor; eauto. Qed.

(** A conversion that succeeds lands in the JCS-safe domain. *)
Lemma from_serde_value_wf room v j :
  value_wf v -> from_serde_value_at room v = Ok j -> jcs_wf room j.
Proof.
  revert v j; induction room as [|room IH]; intros v j W H; destruct v as [|b|n|s|l|m]; cbn in H; simplify_eq;
    try (by constructor; inversion W); try (by eapply from_serde_number_wf).
  - destruct (map_result _ l) as [out|] eqn:E; simplify_eq. apply map_result_Ok in E.
    inversion W; subst. constructor. eapply Forall2_Forall_r; [exact E|done|]. cbn; eauto.
  - destruct (map_result _ m) as [out|] eqn:E; simplify_eq. apply map_result_on_member in E.
    inversion W as [| | | | | | |? Hd Hs Hm]; subst.
    pose proof (Forall2_fst (fun a b => from_serde_value_at room a = Ok b) _ _ E) as Ek.
    constructor; [by rewrite Ek..|].
    eapply Forall2_Forall_r; [exact E|exact Hm|]. cbn. intros a b Wa [_ Ha]. eauto.
Qed.

Lemma map_get_perm {V} (m1 m2 : list (rstr * V)) k :
  NoDup m1.*1 -> m1 ≡ₚ m2 -> map_get k m1 = map_get k m2.
Proof.
  intros Hd Hp. destruct (map_get k m1) as [v|] eqn:E.
  - symmetry. apply map_get_elem; [by rewrite <- Hp|]. rewrite <- Hp. by apply map_get_Some.
  - symmetry. apply map_get_None. rewrite <- Hp. by apply map_get_None.
Qed.

Lemma map_get_prod_map {V W} (f : V -> W) (m : list (rstr * V)) k :
  map_get k (prod_map id f <$> m) = f <$> map_get k m.
Proof. induction m as [|[k' v] m IH]; cbn; [done|]. by case_bool_decide. Qed.

(** The lookups of a canonical object are the canonical lookups. *)
Lemma canon_object_get (m : list (rstr * JcsValue)) k :
  NoDup m.*1 -> map_get k (sort_members (prod_map id canon <$> m)) = canon <$> map_get k m.
Proof.
  intros Hd. rewrite <- map_get_prod_map. symmetry. apply map_get_perm;
    [by rewrite fst_prod_map|by rewrite sort_members_perm].
Qed.

Lemma canon_object_ext (m1 m2 : list (rstr * JcsValue)) :
  NoDup m1.*1 -> NoDup m2.*1 -> Forall str_wf m1.*1 ->
  (forall k, canon <$> map_get k m1 = canon <$> map_get k m2) ->
  canon (JObject m1) = canon (JObject m2).
Proof.
  intros H1 H2 Hs H. cbn. f_equal.
  apply sort_members_unique; rewrite ?fst_prod_map; [done..|].
  apply map_get_ext_perm; rewrite ?fst_prod_map; [done..|].
  intros k. by rewrite !map_get_prod_map.
Qed.

(** What a successful conversion did, by the shape of the value. *)
Lemma from_serde_value_inv room v j :
  from_serde_value_at room v = Ok j ->
  match v with
  | VNull => j = JNull
  | VBool b => j = JBool b
  | VNumber n => from_serde_number n = Ok j /\ exists i, j = JInteger i
  | VString s => j = JString s
  | VArray l => exists room' out, room = S room' /\ j = JArray out /\
      Forall2 (fun a b => from_serde_value_at room' a = Ok b) l out
  | VObject m => exists room' out, room = S room' /\ j = JObject out /\
      Forall2 (fun a b => a.1 = b.1 /\ from_serde_value_at room' a.2 = Ok b.2) m out
  end.
Proof.
  destruct room as [|room], v as [|b|n|s|l|m]; cbn; intros H; simplify_eq; try done;
    try (split; [done|]; unfold from_serde_number in H; inv_match H; simplify_eq; eauto).
  - destruct (map_result _ l) as [out|] eqn:E; simplify_eq. apply map_result_Ok in E. eauto.
  - destruct (map_result _ m) as [out|] eqn:E; simplify_eq. apply map_result_on_member in E. eauto.
Qed.

Lemma value_wf_object m :
  value_wf (VObject m) -> NoDup m.*1 /\ Forall str_wf m.*1 /\ forall k v, map_get k m = Some v -> value_wf v.
Proof.
  intros W; inversion W as [| | | | | | |? Hd Hs Hm]; subst. repeat split; [done..|].
  intros k v Hk%map_get_Some. by eapply (Forall_forall _ m) in Hm; [|exact Hk].
Qed.

(** The two relations on converted values coincide. *)
Lemma canon_value_equiv room v w jv jw :
  value_wf v -> value_wf w ->
  from_serde_value_at room v = Ok jv -> from_serde_value_at room w = Ok jw ->
  canon jv = canon jw -> value_equiv v w.
Proof.
  revert v w jv jw; induction room as [|room IH]; intros v w jv jw Wv Ww
    Hv%from_serde_value_inv Hw%from_serde_value_inv E;
    destruct v as [|b1|n1|s1|l1|m1], w as [|b2|n2|s2|l2|m2];
    repeat match goal with
           | H : _ /\ exists _, _ |- _ => destruct H as [? [? ?]]
           | H : exists _ _, _ |- _ => let o := fresh "out" in destruct H as (? & o & [= <-] & -> & H)
           end; simplify_eq;
    try (cbn in E; congruence); try (cbn in *; simplify_eq; by constructor);
    try (cbn in *; simplify_eq; erewrite (from_serde_number_inj n1 n2) by eassumption; by constructor).
  - rename out into out2, out0 into out1.
    cbn in E; simplify_eq. inversion Wv as [| | | | | |? Wl1|]; inversion Ww as [| | | | | |? Wl2|]; subst.
    constructor. clear Wv Ww. revert l2 out2 Hw Wl2 E Wl1.
    induction Hv as [|a b l1 out1 Hab _ IHl]; intros l2 out2 Hw Wl2 E Wl1;
      inversion Hw; subst; cbn in E; simplify_eq; decompose_Forall_hyps; constructor; eauto.
  - rename out into out2, out0 into out1.
    pose proof (value_wf_object _ Wv) as (Hd1 & _ & Hg1). pose proof (value_wf_object _ Ww) as (Hd2 & _ & Hg2).
    pose proof (Forall2_fst (fun a b => from_serde_value_at room a = Ok b) _ _ Hv) as K1.
    pose proof (Forall2_fst (fun a b => from_serde_value_at room a = Ok b) _ _ Hw) as K2.
    cbn in E. constructor. intros k.
    assert (Ek : canon <$> map_get k out1 = canon <$> map_get k out2).
    { rewrite <- !canon_object_get by congruence. by rewrite E. }
    pose proof (Forall2_map_get (fun a b => from_serde_value_at room a = Ok b) _ _ k Hv) as G1.
    pose proof (Forall2_map_get (fun a b => from_serde_value_at room a = Ok b) _ _ k Hw) as G2.
    inversion G1 as [x1 y1 F1 X1 Y1|X1 Y1]; inversion G2 as [x2 y2 F2 X2 Y2|X2 Y2];
      rewrite <- Y1, <- Y2 in Ek; cbn in Ek; simplify_eq; constructor.
    eapply IH; eauto.
Qed.

Lemma value_equiv_canon room v w jv :
  value_wf v -> value_wf w -> value_equiv v w -> from_serde_value_at room v = Ok jv ->
  exists jw, from_serde_value_at room w = Ok jw /\ canon jv = canon jw.
Proof.
  revert v w jv; induction room as [|room IH]; intros v w jv Wv Ww Hq Hv;
    inversion Hq as [| | | |l1 l2 Hl|m1 m2 Hm]; subst; try (by exists jv);
    apply from_serde_value_inv in Hv as (? & out1 & [= <-] & -> & Hv).
  - inversion Wv as [| | | | | |? Wl1|]; inversion Ww as [| | | | | |? Wl2|]; subst.
    assert (exists out2, Forall2 (fun a b => from_serde_value_at room a = Ok b) l2 out2 /\
              canon <$> out1 = canon <$> out2) as (out2 & Ho & E).
    { clear Wv Ww Hq. revert l2 Hl Wl2 Wl1. induction Hv as [|a b l1 out1 Hab _ IHl]; intros l2 Hl Wl2 Wl1;
        inversion Hl; subst; [by exists []|]. decompose_Forall_hyps.
      destruct (IHl l') as (out2 & ? & ?); [done..|].
      destruct (IH a y b) as (y' & ? & ?); [done..|].
      exists (y' :: out2). cbn. split; [by constructor|congruence]. }
    exists (JArray out2). cbn. rewrite (proj2 (map_result_Ok _ _ _) Ho), E. done.
  - pose proof (value_wf_object _ Wv) as (Hd1 & Hs1 & Hg1).
    pose proof (value_wf_object _ Ww) as (Hd2 & _ & Hg2).
    pose proof (fun k => Forall2_map_get (fun a b => from_serde_value_at room a = Ok b) _ _ k Hv) as G1.
    pose proof (Forall2_fst (fun a b => from_serde_value_at room a = Ok b) _ _ Hv) as K1.
    destruct (map_result_Err (on_member (from_serde_value_at room)) m2) as [out2 Ho].
    { intros [k y] Hin. pose proof (map_get_elem _ _ _ Hd2 Hin) as Ey. specialize (Hm k). specialize (G1 k).
      rewrite Ey in Hm. inversion Hm as [x ? Hxy Ex|]; subst. rewrite <- Ex in G1. inversion G1; subst.
      destruct (IH x y y0) as (y' & Hy & _); eauto. unfold on_member; cbn. by rewrite Hy. }
    exists (JObject out2). cbn [from_serde_value_at]. rewrite Ho. split; [done|].
    apply map_result_on_member in Ho.
    pose proof (Forall2_fst (fun a b => from_serde_value_at room a = Ok b) _ _ Ho) as K2.
    apply canon_object_ext; [congruence..| by rewrite K1|]. intros k. specialize (Hm k). specialize (G1 k).
    pose proof (Forall2_map_get (fun a b => from_serde_value_at room a = Ok b) _ _ k Ho) as G2.
    inversion Hm as [x y Hxy Ex Ey|Ex Ey]; rewrite <- Ex in G1; rewrite <- Ey in G2;
      inversion G1; inversion G2; subst; [|done].
    cbn. f_equal. edestruct (IH x y) as (y' & Hy & ->); eauto. congruence.
Qed.

(** ** Deleting paths *)

Lemma value_wf_remove k v : value_wf v -> value_wf (remove_member k v).
Proof.
  intros W. destruct v as [| | | | |m]; try done. cbn.
  inversion W as [| | | | | | |? Hd Hs Hm]; subst.
  pose proof (map_remove_sublist k m) as Hl.
  constructor; [by apply map_remove_NoDup|..]; apply Forall_forall; intros x Hx.
  - eapply (Forall_forall _ m.*1); [done|]. eapply elem_of_sublist; [exact Hx|by apply fmap_sublist].
  - eapply (Forall_forall _ m) in Hm; [exact Hm|]. by eapply elem_of_sublist.
Qed.

Lemma value_wf_update k f v :
  value_wf v -> (forall w, value_wf w -> value_wf (f w)) -> value_wf (update_member k f v).
Proof.
  intros W Hf. destruct v as [| | | | |m]; try done. cbn.
  inversion W as [| | | | | | |? Hd Hs Hm]; subst. constructor; rewrite ?map_alter_keys; [done..|].
  unfold map_alter. apply Forall_fmap. eapply Forall_impl; [exact Hm|].
  intros [k' w] Hw; cbn. case_bool_decide; cbn in *; auto.
Qed.

Lemma value_wf_delete_path p v : value_wf v -> value_wf (delete_path p v).
Proof.
  revert v; induction p as [|k p IH]; intros v W; [done|].
  destruct p; [by apply value_wf_remove|]. by apply value_wf_update.
Qed.

Lemma value_wf_delete_paths ps v : value_wf v -> value_wf (delete_paths ps v).
Proof.
  unfold delete_paths. revert v; induction ps as [|p ps IH]; intros v W; cbn; [done|].
  by apply IH, value_wf_delete_path.
Qed.

Lemma delete_path_cons k k0 p v :
  delete_path (k :: k0 :: p) v = update_member k (delete_path (k0 :: p)) v.
Proof. done. Qed.

Lemma path_get_delete_path p ks v s :
  path_get ks (delete_path p v) = Some (VString s) -> path_get ks v = Some (VString s).
Proof.
  revert ks v; induction p as [|k p IH]; intros ks v H; [done|].
  destruct ks as [|k' ks]; [by destruct p, v|].
  destruct p as [|k0 p]; destruct v as [| | | | |m]; try done; rewrite ?delete_path_cons in H;
    cbn [delete_path remove_member update_member path_get get] in H |- *.
  - rewrite map_get_remove in H. by case_bool_decide.
  - rewrite map_get_alter in H. destruct (map_get k' m) as [w|]; cbn in H |- *; [|done].
    case_bool_decide; [|done]. by apply IH.
Qed.

Lemma path_get_kept p ks v s :
  ~ p `prefix_of` ks -> path_get ks v = Some (VString s) -> path_get ks (delete_path p v) = Some (VString s).
Proof.
  revert ks v; induction p as [|k p IH]; intros ks v Hp H; [by destruct Hp; apply prefix_nil|].
  destruct ks as [|k' ks]; [cbn in H; simplify_eq; by destruct p|].
  destruct v as [| | | | |m]; try done. cbn in H. destruct (map_get k' m) as [w|] eqn:E; [|done]. cbn in H.
  destruct p as [|k0 p]; rewrite ?delete_path_cons;
    cbn [delete_path remove_member update_member path_get get].
  - rewrite map_get_remove. case_bool_decide as Hk; [|by rewrite E].
    subst. destruct Hp. apply prefix_cons, prefix_nil.
  - rewrite map_get_alter, E. cbn.
    case_bool_decide as Hk; [|done]. subst. apply IH; [|done]. intros Hpre. destruct Hp. by apply prefix_cons.
Qed.

Lemma path_get_deleted ps ks v s :
  Forall (fun p => ~ p `prefix_of` ks) ps ->
  (path_get ks (delete_paths ps v) = Some (VString s) <-> path_get ks v = Some (VString s)).
Proof.
  intros Hp; revert v; induction Hp as [|p ps Hp _ IH]; intros v; cbn; [done|].
  etrans; [apply IH|]. split; [apply path_get_delete_path|by apply path_get_kept].
Qed.

Lemma value_equiv_path_get ks v w s :
  value_equiv v w -> path_get ks v = Some (VString s) -> path_get ks w = Some (VString s).
Proof.
  revert v w; induction ks as [|k ks IH]; intros v w Hq H; cbn in H.
  - simplify_eq. by inversion Hq.
  - destruct v as [| | | | |m]; try done. inversion Hq as [| | | | |? m2 Hm]; subst. cbn in *.
    specialize (Hm k). destruct (map_get k m) as [x|]; [|done]. inversion Hm; subst. cbn in *. eauto.
Qed.

(** ** Theorems *)

(** The preimage builder is the exclusion predicate: on any object, the
    preimage is the canonical form of the object with exactly the paths of
    [preimage_exclusion_paths] deleted, and [MissingEnvelope] without a
    signature block. *)
Theorem signing_preimage_exclusion object location :
  value_wf object ->
  signing_preimage object location =
  if has_signature_block location object
  then canonicalize_json_value (delete_paths (preimage_exclusion_paths location) object)
  else Err MissingEnvelope.
Proof. apply signing_preimage_spec. Qed.

(** A small signed request, for closed examples. *)
Definition sample_object : Value :=
  VObject [(str "id", VNumber (PosInt 1));
           (str "params", VObject [(str "_meta", VObject
             [(REQUEST_META_KEY, VObject [(str "signature", VObject
                [(str "alg", VString (str "Ed25519")); (str "value", VString (str "AA"))])]);
              (str "traceparent", VString (str "00-ab"))])])].

(** The same request after a tracing middle box and a re-signing. *)
Definition sample_object' : Value :=
  VObject [(str "params", VObject [(str "_meta", VObject
             [(str "baggage", VNull);
              (REQUEST_META_KEY, VObject [(str "signature", VObject
                [(str "value", VString (str "BB")); (str "alg", VString (str "Ed25519"))])])])]);
           (str "id", VNumber (PosInt 1))].

Ltac solve_value_wf :=
  repeat first
    [ apply wf_null | apply wf_bool | apply wf_float | (apply wf_pos; unfold U64_MAX; lia)
    | (apply wf_neg; unfold I64_MIN; lia)
    | (apply wf_string; apply (bool_decide_unpack _); vm_compute; exact I)
    | apply wf_array
    | (apply wf_object; [apply (bool_decide_unpack _); vm_compute; exact I
                        |apply (bool_decide_unpack _); vm_compute; exact I|])
    | apply Forall_nil_2 | (apply Forall_cons_2; cbn [snd]) ].

Lemma sample_object_wf : value_wf sample_object.
Proof. solve_value_wf. Qed.

Lemma sample_object'_wf : value_wf sample_object'.
Proof. solve_value_wf. Qed.


Lemma canonicalize_json_value_equiv v w bs :
  value_wf v -> value_wf w -> canonicalize_json_value v = Ok bs ->
  (canonicalize_json_value w = Ok bs <-> value_equiv v w).
Proof.
  unfold canonicalize_json_value, from_serde_value. intros Wv Ww Hv.
  destruct (from_serde_value_at MAX_PARSE_DEPTH v) as [jv|] eqn:Ev; [|done].
  pose proof (from_serde_value_wf _ _ _ Wv Ev) as Jv. split.
  - intros Hw. destruct (from_serde_value_at MAX_PARSE_DEPTH w) as [jw|] eqn:Ew; [|done].
    eapply canon_value_equiv; [done..|]. eapply canonicalize_value_inj; [done| |done..].
    by eapply from_serde_value_wf.
  - intros Hq. destruct (value_equiv_canon _ _ _ _ Wv Ww Hq Ev) as (jw & Ew & Ec). rewrite Ew.
    rewrite <- canonicalize_value_canon, <- Ec, canonicalize_value_canon; [done..|].
    by eapply from_serde_value_wf.
Qed.

(** C8: What a signature covers: an object shares the preimage of a signed one
    exactly when, the excluded paths deleted, it is the same object up to
    member order.  Rewriting trace context or [signature.value] keeps the
    preimage; changing any other byte of information changes it. *)
Theorem signing_preimage_binds o1 o2 location bs :
  value_wf o1 -> value_wf o2 -> signing_preimage o1 location = Ok bs ->
  (signing_preimage o2 location = Ok bs <->
   has_signature_block location o2 = true /\
   value_equiv (signed_part location o1) (signed_part location o2)).
Proof.
  intros W1 W2. rewrite !signing_preimage_spec by done.
  destruct (has_signature_block location o1); [|done]. intros H1.
  destruct (has_signature_block location o2); [|naive_solver].
  rewrite canonicalize_json_value_equiv; [naive_solver|..|exact H1]; by apply value_wf_delete_paths.
Qed.

Lemma signing_preimage_binds_witness :
  signing_preimage sample_object' Request
  = Ok (as_bytes (json_text
      "{'id':1,'params':{'_meta':{'se.syncom/mcps.request':{'signature':{'alg':'Ed25519'}}}}}"))
  <-> has_signature_block Request sample_object' = true /\
      value_equiv (signed_part Request sample_object) (signed_part Request sample_object').
Proof.
  apply signing_preimage_binds; [apply sample_object_wf|apply sample_object'_wf|].
  vm_compute. reflexivity.
Defined.

(** Every text outside the excluded paths is protected: if two objects have
    one preimage, then a string found in the first at a path that no excluded
    path leads to is found in the second at the same path; a trace key below
    any other [_meta] is protected like the rest. *)
Theorem signing_preimage_protects o1 o2 location bs ks s :
  value_wf o1 -> value_wf o2 ->
  signing_preimage o1 location = Ok bs -> signing_preimage o2 location = Ok bs ->
  Forall (fun p => ~ p `prefix_of` ks) (preimage_exclusion_paths location) ->
  (path_get ks o1 = Some (VString s) <-> path_get ks o2 = Some (VString s)).
Proof.
  intros W1 W2. rewrite !signing_preimage_spec by done.
  destruct (has_signature_block location o1), (has_signature_block location o2); try done.
  intros H1 H2 Hp. rewrite <- (path_get_deleted _ ks o1 s Hp), <- (path_get_deleted _ ks o2 s Hp).
  pose proof (value_wf_delete_paths (preimage_exclusion_paths location) _ W1) as D1.
  pose proof (value_wf_delete_paths (preimage_exclusion_paths location) _ W2) as D2.
  split; apply value_equiv_path_get.
  - by apply (canonicalize_json_value_equiv _ _ bs D1 D2 H1).
  - by apply (canonicalize_json_value_equiv _ _ bs D2 D1 H2).
Qed.

