(* ===== verification/CanonicalErrors.v ===== *)
(** * The one error of the codec

    Whatever goes wrong in [canonical.rs], on the parser's side or on the
    [serde_json] side, is reported as [CanonicalizationFailed]: no other token
    of the taxonomy can be confused with a codec failure. *)

From S2P Require Import Prelude Utf8 Errors Json Canonical Signing.

(** A parser step that fails with nothing but [CanonicalizationFailed]. *)
Definition one_error {A} (r : presult A) : Prop := forall e, r = PErr e -> e = CanonicalizationFailed.

Create HintDb one_error.

Lemma one_error_bind {A B} (c : presult A) (k : A -> rstr -> presult B) :
  one_error c -> (forall x p, one_error (k x p)) -> one_error (do? (x, p) := c in k x p).
Proof. unfold one_error. destruct c; [eauto|naive_solver|done]. Qed.

Lemma one_error_fail {A} : one_error (@PFail A).
Proof. by intros e [= <-]. Qed.

Lemma one_error_ok {A} (a : A) p : one_error (POk a p).
Proof. done. Qed.

Lemma one_error_fuel {A} : one_error (@PFuel A).
Proof. done. Qed.

#[export] Hint Resolve one_error_fail one_error_ok one_error_fuel : one_error.

(** Follow the steps of a parser. *)
Ltac each_step :=
  repeat first
    [ solve [auto with one_error]
    | apply one_error_bind; [|intros ? ?]
    | match goal with
      | |- one_error (if ?c then _ else _) => destruct c
      | |- one_error (match ?c with _ => _ end) => destruct c
      end ].

Lemma expect_error c p : one_error (expect c p).
Proof. unfold expect. each_step. Qed.
#[export] Hint Resolve expect_error : one_error.

Lemma parse_literal_error l p : one_error (parse_literal l p).
Proof. revert p. induction l as [|c l IH]; intros p; cbn; each_step. Qed.
#[export] Hint Resolve parse_literal_error : one_error.

Lemma read_hex_error n v p : one_error (read_hex n v p).
Proof. revert v p. induction n as [|n IH]; intros v p; cbn; each_step. Qed.

Lemma parse_escape_error p : one_error (parse_escape p).
Proof.
  assert (Hh : forall q, one_error (read_hex4 q)) by (intros; apply read_hex_error).
  assert (Hl : forall c q, one_error (lift_char c q)) by (intros; unfold lift_char; each_step).
  unfold parse_escape, parse_unicode_escape. each_step.
Qed.
#[export] Hint Resolve parse_escape_error : one_error.

Lemma parse_string_error p : one_error (parse_string p).
Proof.
  assert (Hl : forall fuel out q, one_error (parse_string_loop fuel out q)).
  { induction fuel as [|fuel IH]; intros out q; cbn; each_step. }
  unfold parse_string. each_step.
Qed.
#[export] Hint Resolve parse_string_error : one_error.

Lemma parse_number_error p : one_error (parse_number p).
Proof.
  unfold parse_number, check_safe_integer. destruct (skip_int_part _) as [q|]; [|each_step].
  destruct (_ || _); [each_step|]. destruct (parse_i64 _) as [i|]; [|each_step].
  destruct (_ && _); each_step.
Qed.
#[export] Hint Resolve parse_number_error : one_error.

Lemma parse_value_error room p : one_error (parse_value room p).
Proof.
  assert (Hleaf : forall q, one_error (parse_leaf q)) by (intros q; unfold parse_leaf, parse_bool, parse_null; each_step).
  revert p. induction room as [|room IH]; intros p; cbn [parse_value]; [each_step|].
  assert (Ho : forall fuel ms seen q, one_error (object_loop (parse_value room) fuel ms seen q)).
  { induction fuel as [|fuel IHf]; intros ms seen q; cbn [object_loop]; each_step. }
  assert (Ha : forall fuel ms q, one_error (array_loop (parse_value room) fuel ms q)).
  { induction fuel as [|fuel IHf]; intros ms q; cbn [array_loop]; each_step. }
  unfold parse_object, parse_array. each_step.
Qed.

Lemma parse_error bs e : parse bs = Err e -> e = CanonicalizationFailed.
Proof.
  unfold parse. assert (H : one_error (parse_steps bs)).
  { pose proof parse_value_error. unfold parse_steps. each_step. }
  destruct (parse_steps bs); intros [= <-]; [by apply H|done].
Qed.

(** ** The other side *)

Lemma map_result_error {A B} (f : A -> result B McpsError) l e :
  (forall x e, f x = Err e -> e = CanonicalizationFailed) -> map_result f l = Err e -> e = CanonicalizationFailed.
Proof.
  intros Hf. induction l as [|x l IH]; cbn; [done|]. destruct (f x) eqn:E; [|intros [= <-]; by eapply Hf].
  destruct (map_result f l); [done|]. intros [= <-]. by apply IH.
Qed.

Lemma from_serde_number_error n e : from_serde_number n = Err e -> e = CanonicalizationFailed.
Proof.
  unfold from_serde_number, check_safe_integer. destruct (as_i64 n); [destruct (_ && _); congruence|].
  destruct (as_u64 n); [destruct (_ <? _)|]; congruence.
Qed.

Lemma from_serde_value_error room v e : from_serde_value_at room v = Err e -> e = CanonicalizationFailed.
Proof.
  revert v e. induction room as [|room IH]; intros v e; destruct v as [|b|n|s|l|m]; cbn; try congruence; try apply from_serde_number_error.
  - destruct (map_result _ l) eqn:E; [done|]. intros [= <-]. by eapply map_result_error.
  - destruct (map_result _ m) eqn:E; [done|]. intros [= <-]. eapply map_result_error; [|exact E].
    intros [k x] e'. unfold on_member. cbn. destruct (from_serde_value_at room x) eqn:E'; [done|]. intros [= <-]. by eapply IH.
Qed.

Lemma write_value_error room v e : write_value room v = Err e -> e = CanonicalizationFailed.
Proof.
  revert v e. induction room as [|room IH]; intros v e; destruct v as [|[]|n|s|l|m]; cbn; try congruence.
  - destruct (map_result _ l) eqn:E; [done|]. intros [= <-]. by eapply map_result_error.
  - destruct (adjacent_dup _); [congruence|]. destruct (map_result _ _) eqn:E; [done|]. intros [= <-].
    eapply map_result_error; [|exact E]. intros [k x] e'. unfold write_member. cbn.
    destruct (write_value room x) eqn:E'; [done|]. intros [= <-]. by eapply IH.
Qed.

Lemma canonicalize_value_error v e : canonicalize_value v = Err e -> e = CanonicalizationFailed.
Proof. unfold canonicalize_value. destruct (write_value _ v) eqn:E; [done|]. intros [= <-]. by eapply write_value_error. Qed.

Lemma canonicalize_error bs e : canonicalize bs = Err e -> e = CanonicalizationFailed.
Proof.
  unfold canonicalize. destruct (parse bs) eqn:E; [apply canonicalize_value_error|]. intros [= <-]. by eapply parse_error.
Qed.

(** The preimage builder has one more error, and its meaning is exact. *)
Lemma signing_preimage_error loc v e :
  value_wf v -> signing_preimage v loc = Err e ->
  e = CanonicalizationFailed \/ e = MissingEnvelope /\ has_signature_block loc v = false.
Proof.
  intros W. rewrite signing_preimage_spec by done. destruct (has_signature_block loc v); [|intros [= <-]; by right].
  unfold canonicalize_json_value, from_serde_value. intros H. left.
  destruct (from_serde_value_at _ _) eqn:E; [by eapply canonicalize_value_error|]. injection H as <-. by eapply from_serde_value_error.
Qed.
