(* ===== verification/Values.v ===== *)
(** * JSON values up to member order

    The equivalence coarser than equality under which canonical bytes, and so
    signatures, do not change: equal up to the order of the members of every
    object.  Deletion, lookup and the signing preimage respect it. *)

From S2P Require Import Prelude Utf8 Errors Json Canonical CanonicalParse CanonicalRound Signing.

Lemma value_equiv_refl v : value_equiv v v.
Proof.
  induction v as [|b|n|s|l IH|m IH] using Value_ind'; try constructor.
  - by apply Forall_Forall2_diag.
  - intros k. destruct (map_get k m) as [v|] eqn:E; constructor. apply map_get_Some in E.
    by eapply (Forall_forall _ m) in IH; [|exact E].
Qed.

Lemma value_equiv_sym v w : value_equiv v w -> value_equiv w v.
Proof.
  revert w; induction v as [|b|n|s|l IH|m IH] using Value_ind'; intros w H1;
    inversion H1 as [| | | |? l2 Hl|? m2 Hm]; subst; try done; constructor.
  - clear H1. induction Hl; decompose_Forall_hyps; constructor; eauto.
  - intros k. specialize (Hm k). destruct (map_get k m) as [x|] eqn:Ex; inversion Hm; subst; constructor.
    apply map_get_Some in Ex. eapply (Forall_forall _ m) in IH; [|exact Ex]. by apply IH.
Qed.

Lemma value_equiv_trans u v w : value_equiv u v -> value_equiv v w -> value_equiv u w.
Proof.
  revert v w; induction u as [|b|n|s|l IH|m IH] using Value_ind'; intros v w H1 H2;
    inversion H1 as [| | | |? l2 Hl|? m2 Hm]; subst; try done.
  - inversion H2 as [| | | |? l3 Hl'|]; subst. constructor. clear H1 H2.
    revert l3 Hl'; induction Hl; intros l3 Hl'; inversion Hl'; subst; decompose_Forall_hyps; constructor; eauto.
  - inversion H2 as [| | | | |? m3 Hm']; subst. constructor. intros k. specialize (Hm k). specialize (Hm' k).
    destruct (map_get k m) as [x|] eqn:Ex; inversion Hm as [? y Hxy Hx Hy|Hx Hy]; subst; rewrite <- Hy in Hm';
      inversion Hm'; subst; constructor.
    apply map_get_Some in Ex. eapply (Forall_forall _ m) in IH; [|exact Ex]. eapply IH; eauto.
Qed.

Lemma value_equiv_remove k v w :
  value_equiv v w -> value_equiv (remove_member k v) (remove_member k w).
Proof.
  intros Hq; inversion Hq as [| | | | |m1 m2 Hm]; subst; try done. cbn. constructor. intros k'.
  rewrite !map_get_remove. case_bool_decide; [constructor|done].
Qed.

Lemma value_equiv_update k f g v w :
  value_equiv v w -> (forall x y, value_equiv x y -> value_equiv (f x) (g y)) ->
  value_equiv (update_member k f v) (update_member k g w).
Proof.
  intros Hq Hf; inversion Hq as [| | | | |m1 m2 Hm]; subst; try done. cbn. constructor. intros k'.
  rewrite !map_get_alter. specialize (Hm k'). inversion Hm; cbn; constructor.
  case_bool_decide; [by apply Hf|done].
Qed.

Lemma value_equiv_delete_path p v w :
  value_equiv v w -> value_equiv (delete_path p v) (delete_path p w).
Proof.
  revert v w; induction p as [|k p IH]; intros v w Hq; [done|].
  destruct p; [by apply value_equiv_remove|]. rewrite !delete_path_cons. by apply value_equiv_update.
Qed.

Lemma value_equiv_get v w k x :
  value_equiv v w -> get k v = Some x -> exists y, get k w = Some y /\ value_equiv x y.
Proof.
  intros Hq Hg. destruct v as [| | | | |m]; try done. inversion Hq as [| | | | |? m2 Hm]; subst. cbn in *.
  specialize (Hm k). rewrite Hg in Hm. inversion Hm; subst. eauto.
Qed.

Lemma value_equiv_is_object v w : value_equiv v w -> is_object v = true -> exists m, w = VObject m.
Proof. destruct 1; cbn; naive_solver. Qed.

Lemma value_equiv_string s w : value_equiv (VString s) w -> w = VString s.
Proof. by inversion 1. Qed.

#[export] Instance value_equiv_equivalence : Equivalence value_equiv.
Proof.
  split; [exact value_equiv_refl|intros v w; apply value_equiv_sym|intros u v w; apply value_equiv_trans].
Qed.

#[export] Instance remove_member_proper k : Proper (value_equiv ==> value_equiv) (remove_member k).
Proof. intros v w. apply value_equiv_remove. Qed.

#[export] Instance delete_path_proper p : Proper (value_equiv ==> value_equiv) (delete_path p).
Proof. intros v w. apply value_equiv_delete_path. Qed.

#[export] Instance delete_paths_proper ps : Proper (value_equiv ==> value_equiv) (delete_paths ps).
Proof.
  unfold delete_paths. induction ps as [|p ps IH]; intros v w H; cbn; [done|]. apply IH. by rewrite H.
Qed.

Lemma value_equiv_path ks v w x :
  value_equiv v w -> path_get ks v = Some x -> exists y, path_get ks w = Some y /\ value_equiv x y.
Proof.
  revert v w. induction ks as [|k ks IH]; intros v w H; cbn [path_get]; [intros [= ->]; eauto|].
  intros (z & Hz & Hx)%bind_Some. destruct (value_equiv_get _ _ _ _ H Hz) as (z' & -> & Hzz). cbn. eauto.
Qed.

Lemma same_lookups_keys {V W} (R : V -> W -> Prop) (m1 : list (rstr * V)) (m2 : list (rstr * W)) :
  NoDup m1.*1 -> NoDup m2.*1 -> (forall k, option_Forall2 R (map_get k m1) (map_get k m2)) ->
  m1.*1 ≡ₚ m2.*1.
Proof.
  intros H1 H2 H. apply NoDup_Permutation; [done..|]. intros k.
  rewrite <- !map_contains_key_spec. unfold map_contains_key. by destruct (H k).
Qed.

(** ** Inserting and deleting members *)

Lemma map_insert_alter k (w : Value) m x :
  map_get k m = Some x -> map_insert k w m = map_alter (fun _ => w) k m.
Proof. intros E. unfold map_insert, map_contains_key. by rewrite E. Qed.

Lemma map_remove_place k (w : Value) m : k ∉ m.*1 -> map_remove k (map_place k w m) = m.
Proof.
  induction m as [|[k' x] m IH]; cbn [map_place map_remove fmap list_fmap]; intros Hk.
  { by rewrite bool_decide_eq_true_2. }
  assert (Hrm : map_remove k m = m).
  { clear IH. apply not_elem_of_cons in Hk as [_ Hk]. induction m as [|[k2 y] m IH]; cbn; [done|].
    apply not_elem_of_cons in Hk as [Hk1 Hk]. cbn in Hk1. rewrite bool_decide_eq_false_2 by congruence. by rewrite IH. }
  apply not_elem_of_cons in Hk as [Hk1 Hk]. cbn in Hk1.
  destruct (str_ltb k k'); cbn [map_remove].
  - rewrite bool_decide_eq_true_2 by done. rewrite bool_decide_eq_false_2 by congruence. by rewrite Hrm.
  - rewrite bool_decide_eq_false_2 by congruence. by rewrite IH.
Qed.

Lemma map_remove_insert k (w : Value) m : map_get k m = None -> map_remove k (map_insert k w m) = m.
Proof.
  intros E. unfold map_insert, map_contains_key. rewrite E. apply map_remove_place. by apply map_get_None.
Qed.

Lemma update_at_id ks v : update_at ks (fun x => x) v = v.
Proof.
  revert v. induction ks as [|k ks IH]; intros v; cbn; [done|]. destruct v as [| | | | |m]; try done. cbn.
  f_equal. unfold map_alter. rewrite <- (list_fmap_id m) at 2. apply list_fmap_ext. intros i [k' x] _. cbn.
  case_bool_decide; [by rewrite IH|done].
Qed.

Lemma path_get_update_at ks ks' f v w :
  path_get ks v = Some w -> path_get (ks ++ ks') (update_at ks f v) = path_get ks' (f w).
Proof.
  revert v. induction ks as [|k ks IH]; intros v; cbn; [by intros [= ->]|].
  destruct v as [| | | | |m]; try done. cbn. intros (x & Hx & Hw)%bind_Some. rewrite map_get_alter, Hx.
  rewrite bool_decide_eq_true_2 by done. cbn. by apply IH.
Qed.

Lemma path_get_app ks ks' v : path_get (ks ++ ks') v = path_get ks v ≫= path_get ks'.
Proof. revert v. induction ks as [|k ks IH]; intros v; cbn; [done|]. destruct (get k v); cbn; auto. Qed.

Lemma get_update_member k k' f v :
  get k (update_member k' f v) = (if bool_decide (k' = k) then f else id) <$> get k v.
Proof. destruct v; try done. apply map_get_alter. Qed.

Lemma value_wf_update_at ks f v :
  value_wf v -> (forall w, value_wf w -> value_wf (f w)) -> value_wf (update_at ks f v).
Proof. intros W Hf. revert v W. induction ks as [|k ks IH]; intros v W; cbn; [auto|]. by apply value_wf_update. Qed.

Lemma map_remove_absent {V} k (m : list (rstr * V)) : map_get k m = None -> map_remove k m = m.
Proof.
  induction m as [|[k' x] m IH]; cbn; [done|]. case_bool_decide; [done|]. intros Hn. by rewrite IH.
Qed.

(** Deleting what is not there changes nothing. *)
Lemma delete_path_absent p v : value_wf v -> p <> [] -> path_get p v = None -> delete_path p v = v.
Proof.
  revert v. induction p as [|k p IH]; intros v W Hp; [done|]. destruct v as [| | | | |m]; try by destruct p.
  pose proof (value_wf_object _ W) as (Hd & _ & Hg). destruct p as [|k0 p].
  - cbn. intros H. rewrite map_remove_absent; [done|]. by destruct (map_get k m).
  - rewrite delete_path_cons. cbn [update_member path_get get]. intros H. f_equal. unfold map_alter.
    rewrite <- (list_fmap_id m) at 2. apply list_fmap_ext. intros i [k' x] Hi%list_elem_of_lookup_2. cbn beta. cbn [fst snd].
    case_bool_decide as Hk; [|done]. subst k'. apply (map_get_elem _ _ _ Hd) in Hi. rewrite Hi in H.
    rewrite IH; [done|by eapply Hg|done|exact H].
Qed.

(** ** Canonical bytes and literals *)

(** Canonical bytes of a value are their own canonical form. *)
Lemma canonicalize_of_json v bs :
  value_wf v -> canonicalize_json_value v = Ok bs -> canonicalize bs = Ok bs.
Proof.
  unfold canonicalize_json_value, from_serde_value. intros W H.
  destruct (from_serde_value_at MAX_PARSE_DEPTH v) as [j|] eqn:E; [|done].
  pose proof (from_serde_value_wf _ _ _ W E) as J.
  destruct (canonicalize_value_ok j J) as (t & Ht & Ec). rewrite H in Ec. simplify_eq.
  unfold canonicalize. rewrite (parse_written _ _ Ht). by rewrite canonicalize_value_canon.
Qed.

Lemma json_object_members_wf (members m : Map) :
  Forall (fun kv => str_wf kv.1 /\ value_wf kv.2) members ->
  Forall (fun kv => str_wf kv.1 /\ value_wf kv.2) m ->
  Forall (fun kv => str_wf kv.1 /\ value_wf kv.2) (foldl (fun m kv => map_insert kv.1 kv.2 m) m members).
Proof.
  intros Hms; revert m. induction Hms as [|[k v] members [Hk Hv] _ IH]; intros m Hm; cbn; [done|].
  apply IH. unfold map_insert. cbn in *. destruct (map_contains_key k m).
  - unfold map_alter. apply Forall_fmap. eapply Forall_impl; [exact Hm|]. intros [k' v'] [? ?]; cbn.
    by case_bool_decide.
  - rewrite map_place_perm. by constructor.
Qed.

Lemma value_wf_members m :
  NoDup m.*1 -> Forall (fun kv => str_wf kv.1 /\ value_wf kv.2) m -> value_wf (VObject m).
Proof.
  intros Hd H. constructor; [done|..].
  - apply Forall_fmap. eapply Forall_impl; [exact H|]. by intros ? [].
  - eapply Forall_impl; [exact H|]. by intros ? [].
Qed.

Lemma value_wf_json_object members :
  Forall (fun kv => str_wf kv.1 /\ value_wf kv.2) members -> value_wf (json_object members).
Proof.
  intros H. apply value_wf_members; [apply json_object_NoDup|]. by apply json_object_members_wf.
Qed.

(** Well-formedness of literals and of strings known to be well formed. *)
Ltac solve_str_wf :=
  lazymatch goal with
  | |- value_wf (VString _) => apply wf_string; solve_str_wf
  | |- str_wf (str _) => apply (bool_decide_unpack _); vm_compute; exact I
  | |- str_wf _ => first [assumption | apply (bool_decide_unpack _); vm_compute; exact I]
  | |- True => exact I
  end.

(** ** Lookups up to member order *)

Lemma equiv_field m m' k s :
  value_equiv (VObject m) (VObject m') -> map_get k m = Some (VString s) -> map_get k m' = Some (VString s).
Proof.
  intros H E. destruct (value_equiv_get _ _ k (VString s) H E) as (y & Hy & Hs%value_equiv_string). by subst.
Qed.

Lemma equiv_object m m' k x :
  value_equiv (VObject m) (VObject m') -> map_get k m = Some (VObject x) ->
  exists x', map_get k m' = Some (VObject x') /\ value_equiv (VObject x) (VObject x').
Proof.
  intros H E. destruct (value_equiv_get _ _ k (VObject x) H E) as (y & Hy & Hs).
  destruct (value_equiv_is_object _ _ Hs eq_refl) as [x' ->]. eauto.
Qed.

Lemma equiv_keys (P : rstr -> Prop) m m' :
  value_wf (VObject m) -> value_wf (VObject m') -> value_equiv (VObject m) (VObject m') ->
  Forall P m.*1 -> Forall P m'.*1.
Proof.
  intros (Hd & _)%value_wf_object (Hd' & _)%value_wf_object H HP. inversion H as [| | | | |? ? Hm]; subst.
  by rewrite <- (same_lookups_keys _ _ _ Hd Hd' Hm).
Qed.

(** ** The signing preimage *)

Lemma has_signature_block_equiv loc v w :
  value_equiv v w -> has_signature_block loc v = true -> has_signature_block loc w = true.
Proof.
  unfold has_signature_block. intros H. destruct (path_get _ v) as [x|] eqn:E; [|done].
  destruct (value_equiv_path _ _ _ _ H E) as (y & -> & Hxy). by destruct Hxy.
Qed.

(** The preimage does not see the order of members. *)
Lemma signing_preimage_equiv loc v w pre :
  value_wf v -> value_wf w -> value_equiv v w ->
  signing_preimage v loc = Ok pre -> signing_preimage w loc = Ok pre.
Proof.
  intros Wv Ww H. rewrite !signing_preimage_spec by done.
  destruct (has_signature_block loc v) eqn:E; [|done]. rewrite (has_signature_block_equiv _ _ _ H E).
  intros Hp. eapply canonicalize_json_value_equiv; [..|exact Hp|by apply delete_paths_proper];
    by apply value_wf_delete_paths.
Qed.

(** Two objects that differ only in the signature value share it. *)
Lemma signing_preimage_delete loc v w :
  value_wf v -> value_wf w -> has_signature_block loc v = true -> has_signature_block loc w = true ->
  delete_path [container_key loc; str "_meta"; meta_key loc; str "signature"; str "value"] v =
  delete_path [container_key loc; str "_meta"; meta_key loc; str "signature"; str "value"] w ->
  signing_preimage v loc = signing_preimage w loc.
Proof.
  intros Wv Ww Hv Hw H. rewrite !signing_preimage_spec, Hv, Hw by done. unfold signed_part, preimage_exclusion_paths.
  cbn [delete_paths foldl]. unfold delete_paths. cbn [foldl]. by rewrite H.
Qed.

(** ** JCS-safe values and their nesting

    [safe n v]: the serde-value path of the canonicalizer takes [v] with room
    for [n] levels of containers (no floats, integers within the safe range).
    The operations of the proxy and of the minting code keep values safe, with
    the levels they add counted. *)

(** The nesting [serde_json] reads: its recursion limit less the leaf. *)
Definition SERDE_MAX_NESTING : nat := 127.

Lemma from_serde_object_ok room m :
  is_ok (from_serde_value_at (S room) (VObject m)) = true <->
  Forall (fun kv => is_ok (from_serde_value_at room kv.2) = true) m.
Proof.
  cbn. split.
  - destruct (map_result _ m) as [out|] eqn:E; [|done]. intros _.
    apply map_result_on_member in E. induction E as [|a b m out [_ Hab] _ IH]; constructor; [by rewrite Hab|done].
  - intros H. destruct (map_result_Err (on_member (from_serde_value_at room)) m) as [out ->]; [|done].
    intros [k v] Hin. eapply (Forall_forall _ m) in H; [|exact Hin]. unfold on_member; cbn in *.
    by destruct (from_serde_value_at room v).
Qed.

Definition safe (n : nat) (v : Value) : Prop := is_ok (from_serde_value_at n v) = true.

Lemma safe_object n m : safe (S n) (VObject m) <-> Forall (fun kv => safe n kv.2) m.
Proof. apply from_serde_object_ok. Qed.

Lemma safe_array n l : safe (S n) (VArray l) <-> Forall (safe n) l.
Proof.
  unfold safe. cbn. split.
  - destruct (map_result _ l) as [out|] eqn:E; [|done]. intros _. apply map_result_Ok in E.
    induction E as [|a b l out Hab _ IH]; constructor; [by rewrite Hab|done].
  - intros H. destruct (map_result_Err (from_serde_value_at n) l) as [out ->]; [|done].
    intros v Hin. by eapply (Forall_forall _ l) in H; [|exact Hin].
Qed.

Lemma safe_string n s : safe n (VString s).
Proof. by destruct n. Qed.

Lemma safe_not_container n v : safe 0 v -> safe n v.
Proof. by destruct v, n. Qed.

Lemma safe_mono n n' v : (n <= n')%nat -> safe n v -> safe n' v.
Proof.
  revert n' v. induction n as [|n IH]; intros n' v Hn H; [by apply safe_not_container|].
  destruct n' as [|n']; [lia|]. destruct v as [| | | |l|m]; try done.
  - rewrite safe_array in *. eapply Forall_impl; [exact H|]. intros x. apply IH. lia.
  - rewrite safe_object in *. eapply Forall_impl; [exact H|]. intros x. apply IH. lia.
Qed.

(** Safety does not depend on the order of members. *)
Lemma safe_equiv n v w : value_wf w -> value_equiv v w -> safe n v -> safe n w.
Proof.
  revert v w. induction n as [|n IH]; intros v w W H Hs; inversion H as [| | | |l l' Hl|m m' Hm]; subst; try done.
  - rewrite safe_array in *. inversion W as [| | | | | |? W'|]; subst. clear H W.
    induction Hl; inversion Hs; inversion W'; subst; constructor; eauto.
  - rewrite safe_object in *. apply value_wf_object in W as (Hd & _ & Hg). apply Forall_forall. intros [k y] Hin.
    apply map_get_elem in Hin; [|done]. specialize (Hm k). rewrite Hin in Hm. inversion Hm as [x ? Hxy Hx|]; subst.
    symmetry in Hx. apply map_get_Some in Hx. eapply (Forall_forall _ m) in Hs; [|exact Hx]. by eapply IH; eauto.
Qed.

Lemma safe_insert n k x m :
  safe n x -> safe (S n) (VObject m) -> safe (S n) (VObject (map_insert k x m)).
Proof.
  rewrite !safe_object. intros Hx Hm. unfold map_insert. destruct (map_contains_key k m).
  - unfold map_alter. apply Forall_fmap. eapply Forall_impl; [exact Hm|]. intros [k' y] Hy. unfold compose; cbn.
    by case_bool_decide.
  - rewrite map_place_perm. by constructor.
Qed.

Lemma safe_json_object n members : Forall (fun kv => safe n kv.2) members -> safe (S n) (json_object members).
Proof.
  intros H. unfold json_object. assert (Hm : safe (S n) (VObject [])) by (by apply safe_object). revert Hm. generalize (@nil (rstr * Value)).
  induction H as [|[k x] members Hx _ IH]; intros m Hm; cbn; [done|]. apply IH. by apply safe_insert.
Qed.

Lemma safe_remove n k v : safe n v -> safe n (remove_member k v).
Proof.
  destruct v as [| | | | |m], n as [|n]; try done. cbn [remove_member]. rewrite !safe_object. intros H.
  apply Forall_forall. intros kv Hin. rewrite Forall_forall in H. apply H.
  eapply elem_of_sublist; [exact Hin|apply map_remove_sublist].
Qed.

Lemma safe_update n k f v :
  (forall n w, safe n w -> safe n (f w)) -> safe n v -> safe n (update_member k f v).
Proof.
  intros Hf. destruct v as [| | | | |m], n as [|n]; try done. cbn [update_member]. rewrite !safe_object. intros H.
  unfold map_alter. apply Forall_fmap. eapply Forall_impl; [exact H|]. intros [k' y] Hy. unfold compose; cbn.
  case_bool_decide; cbn; auto.
Qed.

Lemma safe_update_at n ks f v :
  (forall n w, safe n w -> safe n (f w)) -> safe n v -> safe n (update_at ks f v).
Proof.
  intros Hf. revert n v. induction ks as [|k ks IH]; intros n v H; cbn; [auto|]. by apply safe_update.
Qed.

Lemma safe_delete_path n p v : safe n v -> safe n (delete_path p v).
Proof.
  revert n v. induction p as [|k p IH]; intros n v H; [done|].
  destruct p; [by apply safe_remove|]. rewrite delete_path_cons. apply safe_update; [intros; by apply IH|done].
Qed.

Lemma safe_delete_paths n ps v : safe n v -> safe n (delete_paths ps v).
Proof.
  unfold delete_paths. revert v. induction ps as [|p ps IH]; intros v H; cbn; [done|]. by apply IH, safe_delete_path.
Qed.

(** A safe value has canonical bytes. *)
Lemma safe_canonicalize v :
  value_wf v -> safe MAX_PARSE_DEPTH v -> exists bs, canonicalize_json_value v = Ok bs.
Proof.
  unfold safe, canonicalize_json_value, from_serde_value. intros W H.
  destruct (from_serde_value_at MAX_PARSE_DEPTH v) as [j|] eqn:E; [|done].
  pose proof (from_serde_value_wf _ _ _ W E) as J. destruct (canonicalize_value_ok j J) as (t & _ & ->). eauto.
Qed.

(** And a preimage, when it has a signature block. *)
Lemma safe_signing_preimage loc v :
  value_wf v -> safe MAX_PARSE_DEPTH v -> has_signature_block loc v = true ->
  exists pre, signing_preimage v loc = Ok pre.
Proof.
  intros W H Hb. rewrite signing_preimage_spec, Hb by done.
  apply safe_canonicalize; [by apply value_wf_delete_paths|by apply safe_delete_paths].
Qed.
