(* ===== verification/Envelope.v ===== *)
(** * Envelopes and their deserialization

    [mcps-core/src/envelope.rs]: the structs of the frozen wire vocabulary.
    Their [Deserialize] code is generated by the [serde] derive macro and run
    by [serde_json], neither of which is part of the repository: it is the
    class [Deserialize], with [DeserializeLaws] stating what the derive
    attributes document (the fields are read from the members of their names,
    [deny_unknown_fields], and the wording of the unknown-field error the
    source pins).  A struct nested in an object may also arrive as an array of
    its fields; the laws leave that form unspecified. *)

From S2P Require Import Prelude Utf8 Errors Json.

Record SignatureBlock : Type := {
  alg : rstr;
  key_id : rstr;
  sig_value : option rstr;
}.

Record RequestEnvelope : Type := {
  req_version : rstr;
  req_signer : rstr;
  req_on_behalf_of : rstr;
  req_audience : rstr;
  req_authorization_hash : rstr;
  req_nonce : rstr;
  req_issued_at : rstr;
  req_expires_at : rstr;
  req_signature : SignatureBlock;
}.

Record ResponseEnvelope : Type := {
  resp_request_hash : rstr;
  resp_server_signer : rstr;
  resp_issued_at : rstr;
  resp_signature : SignatureBlock;
}.

Inductive AuthorizationBinding : Type :=
| OpaqueBytes (digest_alg digest_value : rstr)
| AuthzSystemReference (authorization_system_id reference_scheme_id reference_value
    digest_alg digest_value : rstr).

Record Draft02RequestEnvelope : Type := {
  d2_version : rstr;
  d2_canonicalization_id : rstr;
  d2_signer : rstr;
  d2_on_behalf_of : rstr;
  d2_audience : rstr;
  d2_authorization_binding : AuthorizationBinding;
  d2_nonce : rstr;
  d2_issued_at : rstr;
  d2_expires_at : rstr;
  d2_signature : SignatureBlock;
}.

Record Draft02ResponseEnvelope : Type := {
  d2r_version : rstr;
  d2r_canonicalization_id : rstr;
  d2r_request_hash : rstr;
  d2r_server_signer : rstr;
  d2r_issued_at : rstr;
  d2r_signature : SignatureBlock;
}.

Record VerifiedContext : Type := {
  vc_verified_signer : rstr;
  vc_key_id : rstr;
  vc_on_behalf_of : rstr;
  vc_audience : rstr;
  vc_authorization_hash : rstr;
  vc_request_hash : rstr;
  vc_verifier : rstr;
  vc_verified_at : rstr;
}.

#[export] Instance SignatureBlock_eq_dec : EqDecision SignatureBlock.
Proof. solve_decision. Defined.
#[export] Instance AuthorizationBinding_eq_dec : EqDecision AuthorizationBinding.
Proof. solve_decision. Defined.

(** ** The wire form the derive attributes document *)

(** A member holding the string field [s]. *)
Definition field (k : string) (m : Map) (s : rstr) : Prop := map_get (str k) m = Some (VString s).

Arguments field k%_string_scope m s.

(** An [Option<String>] field: absent or null is [None]. *)
Definition opt_field (k : string) (m : Map) (o : option rstr) : Prop :=
  match o with
  | Some s => map_get (str k) m = Some (VString s)
  | None => map_get (str k) m = None \/ map_get (str k) m = Some VNull
  end.

Arguments opt_field k%_string_scope m o.

Definition signature_fields : list rstr := [str "alg"; str "key_id"; str "value"].

Definition signature_object (m : Map) (sg : SignatureBlock) : Prop :=
  field "alg" m (alg sg) /\ field "key_id" m (key_id sg) /\ opt_field "value" m (sig_value sg) /\
  Forall (fun k => k ∈ signature_fields) m.*1.

Definition binding_object (m : Map) (b : AuthorizationBinding) : Prop :=
  match b with
  | OpaqueBytes da dv =>
      field "binding_type" m BINDING_TYPE_OPAQUE_BYTES /\
      field "digest_alg" m da /\ field "digest_value" m dv
  | AuthzSystemReference sys sch rv da dv =>
      field "binding_type" m BINDING_TYPE_AUTHZ_SYSTEM_REFERENCE /\
      field "authorization_system_id" m sys /\ field "reference_scheme_id" m sch /\
      field "reference_value" m rv /\ field "digest_alg" m da /\ field "digest_value" m dv
  end.

(** A nested struct field: what the member says when it is an object. *)
Definition nested_when_object {T} (P : Map -> T -> Prop) (k : rstr) (m : Map) (t : T) : Prop :=
  exists v, map_get k m = Some v /\ forall m', v = VObject m' -> P m' t.

(** The same with the member required to be an object. *)
Definition nested_object {T} (P : Map -> T -> Prop) (k : rstr) (m : Map) (t : T) : Prop :=
  exists m', map_get k m = Some (VObject m') /\ P m' t.

(** A struct with derived [Deserialize] and [deny_unknown_fields]: its field
    names, and how the members of an object correspond to a value of it,
    given how nested structs do. *)
Class WireStruct (T : Type) := {
  wire_fields : list rstr;
  wire_members (nested : forall U : Type, (Map -> U -> Prop) -> rstr -> Map -> U -> Prop) : Map -> T -> Prop;
}.

Arguments wire_fields T {_}.

#[export] Instance RequestEnvelope_wire : WireStruct RequestEnvelope := {
  wire_fields := [str "version"; str "signer"; str "on_behalf_of"; str "audience";
    str "authorization_hash"; str "nonce"; str "issued_at"; str "expires_at"; str "signature"];
  wire_members nested m e :=
    field "version" m (req_version e) /\ field "signer" m (req_signer e) /\
    field "on_behalf_of" m (req_on_behalf_of e) /\ field "audience" m (req_audience e) /\
    field "authorization_hash" m (req_authorization_hash e) /\ field "nonce" m (req_nonce e) /\
    field "issued_at" m (req_issued_at e) /\ field "expires_at" m (req_expires_at e) /\
    nested _ signature_object (str "signature") m (req_signature e);
}.

#[export] Instance ResponseEnvelope_wire : WireStruct ResponseEnvelope := {
  wire_fields := [str "request_hash"; str "server_signer"; str "issued_at"; str "signature"];
  wire_members nested m e :=
    field "request_hash" m (resp_request_hash e) /\ field "server_signer" m (resp_server_signer e) /\
    field "issued_at" m (resp_issued_at e) /\
    nested _ signature_object (str "signature") m (resp_signature e);
}.

#[export] Instance Draft02RequestEnvelope_wire : WireStruct Draft02RequestEnvelope := {
  wire_fields := [str "version"; str "canonicalization_id"; str "signer"; str "on_behalf_of";
    str "audience"; str "authorization_binding"; str "nonce"; str "issued_at"; str "expires_at";
    str "signature"];
  wire_members nested m e :=
    field "version" m (d2_version e) /\ field "canonicalization_id" m (d2_canonicalization_id e) /\
    field "signer" m (d2_signer e) /\ field "on_behalf_of" m (d2_on_behalf_of e) /\
    field "audience" m (d2_audience e) /\
    nested _ binding_object (str "authorization_binding") m (d2_authorization_binding e) /\
    field "nonce" m (d2_nonce e) /\ field "issued_at" m (d2_issued_at e) /\
    field "expires_at" m (d2_expires_at e) /\
    nested _ signature_object (str "signature") m (d2_signature e);
}.

#[export] Instance Draft02ResponseEnvelope_wire : WireStruct Draft02ResponseEnvelope := {
  wire_fields := [str "version"; str "canonicalization_id"; str "request_hash"; str "server_signer";
    str "issued_at"; str "signature"];
  wire_members nested m e :=
    field "version" m (d2r_version e) /\ field "canonicalization_id" m (d2r_canonicalization_id e) /\
    field "request_hash" m (d2r_request_hash e) /\ field "server_signer" m (d2r_server_signer e) /\
    field "issued_at" m (d2r_issued_at e) /\
    nested _ signature_object (str "signature") m (d2r_signature e);
}.

(** ** [serde_json] as a parameter *)

(** [serde_json::from_slice::<Value>]. *)
Class SerdeJson := from_slice : bytes -> option Value.

(** A parsed [Value] holds what its type can hold. *)
Class SerdeJsonLaws `{SerdeJson} : Prop := {
  from_slice_wf bs v : from_slice bs = Some v -> value_wf v;
}.

(** [serde_json::from_value::<T>]; the error is its [Display] text. *)
Class Deserialize (T : Type) := from_value : Value -> result T rstr.

Definition UNKNOWN_FIELD : rstr := str "unknown field".

Class DeserializeLaws (T : Type) `{WireStruct T, Deserialize T} : Prop := {
  from_value_reads m t :
    from_value (VObject m) = Ok t ->
    wire_members (fun _ => nested_when_object) m t /\ Forall (fun k => k ∈ wire_fields T) m.*1;
  from_value_accepts m t :
    NoDup m.*1 -> wire_members (fun _ => nested_object) m t -> Forall (fun k => k ∈ wire_fields T) m.*1 ->
    from_value (VObject m) = Ok t;
  from_value_unknown_field m msg :
    from_value (VObject m) = Err msg -> starts_with UNKNOWN_FIELD msg = true ->
    exists k, k ∈ m.*1 /\ k ∉ wire_fields T \/
      exists k' m', map_get k' m = Some (VObject m') /\ k ∈ m'.*1 /\ k ∉ signature_fields;
}.
