(* ===== verification/Instances.v ===== *)
(** * Concrete stand-ins for the third-party code

    The theorems hold for every implementation of the [base64], [sha2],
    [ed25519_dalek] and [serde] interfaces that satisfies their laws.  This
    file gives one executable implementation of each, with the laws proved,
    so that the closed examples of the development can be evaluated and no
    set of laws is vacuous.  They are not models of the crates: the hash is a
    checksum and a signature a keyed checksum. *)

From S2P Require Import Prelude Utf8 Errors Json Canonical CanonicalParse CanonicalRound Crypto.
From S2P Require Import Envelope.

(** ** Base64: one letter of [a..p] per half byte *)

Definition toy_encode (bs : bytes) : rstr := bs ≫= (fun b => [97 + b / 16; 97 + b mod 16]).

Fixpoint toy_decode (s : rstr) : option bytes :=
  match s with
  | [] => Some []
  | h :: l :: s' =>
      if (97 <=? h) && (h <=? 112) && (97 <=? l) && (l <=? 112)
      then cons ((h - 97) * 16 + (l - 97)) <$> toy_decode s' else None
  | _ => None
  end.

Definition toy_base64 : Base64 := {| base64_encode := toy_encode; base64_decode := toy_decode |}.
#[local] Existing Instance toy_base64.

#[local] Instance toy_base64_laws : Base64Laws.
Proof.
  split; intros bs Hb; induction Hb as [|b bs Hb _ IH].
  - done.
  - pose proof (Z.div_mod b 16). pose proof (Z.mod_pos_bound b 16).
    change (base64_decode (base64_encode (b :: bs))) with
      (toy_decode (97 + b / 16 :: 97 + b mod 16 :: toy_encode bs)).
    assert (0 <= b / 16 < 16) by (split; [apply Z.div_pos|apply Z.div_lt_upper_bound]; lia).
    cbn [toy_decode]. zguard. change (toy_decode (toy_encode bs)) with (base64_decode (base64_encode bs)).
    rewrite IH. cbn. do 2 f_equal. lia.
  - constructor.
  - pose proof (Z.mod_pos_bound b 16).
    assert (0 <= b / 16 < 16) by (split; [apply Z.div_pos|apply Z.div_lt_upper_bound]; lia).
    constructor; [apply is_scalar_spec; lia|]. constructor; [apply is_scalar_spec; lia|exact IH].
Qed.

(** ** A checksum of 32 bytes *)

Definition checksum (bs : bytes) : Z := foldl (fun a b => (a * 31 + b) mod 256) 7 bs.

Lemma checksum_byte bs : 0 <= checksum bs < 256.
Proof.
  unfold checksum. assert (H : 0 <= 7 < 256) by lia. revert H. generalize 7.
  induction bs as [|b bs IH]; intros a Ha; cbn; [done|]. apply IH, Z.mod_pos_bound. lia.
Qed.

Definition toy_sha2 : Sha2 := fun bs => replicate 32 (checksum bs).
#[local] Existing Instance toy_sha2.

#[local] Instance toy_sha2_laws : Sha2Laws.
Proof. split; intros bs; [done|]. apply Forall_replicate, checksum_byte. Qed.

(** ** A keyed checksum of 64 bytes; two keys *)

Definition toy_sign (k : bool) (m : bytes) : bytes := (if k then 1 else 0) :: replicate 63 (checksum m).

Definition toy_dalek : Dalek := {|
  DalekVerifyingKey := bool; DalekSigningKey := bool;
  dalek_vk_from_bytes bs := match bs with b :: _ => Some (b =? 1) | [] => None end;
  dalek_vk_to_bytes k := (if k then 1 else 0) :: replicate 31 0;
  dalek_verify_strict k m s := bool_decide (s = toy_sign k m);
  dalek_sk_from_bytes bs := match bs with b :: _ => b =? 1 | [] => false end;
  dalek_verifying_key k := k;
  dalek_sign := toy_sign;
|}.
#[local] Existing Instance toy_dalek.

#[local] Instance toy_dalek_laws : DalekLaws.
Proof.
  split; try by intros [].
  - intros k m. constructor; [destruct k; lia|]. apply Forall_replicate, checksum_byte.
  - intros k m. cbn. by apply bool_decide_eq_true.
  - intros [|]; apply (bool_decide_unpack _); vm_compute; exact I.
Qed.

(** ** [from_slice]: the strict parser of the repository, read as a [Value] *)

Fixpoint of_jcs (j : JcsValue) : Value :=
  match j with
  | JNull => VNull
  | JBool b => VBool b
  | JInteger i => VNumber (if i <? 0 then NegInt i else PosInt i)
  | JString s => VString s
  | JArray l => VArray (of_jcs <$> l)
  | JObject m => VObject (prod_map id of_jcs <$> m)
  end.

Lemma of_jcs_wf room j : jcs_wf room j -> value_wf (of_jcs j).
Proof.
  revert j; induction room as [|room IH]; intros j H; inversion H; subst; cbn;
    try (destruct (_ <? _) eqn:?; breflect); constructor;
    try (unfold MAX_SAFE_INTEGER, I64_MIN, U64_MAX in *; lia); rewrite ?fst_prod_map; try done;
    apply Forall_fmap; (eapply Forall_impl; [eassumption|]); intros ??; by apply IH.
Qed.

Definition toy_serde_json : SerdeJson :=
  fun bs => match parse bs with Ok j => Some (of_jcs j) | Err _ => None end.
#[local] Existing Instance toy_serde_json.

#[local] Instance toy_serde_json_laws : SerdeJsonLaws.
Proof.
  split. intros bs v H. unfold from_slice, toy_serde_json in H.
  destruct (parse bs) as [j|] eqn:E; simplify_eq. by eapply of_jcs_wf, parse_Ok_wf.
Qed.

(** ** [from_value]: check the names, then read every field *)

Definition member_str (k : string) (m : Map) : option rstr := map_get (str k) m ≫= as_str.
Arguments member_str k%_string_scope m.

Definition names_ok (fields : list rstr) (m : Map) : bool :=
  bool_decide (Forall (fun k => k ∈ fields) m.*1).

Definition toy_struct {T : Type} (fields : list rstr) (build : Map -> option T) (v : Value)
  : result T rstr :=
  match v with
  | VObject m =>
      if names_ok fields m
      then match build m with Some t => Ok t | None => Err (str "invalid value") end
      else Err UNKNOWN_FIELD
  | _ => Err (str "invalid type")
  end.

Definition build_signature (m : Map) : option SignatureBlock :=
  if names_ok signature_fields m then
    a ← member_str "alg" m; k ← member_str "key_id" m;
    v ← match map_get (str "value") m with
        | None | Some VNull => Some None
        | Some (VString s) => Some (Some s)
        | _ => None
        end;
    Some {| alg := a; key_id := k; sig_value := v |}
  else None.

Definition build_binding (m : Map) : option AuthorizationBinding :=
  t ← member_str "binding_type" m;
  if bool_decide (t = BINDING_TYPE_OPAQUE_BYTES) then
    da ← member_str "digest_alg" m; dv ← member_str "digest_value" m; Some (OpaqueBytes da dv)
  else if bool_decide (t = BINDING_TYPE_AUTHZ_SYSTEM_REFERENCE) then
    sys ← member_str "authorization_system_id" m; sch ← member_str "reference_scheme_id" m;
    rv ← member_str "reference_value" m;
    da ← member_str "digest_alg" m; dv ← member_str "digest_value" m;
    Some (AuthzSystemReference sys sch rv da dv)
  else None.

Definition nested {T} (build : Map -> option T) (k : rstr) (m : Map) : option T :=
  v ← map_get k m; m' ← as_object v; build m'.

Lemma member_str_Some k m s : member_str k m = Some s <-> field k m s.
Proof.
  unfold member_str, field. destruct (map_get (str k) m) as [v|]; cbn; [|done].
  destruct v; cbn; naive_solver.
Qed.

Lemma nested_Some {T} (build : Map -> option T) (P : Map -> T -> Prop) k m t :
  (forall m t, build m = Some t <-> P m t) ->
  nested build k m = Some t <-> nested_object P k m t.
Proof.
  intros HP. unfold nested, nested_object. destruct (map_get k m) as [v|]; cbn; [|naive_solver].
  destruct v; cbn; naive_solver.
Qed.

Lemma build_signature_Some m sg : build_signature m = Some sg <-> signature_object m sg.
Proof.
  unfold build_signature, signature_object, names_ok, opt_field. rewrite <- !member_str_Some.
  destruct sg as [a k v]; cbn. case_bool_decide; [|naive_solver].
  destruct (member_str "alg" m), (member_str "key_id" m); cbn; try naive_solver.
  destruct (map_get (str "value") m) as [[]|], v; cbn; naive_solver.
Qed.

Lemma build_binding_Some m b : build_binding m = Some b <-> binding_object m b.
Proof.
  unfold build_binding, binding_object. destruct (member_str "binding_type" m) as [t|] eqn:Et; cbn.
  - destruct b; rewrite <- !member_str_Some, Et;
      repeat case_bool_decide; subst; cbn;
      repeat match goal with |- context [member_str ?k m] => destruct (member_str k m); cbn end;
      naive_solver.
  - destruct b; rewrite <- !member_str_Some, Et; naive_solver.
Qed.

Definition toy_request_envelope : Deserialize RequestEnvelope :=
  toy_struct (wire_fields RequestEnvelope) (fun m =>
    v ← member_str "version" m; s ← member_str "signer" m; o ← member_str "on_behalf_of" m;
    a ← member_str "audience" m; h ← member_str "authorization_hash" m; n ← member_str "nonce" m;
    i ← member_str "issued_at" m; e ← member_str "expires_at" m;
    sg ← nested build_signature (str "signature") m;
    Some (Build_RequestEnvelope v s o a h n i e sg)).

Definition toy_response_envelope : Deserialize ResponseEnvelope :=
  toy_struct (wire_fields ResponseEnvelope) (fun m =>
    h ← member_str "request_hash" m; s ← member_str "server_signer" m; i ← member_str "issued_at" m;
    sg ← nested build_signature (str "signature") m;
    Some (Build_ResponseEnvelope h s i sg)).

Definition toy_draft02_request_envelope : Deserialize Draft02RequestEnvelope :=
  toy_struct (wire_fields Draft02RequestEnvelope) (fun m =>
    v ← member_str "version" m; c ← member_str "canonicalization_id" m; s ← member_str "signer" m;
    o ← member_str "on_behalf_of" m; a ← member_str "audience" m;
    b ← nested build_binding (str "authorization_binding") m; n ← member_str "nonce" m;
    i ← member_str "issued_at" m; e ← member_str "expires_at" m;
    sg ← nested build_signature (str "signature") m;
    Some (Build_Draft02RequestEnvelope v c s o a b n i e sg)).

Definition toy_draft02_response_envelope : Deserialize Draft02ResponseEnvelope :=
  toy_struct (wire_fields Draft02ResponseEnvelope) (fun m =>
    v ← member_str "version" m; c ← member_str "canonicalization_id" m;
    h ← member_str "request_hash" m; s ← member_str "server_signer" m; i ← member_str "issued_at" m;
    sg ← nested build_signature (str "signature") m;
    Some (Build_Draft02ResponseEnvelope v c h s i sg)).

Lemma nested_object_when {T} (P : Map -> T -> Prop) k m t :
  nested_object P k m t -> nested_when_object P k m t.
Proof. intros (m' & Hk & HP). exists (VObject m'). split; [done|]. intros ? [= <-]. done. Qed.

(** The laws of a struct reader, from what its field reader decides. *)
Lemma toy_struct_laws {T} `{WireStruct T} (build : Map -> option T) :
  (forall m t, build m = Some t <-> wire_members (fun _ => nested_object) m t) ->
  (forall m t, wire_members (fun _ => nested_object) m t -> wire_members (fun _ => nested_when_object) m t) ->
  @DeserializeLaws T _ (toy_struct (wire_fields T) build).
Proof.
  intros Hb Hn. split; unfold from_value, toy_struct, names_ok.
  - intros m t Ht. case_bool_decide; [|done]. destruct (build m) eqn:E; [|done]. simplify_eq.
    split; [|done]. by apply Hn, Hb.
  - intros m t _ Hm Hf. rewrite bool_decide_eq_true_2 by done. apply Hb in Hm. by rewrite Hm.
  - intros m msg Hm Hmsg. case_bool_decide as Hf.
    { by destruct (build m); simplify_eq. }
    apply not_Forall_Exists, Exists_exists in Hf as (k & Hk & Hnk); [|apply _]. exists k. by left.
Qed.

Lemma bind_iff {A B} (o : option A) (f : A -> option B) b :
  o ≫= f = Some b <-> exists a, o = Some a /\ f a = Some b.
Proof. destruct o; cbn; naive_solver. Qed.

Ltac solve_toy_struct :=
  apply toy_struct_laws;
  [ intros ? []; cbn [wire_members RequestEnvelope_wire ResponseEnvelope_wire
      Draft02RequestEnvelope_wire Draft02ResponseEnvelope_wire];
    rewrite <- ?(nested_Some _ _ _ _ _ build_signature_Some), <- ?(nested_Some _ _ _ _ _ build_binding_Some),
      <- !member_str_Some; cbn;
    split;
    [ intros E; repeat (apply bind_iff in E as (? & -> & E)); injection E; intros; subst; tauto
    | intros E; destruct_and? E; repeat match goal with H : _ = Some _ |- _ => rewrite H; clear H; cbn end;
      done ]
  | intros ? ?; cbn; intuition auto using (@nested_object_when) ].

#[local] Instance toy_request_envelope_laws : @DeserializeLaws RequestEnvelope _ toy_request_envelope.
Proof. solve_toy_struct. Qed.
#[local] Instance toy_response_envelope_laws : @DeserializeLaws ResponseEnvelope _ toy_response_envelope.
Proof. solve_toy_struct. Qed.
#[local] Instance toy_draft02_request_envelope_laws :
  @DeserializeLaws Draft02RequestEnvelope _ toy_draft02_request_envelope.
Proof. solve_toy_struct. Qed.
#[local] Instance toy_draft02_response_envelope_laws :
  @DeserializeLaws Draft02ResponseEnvelope _ toy_draft02_response_envelope.
Proof. solve_toy_struct. Qed.

(** Importing [Toy] makes the stand-ins the implementations in use. *)
Module Toy.
#[export] Existing Instance toy_base64.
#[export] Existing Instance toy_base64_laws.
#[export] Existing Instance toy_sha2.
#[export] Existing Instance toy_sha2_laws.
#[export] Existing Instance toy_dalek.
#[export] Existing Instance toy_dalek_laws.
#[export] Existing Instance toy_serde_json.
#[export] Existing Instance toy_serde_json_laws.
#[export] Existing Instance toy_request_envelope.
#[export] Existing Instance toy_request_envelope_laws.
#[export] Existing Instance toy_response_envelope.
#[export] Existing Instance toy_response_envelope_laws.
#[export] Existing Instance toy_draft02_request_envelope.
#[export] Existing Instance toy_draft02_request_envelope_laws.
#[export] Existing Instance toy_draft02_response_envelope.
#[export] Existing Instance toy_draft02_response_envelope_laws.
End Toy.
