(* ===== verification/TransportTheorems.v ===== *)
(** * What the transport layer guarantees

    Splitting loses nothing and cannot be confused by quotes, the identity a
    trusted header yields is the one every certificate element agrees on, and
    an LB assertion is good for one request only. *)

From S2P Require Import Prelude Utf8 Errors Canonical Strings Crypto Transport Instances.

(** ** Splitting outside quotes *)

(** Scanning a text from outside ([q = false]) or inside a quoted span: the
    state at the end, or [None] at a separator outside quotes. *)
Fixpoint scan (sep : rchar) (q : bool) (s : rstr) : option bool :=
  match s with
  | [] => Some q
  | c :: s' =>
      if c =? 34 then scan sep (negb q) s'
      else if (c =? sep) && negb q then None
      else scan sep q s'
  end.

Lemma scan_app sep q s t : scan sep q (s ++ t) = q' ← scan sep q s; scan sep q' t.
Proof.
  revert q. induction s as [|c s IH]; intros q; cbn; [done|].
  destruct (c =? 34); [apply IH|]. destruct ((c =? sep) && negb q); [done|]. apply IH.
Qed.

(** What a list of parts is to a text. *)
Definition parts_of (sep : rchar) (value : rstr) (parts : list rstr) : Prop :=
  parts <> [] /\ join_with sep parts = value /\ Forall (fun p => scan sep false p = Some false) parts.

Lemma split_quoted_loop_sound sep q part s parts :
  sep <> 34 -> scan sep false part = Some q ->
  split_quoted_loop sep q part s = Some parts -> parts_of sep (part ++ s) parts.
Proof.
  intros Hsep. revert q part parts. induction s as [|c s IH]; intros q part parts Hq; cbn.
  - destruct q; [done|]. intros [= <-]. rewrite app_nil_r. repeat split; [done..|]. by repeat constructor.
  - destruct (Z.eqb_spec c 34) as [->|Hc].
    { intros H. apply IH in H; [by rewrite <- (assoc_L (++)) in H|]. rewrite scan_app, Hq. done. }
    destruct ((c =? sep) && negb q) eqn:E; breflect; subst.
    + intros (ps & H & ->)%fmap_Some. apply IH in H as (Hn & Hj & Hf); [|done].
      split; [done|]. split; [by rewrite join_with_cons, Hj|]. by constructor.
    + intros H. apply IH in H; [by rewrite <- (assoc_L (++)) in H|]. rewrite scan_app, Hq. cbn.
      rewrite (proj2 (Z.eqb_neq c 34)), E by done. done.
Qed.

Lemma split_quoted_loop_part sep q q' part p s :
  scan sep q p = Some q' ->
  split_quoted_loop sep q part (p ++ s) = split_quoted_loop sep q' (part ++ p) s.
Proof.
  revert q part. induction p as [|c p IH]; intros q part; cbn.
  { intros [= ->]. by rewrite app_nil_r. }
  destruct (c =? 34). { intros H. rewrite IH by done. by rewrite <- (assoc_L (++)). }
  destruct ((c =? sep) && negb q); [done|]. intros H. rewrite IH by done. by rewrite <- (assoc_L (++)).
Qed.

Lemma split_quoted_loop_complete sep parts value :
  sep <> 34 -> parts_of sep value parts -> split_quoted_loop sep false [] value = Some parts.
Proof.
  intros Hsep (Hn & <- & Hf). induction Hf as [|p ps Hp Hps IH]; [done|].
  destruct ps as [|p' ps].
  - cbn [join_with]. rewrite <- (app_nil_r p) at 1. by rewrite (split_quoted_loop_part _ _ false).
  - rewrite join_with_cons by done. rewrite (split_quoted_loop_part _ _ false) by done. cbn [app split_quoted_loop].
    rewrite (proj2 (Z.eqb_neq sep 34)), Z.eqb_refl by done. cbn [negb andb]. by rewrite IH.
Qed.

(** Splitting outside quotes yields exactly the list of quote-balanced,
    separator-free parts that joins back to the text, and fails only when
    there is none, that is on an unterminated quote. *)
Lemma split_outside_quotes_exact value sep parts :
  sep <> 34 -> split_outside_quotes value sep = Some parts <-> parts_of sep value parts.
Proof.
  intros Hsep. split; [by apply (split_quoted_loop_sound _ _ [])|by apply split_quoted_loop_complete].
Qed.

(** ** Asserted values *)

(** A value and the identity text it trims to. *)
Definition clean_identity (value x : rstr) : Prop :=
  x = trim value /\ x <> [] /\ str_len x <= MAX_ASSERTED_IDENTITY_LEN /\
  Forall (fun c => is_control c = false) x.

Lemma validate_asserted_identity_value_Ok value x :
  validate_asserted_identity_value value = Ok x <-> clean_identity value x.
Proof.
  unfold validate_asserted_identity_value, clean_identity. rewrite <- existsb_false_Forall.
  destruct (trim value) as [|c t]; [cbn; naive_solver|]. cbn [is_empty].
  destruct (Z.ltb_spec MAX_ASSERTED_IDENTITY_LEN (str_len (c :: t))).
  { split; [done|]. intros (-> & _ & ? & _). lia. }
  destruct (existsb is_control (c :: t)) eqn:E; split; try done.
  - intros (-> & _ & _ & Hc). congruence.
  - intros [= <-]. by repeat split.
  - by intros (-> & _).
Qed.

(** ** The identity of a trusted header *)

(** What a pair contributes: nothing, or the value (if any) extracted from the
    selected field. *)
Definition field_value (policy : IdentityPolicy) (pair : rstr) : option (option rstr) :=
  '(key, raw_value) ← split_once 61 pair;
  let key := to_ascii_lowercase (trim key) in
  if existsb (fun w => bool_decide (w = key)) (wanted_keys policy) then
    let stripped := strip_optional_quotes (trim raw_value) in
    Some (if bool_decide (key = str "subject") then common_name_from_rfc2253 stripped else Some stripped)
  else None.

Lemma xfcc_pair_field policy found pair :
  xfcc_pair policy found pair =
  match field_value policy pair with
  | None => Some found
  | Some None => None
  | Some (Some x) =>
      if is_empty x then None
      else match found with
           | Some y => if bool_decide (y = x) then Some found else None
           | None => Some (Some x)
           end
  end.
Proof.
  unfold xfcc_pair, field_value. destruct (split_once 61 pair) as [[key raw]|]; [|done]. cbn.
  destruct (existsb _ _); [|done]. cbn. case_bool_decide; [|done]. by destruct (common_name_from_rfc2253 (strip_optional_quotes (trim raw))).
Qed.

(** Every value is [x], which is not empty, and there is one. *)
Definition agreed (vals : list (option rstr)) (x : rstr) : Prop :=
  vals <> [] /\ x <> [] /\ Forall (fun r => r = Some x) vals.

Lemma fold_pairs policy found pairs r :
  fold_option (xfcc_pair policy) found pairs = Some r <->
  (omap (field_value policy) pairs = [] /\ r = found) \/
  (exists x, agreed (omap (field_value policy) pairs) x /\ r = Some x /\ (found = None \/ found = Some x)).
Proof.
  revert found. induction pairs as [|pair pairs IH]; intros found; cbn.
  { unfold agreed. naive_solver. }
  rewrite xfcc_pair_field. destruct (field_value policy pair) as [[x|]|] eqn:E; cbn; [| |by apply IH].
  - destruct x as [|c x]; cbn.
    { split; [done|]. intros [[? _]|(y & (_ & Hy & Hf) & _)]; [done|]. apply Forall_cons in Hf as [[= <-] _]. done. }
    assert (Hgo : forall vals, agreed (Some (c :: x) :: vals) (c :: x) <-> vals = [] \/ agreed vals (c :: x)).
    { intros vals. unfold agreed. rewrite Forall_cons. destruct vals; naive_solver. }
    assert (Hto : fold_option (xfcc_pair policy) (Some (c :: x)) pairs = Some r <->
      agreed (Some (c :: x) :: omap (field_value policy) pairs) (c :: x) /\ r = Some (c :: x)).
    { rewrite IH, Hgo. split; [|naive_solver]. intros [[-> ->]|(y & Hy & -> & [?|?])]; naive_solver. }
    assert (Hx : forall y, agreed (Some (c :: x) :: omap (field_value policy) pairs) y -> y = c :: x).
    { intros y (_ & _ & Hf). apply Forall_cons in Hf as [[= <-] _]. done. }
    destruct found as [y|]; cbn.
    + case_bool_decide as Hyx; cbn; [subst y|].
      * rewrite Hto. split; [naive_solver|]. intros [[? _]|(z & Hz & -> & _)]; [done|]. apply Hx in Hz as Hz'. by subst.
      * split; [done|]. intros [[? _]|(z & Hz & -> & [?|?])]; [done..|]. apply Hx in Hz. naive_solver.
    + rewrite Hto. split; [naive_solver|]. intros [[? _]|(z & Hz & -> & _)]; [done|]. apply Hx in Hz as Hz'. by subst.
  - split; [done|]. intros [[? _]|(y & (_ & Hy & Hf) & _)]; [done|]. apply Forall_cons in Hf as [? _]. done.
Qed.

(** The nested loops of [parse_xfcc] are one loop over all pairs. *)
Lemma fold_elements policy found elements r :
  fold_option (fun found element => pairs ← split_xfcc_element_pairs element;
                 fold_option (xfcc_pair policy) found pairs) found elements = Some r <->
  exists pairss, mapM split_xfcc_element_pairs elements = Some pairss /\
    fold_option (xfcc_pair policy) found (concat pairss) = Some r.
Proof.
  assert (Happ : forall ps qs a, fold_option (xfcc_pair policy) a (ps ++ qs) =
    b ← fold_option (xfcc_pair policy) a ps; fold_option (xfcc_pair policy) b qs).
  { induction ps as [|p ps IH]; intros qs a; cbn; [done|]. destruct (xfcc_pair policy a p); cbn; auto. }
  revert found. induction elements as [|e es IH]; intros found; cbn.
  { split; [intros ?; by exists []|by intros (? & [= <-] & ?)]. }
  destruct (split_xfcc_element_pairs e) as [ps|]; cbn; [|naive_solver].
  split.
  - intros H. apply bind_Some in H as (b & Hb & (pss & Hm & Hf)%IH). exists (ps :: pss). cbn. rewrite Hm. cbn.
    split; [done|]. by rewrite Happ, Hb.
  - intros (pss & (pss' & Hm & [= <-])%bind_Some & Hf). cbn [concat] in Hf. rewrite Happ in Hf.
    apply bind_Some in Hf as (b & Hb & Hf). rewrite Hb. cbn. apply IH. eauto.
Qed.

(** The text a header value presents as the client's identity. *)
Definition presented (p : ReverseProxyMtlsProvider) (value x : rstr) : Prop :=
  match rp_format p with
  | FormatPlain => x = value
  | FormatXfcc => exists elements pairss,
      parts_of 44 value elements /\ Forall2 (parts_of 59) elements pairss /\
      agreed (omap (field_value (rp_policy p)) (concat pairss)) x
  end.

Lemma parse_xfcc_exact p value id :
  parse_xfcc p value = Some id <->
  exists elements pairss x,
    parts_of 44 value elements /\ Forall2 (parts_of 59) elements pairss /\
    agreed (omap (field_value (rp_policy p)) (concat pairss)) x /\
    validate_asserted_identity_value x = Ok (ti_value id) /\ ti_source id = rp_source p.
Proof.
  unfold parse_xfcc.
  assert (HF : forall es pss, mapM split_xfcc_element_pairs es = Some pss <-> Forall2 (parts_of 59) es pss).
  { assert (Hp : forall e ps, split_xfcc_element_pairs e = Some ps <-> parts_of 59 e ps)
      by (intros; by apply split_outside_quotes_exact).
    intros es pss. rewrite mapM_Some.
    split; intros H; (eapply Forall2_impl; [exact H|]); intros; by apply Hp. }
  split.
  - intros (es & Hes%split_outside_quotes_exact & H)%bind_Some; [|done].
    apply bind_Some in H as (r & (pss & Hm%HF & Hf)%fold_elements & H).
    apply bind_Some in H as (x & -> & H). apply bind_Some in H as (y & Hy & [= <-]).
    apply fold_pairs in Hf as [[_ ?]|(z & Ha & [= ->] & _)]; [done|].
    exists es, pss, z. split_and!; try done. destruct (validate_asserted_identity_value z); cbn in Hy; by simplify_eq.
  - intros (es & pss & x & Hes & Hps & Ha & Hv & Hs).
    unfold split_xfcc_elements. rewrite (proj2 (split_outside_quotes_exact value 44 es ltac:(done)) Hes). cbn.
    rewrite (proj2 (fold_elements (rp_policy p) None es (Some x))); cbn.
    + rewrite Hv. cbn. destruct id; cbn in *. by subst.
    + exists pss. split; [by apply HF|]. apply fold_pairs. right. exists x. auto.
Qed.

Lemma header_once h name v :
  (count_header h name = 1%nat /\ first_header h name = Some v) <->
  exists n, filter (fun nv => nv.1 = to_ascii_lowercase name) (headers h) = [(n, v)].
Proof.
  unfold count_header, first_header. generalize (to_ascii_lowercase name). intros l.
  assert (Hfind : forall hs, List.find (fun nv : rstr * rstr => bool_decide (nv.1 = l)) hs =
                   head (filter (fun nv => nv.1 = l) hs)).
  { induction hs as [|[n w] hs IH]; [done|]. rewrite filter_cons. cbn [List.find fst].
    case_bool_decide; case_decide; naive_solver. }
  rewrite Hfind. destruct (filter _ _) as [|[n w] [|? ?]]; cbn; split; try naive_solver lia.
Qed.

(** A trusted header yields an identity only when nothing is ambiguous: the
    header occurs exactly once, its value splits (quotes balanced, nothing
    dropped) into elements and pairs in which every occurrence of the field
    the policy selects carries one and the same non-empty value, that value
    trims to a non-empty text of at most 8192 bytes without control
    characters, and that text, labelled with the policy's source, is the
    identity; and whenever all this holds the identity is yielded. *)
Theorem verified_identity_exact p h id :
  verified_identity p h = Some id <->
  exists n v x, filter (fun nv => nv.1 = to_ascii_lowercase (header_name p)) (headers h) = [(n, v)] /\
    presented p v x /\ clean_identity x (ti_value id) /\ ti_source id = rp_source p.
Proof.
  unfold verified_identity, presented. setoid_rewrite <- validate_asserted_identity_value_Ok.
  split.
  - case_bool_decide as Hc; [done|]. intros (v & Hv & H)%bind_Some.
    assert (Hn : count_header h (header_name p) = 1%nat) by lia.
    destruct (proj1 (header_once h (header_name p) v) (conj Hn Hv)) as [n Hf].
    destruct (rp_format p).
    + apply bind_Some in H as (y & Hy & [= <-]). exists n, v, v. cbn. split_and!; try done.
      destruct (validate_asserted_identity_value v); cbn in Hy; by simplify_eq.
    + apply parse_xfcc_exact in H as (es & pss & x & ? & ? & ? & ? & ?). exists n, v, x. eauto 10.
  - intros (n & v & x & Hf & Hp & Hv & Hs).
    destruct (proj2 (header_once h (header_name p) v) (ex_intro _ n Hf)) as [Hn Hh].
    rewrite bool_decide_eq_false_2 by (rewrite Hn; auto). rewrite Hh. cbn. destruct (rp_format p).
    + subst x. unfold parse_plain. rewrite Hv. cbn. destruct id; cbn in *. by subst.
    + destruct Hp as (es & pss & ? & ? & ?). apply parse_xfcc_exact. eauto 10.
Qed.

(** An XFCC value with a quoted subject; a second element that disagrees, or a
    stray quote hiding it, closes the door. *)
Definition sample_provider : ReverseProxyMtlsProvider :=
  {| header_name := str "X-Forwarded-Client-Cert"; rp_format := FormatXfcc; rp_policy := PolicyCnLegacy |}.

Definition sample_headers (value : rstr) : RequestHeaders :=
  parse_headers (str "POST / HTTP/1.1" ++ [13; 10] ++ str "x-forwarded-client-cert: " ++ value ++ [13; 10; 13; 10]).

Example xfcc_subject :
  (fun value => ti_value <$> verified_identity sample_provider (sample_headers (json_text value))) <$>
  ["Hash=ab;Subject='CN=agent\2C1,OU=x',By=y"%string; "Subject='CN=a',Subject='CN=b'"%string;
   "Subject='CN=a,Subject='CN=b'"%string; "Subject='OU=x'"%string]
  = [Some (str "agent,1"); None; None; None].
Proof. vm_compute. reflexivity. Qed.

(** ** Binding policies *)

(** A mapped binding admits exactly the permitted pairs. *)
Lemma mapped_check_permits permits signer identity :
  mapped_check (foldl (fun m '(s, i) => permit m s i) mapped_binding_new permits) signer identity = Ok tt <->
  exists i, identity = Some i /\ (signer, ti_value i) ∈ permits.
Proof.
  assert (Hs : forall m, (forall i, mapped_check m signer (Some i) = Ok tt <->
                 ti_value i ∈ default ∅ (allowed m !! signer))).
  { intros m i. unfold mapped_check. cbn. destruct (allowed m !! signer); cbn; [case_bool_decide|]; set_solver. }
  destruct identity as [i|]; [|split; [done|by intros (? & ? & _)]]. rewrite Hs.
  enough (Hg : forall m, ti_value i ∈ default ∅ (allowed (foldl (fun m '(s, i) => permit m s i) m permits) !! signer) <->
    ti_value i ∈ default ∅ (allowed m !! signer) \/ (signer, ti_value i) ∈ permits).
  { rewrite Hg. cbn. rewrite lookup_empty. set_solver. }
  induction permits as [|[s j] permits IH]; intros m; cbn; [set_solver|].
  rewrite IH. cbn. destruct (decide (s = signer)) as [->|Hne].
  - rewrite lookup_insert_eq. cbn. set_solver.
  - rewrite lookup_insert_ne by done. set_solver.
Qed.

(** ** LB assertions *)

Lemma framed_inj x y r s :
  Z.of_nat (length x) <= U64_MAX -> Z.of_nat (length y) <= U64_MAX ->
  framed x ++ r = framed y ++ s -> x = y /\ r = s.
Proof.
  unfold framed. intros Hx Hy E. rewrite <- !(assoc_L (++)) in E.
  apply app_inj_1 in E as [El E]; [|unfold to_be_bytes; by rewrite !length_be_bytes].
  apply to_be_bytes_unsigned_inj in El; [|unfold in_u64; lia..].
  apply app_inj_1 in E as [-> ->]; [done|lia].
Qed.

(** The fields of a Rust [LbAssertion]: proper strings of addressable length,
    an [i64]. *)
Definition lb_assertion_wf (a : LbAssertion) : Prop :=
  (str_wf (lba_key_id a) /\ str_len (lba_key_id a) <= U64_MAX) /\
  (str_wf (asserted_client_identity a) /\ str_len (asserted_client_identity a) <= U64_MAX) /\
  (str_wf (lba_request_hash a) /\ str_len (lba_request_hash a) <= U64_MAX) /\
  in_i64 (validation_time a).

(** The assertion preimage is unambiguous: two assertions with the same
    signed bytes are the same assertion, so no choice of field contents
    re-frames one assertion as another. *)
Theorem lb_signing_preimage_injective a b :
  lb_assertion_wf a -> lb_assertion_wf b -> lb_signing_preimage a = lb_signing_preimage b -> a = b.
Proof.
  intros ([? ?] & [? ?] & [? ?] & ?) ([? ?] & [? ?] & [? ?] & ?) E. unfold lb_signing_preimage in E.
  apply app_inv_head in E. cbn in E. rewrite !app_nil_r, <- !(assoc_L (++)) in E.
  apply framed_inj in E as [E1 E]; [|done..]. apply framed_inj in E as [E2 E]; [|done..].
  apply framed_inj in E as [E3 E]; [|done..]. apply to_be_bytes_signed_inj in E; [|done..].
  apply as_bytes_inj in E1, E2, E3; [|done..]. destruct a, b; cbn in *. by subst.
Qed.

Section LbTheorems.
Context `{B64 : Base64, SH : Sha2, DK : Dalek}.

(** Rotating a key replaces it and no other. *)
Lemma key_for_add_key b k key k' :
  key_for (add_key b k key) k' = if decide (k' = k) then Some key else key_for b k'.
Proof.
  unfold key_for, add_key. cbn [lb_keys]. case_decide as Hk.
  - subst k'. induction (lb_keys b) as [|e es IH]; [cbn; by rewrite bool_decide_eq_true_2|].
    rewrite filter_cons. case_decide; [|done]. cbn [app List.find]. by rewrite bool_decide_eq_false_2.
  - induction (lb_keys b) as [|e es IH]; [cbn; by rewrite bool_decide_eq_false_2 by congruence|].
    rewrite filter_cons. case_decide as He; cbn [app List.find]; [by case_bool_decide|].
    rewrite bool_decide_eq_false_2; [done|]. congruence.
Qed.

(** What the verifier establishes of an assertion it accepts. *)
Definition lb_accepts (b : LbAssertionBinding) (value hash : rstr) (now : Z) (a : LbAssertion) : Prop :=
  exists sig key digest,
    lb_parse value = Ok (a, sig) /\ key_for b (lba_key_id a) = Some key /\
    verify_ed25519_with (lb_signing_preimage a) sig key TransportBindingFailed = Ok tt /\
    parse_hash_id (lba_request_hash a) = Ok digest /\ parse_hash_id hash = Ok digest /\
    - max_age_secs b <= saturating_sub now (validation_time a) <= max_age_secs b.

Lemma lb_verify_Ok b value hash now id :
  lb_verify b value hash now = Ok id <->
  exists a, lb_accepts b value hash now a /\
    id = {| ti_value := asserted_client_identity a; ti_source := lb_source b |}.
Proof.
  unfold lb_verify, lb_accepts. split.
  - destruct (lb_parse value) as [[a sig]|] eqn:Ep; [|done].
    destruct (key_for b (lba_key_id a)) as [key|] eqn:Ek; [|done]. cbn [ok_or].
    destruct (verify_ed25519_with _ _ _ _) as [[]|] eqn:Ev; [|done]. cbn [map_err].
    destruct (parse_hash_id (lba_request_hash a)) as [d|] eqn:Ed; [|done]. cbn [map_err].
    destruct (parse_hash_id hash) as [d'|] eqn:Ed'; [|done]. cbn [map_err].
    case_bool_decide as Hd; [subst d'|done]. cbn [negb].
    destruct (_ || _) eqn:Eo; [done|]. breflect. intros [= <-]. eauto 20.
  - intros (a & (sig & key & d & -> & -> & Hv & Hd & Hh & Ha) & ->). cbn [ok_or]. rewrite Hv, Hd, Hh.
    cbn [map_err]. rewrite bool_decide_eq_true_2 by done. cbn [negb]. by zguard.
Qed.

(** C17: An ingress assertion is good for one request and a bounded time: if the
    verifier accepts one header value at [now1] for the request hash [h1] and
    at [now2] for [h2], both hashes name the same digest, the signed time
    lies within the window of each moment, and the identity yielded is the
    same; the signature was checked under the key the assertion names, over a
    preimage that no other assertion has, whatever its four fields (key id,
    identity, request hash, time) hold, so that no other request or identity is
    signed for. *)
Theorem lb_assertion_request_bound b value h1 h2 now1 now2 id1 id2 :
  0 <= max_age_secs b < I64_MAX ->
  lb_verify b value h1 now1 = Ok id1 -> lb_verify b value h2 now2 = Ok id2 ->
  id1 = id2 /\ parse_hash_id h1 = parse_hash_id h2 /\ Z.abs (now1 - now2) <= 2 * max_age_secs b /\
  exists a sig key, lb_parse value = Ok (a, sig) /\ key_for b (lba_key_id a) = Some key /\
    verify_ed25519_with (lb_signing_preimage a) sig key TransportBindingFailed = Ok tt /\
    parse_hash_id (lba_request_hash a) = parse_hash_id h1 /\ ti_value id1 = asserted_client_identity a /\
    Z.abs (now1 - validation_time a) <= max_age_secs b /\
    (lb_assertion_wf a -> forall a', lb_assertion_wf a' -> lb_signing_preimage a' = lb_signing_preimage a -> a' = a).
Proof.
  intros Hm (a & (sig & key & d & Hp & Hk & Hv & Hd & Hh & Ha) & ->)%lb_verify_Ok
    (a' & (sig' & key' & d' & Hp' & Hk' & Hv' & Hd' & Hh' & Ha') & ->)%lb_verify_Ok.
  rewrite Hp in Hp'. simplify_eq. rewrite Hd in Hd'. simplify_eq.
  unfold saturating_sub, sat_i64, I64_MIN, I64_MAX in *.
  split; [done|]. split; [congruence|]. split; [lia|]. exists a', sig', key. split_and!; try done; [congruence|lia|].
  intros Wa a2 W2. by apply lb_signing_preimage_injective.
Qed.
End LbTheorems.

Import Toy.

Definition sample_lb_key : SigningKey := {| sk_inner := true |}.

Definition sample_lb_binding : LbAssertionBinding :=
  add_key (lb_binding_new SourceUriSan) (str "lb1") (public_key sample_lb_key).

Definition sample_bound_hash : rstr := Eval vm_compute in sha256_hash_id (str "request").

(** The header value for an assertion, as an LB would send it. *)
Definition lb_header (a : LbAssertion) : rstr :=
  join_with 46 [b64url_encode (as_bytes (lba_key_id a)); b64url_encode (as_bytes (asserted_client_identity a));
    b64url_encode (as_bytes (lba_request_hash a)); b64url_encode (to_be_bytes (validation_time a));
    sign sample_lb_key (lb_signing_preimage a)].

Definition sample_lb_header : rstr := Eval vm_compute in
  lb_header {| lba_key_id := str "lb1"; asserted_client_identity := str "spiffe://a";
               lba_request_hash := sample_bound_hash; validation_time := 1704067300 |}.

Lemma lb_assertion_request_bound_witness :
  lb_verify sample_lb_binding sample_lb_header sample_bound_hash 1704067310 =
    Ok {| ti_value := str "spiffe://a"; ti_source := SourceUriSan |} /\
  Z.abs (1704067310 - 1704067320) <= 2 * max_age_secs sample_lb_binding /\
  exists a sig, lb_parse sample_lb_header = Ok (a, sig) /\ lba_request_hash a = sample_bound_hash.
Proof.
  assert (H1 : lb_verify sample_lb_binding sample_lb_header sample_bound_hash 1704067310 =
    Ok {| ti_value := str "spiffe://a"; ti_source := SourceUriSan |}) by (vm_compute; reflexivity).
  assert (H2 : lb_verify sample_lb_binding sample_lb_header sample_bound_hash 1704067320 =
    Ok {| ti_value := str "spiffe://a"; ti_source := SourceUriSan |}) by (vm_compute; reflexivity).
  assert (Hm : 0 <= max_age_secs sample_lb_binding < I64_MAX) by (vm_compute; split; congruence).
  split; [exact H1|].
  destruct (lb_assertion_request_bound _ _ _ _ _ _ _ _ Hm H1 H2) as (_ & _ & Hw & a & sig & key & Hp & _).
  split; [exact Hw|]. exists a, sig. split; [exact Hp|]. vm_compute in Hp. injection Hp as <- _. reflexivity.
Defined.
