(* ===== verification/UrlGuard.v ===== *)
(** * Where the revocation check may connect

    The server-side request forgery guard of [mcps-proxy/src/ocsp.rs]: the
    scheme and host of a responder URL, the loose [inet_aton] spellings of an
    IPv4 address, the public-address predicates and the resolver that vets
    what a host name resolves to.  An IPv4 address is its 32-bit value, an
    IPv6 address its eight segments; the address parser of the standard
    library is modelled with its backtracking. *)

From S2P Require Import Prelude Utf8 Errors Canonical Strings Time.

(** ** std::net: parsing addresses *)

(** [char::to_digit], up to base 16. *)
Definition to_digit (radix : Z) (c : rchar) : option Z :=
  let d := if in_range 48 57 c then Some (c - 48)
           else if in_range 97 102 c then Some (c - 87)
           else if in_range 65 70 c then Some (c - 55) else None in
  n ← d; if n <? radix then Some n else None.

(** A parser consumes a prefix or, failing, nothing. *)
Definition addr_parser (A : Type) : Type := rstr -> option (A * rstr).

Definition read_given_char (c : rchar) : addr_parser unit := fun s =>
  match s with x :: s' => if x =? c then Some (tt, s') else None | [] => None end.

(** The digit loop of [read_number]; more than [room] digits fail. *)
Fixpoint read_digits (radix : Z) (room : nat) (count : nat) (acc : Z) (s : rstr) {struct s} : option (nat * Z * rstr) :=
  match s with
  | c :: s' =>
      match to_digit radix c with
      | Some d =>
          match room with
          | O => None
          | S room' => read_digits radix room' (S count) (acc * radix + d) s'
          end
      | None => Some (count, acc, s)
      end
  | [] => Some (count, acc, s)
  end.

Definition read_number (radix : Z) (max_digits : nat) (allow_zero_prefix : bool) (max : Z) : addr_parser Z := fun s =>
  let has_leading_zero := bool_decide (head s = Some 48) in
  '(count, value, s') ← read_digits radix max_digits 0 0 s;
  if (count =? 0)%nat then None
  else if negb allow_zero_prefix && has_leading_zero && (1 <? count)%nat then None
  else if value <=? max then Some (value, s') else None.

Definition read_separator {A} (sep : rchar) (index : nat) (inner : addr_parser A) : addr_parser A := fun s =>
  match index with
  | O => inner s
  | S _ => '(_, s') ← read_given_char sep s; inner s'
  end.

Definition read_octet (i : nat) : addr_parser Z := read_separator 46 i (read_number 10 3 false 255).

Definition ipv4_of_octets (a b c d : Z) : Z := a * 2 ^ 24 + b * 2 ^ 16 + c * 2 ^ 8 + d.

Definition read_ipv4_addr : addr_parser Z := fun s =>
  '(a, s) ← read_octet 0 s; '(b, s) ← read_octet 1 s; '(c, s) ← read_octet 2 s; '(d, s) ← read_octet 3 s;
  Some (ipv4_of_octets a b c d, s).

Definition read_group (i : nat) : addr_parser Z := read_separator 58 i (read_number 16 4 true 0xFFFF).

(** [read_groups] from slot [i] of [limit]: the groups, whether the last two
    are an embedded IPv4 address, and the rest. *)
Fixpoint read_groups (left_ i limit : nat) (s : rstr) : list Z * bool * rstr :=
  match left_ with
  | O => ([], false, s)
  | S left_' =>
      match (if (i <? limit - 1)%nat then read_separator 58 i read_ipv4_addr s else None) with
      | Some (v4, s') => ([v4 / 2 ^ 16; v4 mod 2 ^ 16], true, s')
      | None =>
          match read_group i s with
          | Some (g, s') => let '(gs, b, s'') := read_groups left_' (S i) limit s' in (g :: gs, b, s'')
          | None => ([], false, s)
          end
      end
  end.

Definition read_ipv6_addr : addr_parser (list Z) := fun s =>
  let '(head_, head_ipv4, s1) := read_groups 8 0 8 s in
  if (length head_ =? 8)%nat then Some (head_, s1)
  else if head_ipv4 then None
  else
    '(_, s2) ← read_given_char 58 s1; '(_, s3) ← read_given_char 58 s2;
    let limit := (8 - (length head_ + 1))%nat in
    let '(tail_, _, s4) := read_groups limit 0 limit s3 in
    Some (head_ ++ replicate (8 - length head_ - length tail_) 0 ++ tail_, s4).

Inductive IpAddr : Type := V4 (v4 : Z) | V6 (segments : list Z).

(** [str::parse::<IpAddr>]: one address and nothing after it. *)
Definition parse_ip_addr (s : rstr) : option IpAddr :=
  match (match read_ipv4_addr s with
         | Some (v4, s') => Some (V4 v4, s')
         | None => '(v6, s') ← read_ipv6_addr s; Some (V6 v6, s')
         end) with
  | Some (ip, []) => Some ip
  | _ => None
  end.

(** ** Public addresses *)

Definition octet (i : Z) (v4 : Z) : Z := Z.land (Z.shiftr v4 (8 * (3 - i))) 255.

(** The predicates of [Ipv4Addr]. *)
Definition v4_is_loopback (a : Z) : bool := octet 0 a =? 127.
Definition v4_is_private (a : Z) : bool :=
  (octet 0 a =? 10) || ((octet 0 a =? 172) && in_range 16 31 (octet 1 a)) || ((octet 0 a =? 192) && (octet 1 a =? 168)).
Definition v4_is_link_local (a : Z) : bool := (octet 0 a =? 169) && (octet 1 a =? 254).
Definition v4_is_unspecified (a : Z) : bool := a =? 0.
Definition v4_is_broadcast (a : Z) : bool := a =? 0xFFFFFFFF.
Definition v4_is_multicast (a : Z) : bool := in_range 224 239 (octet 0 a).

Definition ipv4_is_public (v4 : Z) : bool :=
  negb (v4_is_loopback v4 || v4_is_private v4 || v4_is_link_local v4 || v4_is_unspecified v4 ||
        v4_is_broadcast v4 || v4_is_multicast v4).

(** [Ipv6Addr::to_ipv4]: mapped and compatible addresses. *)
Definition to_ipv4 (segs : list Z) : option Z :=
  match segs with
  | [0; 0; 0; 0; 0; x; ab; cd] => if (x =? 0) || (x =? 0xFFFF) then Some (ab * 2 ^ 16 + cd) else None
  | _ => None
  end.

Definition ipv6_is_public (segs : list Z) : bool :=
  let first := nth 0 segs 0 in
  if bool_decide (segs = [0; 0; 0; 0; 0; 0; 0; 1]) || bool_decide (segs = [0; 0; 0; 0; 0; 0; 0; 0]) ||
     (Z.land first 0xFF00 =? 0xFF00) then false
  else
    match to_ipv4 segs with
    | Some v4 => ipv4_is_public v4
    | None =>
        if Z.land first 0xFFC0 =? 0xFE80 then false
        else if Z.land first 0xFE00 =? 0xFC00 then false else true
    end.

Definition resolved_ip_is_public (ip : IpAddr) : bool :=
  match ip with V4 v4 => ipv4_is_public v4 | V6 v6 => ipv6_is_public v6 end.

(** ** Loose IPv4 spellings *)

Definition radix_value (radix : Z) (digits : rstr) : Z :=
  foldl (fun acc c => acc * radix + default 0 (to_digit radix c)) 0 digits.

Definition parse_inet_aton_part (part : rstr) : option Z :=
  let '(radix, digits) :=
    match strip_prefix (str "0x") part with
    | Some hex => (16, hex)
    | None =>
        match strip_prefix (str "0X") part with
        | Some hex => (16, hex)
        | None => if (1 <? str_len part) && starts_with [48] part then (8, drop 1 part) else (10, part)
        end
    end in
  if is_empty digits then None
  else if negb (forallb (fun b => match to_digit radix b with Some _ => true | None => false end) (as_bytes digits)) then None
  else if radix_value radix digits <=? U64_MAX then Some (radix_value radix digits) else None.

(** [collect::<Option<Vec<_>>>]. *)
Fixpoint collect_parts (parts : list rstr) : option (list Z) :=
  match parts with
  | [] => Some []
  | p :: ps => v ← parse_inet_aton_part p; vs ← collect_parts ps; Some (v :: vs)
  end.

Definition parse_inet_aton_ipv4 (host : rstr) : option Z :=
  if is_empty host then None
  else
    let parts := str_split 46 host in
    if (4 <? length parts)%nat then None
    else
      vals ← collect_parts parts;
      match vals with
      | [last_] => if last_ <=? 0xFFFFFFFF then Some last_ else None
      | [a; last_] => if (255 <? a) || (0xFFFFFF <? last_) then None else Some (Z.lor (Z.shiftl a 24) last_)
      | [a; b; last_] =>
          if (255 <? a) || (255 <? b) || (0xFFFF <? last_) then None
          else Some (Z.lor (Z.lor (Z.shiftl a 24) (Z.shiftl b 16)) last_)
      | [a; b; c; last_] =>
          if (255 <? a) || (255 <? b) || (255 <? c) || (255 <? last_) then None
          else Some (Z.lor (Z.lor (Z.lor (Z.shiftl a 24) (Z.shiftl b 16)) (Z.shiftl c 8)) last_)
      | _ => None
      end.

(** ** The guard *)

Definition responder_scheme_allowed (url : rstr) : bool :=
  match split_once 58 url with
  | Some (scheme, _) => eq_ignore_ascii_case scheme (str "http") || eq_ignore_ascii_case scheme (str "https")
  | None => false
  end.

(** [str::split_once] at a string. *)
Fixpoint split_once_str (sep s : rstr) : option (rstr * rstr) :=
  match strip_prefix sep s with
  | Some rest => Some ([], rest)
  | None =>
      match s with
      | [] => None
      | c :: s' => prod_map (cons c) id <$> split_once_str sep s'
      end
  end.

(** Up to the first character that satisfies [p]. *)
Fixpoint until (p : rchar -> bool) (s : rstr) : rstr :=
  match s with c :: s' => if p c then [] else c :: until p s' | [] => [] end.

(** [str::rsplit_once] at a char. *)
Definition rsplit_once (sep : rchar) (s : rstr) : option (rstr * rstr) :=
  '(after, before) ← split_once sep (reverse s); Some (reverse before, reverse after).

Definition extract_url_host (url : rstr) : option rstr :=
  '(_, after_scheme) ← split_once_str (str "://") url;
  let authority := until (fun c => (c =? 47) || (c =? 63) || (c =? 35)) after_scheme in
  let hostport := match rsplit_once 64 authority with Some (_, hp) => hp | None => authority end in
  if is_empty hostport then None
  else
    match strip_prefix [91] hostport with
    | Some rest => '(host, _) ← split_once 93 rest; Some host
    | None => let host := until (fun c => c =? 58) hostport in if is_empty host then None else Some host
    end.

Definition host_is_public (host : rstr) : bool :=
  if is_empty host || existsb is_empty (str_split 46 host) then false
  else if eq_ignore_ascii_case host (str "localhost") then false
  else
    match parse_ip_addr host with
    | Some (V4 v4) => ipv4_is_public v4
    | Some (V6 v6) => ipv6_is_public v6
    | None =>
        match parse_inet_aton_ipv4 host with
        | Some v4 => ipv4_is_public v4
        | None => true
        end
    end.

Definition aia_responder_url_is_safe (url : rstr) : bool :=
  if negb (responder_scheme_allowed url) then false
  else match extract_url_host url with Some host => host_is_public host | None => false end.

(** [BaseResolver]: the operating system's resolution of a host and port; the
    error carries no more than that it failed. *)
Class BaseResolver := base_resolve : rstr -> option (list (IpAddr * Z)).

Definition resolve_vetted `{BaseResolver} (netloc : rstr) : option (list (IpAddr * Z)) :=
  addrs ← base_resolve netloc;
  if is_empty addrs then None
  else if existsb (fun sa => negb (resolved_ip_is_public sa.1)) addrs then None
  else Some addrs.

(** ** The responder guard lets no internal address through

    Every spelling of an IPv4 address that [inet_aton] understands is
    recognised, so a URL that passes the guard names no loopback, private,
    link-local or otherwise internal address, and the vetted resolver connects
    to none. *)

(** ** The specification: numbers, spellings and ranges *)

Definition digits_in (radix : Z) (ds : rstr) : Prop := Forall (fun c => is_Some (to_digit radix c)) ds.

(** The spellings of a number: decimal, octal after a zero, hexadecimal. *)
Inductive spells : rstr -> Z -> Prop :=
| spells_dec ds : ds <> [] -> digits_in 10 ds -> (head ds <> Some 48 \/ length ds = 1%nat) -> spells ds (radix_value 10 ds)
| spells_oct ds : ds <> [] -> digits_in 8 ds -> spells (48 :: ds) (radix_value 8 ds)
| spells_hex x ds : x = 120 \/ x = 88 -> ds <> [] -> digits_in 16 ds -> spells (48 :: x :: ds) (radix_value 16 ds).

(** One to four numbers, the last of which fills the remaining bytes. *)
Inductive inet_address : list Z -> Z -> Prop :=
| inet1 l : 0 <= l < 2 ^ 32 -> inet_address [l] l
| inet2 a l : 0 <= a < 256 -> 0 <= l < 2 ^ 24 -> inet_address [a; l] (a * 2 ^ 24 + l)
| inet3 a b l : 0 <= a < 256 -> 0 <= b < 256 -> 0 <= l < 2 ^ 16 -> inet_address [a; b; l] (a * 2 ^ 24 + b * 2 ^ 16 + l)
| inet4 a b c l : 0 <= a < 256 -> 0 <= b < 256 -> 0 <= c < 256 -> 0 <= l < 256 ->
    inet_address [a; b; c; l] (a * 2 ^ 24 + b * 2 ^ 16 + c * 2 ^ 8 + l).

(** The address block [a.b.0.0] of the given number of addresses. *)
Definition in_block (a b size : Z) (addr : Z) : Prop :=
  a * 2 ^ 24 + b * 2 ^ 16 <= addr < a * 2 ^ 24 + b * 2 ^ 16 + size.

Definition internal4 (a : Z) : Prop :=
  in_block 127 0 (2 ^ 24) a \/ in_block 10 0 (2 ^ 24) a \/ in_block 172 16 (2 ^ 20) a \/ in_block 192 168 (2 ^ 16) a \/
  in_block 169 254 (2 ^ 16) a \/ a = 0 \/ a = 2 ^ 32 - 1 \/ in_block 224 0 (2 ^ 28) a.

Lemma octet_div i a : 0 <= i <= 3 -> 0 <= a -> octet i a = a / 2 ^ (8 * (3 - i)) mod 256.
Proof. intros Hi Ha. unfold octet. rewrite Z.shiftr_div_pow2 by lia. change 255 with (Z.ones 8). by rewrite Z.land_ones by lia. Qed.

(** The predicate is the complement of the internal blocks. *)
Lemma ipv4_is_public_spec a : 0 <= a < 2 ^ 32 -> (ipv4_is_public a = true <-> ~ internal4 a).
Proof.
  intros Ha. unfold ipv4_is_public, v4_is_loopback, v4_is_private, v4_is_link_local, v4_is_unspecified, v4_is_broadcast,
    v4_is_multicast, in_range. rewrite !octet_div by lia. unfold internal4, in_block.
  change (2 ^ (8 * (3 - 0))) with (2 ^ 24). change (2 ^ (8 * (3 - 1))) with (2 ^ 16).
  assert (H0 : a / 2 ^ 24 mod 256 = a / 2 ^ 24) by (apply Z.mod_small; split; [apply Z.div_pos; lia|apply Z.div_lt_upper_bound; lia]).
  rewrite H0. set (x := a / 2 ^ 24). set (y := a / 2 ^ 16 mod 256).
  assert (Hx : a = x * 2 ^ 24 + y * 2 ^ 16 + a mod 2 ^ 16).
  { unfold x, y. pose proof (Z.div_mod a (2 ^ 16)). pose proof (Z.div_mod (a / 2 ^ 16) 256).
    rewrite Z.div_div in * by lia. change (2 ^ 16 * 256) with (2 ^ 24) in *. lia. }
  assert (Hy : 0 <= y < 256) by (apply Z.mod_pos_bound; lia). pose proof (Z.mod_pos_bound a (2 ^ 16)).
  rewrite negb_true_iff. rewrite <- not_true_iff_false.
  rewrite !orb_true_iff, !andb_true_iff, !Z.eqb_eq, !Z.leb_le. lia.
Qed.

(** *** IPv6 *)

(** The eight groups of an address, and the number they write. *)
Definition segments_wf (segs : list Z) : Prop := length segs = 8%nat /\ Forall (fun g => 0 <= g < 2 ^ 16) segs.

Definition ipv6_number (segs : list Z) : Z := foldl (fun n g => n * 2 ^ 16 + g) 0 segs.

Definition in_block6 (first size : Z) (n : Z) : Prop := first * 2 ^ 112 <= n < (first + size) * 2 ^ 112.

(** The internal addresses: [::] and [::1], [fe80::/10], [fc00::/7], [ff00::/8],
    and the internal IPv4 addresses, mapped ([::ffff:a.b.c.d]) or compatible
    ([::a.b.c.d]). *)
Definition internal6 (n : Z) : Prop :=
  n = 0 \/ n = 1 \/ in_block6 0xFE80 0x40 n \/ in_block6 0xFC00 0x200 n \/ in_block6 0xFF00 0x100 n \/
  exists a, 0 <= a < 2 ^ 32 /\ internal4 a /\ (n = a \/ n = 0xFFFF * 2 ^ 32 + a).

(** A mask of the high bits of a group rounds it down. *)
Lemma group_mask g k : 0 <= g < 2 ^ 16 -> 0 <= k -> Z.land g (Z.ldiff (Z.ones 16) (Z.ones k)) = g / 2 ^ k * 2 ^ k.
Proof.
  intros Hg Hk. assert (E : Z.land g (Z.ldiff (Z.ones 16) (Z.ones k)) = Z.ldiff (Z.land g (Z.ones 16)) (Z.ones k)).
  { apply Z.bits_inj'. intros n Hn. rewrite Z.land_spec, !Z.ldiff_spec, Z.land_spec. by destruct (Z.testbit g n). }
  rewrite E, Z.land_ones, Z.mod_small by lia. by rewrite Z.ldiff_ones_r, Z.shiftl_mul_pow2, Z.shiftr_div_pow2 by lia.
Qed.

Lemma group_masks g : 0 <= g < 2 ^ 16 ->
  (Z.land g 0xFF00 =? 0xFF00) = (0xFF00 <=? g) /\
  (Z.land g 0xFFC0 =? 0xFE80) = ((0xFE80 <=? g) && (g <? 0xFEC0)) /\
  (Z.land g 0xFE00 =? 0xFC00) = ((0xFC00 <=? g) && (g <? 0xFE00)).
Proof.
  intros Hg. pose proof (group_mask g 8 Hg ltac:(lia)) as M8. pose proof (group_mask g 6 Hg ltac:(lia)) as M6.
  pose proof (group_mask g 9 Hg ltac:(lia)) as M9. change (Z.ldiff (Z.ones 16) (Z.ones 8)) with 0xFF00 in M8.
  change (Z.ldiff (Z.ones 16) (Z.ones 6)) with 0xFFC0 in M6. change (Z.ldiff (Z.ones 16) (Z.ones 9)) with 0xFE00 in M9.
  rewrite M8, M6, M9. change (2 ^ 8) with 256. change (2 ^ 6) with 64. change (2 ^ 9) with 512.
  split_and!; apply eq_iff_eq_true; rewrite ?andb_true_iff, ?Z.eqb_eq, ?Z.leb_le, ?Z.ltb_lt; Z.to_euclidean_division_equations; lia.
Qed.

Lemma ipv6_is_public_spec segs : segments_wf segs -> (ipv6_is_public segs = true <-> ~ internal6 (ipv6_number segs)).
Proof.
  intros [Hl Hs]. do 8 (destruct segs as [|? segs]; [done|]). destruct segs; [|done]. rewrite !Forall_cons in Hs.
  destruct Hs as (H0 & H1 & H2 & H3 & H4 & H5 & H6 & H7 & _). unfold ipv6_is_public. cbn [nth].
  destruct (group_masks _ H0) as (-> & -> & ->). set (n := ipv6_number _). unfold ipv6_number in n. cbn [foldl] in n.
  case_bool_decide as E1; [simplify_eq; split; [done|]; intros Hn; destruct Hn; right; by left|].
  case_bool_decide as E2; [simplify_eq; split; [done|]; intros Hn; destruct Hn; by left|]. cbn [orb].
  assert (Hn0 : n <> 0) by (intros ?; apply E2; repeat f_equal; lia).
  assert (Hn1 : n <> 1) by (intros ?; apply E1; repeat f_equal; lia).
  unfold internal6, in_block6. destruct (Z.leb_spec 0xFF00 z) as [Hf|Hf].
  { split; [done|]. intros Hx. destruct Hx. do 4 right. left. lia. }
  destruct (to_ipv4 _) as [v4|] eqn:E4.
  - assert (Hv : 0 <= v4 < 2 ^ 32 /\ (n = v4 \/ n = 0xFFFF * 2 ^ 32 + v4)).
    { revert E4. unfold to_ipv4. repeat case_match; try done; subst. intros [= <-].
      match goal with He : (_ =? 0) || _ = true |- _ => apply orb_true_iff in He as [He|He]; apply Z.eqb_eq in He; subst; lia end. }
    rewrite ipv4_is_public_spec by tauto. split.
    + intros Hp [?|[?|[?|[?|[?|(a & Ha & Hi & Hna)]]]]]; try done; try lia. apply Hp. replace v4 with a by lia. done.
    + intros Hx Hi. apply Hx. do 5 right. exists v4. destruct Hv as [Hv Hn]. split; [exact Hv|]. split; [exact Hi|exact Hn].
  - assert (Hno : ~ exists a, 0 <= a < 2 ^ 32 /\ internal4 a /\ (n = a \/ n = 0xFFFF * 2 ^ 32 + a)).
    { intros (a & Ha & _ & Hna). assert (Hz : z = 0 /\ z0 = 0 /\ z1 = 0 /\ z2 = 0 /\ z3 = 0 /\ (z4 = 0 \/ z4 = 0xFFFF)) by lia.
      destruct Hz as (-> & -> & -> & -> & -> & [-> | ->]); done. }
    destruct (Z.leb_spec 0xFE80 z), (Z.ltb_spec z 0xFEC0); cbn [andb];
      try (split; [done|intros Hx; destruct Hx; do 2 right; left; lia]);
      destruct (Z.leb_spec 0xFC00 z), (Z.ltb_spec z 0xFE00); cbn [andb];
      try (split; [done|intros Hx; destruct Hx; do 3 right; left; lia]);
      (split; [|done]); intros _ [?|[?|[?|[?|[?|?]]]]]; try done; lia.
Qed.

(** ** Spellings are read *)

Lemma to_digit_range radix c d : to_digit radix c = Some d -> 48 <= c <= 102 /\ 0 <= d < radix.
Proof.
  unfold to_digit, in_range. intros H. repeat case_match; simplify_eq; cbn in H; repeat case_match; simplify_eq; breflect; lia.
Qed.

Lemma digits_ascii radix ds : digits_in radix ds -> Forall (fun c => 0 <= c < 128) ds.
Proof. intros H. eapply Forall_impl; [exact H|]. intros c [d Hd]. apply to_digit_range in Hd. lia. Qed.

Lemma digits_check radix ds :
  digits_in radix ds -> forallb (fun b => match to_digit radix b with Some _ => true | None => false end) (as_bytes ds) = true.
Proof.
  intros H. rewrite as_bytes_ascii by (by eapply digits_ascii). apply forallb_Forall_true.
  eapply Forall_impl; [exact H|]. by intros c [d ->].
Qed.

Lemma spells_chars p v : spells p v -> p <> [] /\ (46 ∉ p) /\ (58 ∉ p).
Proof.
  assert (G : forall r ds, digits_in r ds -> (46 ∉ ds) /\ (58 ∉ ds)).
  { intros r ds H. split; intros Hin; eapply (Forall_forall _ ds) in H as [d Hd]; [|exact Hin| |exact Hin]; cbn in Hd;
      unfold to_digit in Hd; cbn in Hd; done. }
  destruct 1 as [ds Hne Hd _|ds Hne Hd|x ds Hx Hne Hd]; destruct (G _ _ Hd); split_and!; try done;
    rewrite ?not_elem_of_cons; split_and!; try done; destruct Hx; subst; done.
Qed.

Lemma strip_hex_None radix ds :
  digits_in radix ds -> strip_prefix (str "0x") ds = None /\ strip_prefix (str "0X") ds = None.
Proof.
  intros H. split; (destruct (strip_prefix _ ds) as [t|] eqn:E; [|done]); apply strip_prefix_Some in E; subst ds;
    exfalso; apply Forall_app in H as [H _]; apply Forall_cons in H as [_ H]; apply Forall_cons in H as [[d Hd] _];
    unfold to_digit in Hd; cbn in Hd; done.
Qed.

Lemma radix_value_nonneg radix ds : 0 < radix -> digits_in radix ds -> 0 <= radix_value radix ds.
Proof.
  intros Hr. unfold radix_value. assert (G : forall acc, 0 <= acc -> digits_in radix ds ->
    0 <= foldl (fun acc c => acc * radix + default 0 (to_digit radix c)) acc ds); [|by apply G].
  induction ds as [|c ds IH]; intros acc Ha Hd; cbn; [done|]. apply Forall_cons in Hd as [[d Hc] Hd].
  rewrite Hc. cbn. apply to_digit_range in Hc. apply IH; [nia|done].
Qed.

(** Every spelling is read as its number. *)
Lemma parse_part_spells p v : spells p v -> v <= U64_MAX -> parse_inet_aton_part p = Some v.
Proof.
  intros H Hv. unfold parse_inet_aton_part. destruct H as [ds Hne Hd Hz|ds Hne Hd|x ds Hx Hne Hd].
  - destruct (strip_hex_None 10 ds Hd) as [-> ->].
    assert (E : (1 <? str_len ds) && starts_with [48] ds = false).
    { unfold str_len. rewrite as_bytes_ascii by (by eapply digits_ascii). destruct ds as [|c [|c' ds]]; [done|done|].
      destruct Hz as [Hz|Hz]; [|done]. apply andb_false_iff. right. unfold starts_with. cbn [strip_prefix].
      rewrite (proj2 (Z.eqb_neq 48 c)); [done|]. by intros <-. }
    rewrite E, digits_check by done. cbn [negb]. destruct ds; [done|]. cbn [is_empty]. by rewrite (proj2 (Z.leb_le _ _)).
  - assert (E : strip_prefix (str "0x") (48 :: ds) = None /\ strip_prefix (str "0X") (48 :: ds) = None).
    { destruct ds as [|c ds]; [done|]. apply Forall_cons in Hd as [[d Hd] _]. unfold to_digit in Hd.
      split; cbn; destruct c as [|c|c]; try done; repeat (destruct c as [c|c|]; try done). }
    destruct E as [-> ->].
    assert (E : (1 <? str_len (48 :: ds)) && starts_with [48] (48 :: ds) = true).
    { unfold str_len. rewrite as_bytes_ascii by (constructor; [lia|by eapply digits_ascii]).
      apply andb_true_iff. split; [|done]. apply Z.ltb_lt. destruct ds; [done|cbn; lia]. }
    rewrite E. cbn [drop]. rewrite digits_check by done. cbn [negb]. destruct ds; [done|]. cbn [is_empty]. by rewrite (proj2 (Z.leb_le _ _)).
  - assert (E : (strip_prefix (str "0x") (48 :: x :: ds) = Some ds) \/
      (strip_prefix (str "0x") (48 :: x :: ds) = None /\ strip_prefix (str "0X") (48 :: x :: ds) = Some ds)) by (by destruct Hx; subst; [left|right]).
    destruct E as [->|[-> ->]]; rewrite digits_check by done; cbn [negb]; (destruct ds; [done|]); cbn [is_empty]; by rewrite (proj2 (Z.leb_le _ _)).
Qed.

Lemma split_on_join sep part ps p :
  sep ∉ p -> Forall (fun q => sep ∉ q) ps ->
  split_on sep part (join_with sep (p :: ps)) = (part ++ p) :: match ps with [] => [] | q :: qs => split_on sep [] (join_with sep (q :: qs)) end.
Proof.
  intros Hp Hps. revert part. induction p as [|c p IH]; intros part.
  - destruct ps as [|q qs]; cbn [join_with app split_on]; rewrite app_nil_r; [done|]. by rewrite Z.eqb_refl.
  - apply not_elem_of_cons in Hp as [Hc Hp]. specialize (IH Hp (part ++ [c])).
    destruct ps as [|q qs]; cbn [join_with app split_on] in *; rewrite (proj2 (Z.eqb_neq c sep)) by done; rewrite IH; by rewrite <- app_assoc.
Qed.

Lemma str_split_join sep parts :
  parts <> [] -> Forall (fun q => sep ∉ q) parts -> str_split sep (join_with sep parts) = parts.
Proof.
  unfold str_split. induction parts as [|p ps IH]; [done|]. intros _ [Hp Hps]%Forall_cons. rewrite split_on_join by done.
  destruct ps as [|q qs]; [done|]. by rewrite IH.
Qed.

Lemma collect_parts_spells parts vals :
  Forall2 spells parts vals -> Forall (fun v => v <= U64_MAX) vals -> collect_parts parts = Some vals.
Proof.
  induction 1 as [|p v ps vs Hp _ IH]; cbn; [done|]. intros [Hv Hvs]%Forall_cons. rewrite (parse_part_spells _ _ Hp Hv). cbn.
  by rewrite IH.
Qed.

Lemma lor_add_small a b k : 0 <= k -> 0 <= b < 2 ^ k -> Z.lor (Z.shiftl a k) b = a * 2 ^ k + b.
Proof.
  intros Hk Hb. rewrite <- Z.shiftl_mul_pow2 by done. rewrite <- Z.add_lor_land.
  assert (E : Z.land (Z.shiftl a k) b = 0); [|lia]. apply Z.bits_inj'. intros n Hn. rewrite Z.land_spec, Z.bits_0.
  destruct (Z.lt_ge_cases n k) as [Hlt|Hge]; [by rewrite Z.shiftl_spec_low|].
  assert (E : Z.testbit b n = false); [|by rewrite E, andb_false_r]. rewrite <- (Z.mod_small b (2 ^ k)) by done.
  by apply Z.mod_pow2_bits_high.
Qed.

Lemma lor_low x y b k : 0 <= k -> x = y * 2 ^ k -> 0 <= b < 2 ^ k -> Z.lor x b = x + b.
Proof. intros Hk -> Hb. rewrite <- Z.shiftl_mul_pow2 by done. rewrite lor_add_small by done. by rewrite Z.shiftl_mul_pow2. Qed.

(** The shifts of the code are the sums of the specification. *)
Lemma parse_inet_address parts vals a :
  parts <> [] -> Forall2 spells parts vals -> inet_address vals a -> parse_inet_aton_ipv4 (join_with 46 parts) = Some a.
Proof.
  intros Hne Hs Ha.
  assert (Hc : Forall (fun q => 46 ∉ q) parts) by (clear -Hs; induction Hs as [|p v ? ? Hp]; constructor; [by eapply spells_chars|done]).
  assert (Hu : Forall (fun v => v <= U64_MAX) vals) by (unfold U64_MAX; destruct Ha; repeat constructor; lia).
  unfold parse_inet_aton_ipv4. assert (En : is_empty (join_with 46 parts) = false).
  { destruct Hs as [|p v ps vs Hp _]; [done|]. apply spells_chars in Hp as (Hp & _). destruct p; [done|]. by destruct ps. }
  rewrite En, str_split_join by done. pose proof (Forall2_length _ _ _ Hs) as Hl.
  rewrite (collect_parts_spells _ _ Hs Hu). destruct (Nat.ltb_spec 4 (length parts)) as [Hgt|_]; [destruct Ha; cbn in Hl; lia|].
  cbn [mbind option_bind]. destruct Ha; zguard; cbn [orb]; f_equal; try done.
  - by apply lor_add_small; lia.
  - rewrite !Z.shiftl_mul_pow2 by lia. rewrite (lor_low (a * 2 ^ 24) a _ 24) by lia.
    by rewrite (lor_low _ (a * 256 + b) _ 16) by lia.
  - rewrite !Z.shiftl_mul_pow2 by lia. rewrite (lor_low (a * 2 ^ 24) a _ 24) by lia.
    rewrite (lor_low (a * 2 ^ 24 + b * 2 ^ 16) (a * 256 + b) _ 16) by lia.
    by rewrite (lor_low (a * 2 ^ 24 + b * 2 ^ 16 + c * 2 ^ 8) (a * 65536 + b * 256 + c) _ 8) by lia.
Qed.

(** ** Strict addresses are loose spellings *)

Lemma read_digits_spec radix room count acc s n v s' :
  read_digits radix room count acc s = Some (n, v, s') ->
  exists ds, s = ds ++ s' /\ digits_in radix ds /\ n = (count + length ds)%nat /\
    v = foldl (fun acc c => acc * radix + default 0 (to_digit radix c)) acc ds.
Proof.
  revert room count acc. induction s as [|c s IH]; intros room count acc; cbn.
  - intros E; simplify_eq. exists []. split_and!; [done|constructor|cbn; lia|done].
  - destruct (to_digit radix c) as [d|] eqn:Ed.
    + destruct room as [|room]; [done|]. intros (ds & -> & Hd & -> & ->)%IH. exists (c :: ds).
      split_and!; [done|constructor; eauto|cbn; lia|]. cbn. by rewrite Ed.
    + intros E; simplify_eq. exists []. split_and!; [done|constructor|cbn; lia|done].
Qed.

Lemma read_octet_spec i s v s' :
  read_octet i s = Some (v, s') ->
  exists ds, s = (match i with O => [] | S _ => [46] end) ++ ds ++ s' /\ spells ds v /\ v = radix_value 10 ds /\ 0 <= v < 256.
Proof.
  unfold read_octet, read_separator. intros H.
  assert (G : forall t, read_number 10 3 false 255 t = Some (v, s') -> exists ds, t = ds ++ s' /\ spells ds v /\ v = radix_value 10 ds /\ 0 <= v < 256).
  { intros t Ht. unfold read_number in Ht. destruct (read_digits _ _ _ _ t) as [[[n w] u]|] eqn:E; [|done]. cbn [mbind option_bind] in Ht.
    apply read_digits_spec in E as (ds & -> & Hd & -> & ->). cbn [Nat.add] in Ht.
    destruct (Nat.eqb_spec (length ds) 0) as [|Hne]; [done|].
    destruct (negb false && _ && _) eqn:Ez; [done|]. destruct (_ <=? _) eqn:El; [|done]. simplify_eq. breflect.
    exists ds. split; [done|]. assert (ds <> []) by (by destruct ds). fold (radix_value 10 ds) in *. split_and!; [|done|by apply radix_value_nonneg|lia].
    constructor; [done..|]. cbn [negb andb] in Ez. apply andb_false_iff in Ez as [Ez|Ez]; [left|right].
    - apply bool_decide_eq_false in Ez. by destruct ds.
    - apply Nat.ltb_ge in Ez. lia. }
  destruct i as [|i]; [by apply G|]. unfold read_given_char in H. destruct s as [|x t]; [done|].
  destruct (Z.eqb_spec x 46) as [->|]; [|done]. cbn [mbind option_bind] in H. destruct (G t H) as (ds & -> & ?). by exists ds.
Qed.

Lemma strict_is_loose host v4 :
  read_ipv4_addr host = Some (v4, []) -> parse_inet_aton_ipv4 host = Some v4 /\ 0 <= v4 < 2 ^ 32.
Proof.
  unfold read_ipv4_addr. intros H.
  destruct (read_octet 0 host) as [[a s1]|] eqn:E1; [|done]. cbn [mbind option_bind] in H.
  destruct (read_octet 1 s1) as [[b s2]|] eqn:E2; [|done]. cbn [mbind option_bind] in H.
  destruct (read_octet 2 s2) as [[c s3]|] eqn:E3; [|done]. cbn [mbind option_bind] in H.
  destruct (read_octet 3 s3) as [[d s4]|] eqn:E4; [|done]. cbn [mbind option_bind] in H. simplify_eq.
  apply read_octet_spec in E1 as (d1 & -> & S1 & _ & R1), E2 as (d2 & -> & S2 & _ & R2), E3 as (d3 & -> & S3 & _ & R3),
    E4 as (d4 & -> & S4 & _ & R4). split; [|unfold ipv4_of_octets; lia].
  replace ([] ++ d1 ++ [46] ++ d2 ++ [46] ++ d3 ++ [46] ++ d4 ++ []) with (join_with 46 [d1; d2; d3; d4])
    by (cbn; by rewrite app_nil_r).
  apply (parse_inet_address _ [a; b; c; d]); [done|by repeat constructor|]. by constructor.
Qed.

(** An IPv6 literal has a colon, which no IPv4 spelling has. *)
Lemma read_group_suffix i s g s' :
  read_group i s = Some (g, s') -> (exists pre, s = pre ++ s') /\ (i <> 0%nat -> 58 ∈ s).
Proof.
  unfold read_group, read_separator. intros H.
  assert (G : forall t, read_number 16 4 true 0xFFFF t = Some (g, s') -> exists pre, t = pre ++ s').
  { intros t. unfold read_number. destruct (read_digits _ _ _ _ t) as [[[n w] u]|] eqn:E; [|done]. cbn [mbind option_bind].
    apply read_digits_spec in E as (ds & -> & _). intros Ht. destruct (_ =? _)%nat; [done|]. destruct (_ && _); [done|]. destruct (_ <=? _); [|done]. simplify_eq. eauto. }
  destruct i as [|i]; [split; [by apply G|done]|]. unfold read_given_char in H. destruct s as [|x t]; [done|].
  destruct (Z.eqb_spec x 58) as [->|]; [|done]. cbn in H. destruct (G t H) as [pre ->]. split; [by exists (58 :: pre)|by left].
Qed.

Lemma read_groups_colon left_ i limit s gs b s' :
  read_groups left_ (S i) limit s = (gs, b, s') -> gs <> [] -> 58 ∈ s.
Proof.
  destruct left_ as [|l]; cbn [read_groups]; [intros [= <- _ _]; done|].
  destruct (if (_ <? _)%nat then _ else _) as [[v4 t]|] eqn:E4.
  { intros _ _. destruct (_ <? _)%nat; [|done]. unfold read_separator, read_given_char in E4. destruct s as [|x s]; [done|].
    destruct (Z.eqb_spec x 58) as [->|]; [by left|done]. }
  destruct (read_group (S i) s) as [[g t]|] eqn:Eg; [|by intros [= <- _ _]].
  intros _ _. by apply (read_group_suffix _ _ _ _ Eg).
Qed.

Lemma read_ipv4_suffix s v s' : read_ipv4_addr s = Some (v, s') -> exists pre, s = pre ++ s'.
Proof.
  unfold read_ipv4_addr. intros H.
  destruct (read_octet 0 s) as [[a s1]|] eqn:E1; [|done]. cbn [mbind option_bind] in H.
  destruct (read_octet 1 s1) as [[b s2]|] eqn:E2; [|done]. cbn [mbind option_bind] in H.
  destruct (read_octet 2 s2) as [[c s3]|] eqn:E3; [|done]. cbn [mbind option_bind] in H.
  destruct (read_octet 3 s3) as [[d s4]|] eqn:E4; [|done]. cbn [mbind option_bind] in H. simplify_eq.
  apply read_octet_spec in E1 as (d1 & -> & _), E2 as (d2 & -> & _), E3 as (d3 & -> & _), E4 as (d4 & -> & _).
  exists (d1 ++ [46] ++ d2 ++ [46] ++ d3 ++ [46] ++ d4). by rewrite <- !app_assoc.
Qed.

Lemma read_groups_suffix left_ i limit s gs b s' : read_groups left_ i limit s = (gs, b, s') -> exists pre, s = pre ++ s'.
Proof.
  revert i s gs b. induction left_ as [|l IH]; intros i s gs b; cbn [read_groups]; [intros [= _ _ ->]; by exists []|].
  destruct (if (_ <? _)%nat then _ else _) as [[v4 t]|] eqn:E4.
  { intros [= _ _ ->]. destruct (_ <? _)%nat; [|done]. unfold read_separator, read_given_char in E4. destruct i as [|i].
    - by eapply read_ipv4_suffix.
    - destruct s as [|x s]; [done|]. destruct (x =? 58); [|done]. cbn in E4. apply read_ipv4_suffix in E4 as [pre ->]. by exists (x :: pre). }
  destruct (read_group i s) as [[g t]|] eqn:Eg; [|intros [= _ _ ->]; by exists []].
  destruct (read_groups l (S i) limit t) as [[gs' b'] u] eqn:Er. intros [= _ _ ->].
  apply IH in Er as [pre ->]. apply read_group_suffix in Eg as [[pre' ->] _]. exists (pre' ++ pre). by rewrite <- app_assoc.
Qed.

(** More than two groups are separated by a colon. *)
Lemma read_groups_many left_ limit s gs b s' : read_groups left_ 0 limit s = (gs, b, s') -> (2 < length gs)%nat -> 58 ∈ s.
Proof.
  destruct left_ as [|l]; cbn [read_groups]; [intros [= <- _ _]; cbn; lia|].
  destruct (if (_ <? _)%nat then _ else _) as [[v4 t]|]; [intros [= <- _ _]; cbn; lia|].
  destruct (read_group 0 s) as [[g t]|] eqn:Eg; [|intros [= <- _ _]; cbn; lia].
  destruct (read_groups l 1 limit t) as [[gs' b'] u] eqn:Er. intros [= <- _ _] Hl. apply read_groups_colon in Er; [|by intros ->; cbn in Hl; lia].
  apply read_group_suffix in Eg as [[pre ->] _]. apply elem_of_app. by right.
Qed.

Lemma ipv6_has_colon s v6 s' : read_ipv6_addr s = Some (v6, s') -> 58 ∈ s.
Proof.
  unfold read_ipv6_addr. destruct (read_groups 8 0 8 s) as [[gs b] s1] eqn:Er.
  destruct (Nat.eqb_spec (length gs) 8) as [Hl|]; [intros _; eapply read_groups_many; [exact Er|lia]|].
  destruct b; [done|]. apply read_groups_suffix in Er as [pre ->].
  destruct (read_given_char 58 s1) as [[u s2]|] eqn:E1; [|done]. intros _. apply elem_of_app. right.
  unfold read_given_char in E1. destruct s1 as [|x t]; [done|]. destruct (Z.eqb_spec x 58) as [->|]; [by left|done].
Qed.

(** What is read as an IPv6 address has eight groups of sixteen bits. *)
Lemma read_digits_nonneg radix k cnt acc s n v s' :
  read_digits radix k cnt acc s = Some (n, v, s') -> 0 <= radix -> 0 <= acc -> 0 <= v.
Proof.
  revert k cnt acc. induction s as [|c s IH]; intros k cnt acc; cbn [read_digits]; [by intros [= _ <- _]|].
  destruct (to_digit radix c) as [d|] eqn:Ed; [|by intros [= _ <- _]]. destruct k as [|k]; [done|]. apply to_digit_range in Ed.
  intros E Hr Ha. apply IH in E; [done..|]. nia.
Qed.

Lemma read_number_range radix k z max s v s' : 0 <= radix -> read_number radix k z max s = Some (v, s') -> 0 <= v <= max.
Proof.
  intros Hr. unfold read_number. destruct (read_digits _ _ _ _ s) as [[[n w] u]|] eqn:E; [|done]. cbn [mbind option_bind].
  destruct (_ =? _)%nat; [done|]. destruct (_ && _); [done|]. destruct (Z.leb_spec w max); [|done]. intros [= <- <-]. split; [|done].
  by apply read_digits_nonneg in E.
Qed.

Lemma read_octet_range i s v s' : read_octet i s = Some (v, s') -> 0 <= v <= 255.
Proof.
  unfold read_octet, read_separator. destruct i; [by apply read_number_range|].
  destruct (read_given_char 46 s) as [[u t]|]; [|done]. cbn [mbind option_bind]. by apply read_number_range.
Qed.

Lemma read_ipv4_range s v s' : read_ipv4_addr s = Some (v, s') -> 0 <= v < 2 ^ 32.
Proof.
  unfold read_ipv4_addr. intros H.
  destruct (read_octet 0 s) as [[a s1]|] eqn:E1; [|done]. cbn [mbind option_bind] in H.
  destruct (read_octet 1 s1) as [[b s2]|] eqn:E2; [|done]. cbn [mbind option_bind] in H.
  destruct (read_octet 2 s2) as [[c s3]|] eqn:E3; [|done]. cbn [mbind option_bind] in H.
  destruct (read_octet 3 s3) as [[d s4]|] eqn:E4; [|done]. cbn [mbind option_bind] in H. simplify_eq.
  apply read_octet_range in E1, E2, E3, E4. unfold ipv4_of_octets. lia.
Qed.

Lemma read_groups_range n i limit s gs b s' :
  (n + i = limit)%nat -> read_groups n i limit s = (gs, b, s') -> (length gs <= n)%nat /\ Forall (fun g => 0 <= g < 2 ^ 16) gs.
Proof.
  revert i s gs b s'. induction n as [|n IH]; intros i s gs b s' Hl; cbn [read_groups]; [intros [= <- _ _]; split; [cbn; lia|constructor]|].
  destruct (if (i <? limit - 1)%nat then _ else _) as [[v4 t]|] eqn:E4.
  { intros [= <- _ _]. destruct (Nat.ltb_spec i (limit - 1)) as [Hi|]; [|done]. assert (Hv : 0 <= v4 < 2 ^ 32).
    { unfold read_separator in E4. destruct i; [by eapply read_ipv4_range|].
      destruct (read_given_char 58 s) as [[u r]|]; [|done]. cbn [mbind option_bind] in E4. by eapply read_ipv4_range. }
    split; [cbn; lia|]. repeat constructor; try (apply Z.mod_pos_bound; lia); [apply Z.div_pos; lia|apply Z.div_lt_upper_bound; lia]. }
  destruct (read_group i s) as [[g t]|] eqn:Eg; [|intros [= <- _ _]; split; [cbn; lia|constructor]].
  destruct (read_groups n (S i) limit t) as [[gs' b'] u] eqn:Er. intros [= <- _ _]. apply IH in Er as [Hlen Hall]; [|lia].
  split; [cbn; lia|]. constructor; [|done]. unfold read_group, read_separator in Eg.
  assert (Hg : 0 <= g <= 0xFFFF); [|lia]. destruct i; [apply read_number_range in Eg; [exact Eg|lia]|].
  destruct (read_given_char 58 s) as [[u' r]|]; [|done]. cbn [mbind option_bind] in Eg. apply read_number_range in Eg; [exact Eg|lia].
Qed.

Lemma read_ipv6_wf s segs s' : read_ipv6_addr s = Some (segs, s') -> segments_wf segs.
Proof.
  unfold read_ipv6_addr. destruct (read_groups 8 0 8 s) as [[hd b] s1] eqn:E1. apply read_groups_range in E1 as [L1 F1]; [|lia].
  destruct (Nat.eqb_spec (length hd) 8) as [E|Hne]; [intros [= <- _]; by split|]. destruct b; [done|].
  destruct (read_given_char 58 s1) as [[u s2]|]; [|done]. cbn [mbind option_bind]. destruct (read_given_char 58 s2) as [[u' s3]|]; [|done].
  cbn [mbind option_bind]. destruct (read_groups (8 - (length hd + 1)) 0 (8 - (length hd + 1)) s3) as [[tl b'] s4] eqn:E2.
  apply read_groups_range in E2 as [L2 F2]; [|lia]. intros [= <- _]. split.
  - rewrite !length_app, length_replicate. lia.
  - rewrite !Forall_app. split_and!; try done. apply Forall_replicate. lia.
Qed.

(** ** The guard *)

(** A host the guard accepts names no internal IPv4 address in any spelling. *)
Lemma host_is_public_v4 host parts vals a :
  host_is_public host = true -> host = join_with 46 parts -> parts <> [] -> Forall2 spells parts vals -> inet_address vals a ->
  ~ internal4 a.
Proof.
  intros H -> Hne Hs Ha. pose proof (parse_inet_address _ _ _ Hne Hs Ha) as Hp.
  assert (Hr : 0 <= a < 2 ^ 32) by (destruct Ha; lia). apply ipv4_is_public_spec; [done|]. unfold host_is_public in H.
  destruct (_ || _); [done|]. destruct (eq_ignore_ascii_case _ _); [done|]. rewrite Hp in H.
  destruct (parse_ip_addr _) as [[v4|v6]|] eqn:Ei; [| |done].
  - unfold parse_ip_addr in Ei. destruct (read_ipv4_addr _) as [[v t]|] eqn:E4.
    + destruct t; [|done]. simplify_eq. apply strict_is_loose in E4 as [E4 _]. rewrite Hp in E4. by simplify_eq.
    + destruct (read_ipv6_addr _) as [[? []]|]; simplify_eq.
  - exfalso. unfold parse_ip_addr in Ei. destruct (read_ipv4_addr _) as [[v t]|]; [by destruct t|].
    destruct (read_ipv6_addr _) as [[w t]|] eqn:E6; [|done]. apply ipv6_has_colon in E6.
    assert (Hc : 58 ∉ join_with 46 parts); [|done]. clear -Hs. induction Hs as [|p v ps vs Hp Hps IH]; [apply not_elem_of_nil|].
    apply spells_chars in Hp as (_ & _ & Hp). destruct ps as [|q qs]; [done|]. rewrite join_with_cons by done.
    intros [?|[?%list_elem_of_singleton|?]%elem_of_app]%elem_of_app; done.
Qed.

(** ... and, read as an IPv6 literal, no internal IPv6 address. *)
Lemma host_is_public_v6 host segs :
  host_is_public host = true -> parse_ip_addr host = Some (V6 segs) -> segments_wf segs /\ ~ internal6 (ipv6_number segs).
Proof.
  intros H Hp. assert (W : segments_wf segs).
  { unfold parse_ip_addr in Hp. destruct (read_ipv4_addr host) as [[v []]|]; try done.
    destruct (read_ipv6_addr host) as [[w []]|] eqn:E; cbn in Hp; simplify_eq. by eapply read_ipv6_wf. }
  split; [done|]. apply ipv6_is_public_spec; [done|]. unfold host_is_public in H. rewrite Hp in H.
  destruct (_ || _); [done|]. by destruct (eq_ignore_ascii_case _ _).
Qed.


(** ** On sample URLs *)

Definition sample_url : rstr := str "http://ocsp.example.com:8080/status".

Definition sample_addrs : list (IpAddr * Z) :=
  [(V4 (ipv4_of_octets 93 184 216 34), 8080); (V6 [0x2606; 0x2800; 0x220; 1; 0x248; 0x1893; 0x25c8; 0x1946], 8080)].
Definition sample_dns : BaseResolver := fun _ => Some sample_addrs.

(** Loopback and metadata addresses in their alternative spellings. *)
Example guard_refuses :
  forallb (fun u => negb (aia_responder_url_is_safe u))
    [str "file:///etc/passwd"; str "http://0x7f.1/"; str "http://2130706433/"; str "http://0177.0.0.1/"; str "http://127.0.0.1./";
     str "http://user@[::ffff:169.254.169.254]:80/"; str "http://LOCALHOST/"; str "http://[fd00::1]/"; str "http://10.1/"] = true.
Proof. vm_compute. reflexivity. Qed.

