(* ===== verification/Ocsp.v ===== *)
(** * Online revocation of client certificates

    [mcps-proxy/src/ocsp.rs]: the responder URL and its guard, the request, the
    trust pipeline over a response (signature of the issuer or of a delegated
    responder, responder identity, nonce, certificate binding, freshness) and
    the decision.  The DER and X.509 crates are classes: what they read out of
    bytes is a record of the fields the code uses; the HTTP exchange is a
    function.  Times are nanoseconds since the epoch. *)

From S2P Require Import Prelude Utf8 Errors Canonical Strings Crypto Instances UrlGuard.

(** ** X.509, as parsed *)

Inductive GeneralName : Type := NameUri (uri : rstr) | NameDns (dns : rstr) | NameOther.

(** What [x509-parser] reads of a certificate. *)
Record X509Cert : Type := {
  x_alt_names : option (list GeneralName);
  x_common_names : list (option rstr);
  x_not_before : Z;
  x_not_after : Z;
  x_extended_key_usage : option (bool * list rstr);
  x_authority_info : list (list (rstr * GeneralName));
}.

(** What [x509-cert] reads: the subject as re-encoded, the key bits, the serial. *)
Record DerCert : Type := {
  dc_subject_der : option bytes;
  dc_public_key : bytes;
  dc_serial : bytes;
}.

Class X509 := {
  x509_from_der : bytes -> option X509Cert;
  certificate_from_der : bytes -> option DerCert;
  (** [child.verify_signature(issuer key)], by their encodings. *)
  x509_signed_by : bytes -> bytes -> bool;
  (** The key of the certificate, the algorithm, the signature, the data. *)
  x509_verify_signature : bytes -> bytes -> bytes -> bytes -> bool;
  algorithm_from_der : bytes -> bool;
  (** [ASN1Time::from_timestamp], in seconds. *)
  asn1_from_timestamp : Z -> option Z;
}.

(** ** OCSP messages, as parsed *)

Record CertId : Type := {
  ci_algorithm : rstr;
  ci_issuer_name_hash : bytes;
  ci_issuer_key_hash : bytes;
  ci_serial : bytes;
}.

Inductive CertStatus : Type := StatusGood | StatusRevoked | StatusUnknown.

(** Times in seconds, as [GeneralizedTime] has them. *)
Record SingleResponse : Type := {
  sr_cert_id : CertId;
  sr_cert_status : CertStatus;
  sr_this_update : Z;
  sr_next_update : option Z;
}.

Inductive ResponderId : Type := ByName (name_der : option bytes) | ByKey (key_hash : bytes).

(** A [BasicOcspResponse] with the re-encodings the code asks for. *)
Record BasicOcspResponse : Type := {
  b_tbs_der : option bytes;
  b_responder_id : ResponderId;
  b_responses : list SingleResponse;
  b_nonce : option bytes;
  b_algorithm_der : option bytes;
  b_signature : bytes;
  b_certs : option (list (option bytes));
}.

Inductive OcspResponseStatus : Type :=
| Successful | MalformedOcspRequest | InternalError | TryLater | SigRequired | Unauthorized.

Record OcspResponse : Type := { response_status : OcspResponseStatus; response_bytes : option bytes }.

Class OcspDer := {
  ocsp_response_from_der : bytes -> option OcspResponse;
  basic_response_from_der : bytes -> option BasicOcspResponse;
  (** [Nonce::new], [OcspRequestBuilder] and [to_der]. *)
  ocsp_request_to_der : CertId -> bytes -> option bytes;
}.

Inductive CertRevocationStatus : Type := Good | Revoked | Unknown.

Inductive OcspError : Type :=
| BadCertificate | BuildRequest | OcspHttp | ReadBody | DecodeResponse | ResponderStatus (s : OcspResponseStatus)
| MalformedResponse | SignatureNotVerified | ResponderIdentityMismatch | CertIdMismatch | NotFresh | NonceMismatch.

(** ** SHA-1, for the responder's key hash *)
Module Sha1.
Definition w32 (x : Z) : Z := x mod 2 ^ 32.
Definition rotate_left (n x : Z) : Z := w32 (Z.lor (Z.shiftl x n) (Z.shiftr x (32 - n))).
Definition not32 (x : Z) : Z := Z.lxor x 0xFFFFFFFF.

(** [while msg.len() % 64 != 56 { msg.push(0) }]; fewer than 64 steps. *)
Fixpoint pad (fuel : nat) (msg : bytes) : bytes :=
  match fuel with
  | O => msg
  | S fuel' => if (length msg mod 64 =? 56)%nat then msg else pad fuel' (msg ++ [0])
  end.

Definition padded (data : bytes) : bytes :=
  pad 64 (data ++ [0x80]) ++ to_be_bytes (Z.of_nat (length data) * 8 mod 2 ^ 64).

Fixpoint words (n : nat) (chunk : bytes) : list Z :=
  match n with
  | O => []
  | S n' => be_value (take 4 chunk) :: words n' (drop 4 chunk)
  end.

(** [for i in 16..80]. *)
Fixpoint extend (n : nat) (w : list Z) : list Z :=
  match n with
  | O => w
  | S n' =>
      let i := length w in
      extend n' (w ++ [rotate_left 1 (Z.lxor (Z.lxor (Z.lxor (nth (i - 3) w 0) (nth (i - 8) w 0)) (nth (i - 14) w 0))
                                             (nth (i - 16) w 0))])
  end.

Definition state : Type := Z * Z * Z * Z * Z.

Definition round_function (i : nat) (b c d : Z) : Z * Z :=
  if (i <? 20)%nat then (Z.lor (Z.land b c) (Z.land (not32 b) d), 0x5A827999)
  else if (i <? 40)%nat then (Z.lxor (Z.lxor b c) d, 0x6ED9EBA1)
  else if (i <? 60)%nat then (Z.lor (Z.lor (Z.land b c) (Z.land b d)) (Z.land c d), 0x8F1BBCDC)
  else (Z.lxor (Z.lxor b c) d, 0xCA62C1D6).

Definition round (i : nat) (wi : Z) (s : state) : state :=
  let '(a, b, c, d, e) := s in
  let (f, k) := round_function i b c d in
  (w32 (w32 (w32 (w32 (rotate_left 5 a + f) + e) + k) + wi), a, rotate_left 30 b, c, d).

Fixpoint rounds (i : nat) (w : list Z) (s : state) : state :=
  match w with [] => s | wi :: w' => rounds (S i) w' (round i wi s) end.

Definition compress (h : state) (chunk : bytes) : state :=
  let '(a, b, c, d, e) := rounds 0 (extend 64 (words 16 chunk)) h in
  let '(h0, h1, h2, h3, h4) := h in
  (w32 (h0 + a), w32 (h1 + b), w32 (h2 + c), w32 (h3 + d), w32 (h4 + e)).

(** [msg.chunks_exact(64)]. *)
Fixpoint compress_all (n : nat) (msg : bytes) (h : state) : state :=
  match n with O => h | S n' => compress_all n' (drop 64 msg) (compress h (take 64 msg)) end.

Definition sha1_hash (data : bytes) : bytes :=
  let msg := padded data in
  let '(a, b, c, d, e) := compress_all (length msg / 64) msg
                            (0x67452301, 0xEFCDAB89, 0x98BADCFE, 0x10325476, 0xC3D2E1F0) in
  be_bytes 4 a ++ be_bytes 4 b ++ be_bytes 4 c ++ be_bytes 4 d ++ be_bytes 4 e.
End Sha1.

(** ** Freshness *)

Definition NANOS : Z := 10 ^ 9.
Definition OCSP_FRESHNESS_SKEW : Z := 300 * NANOS.
Definition OCSP_MAX_RESPONSE_AGE : Z := 86400 * NANOS.

(** [Duration::MAX], [Duration::saturating_add]. *)
Definition DURATION_MAX : Z := (2 ^ 64 - 1) * NANOS + (NANOS - 1).
Definition duration_saturating_add (a b : Z) : Z := Z.min (a + b) DURATION_MAX.

(** [Debug] of a [Duration]: in the largest unit it fills, the fraction without
    its trailing zeros. *)
Fixpoint fraction_digits (places : nat) (n : Z) : rstr :=
  match places with
  | O => []
  | S p => if n =? 0 then [] else (48 + n / 10 ^ Z.of_nat p) :: fraction_digits p (n mod 10 ^ Z.of_nat p)
  end.
Definition debug_decimal (places : nat) (d : Z) (unit_name : rstr) : rstr :=
  let fraction := fraction_digits places (d mod 10 ^ Z.of_nat places) in
  display_unsigned (d / 10 ^ Z.of_nat places) ++ (if is_empty fraction then [] else [46] ++ fraction) ++ unit_name.
Definition debug_duration (d : Z) : rstr :=
  if NANOS <=? d then debug_decimal 9 d (str "s")
  else if 10 ^ 6 <=? d then debug_decimal 6 d (str "ms")
  else if 10 ^ 3 <=? d then debug_decimal 3 d ([181] ++ str "s")
  else debug_decimal 0 d (str "ns").

Example debug_durations :
  debug_duration (35 * NANOS) = str "35s" /\ debug_duration 1500000000 = str "1.5s" /\
  debug_duration 2070000 = str "2.07ms" /\ debug_duration 0 = str "0ns".
Proof. vm_compute. by split_and!. Qed.

Definition system_time_to_unix (now : Z) : option Z := if now <? 0 then None else Some now.

Definition is_fresh (single : SingleResponse) (now skew max_age : Z) : bool :=
  match system_time_to_unix now with
  | None => false
  | Some now_unix =>
      let this_update := sr_this_update single * NANOS in
      if duration_saturating_add now_unix skew <? this_update then false
      else
        let age_cap := duration_saturating_add this_update max_age in
        let upper := match sr_next_update single with
                     | Some next_update => Z.min (next_update * NANOS) age_cap
                     | None => age_cap
                     end in
        if duration_saturating_add upper skew <? now_unix then false else true
  end.

Definition nonce_ok (basic : BasicOcspResponse) (request_nonce : bytes) : bool :=
  match b_nonce basic with None => true | Some echoed => bool_decide (echoed = request_nonce) end.

Definition cert_ids_bind (a b : CertId) : bool :=
  bool_decide (ci_algorithm a = ci_algorithm b) && bool_decide (ci_issuer_name_hash a = ci_issuer_name_hash b) &&
  bool_decide (ci_issuer_key_hash a = ci_issuer_key_hash b) && bool_decide (ci_serial a = ci_serial b).

Definition select_matching_single_response (basic : BasicOcspResponse) (expected : CertId) : option SingleResponse :=
  List.find (fun single => cert_ids_bind (sr_cert_id single) expected) (b_responses basic).

Definition map_cert_status (status : CertStatus) : CertRevocationStatus :=
  match status with StatusGood => Good | StatusRevoked => Revoked | StatusUnknown => Unknown end.

Definition decide_allow (status : CertRevocationStatus) (soft_fail : bool) : bool :=
  match status with Good => true | Revoked => false | Unknown => soft_fail end.

(** ** The trust pipeline *)

Definition ID_KP_OCSP_SIGNING : rstr := str "1.3.6.1.5.5.7.3.9".
Definition ID_AD_OCSP : rstr := str "1.3.6.1.5.5.7.48.1".
Definition OID_SHA256 : rstr := str "2.16.840.1.101.3.4.2.1".

Section Pipeline.
Context `{X509, OcspDer, Sha2}.

Definition signature_verifies (signer_cert_der sig_alg_der sig_bytes signed_der : bytes) : result bool OcspError :=
  let? _ := ok_or (x509_from_der signer_cert_der) SignatureNotVerified in
  if negb (algorithm_from_der sig_alg_der) then Err SignatureNotVerified
  else Ok (x509_verify_signature signer_cert_der sig_alg_der sig_bytes signed_der).

(** [Validity::is_valid_at]. *)
Definition is_valid_at (cert : X509Cert) (t : Z) : bool := (x_not_before cert <=? t) && (t <=? x_not_after cert).

Definition delegated_responder_is_valid (cert_der issuer_der : bytes) (now : Z) : result bool OcspError :=
  let? cert := ok_or (x509_from_der cert_der) SignatureNotVerified in
  match system_time_to_unix now with
  | None => Ok false
  | Some now_unix =>
      match asn1_from_timestamp (now_unix / NANOS) with
      | None => Ok false
      | Some now_asn1 =>
          if negb (is_valid_at cert now_asn1) then Ok false
          else
            let has_ocsp_eku :=
              match x_extended_key_usage cert with
              | Some (ocsp_signing, other) => ocsp_signing || existsb (fun oid => bool_decide (oid = ID_KP_OCSP_SIGNING)) other
              | None => false
              end in
            if negb has_ocsp_eku then Ok false
            else
              let? _ := ok_or (x509_from_der issuer_der) SignatureNotVerified in
              Ok (x509_signed_by cert_der issuer_der)
      end
  end.

(** The loop over the certificates of the response. *)
Fixpoint delegated_signer (certs : list (option bytes)) (issuer_der : bytes) (now : Z) (alg sig tbs : bytes)
  : result (option bytes) OcspError :=
  match certs with
  | [] => Ok None
  | c :: rest =>
      let? cert_der := ok_or c SignatureNotVerified in
      let? valid := delegated_responder_is_valid cert_der issuer_der now in
      if negb valid then delegated_signer rest issuer_der now alg sig tbs
      else
        let? verified := signature_verifies cert_der alg sig tbs in
        if verified then Ok (Some cert_der) else delegated_signer rest issuer_der now alg sig tbs
  end.

Definition verify_responder_signature (basic : BasicOcspResponse) (issuer_der : bytes) (now : Z) : result bytes OcspError :=
  let? tbs_der := ok_or (b_tbs_der basic) SignatureNotVerified in
  let? sig_alg_der := ok_or (b_algorithm_der basic) SignatureNotVerified in
  let? direct := signature_verifies issuer_der sig_alg_der (b_signature basic) tbs_der in
  if direct then Ok issuer_der
  else
    let? delegated := match b_certs basic with
                      | Some certs => delegated_signer certs issuer_der now sig_alg_der (b_signature basic) tbs_der
                      | None => Ok None
                      end in
    ok_or delegated SignatureNotVerified.

Definition responder_id_matches (responder_id : ResponderId) (signer_cert_der : bytes) : bool :=
  match certificate_from_der signer_cert_der with
  | None => false
  | Some signer =>
      match responder_id with
      | ByName name => match name, dc_subject_der signer with Some a, Some b => bool_decide (a = b) | _, _ => false end
      | ByKey key_hash => bool_decide (key_hash = Sha1.sha1_hash (dc_public_key signer))
      end
  end.

Definition verify_and_map_response (response_der issuer_der : bytes) (expected_cert_id : CertId) (request_nonce : bytes) (now : Z)
  : result CertRevocationStatus OcspError :=
  let? response := ok_or (ocsp_response_from_der response_der) DecodeResponse in
  match response_status response with
  | Successful =>
      let? rb := ok_or (response_bytes response) MalformedResponse in
      let? basic := ok_or (basic_response_from_der rb) MalformedResponse in
      let? signer := verify_responder_signature basic issuer_der now in
      if negb (responder_id_matches (b_responder_id basic) signer) then Err ResponderIdentityMismatch
      else if negb (nonce_ok basic request_nonce) then Err NonceMismatch
      else
        let? single := ok_or (select_matching_single_response basic expected_cert_id) CertIdMismatch in
        if negb (is_fresh single now OCSP_FRESHNESS_SKEW OCSP_MAX_RESPONSE_AGE) then Err NotFresh
        else Ok (map_cert_status (sr_cert_status single))
  | other => Err (ResponderStatus other)
  end.

(** ** The check *)

Definition build_sha256_cert_id (issuer cert : DerCert) : result CertId OcspError :=
  let? issuer_subject_der := ok_or (dc_subject_der issuer) BuildRequest in
  Ok {| ci_algorithm := OID_SHA256; ci_issuer_name_hash := sha256_digest issuer_subject_der;
        ci_issuer_key_hash := sha256_digest (dc_public_key issuer); ci_serial := dc_serial cert |}.

Definition build_cert_id (leaf_der issuer_der : bytes) : result CertId OcspError :=
  let? leaf := ok_or (certificate_from_der leaf_der) BadCertificate in
  let? issuer := ok_or (certificate_from_der issuer_der) BadCertificate in
  build_sha256_cert_id issuer leaf.

Definition build_ocsp_request_der_with_nonce (leaf_der issuer_der nonce : bytes) : result bytes OcspError :=
  let? cert_id := build_cert_id leaf_der issuer_der in
  ok_or (ocsp_request_to_der cert_id nonce) BuildRequest.

(** The first OCSP URI of the authority information access extensions. *)
Definition extract_ocsp_responder_url (leaf_der : bytes) : option rstr :=
  cert ← x509_from_der leaf_der;
  head (omap (fun d : rstr * GeneralName =>
                if bool_decide (d.1 = ID_AD_OCSP) then match d.2 with NameUri uri => Some uri | _ => None end else None)
             (mjoin (x_authority_info cert))).

Inductive ResponderUrlSource : Type := CertAia | OperatorOverride.

Record OcspChecker : Type := {
  responder_url_override : option rstr;
  soft_fail : bool;
  vet_resolved_addresses : bool;
}.

Definition ocsp_checker_new (override : option rstr) (soft : bool) : OcspChecker :=
  {| responder_url_override := override; soft_fail := soft; vet_resolved_addresses := true |}.

Definition resolve_responder_url (c : OcspChecker) (leaf_der : bytes) : option (rstr * ResponderUrlSource) :=
  match responder_url_override c with
  | Some url => Some (url, OperatorOverride)
  | None => (fun url => (url, CertAia)) <$> extract_ocsp_responder_url leaf_der
  end.

(** The HTTP exchange with a responder, with or without the vetting resolver. *)
Class Responder := ocsp_post : rstr -> bytes -> bool -> result bytes OcspError.

Definition post_request `{Responder} (c : OcspChecker) (url : rstr) (request_der : bytes) (source : ResponderUrlSource)
  : result bytes OcspError :=
  ocsp_post url request_der (vet_resolved_addresses c && match source with CertAia => true | OperatorOverride => false end).

(** [nonce] is what [random_nonce] drew and [now] the clock after the
    exchange. *)
Definition check `{Responder} (c : OcspChecker) (leaf_der issuer_der : bytes) (nonce : result bytes OcspError) (now : Z)
  : result CertRevocationStatus OcspError :=
  match resolve_responder_url c leaf_der with
  | None => Ok Unknown
  | Some (responder_url, source) =>
      let safe := match source with
                  | CertAia => aia_responder_url_is_safe responder_url
                  | OperatorOverride => responder_scheme_allowed responder_url
                  end in
      if negb safe then Ok Unknown
      else
        let? nonce := nonce in
        let? request_der := build_ocsp_request_der_with_nonce leaf_der issuer_der nonce in
        let? response_der := post_request c responder_url request_der source in
        let? expected_cert_id := build_cert_id leaf_der issuer_der in
        verify_and_map_response response_der issuer_der expected_cert_id nonce now
  end.

Definition allows (c : OcspChecker) (status : CertRevocationStatus) : bool := decide_allow status (soft_fail c).

Definition allows_on_error (c : OcspChecker) : bool := decide_allow Unknown (soft_fail c).
End Pipeline.

(** ** What an OCSP verdict rests on

    SHA-1 on its test vectors, and the soundness of the trust pipeline of
    [Ocsp]: a verdict is the word of the issuer, or of a responder the issuer
    appointed, about this certificate, within the validity window. *)

(** ** SHA-1 *)

(** The padding loop stops within its 64 steps, at 56 modulo 64. *)
Lemma pad_aligned fuel msg :
  (56 - Z.of_nat (length msg)) mod 64 < Z.of_nat fuel -> (length (Sha1.pad fuel msg) mod 64 = 56)%nat.
Proof.
  revert msg. induction fuel as [|n IH]; intros msg Hb; cbn [Sha1.pad].
  - pose proof (Z.mod_pos_bound (56 - Z.of_nat (length msg)) 64). lia.
  - destruct (Nat.eqb_spec (length msg mod 64) 56) as [E|E]; [done|]. apply IH. rewrite length_app. cbn [length].
    assert (E' : Z.of_nat (length msg) mod 64 <> 56) by (rewrite <- (Nat2Z.inj_mod _ 64); lia). clear E. rewrite Nat2Z.inj_add.
    revert Hb E'. generalize (Z.of_nat (length msg)). intros z. Z.to_euclidean_division_equations. lia.
Qed.

Lemma padded_aligned data : (length (Sha1.padded data) mod 64 = 0)%nat.
Proof.
  unfold Sha1.padded. rewrite length_app. unfold to_be_bytes. rewrite length_be_bytes.
  assert (H : (length (Sha1.pad 64 (data ++ [0x80%Z])) mod 64 = 56)%nat).
  { apply pad_aligned. pose proof (Z.mod_pos_bound (56 - Z.of_nat (length (data ++ [0x80]))) 64). lia. }
  by rewrite Nat.Div0.add_mod, H.
Qed.

Lemma length_sha1 data : length (Sha1.sha1_hash data) = 20%nat.
Proof.
  unfold Sha1.sha1_hash. destruct (Sha1.compress_all _ _ _) as [[[[a b] c] d] e]. by rewrite !length_app, !length_be_bytes.
Qed.

(** FIPS 180-4: the empty message, one block, two blocks. *)
Example sha1_vectors :
  be_value (Sha1.sha1_hash []) = 0xda39a3ee5e6b4b0d3255bfef95601890afd80709 /\
  be_value (Sha1.sha1_hash (as_bytes (str "abc"))) = 0xa9993e364706816aba3e25717850c26c9cd0d89d /\
  be_value (Sha1.sha1_hash (as_bytes (str "abcdbcdecdefdefgefghfghighijhijkijkljklmklmnlmnomnopnopq"))) = 0x84983e441c3bd26ebaae4aa1f95129e5e54670f1.
Proof. vm_compute. repeat split. Qed.

(** ** The window of an answer *)

Lemma saturating_le a b : duration_saturating_add a b <= a + b.
Proof. unfold duration_saturating_add. lia. Qed.

Lemma is_fresh_window single now skew max_age :
  is_fresh single now skew max_age = true ->
  0 <= now /\ sr_this_update single * NANOS - skew <= now <= sr_this_update single * NANOS + max_age + skew /\
  (forall next, sr_next_update single = Some next -> now <= next * NANOS + skew).
Proof.
  unfold is_fresh, system_time_to_unix. destruct (Z.ltb_spec now 0) as [|Hn]; [done|].
  destruct (Z.ltb_spec (duration_saturating_add now skew) (sr_this_update single * NANOS)) as [|Hlo]; [done|].
  pose proof (saturating_le now skew). pose proof (saturating_le (sr_this_update single * NANOS) max_age) as Hcap.
  set (cap := duration_saturating_add _ max_age) in *.
  match goal with |- (if duration_saturating_add ?u _ <? _ then _ else _) = _ -> _ => pose proof (saturating_le u skew); set (upper := u) in * end.
  destruct (Z.ltb_spec (duration_saturating_add upper skew) now) as [|Hup]; [done|]. intros _.
  subst upper. destruct (sr_next_update single) as [next|]; split_and!; try lia; intros ? [= <-]; lia.
Qed.

(** A plausible clock never saturates: inside its window an answer is fresh. *)
Lemma window_is_fresh single now skew max_age :
  0 <= now -> 0 <= skew -> 0 <= max_age -> now + skew <= DURATION_MAX ->
  sr_this_update single * NANOS - skew <= now <= sr_this_update single * NANOS + max_age ->
  (forall next, sr_next_update single = Some next -> now <= next * NANOS) ->
  is_fresh single now skew max_age = true.
Proof.
  intros Hn Hs Hm Hd Hw Hx. unfold is_fresh, system_time_to_unix, duration_saturating_add. zguard.
  destruct (sr_next_update single) as [next|]; [specialize (Hx _ eq_refl)|]; zguard; reflexivity.
Qed.

Lemma cert_ids_bind_eq a b : cert_ids_bind a b = true <-> a = b.
Proof.
  unfold cert_ids_bind. rewrite !andb_true_iff, !bool_decide_eq_true. destruct a, b; cbn. split; [intros [[[-> ->] ->] ->]; done|].
  intros [= -> -> -> ->]. done.
Qed.

Section Trust.
Context `{X509, OcspDer, Sha2}.

(** Who may sign for [issuer] at [now]: the issuer, or a certificate of the
    response it signed, in its validity, marked for OCSP signing. *)
Inductive vouched (issuer : bytes) (now : Z) (certs : option (list (option bytes))) : bytes -> Prop :=
| vouched_issuer : vouched issuer now certs issuer
| vouched_delegate d cert ders at_now eku others :
    certs = Some ders -> Some d ∈ ders -> x509_from_der d = Some cert -> x509_signed_by d issuer = true ->
    asn1_from_timestamp (now / NANOS) = Some at_now -> x_not_before cert <= at_now <= x_not_after cert ->
    x_extended_key_usage cert = Some (eku, others) -> (eku = true \/ ID_KP_OCSP_SIGNING ∈ others) ->
    vouched issuer now certs d.

(** A verdict [status] about [id] at [now], backed by [response]. *)
Record trusted_answer (response issuer : bytes) (id : CertId) (nonce : bytes) (now : Z) (status : CertStatus) : Prop := {
  ta_answer : exists rb basic tbs alg signer single,
    ocsp_response_from_der response = Some {| response_status := Successful; response_bytes := Some rb |} /\
    basic_response_from_der rb = Some basic /\ b_tbs_der basic = Some tbs /\ b_algorithm_der basic = Some alg /\
    vouched issuer now (b_certs basic) signer /\ x509_verify_signature signer alg (b_signature basic) tbs = true /\
    responder_id_matches (b_responder_id basic) signer = true /\
    (b_nonce basic = None \/ b_nonce basic = Some nonce) /\
    single ∈ b_responses basic /\ sr_cert_id single = id /\ sr_cert_status single = status /\
    0 <= now /\ sr_this_update single * NANOS - OCSP_FRESHNESS_SKEW <= now /\
    now <= sr_this_update single * NANOS + OCSP_MAX_RESPONSE_AGE + OCSP_FRESHNESS_SKEW /\
    (forall next, sr_next_update single = Some next -> now <= next * NANOS + OCSP_FRESHNESS_SKEW) }.

Lemma signature_verifies_true signer alg sig tbs :
  signature_verifies signer alg sig tbs = Ok true -> x509_verify_signature signer alg sig tbs = true.
Proof. unfold signature_verifies. destruct (x509_from_der signer); cbn; [|done]. by destruct (algorithm_from_der alg); cbn; [intros [=]|]. Qed.

Lemma delegated_valid_spec d issuer now ders :
  delegated_responder_is_valid d issuer now = Ok true -> Some d ∈ ders -> vouched issuer now (Some ders) d.
Proof.
  unfold delegated_responder_is_valid. destruct (x509_from_der d) as [cert|] eqn:Ed; cbn [ok_or]; [|done].
  unfold system_time_to_unix. destruct (now <? 0); [done|]. destruct (asn1_from_timestamp (now / NANOS)) as [t|] eqn:Et; [|done].
  destruct (is_valid_at cert t) eqn:Ev; cbn [negb]; [|done]. apply andb_true_iff in Ev as [E1%Z.leb_le E2%Z.leb_le].
  destruct (x_extended_key_usage cert) as [[eku others]|] eqn:Ek; [|done].
  destruct (eku || _) eqn:Ee; cbn [negb]; [|done]. destruct (x509_from_der issuer); cbn [ok_or]; [|done]. intros [= Hs] Hin.
  econstructor; eauto. apply orb_true_iff in Ee as [->|(o & Ho & Heq)%existsb_exists]; [by left|right].
  apply bool_decide_eq_true in Heq as ->. by apply list_elem_of_In.
Qed.

Lemma delegated_signer_spec certs ders issuer now alg sig tbs d :
  delegated_signer certs issuer now alg sig tbs = Ok (Some d) -> (forall c, c ∈ certs -> c ∈ ders) ->
  vouched issuer now (Some ders) d /\ x509_verify_signature d alg sig tbs = true.
Proof.
  intros Hd Hin. revert Hd. induction certs as [|c certs IH]; cbn [delegated_signer]; [done|].
  destruct c as [c|]; cbn [ok_or]; [|done]. destruct (delegated_responder_is_valid c issuer now) as [[]|] eqn:Ev; cbn [negb]; try done.
  - destruct (signature_verifies c alg sig tbs) as [[]|] eqn:Es; try done.
    + intros [= <-]. split; [|by apply signature_verifies_true]. apply delegated_valid_spec; [done|]. apply Hin. by left.
    + apply IH. intros ??. apply Hin. by right.
  - apply IH. intros ??. apply Hin. by right.
Qed.

Lemma verify_responder_signature_spec basic issuer now signer :
  verify_responder_signature basic issuer now = Ok signer ->
  exists tbs alg, b_tbs_der basic = Some tbs /\ b_algorithm_der basic = Some alg /\ vouched issuer now (b_certs basic) signer /\
    x509_verify_signature signer alg (b_signature basic) tbs = true.
Proof.
  unfold verify_responder_signature. destruct (b_tbs_der basic) as [tbs|]; cbn [ok_or]; [|done].
  destruct (b_algorithm_der basic) as [alg|]; cbn [ok_or]; [|done].
  destruct (signature_verifies issuer alg _ tbs) as [[]|] eqn:Ed; try done.
  - intros [= <-]. exists tbs, alg. split_and!; [done..|constructor|by apply signature_verifies_true].
  - destruct (b_certs basic) as [ders|] eqn:Ec; [|done].
    destruct (delegated_signer ders issuer now alg _ tbs) as [[d|]|] eqn:Es; try done. intros [= <-].
    eapply delegated_signer_spec in Es as [Hv Hs]; [|done]. by exists tbs, alg.
Qed.

Lemma verify_and_map_spec response issuer id nonce now verdict :
  verify_and_map_response response issuer id nonce now = Ok verdict ->
  exists status, verdict = map_cert_status status /\ trusted_answer response issuer id nonce now status.
Proof.
  unfold verify_and_map_response. destruct (ocsp_response_from_der response) as [[st rb]|] eqn:Er; cbn [ok_or]; [|done].
  destruct st; try done. cbn [response_status response_bytes]. destruct rb as [rb|]; cbn [ok_or]; [|done].
  destruct (basic_response_from_der rb) as [basic|] eqn:Eb; cbn [ok_or]; [|done].
  destruct (verify_responder_signature basic issuer now) as [signer|] eqn:Es; [|done].
  destruct (responder_id_matches _ signer) eqn:Ei; cbn [negb]; [|done].
  destruct (nonce_ok basic nonce) eqn:En; cbn [negb]; [|done].
  destruct (select_matching_single_response basic id) as [single|] eqn:Esel; cbn [ok_or]; [|done].
  destruct (is_fresh single now _ _) eqn:Ef; cbn [negb]; [|done]. intros [= <-].
  apply verify_responder_signature_spec in Es as (tbs & alg & Htbs & Halg & Hv & Hsig).
  apply is_fresh_window in Ef as (Hn & [Hlo Hhi] & Hnext).
  apply find_some in Esel as [Hin Hid%cert_ids_bind_eq]. exists (sr_cert_status single). split; [done|]. split.
  exists rb, basic, tbs, alg, signer, single. split_and!; auto; [|by apply list_elem_of_In].
  unfold nonce_ok in En. destruct (b_nonce basic) as [echo|]; [right|by left]. by apply bool_decide_eq_true in En as ->.
Qed.

(** The identifier of [leaf] under [issuer]. *)
Definition identifies (leaf issuer : bytes) (id : CertId) : Prop :=
  exists l i subject, certificate_from_der leaf = Some l /\ certificate_from_der issuer = Some i /\ dc_subject_der i = Some subject /\
    id = {| ci_algorithm := OID_SHA256; ci_issuer_name_hash := sha256_digest subject;
            ci_issuer_key_hash := sha256_digest (dc_public_key i); ci_serial := dc_serial l |}.

Lemma build_cert_id_spec leaf issuer id : build_cert_id leaf issuer = Ok id -> identifies leaf issuer id.
Proof.
  unfold build_cert_id, build_sha256_cert_id. destruct (certificate_from_der leaf) as [l|] eqn:El; cbn [ok_or]; [|done].
  destruct (certificate_from_der issuer) as [i|] eqn:Ei; cbn [ok_or]; [|done].
  destruct (dc_subject_der i) as [subject|] eqn:Es; cbn [ok_or]; [|done]. intros [= <-]. by exists l, i, subject.
Qed.

(** The verdict other than [Unknown] came from the responder's answer. *)
Lemma check_spec `{Responder} c leaf issuer nonce now verdict :
  check c leaf issuer nonce now = Ok verdict -> verdict <> Unknown ->
  exists n id request url vet response status,
    nonce = Ok n /\ identifies leaf issuer id /\ ocsp_request_to_der id n = Some request /\
    ocsp_post url request vet = Ok response /\ trusted_answer response issuer id n now status /\ verdict = map_cert_status status /\
    (responder_url_override c = None -> aia_responder_url_is_safe url = true /\ vet = vet_resolved_addresses c).
Proof.
  unfold check. destruct (resolve_responder_url c leaf) as [[url source]|] eqn:Eu; [|by intros [= <-]].
  match goal with |- (if negb ?b then _ else _) = _ -> _ => destruct b eqn:Esafe end; cbn [negb]; [|by intros [= <-]].
  destruct nonce as [n|]; [|done]. unfold build_ocsp_request_der_with_nonce.
  destruct (build_cert_id leaf issuer) as [id|] eqn:Ei; [|done].
  destruct (ocsp_request_to_der id n) as [request|] eqn:Eq; cbn [ok_or]; [|done].
  destruct (post_request c url request source) as [response|] eqn:Ep; [|done]. intros Hv _.
  apply verify_and_map_spec in Hv as (status & -> & Ht). unfold post_request in Ep. exists n, id, request, url.
  eexists _, response, status. split_and!; try done; [by apply build_cert_id_spec|]. intros Hno.
  unfold resolve_responder_url in Eu. rewrite Hno in Eu. destruct (extract_ocsp_responder_url leaf); [|done].
  cbn [fmap option_fmap option_map] in Eu. simplify_eq. by rewrite andb_true_r.
Qed.
End Trust.
