(* ===== verification/Http.v ===== *)
(** * HTTP framing between the client transport and the sidecar

    The hand-written HTTP/1.1 of the two ends: [read_http_request],
    [write_http_response] and their helpers of [mcps-proxy/src/tls.rs], and the
    request text, the bounded response read, [extract_body] and the error
    classification of [mcps-transport/src/lib.rs].  A stream is anything that
    implements [Read]; loops carry fuel, and [HttpTheorems] shows that what
    they are given is enough. *)

From S2P Require Import Prelude Utf8 Errors Canonical Strings.

(** ** std: lossy UTF-8, usize, io *)

Definition REPLACEMENT : rchar := 0xFFFD.

(** [String::from_utf8_lossy]: each maximal invalid prefix of a sequence
    becomes one replacement character. *)
Fixpoint from_utf8_lossy (bs : bytes) : rstr :=
  match bs with
  | [] => []
  | b0 :: r0 =>
      if in_range 0 0x7F b0 then b0 :: from_utf8_lossy r0
      else if in_range 0xC2 0xDF b0 then
        match r0 with
        | b1 :: r1 =>
            if is_cont b1 then (b0 - 0xC0) * 64 + (b1 - 0x80) :: from_utf8_lossy r1
            else REPLACEMENT :: from_utf8_lossy r0
        | [] => [REPLACEMENT]
        end
      else if in_range 0xE0 0xEF b0 then
        match r0 with
        | b1 :: r1 =>
            if second_of_3 b0 b1 then
              match r1 with
              | b2 :: r2 =>
                  if is_cont b2
                  then (b0 - 0xE0) * 4096 + (b1 - 0x80) * 64 + (b2 - 0x80) :: from_utf8_lossy r2
                  else REPLACEMENT :: from_utf8_lossy r1
              | [] => [REPLACEMENT]
              end
            else REPLACEMENT :: from_utf8_lossy r0
        | [] => [REPLACEMENT]
        end
      else if in_range 0xF0 0xF4 b0 then
        match r0 with
        | b1 :: r1 =>
            if second_of_4 b0 b1 then
              match r1 with
              | b2 :: r2 =>
                  if is_cont b2 then
                    match r2 with
                    | b3 :: r3 =>
                        if is_cont b3
                        then (b0 - 0xF0) * 262144 + (b1 - 0x80) * 4096 + (b2 - 0x80) * 64 + (b3 - 0x80)
                             :: from_utf8_lossy r3
                        else REPLACEMENT :: from_utf8_lossy r2
                    | [] => [REPLACEMENT]
                    end
                  else REPLACEMENT :: from_utf8_lossy r1
              | [] => [REPLACEMENT]
              end
            else REPLACEMENT :: from_utf8_lossy r0
        | [] => [REPLACEMENT]
        end
      else REPLACEMENT :: from_utf8_lossy r0
  end.

(** [str::parse::<usize>], 64 bits wide. *)
Definition parse_usize (s : rstr) : option Z := parse_unsigned U64_MAX s.

Inductive ErrorKind : Type := InvalidData | UnexpectedEof | WouldBlock | TimedOut | OtherKind.

(** An [io::Error]: its kind, and whether it wraps a [rustls::Error]. *)
Record IoError : Type := { io_kind : ErrorKind; io_rustls : bool }.

Definition io_error (k : ErrorKind) : IoError := {| io_kind := k; io_rustls := false |}.

(** [trait Read]: a read into a buffer of the given length. *)
Class Read (S : Type) := read : S -> nat -> result bytes IoError * S.

(** What its documentation promises: at most the buffer is filled. *)
Class ReadLaws (S : Type) `{Read S} : Prop := {
  read_at_most s n c s' : read s n = (Ok c, s') -> (length c <= n)%nat;
}.

(** [trait Write]: how many of the bytes were taken. *)
Class Write (S : Type) := write : S -> bytes -> result Z IoError * S.

(** [Instant::now] as the stream's owner observes it, in any unit of time. *)
Class Clocked (S : Type) := instant_now : S -> Z.

Definition blen (bs : bytes) : Z := Z.of_nat (length bs).

(** ** tls.rs: reading a request *)

Record ServerLimits : Type := {
  max_header_bytes : Z;
  max_body_bytes : Z;
  sl_read_timeout : option Z;
  request_deadline : option Z;
  sl_write_timeout : option Z;
  max_concurrent_connections : Z;
}.

(** [ServerLimits::default], with durations in seconds. *)
Definition server_limits_default : ServerLimits := {|
  max_header_bytes := 64 * 1024; max_body_bytes := 16 * 1024 * 1024; sl_read_timeout := Some 30;
  request_deadline := Some 30; sl_write_timeout := Some 30; max_concurrent_connections := 256 |}.

Record HttpRequest : Type := { header_block : rstr; http_body : bytes }.

(** [windows(needle.len()).position(|w| w == needle)]. *)
Fixpoint window_position (needle hay : bytes) : option nat :=
  if starts_with needle hay then Some 0%nat
  else match hay with
       | [] => None
       | _ :: hay' => S <$> window_position needle hay'
       end.

Definition find_subsequence (haystack needle : bytes) : option nat :=
  if is_empty needle || (length haystack <? length needle)%nat then None
  else window_position needle haystack.

Definition HEADER_END : bytes := [13; 10; 13; 10].

(** The scan of [reject_malformed_header_framing], with the byte before. *)
Fixpoint framing_loop (prev : option Z) (bs : bytes) : result unit IoError :=
  match bs with
  | [] => Ok tt
  | b :: rest =>
      if (b =? 13) && negb (bool_decide (head rest = Some 10)) then Err (io_error InvalidData)
      else if (b =? 10) && negb (bool_decide (prev = Some 13)) then Err (io_error InvalidData)
      else if (b =? 10) && (bool_decide (head rest = Some 32) || bool_decide (head rest = Some 9))
      then Err (io_error InvalidData)
      else framing_loop (Some b) rest
  end.

Definition reject_malformed_header_framing (header_bytes : bytes) : result unit IoError :=
  framing_loop None header_bytes.

(** The loop of [parse_content_length] over the lines. *)
Fixpoint content_length_of (lines : list rstr) : option Z :=
  match lines with
  | [] => None
  | line :: rest =>
      match split_once 58 line with
      | Some (name, value) =>
          if eq_ignore_ascii_case (trim name) (str "content-length") then parse_usize (trim value)
          else content_length_of rest
      | None => content_length_of rest
      end
  end.

Definition parse_content_length (headers : rstr) : option Z := content_length_of (str_lines headers).

Section ReadRequest.
Context `{Read Str}.

(** The first loop: up to the end of the headers; [None] is fuel exhausted. *)
Fixpoint read_headers (fuel : nat) (limits : ServerLimits) (s : Str) (buf : bytes)
  : option (result (bytes * nat) IoError * Str) :=
  match fuel with
  | O => None
  | S fuel' =>
      match find_subsequence buf HEADER_END with
      | Some pos => Some (Ok (buf, pos + 4)%nat, s)
      | None =>
          if max_header_bytes limits <? blen buf then Some (Err (io_error InvalidData), s)
          else
            match read s 1024 with
            | (Err e, s') => Some (Err e, s')
            | (Ok chunk, s') =>
                if is_empty chunk then Some (Err (io_error UnexpectedEof), s')
                else read_headers fuel' limits s' (buf ++ chunk)
            end
      end
  end.

(** The second loop: the rest of the body. *)
Fixpoint read_body (fuel : nat) (limits : ServerLimits) (s : Str) (body : bytes) (content_length : Z)
  : option (result bytes IoError * Str) :=
  match fuel with
  | O => None
  | S fuel' =>
      if negb (blen body <? content_length) then Some (Ok body, s)
      else if max_body_bytes limits <? blen body then Some (Err (io_error InvalidData), s)
      else
        match read s 1024 with
        | (Err e, s') => Some (Err e, s')
        | (Ok chunk, s') =>
            if is_empty chunk then Some (Ok body, s')
            else read_body fuel' limits s' (body ++ chunk) content_length
        end
  end.

Definition read_http_request (limits : ServerLimits) (s : Str) : option (result HttpRequest IoError * Str) :=
  '(r, s) ← read_headers (Z.to_nat (max_header_bytes limits) + 2) limits s [];
  match r with
  | Err e => Some (Err e, s)
  | Ok (buf, header_end) =>
      let header_bytes := take header_end buf in
      match reject_malformed_header_framing header_bytes with
      | Err e => Some (Err e, s)
      | Ok _ =>
          let block := from_utf8_lossy header_bytes in
          let content_length := default 0 (parse_content_length block) in
          if max_body_bytes limits <? content_length then Some (Err (io_error InvalidData), s)
          else
            '(r, s) ← read_body (Z.to_nat content_length + 1) limits s (drop header_end buf) content_length;
            Some (let? body := r in
                  Ok {| header_block := block; http_body := take (Z.to_nat content_length) body |}, s)
      end
  end.
End ReadRequest.

(** The bytes [write_http_response] writes. *)
Definition http_response (body : bytes) : bytes :=
  as_bytes (str "HTTP/1.1 200 OK" ++ [13; 10] ++ str "Content-Type: application/json" ++ [13; 10] ++
            str "Content-Length: " ++ display_unsigned (blen body) ++ [13; 10] ++
            str "Connection: close" ++ [13; 10; 13; 10]) ++ body.

(** ** mcps-transport *)

Inductive ClientTransportError : Type :=
| CteHandshake
| CteIo (e : IoError)
| CteTimeout
| CteResponseTooLarge (limit : Z).

Definition is_timeout (e : IoError) : bool :=
  match io_kind e with WouldBlock | TimedOut => true | _ => false end.

Definition io_or_handshake (e : IoError) : ClientTransportError := if io_rustls e then CteHandshake else CteIo e.

Definition handshake_error (e : IoError) : ClientTransportError := if is_timeout e then CteTimeout else CteHandshake.

Definition write_error (e : IoError) : ClientTransportError := if is_timeout e then CteTimeout else io_or_handshake e.

(** The text of the request of [round_trip]. *)
Definition http_post (host : rstr) (request_body : bytes) : bytes :=
  as_bytes (str "POST / HTTP/1.1" ++ [13; 10] ++ str "Host: " ++ host ++ [13; 10] ++
            str "Content-Length: " ++ display_unsigned (blen request_body) ++ [13; 10] ++
            str "Connection: close" ++ [13; 10; 13; 10]).

Definition extract_body (response : bytes) : bytes :=
  drop (default 0%nat ((fun p => p + 4)%nat <$> window_position HEADER_END response)) response.

(** The length of [chunk]. *)
Definition RESPONSE_CHUNK : nat := Z.to_nat 8192.

Section ReadResponse.
Context `{Read Str, Clocked Str}.

Fixpoint read_response_loop (fuel : nat) (max_bytes : Z) (aggregate_deadline : option Z) (s : Str) (response : bytes)
  : option (result bytes ClientTransportError * Str) :=
  match fuel with
  | O => None
  | S fuel' =>
      if match aggregate_deadline with Some deadline => deadline <=? instant_now s | None => false end
      then Some (Err CteTimeout, s)
      else
        match read s RESPONSE_CHUNK with
        | (Ok chunk, s') =>
            if is_empty chunk then Some (Ok response, s')
            else if max_bytes <? blen response + blen chunk then Some (Err (CteResponseTooLarge max_bytes), s')
            else read_response_loop fuel' max_bytes aggregate_deadline s' (response ++ chunk)
        | (Err e, s') =>
            match io_kind e with
            | UnexpectedEof => Some (Ok response, s')
            | WouldBlock | TimedOut => Some (Err CteTimeout, s')
            | _ => Some (Err (io_or_handshake e), s')
            end
        end
  end.

(** Every read that goes on adds a byte, below the cap. *)
Definition read_response_bounded (max_bytes : Z) (aggregate_deadline : option Z) (s : Str)
  : option (result bytes ClientTransportError * Str) :=
  read_response_loop (Z.to_nat max_bytes + 2) max_bytes aggregate_deadline s [].
End ReadResponse.

(** ** Aggregate deadlines *)

(** [Instant::checked_add] under the largest instant of the platform. *)
Definition instant_checked_add (instant_max now t : Z) : option Z :=
  if now + t <=? instant_max then Some (now + t) else None.

(** [DeadlineStream] of both crates. *)
Record DeadlineStream (Str : Type) : Type := {
  ds_inner : Str;
  ds_deadline : option Z;
}.
Arguments ds_inner {Str} d.
Arguments ds_deadline {Str} d.

Section Deadline.
Context `{Read Str, Write Str, Clocked Str}.

(** [DeadlineStream::new] of tls.rs: an overflowing deadline has elapsed. *)
Definition server_deadline_stream (instant_max : Z) (inner : Str) (limits : ServerLimits) : DeadlineStream Str := {|
  ds_inner := inner;
  ds_deadline := (fun t => default (instant_now inner) (instant_checked_add instant_max (instant_now inner) t))
                 <$> request_deadline limits |}.

(** The deadline of [round_trip]: an overflowing one is dropped. *)
Definition client_deadline (instant_max : Z) (read_timeout : option Z) (now : Z) : option Z :=
  t ← read_timeout; instant_checked_add instant_max now t.

Definition check_deadline (d : DeadlineStream Str) : result unit IoError :=
  match ds_deadline d with
  | Some deadline => if deadline <=? instant_now (ds_inner d) then Err (io_error TimedOut) else Ok tt
  | None => Ok tt
  end.

#[export] Instance deadline_read : Read (DeadlineStream Str) := fun d n =>
  match check_deadline d with
  | Err e => (Err e, d)
  | Ok _ =>
      let (r, inner') := read (ds_inner d) n in
      (r, {| ds_inner := inner'; ds_deadline := ds_deadline d |})
  end.

(** [Write] of tls.rs: the deadline is for reads. *)
Definition server_deadline_write (d : DeadlineStream Str) (buf : bytes) : result Z IoError * DeadlineStream Str :=
  let (r, inner') := write (ds_inner d) buf in (r, {| ds_inner := inner'; ds_deadline := ds_deadline d |}).

(** [Write] of mcps-transport: the deadline is for both. *)
Definition client_deadline_write (d : DeadlineStream Str) (buf : bytes) : result Z IoError * DeadlineStream Str :=
  match check_deadline d with
  | Err e => (Err e, d)
  | Ok _ => server_deadline_write d buf
  end.

#[export] Instance deadline_clock : Clocked (DeadlineStream Str) := fun d => instant_now (ds_inner d).
End Deadline.

(** ** A round trip of the client *)

(** [ClientLimits], durations in the unit of the clock. *)
Record ClientLimits : Type := {
  connect_timeout : option Z;
  cl_read_timeout : option Z;
  cl_write_timeout : option Z;
  max_response_bytes : Z;
}.

Definition client_limits_default : ClientLimits := {|
  connect_timeout := Some 30; cl_read_timeout := Some 30; cl_write_timeout := Some 30; max_response_bytes := 16 * 1024 * 1024 |}.

(** The socket and the [rustls] client session: a session is made of a
    connection whose handshake is complete and the socket it ran over. *)
Class TlsClient (Tcp Conn Str : Type) := {
  tcp_connect : option Z -> result Tcp IoError;
  client_set_read_timeout : Tcp -> option Z -> result Tcp IoError;
  client_set_write_timeout : Tcp -> option Z -> result Tcp IoError;
  client_connection_new : option Conn;
  complete_io : Conn -> DeadlineStream Tcp -> result Conn IoError * DeadlineStream Tcp;
  stream_owned : Conn -> Tcp -> Str;
  client_write_all : Str -> bytes -> result unit IoError * Str;
  client_flush : Str -> result unit IoError * Str;
}.

Section RoundTrip.
Context `{Clocked Tcp, Read Str, Clocked Str} {Conn : Type} `{!TlsClient Tcp Conn Str}.

(** [stream.write_all(..).map_err(write_error)?]. *)
Definition sent (r : result unit IoError * Str) : result Str ClientTransportError :=
  match r with (Ok _, s) => Ok s | (Err e, _) => Err (write_error e) end.

(** The request, after the handshake. *)
Definition send_request (s : Str) (host : rstr) (request_body : bytes) : result Str ClientTransportError :=
  let? s := sent (client_write_all s (http_post host request_body)) in
  let? s := sent (client_write_all s request_body) in
  sent (client_flush s).

Definition mtls_handshake (instant_max : Z) (l : ClientLimits) : result Str ClientTransportError :=
  let? tcp := map_err CteIo (tcp_connect (connect_timeout l)) in
  let? tcp := map_err CteIo (client_set_read_timeout tcp (cl_read_timeout l)) in
  let? tcp := map_err CteIo (client_set_write_timeout tcp (cl_write_timeout l)) in
  let? conn := ok_or client_connection_new CteHandshake in
  let handshake_io := {| ds_inner := tcp; ds_deadline := client_deadline instant_max (cl_read_timeout l) (instant_now tcp) |} in
  match complete_io conn handshake_io with
  | (Err e, _) => Err (handshake_error e)
  | (Ok conn, io) => Ok (stream_owned conn (ds_inner io))
  end.

(** [MtlsClient::round_trip]; [None] is fuel exhausted in the reading. *)
Definition mtls_round_trip (instant_max : Z) (l : ClientLimits) (host : rstr) (request_body : bytes)
  : option (result bytes ClientTransportError) :=
  match mtls_handshake instant_max l with
  | Err e => Some (Err e)
  | Ok s =>
      match send_request s host request_body with
      | Err e => Some (Err e)
      | Ok s =>
          let read_deadline := client_deadline instant_max (cl_read_timeout l) (instant_now s) in
          '(response, _) ← read_response_bounded (max_response_bytes l) read_deadline s;
          Some (let? response := response in Ok (extract_body response))
      end
  end.
End RoundTrip.
