(* ===== verification/HttpTheorems.v ===== *)
(** * Framing is exact, bounded and total

    What one end writes the other reads, however the bytes are cut into
    chunks; what an arbitrary peer sends is read in bounded space and finitely
    many reads, and a header block that is accepted consists of
    CRLF-terminated lines and nothing else.  Sockets with timeouts and the
    deadline streams over them, for the time bounds of [Serve]. *)

From S2P Require Import Prelude Utf8 Errors Canonical CanonicalRound Strings Time Http.

(** ** Finding the end of the headers *)

Lemma starts_with_Some n hay : starts_with n hay = true <-> exists t, hay = n ++ t.
Proof.
  unfold starts_with. destruct (strip_prefix n hay) as [t|] eqn:E; split; try done.
  - intros _. apply strip_prefix_Some in E. eauto.
  - intros [t Ht]. apply strip_prefix_Some in Ht. congruence.
Qed.

Lemma starts_with_app n hay rest :
  (length n <= length hay)%nat -> starts_with n (hay ++ rest) = starts_with n hay.
Proof.
  intros Hl. apply eq_true_iff_eq. rewrite !starts_with_Some. split; intros [t E].
  - exists (drop (length n) hay). rewrite <- (take_drop (length n) hay) at 1. f_equal.
    by rewrite <- (take_app_le hay rest), E, take_app_length by done.
  - exists (t ++ rest). by rewrite E, app_assoc.
Qed.

Lemma window_position_bound n hay p : window_position n hay = Some p -> (p + length n <= length hay)%nat.
Proof.
  revert p. induction hay as [|h hay IH]; intros p; cbn.
  - destruct (starts_with n []) eqn:E; [|done]. intros [= <-]. apply starts_with_Some in E as [t E].
    symmetry in E. by apply app_nil in E as [-> _].
  - destruct (starts_with n (h :: hay)) eqn:E.
    + intros [= <-]. apply starts_with_Some in E as [t E].
      change (S (length hay)) with (length (h :: hay)). rewrite E, length_app. lia.
    + destruct (window_position n hay) as [q|]; [|done]. intros [= <-]. specialize (IH q eq_refl). lia.
Qed.

(** The first occurrence is already the first occurrence of every prefix that
    holds it, and of no shorter one. *)
Lemma window_position_prefix n hay rest p :
  n <> [] -> window_position n (hay ++ rest) = Some p ->
  window_position n hay = if (p + length n <=? length hay)%nat then Some p else None.
Proof.
  intros Hn. revert p. induction hay as [|h hay IH]; intros p Hp.
  - cbn [length]. destruct n as [|x n]; [done|]. cbn. by rewrite (proj2 (Nat.leb_gt _ _)) by lia.
  - cbn [app window_position] in Hp |- *. change (h :: hay ++ rest) with ((h :: hay) ++ rest) in Hp.
    destruct (Nat.leb_spec (length n) (length (h :: hay))) as [Hl|Hl].
    + rewrite (starts_with_app _ _ _ Hl) in Hp. destruct (starts_with n (h :: hay)) eqn:E.
      * simplify_eq. by rewrite (proj2 (Nat.leb_le _ _)) by (cbn [length] in *; lia).
      * destruct (window_position n (hay ++ rest)) as [q|] eqn:Eq; [|done]. cbn in Hp. simplify_eq. rewrite (IH q eq_refl).
        cbn [length Nat.add Nat.leb]. by destruct (_ <=? _)%nat.
    + assert (E : starts_with n (h :: hay) = false).
      { apply not_true_is_false. intros [t E]%starts_with_Some. apply (f_equal length) in E. rewrite length_app in E. lia. }
      rewrite E. assert (E' : window_position n hay = None).
      { destruct (window_position n hay) as [q|] eqn:Eq; [|done]. apply window_position_bound in Eq. cbn in Hl. lia. }
      rewrite E'. rewrite (proj2 (Nat.leb_gt _ _)); [done|]. lia.
Qed.

Lemma find_subsequence_window hay n : n <> [] -> find_subsequence hay n = window_position n hay.
Proof.
  intros Hn. unfold find_subsequence. destruct n as [|x n]; [done|]. cbn [is_empty orb].
  destruct (Nat.ltb_spec (length hay) (length (x :: n))) as [Hl|]; [|done].
  destruct (window_position _ hay) as [p|] eqn:E; [|done]. apply window_position_bound in E. lia.
Qed.

(** ** Streams that deliver *)
Section Streams.
Context `{RD : Read Str}.

(** Within [k] reads: while something is left of [d], a read of any positive
    size returns a part of it. *)
Fixpoint supplies_in (k : nat) (s : Str) (d : bytes) : Prop :=
  match k with
  | O => d = []
  | S k' => d = [] \/ forall n, (0 < n)%nat -> exists c d' s', read s n = (Ok c, s') /\ c <> [] /\
              (length c <= n)%nat /\ d = c ++ d' /\ supplies_in k' s' d'
  end.

(** The stream delivers [d], in chunks of any sizes. *)
Definition supplies (s : Str) (d : bytes) : Prop := exists k, supplies_in k s d.

Lemma supplies_read s d n :
  supplies s d -> d <> [] -> (0 < n)%nat ->
  exists c d' s', read s n = (Ok c, s') /\ c <> [] /\ (length c <= n)%nat /\ d = c ++ d' /\ supplies s' d'.
Proof.
  intros [k H] Hd Hn. destruct k as [|k]; [done|]. destruct H as [?|H]; [done|].
  destruct (H n Hn) as (c & d' & s' & ? & ? & ? & ? & ?). exists c, d', s'. split_and!; try done. by exists k.
Qed.

(** The loops read on until they have what they look for. *)
Lemma read_headers_supplies limits fuel s buf d p :
  supplies s d -> window_position HEADER_END (buf ++ d) = Some p -> Z.of_nat (p + 4) <= max_header_bytes limits + 1 ->
  (p + 4 - length buf < fuel)%nat ->
  exists buf' d' s', read_headers fuel limits s buf = Some (Ok (buf', p + 4)%nat, s') /\ buf ++ d = buf' ++ d' /\
    (p + 4 <= length buf')%nat /\ supplies s' d'.
Proof.
  intros Hs Hp Hmax. revert s buf d Hs Hp. induction fuel as [|fuel IH]; intros s buf d Hs Hp Hf; [lia|].
  cbn [read_headers]. rewrite find_subsequence_window by done. pose proof (window_position_prefix HEADER_END buf d p ltac:(done) Hp) as E.
  rewrite E. cbn [HEADER_END length]. destruct (Nat.leb_spec (p + 4) (length buf)) as [Hle|Hgt].
  - exists buf, d, s. by split_and!.
  - rewrite (proj2 (Z.ltb_ge _ _)) by (unfold blen; lia).
    assert (Hd : d <> []).
    { intros ->. rewrite app_nil_r in Hp. apply window_position_bound in Hp. cbn in Hp. lia. }
    destruct (supplies_read s d 1024 Hs Hd ltac:(lia)) as (c & d' & s' & -> & Hc & _ & -> & Hs').
    destruct c as [|x c]; [done|]. cbn [is_empty]. rewrite app_assoc in Hp |- *.
    apply IH; try done. rewrite length_app. cbn. lia.
Qed.

Lemma read_body_supplies limits fuel s body d n :
  supplies s d -> (n <= length (body ++ d))%nat -> Z.of_nat n <= max_body_bytes limits -> (n - length body < fuel)%nat ->
  exists body' s', read_body fuel limits s body (Z.of_nat n) = Some (Ok body', s') /\ take n body' = take n (body ++ d).
Proof.
  intros Hs Hn Hmax. revert s body d Hs Hn. induction fuel as [|fuel IH]; intros s body d Hs Hn Hf; [lia|].
  cbn [read_body]. unfold blen. destruct (Z.ltb_spec (Z.of_nat (length body)) (Z.of_nat n)) as [Hlt|Hge]; cbn [negb].
  - rewrite (proj2 (Z.ltb_ge _ _)) by lia. assert (Hd : d <> []) by (intros ->; rewrite app_nil_r in Hn; lia).
    destruct (supplies_read s d 1024 Hs Hd ltac:(lia)) as (c & d' & s' & -> & Hc & _ & -> & Hs').
    destruct c as [|x c]; [done|]. cbn [is_empty]. rewrite app_assoc in Hn |- *.
    apply IH; try done. rewrite length_app. cbn. lia.
  - exists body, s. split; [done|]. by rewrite take_app_le by lia.
Qed.

(** A request whose header text is sound is read back, whatever the chunks. *)
Lemma read_http_request_supplies limits s hdr body p :
  supplies s (hdr ++ body) -> window_position HEADER_END (hdr ++ body) = Some p -> length hdr = (p + 4)%nat ->
  blen hdr <= max_header_bytes limits -> blen body <= max_body_bytes limits ->
  reject_malformed_header_framing hdr = Ok tt -> parse_content_length (from_utf8_lossy hdr) = Some (blen body) ->
  exists s', read_http_request limits s = Some (Ok {| header_block := from_utf8_lossy hdr; http_body := body |}, s').
Proof.
  intros Hs Hp Hl Hh Hb Hf Hc. unfold read_http_request, blen in *.
  assert (Hlz : Z.of_nat (p + 4) <= max_header_bytes limits + 1) by lia. assert (Hfu : (p + 4 - 0 < Z.to_nat (max_header_bytes limits) + 2)%nat) by lia.
  destruct (read_headers_supplies limits (Z.to_nat (max_header_bytes limits) + 2) s [] (hdr ++ body) p Hs Hp Hlz Hfu)
    as (buf & d & s1 & -> & E & Hle & Hs1). cbn [mbind option_bind app] in *.
  assert (Ht : take (p + 4) buf = hdr).
  { rewrite <- (take_app_le buf d) by lia. by rewrite <- E, <- Hl, take_app_length. }
  assert (Hd : drop (p + 4) buf ++ d = body).
  { rewrite <- drop_app_le by lia. rewrite <- E. by rewrite <- Hl, drop_app_length. }
  rewrite Ht, Hf, Hc. cbn [from_option id]. rewrite (proj2 (Z.ltb_ge _ _)) by done. rewrite Nat2Z.id.
  destruct (read_body_supplies limits (length body + 1) s1 (drop (p + 4) buf) d (length body) Hs1) as (body' & s2 & -> & Et);
    rewrite ?Hd; try lia. cbn [mbind option_bind]. rewrite Et, Hd, take_ge by lia. by exists s2.
Qed.
End Streams.

(** ** Header text *)

(** A line of header text: ASCII, no line break. *)
Definition header_text (line : rstr) : Prop := Forall (fun c => 32 <= c < 127) line.

Definition starts_visibly (line : rstr) : Prop := exists c t, line = c :: t /\ c <> 32.

(** Lines and the empty line, as both ends write them. *)
Definition header_of (lines : list rstr) : rstr := mjoin ((fun l => l ++ [13; 10]) <$> lines) ++ [13; 10].

Lemma window_skip c l : c <> 13 -> window_position HEADER_END (c :: l) = S <$> window_position HEADER_END l.
Proof. intros Hc. cbn [window_position]. unfold starts_with. cbn [HEADER_END strip_prefix]. by rewrite (proj2 (Z.eqb_neq 13 c)) by done. Qed.

Lemma window_text line l :
  header_text line -> window_position HEADER_END (line ++ l) = (fun p => length line + p)%nat <$> window_position HEADER_END l.
Proof.
  induction 1 as [|c line Hc _ IH]; cbn [app length Nat.add]; [by destruct (window_position _ l)|].
  rewrite window_skip, IH by lia. by destruct (window_position _ l).
Qed.

Lemma window_break x l :
  x <> 13 -> window_position HEADER_END (13 :: 10 :: x :: l) = (fun p => 2 + p)%nat <$> window_position HEADER_END (x :: l).
Proof.
  intros Hx. assert (E : starts_with HEADER_END (13 :: 10 :: x :: l) = false).
  { unfold starts_with. cbn [HEADER_END strip_prefix]. by rewrite (proj2 (Z.eqb_neq 13 x)) by done. }
  assert (E' : window_position HEADER_END (13 :: 10 :: x :: l) = S <$> window_position HEADER_END (10 :: x :: l)).
  { change (window_position HEADER_END (13 :: 10 :: x :: l)) with
      (if starts_with HEADER_END (13 :: 10 :: x :: l) then Some 0%nat else S <$> window_position HEADER_END (10 :: x :: l)).
    by rewrite E. }
  rewrite E', (window_skip 10) by done. by destruct (window_position HEADER_END (x :: l)).
Qed.

Lemma framing_text prev line l :
  header_text line -> exists prev', framing_loop prev (line ++ l) = framing_loop prev' l.
Proof.
  intros H. revert prev. induction H as [|c line Hc _ IH]; intros prev; cbn [app]; [by exists prev|].
  destruct (IH (Some c)) as [prev' E]. exists prev'. cbn [framing_loop].
  rewrite (proj2 (Z.eqb_neq c 13)), (proj2 (Z.eqb_neq c 10)) by lia. exact E.
Qed.

Lemma framing_break prev x l :
  x <> 32 -> x <> 9 -> framing_loop prev (13 :: 10 :: x :: l) = framing_loop (Some 10) (x :: l).
Proof.
  intros H1 H2. cbn [framing_loop head]. cbn [Z.eqb Pos.eqb andb]. rewrite !bool_decide_eq_true_2 by done.
  by rewrite !bool_decide_eq_false_2 by congruence.
Qed.

Lemma lines_text part line rest :
  header_text line -> lines_from part (line ++ 13 :: 10 :: rest) = (part ++ line) :: lines_from [] rest.
Proof.
  intros H. revert part. induction H as [|c line Hc _ IH]; intros part; cbn [app lines_from].
  - cbn [Z.eqb Pos.eqb]. rewrite app_nil_r. assert (E : strip_suffix [13] (part ++ [13]) = Some part) by (by apply strip_suffix_Some).
    by rewrite E.
  - rewrite (proj2 (Z.eqb_neq c 10)) by lia. rewrite IH. by rewrite <- app_assoc.
Qed.

Lemma header_of_cons l ls : header_of (l :: ls) = l ++ 13 :: 10 :: header_of ls.
Proof. unfold header_of. cbn. by rewrite <- !app_assoc. Qed.

Lemma header_of_lines ls : Forall header_text ls -> str_lines (header_of ls) = ls ++ [[]].
Proof. unfold str_lines. induction 1 as [|l ls Hl _ IH]; [done|]. rewrite header_of_cons, lines_text by done. cbn. by rewrite IH. Qed.

(** What follows a line break starts a line or is the last break. *)
Lemma header_of_head ls : Forall header_text ls -> Forall starts_visibly ls ->
  exists x t, header_of ls = x :: t /\ x <> 32 /\ x <> 9 /\ (ls <> [] -> x <> 13).
Proof.
  intros H Hv. destruct ls as [|l ls]; [exists 13, [10]; by split_and!|].
  apply Forall_cons in Hv as [(c & t & -> & Hc) _]. apply Forall_cons in H as [H _]. apply Forall_cons in H as [H _].
  rewrite header_of_cons. exists c. eexists. split; [reflexivity|]. split_and!; [done|lia|intros _; lia].
Qed.

Lemma header_of_framing ls : Forall header_text ls -> Forall starts_visibly ls ->
  forall prev, framing_loop prev (header_of ls) = Ok tt.
Proof.
  intros H Hv. induction H as [|l ls Hl Hls IH]; intros prev; [reflexivity|]. apply Forall_cons in Hv as [_ Hv].
  rewrite header_of_cons. destruct (framing_text prev l (13 :: 10 :: header_of ls) Hl) as [prev' ->].
  destruct (header_of_head ls Hls Hv) as (x & t & E & H1 & H2 & _). rewrite E, framing_break by done. rewrite <- E. by apply IH.
Qed.

Lemma header_of_window ls body : Forall header_text ls -> Forall starts_visibly ls -> ls <> [] ->
  exists p, window_position HEADER_END (header_of ls ++ body) = Some p /\ length (header_of ls) = (p + 4)%nat.
Proof.
  intros H Hv. induction H as [|l ls Hl Hls IH]; [done|]. intros _. apply Forall_cons in Hv as [_ Hv].
  rewrite header_of_cons, <- app_assoc. cbn [app]. rewrite window_text by done. destruct ls as [|l' ls].
  { cbn. eexists. split; [reflexivity|]. rewrite length_app. cbn. lia. }
  destruct (header_of_head _ Hls Hv) as (x & t & E & _ & _ & Hx).
  destruct (IH Hv ltac:(done)) as (p & Hp & Hlen). rewrite E in Hp, Hlen |- *. cbn [app] in *.
  rewrite window_break by auto. rewrite Hp. cbn. eexists. split; [reflexivity|]. rewrite length_app. cbn in *. lia.
Qed.

Lemma header_of_ascii ls : Forall header_text ls -> Forall (fun c => 0 <= c < 128) (header_of ls).
Proof.
  unfold header_of. intros H. apply Forall_app. split; [|repeat constructor; lia].
  induction H as [|l ls Hl _ IH]; [constructor|]. cbn. rewrite <- app_assoc. apply Forall_app. split.
  - eapply Forall_impl; [exact Hl|]. cbn. lia.
  - constructor; [lia|]. constructor; [lia|]. exact IH.
Qed.

(** ** Lossy decoding *)


(** ASCII bytes stand for themselves and everything else decodes to characters
    beyond ASCII, so a decoder moves no line break. *)
Inductive keeps_ascii : bytes -> rstr -> Prop :=
| keeps_nil : keeps_ascii [] []
| keeps_byte b bs s : in_range 0 127 b = true -> keeps_ascii bs s -> keeps_ascii (b :: bs) (b :: s)
| keeps_other seg c bs s : seg <> [] -> Forall (fun b => in_range 0 127 b = false) seg -> 127 < c ->
    keeps_ascii bs s -> keeps_ascii (seg ++ bs) (c :: s).

Ltac in_ranges := unfold second_of_3, second_of_4, is_cont, in_range, REPLACEMENT in *; breflect.

Lemma not_ascii b : 127 < b -> in_range 0 127 b = false.
Proof. intros H. unfold in_range. by zguard. Qed.

Lemma second_of_3_range b0 b1 : second_of_3 b0 b1 = true -> 0x80 <= b1 <= 0xBF.
Proof. unfold second_of_3. destruct (b0 =? 0xE0), (b0 =? 0xED); in_ranges; lia. Qed.

Lemma second_of_4_range b0 b1 : second_of_4 b0 b1 = true -> 0x80 <= b1 <= 0xBF.
Proof. unfold second_of_4. destruct (b0 =? 0xF0), (b0 =? 0xF4); in_ranges; lia. Qed.

Lemma keeps_one b bs s c : in_range 0 127 b = false -> 127 < c -> keeps_ascii bs s -> keeps_ascii (b :: bs) (c :: s).
Proof. intros Hb Hc H. by apply (keeps_other [b]); [done|repeat constructor|..]. Qed.

Lemma lossy_keeps_ascii bs : keeps_ascii bs (from_utf8_lossy bs).
Proof.
  remember (length bs) as n eqn:E. revert bs E. induction n as [n IH] using lt_wf_ind. intros bs ->.
  assert (IHs : forall t, (length t < length bs)%nat -> keeps_ascii t (from_utf8_lossy t)) by (intros; by eapply IH).
  clear IH. destruct bs as [|b0 r0]; [constructor|]. cbn [length] in IHs. cbn [from_utf8_lossy].
  destruct (in_range 0 0x7F b0) eqn:E0; [constructor; [done|apply IHs; lia]|].
  assert (HR : 127 < REPLACEMENT) by (by apply Z.ltb_lt).
  assert (Hrep : keeps_ascii (b0 :: r0) (REPLACEMENT :: from_utf8_lossy r0)) by (apply keeps_one; [done..|apply IHs; lia]).
  destruct (in_range 0xC2 0xDF b0) eqn:E2.
  { destruct r0 as [|b1 r1]; [done|]. destruct (is_cont b1) eqn:C1; [|done].
    apply (keeps_other [b0; b1]); [done| |in_ranges; lia|apply IHs; cbn; lia].
    repeat constructor; [done|]. apply not_ascii. in_ranges. lia. }
  destruct (in_range 0xE0 0xEF b0) eqn:E3.
  { destruct r0 as [|b1 r1]; [done|]. destruct (second_of_3 b0 b1) eqn:C1; [|done]. apply second_of_3_range in C1 as C1'.
    assert (N1 : in_range 0 127 b1 = false) by (apply not_ascii; lia).
    destruct r1 as [|b2 r2]; [apply (keeps_other [b0; b1] _ []); [done|by repeat constructor|done|constructor]|].
    destruct (is_cont b2) eqn:C2.
    - apply (keeps_other [b0; b1; b2]); [done| | |apply IHs; cbn; lia].
      + repeat constructor; [done..|]. apply not_ascii. in_ranges. lia.
      + clear Hrep IHs. unfold second_of_3 in C1. destruct (Z.eqb_spec b0 0xE0); in_ranges; lia.
    - apply (keeps_other [b0; b1]); [done|by repeat constructor|done|apply IHs; cbn; lia]. }
  destruct (in_range 0xF0 0xF4 b0) eqn:E4; [|done].
  destruct r0 as [|b1 r1]; [done|]. destruct (second_of_4 b0 b1) eqn:C1; [|done]. apply second_of_4_range in C1 as C1'.
  assert (N1 : in_range 0 127 b1 = false) by (apply not_ascii; lia).
  destruct r1 as [|b2 r2]; [apply (keeps_other [b0; b1] _ []); [done|by repeat constructor|done|constructor]|].
  destruct (is_cont b2) eqn:C2; [|apply (keeps_other [b0; b1]); [done|by repeat constructor|done|apply IHs; cbn; lia]].
  assert (N2 : in_range 0 127 b2 = false) by (apply not_ascii; in_ranges; lia).
  destruct r2 as [|b3 r3]; [apply (keeps_other [b0; b1; b2] _ []); [done|by repeat constructor|done|constructor]|].
  destruct (is_cont b3) eqn:C3; [|apply (keeps_other [b0; b1; b2]); [done|by repeat constructor|done|apply IHs; cbn; lia]].
  apply (keeps_other [b0; b1; b2; b3]); [done| | |apply IHs; cbn; lia].
  - repeat constructor; [done..|]. apply not_ascii. in_ranges. lia.
  - clear Hrep IHs. unfold second_of_4 in C1. destruct (Z.eqb_spec b0 0xF0); in_ranges; lia.
Qed.

(** ASCII text decodes to itself. *)
Lemma lossy_ascii s : Forall (fun c => 0 <= c < 128) s -> from_utf8_lossy s = s.
Proof.
  induction 1 as [|c s Hc _ IH]; [done|]. cbn. assert (E : in_range 0 127 c = true) by (unfold in_range; by zguard).
  by rewrite E, IH.
Qed.

(** ** Accepted header blocks are lines and nothing else *)

Lemma keeps_head bs s c : keeps_ascii bs s -> 0 <= c <= 127 -> (head bs = Some c <-> head s = Some c).
Proof.
  intros H Hc. destruct H as [|b bs s Hb _|seg d bs s Hne Hseg Hd _]; [done|done|].
  destruct seg as [|x seg]; [done|]. inversion Hseg as [|? ? Hx _]; subst. cbn. split; intros [= ->]; [|lia].
  in_ranges. unfold in_range in Hx. zguard. exfalso. revert Hx. by zguard.
Qed.

Lemma framing_other prev b l : 127 < b \/ b < 0 -> framing_loop prev (b :: l) = framing_loop (Some b) l.
Proof. intros H. cbn [framing_loop]. by rewrite (proj2 (Z.eqb_neq b 13)), (proj2 (Z.eqb_neq b 10)) by lia. Qed.

Lemma framing_segment seg prev l :
  Forall (fun b => in_range 0 127 b = false) seg -> seg <> [] ->
  exists b, (127 < b \/ b < 0) /\ framing_loop prev (seg ++ l) = framing_loop (Some b) l.
Proof.
  intros H. revert prev. induction H as [|b seg Hb Hs IH]; intros prev Hne; [done|].
  assert (R : 127 < b \/ b < 0). { unfold in_range in Hb. apply andb_false_iff in Hb as [Hb|Hb]; breflect; lia. }
  cbn [app]. rewrite framing_other by done. destruct seg as [|b' seg]; [by exists b|]. by apply IH.
Qed.

Lemma keeps_framing bs s : keeps_ascii bs s -> forall prev prev', (prev = Some 13 <-> prev' = Some 13) ->
  framing_loop prev bs = Ok tt -> framing_loop prev' s = Ok tt.
Proof.
  induction 1 as [|b bs s Hb Hk IH|seg c bs s Hne Hseg Hc Hk IH]; intros prev prev' Hp Hf; [done| |].
  - cbn [framing_loop] in *. rewrite <- (bool_decide_ext _ _ (keeps_head bs s 10 Hk ltac:(lia))), <- (bool_decide_ext _ _ (keeps_head bs s 32 Hk ltac:(lia))),
      <- (bool_decide_ext _ _ (keeps_head bs s 9 Hk ltac:(lia))).
    rewrite <- (bool_decide_ext _ _ Hp). destruct (_ && _); [done|]. destruct (_ && _); [done|]. destruct (_ && _); [done|].
    by eapply IH.
  - destruct (framing_segment seg prev bs Hseg Hne) as (b & Hb & E). rewrite E in Hf. rewrite framing_other by lia.
    eapply IH; [|exact Hf]. split; intros [= ?]; lia.
Qed.

Lemma framing_crlf prev s :
  framing_loop prev (13 :: 10 :: s) = Ok tt -> head s <> Some 32 /\ head s <> Some 9 /\ framing_loop (Some 10) s = Ok tt.
Proof.
  cbn [framing_loop head]. rewrite !bool_decide_eq_true_2 by done. cbn [negb]. rewrite !andb_false_r.
  change (13 =? 10) with false. change (10 =? 13) with false. change (10 =? 10) with true. cbn [andb].
  destruct (bool_decide_reflect (head s = Some 32)); [done|]. by destruct (bool_decide_reflect (head s = Some 9)).
Qed.

Definition clean_line (l : rstr) : Prop := (13 ∉ l) /\ (10 ∉ l).

(** Not a continuation of the line before. *)
Definition not_folded (l : rstr) : Prop := head l <> Some 32 /\ head l <> Some 9.

Definition crlf_lines (lines : list rstr) : rstr := mjoin ((fun l => l ++ [13; 10]) <$> lines).

Lemma crlf_lines_cons l ls : crlf_lines (l :: ls) = l ++ 13 :: 10 :: crlf_lines ls.
Proof. unfold crlf_lines. cbn. by rewrite <- app_assoc. Qed.

Lemma framed_lines s part prev :
  framing_loop prev s = Ok tt -> prev <> Some 13 -> last s = Some 10 -> clean_line part ->
  Forall clean_line (lines_from part s) /\ part ++ s = crlf_lines (lines_from part s) /\
  Forall not_folded (tail (lines_from part s)).
Proof.
  remember (length s) as n eqn:E. revert s part prev E. induction n as [n IH] using lt_wf_ind. intros s part prev -> Hf Hp Hl Hc.
  destruct s as [|c s]; [done|]. destruct (Z.eqb_spec c 13) as [->|H13].
  - assert (Hh : head s = Some 10).
    { cbn [framing_loop] in Hf. by destruct (bool_decide_reflect (head s = Some 10)). }
    destruct s as [|d s]; [done|]. cbn [head] in Hh. injection Hh as ->. apply framing_crlf in Hf as (Ho1 & Ho2 & Hf).
    change (lines_from part (13 :: 10 :: s)) with
      (match strip_suffix [13] (part ++ [13]) with Some line => line | None => part ++ [13] end :: lines_from [] s).
    assert (Es : strip_suffix [13] (part ++ [13]) = Some part) by (by apply strip_suffix_Some).
    rewrite Es. destruct s as [|x s].
    { refine (conj _ (conj _ _)); [by apply Forall_singleton| |constructor]. unfold crlf_lines. cbn. by rewrite app_nil_r. }
    destruct (IH (length (x :: s)) ltac:(cbn; lia) (x :: s) [] (Some 10) eq_refl Hf ltac:(done) Hl ltac:(split; apply not_elem_of_nil))
      as (I1 & I2 & I3). split_and!; [by constructor| |].
    + by rewrite crlf_lines_cons, <- I2.
    + cbn [tail]. destruct (lines_from [] (x :: s)) as [|l0 ls]; [constructor|]. constructor; [|done].
      unfold not_folded. destruct l0 as [|y l0]; [done|]. cbn in I2. injection I2 as -> _. done.
  - cbn [framing_loop] in Hf. rewrite (proj2 (Z.eqb_neq c 13)) in Hf by done. cbn [andb] in Hf. destruct (Z.eqb_spec c 10) as [->|H10].
    { rewrite bool_decide_eq_false_2 in Hf by done. done. }
    cbn [andb] in Hf. cbn [lines_from]. rewrite (proj2 (Z.eqb_neq c 10)) by done.
    destruct s as [|d s]; [cbn in Hl; congruence|].
    destruct (IH (length (d :: s)) ltac:(cbn; lia) (d :: s) (part ++ [c]) (Some c) eq_refl Hf ltac:(congruence) Hl) as (I1 & I2 & I3).
    { destruct Hc. split; intros [|?%list_elem_of_singleton]%elem_of_app; congruence. }
    split_and!; [done| |done]. by rewrite <- I2, <- app_assoc.
Qed.

Lemma keeps_last bs s : keeps_ascii bs s -> last bs = Some 10 -> last s = Some 10.
Proof.
  induction 1 as [|b bs s Hb Hk IH|seg c bs s Hne Hseg Hc Hk IH]; [done|..].
  - destruct bs as [|b' bs].
    + inversion Hk as [| |seg c bs' s' Hne Hs Hc Hk' E1]; subst; [done|]. by destruct seg.
    + intros Hl. cbn in Hl. specialize (IH Hl). by destruct s.
  - destruct bs as [|b' bs].
    + rewrite app_nil_r. intros Hl. exfalso. apply last_Some_elem_of in Hl. eapply (Forall_forall _ seg) in Hseg; [|exact Hl]. done.
    + rewrite last_app_cons. intros Hl. specialize (IH Hl). by destruct s.
Qed.

Lemma window_position_split n hay p :
  window_position n hay = Some p -> exists t, hay = take p hay ++ n ++ t.
Proof.
  revert p. induction hay as [|h hay IH]; intros p; cbn [window_position].
  - destruct (starts_with n []) eqn:E; [|done]. intros [= <-]. by apply starts_with_Some in E.
  - destruct (starts_with n (h :: hay)) eqn:E; [intros [= <-]; by apply starts_with_Some in E|].
    destruct (window_position n hay) as [q|]; [|done]. intros [= <-]. destruct (IH q eq_refl) as [t Et]. exists t. cbn. by rewrite <- Et.
Qed.

Lemma content_length_range block n : parse_content_length block = Some n -> 0 <= n <= U64_MAX.
Proof.
  unfold parse_content_length. induction (str_lines block) as [|l ls IH]; cbn; [done|].
  destruct (split_once 58 l) as [[name value]|]; [|done]. destruct (eq_ignore_ascii_case _ _); [|done]. apply parse_unsigned_range.
Qed.

(** ** Any peer *)
Section AnyPeer.
Context `{RD : Read Str, RL : !ReadLaws Str}.

(** The header loop stops: each read that goes on adds a byte below the cap. *)
Lemma read_headers_total limits fuel s buf :
  0 <= max_header_bytes limits -> (Z.to_nat (max_header_bytes limits) + 1 - length buf < fuel)%nat ->
  blen buf <= max_header_bytes limits + 1024 ->
  exists r s', read_headers fuel limits s buf = Some (r, s') /\
    forall b n, r = Ok (b, n) -> exists p, n = (p + 4)%nat /\ window_position HEADER_END b = Some p /\
      blen b <= max_header_bytes limits + 1024.
Proof.
  intros Hm. revert s buf. induction fuel as [|fuel IH]; intros s buf Hf Hb; [lia|]. cbn [read_headers].
  rewrite find_subsequence_window by done. destruct (window_position HEADER_END buf) as [p|] eqn:Ep.
  { do 2 eexists. split; [done|]. intros b n [= <- <-]. by exists p. }
  destruct (Z.ltb_spec (max_header_bytes limits) (blen buf)) as [|Hle]; [by do 2 eexists|].
  destruct (read s 1024) as [[c|e] s'] eqn:Er; [|by do 2 eexists]. apply read_at_most in Er.
  destruct c as [|x c]; [by do 2 eexists|]. cbn [is_empty]. unfold blen in *.
  apply IH; rewrite length_app; cbn [length] in *; lia.
Qed.

Lemma read_body_total limits fuel s body n :
  (Z.to_nat n - length body < fuel)%nat ->
  exists r s', read_body fuel limits s body n = Some (r, s').
Proof.
  revert s body. induction fuel as [|fuel IH]; intros s body Hf; [lia|]. cbn [read_body].
  destruct (Z.ltb_spec (blen body) n) as [Hlt|]; cbn [negb]; [|by do 2 eexists]. destruct (_ <? _); [by do 2 eexists|].
  destruct (read s 1024) as [[c|e] s'] eqn:Er; [|by do 2 eexists].
  destruct c as [|x c]; [by do 2 eexists|]. cbn [is_empty]. apply IH. unfold blen in *. rewrite length_app. cbn [length]. lia.
Qed.

(** What is known of an accepted request. *)
Definition sound_request (limits : ServerLimits) (q : HttpRequest) : Prop :=
  blen (http_body q) <= default 0 (parse_content_length (header_block q)) <= max_body_bytes limits /\
  (exists hb, header_block q = from_utf8_lossy hb /\ blen hb <= max_header_bytes limits + 1024) /\
  header_block q = crlf_lines (str_lines (header_block q)) /\ Forall clean_line (str_lines (header_block q)) /\
  Forall not_folded (tail (str_lines (header_block q))).

Lemma framed_block hb p b :
  window_position HEADER_END b = Some p -> hb = take (p + 4) b -> reject_malformed_header_framing hb = Ok tt ->
  let block := from_utf8_lossy hb in
  block = crlf_lines (str_lines block) /\ Forall clean_line (str_lines block) /\ Forall not_folded (tail (str_lines block)).
Proof.
  intros Hp -> Hf. pose proof (window_position_bound _ _ _ Hp) as Hb. cbn in Hb.
  apply window_position_split in Hp as [t Et].
  assert (El : last (take (p + 4) b) = Some 10).
  { rewrite Et, take_app_ge by (rewrite length_take; lia). rewrite length_take.
    replace (p + 4 - Nat.min p (length b))%nat with 4%nat by lia. by rewrite last_app. }
  pose proof (lossy_keeps_ascii (take (p + 4) b)) as K. pose proof (keeps_framing _ _ K None None ltac:(done) Hf) as F.
  destruct (framed_lines _ [] None F ltac:(done) (keeps_last _ _ K El)) as (H1 & H2 & H3); [split; apply not_elem_of_nil|]. done.
Qed.

Lemma read_http_request_sound limits s :
  0 <= max_header_bytes limits -> 0 <= max_body_bytes limits ->
  exists r s', read_http_request limits s = Some (r, s') /\ forall q, r = Ok q -> sound_request limits q.
Proof.
  intros Hh Hb. unfold read_http_request.
  destruct (read_headers_total limits (Z.to_nat (max_header_bytes limits) + 2) s []) as (r & s1 & -> & Hr);
    [done|cbn; lia|unfold blen; cbn; lia|]. cbn [mbind option_bind]. destruct r as [[b n]|e]; [|by do 2 eexists].
  destruct (Hr b n eq_refl) as (p & -> & Hp & Hlen). set (hb := take (p + 4) b).
  destruct (reject_malformed_header_framing hb) as [[]|e] eqn:Ef; [|by do 2 eexists].
  destruct (Z.ltb_spec (max_body_bytes limits) (default 0 (parse_content_length (from_utf8_lossy hb)))) as [|Hle]; [by do 2 eexists|].
  set (n := default 0 _) in *.
  destruct (read_body_total limits (Z.to_nat n + 1) s1 (drop (p + 4) b) n ltac:(lia)) as (r & s2 & ->). cbn [mbind option_bind].
  do 2 eexists. split; [done|]. destruct r as [body|e]; [|done]. intros q [= <-].
  split; cbn [http_body header_block].
  - fold n. split; [|done]. unfold blen. rewrite length_take. unfold n.
    destruct (parse_content_length (from_utf8_lossy hb)) as [m|] eqn:Em; cbn; [|lia].
    apply content_length_range in Em. lia.
  - split; [|by eapply framed_block]. exists hb. split; [done|]. unfold hb, blen in *. rewrite length_take. lia.
Qed.
End AnyPeer.

(** ** The client's side *)
Section Client.
Context `{RD : Read Str, CK : Clocked Str}.

Definition before (deadline : option Z) (s : Str) : Prop := forall d, deadline = Some d -> instant_now s < d.

(** The end of the response, with or without a TLS close. *)
Definition at_eof (s : Str) : Prop := forall n, exists s',
  read s n = (Ok [], s') \/ exists e, read s n = (Err e, s') /\ io_kind e = UnexpectedEof.

(** The stream delivers [d] and then ends, all of it before the deadline. *)
Fixpoint closes_in (deadline : option Z) (k : nat) (s : Str) (d : bytes) : Prop :=
  before deadline s /\
  match k with
  | O => d = [] /\ at_eof s
  | S k' => d = [] /\ at_eof s \/ forall n, (0 < n)%nat -> exists c d' s', read s n = (Ok c, s') /\ c <> [] /\
              (length c <= n)%nat /\ d = c ++ d' /\ closes_in deadline k' s' d'
  end.

Lemma read_response_closes max deadline fuel k s d buf :
  closes_in deadline k s d -> blen (buf ++ d) <= max -> (length d < fuel)%nat ->
  exists s', read_response_loop fuel max deadline s buf = Some (Ok (buf ++ d), s').
Proof.
  revert k s d buf. induction fuel as [|fuel IH]; intros k s d buf Hk Hm Hf; [lia|]. cbn [read_response_loop].
  assert (Hb : before deadline s) by (by destruct k; destruct Hk).
  assert (Ed : match deadline with Some dl => dl <=? instant_now s | None => false end = false).
  { destruct deadline as [dl|]; [|done]. apply Z.leb_gt. by apply Hb. }
  rewrite Ed.
  assert (Hcase : (d = [] /\ at_eof s) \/ exists k' c d' s', read s RESPONSE_CHUNK = (Ok c, s') /\ c <> [] /\ d = c ++ d' /\ closes_in deadline k' s' d').
  { destruct k as [|k]; destruct Hk as [_ Hk]; [by left|]. destruct Hk as [?|Hk]; [by left|right].
    destruct (Hk RESPONSE_CHUNK ltac:(by apply Nat.ltb_lt)) as (c & d' & s' & ? & ? & _ & ? & ?). by exists k, c, d', s'. }
  destruct Hcase as [[-> He]|(k' & c & d' & s' & -> & Hc & -> & Hk')].
  - rewrite app_nil_r. destruct (He RESPONSE_CHUNK) as (s' & [->|(e & -> & ->)]); by exists s'.
  - destruct c as [|x c]; [done|]. cbn [is_empty]. unfold blen in *. rewrite !length_app in Hm.
    rewrite (proj2 (Z.ltb_ge _ _)) by (cbn [length] in *; lia). rewrite app_assoc.
    eapply IH; [exact Hk'| |rewrite length_app in Hf; cbn in Hf; lia]. rewrite !length_app. cbn [length] in *. lia.
Qed.
End Client.

(** ** Both ends *)

Lemma header_text_lit s : forallb (fun c => (32 <=? c) && (c <? 127)) s = true -> header_text s.
Proof. intros H. apply forallb_Forall_true in H. eapply Forall_impl; [exact H|]. cbn. intros c Hc. breflect. lia. Qed.

Lemma header_text_app s t : header_text s -> header_text t -> header_text (s ++ t).
Proof. intros. by apply Forall_app. Qed.

Lemma header_text_number n : 0 <= n -> header_text (display_unsigned n).
Proof.
  intros Hn. destruct (display_unsigned_spec n Hn) as [(_ & Hd & _) _].
  eapply Forall_impl; [exact Hd|]. intros c. cbn. rewrite is_ascii_digit_spec. lia.
Qed.

Ltac solve_header_text :=
  match goal with
  | |- header_text (_ ++ _) => apply header_text_app; solve_header_text
  | |- header_text (display_unsigned _) => apply header_text_number; unfold blen; lia
  | _ => first [assumption | apply header_text_lit; vm_compute; reflexivity]
  end.

Definition post_lines (host : rstr) (body : bytes) : list rstr :=
  [str "POST / HTTP/1.1"; str "Host: " ++ host; str "Content-Length: " ++ display_unsigned (blen body); str "Connection: close"].

Definition reply_lines (body : bytes) : list rstr :=
  [str "HTTP/1.1 200 OK"; str "Content-Type: application/json"; str "Content-Length: " ++ display_unsigned (blen body);
   str "Connection: close"].

Lemma post_lines_text host body : header_text host -> Forall header_text (post_lines host body) /\ Forall starts_visibly (post_lines host body).
Proof.
  intros Hh. split; unfold post_lines; rewrite !Forall_cons, Forall_nil; split_and!; try done; try solve_header_text;
    do 2 eexists; split; done.
Qed.

Lemma reply_lines_text body : Forall header_text (reply_lines body) /\ Forall starts_visibly (reply_lines body).
Proof.
  split; unfold reply_lines; rewrite !Forall_cons, Forall_nil; split_and!; try done; try solve_header_text;
    do 2 eexists; split; done.
Qed.

(** The texts are header lines; bytes and characters agree. *)
Lemma http_post_header host body : header_text host -> http_post host body = header_of (post_lines host body).
Proof.
  intros Hh. pose proof (header_of_ascii _ (proj1 (post_lines_text host body Hh))) as Ha.
  assert (E : header_of (post_lines host body) = str "POST / HTTP/1.1" ++ [13; 10] ++ str "Host: " ++ host ++ [13; 10] ++
    str "Content-Length: " ++ display_unsigned (blen body) ++ [13; 10] ++ str "Connection: close" ++ [13; 10; 13; 10]).
  { unfold header_of, post_lines. cbn [fmap list_fmap mjoin list_join]. by rewrite <- !app_assoc. }
  unfold http_post. rewrite <- E. by apply as_bytes_ascii.
Qed.

Lemma http_response_header body : http_response body = header_of (reply_lines body) ++ body.
Proof.
  pose proof (header_of_ascii _ (proj1 (reply_lines_text body))) as Ha.
  assert (E : header_of (reply_lines body) = str "HTTP/1.1 200 OK" ++ [13; 10] ++ str "Content-Type: application/json" ++ [13; 10] ++
    str "Content-Length: " ++ display_unsigned (blen body) ++ [13; 10] ++ str "Connection: close" ++ [13; 10; 13; 10]).
  { unfold header_of, reply_lines. cbn [fmap list_fmap mjoin list_join]. by rewrite <- !app_assoc. }
  unfold http_response. rewrite <- E. by rewrite as_bytes_ascii.
Qed.

Lemma number_no_space n : 0 <= n -> display_unsigned n <> [] /\ Forall (fun c => is_whitespace c = false) (display_unsigned n).
Proof.
  intros Hn. destruct (display_unsigned_spec n Hn) as [(Hne & Hd & _) _]. split; [done|].
  eapply Forall_impl; [exact Hd|]. intros c. cbn. rewrite is_ascii_digit_spec. intros Hc. unfold is_whitespace, in_range. by zguard.
Qed.

(** The server reads the length the client wrote. *)
Lemma post_content_length host body :
  header_text host -> blen body <= U64_MAX -> parse_content_length (header_of (post_lines host body)) = Some (blen body).
Proof.
  intros Hh Hb. unfold parse_content_length. rewrite header_of_lines by (by apply post_lines_text).
  unfold post_lines. cbn [app content_length_of].
  assert (E1 : split_once 58 (str "POST / HTTP/1.1") = None) by (vm_compute; reflexivity). rewrite E1.
  assert (E2 : forall t, split_once 58 (str "Host: " ++ t) = Some (str "Host", 32 :: t)) by reflexivity. rewrite E2.
  assert (E3 : forall t, split_once 58 (str "Content-Length: " ++ t) = Some (str "Content-Length", 32 :: t)) by reflexivity. rewrite E3.
  assert (F1 : eq_ignore_ascii_case (trim (str "Host")) (str "content-length") = false) by (vm_compute; reflexivity). rewrite F1.
  assert (F2 : eq_ignore_ascii_case (trim (str "Content-Length")) (str "content-length") = true) by (vm_compute; reflexivity). rewrite F2.
  assert (Hn : 0 <= blen body) by (unfold blen; lia). destruct (number_no_space _ Hn) as [Hne Hw].
  rewrite (proj1 (trim_padded _ Hne Hw)). by apply parse_unsigned_display.
Qed.

(** HTTP framing round trip, whatever the chunks: when the client's request
    text and body arrive at the sidecar cut into pieces of any sizes, the
    sidecar reads exactly the text and the body; and when the sidecar's
    response arrives at the client in pieces and the connection then ends,
    with or without a TLS close, before the deadline and within the size cap,
    the client extracts exactly the reply, even one that itself contains the
    end-of-headers marker. *)
Theorem http_roundtrip `{Read Srv, Read Cli, Clocked Cli} host body reply limits cap deadline (s : Srv) (c : Cli) k :
  header_text host -> blen body <= U64_MAX -> blen body <= max_body_bytes limits ->
  blen (http_post host body) <= max_header_bytes limits -> supplies s (http_post host body ++ body) ->
  blen (http_response reply) <= cap -> closes_in deadline k c (http_response reply) ->
  (exists s', read_http_request limits s = Some (Ok {| header_block := http_post host body; http_body := body |}, s')) /\
  (exists c' resp, read_response_bounded cap deadline c = Some (Ok resp, c') /\ extract_body resp = reply).
Proof.
  intros Hh Hu Hb Hm Hs Hcap Hc. split.
  - destruct (post_lines_text host body Hh) as [Ht Hv]. rewrite (http_post_header host body Hh) in *.
    pose proof (lossy_ascii _ (header_of_ascii _ Ht)) as El.
    destruct (header_of_window _ body Ht Hv ltac:(done)) as (p & Hp & Hlen).
    destruct (read_http_request_supplies limits s _ body p Hs Hp Hlen Hm Hb) as [s' E].
    + by apply header_of_framing.
    + rewrite El. by apply post_content_length.
    + exists s'. by rewrite El in E.
  - destruct (read_response_closes cap deadline (Z.to_nat cap + 2) k c _ [] Hc Hcap) as [c' E].
    { unfold blen in Hcap. lia. }
    exists c', (http_response reply). split; [exact E|]. rewrite http_response_header. unfold extract_body.
    destruct (reply_lines_text reply) as [Ht Hv]. destruct (header_of_window _ reply Ht Hv ltac:(done)) as (p & -> & Hlen).
    cbn [fmap option_fmap option_map from_option id]. by rewrite <- Hlen, drop_app_length.
Qed.

(** Reading a response ends within its cap, whatever the peer does. *)
Lemma read_response_bounded_total `{Read Cli, Clocked Cli} cap deadline (c : Cli) :
  exists r c', read_response_bounded cap deadline c = Some (r, c') /\ forall resp, r = Ok resp -> blen resp <= Z.max 0 cap.
Proof.
  unfold read_response_bounded.
  assert (G : forall fuel (c : Cli) buf, blen buf <= Z.max 0 cap -> (Z.to_nat cap + 1 - length buf < fuel)%nat ->
    exists r c', read_response_loop fuel cap deadline c buf = Some (r, c') /\ forall resp, r = Ok resp -> blen resp <= Z.max 0 cap).
  { clear c. induction fuel as [|fuel IH]; intros c buf Hl Hf; [lia|]. cbn [read_response_loop].
    destruct (match deadline with Some _ => _ | None => _ end); [by do 2 eexists|].
    destruct (read c RESPONSE_CHUNK) as [[x|e] c'].
    - destruct x as [|y x]; cbn [is_empty]; [do 2 eexists; split; [done|]; by intros ? [= <-]|].
      destruct (Z.ltb_spec cap (blen buf + blen (y :: x))) as [|Hle]; [by do 2 eexists|].
      unfold blen in *. cbn [length] in *. apply IH; rewrite length_app; cbn [length]; lia.
    - destruct (io_kind e); do 2 eexists; (split; [done|]); try done; by intros ? [= <-]. }
  apply G; unfold blen; cbn; lia.
Qed.

(** C28: Any peer is read in bounded space: whatever bytes arrive, in whatever
    pieces, with whatever errors, both read loops return after finitely many
    reads (the fuel, one read more than the cap, is never exhausted); the
    client never holds more than its cap; and a request the sidecar accepts
    has a header block of at most the header limit and one chunk, a body no
    longer than its declared length and the body limit, and a block that is
    exactly a sequence of CRLF-terminated lines without stray line breaks or
    folded lines, so that no header can be smuggled past the parser. *)
Theorem http_any_peer `{Read Srv, !ReadLaws Srv, Read Cli, Clocked Cli} limits cap deadline (s : Srv) (c : Cli) :
  0 <= max_header_bytes limits -> 0 <= max_body_bytes limits ->
  (exists r s', read_http_request limits s = Some (r, s') /\ forall q, r = Ok q -> sound_request limits q) /\
  (exists r c', read_response_bounded cap deadline c = Some (r, c') /\ forall resp, r = Ok resp -> blen resp <= Z.max 0 cap).
Proof. intros Hh Hb. split; [by apply read_http_request_sound|apply read_response_bounded_total]. Qed.

Lemma length_extract_body resp : (length (extract_body resp) <= length resp)%nat.
Proof. unfold extract_body. rewrite length_drop. lia. Qed.

(** A round trip comes back, with a body within the cap. *)
Lemma mtls_round_trip_total {Conn} `{Clocked Tcp, Read Cli, Clocked Cli, !TlsClient Tcp Conn Cli} instant_max l host body :
  exists r, mtls_round_trip (Str := Cli) instant_max l host body = Some r /\
    forall resp, r = Ok resp -> blen resp <= Z.max 0 (max_response_bytes l).
Proof.
  unfold mtls_round_trip. destruct (mtls_handshake instant_max l) as [s|e]; [|by eexists].
  destruct (send_request s host body) as [s1|e]; [|by eexists].
  destruct (read_response_bounded_total (max_response_bytes l) (client_deadline instant_max (cl_read_timeout l) (instant_now s1)) s1)
    as (r & c' & -> & Hr). cbn [mbind option_bind]. eexists. split; [done|]. destruct r as [resp|]; [|done]. intros ? [= <-].
  specialize (Hr _ eq_refl). pose proof (length_extract_body resp). unfold blen in *. lia.
Qed.

(** A connect that times out is reported as an input/output error, not as a
    timeout. *)
Theorem connect_timeout_is_io {Conn} `{Clocked Tcp, Read Cli, Clocked Cli, !TlsClient Tcp Conn Cli} instant_max l host body e :
  tcp_connect (connect_timeout l) = Err e -> io_kind e = TimedOut ->
  mtls_round_trip (Str := Cli) instant_max l host body = Some (Err (CteIo e)).
Proof. intros Hc _. unfold mtls_round_trip, mtls_handshake. by rewrite Hc. Qed.

(** ** Scripted peers *)

(** What arrives, piece by piece, each after a delay. *)
Record Peer : Type := { peer_now : Z; arrivals : list (Z * bytes) }.

#[export] Instance peer_clock : Clocked Peer := peer_now.

#[export] Instance peer_read : Read Peer := fun s n =>
  match arrivals s with
  | [] => (Ok [], s)
  | (delay, c) :: rest =>
      (Ok (take n c), {| peer_now := peer_now s + delay;
                         arrivals := if is_empty (drop n c) then rest else (0, drop n c) :: rest |})
  end.

#[export] Instance peer_read_laws : ReadLaws Peer.
Proof.
  split. intros s n c s'. unfold read, peer_read. destruct (arrivals s) as [|[d x] rest]; intros [= <- _]; [cbn; lia|].
  rewrite length_take. lia.
Qed.

Definition scripted (l : list (Z * bytes)) : bytes := mjoin l.*2.

(** A script without empty pieces delivers its text and ends. *)
Lemma peer_closes k s :
  Forall (fun a => a.2 <> []) (arrivals s) -> (length (scripted (arrivals s)) <= k)%nat ->
  closes_in None k s (scripted (arrivals s)) /\ supplies_in k s (scripted (arrivals s)).
Proof.
  assert (Heof : forall s, arrivals s = [] -> at_eof s).
  { intros s0 E n. exists s0. left. unfold read, peer_read. by rewrite E. }
  revert s. induction k as [|k IH]; intros [now l] Hne Hk; cbn [arrivals] in *.
  - destruct l as [|[d c] l]; [by split; [split; [done|]; split; [done|apply Heof]|]|].
    apply Forall_cons in Hne as [Hne _]. cbn in Hk. destruct c; [done|cbn in Hk; lia].
  - destruct l as [|[d c] l]; [split; [split; [done|]; left; split; [done|by apply Heof]|by left]|].
    apply Forall_cons in Hne as [Hc Hl]. cbn [snd] in Hc.
    assert (Hstep : forall n, (0 < n)%nat -> exists c0 d' s', read {| peer_now := now; arrivals := (d, c) :: l |} n = (Ok c0, s') /\
      c0 <> [] /\ (length c0 <= n)%nat /\ scripted ((d, c) :: l) = c0 ++ d' /\ closes_in None k s' d' /\ supplies_in k s' d').
    { intros n Hn. unfold read, peer_read. cbn [arrivals peer_now]. do 3 eexists. split; [reflexivity|].
      assert (E : scripted ((d, c) :: l) = take n c ++ scripted (if is_empty (drop n c) then l else (0, drop n c) :: l)).
      { unfold scripted. cbn [fmap list_fmap mjoin list_join snd]. destruct (drop n c) as [|y r] eqn:Ed; cbn [is_empty].
        - rewrite <- (take_drop n c) at 1. by rewrite Ed, app_nil_r.
        - cbn [fmap list_fmap mjoin list_join snd]. by rewrite <- Ed, app_assoc, take_drop. }
      destruct c as [|x c]; [done|]. destruct n as [|n]; [lia|]. split_and!; [done|rewrite length_take; lia|exact E|..].
      all: apply (IH {| peer_now := _; arrivals := _ |}); cbn [arrivals]; [|apply (f_equal length) in E; rewrite length_app, length_take in E; cbn [length] in E; lia].
      all: destruct (drop (S n) (x :: c)) eqn:Ed; cbn [is_empty]; [done|by constructor]. }
    split; [split; [done|right]|right]; intros n Hn; destruct (Hstep n Hn) as (c0 & d' & s' & ? & ? & ? & ? & ? & ?);
      exists c0, d', s'; by split_and!.
Qed.

(** ** Time *)

(** The options of a socket and how often it was written to. *)
Class TimedSocket (Tcp : Type) := {
  so_rcvtimeo : Tcp -> option Z;
  so_sndtimeo : Tcp -> option Z;
  writes_made : Tcp -> Z;
}.

(** A read of the socket takes at most its [SO_RCVTIMEO], a write its
    [SO_SNDTIMEO]. *)
Class TimedSocketLaws (Tcp : Type) `{Read Tcp, Write Tcp, Clocked Tcp, TimedSocket Tcp} : Prop := {
  tcp_read_takes s n r s' : read s n = (r, s') ->
    so_rcvtimeo s' = so_rcvtimeo s /\ so_sndtimeo s' = so_sndtimeo s /\ writes_made s' = writes_made s /\
    instant_now s <= instant_now s' /\ forall t, so_rcvtimeo s = Some t -> 0 <= t -> instant_now s' <= instant_now s + t;
  tcp_write_takes s bs r s' : write s bs = (r, s') ->
    so_rcvtimeo s' = so_rcvtimeo s /\ so_sndtimeo s' = so_sndtimeo s /\ writes_made s' = writes_made s + 1 /\
    instant_now s <= instant_now s' /\ forall t, so_sndtimeo s = Some t -> 0 <= t -> instant_now s' <= instant_now s + t;
}.

(** One call of rustls on the socket it is given. *)
Inductive server_socket_step `{Read Tcp, Write Tcp, Clocked Tcp} : DeadlineStream Tcp -> DeadlineStream Tcp -> Prop :=
| server_reads d n r d' : read d n = (r, d') -> server_socket_step d d'
| server_writes d bs r d' : server_deadline_write d bs = (r, d') -> server_socket_step d d'.

Inductive client_socket_step `{Read Tcp, Write Tcp, Clocked Tcp} : DeadlineStream Tcp -> DeadlineStream Tcp -> Prop :=
| client_reads d n r d' : read d n = (r, d') -> client_socket_step d d'
| client_writes d bs r d' : client_deadline_write d bs = (r, d') -> client_socket_step d d'.

Section SocketTime.
Context `{RD : Read Tcp, WR : !Write Tcp, CK : !Clocked Tcp, TS : !TimedSocket Tcp, TSL : !TimedSocketLaws Tcp}.
Context (tau tw D w0 : Z) (Htau : 0 <= tau) (Htw : 0 <= tw).

(** A socket under a deadline not after [D]: what time it can be, with [late]
    the time its writes may have added. *)
Definition within (late : Z -> Z) (d : DeadlineStream Tcp) : Prop :=
  so_rcvtimeo (ds_inner d) = Some tau /\ so_sndtimeo (ds_inner d) = Some tw /\ w0 <= writes_made (ds_inner d) /\
  (exists x, ds_deadline d = Some x /\ x <= D) /\ instant_now (ds_inner d) <= D + late (writes_made (ds_inner d) - w0).

Lemma deadline_read_within late d n r d' :
  (forall k, 0 <= k -> tau <= late k) -> within late d -> read d n = (r, d') -> within late d'.
Proof.
  intros Hl (H1 & H2 & H3 & (x & Hx & Hle) & H4). unfold read, deadline_read, check_deadline. rewrite Hx.
  destruct (Z.leb_spec x (instant_now (ds_inner d))) as [|Hlt]; [intros [= _ <-]; by split_and!; eauto|].
  destruct (read (ds_inner d) n) as [r2 i2] eqn:E. intros [= _ <-].
  apply tcp_read_takes in E as (E1 & E2 & E3 & _ & E5). specialize (E5 _ H1 Htau). specialize (Hl _ (Zle_minus_le_0 _ _ H3)).
  unfold within. cbn [ds_inner ds_deadline]. rewrite E1, E2, E3.
  split_and!; eauto. lia.
Qed.

(** However many reads rustls makes of the socket, only its writes pass the
    deadline by more than one read. *)
Lemma server_step_within d d' : server_socket_step d d' -> within (fun k => tau + tw * k) d -> within (fun k => tau + tw * k) d'.
Proof.
  intros Hs Hd. destruct Hs as [d n r d' E|d bs r d' E].
  - eapply deadline_read_within; [|done..]. intros k Hk. cbn beta. nia.
  - unfold server_deadline_write in E. destruct (write (ds_inner d) bs) as [r2 i2] eqn:Ew. injection E as _ <-.
    apply tcp_write_takes in Ew as (E1 & E2 & E3 & _ & E5). destruct Hd as (H1 & H2 & H3 & H4 & H5). specialize (E5 _ H2 Htw).
    unfold within. cbn [ds_inner ds_deadline]. rewrite E1, E2, E3. split_and!; eauto; nia.
Qed.

Lemma client_step_within d d' : client_socket_step d d' -> within (fun _ => Z.max tau tw) d -> within (fun _ => Z.max tau tw) d'.
Proof.
  intros Hs Hd. destruct Hs as [d n r d' E|d bs r d' E].
  - eapply deadline_read_within; [|done..]. intros k Hk. cbn beta. lia.
  - destruct Hd as (H1 & H2 & H3 & (x & Hx & Hle) & H5). unfold client_deadline_write, check_deadline in E. rewrite Hx in E.
    destruct (Z.leb_spec x (instant_now (ds_inner d))) as [|Hlt]; [injection E as _ <-; by split_and!; eauto|].
    unfold server_deadline_write in E. destruct (write (ds_inner d) bs) as [r2 i2] eqn:Ew. injection E as _ <-.
    apply tcp_write_takes in Ew as (E1 & E2 & E3 & _ & E5). specialize (E5 _ H2 Htw).
    unfold within. cbn [ds_inner ds_deadline]. rewrite E1, E2, E3. split_and!; eauto; lia.
Qed.

Lemma rtc_within R late d d' :
  (forall a b, R a b -> within late a -> within late b) -> rtc R d d' -> within late d -> within late d'.
Proof. intros HR Hs. induction Hs; eauto. Qed.
End SocketTime.

Section Invariant.
Context `{RD : Read Str} (I : Str -> Prop) (HI : forall s n r s', I s -> read s n = (r, s') -> I s').

Lemma read_http_request_invariant limits s r s' : I s -> read_http_request limits s = Some (r, s') -> I s'.
Proof.
  assert (G1 : forall fuel s buf r s', I s -> read_headers fuel limits s buf = Some (r, s') -> I s').
  { clear s r s'. induction fuel as [|fuel IH]; intros s buf r s' Hs; cbn [read_headers]; [done|].
    destruct (find_subsequence _ _); [by intros [= _ <-]|]. destruct (_ <? _); [by intros [= _ <-]|].
    destruct (read s 1024) as [[c|e] s1] eqn:Er; pose proof (HI _ _ _ _ Hs Er); [|by intros [= _ <-]].
    destruct (is_empty c); [by intros [= _ <-]|]. by apply IH. }
  assert (G2 : forall fuel s body n r s', I s -> read_body fuel limits s body n = Some (r, s') -> I s').
  { clear s r s'. induction fuel as [|fuel IH]; intros s body n r s' Hs; cbn [read_body]; [done|].
    destruct (negb _); [by intros [= _ <-]|]. destruct (_ <? _); [by intros [= _ <-]|].
    destruct (read s 1024) as [[c|e] s1] eqn:Er; pose proof (HI _ _ _ _ Hs Er); [|by intros [= _ <-]].
    destruct (is_empty c); [by intros [= _ <-]|]. by apply IH. }
  intros Hs. unfold read_http_request. destruct (read_headers _ _ _ _) as [[r1 s1]|] eqn:E1; [|done]. apply G1 in E1; [|done].
  cbn [mbind option_bind]. destruct r1 as [[b n]|e]; [|by intros [= _ <-]].
  destruct (reject_malformed_header_framing _); [|by intros [= _ <-]]. destruct (_ <? _); [by intros [= _ <-]|].
  destruct (read_body _ _ _ _ _) as [[r2 s2]|] eqn:E2; [|done]. apply G2 in E2; [|done]. cbn [mbind option_bind].
  by intros [= _ <-].
Qed.
End Invariant.

(** The client looks at its deadline only between two reads of the session:
    the last of them began before it. *)
Lemma read_response_last_read `{Read Str, Clocked Str} cap D (s : Str) r s' :
  read_response_bounded cap (Some D) s = Some (r, s') ->
  s' = s \/ exists s1 n r1, read s1 n = (r1, s') /\ instant_now s1 < D.
Proof.
  unfold read_response_bounded. generalize (Z.to_nat cap + 2)%nat (nil : bytes). intros fuel. revert s r s'.
  induction fuel as [|fuel IH]; intros s r s' buf; cbn [read_response_loop]; [done|].
  destruct (Z.leb_spec D (instant_now s)) as [|Hlt]; [intros [= _ <-]; by left|].
  destruct (read s RESPONSE_CHUNK) as [[x|e] s1] eqn:E.
  - destruct (is_empty x); [intros [= _ <-]; right; by eauto|]. destruct (_ <? _); [intros [= _ <-]; right; by eauto|].
    intros [->|?]%IH; right; eauto.
  - intros Hr. right. exists s, RESPONSE_CHUNK, (Err e). split; [|done]. rewrite E. f_equal. destruct (io_kind e); congruence.
Qed.

(** ** On a sample exchange *)

Definition sample_limits : ServerLimits := {|
  max_header_bytes := 200; max_body_bytes := 50; sl_read_timeout := Some 5; request_deadline := Some 30;
  sl_write_timeout := Some 5; max_concurrent_connections := 2 |}.

Definition sample_body : bytes := as_bytes (str "{}").
Definition sample_reply : bytes := as_bytes (str "{}" ++ [13; 10; 13; 10]).

(** The request one byte at a time, the response in two pieces. *)
Definition sample_request_peer : Peer :=
  {| peer_now := 0; arrivals := (fun b => (1, [b])) <$> (http_post (str "proxy.internal") sample_body ++ sample_body) |}.
Definition sample_response_peer : Peer :=
  {| peer_now := 0; arrivals := [(1, take 40 (http_response sample_reply)); (2, drop 40 (http_response sample_reply))] |}.

(** The header limit is looked at only before the next read: a block that ends
    in the read after it is accepted 704 bytes over. *)
Definition sample_long_header : bytes :=
  as_bytes (str "POST / HTTP/1.1" ++ [13; 10] ++ str "X: " ++ replicate 880 120 ++ [13; 10; 13; 10]).

Theorem header_limit_overshoot :
  max_header_bytes sample_limits = 200 /\ blen sample_long_header = 904 /\
  match read_http_request sample_limits {| peer_now := 0; arrivals := [(1, sample_long_header)] |} with
  | Some (Ok q, _) => bool_decide (header_block q = sample_long_header)
  | _ => false
  end = true.
Proof. vm_compute. repeat split. Qed.

Lemma http_any_peer_witness :
  (exists r s', read_http_request sample_limits sample_response_peer = Some (r, s') /\
     forall q, r = Ok q -> sound_request sample_limits q) /\
  (exists r c', read_response_bounded 10 (Some 2) sample_response_peer = Some (r, c') /\ forall resp, r = Ok resp -> blen resp <= Z.max 0 10).
Proof. apply http_any_peer; vm_compute; discriminate. Defined.

(** ** Bytes below a record *)

(** A socket that gives a byte a second for ever. *)
Record Trickle : Type := { tr_now : Z; tr_rcv : option Z; tr_snd : option Z; tr_writes : Z }.

Definition tr_wait (s : Trickle) : Z := match tr_rcv s with Some t => Z.min 1 (Z.max 0 t) | None => 1 end.

#[export] Instance trickle_clock : Clocked Trickle := tr_now.
#[export] Instance trickle_read : Read Trickle := fun s n =>
  (Ok (take n [120]), {| tr_now := tr_now s + tr_wait s; tr_rcv := tr_rcv s; tr_snd := tr_snd s; tr_writes := tr_writes s |}).
#[export] Instance trickle_write : Write Trickle := fun s bs =>
  (Ok (blen bs), {| tr_now := tr_now s; tr_rcv := tr_rcv s; tr_snd := tr_snd s; tr_writes := tr_writes s + 1 |}).
#[export] Instance trickle_options : TimedSocket Trickle := {| so_rcvtimeo := tr_rcv; so_sndtimeo := tr_snd; writes_made := tr_writes |}.

#[export] Instance trickle_timed : TimedSocketLaws Trickle.
Proof.
  split.
  - intros s n r s' [= _ <-]. unfold instant_now, trickle_clock, tr_wait. cbn. split_and!; try done; [destruct (tr_rcv s); lia|].
    intros t Hr Ht. rewrite Hr. lia.
  - intros s bs r s' [= _ <-]. unfold instant_now, trickle_clock. cbn. split_and!; try done; lia.
Qed.

(** A session over it, [rec_left] bytes short of a record: one read of the
    session is as many reads of the socket. *)
Record Recording (Sock : Type) : Type := { rec_sock : Sock; rec_len : nat }.
Arguments rec_sock {Sock} r.
Arguments rec_len {Sock} r.

Fixpoint fill_record `{Read Sock} (k : nat) (d : Sock) : result unit IoError * Sock :=
  match k with
  | O => (Ok tt, d)
  | S k => match read d 1 with
           | (Err e, d') => (Err e, d')
           | (Ok _, d') => fill_record k d'
           end
  end.

#[export] Instance recording_read `{Read Sock} : Read (Recording Sock) := fun s n =>
  let (r, d) := fill_record (rec_len s) (rec_sock s) in
  (let? _ := r in Ok (take n [120]), {| rec_sock := d; rec_len := rec_len s |}).

#[export] Instance recording_clock `{Clocked Sock} : Clocked (Recording Sock) := fun s => instant_now (rec_sock s).

#[export] Instance recording_read_laws `{Read Sock} : ReadLaws (Recording Sock).
Proof.
  split. intros s n c s'. unfold read, recording_read. destruct (fill_record _ _) as [[]]; [|done]. intros [= <- _].
  rewrite length_take. lia.
Qed.

Lemma fill_record_time k (d : Trickle) :
  tr_rcv d = None -> exists d', fill_record k d = (Ok tt, d') /\ tr_rcv d' = None /\ tr_now d' = tr_now d + Z.of_nat k.
Proof.
  revert d. induction k as [|k IH]; intros d Hd; cbn [fill_record]; [exists d; split_and!; try done; lia|].
  destruct (read d 1) as [r d1] eqn:Er. injection Er as <- E1. assert (H1 : tr_rcv d1 = None) by (by subst d1).
  destruct (IH d1 H1) as (d' & -> & ? & E). exists d'. split_and!; try done. rewrite E, <- E1. cbn. unfold tr_wait. rewrite Hd. lia.
Qed.

(** The aggregate deadline over the response does not cap its total time: the
    client asks only between two reads of the session, and a peer that sends
    a record byte by byte, each socket read ending within a second, keeps it
    any time past its deadline in one of them. *)
Theorem client_response_deadline_missed T late :
  0 < T -> 0 <= late ->
  exists (s s' : Recording Trickle) r, instant_now s = 0 /\ read_response_bounded 100 (client_deadline (T + 1) (Some T) 0) s = Some (r, s') /\
    r = Err CteTimeout /\ T + late < instant_now s'.
Proof.
  intros HT Hl. set (d := {| tr_now := 0; tr_rcv := None; tr_snd := None; tr_writes := 0 |}).
  destruct (fill_record_time (Z.to_nat (T + late + 1)) d eq_refl) as (d' & Hd & _ & Ht).
  exists {| rec_sock := d; rec_len := Z.to_nat (T + late + 1) |}, {| rec_sock := d'; rec_len := Z.to_nat (T + late + 1) |}, (Err CteTimeout).
  assert (Hn : instant_now {| rec_sock := d'; rec_len := Z.to_nat (T + late + 1) |} = T + late + 1).
  { unfold instant_now, recording_clock, instant_now, trickle_clock. cbn [rec_sock]. rewrite Ht. cbn. lia. }
  split; [done|]. split; [|split; [done|lia]]. unfold client_deadline, instant_checked_add. cbn [mbind option_bind].
  rewrite (proj2 (Z.leb_le _ _)) by lia. unfold read_response_bounded. change (Z.to_nat 100 + 2)%nat with (S (S 100)).
  set (fuel := 100%nat). cbn [read_response_loop]. change (instant_now {| rec_sock := d; rec_len := _ |}) with 0.
  rewrite (proj2 (Z.leb_gt _ _)) by lia. unfold read at 1, recording_read. cbn [rec_sock rec_len]. rewrite Hd.
  change (take RESPONSE_CHUNK [120]) with [120]. cbn [is_empty]. change (100 <? blen [] + blen [120]) with false. cbn iota.
  rewrite Hn, (proj2 (Z.leb_le _ _)) by lia. done.
Qed.

(** ** A body cut short *)

(** A connection closed before the declared length is a request with the body
    that came: the length is a bound, not a count. *)
Definition sample_short : bytes :=
  as_bytes (str "POST / HTTP/1.1" ++ [13; 10] ++ str "Content-Length: 10" ++ [13; 10; 13; 10] ++ str "{}").

Theorem short_body_accepted :
  match read_http_request sample_limits {| peer_now := 0; arrivals := [(1, sample_short)] |} with
  | Some (Ok q, _) => bool_decide (http_body q = sample_body /\ parse_content_length (header_block q) = Some 10)
  | _ => false
  end = true.
Proof. vm_compute. reflexivity. Qed.
