(* ===== verification/Replay.v ===== *)
(** * Replay detection

    [mcps-core/src/replay.rs]: the [ReplayCache] trait as a class of
    operations with the contract the verifier relies on, and the in-memory
    reference cache, which meets it. *)

From S2P Require Import Prelude Utf8 Errors Time.

Inductive ReplayDurabilityClass : Type := SingleProcessReference | Durable.
Inductive ReplayDecision : Type := Fresh | Replay.
Inductive ReplayCacheError : Type := ReplayUnavailable (details : rstr).

#[export] Instance ReplayDurabilityClass_eq_dec : EqDecision ReplayDurabilityClass.
Proof. solve_decision. Defined.
#[export] Instance ReplayDecision_eq_dec : EqDecision ReplayDecision.
Proof. solve_decision. Defined.

(** [ReplayCacheError::to_mcps_error]. *)
Definition replay_to_mcps_error (e : ReplayCacheError) : McpsError :=
  match e with ReplayUnavailable _ => ReplayCacheUnavailable end.

(** The replay key [(signer, audience, nonce)]. *)
Abbreviation replay_key := (rstr * rstr * rstr)%type (only parsing).

(** The [ReplayCache] trait over a cache state; a method takes [&mut self],
    so it returns the new state. *)
Class ReplayCache (C : Type) := {
  check_and_insert : C -> rstr -> rstr -> rstr -> Z -> result ReplayDecision ReplayCacheError * C;
  durability_class : C -> ReplayDurabilityClass;
}.

(** The trait's default for an implementation that declares nothing. *)
Definition default_durability_class {C : Type} (c : C) : ReplayDurabilityClass :=
  SingleProcessReference.

Definition is_single_process_reference `{ReplayCache C} (c : C) : bool :=
  bool_decide (durability_class c = SingleProcessReference).

(** The contract of [check_and_insert]: [Fresh] only for a triple that was not
    recorded, and then it is; a recorded triple is never reported [Fresh]; and
    recording never forgets. *)
Class ReplayContract (C : Type) `{ReplayCache C} := {
  recorded : C -> replay_key -> Prop;
  fresh_records c s a n t c' :
    check_and_insert c s a n t = (Ok Fresh, c') -> ~ recorded c (s, a, n) /\ recorded c' (s, a, n);
  recorded_not_fresh c s a n t c' :
    recorded c (s, a, n) -> check_and_insert c s a n t <> (Ok Fresh, c');
  insert_keeps c s a n t r c' k :
    check_and_insert c s a n t = (r, c') -> recorded c k -> recorded c' k;
}.

(** A triple of proper strings. *)
Definition key_wf (k : replay_key) : Prop := str_wf k.1.1 /\ str_wf k.1.2 /\ str_wf k.2.

(** What the verifier passes: strings, and the instant of a timestamp. *)
Definition call_ok (s a n : rstr) (t : Z) : Prop :=
  str_wf s /\ str_wf a /\ str_wf n /\ exists text, parse_rfc3339_utc text = Ok t.

(** The contract of a cache that forgets: an accepted triple is retained at
    least until its expiry plus the skew, and only triples whose window is
    [over] are dropped, by a call (at the cache's own clock, if it has one,
    which [tick] sets) or by a maintenance step of its owner (a pruning, a
    restart).  A call may take time: one that begins at [now] and leaves the
    cache [c'] came back at [ended now c'].  A triple is accepted over an
    earlier entry only when the window of that entry is over by then.  When a
    window is over depends on the cache: the last second still counts for one
    that prunes, and not for one that refuses it. *)
Class RetentionContract (C : Type) `{ReplayCache C} := {
  retention_inv : C -> Prop;
  retain_skew : C -> Z;
  retained : C -> replay_key -> option Z;
  over : Z -> Z -> Prop;
  tick : Z -> C -> C;
  maintains : Z -> C -> C -> Prop;
  ended : Z -> C -> Z;
  over_past now u : over now u -> u <= Z.max 0 now;
  ended_after now c : now <= ended now c;
  over_mono now now' u u' : now <= now' -> u' <= u -> over now u -> over now' u';
  retained_fresh now c s a n t c' :
    retention_inv c -> call_ok s a n t -> check_and_insert (tick now c) s a n t = (Ok Fresh, c') ->
    (forall u, retained c (s, a, n) = Some u -> over (ended now c') u) /\
    ((exists u, retained c' (s, a, n) = Some u /\ saturating_add t (retain_skew c) <= u) \/
     over (ended now c') (saturating_add t (retain_skew c)));
  retained_call now c s a n t r c' :
    retention_inv c -> call_ok s a n t -> check_and_insert (tick now c) s a n t = (r, c') ->
    retention_inv c' /\ retain_skew c' = retain_skew c /\
    forall k u, retained c k = Some u -> retained c' k = Some u \/ over (ended now c') u;
  retained_tick now c :
    retention_inv c -> retention_inv (tick now c) /\ retain_skew (tick now c) = retain_skew c /\
    forall k, retained (tick now c) k = retained c k;
  retained_maintains now c c' :
    retention_inv c -> maintains now c c' ->
    retention_inv c' /\ retain_skew c' = retain_skew c /\
    forall k u, retained c k = Some u -> retained c' k = Some u \/ over now u;
}.

(** A cache that decides on what it holds when the call begins: a held triple
    is refused, and nothing is accepted that the verifier, at [t0], found in
    its window and that is over then. *)
Class PromptCache (C : Type) `{RetentionContract C} : Prop := {
  prompt_fresh now t0 c s a n t c' :
    check_and_insert (tick now c) s a n t = (Ok Fresh, c') -> t0 <= saturating_add t (retain_skew c) ->
    retained c (s, a, n) = None /\ ~ over t0 (saturating_add t (retain_skew c));
}.

(** ** [InMemoryReplayCache] *)

Record InMemoryReplayCache : Type := {
  imrc_max_clock_skew_secs : Z;
  seen : gmap replay_key Z;
}.

Definition in_memory_new (max_clock_skew_secs : Z) : InMemoryReplayCache :=
  {| imrc_max_clock_skew_secs := max_clock_skew_secs; seen := ∅ |}.

(** [prune]: evict every entry whose [retain_until < now_unix]. *)
Definition prune (c : InMemoryReplayCache) (now_unix : Z) : InMemoryReplayCache :=
  {| imrc_max_clock_skew_secs := imrc_max_clock_skew_secs c;
     seen := filter (fun kv => now_unix <= kv.2) (seen c) |}.

Definition in_memory_check_and_insert (c : InMemoryReplayCache)
    (signer audience nonce : rstr) (expires_at_unix : Z)
  : result ReplayDecision ReplayCacheError * InMemoryReplayCache :=
  let key := (signer, audience, nonce) in
  match seen c !! key with
  | Some _ => (Ok Replay, c)
  | None =>
      let retain_until := saturating_add expires_at_unix (imrc_max_clock_skew_secs c) in
      (Ok Fresh, {| imrc_max_clock_skew_secs := imrc_max_clock_skew_secs c;
                    seen := <[key := retain_until]> (seen c) |})
  end.

Definition in_memory_durability_class (c : InMemoryReplayCache) : ReplayDurabilityClass :=
  SingleProcessReference.

#[export] Instance in_memory_replay_cache : ReplayCache InMemoryReplayCache := {
  check_and_insert := in_memory_check_and_insert;
  durability_class := in_memory_durability_class;
}.

(** ** The reference cache meets the contract *)

Lemma in_memory_cases c s a n t :
  (exists u, seen c !! (s, a, n) = Some u /\ check_and_insert c s a n t = (Ok Replay, c)) \/
  (seen c !! (s, a, n) = None /\
   exists c', check_and_insert c s a n t = (Ok Fresh, c') /\
     imrc_max_clock_skew_secs c' = imrc_max_clock_skew_secs c /\
     seen c' = <[(s, a, n) := saturating_add t (imrc_max_clock_skew_secs c)]> (seen c)).
Proof.
  cbn. unfold in_memory_check_and_insert. destruct (seen c !! (s, a, n)) eqn:E; [left|right]; eauto 10.
Qed.

#[export] Program Instance in_memory_contract : ReplayContract InMemoryReplayCache := {
  recorded c k := is_Some (seen c !! k);
}.
Next Obligation.
  intros c s a n t c' H. destruct (in_memory_cases c s a n t) as [(u & Hu & Hc)|(Hn & c'' & Hc & _ & Hs)];
    rewrite Hc in H; simplify_eq. rewrite Hn, Hs, lookup_insert_eq. split; [by intros []|done].
Qed.
Next Obligation.
  intros c s a n t c' [u Hu] H. cbn in H. unfold in_memory_check_and_insert in H.
  by rewrite Hu in H.
Qed.
Next Obligation.
  intros c s a n t r c' k H Hk. destruct (in_memory_cases c s a n t) as [(u & Hu & Hc)|(Hn & c'' & Hc & _ & Hs)];
    rewrite Hc in H; simplify_eq; [done|]. rewrite Hs.
  destruct (decide (k = (s, a, n))) as [->|]; [by rewrite lookup_insert_eq|by rewrite lookup_insert_ne].
Qed.

Lemma prune_lookup c now k :
  seen (prune c now) !! k = (u ← seen c !! k; if bool_decide (now <= u) then Some u else None).
Proof.
  cbn. rewrite map_lookup_filter. destruct (seen c !! k); cbn; [|done].
  by repeat case_guard || case_bool_decide.
Qed.

(** Its owner prunes it. *)
#[export] Program Instance in_memory_retention : RetentionContract InMemoryReplayCache := {
  retention_inv c := True;
  retain_skew := imrc_max_clock_skew_secs;
  retained c k := seen c !! k;
  over now u := u < now;
  tick _ c := c;
  maintains now c c' := c' = prune c now;
  ended now _ := now;
}.
Next Obligation. intros; cbn in *; lia. Qed.
Next Obligation. intros; cbn in *; lia. Qed.
Next Obligation. intros; cbn in *; lia. Qed.
Next Obligation.
  intros now c s a n t c' _ _ H. cbn beta in H.
  destruct (in_memory_cases c s a n t) as [(u & Hu & Hc)|(Hk & c'' & Hc & _ & Hs)];
    rewrite Hc in H; simplify_eq. rewrite Hs, lookup_insert_eq. split; [congruence|left; by eexists].
Qed.
Next Obligation.
  intros now c s a n t r c' _ _ H. cbn beta in H. destruct (in_memory_cases c s a n t) as [(u & Hu & Hc)|(Hn & c'' & Hc & Hk & Hs)];
    rewrite Hc in H; simplify_eq; split_and!; try done; intros k v; [by left|]. rewrite Hs.
  destruct (decide (k = (s, a, n))) as [->|]; [congruence|]. rewrite lookup_insert_ne by done. by left.
Qed.
Next Obligation. done. Qed.
Next Obligation.
  intros now c c' _ ->. split_and!; try done. intros k u Hk. rewrite prune_lookup, Hk. cbn.
  case_bool_decide; [by left|right; lia].
Qed.

#[export] Instance in_memory_prompt : PromptCache InMemoryReplayCache.
Proof.
  split. intros now t0 c s a n t c' H Ht. destruct (in_memory_cases c s a n t) as [(u & Hu & Hc)|(Hk & _)]; [|split; [done|cbn in *; lia]].
  cbn in H, Hc. congruence.
Qed.

(** Pruning is safe: once an entry has been evicted at time [now], a
    request with that expiry fails the freshness window at [now] and at any
    later time under the same skew, so an evicted nonce cannot be replayed. *)
Theorem prune_evicts_only_stale c now k te now' issued_at expires_at :
  seen c !! k = Some (saturating_add te (imrc_max_clock_skew_secs c)) ->
  seen (prune c now) !! k = None ->
  parse_rfc3339_utc expires_at = Ok te -> now <= now' ->
  check_freshness issued_at expires_at now' (imrc_max_clock_skew_secs c) = Err ExpiredRequest.
Proof.
  intros Hk Hp He Hnow. rewrite prune_lookup, Hk in Hp. cbn in Hp. case_bool_decide as Hle; [done|].
  destruct (check_freshness _ _ _ _) as [u|e] eqn:E; [|by apply check_freshness_Err in E as ->].
  apply check_freshness_Ok in E as (ti & te' & _ & He' & _ & Hw). rewrite He in He'. simplify_eq. lia.
Qed.

Definition sample_cache : InMemoryReplayCache :=
  (check_and_insert (in_memory_new 60) (str "did:a") (str "srv") (str "n1") 1704067500).2.


(** The reference cache decides exactly: a triple is reported [Fresh] iff
    it is not live in the cache, it is then retained until
    [expires_at + skew] (saturating), no other entry changes, and a second
    presentation of the same triple is reported [Replay] and changes nothing. *)
Theorem in_memory_check_and_insert_spec c s a n t :
  match check_and_insert c s a n t with
  | (Ok Fresh, c') =>
      seen c !! (s, a, n) = None /\
      seen c' = <[(s, a, n) := saturating_add t (imrc_max_clock_skew_secs c)]> (seen c) /\
      forall t', check_and_insert c' s a n t' = (Ok Replay, c')
  | (Ok Replay, c') => is_Some (seen c !! (s, a, n)) /\ c' = c
  | (Err _, _) => False
  end.
Proof.
  destruct (in_memory_cases c s a n t) as [(u & Hu & ->)|(Hn & c' & -> & _ & Hs)]; [by eauto|].
  repeat split; [done|done|]. intros t'. cbn. unfold in_memory_check_and_insert.
  by rewrite Hs, lookup_insert_eq.
Qed.
