(* ===== verification/Resolver.v ===== *)
(** * Trust resolution

    [mcps-core/src/resolver.rs]: the [TrustResolver] injection point, its
    failure outcomes with their mapping to the wire taxonomy, and the
    in-memory reference resolver, proved to implement the abstract map from
    [(signer, key_id)] pairs to bindings. *)

From S2P Require Import Prelude Utf8 Errors Crypto Instances CanonicalRound.

Inductive TrustResolverError : Type :=
| NotFound
| TrustRevoked
| MalformedKey
| TrustUnavailable (details : rstr).

(** [TrustResolverError::to_mcps_error]. *)
Definition trust_to_mcps_error (e : TrustResolverError) : McpsError :=
  match e with
  | NotFound | TrustRevoked | MalformedKey => ActorBindingFailed
  | TrustUnavailable _ => TrustResolverUnavailable
  end.

Section Resolver.
Context `{Dalek}.

(** The [TrustResolver] trait: [resolve] takes [&self]. *)
Definition TrustResolver : Type := rstr -> rstr -> result VerificationKey TrustResolverError.

Inductive Binding : Type :=
| Active (key : VerificationKey)
| BindingRevoked.

Record InMemoryTrustResolver : Type := { bindings : gmap rstr Binding }.

Definition in_memory_resolver_new : InMemoryTrustResolver := {| bindings := ∅ |}.

(** [compose_key]: each field prefixed with its length in bytes. *)
Definition compose_key (signer key_id : rstr) : rstr :=
  display_unsigned (str_len signer) ++ [58] ++ signer ++ [124] ++
  display_unsigned (str_len key_id) ++ [58] ++ key_id.

Definition resolver_insert (r : InMemoryTrustResolver) (signer key_id : rstr)
    (key : VerificationKey) : InMemoryTrustResolver :=
  {| bindings := <[compose_key signer key_id := Active key]> (bindings r) |}.

Definition resolver_revoke (r : InMemoryTrustResolver) (signer key_id : rstr)
  : InMemoryTrustResolver :=
  {| bindings := <[compose_key signer key_id := BindingRevoked]> (bindings r) |}.

Definition in_memory_resolve (r : InMemoryTrustResolver) : TrustResolver :=
  fun signer key_id =>
    match bindings r !! compose_key signer key_id with
    | Some (Active key) => Ok key
    | Some BindingRevoked => Err TrustRevoked
    | None => Err NotFound
    end.
End Resolver.

(** ** The composite key is injective *)

(** The digits before the first colon are determined by the text. *)
Lemma digits_colon_inj ds1 ds2 r1 r2 :
  Forall (fun d => is_ascii_digit d = true) ds1 -> Forall (fun d => is_ascii_digit d = true) ds2 ->
  ds1 ++ 58 :: r1 = ds2 ++ 58 :: r2 -> ds1 = ds2 /\ r1 = r2.
Proof.
  intros H1; revert ds2; induction H1 as [|d ds1 Hd _ IH]; intros ds2 H2 E; destruct H2 as [|d2 ds2 Hd2 H2];
    cbn in E; try (injection E; intros; subst; done).
  injection E as -> E. destruct (IH ds2 H2 E) as [-> ->]. done.
Qed.

Lemma str_len_nonneg s : 0 <= str_len s.
Proof. unfold str_len. lia. Qed.

(** A length-prefixed field splits off uniquely. *)
Lemma length_prefixed_inj a1 a2 r1 r2 :
  str_wf a1 -> str_wf a2 -> str_wf r1 -> str_wf r2 ->
  display_unsigned (str_len a1) ++ 58 :: a1 ++ r1 = display_unsigned (str_len a2) ++ 58 :: a2 ++ r2 ->
  a1 = a2 /\ r1 = r2.
Proof.
  intros W1 W2 W3 W4 E.
  destruct (display_unsigned_spec _ (str_len_nonneg a1)) as [(_ & D1 & V1 & _) _].
  destruct (display_unsigned_spec _ (str_len_nonneg a2)) as [(_ & D2 & V2 & _) _].
  apply digits_colon_inj in E as [Ed E]; [|done..].
  assert (Hl : str_len a1 = str_len a2) by congruence. unfold str_len in Hl.
  apply (f_equal as_bytes) in E. rewrite !as_bytes_app in E.
  apply app_inj_1 in E as [E1 E2]; [|lia].
  split; [by apply as_bytes_inj in E1|by apply as_bytes_inj in E2].
Qed.

Lemma compose_key_inj s1 k1 s2 k2 :
  str_wf s1 -> str_wf k1 -> str_wf s2 -> str_wf k2 ->
  compose_key s1 k1 = compose_key s2 k2 -> s1 = s2 /\ k1 = k2.
Proof.
  intros W1 W2 W3 W4 E. unfold compose_key in E. cbn [app] in E.
  assert (Hw : forall k, str_wf k -> str_wf (124 :: display_unsigned (str_len k) ++ 58 :: k)).
  { intros k Hk. constructor; [done|]. apply Forall_app. split;
      [apply str_wf_display_unsigned, str_len_nonneg|by constructor]. }
  apply length_prefixed_inj in E as [-> E]; [|auto..]. split; [done|]. simplify_eq.
  pose proof (length_prefixed_inj k1 k2 [] []) as L. rewrite !app_nil_r in L.
  apply L in E as [-> _]; [done|done|done|constructor|constructor].
Qed.

(** ** Refinement of the abstract trust map *)

Section Refinement.
Context `{Dalek}.

(** What the resolver promises: a map from pairs to bindings. *)
Definition trust_spec : Type := rstr -> rstr -> option Binding.

Inductive trust_op : Type :=
| OpInsert (signer key_id : rstr) (key : VerificationKey)
| OpRevoke (signer key_id : rstr).

Definition op_wf (o : trust_op) : Prop :=
  match o with OpInsert s k _ | OpRevoke s k => str_wf s /\ str_wf k end.

Definition run_op (r : InMemoryTrustResolver) (o : trust_op) : InMemoryTrustResolver :=
  match o with
  | OpInsert s k key => resolver_insert r s k key
  | OpRevoke s k => resolver_revoke r s k
  end.

Definition spec_op (m : trust_spec) (o : trust_op) : trust_spec :=
  match o with
  | OpInsert s k key =>
      fun s' k' => if bool_decide ((s', k') = (s, k)) then Some (Active key) else m s' k'
  | OpRevoke s k =>
      fun s' k' => if bool_decide ((s', k') = (s, k)) then Some BindingRevoked else m s' k'
  end.

Definition resolve_spec (m : trust_spec) (s k : rstr) : result VerificationKey TrustResolverError :=
  match m s k with
  | Some (Active key) => Ok key
  | Some BindingRevoked => Err TrustRevoked
  | None => Err NotFound
  end.

(** The representation relation on well-formed pairs. *)
Definition represents (r : InMemoryTrustResolver) (m : trust_spec) : Prop :=
  forall s k, str_wf s -> str_wf k -> bindings r !! compose_key s k = m s k.

Lemma run_op_represents r m o :
  op_wf o -> represents r m -> represents (run_op r o) (spec_op m o).
Proof.
  intros Ho Hr s' k' Hs Hk.
  destruct o as [s k key|s k]; destruct Ho as [Ws Wk]; cbn;
    (case_bool_decide as E; [injection E as -> ->; apply lookup_insert_eq|]);
    (rewrite lookup_insert_ne; [by apply Hr|]); intros Ek; destruct E;
    apply compose_key_inj in Ek as [-> ->]; done.
Qed.

Lemma run_ops_represents ops r m :
  Forall op_wf ops -> represents r m -> represents (foldl run_op r ops) (foldl spec_op m ops).
Proof.
  intros Hops; revert r m. induction Hops as [|o ops Ho _ IH]; intros r m Hr; cbn; [done|].
  by apply IH, run_op_represents.
Qed.
End Refinement.

(** The in-memory resolver refines the abstract trust map: after any
    sequence of insertions and revocations starting from the empty resolver,
    [resolve] answers what the map of pairs to bindings answers: the latest
    active key, [Revoked], or [NotFound]. *)
Theorem in_memory_resolver_refines `{Dalek} ops s k :
  Forall op_wf ops -> str_wf s -> str_wf k ->
  in_memory_resolve (foldl run_op in_memory_resolver_new ops) s k
  = resolve_spec (foldl spec_op (fun _ _ => None) ops) s k.
Proof.
  intros Hops Hs Hk. unfold in_memory_resolve, resolve_spec.
  rewrite (run_ops_represents ops in_memory_resolver_new (fun _ _ => None)); [done|done| |done|done].
  intros s' k' _ _. apply lookup_empty.
Qed.

Import Toy.

