(* ===== verification/Constraints.v ===== *)
(** * Message-shape constraints and envelope extraction

    [mcps-core/src/constraints.rs]: the structural rejects, the location and
    deserialization of the four envelopes with their fail-closed error
    classification, and the draft-02 selector and binding checks. *)

From S2P Require Import Prelude Utf8 Errors Json Signing Envelope Instances.

Definition KNOWN_CANONICALIZATION_SCHEMES : list rstr := [CANONICALIZATION_ID_INT53_V1].

Definition reject_batch (msg : Value) : result unit McpsError :=
  if is_array msg then Err BatchForbidden else Ok tt.

Definition reject_notification (msg : Value) : result unit McpsError :=
  match get (str "id") msg with
  | Some VNull | None => Err NotificationForbidden
  | Some _ => Ok tt
  end.

Definition locate_envelope (msg : Value) (outer meta_key : rstr) : result Value McpsError :=
  ok_or (outer_val ← get outer msg; meta ← get (str "_meta") outer_val; get meta_key meta)
    MissingEnvelope.

Definition deserialize_envelope {T : Type} `{Deserialize T} (raw : Value) : result T McpsError :=
  match from_value raw with
  | Ok envelope => Ok envelope
  | Err err =>
      if starts_with (str "unknown field") err
      then Err UnknownEnvelopeField
      else Err CanonicalizationFailed
  end.

Definition classify_request_envelope_error (raw : Value) (original : McpsError) : McpsError :=
  if negb (bool_decide (original = CanonicalizationFailed)) then original else
  match as_object raw with
  | None => original
  | Some obj =>
      if negb (map_contains_key (str "authorization_hash") obj) then AuthorizationHashMissing
      else if negb (map_contains_key (str "on_behalf_of") obj) then OnBehalfOfMissing
      else original
  end.

Definition classify_draft02_request_envelope_error (raw : Value) (original : McpsError) : McpsError :=
  if negb (bool_decide (original = CanonicalizationFailed)) then original else
  match as_object raw with
  | Some obj =>
      if negb (map_contains_key (str "authorization_binding") obj)
      then AuthorizationBindingMissing else original
  | None => original
  end.

Definition get_str (k : rstr) (obj : Map) : option rstr := map_get k obj ≫= as_str.

Definition REFERENCE_ONLY : list rstr :=
  [str "authorization_system_id"; str "reference_scheme_id"; str "reference_value"].

(** The field set of a base binding form, or the error of its absence. *)
Definition required_binding_fields (obj : Map) (binding_type : rstr) : result (list rstr) McpsError :=
  if bool_decide (binding_type = BINDING_TYPE_OPAQUE_BYTES) then
    if existsb (fun k => map_contains_key k obj) REFERENCE_ONLY
    then Err AuthorizationBindingAmbiguousBytes
    else Ok [str "binding_type"; str "digest_alg"; str "digest_value"]
  else if bool_decide (binding_type = BINDING_TYPE_AUTHZ_SYSTEM_REFERENCE) then
    Ok [str "binding_type"; str "authorization_system_id"; str "reference_scheme_id";
        str "reference_value"; str "digest_alg"; str "digest_value"]
  else Err AuthorizationBindingTypeUnsupported.

(** The loop over the required keys: each a non-empty string. *)
Definition check_required (obj : Map) (required : list rstr) : bool :=
  forallb (fun key => match get_str key obj with Some s => negb (is_empty s) | None => false end) required.

Definition check_authorization_binding (raw : Value) : result unit McpsError :=
  let? binding := ok_or (get (str "authorization_binding") raw) AuthorizationBindingMissing in
  let? obj := ok_or (as_object binding) AuthorizationBindingMalformed in
  let? binding_type := ok_or (get_str (str "binding_type") obj) AuthorizationBindingMalformed in
  let? required := required_binding_fields obj binding_type in
  if negb (bool_decide (length obj = length required)) then Err AuthorizationBindingMalformed
  else if negb (check_required obj required) then Err AuthorizationBindingMalformed
  else if negb (bool_decide (get_str (str "digest_alg") obj = Some DIGEST_ALG_SHA256))
       then Err AuthorizationBindingMalformed
  else Ok tt.

Definition require_draft02_version (raw : Value) : result unit McpsError :=
  if bool_decide (get (str "version") raw ≫= as_str = Some VERSION_DRAFT_02)
  then Ok tt else Err UnsupportedVersion.

Definition classify_canonicalization_id (id : rstr) (allowlist known : list rstr)
  : result unit McpsError :=
  if bool_decide (id ∈ allowlist) then Ok tt
  else if bool_decide (id ∈ known) then Err CanonicalizationIdNotAllowed
  else Err CanonicalizationIdUnknown.

Definition check_canonicalization_id (raw : Value) : result unit McpsError :=
  match get (str "canonicalization_id") raw ≫= as_str with
  | Some id =>
      classify_canonicalization_id id DRAFT_02_CANONICALIZATION_ALLOWLIST
        KNOWN_CANONICALIZATION_SCHEMES
  | None => Err CanonicalizationIdMissing
  end.

Section Extraction.
Context `{Deserialize RequestEnvelope, Deserialize ResponseEnvelope}.
Context `{Deserialize Draft02RequestEnvelope, Deserialize Draft02ResponseEnvelope}.

Definition extract_request_envelope (msg : Value) : result RequestEnvelope McpsError :=
  let? raw := locate_envelope msg (str "params") REQUEST_META_KEY in
  let? envelope := map_err (classify_request_envelope_error raw) (deserialize_envelope raw) in
  if negb (bool_decide (req_version envelope = VERSION_DRAFT_01)) then Err UnsupportedVersion
  else Ok envelope.

Definition extract_response_envelope (msg : Value) : result ResponseEnvelope McpsError :=
  let? raw := locate_envelope msg (str "result") RESPONSE_META_KEY in
  deserialize_envelope raw.

Definition extract_draft02_request_envelope (msg : Value)
  : result Draft02RequestEnvelope McpsError :=
  let? raw := locate_envelope msg (str "params") REQUEST_META_KEY in
  try? require_draft02_version raw ;;
  try? check_canonicalization_id raw ;;
  try? check_authorization_binding raw ;;
  map_err (classify_draft02_request_envelope_error raw) (deserialize_envelope raw).

Definition extract_draft02_response_envelope (msg : Value)
  : result Draft02ResponseEnvelope McpsError :=
  let? raw := locate_envelope msg (str "result") RESPONSE_META_KEY in
  try? require_draft02_version raw ;;
  try? check_canonicalization_id raw ;;
  deserialize_envelope raw.
End Extraction.

(** ** Facts the verifier builds on *)

Lemma locate_envelope_path msg outer mk raw :
  locate_envelope msg outer mk = Ok raw <-> path_get [outer; str "_meta"; mk] msg = Some raw.
Proof.
  unfold locate_envelope. rewrite ok_or_Ok. cbn [path_get].
  destruct (get outer msg) as [a|]; cbn; [|done].
  destruct (get (str "_meta") a) as [b|]; cbn; [|done]. by destruct (get mk b).
Qed.

Lemma deserialize_envelope_Ok `{Deserialize T} raw (t : T) :
  deserialize_envelope raw = Ok t <-> from_value raw = Ok t.
Proof.
  unfold deserialize_envelope. destruct (from_value raw); [naive_solver|].
  destruct (starts_with _ _); naive_solver.
Qed.

Lemma get_str_Some k obj s : get_str k obj = Some s <-> map_get k obj = Some (VString s).
Proof. unfold get_str. destruct (map_get k obj) as [[]|]; cbn; naive_solver. Qed.

Lemma require_draft02_version_Ok raw u :
  require_draft02_version raw = Ok u <-> get (str "version") raw = Some (VString VERSION_DRAFT_02).
Proof.
  unfold require_draft02_version. destruct u. case_bool_decide as E; split; try done;
    destruct (get _ raw) as [[]|]; cbn in E; naive_solver.
Qed.

Lemma check_canonicalization_id_Ok raw u :
  check_canonicalization_id raw = Ok u <->
  get (str "canonicalization_id") raw = Some (VString CANONICALIZATION_ID_INT53_V1).
Proof.
  unfold check_canonicalization_id, classify_canonicalization_id, DRAFT_02_CANONICALIZATION_ALLOWLIST.
  destruct u, (get _ raw) as [[]|]; cbn [mbind option_bind as_str]; try naive_solver.
  case_bool_decide as Hin; [|case_bool_decide].
  - apply list_elem_of_singleton in Hin. naive_solver.
  - split; [done|]. intros [= ->]. destruct Hin. by apply list_elem_of_singleton.
  - split; [done|]. intros [= ->]. destruct Hin. by apply list_elem_of_singleton.
Qed.

(** The envelope is the value at [container._meta\[key\]], and its signature
    block an object: then the deserialized struct is what its members say. *)
Lemma located_members {T} `{WireStruct T, !Deserialize T, !DeserializeLaws T} loc msg raw (t : T) :
  path_get [container_key loc; str "_meta"; meta_key loc] msg = Some raw ->
  has_signature_block loc msg = true -> from_value raw = Ok t ->
  exists m sg, raw = VObject m /\ map_get (str "signature") m = Some (VObject sg) /\
    wire_members (fun _ => nested_when_object) m t /\ Forall (fun k => k ∈ wire_fields T) m.*1.
Proof.
  intros Hp Hs Ht. unfold has_signature_block in Hs.
  change [_; _; _; str "signature"] with ([container_key loc; str "_meta"; meta_key loc] ++ [str "signature"]) in Hs.
  assert (Happ : forall ks ks' v, path_get (ks ++ ks') v = path_get ks v ≫= path_get ks').
  { induction ks as [|k ks IH]; intros ks' v; cbn; [done|]. destruct (get k v); cbn; auto. }
  rewrite Happ, Hp in Hs. cbn in Hs. destruct raw as [| | | | |m]; try done. cbn in Hs.
  destruct (map_get (str "signature") m) as [[| | | | |sg]|] eqn:E; try done.
  apply from_value_reads in Ht as [Hm Hf]. by exists m, sg.
Qed.

(** ** Error classification *)

(** An absent dedicated field is reported by its own token, whatever else
    the envelope omits and in whatever order [serde] reports it: on a
    draft-01 envelope object with no unknown name, absence of
    [authorization_hash] gives [AuthorizationHashMissing], and otherwise
    absence of [on_behalf_of] gives [OnBehalfOfMissing]. *)
Theorem absent_field_token `{!Deserialize RequestEnvelope, !DeserializeLaws RequestEnvelope} msg m :
  path_get [str "params"; str "_meta"; REQUEST_META_KEY] msg = Some (VObject m) ->
  Forall (fun k => k ∈ wire_fields RequestEnvelope) m.*1 ->
  (forall k m', map_get k m = Some (VObject m') -> Forall (fun k => k ∈ signature_fields) m'.*1) ->
  (str "authorization_hash" ∉ m.*1 ->
     extract_request_envelope msg = Err AuthorizationHashMissing) /\
  (str "authorization_hash" ∈ m.*1 -> str "on_behalf_of" ∉ m.*1 ->
     extract_request_envelope msg = Err OnBehalfOfMissing).
Proof.
  intros Hp Hf Hn. unfold extract_request_envelope.
  rewrite (proj2 (locate_envelope_path _ _ _ _) Hp).
  assert (Hd : (str "authorization_hash" ∉ m.*1 \/ str "on_behalf_of" ∉ m.*1) ->
            deserialize_envelope (T := RequestEnvelope) (VObject m) = Err CanonicalizationFailed).
  { intros Habs. unfold deserialize_envelope. destruct (from_value (VObject m)) as [e|msg'] eqn:E.
    - apply from_value_reads in E as [(_ & _ & Ho & _ & Ha & _) _]. unfold field in *.
      apply map_get_Some in Ho, Ha. destruct Habs as [Habs|Habs]; destruct Habs; apply list_elem_of_fmap;
        by eexists (_, _).
    - destruct (starts_with _ msg') eqn:Es; [|done]. exfalso.
      apply from_value_unknown_field in E as (k & [[Hk Hnk]|(k' & m' & Hm' & Hk & Hnk)]); [..|done].
      + by eapply (Forall_forall _ m.*1) in Hf.
      + apply Hn in Hm'. by eapply (Forall_forall _ m'.*1) in Hm'. }
  split.
  - intros Ha. rewrite Hd by auto. cbn [map_err]. unfold classify_request_envelope_error.
    rewrite bool_decide_eq_true_2 by done. cbn [negb as_object].
    by rewrite (proj2 (map_contains_key_false _ _) Ha).
  - intros Ha Ho. rewrite Hd by auto. cbn [map_err]. unfold classify_request_envelope_error.
    rewrite bool_decide_eq_true_2 by done. cbn [negb as_object].
    by rewrite (proj2 (map_contains_key_spec _ _) Ha), (proj2 (map_contains_key_false _ _) Ho).
Qed.

(** ** The authorization binding *)

(** The wire members of a binding. *)
Definition binding_members (b : AuthorizationBinding) : list (rstr * Value) :=
  match b with
  | OpaqueBytes da dv =>
      [(str "binding_type", VString BINDING_TYPE_OPAQUE_BYTES);
       (str "digest_alg", VString da); (str "digest_value", VString dv)]
  | AuthzSystemReference sys sch rv da dv =>
      [(str "binding_type", VString BINDING_TYPE_AUTHZ_SYSTEM_REFERENCE);
       (str "authorization_system_id", VString sys); (str "reference_scheme_id", VString sch);
       (str "reference_value", VString rv);
       (str "digest_alg", VString da); (str "digest_value", VString dv)]
  end.

(** [serde_json::to_value] of an [AuthorizationBinding]: the tag and the
    fields. *)
Definition binding_value (b : AuthorizationBinding) : Value := json_object (binding_members b).

Definition binding_digest_alg (b : AuthorizationBinding) : rstr :=
  match b with OpaqueBytes da _ | AuthzSystemReference _ _ _ da _ => da end.

Definition binding_nonempty (b : AuthorizationBinding) : Prop :=
  match b with
  | OpaqueBytes da dv => da <> [] /\ dv <> []
  | AuthzSystemReference sys sch rv da dv => sys <> [] /\ sch <> [] /\ rv <> [] /\ da <> [] /\ dv <> []
  end.

(** An object with the right number of members, all of [l] among them, is [l]. *)
Lemma members_exact {V} (m l : list (rstr * V)) :
  NoDup m.*1 -> NoDup l.*1 -> length m = length l ->
  Forall (fun kv => map_get kv.1 m = Some kv.2) l -> m ≡ₚ l.
Proof.
  intros Hm Hl Hlen Hg. symmetry. apply submseteq_length_Permutation; [|lia].
  apply NoDup_submseteq; [by eapply NoDup_fmap_1|]. intros [k v] Hin.
  apply map_get_Some. by eapply (Forall_forall _ l) in Hg; [|exact Hin].
Qed.

Lemma check_required_Forall obj ks :
  check_required obj ks = true <->
  Forall (fun k => exists s, map_get k obj = Some (VString s) /\ s <> []) ks.
Proof.
  unfold check_required. rewrite forallb_Forall_true. apply Forall_proper; [|done]. intros k.
  destruct (get_str k obj) as [s|] eqn:E.
  - apply get_str_Some in E. rewrite E. destruct s; cbn; naive_solver.
  - split; [done|]. intros (s & Hs & _). apply get_str_Some in Hs. congruence.
Qed.

Lemma NoDup_binding_members b : NoDup (binding_members b).*1.
Proof. destruct b; apply (bool_decide_unpack _); vm_compute; exact I. Qed.

Lemma binding_members_get b k v m :
  NoDup m.*1 -> m ≡ₚ binding_members b -> (k, v) ∈ binding_members b -> map_get k m = Some v.
Proof. intros Hd Hp Hin. apply map_get_elem; [done|]. by rewrite Hp. Qed.

(** Find a literal key among the members of a form. *)
Ltac find_member :=
  cbn [binding_members]; repeat first [apply list_elem_of_here | apply list_elem_of_further].

(** A well-formed form passes every test of the code. *)
Lemma binding_form_passes m b :
  NoDup m.*1 -> m ≡ₚ binding_members b -> binding_nonempty b -> binding_digest_alg b = DIGEST_ALG_SHA256 ->
  exists t req, get_str (str "binding_type") m = Some t /\ required_binding_fields m t = Ok req /\
    length m = length req /\ check_required m req = true /\
    get_str (str "digest_alg") m = Some DIGEST_ALG_SHA256.
Proof.
  intros Hd Hp Hne Hda. pose proof (fun k v => binding_members_get b k v m Hd Hp) as Hget.
  assert (Hkeys : m.*1 ≡ₚ (binding_members b).*1) by (by rewrite Hp).
  assert (Hno : forall k, k ∉ (binding_members b).*1 -> map_contains_key k m = false).
  { intros k Hk. apply map_contains_key_false. by rewrite Hkeys. }
  destruct b as [da dv|sys sch rv da dv]; cbn in Hda; subst da;
    eexists _, _; (split; [apply get_str_Some, Hget; left|]).
  - split; [unfold required_binding_fields; rewrite bool_decide_eq_true_2 by done|].
    { unfold REFERENCE_ONLY; cbn [existsb].
      rewrite !Hno by (apply (bool_decide_unpack _); vm_compute; exact I). done. }
    split; [by rewrite Hp|]. split.
    + apply check_required_Forall. cbn in Hne. rewrite !Forall_cons, Forall_nil.
      repeat (apply conj; [eexists; split; [apply Hget; find_member|first [done|apply Hne]]|]). done.
    + apply get_str_Some, Hget. find_member.
  - split; [unfold required_binding_fields; rewrite bool_decide_eq_false_2 by done;
            rewrite bool_decide_eq_true_2 by done; reflexivity|].
    split; [by rewrite Hp|]. split.
    + apply check_required_Forall. cbn in Hne. rewrite !Forall_cons, Forall_nil.
      repeat (apply conj; [eexists; split; [apply Hget; find_member|first [done|apply Hne]]|]). done.
    + apply get_str_Some, Hget. find_member.
Qed.

(** The tests of the code leave only the two forms. *)
Lemma binding_tests_form m t req :
  NoDup m.*1 -> get_str (str "binding_type") m = Some t -> required_binding_fields m t = Ok req ->
  length m = length req -> check_required m req = true ->
  exists b, m ≡ₚ binding_members b /\ binding_nonempty b /\
    map_get (str "digest_alg") m = Some (VString (binding_digest_alg b)).
Proof.
  intros Hd Ht Hreq Hlen Hc. apply get_str_Some in Ht. unfold required_binding_fields in Hreq.
  apply check_required_Forall in Hc.
  case_bool_decide; [destruct (existsb _ _); [done|]|case_bool_decide; [|done]]; simplify_eq;
    repeat match goal with
           | H : Forall _ (_ :: _) |- _ => apply Forall_cons in H as [(? & ? & ?) H]
           end; rewrite Ht in *; simplify_eq.
  - eexists (OpaqueBytes _ _). split; [apply members_exact; [done|apply NoDup_binding_members|done|]|].
    + cbn [binding_members]. rewrite !Forall_cons, Forall_nil. repeat split; eassumption.
    + cbn. split; [by repeat split|eassumption].
  - eexists (AuthzSystemReference _ _ _ _ _). split; [apply members_exact; [done|apply NoDup_binding_members|done|]|].
    + cbn [binding_members]. rewrite !Forall_cons, Forall_nil. repeat split; eassumption.
    + cbn. split; [by repeat split|eassumption].
Qed.

Lemma check_authorization_binding_Ok raw :
  value_wf raw ->
  (check_authorization_binding raw = Ok tt <->
   exists m b, get (str "authorization_binding") raw = Some (VObject m) /\
     m ≡ₚ binding_members b /\ binding_nonempty b /\ binding_digest_alg b = DIGEST_ALG_SHA256).
Proof.
  intros W. unfold check_authorization_binding.
  destruct raw as [| | | | |r]; try (split; [done|by intros (? & ? & ? & _)]). cbn [get].
  pose proof (value_wf_object _ W) as (_ & _ & Hg).
  destruct (map_get (str "authorization_binding") r) as [v|] eqn:Ev; cbn [ok_or];
    [|split; [done|by intros (? & ? & ? & _)]].
  destruct v as [| | | | |m]; cbn [as_object ok_or]; try (split; [done|by intros (? & ? & ? & _)]).
  apply Hg, value_wf_object in Ev as (Hd & _ & _). split.
  - intros H. destruct (get_str (str "binding_type") m) as [t|] eqn:Et; [|done]. cbn in H.
    destruct (required_binding_fields m t) as [req|] eqn:Er; [|done].
    case_bool_decide as El; [|done]. destruct (check_required m req) eqn:Ec; [|done].
    case_bool_decide as Ea; [|done].
    destruct (binding_tests_form m t req) as (b & Hp & Hne & Hda); [done..|].
    exists m, b. repeat split; [done..|]. apply get_str_Some in Ea. congruence.
  - intros (m' & b & [= <-] & Hp & Hne & Hda).
    destruct (binding_form_passes m b) as (t & req & -> & Hr & Hl & Hc & Ha); [done..|].
    cbn. rewrite Hr, Hc, Ha. by repeat rewrite bool_decide_eq_true_2 by done.
Qed.

Import Toy.

(** An envelope that omits [authorization_hash] together with earlier fields. *)
Definition sample_partial_envelope : Map :=
  [(str "version", VString VERSION_DRAFT_01); (str "nonce", VString (str "n1"))].

