(* ===== verification/Pipeline.v ===== *)
(** * The verification pipeline: operations

    [mcps-core/src/pipeline.rs]: [verify_request], [verify_response], their
    draft-02 counterparts and the policy-gated dispatcher, step by step in the
    normative order.  The replay cache is a [&mut] argument: a verifier returns
    the cache it leaves behind next to its verdict, and the cache is unchanged
    on every early return. *)

From S2P Require Import Prelude Utf8 Errors Json Canonical Signing Time Crypto Envelope Constraints.
From S2P Require Import Replay Resolver.

Record VerificationConfig : Type := {
  expected_audience : rstr;
  max_clock_skew_secs : Z;
}.

Inductive VerifiedAuthorization : Type :=
| Draft01Hash (authorization_hash : rstr)
| Draft02Binding (authorization_binding : AuthorizationBinding).

Definition draft01_hash (a : VerifiedAuthorization) : option rstr :=
  match a with Draft01Hash h => Some h | Draft02Binding _ => None end.

Definition draft02_binding (a : VerifiedAuthorization) : option AuthorizationBinding :=
  match a with Draft02Binding b => Some b | Draft01Hash _ => None end.

Record VerifiedRequest : Type := {
  vr_verified_signer : rstr;
  vr_key_id : rstr;
  vr_on_behalf_of : rstr;
  vr_audience : rstr;
  vr_authorization : VerifiedAuthorization;
  vr_request_hash : rstr;
  vr_nonce : rstr;
  vr_issued_at : rstr;
  vr_expires_at : rstr;
  vr_canonicalization_id : option rstr;
}.

Record VerifiedResponse : Type := {
  vresp_server_signer : rstr;
  vresp_key_id : rstr;
  vresp_request_hash : rstr;
}.

(** ** Step 7 *)

Definition check_authorization_hash (authorization_hash : rstr) : result unit McpsError :=
  if is_empty authorization_hash || negb (starts_with (str "sha256:") authorization_hash)
  then Err AuthorizationHashMissing else Ok tt.

Definition check_on_behalf_of (on_behalf_of : rstr) : result unit McpsError :=
  if is_empty on_behalf_of then Err OnBehalfOfInvalidFormat else Ok tt.

Definition check_signature_block (alg : rstr) (value : option rstr) : result unit McpsError :=
  try? ensure_ed25519_alg alg InvalidSignature ;;
  match value with None => Err InvalidSignature | Some _ => Ok tt end.

(** ** Version policy *)

Inductive ExpectedVersionPolicy : Type := Draft02Only | Draft01AndDraft02.

Inductive VersionPolicyError : Type :=
| VersionPolicyUnset
| VersionPolicyUnrecognized (value : rstr).

Definition version_policy_from_config (value : option rstr)
  : result ExpectedVersionPolicy VersionPolicyError :=
  match value with
  | None => Err VersionPolicyUnset
  | Some v =>
      if bool_decide (v = str "draft-02-only") then Ok Draft02Only
      else if bool_decide (v = str "draft-01-and-draft-02") then Ok Draft01AndDraft02
      else Err (VersionPolicyUnrecognized v)
  end.

Definition admits (p : ExpectedVersionPolicy) (version : rstr) : bool :=
  match p with
  | Draft02Only => bool_decide (version = VERSION_DRAFT_02)
  | Draft01AndDraft02 =>
      bool_decide (version = VERSION_DRAFT_01) || bool_decide (version = VERSION_DRAFT_02)
  end.

Definition read_request_envelope_version (value : Value) : result rstr McpsError :=
  let? envelope := ok_or (p ← get (str "params") value; m ← get (str "_meta") p;
                          get REQUEST_META_KEY m) MissingEnvelope in
  ok_or (get (str "version") envelope ≫= as_str) UnsupportedVersion.

Section Pipeline.
Context `{SerdeJson, Base64, Sha2, Dalek}.
Context `{!Deserialize RequestEnvelope, !Deserialize ResponseEnvelope}.
Context `{!Deserialize Draft02RequestEnvelope, !Deserialize Draft02ResponseEnvelope}.
Context `{ReplayCache C}.

(** A verifier run on a cache: the steps before the replay check leave it
    alone. *)
Local Notation "'let!' x ':=' c 'in' k" :=
  (fun replay : C => match c with Ok x => k replay | Err e => (Err e, replay) end)
  (at level 10, x pattern, c at level 99, k at level 200).
Local Notation "'try!' c ';;' k" :=
  (fun replay : C => match c with Ok _ => k replay | Err e => (Err e, replay) end)
  (at level 10, c at level 99, k at level 200).

Definition from_slice_or_fail (raw_bytes : bytes) : result Value McpsError :=
  ok_or (from_slice raw_bytes) CanonicalizationFailed.

Definition verify_request (raw_bytes : bytes) (resolver : TrustResolver)
    (config : VerificationConfig) (now_unix : Z) : C -> result VerifiedRequest McpsError * C :=
  let! value := from_slice_or_fail raw_bytes in
  try! reject_batch value ;;
  try! reject_notification value ;;
  try! canonicalize raw_bytes ;;
  let! envelope := extract_request_envelope value in
  try! check_authorization_hash (req_authorization_hash envelope) ;;
  try! check_on_behalf_of (req_on_behalf_of envelope) ;;
  try! check_signature_block (alg (req_signature envelope)) (sig_value (req_signature envelope)) ;;
  try! (if negb (bool_decide (req_audience envelope = expected_audience config))
        then Err InvalidAudience else Ok tt) ;;
  try! check_freshness (req_issued_at envelope) (req_expires_at envelope) now_unix
         (max_clock_skew_secs config) ;;
  let! key := map_err trust_to_mcps_error
                (resolver (req_signer envelope) (key_id (req_signature envelope))) in
  let! preimage := request_signing_preimage value in
  let! signature_value := ok_or (sig_value (req_signature envelope)) InvalidSignature in
  try! verify_ed25519 preimage signature_value key ;;
  let! expires_at_unix := parse_rfc3339_utc (req_expires_at envelope) in
  fun replay =>
    match check_and_insert replay (req_signer envelope) (req_audience envelope)
            (req_nonce envelope) expires_at_unix with
    | (Err err, replay') => (Err (replay_to_mcps_error err), replay')
    | (Ok Replay, replay') => (Err ReplayDetected, replay')
    | (Ok Fresh, replay') =>
        (let? computed_request_hash := request_hash value in
         Ok {| vr_verified_signer := req_signer envelope;
               vr_key_id := key_id (req_signature envelope);
               vr_on_behalf_of := req_on_behalf_of envelope;
               vr_audience := req_audience envelope;
               vr_authorization := Draft01Hash (req_authorization_hash envelope);
               vr_request_hash := computed_request_hash;
               vr_nonce := req_nonce envelope;
               vr_issued_at := req_issued_at envelope;
               vr_expires_at := req_expires_at envelope;
               vr_canonicalization_id := None |}, replay')
    end.

Definition verify_request_draft02 (raw_bytes : bytes) (resolver : TrustResolver)
    (config : VerificationConfig) (now_unix : Z) : C -> result VerifiedRequest McpsError * C :=
  let! value := from_slice_or_fail raw_bytes in
  try! reject_batch value ;;
  try! reject_notification value ;;
  try! canonicalize raw_bytes ;;
  let! envelope := extract_draft02_request_envelope value in
  try! check_on_behalf_of (d2_on_behalf_of envelope) ;;
  try! check_signature_block (alg (d2_signature envelope)) (sig_value (d2_signature envelope)) ;;
  try! (if negb (bool_decide (d2_audience envelope = expected_audience config))
        then Err InvalidAudience else Ok tt) ;;
  try! check_freshness (d2_issued_at envelope) (d2_expires_at envelope) now_unix
         (max_clock_skew_secs config) ;;
  let! key := map_err trust_to_mcps_error
                (resolver (d2_signer envelope) (key_id (d2_signature envelope))) in
  let! preimage := request_signing_preimage value in
  let! signature_value := ok_or (sig_value (d2_signature envelope)) InvalidSignature in
  try! verify_ed25519 preimage signature_value key ;;
  let! expires_at_unix := parse_rfc3339_utc (d2_expires_at envelope) in
  fun replay =>
    match check_and_insert replay (d2_signer envelope) (d2_audience envelope)
            (d2_nonce envelope) expires_at_unix with
    | (Err err, replay') => (Err (replay_to_mcps_error err), replay')
    | (Ok Replay, replay') => (Err ReplayDetected, replay')
    | (Ok Fresh, replay') =>
        (let? computed_request_hash := request_hash value in
         Ok {| vr_verified_signer := d2_signer envelope;
               vr_key_id := key_id (d2_signature envelope);
               vr_on_behalf_of := d2_on_behalf_of envelope;
               vr_audience := d2_audience envelope;
               vr_authorization := Draft02Binding (d2_authorization_binding envelope);
               vr_request_hash := computed_request_hash;
               vr_nonce := d2_nonce envelope;
               vr_issued_at := d2_issued_at envelope;
               vr_expires_at := d2_expires_at envelope;
               vr_canonicalization_id := Some (d2_canonicalization_id envelope) |}, replay')
    end.

Definition verify_response (raw_bytes : bytes) (resolver : TrustResolver)
    (expected_request_hash : rstr) : result VerifiedResponse McpsError :=
  let? value := from_slice_or_fail raw_bytes in
  try? reject_batch value ;;
  try? reject_notification value ;;
  try? canonicalize raw_bytes ;;
  let? envelope := extract_response_envelope value in
  try? ensure_ed25519_alg (alg (resp_signature envelope)) ResponseSigInvalid ;;
  let? key := map_err trust_to_mcps_error
                (resolver (resp_server_signer envelope) (key_id (resp_signature envelope))) in
  let? preimage := response_signing_preimage value in
  let? signature_value := ok_or (sig_value (resp_signature envelope)) ResponseSigInvalid in
  try? verify_ed25519_with preimage signature_value key ResponseSigInvalid ;;
  if negb (bool_decide (resp_request_hash envelope = expected_request_hash))
  then Err ResponseHashMismatch
  else Ok {| vresp_server_signer := resp_server_signer envelope;
             vresp_key_id := key_id (resp_signature envelope);
             vresp_request_hash := resp_request_hash envelope |}.

Definition verify_response_draft02 (raw_bytes : bytes) (resolver : TrustResolver)
    (expected_request_hash expected_canonicalization_id : rstr)
  : result VerifiedResponse McpsError :=
  let? value := from_slice_or_fail raw_bytes in
  try? reject_batch value ;;
  try? reject_notification value ;;
  try? canonicalize raw_bytes ;;
  let? envelope := extract_draft02_response_envelope value in
  try? ensure_ed25519_alg (alg (d2r_signature envelope)) ResponseSigInvalid ;;
  let? key := map_err trust_to_mcps_error
                (resolver (d2r_server_signer envelope) (key_id (d2r_signature envelope))) in
  let? preimage := response_signing_preimage value in
  let? signature_value := ok_or (sig_value (d2r_signature envelope)) ResponseSigInvalid in
  try? verify_ed25519_with preimage signature_value key ResponseSigInvalid ;;
  if negb (bool_decide (d2r_canonicalization_id envelope = expected_canonicalization_id))
  then Err CanonicalizationIdMismatch
  else if negb (bool_decide (d2r_request_hash envelope = expected_request_hash))
  then Err ResponseHashMismatch
  else Ok {| vresp_server_signer := d2r_server_signer envelope;
             vresp_key_id := key_id (d2r_signature envelope);
             vresp_request_hash := d2r_request_hash envelope |}.

Definition verify_request_dispatch (raw_bytes : bytes) (resolver : TrustResolver)
    (config : VerificationConfig) (now_unix : Z) (policy : ExpectedVersionPolicy)
  : C -> result VerifiedRequest McpsError * C :=
  let! value := from_slice_or_fail raw_bytes in
  try! reject_batch value ;;
  try! reject_notification value ;;
  let! version := read_request_envelope_version value in
  let recognized :=
    bool_decide (version = VERSION_DRAFT_01) || bool_decide (version = VERSION_DRAFT_02) in
  try! (if negb recognized then Err UnsupportedVersion else Ok tt) ;;
  try! (if negb (admits policy version) then Err DowngradeForbidden else Ok tt) ;;
  if bool_decide (version = VERSION_DRAFT_01)
  then verify_request raw_bytes resolver config now_unix
  else verify_request_draft02 raw_bytes resolver config now_unix.
End Pipeline.
