(* ===== verification/Samples.v ===== *)
(** * Sample messages

    A signed draft-01 request, a signed draft-02 request and responses to them,
    built with the stand-ins of [Instances.v], for the closed examples of the
    pipeline. *)

From S2P Require Import Prelude Utf8 Errors Json Canonical Signing Time Crypto Envelope Instances.
From S2P Require Import Constraints Replay Resolver Pipeline.

Import Toy.

(** The text of a message with [sg] as its signature value. *)
Definition sample_text01 (sg : rstr) : bytes :=
  json_text "{'jsonrpc':'2.0','id':1,'method':'tools/call','params':{'name':'read','_meta':{'traceparent':'00-ab','se.syncom/mcps.request':{'version':'draft-01','signer':'did:a','on_behalf_of':'user:u','audience':'did:srv','authorization_hash':'sha256:aa','nonce':'n1','issued_at':'2024-01-01T00:00:00Z','expires_at':'2024-01-01T00:05:00Z','signature':{'alg':'Ed25519','key_id':'k1','value':'"
  ++ sg ++ json_text "'}}}}}".

Definition sample_text02 (sg : rstr) : bytes :=
  json_text "{'jsonrpc':'2.0','id':2,'method':'tools/call','params':{'name':'read','_meta':{'se.syncom/mcps.request':{'version':'draft-02','canonicalization_id':'mcps-jcs-int53-json-v1','signer':'did:a','on_behalf_of':'user:u','audience':'did:srv','authorization_binding':{'binding_type':'opaque-bytes','digest_alg':'sha256','digest_value':'aa'},'nonce':'n2','issued_at':'2024-01-01T00:00:00Z','expires_at':'2024-01-01T00:05:00Z','signature':{'alg':'Ed25519','key_id':'k1','value':'"
  ++ sg ++ json_text "'}}}}}".

Definition sample_response_text01 (hash sg : rstr) : bytes :=
  json_text "{'jsonrpc':'2.0','id':1,'result':{'ok':true,'_meta':{'se.syncom/mcps.response':{'request_hash':'"
  ++ hash ++ json_text "','server_signer':'did:srv','issued_at':'2024-01-01T00:00:01Z','signature':{'alg':'Ed25519','key_id':'s1','value':'"
  ++ sg ++ json_text "'}}}}}".

Definition sample_response_text02 (hash sg : rstr) : bytes :=
  json_text "{'jsonrpc':'2.0','id':2,'result':{'ok':true,'_meta':{'se.syncom/mcps.response':{'version':'draft-02','canonicalization_id':'mcps-jcs-int53-json-v1','request_hash':'"
  ++ hash ++ json_text "','server_signer':'did:srv','issued_at':'2024-01-01T00:00:01Z','signature':{'alg':'Ed25519','key_id':'s1','value':'"
  ++ sg ++ json_text "'}}}}}".

Definition sample_key : SigningKey := {| sk_inner := true |}.

Definition preimage_of (loc : EnvelopeLocation) (text : bytes) : bytes :=
  match from_slice text with
  | Some v => match signing_preimage v loc with Ok p => p | Err _ => [] end
  | None => []
  end.

(** A text with its own signature filled in. *)
Definition signed (loc : EnvelopeLocation) (text : rstr -> bytes) : bytes :=
  text (sign sample_key (preimage_of loc (text []))).

Definition sample_raw01 : bytes := Eval vm_compute in signed Request sample_text01.
Definition sample_raw02 : bytes := Eval vm_compute in signed Request sample_text02.

Definition sample_hash01 : rstr := Eval vm_compute in sha256_hash_id (preimage_of Request sample_raw01).
Definition sample_hash02 : rstr := Eval vm_compute in sha256_hash_id (preimage_of Request sample_raw02).

Definition sample_response01 : bytes :=
  Eval vm_compute in signed Response (sample_response_text01 sample_hash01).
Definition sample_response02 : bytes :=
  Eval vm_compute in signed Response (sample_response_text02 sample_hash02).

Definition sample_resolver : TrustResolver :=
  in_memory_resolve (resolver_insert (resolver_insert in_memory_resolver_new (str "did:a") (str "k1")
    (public_key sample_key)) (str "did:srv") (str "s1") (public_key sample_key)).

Definition sample_config : VerificationConfig :=
  {| expected_audience := str "did:srv"; max_clock_skew_secs := 60 |}.

(** A moment inside the window of the samples. *)
Definition sample_now : Z := 1704067300.

Definition sample_replay : InMemoryReplayCache := in_memory_new 60.

Example sample01_accepted :
  is_ok (verify_request sample_raw01 sample_resolver sample_config sample_now sample_replay).1 = true.
Proof. vm_compute. reflexivity. Qed.

Example sample02_accepted :
  is_ok (verify_request_draft02 sample_raw02 sample_resolver sample_config sample_now sample_replay).1 = true.
Proof. vm_compute. reflexivity. Qed.

(** A second delivery of the same bytes is a replay. *)
Example sample01_replayed :
  (verify_request sample_raw01 sample_resolver sample_config sample_now
     (verify_request sample_raw01 sample_resolver sample_config sample_now sample_replay).2).1
  = Err ReplayDetected.
Proof. vm_compute. reflexivity. Qed.

(** A request for another verifier is refused. *)
Example sample01_other_audience :
  (verify_request sample_raw01 sample_resolver {| expected_audience := str "x"; max_clock_skew_secs := 60 |}
     sample_now sample_replay).1 = Err InvalidAudience.
Proof. vm_compute. reflexivity. Qed.

Example sample_responses_accepted :
  is_ok (verify_response sample_response01 sample_resolver sample_hash01) = true /\
  is_ok (verify_response_draft02 sample_response02 sample_resolver sample_hash02
           CANONICALIZATION_ID_INT53_V1) = true /\
  verify_response sample_response01 sample_resolver sample_hash02 = Err ResponseHashMismatch.
Proof. vm_compute. split; [|split]; reflexivity. Qed.
