(* ===== verification/PipelineSpec.v ===== *)
(** * The verification pipeline: what a verdict means

    The abstract reading of the pipeline.  [authentic] collects what must hold
    of a message and the claims of its envelope for the signature to bind them
    to an enrolled key inside the freshness window; [commit] is the replay
    check that follows.  A verifier is proved to be [commit] on authentic
    messages, and an error that leaves the cache alone on all others; the
    verdicts of requests and responses are characterized exactly. *)

From S2P Require Import Prelude Utf8 Errors Json Canonical Signing Time Crypto Envelope Constraints.
From S2P Require Import Replay Resolver Pipeline.

(** The claims of an envelope, common to both profiles. *)
Record Claims : Type := {
  c_signer : rstr;
  c_on_behalf_of : rstr;
  c_audience : rstr;
  c_nonce : rstr;
  c_issued_at : rstr;
  c_expires_at : rstr;
  c_signature : SignatureBlock;
}.

Definition claims01 (e : RequestEnvelope) : Claims := {|
  c_signer := req_signer e; c_on_behalf_of := req_on_behalf_of e; c_audience := req_audience e;
  c_nonce := req_nonce e; c_issued_at := req_issued_at e; c_expires_at := req_expires_at e;
  c_signature := req_signature e |}.

Definition claims02 (e : Draft02RequestEnvelope) : Claims := {|
  c_signer := d2_signer e; c_on_behalf_of := d2_on_behalf_of e; c_audience := d2_audience e;
  c_nonce := d2_nonce e; c_issued_at := d2_issued_at e; c_expires_at := d2_expires_at e;
  c_signature := d2_signature e |}.

(** The replay key the claims are recorded under. *)
Definition claims_key (c : Claims) : replay_key := (c_signer c, c_audience c, c_nonce c).

(** Walk through the guards of the code in order. *)
Ltac walk :=
  repeat match goal with
  | |- context [match ?c with Ok _ => _ | Err _ => _ end] =>
      lazymatch c with
      | context [match _ with _ => _ end] => fail
      | _ => destruct c eqn:?; try reflexivity
      end
  | |- context [if ?c then _ else _] =>
      lazymatch c with
      | context [if _ then _ else _] => fail
      | _ => destruct c eqn:?; try reflexivity
      end
  end.

Section Spec.
Context `{SerdeJson, Base64, Sha2, Dalek}.
Context `{!Deserialize RequestEnvelope, !Deserialize ResponseEnvelope}.
Context `{!Deserialize Draft02RequestEnvelope, !Deserialize Draft02ResponseEnvelope}.
Context `{ReplayCache C}.

(** An addressable JSON-RPC object in the JCS-safe domain. *)
Definition well_shaped (raw_bytes : bytes) (v : Value) : Prop :=
  from_slice raw_bytes = Some v /\ is_ok (canonicalize raw_bytes) = true /\
  exists i, get (str "id") v = Some i /\ i <> VNull.

(** [sg] carries a strict Ed25519 signature under [key] of the preimage of [v]. *)
Definition signed_by (loc : EnvelopeLocation) (v : Value) (pre : bytes) (sg : SignatureBlock)
    (key : VerificationKey) : Prop :=
  signing_preimage v loc = Ok pre /\ alg sg = SIG_ALG_ED25519 /\
  exists s raw, sig_value sg = Some s /\ base64_decode s = Some raw /\
    length raw = SIGNATURE_LEN /\ dalek_verify_strict (vk_inner key) pre raw = true.

Definition authentic (resolver : TrustResolver) (config : VerificationConfig) (now : Z)
    (v : Value) (c : Claims) (pre : bytes) (te : Z) : Prop :=
  c_on_behalf_of c <> [] /\ c_audience c = expected_audience config /\
  (exists ti, parse_rfc3339_utc (c_issued_at c) = Ok ti /\ parse_rfc3339_utc (c_expires_at c) = Ok te /\
     ti <= te /\ saturating_sub ti (max_clock_skew_secs config) <= now
              <= saturating_add te (max_clock_skew_secs config)) /\
  exists key, resolver (c_signer c) (key_id (c_signature c)) = Ok key /\
    signed_by Request v pre (c_signature c) key.

(** The replay key of the claims consists of proper strings. *)
Definition claims_wf (c : Claims) : Prop := str_wf (c_signer c) /\ str_wf (c_audience c) /\ str_wf (c_nonce c).

(** What the located envelope object says under each profile. *)
Definition envelope01 (v : Value) (e : RequestEnvelope) : Prop :=
  exists m, path_get [str "params"; str "_meta"; REQUEST_META_KEY] v = Some (VObject m) /\
    wire_members (fun _ => nested_object) m e /\ Forall (fun k => k ∈ wire_fields RequestEnvelope) m.*1 /\
    req_version e = VERSION_DRAFT_01 /\ starts_with SHA256_PREFIX (req_authorization_hash e) = true.

Definition envelope02 (v : Value) (e : Draft02RequestEnvelope) : Prop :=
  exists m, path_get [str "params"; str "_meta"; REQUEST_META_KEY] v = Some (VObject m) /\
    wire_members (fun _ => nested_object) m e /\
    Forall (fun k => k ∈ wire_fields Draft02RequestEnvelope) m.*1 /\
    d2_version e = VERSION_DRAFT_02 /\ d2_canonicalization_id e = CANONICALIZATION_ID_INT53_V1 /\
    (exists b, map_get (str "authorization_binding") m = Some (VObject b) /\
       b ≡ₚ binding_members (d2_authorization_binding e)) /\
    binding_nonempty (d2_authorization_binding e) /\
    binding_digest_alg (d2_authorization_binding e) = DIGEST_ALG_SHA256.

Definition verdict (c : Claims) (auth : VerifiedAuthorization) (cid : option rstr) (pre : bytes)
  : VerifiedRequest := {|
  vr_verified_signer := c_signer c; vr_key_id := key_id (c_signature c);
  vr_on_behalf_of := c_on_behalf_of c; vr_audience := c_audience c; vr_authorization := auth;
  vr_request_hash := sha256_hash_id pre; vr_nonce := c_nonce c; vr_issued_at := c_issued_at c;
  vr_expires_at := c_expires_at c; vr_canonicalization_id := cid |}.

(** The replay step: record the claims, or reject. *)
Definition commit (c : Claims) (te : Z) (vr : VerifiedRequest) (replay : C)
  : result VerifiedRequest McpsError * C :=
  match check_and_insert replay (c_signer c) (c_audience c) (c_nonce c) te with
  | (Ok Fresh, replay') => (Ok vr, replay')
  | (Ok Replay, replay') => (Err ReplayDetected, replay')
  | (Err err, replay') => (Err (replay_to_mcps_error err), replay')
  end.

(** The steps 7 to 12 that read the claims, before the replay cache. *)
Definition authenticate (resolver : TrustResolver) (config : VerificationConfig) (now : Z)
    (v : Value) (c : Claims) : result (bytes * Z) McpsError :=
  try? check_on_behalf_of (c_on_behalf_of c) ;;
  try? check_signature_block (alg (c_signature c)) (sig_value (c_signature c)) ;;
  try? (if negb (bool_decide (c_audience c = expected_audience config))
        then Err InvalidAudience else Ok tt) ;;
  try? check_freshness (c_issued_at c) (c_expires_at c) now (max_clock_skew_secs config) ;;
  let? key := map_err trust_to_mcps_error (resolver (c_signer c) (key_id (c_signature c))) in
  let? pre := request_signing_preimage v in
  let? sv := ok_or (sig_value (c_signature c)) InvalidSignature in
  try? verify_ed25519 pre sv key ;;
  let? te := parse_rfc3339_utc (c_expires_at c) in
  Ok (pre, te).

Definition shape (raw_bytes : bytes) : result Value McpsError :=
  let? v := from_slice_or_fail raw_bytes in
  try? reject_batch v ;; try? reject_notification v ;; try? canonicalize raw_bytes ;; Ok v.

Definition checks01 (raw_bytes : bytes) (resolver : TrustResolver) (config : VerificationConfig) (now : Z)
  : result (RequestEnvelope * bytes * Z) McpsError :=
  let? v := shape raw_bytes in
  let? e := extract_request_envelope v in
  try? check_authorization_hash (req_authorization_hash e) ;;
  let? (pre, te) := authenticate resolver config now v (claims01 e) in
  Ok (e, pre, te).

Definition checks02 (raw_bytes : bytes) (resolver : TrustResolver) (config : VerificationConfig) (now : Z)
  : result (Draft02RequestEnvelope * bytes * Z) McpsError :=
  let? v := shape raw_bytes in
  let? e := extract_draft02_request_envelope v in
  let? (pre, te) := authenticate resolver config now v (claims02 e) in
  Ok (e, pre, te).

Lemma verify_request_checks raw resolver config now replay :
  verify_request raw resolver config now replay =
  match checks01 raw resolver config now with
  | Err err => (Err err, replay)
  | Ok (e, pre, te) =>
      commit (claims01 e) te (verdict (claims01 e) (Draft01Hash (req_authorization_hash e)) None pre) replay
  end.
Proof.
  unfold verify_request, checks01, shape, authenticate, commit, request_hash. cbn [claims01 c_signer c_on_behalf_of
    c_audience c_nonce c_issued_at c_expires_at c_signature].
  walk.
Qed.

Lemma verify_request_draft02_checks raw resolver config now replay :
  verify_request_draft02 raw resolver config now replay =
  match checks02 raw resolver config now with
  | Err err => (Err err, replay)
  | Ok (e, pre, te) =>
      commit (claims02 e) te
        (verdict (claims02 e) (Draft02Binding (d2_authorization_binding e))
           (Some (d2_canonicalization_id e)) pre) replay
  end.
Proof.
  unfold verify_request_draft02, checks02, shape, authenticate, commit, request_hash.
  cbn [claims02 c_signer c_on_behalf_of c_audience c_nonce c_issued_at c_expires_at c_signature].
  walk.
Qed.

Lemma shape_Ok raw v : shape raw = Ok v <-> well_shaped raw v.
Proof.
  unfold shape, well_shaped, from_slice_or_fail, reject_batch, reject_notification.
  destruct (from_slice raw) as [w|]; cbn [ok_or]; [|naive_solver].
  destruct w as [| | | | |m]; cbn [is_array get]; try (split; [done|by intros ([= <-] & _ & i & ? & _)]).
  destruct (map_get (str "id") m) as [i|] eqn:Ei; [|split; [done|by intros ([= <-] & _ & i & Hi & _); cbn in Hi; congruence]].
  destruct (decide (i = VNull)) as [->|Hi].
  - split; [done|]. intros ([= <-] & _ & i & Hi & Hn). cbn in Hi. congruence.
  - assert (E : (match i with VNull => Err NotificationForbidden | _ => Ok tt end) = @Ok unit McpsError tt)
      by (by destruct i).
    destruct (canonicalize raw); cbn [is_ok].
    + split; [|intros ([= <-] & _)]; [|by destruct i]. intros Hs. replace v with (VObject m) by (by destruct i; simplify_eq).
      split; [done|]. split; [done|]. exists i. by cbn.
    + split; [by destruct i|by intros (_ & ? & _)].
Qed.

Lemma authenticate_Ok resolver config now v c pre te :
  authenticate resolver config now v c = Ok (pre, te) <-> authentic resolver config now v c pre te.
Proof.
  unfold authenticate, authentic, signed_by, check_on_behalf_of, check_signature_block, ensure_ed25519_alg,
    request_signing_preimage. split.
  - intros Hc. destruct (is_empty _) eqn:E1; [done|].
    case_bool_decide as E2; [|done]. destruct (sig_value _) as [sv|] eqn:Es; [|done].
    case_bool_decide as E3; [|done]. cbn in Hc.
    destruct (check_freshness _ _ _ _) as [u|] eqn:E4; [|done].
    destruct (map_err _ _) as [key|] eqn:E5; [|done]. apply map_err_Ok in E5.
    destruct (signing_preimage v Request) as [pre'|] eqn:E6; [|done].
    destruct (verify_ed25519 pre' sv key) as [u'|] eqn:E7; [|done].
    destruct (parse_rfc3339_utc (c_expires_at c)) as [te'|] eqn:E8; [|done]. simplify_eq.
    apply verify_ed25519_with_Ok in E7 as (raw & ? & ? & ?).
    apply check_freshness_Ok in E4 as (ti & te' & Hi & He & ? & ?). rewrite E8 in He. simplify_eq.
    split; [by destruct (c_on_behalf_of c)|]. split; [done|]. split; [by exists ti|].
    exists key. split; [done|]. split; [done|]. split; [done|]. by exists sv, raw.
  - intros (Hob & Haud & (ti & Hi & He & Hle & Hw) & key & Hr & Hp & Ha & s & raw & Hs & Hd & Hl & Hv).
    destruct (c_on_behalf_of c); [done|]. cbn [is_empty].
    rewrite (bool_decide_eq_true_2 _ Ha), Hs, (bool_decide_eq_true_2 _ Haud).
    rewrite (proj2 (check_freshness_Ok _ _ _ _ tt)) by (by exists ti, te).
    rewrite Hr, Hp, He. cbn [negb map_err ok_or]. unfold verify_ed25519, verify_ed25519_with, b64url_decode, try_into_array.
    rewrite Hd. cbn [ok_or]. rewrite (bool_decide_eq_true_2 _ Hl), Hv. done.
Qed.
End Spec.

(** ** Extraction against the wire form *)

Lemma nested_upgrade {T} (P : Map -> T -> Prop) k m t m' :
  map_get k m = Some (VObject m') -> nested_when_object P k m t -> nested_object P k m t.
Proof. intros Hk (v & Hv & HP). rewrite Hk in Hv. simplify_eq. exists m'. auto. Qed.

Lemma nested_object_get {T} (P : Map -> T -> Prop) k m t :
  nested_object P k m t -> exists m', map_get k m = Some (VObject m').
Proof. intros (m' & Hk & _). by exists m'. Qed.

Lemma value_wf_path ks v w : value_wf v -> path_get ks v = Some w -> value_wf w.
Proof.
  revert v; induction ks as [|k ks IH]; intros v W Hp; cbn in Hp; [by simplify_eq|].
  destruct v as [| | | | |m]; try done. cbn in Hp. destruct (map_get k m) as [x|] eqn:E; [|done].
  apply value_wf_object in W as (_ & _ & Hg). eauto.
Qed.

Lemma has_signature_block_path loc v m :
  path_get [container_key loc; str "_meta"; meta_key loc] v = Some (VObject m) ->
  has_signature_block loc v = match map_get (str "signature") m with Some (VObject _) => true | _ => false end.
Proof.
  unfold has_signature_block. cbn [path_get].
  destruct (get (container_key loc) v) as [a|]; cbn [mbind option_bind]; [|done].
  destruct (get (str "_meta") a) as [b|]; cbn [mbind option_bind]; [|done].
  destruct (get (meta_key loc) b) as [w|]; cbn [mbind option_bind]; [|done].
  intros [= ->]. cbn [get]. by destruct (map_get (str "signature") m).
Qed.

Lemma signing_preimage_block loc v pre :
  signing_preimage v loc = Ok pre -> has_signature_block loc v = true.
Proof.
  unfold signing_preimage, strip_signature_value, has_signature_block. cbn [path_get]. intros Hp.
  destruct (get _ v) as [a|]; cbn in Hp |- *; [|done]. destruct (get _ a) as [b|]; cbn in Hp |- *; [|done].
  destruct (get _ b) as [e|]; cbn in Hp |- *; [|done]. destruct (get _ e) as [sg|]; cbn in Hp |- *; [|done].
  by destruct sg.
Qed.

(** An accepted struct read back from the object it was read from. *)
Lemma from_value_wire {T} `{WireStruct T, !Deserialize T, !DeserializeLaws T} m (t : T) :
  value_wf (VObject m) -> wire_members (fun _ => nested_object) m t ->
  Forall (fun k => k ∈ wire_fields T) m.*1 -> from_value (VObject m) = Ok t.
Proof. intros (Hd & _ & _)%value_wf_object. by apply from_value_accepts. Qed.

Section Extraction.
Context `{!Deserialize RequestEnvelope, !DeserializeLaws RequestEnvelope}.
Context `{!Deserialize Draft02RequestEnvelope, !DeserializeLaws Draft02RequestEnvelope}.

Lemma check_authorization_hash_Ok h u :
  check_authorization_hash h = Ok u <-> starts_with SHA256_PREFIX h = true.
Proof.
  unfold check_authorization_hash. destruct u. fold SHA256_PREFIX.
  destruct (starts_with SHA256_PREFIX h) eqn:E; [|by rewrite orb_true_r].
  destruct h as [|x h]; [done|]. done.
Qed.

Lemma extract01_Ok v e pre :
  value_wf v -> request_signing_preimage v = Ok pre ->
  (extract_request_envelope v = Ok e /\ check_authorization_hash (req_authorization_hash e) = Ok tt
   <-> envelope01 v e).
Proof.
  intros W Hpre. pose proof (signing_preimage_block _ _ _ Hpre) as Hblk.
  unfold extract_request_envelope, envelope01. rewrite check_authorization_hash_Ok. split.
  - intros [He Hh]. destruct (locate_envelope _ _ _) as [raw|] eqn:El; [|done].
    apply locate_envelope_path in El.
    destruct (map_err _ _) as [e'|] eqn:Em; [|done]. apply map_err_Ok, deserialize_envelope_Ok in Em.
    case_bool_decide as Hv; [|done]. cbn in He. simplify_eq.
    destruct (located_members Request _ _ _ El Hblk Em) as (m & sg & -> & Hsg & Hm & Hn).
    exists m. split; [done|]. split; [|done].
    cbn in Hm |- *. destruct_and! Hm. split_and!; try done. by eapply nested_upgrade.
  - intros (m & Hp & Hm & Hn & Hv & Hh). split; [|done].
    rewrite (proj2 (locate_envelope_path _ _ _ _) Hp).
    pose proof (from_value_wire m e (value_wf_path _ _ _ W Hp) Hm Hn) as Hf.
    apply deserialize_envelope_Ok in Hf. rewrite Hf. cbn [map_err].
    by rewrite bool_decide_eq_true_2.
Qed.

Lemma binding_members_object m b : NoDup m.*1 -> m ≡ₚ binding_members b -> binding_object m b.
Proof.
  intros Hd Hp. pose proof (fun k v => binding_members_get b k v m Hd Hp) as Hget.
  destruct b; cbn; unfold field; split_and!; apply Hget; find_member.
Qed.

Lemma binding_object_unique m b b' : binding_object m b -> binding_object m b' -> b = b'.
Proof.
  destruct b, b'; cbn; unfold field; intros Hb Hb'; destruct_and! Hb; destruct_and! Hb'; try congruence.
  all: assert (BINDING_TYPE_OPAQUE_BYTES = BINDING_TYPE_AUTHZ_SYSTEM_REFERENCE) by congruence; discriminate.
Qed.

Lemma extract02_Ok v e pre :
  value_wf v -> request_signing_preimage v = Ok pre ->
  (extract_draft02_request_envelope v = Ok e <-> envelope02 v e).
Proof.
  intros W Hpre. pose proof (signing_preimage_block _ _ _ Hpre) as Hblk.
  unfold extract_draft02_request_envelope, envelope02. split.
  - intros He. destruct (locate_envelope _ _ _) as [raw|] eqn:El; [|done].
    apply locate_envelope_path in El.
    destruct (require_draft02_version raw) eqn:E1; [|done]. apply require_draft02_version_Ok in E1.
    destruct (check_canonicalization_id raw) eqn:E2; [|done]. apply check_canonicalization_id_Ok in E2.
    destruct (check_authorization_binding raw) as [[]|] eqn:E3; [|done].
    pose proof (value_wf_path _ _ _ W El) as Wr.
    apply check_authorization_binding_Ok in E3 as (bm & b & Hbm & Hp & Hne & Hda); [|done].
    apply map_err_Ok, deserialize_envelope_Ok in He.
    destruct (located_members Request _ _ _ El Hblk He) as (m & sg & -> & Hsg & Hm & Hn).
    cbn [get] in E1, E2, Hbm. exists m. cbn in Hm. unfold field in Hm. destruct_and! Hm.
    apply value_wf_object in Wr as (_ & _ & Hg). pose proof (Hg _ _ Hbm) as (Hdb & _ & _)%value_wf_object.
    assert (Hb : nested_object binding_object (str "authorization_binding") m (d2_authorization_binding e))
      by (by eapply nested_upgrade).
    assert (b = d2_authorization_binding e) as ->.
    { destruct Hb as (bm' & Hbm' & Hbo). rewrite Hbm in Hbm'. simplify_eq.
      eapply binding_object_unique; [|exact Hbo]. by apply binding_members_object. }
    split; [done|]. split; [cbn; unfold field; split_and!; try done; by eapply nested_upgrade|].
    split; [done|]. split; [congruence|]. split; [congruence|]. split; [by exists bm|done].
  - intros (m & Hp & Hm & Hn & Hv & Hc & (bm & Hbm & Hbp) & Hne & Hda).
    rewrite (proj2 (locate_envelope_path _ _ _ _) Hp). pose proof (value_wf_path _ _ _ W Hp) as Wr.
    pose proof (from_value_wire m e Wr Hm Hn) as Hf. apply deserialize_envelope_Ok in Hf.
    cbn in Hm. unfold field in Hm. destruct_and! Hm.
    rewrite (proj2 (require_draft02_version_Ok _ tt)) by (cbn; congruence).
    rewrite (proj2 (check_canonicalization_id_Ok _ tt)) by (cbn; congruence).
    rewrite (proj2 (check_authorization_binding_Ok _ Wr)).
    2:{ exists bm, (d2_authorization_binding e). done. }
    by rewrite Hf.
Qed.
End Extraction.

(** ** Requests *)
Section Requests.
Context `{SerdeJsonLaws, !Base64, !Sha2, !Dalek}.
Context `{!Deserialize RequestEnvelope, !Deserialize Draft02RequestEnvelope}.
Context `{!DeserializeLaws RequestEnvelope, !DeserializeLaws Draft02RequestEnvelope}.

Lemma checks01_Ok raw resolver config now e pre te :
  checks01 raw resolver config now = Ok (e, pre, te) <->
  exists v, well_shaped raw v /\ envelope01 v e /\ authentic resolver config now v (claims01 e) pre te.
Proof.
  unfold checks01. split.
  - intros Hc. destruct (shape raw) as [v|] eqn:Es; [|done]. apply shape_Ok in Es.
    destruct (extract_request_envelope v) as [e'|] eqn:Ee; [|done].
    destruct (check_authorization_hash _) as [[]|] eqn:Eh; [|done].
    destruct (authenticate _ _ _ _ _) as [[pre' te']|] eqn:Ea; [|done]. simplify_eq.
    apply authenticate_Ok in Ea. exists v. split; [done|]. split; [|done].
    destruct Ea as (_ & _ & _ & key & _ & Hp & _).
    eapply extract01_Ok; [eapply from_slice_wf, Es|exact Hp|done].
  - intros (v & Hs & He & Ha). rewrite (proj2 (shape_Ok _ _) Hs).
    pose proof (proj2 (authenticate_Ok _ _ _ _ _ _ _) Ha) as Ea.
    destruct Ha as (_ & _ & _ & key & _ & Hp & _).
    apply (extract01_Ok v e pre) in He as [-> Hh]; [|eapply from_slice_wf, Hs|exact Hp].
    by rewrite Hh, Ea.
Qed.

Lemma checks02_Ok raw resolver config now e pre te :
  checks02 raw resolver config now = Ok (e, pre, te) <->
  exists v, well_shaped raw v /\ envelope02 v e /\ authentic resolver config now v (claims02 e) pre te.
Proof.
  unfold checks02. split.
  - intros Hc. destruct (shape raw) as [v|] eqn:Es; [|done]. apply shape_Ok in Es.
    destruct (extract_draft02_request_envelope v) as [e'|] eqn:Ee; [|done].
    destruct (authenticate _ _ _ _ _) as [[pre' te']|] eqn:Ea; [|done]. simplify_eq.
    apply authenticate_Ok in Ea. exists v. split; [done|]. split; [|done].
    destruct Ea as (_ & _ & _ & key & _ & Hp & _).
    eapply extract02_Ok; [eapply from_slice_wf, Es|exact Hp|done].
  - intros (v & Hs & He & Ha). rewrite (proj2 (shape_Ok _ _) Hs).
    pose proof (proj2 (authenticate_Ok _ _ _ _ _ _ _) Ha) as Ea.
    destruct Ha as (_ & _ & _ & key & _ & Hp & _).
    apply (extract02_Ok v e pre) in He as ->; [|eapply from_slice_wf, Hs|exact Hp].
    by rewrite Ea.
Qed.
End Requests.
