(* ===== verification/PipelineTheorems.v ===== *)
(** * The verification pipeline: theorems

    Exact acceptance conditions of the request verifiers and the dispatcher,
    version policy, protection of the replay cache from unauthenticated
    traffic, at-most-once acceptance over whole histories, and the binding of
    responses to requests. *)

From S2P Require Import Prelude Utf8 Errors Json Canonical Signing Time Crypto Envelope Instances.
From S2P Require Import Constraints Replay Resolver Pipeline PipelineSpec Samples.

Section Requests.
Context `{SJ : SerdeJson, SJL : !SerdeJsonLaws, B64 : !Base64, SH : !Sha2, DK : !Dalek}.
Context `{D1 : !Deserialize RequestEnvelope, D2 : !Deserialize Draft02RequestEnvelope}.
Context `{L1 : !DeserializeLaws RequestEnvelope, L2 : !DeserializeLaws Draft02RequestEnvelope}.
Context `{RC : ReplayCache C}.

Lemma commit_Ok c te vr vr' (replay replay' : C) :
  commit c te vr replay = (Ok vr', replay') <->
  check_and_insert replay (c_signer c) (c_audience c) (c_nonce c) te = (Ok Fresh, replay') /\ vr' = vr.
Proof.
  unfold commit. destruct (check_and_insert _ _ _ _ _) as [[[]|] r]; naive_solver.
Qed.

Lemma verify_request_Ok raw resolver config now (replay replay' : C) vr :
  verify_request raw resolver config now replay = (Ok vr, replay') <->
  exists v e pre te,
    well_shaped raw v /\ envelope01 v e /\ authentic resolver config now v (claims01 e) pre te /\
    check_and_insert replay (req_signer e) (req_audience e) (req_nonce e) te = (Ok Fresh, replay') /\
    vr = verdict (claims01 e) (Draft01Hash (req_authorization_hash e)) None pre.
Proof.
  rewrite verify_request_checks. split.
  - destruct (checks01 _ _ _ _) as [[[e pre] te]|] eqn:E; [|done].
    apply checks01_Ok in E as (v & ? & ? & ?). intros [? ->]%commit_Ok. by exists v, e, pre, te.
  - intros (v & e & pre & te & Hs & He & Ha & Hc & ->).
    rewrite (proj2 (checks01_Ok _ _ _ _ e pre te)) by eauto. by apply commit_Ok.
Qed.

(** C4: [verify_request] accepts exactly the authentic draft-01 requests: the
    bytes are a JCS-safe object with an id; the envelope under
    [params._meta] has exactly the frozen fields with version [draft-01] and
    a [sha256:] authorization hash; the audience is ours, the clock is in
    the window, the signer's key is resolved, and it verifies the signature
    over the canonical object minus the excluded paths; and the replay cache
    reports the nonce fresh.  The verdict carries the signed claims. *)
Theorem verify_request_exact raw resolver config now (replay replay' : C) vr :
  verify_request raw resolver config now replay = (Ok vr, replay') <->
  exists v e pre te,
    well_shaped raw v /\ envelope01 v e /\ authentic resolver config now v (claims01 e) pre te /\
    check_and_insert replay (req_signer e) (req_audience e) (req_nonce e) te = (Ok Fresh, replay') /\
    vr = verdict (claims01 e) (Draft01Hash (req_authorization_hash e)) None pre.
Proof. apply verify_request_Ok. Qed.

Lemma verify_request_draft02_Ok raw resolver config now (replay replay' : C) vr :
  verify_request_draft02 raw resolver config now replay = (Ok vr, replay') <->
  exists v e pre te,
    well_shaped raw v /\ envelope02 v e /\ authentic resolver config now v (claims02 e) pre te /\
    check_and_insert replay (d2_signer e) (d2_audience e) (d2_nonce e) te = (Ok Fresh, replay') /\
    vr = verdict (claims02 e) (Draft02Binding (d2_authorization_binding e))
           (Some (d2_canonicalization_id e)) pre.
Proof.
  rewrite verify_request_draft02_checks. split.
  - destruct (checks02 _ _ _ _) as [[[e pre] te]|] eqn:E; [|done].
    apply checks02_Ok in E as (v & ? & ? & ?). intros [? ->]%commit_Ok. by exists v, e, pre, te.
  - intros (v & e & pre & te & Hs & He & Ha & Hc & ->).
    rewrite (proj2 (checks02_Ok _ _ _ _ e pre te)) by eauto. by apply commit_Ok.
Qed.

(** C5: [verify_request_draft02] accepts exactly the authentic draft-02
    requests: as for draft-01, with version [draft-02], the one allowlisted
    canonicalization id, and an authorization binding that is one of the two
    base forms, all of them inside the signed preimage. *)
Theorem verify_request_draft02_exact raw resolver config now (replay replay' : C) vr :
  verify_request_draft02 raw resolver config now replay = (Ok vr, replay') <->
  exists v e pre te,
    well_shaped raw v /\ envelope02 v e /\ authentic resolver config now v (claims02 e) pre te /\
    check_and_insert replay (d2_signer e) (d2_audience e) (d2_nonce e) te = (Ok Fresh, replay') /\
    vr = verdict (claims02 e) (Draft02Binding (d2_authorization_binding e))
           (Some (d2_canonicalization_id e)) pre.
Proof. apply verify_request_draft02_Ok. Qed.

(** The verdict of the profile the envelope of [v] belongs to. *)
Definition profile_verdict (v : Value) (c : Claims) (pre : bytes) (vr : VerifiedRequest) : Prop :=
  (exists e, envelope01 v e /\ c = claims01 e /\
     vr = verdict c (Draft01Hash (req_authorization_hash e)) None pre) \/
  (exists e, envelope02 v e /\ c = claims02 e /\
     vr = verdict c (Draft02Binding (d2_authorization_binding e)) (Some (d2_canonicalization_id e)) pre).

(** What stands behind an accepted message. *)
Lemma dispatch_accepted raw resolver config now policy (replay replay' : C) vr :
  verify_request_dispatch raw resolver config now policy replay = (Ok vr, replay') ->
  exists v c pre te, well_shaped raw v /\ authentic resolver config now v c pre te /\
    check_and_insert replay (c_signer c) (c_audience c) (c_nonce c) te = (Ok Fresh, replay') /\
    profile_verdict v c pre vr.
Proof.
  unfold verify_request_dispatch, profile_verdict.
  destruct (from_slice_or_fail raw) as [v|]; [|done]. destruct (reject_batch v); [|done].
  destruct (reject_notification v); [|done]. destruct (read_request_envelope_version v); [|done].
  destruct (negb _); [done|]. destruct (negb _); [done|]. case_bool_decide.
  - intros (w & e & pre & te & ? & ? & ? & ? & ->)%verify_request_Ok. exists w, (claims01 e), pre, te. eauto 10.
  - intros (w & e & pre & te & ? & ? & ? & ? & ->)%verify_request_draft02_Ok. exists w, (claims02 e), pre, te. eauto 10.
Qed.

(** The strings of located claims are proper strings. *)
Lemma envelope01_wf v e : value_wf v -> envelope01 v e -> claims_wf (claims01 e).
Proof.
  intros W (m & Hp & Hm & _). pose proof (value_wf_path _ _ _ W Hp) as (_ & _ & Hg)%value_wf_object.
  cbn in Hm. unfold field in Hm. destruct_and! Hm.
  split_and!; cbn; eapply value_wf_string; eauto.
Qed.

Lemma envelope02_wf v e : value_wf v -> envelope02 v e -> claims_wf (claims02 e).
Proof.
  intros W (m & Hp & Hm & _). pose proof (value_wf_path _ _ _ W Hp) as (_ & _ & Hg)%value_wf_object.
  cbn in Hm. unfold field in Hm. destruct_and! Hm.
  split_and!; cbn; eapply value_wf_string; eauto.
Qed.

(** What a dispatched message amounts to for the cache: nothing, or the
    commit of authentic claims. *)
Lemma dispatch_cases raw resolver config now policy :
  (exists err, forall replay : C,
     verify_request_dispatch raw resolver config now policy replay = (Err err, replay)) \/
  (exists v c auth cid pre te, well_shaped raw v /\ authentic resolver config now v c pre te /\ claims_wf c /\
     forall replay : C, verify_request_dispatch raw resolver config now policy replay
                    = commit c te (verdict c auth cid pre) replay).
Proof.
  unfold verify_request_dispatch.
  destruct (from_slice_or_fail raw) as [v|]; [|eauto].
  destruct (reject_batch v); [|eauto]. destruct (reject_notification v); [|eauto].
  destruct (read_request_envelope_version v) as [ver|]; [|eauto].
  destruct (negb _); [eauto|]. destruct (negb _); [eauto|]. case_bool_decide.
  - destruct (checks01 raw resolver config now) as [[[e pre] te]|err] eqn:E.
    + right. pose proof E as (w & Hw & He & ?)%checks01_Ok. do 6 eexists. split; [exact Hw|]. split; [done|].
      split; [eapply envelope01_wf, He; eapply from_slice_wf, Hw|]. intros replay. by rewrite verify_request_checks, E.
    + left. exists err. intros replay. by rewrite verify_request_checks, E.
  - destruct (checks02 raw resolver config now) as [[[e pre] te]|err] eqn:E.
    + right. pose proof E as (w & Hw & He & ?)%checks02_Ok. do 6 eexists. split; [exact Hw|]. split; [done|].
      split; [eapply envelope02_wf, He; eapply from_slice_wf, Hw|]. intros replay. by rewrite verify_request_draft02_checks, E.
    + left. exists err. intros replay. by rewrite verify_request_draft02_checks, E.
Qed.

(** C7: Unauthenticated traffic cannot burn a nonce: whatever bytes are
    dispatched, either the replay cache is left exactly as it was and the
    message is rejected, or the message is authentic (signature verified,
    audience and window checked) and the only effect on the cache is the
    recording of its own signed nonce. *)
Theorem dispatch_cache_protected raw resolver config now policy (replay replay' : C) out :
  verify_request_dispatch raw resolver config now policy replay = (out, replay') ->
  (replay' = replay /\ is_ok out = false) \/
  exists v c pre te, well_shaped raw v /\ authentic resolver config now v c pre te /\
    replay' = (check_and_insert replay (c_signer c) (c_audience c) (c_nonce c) te).2.
Proof.
  destruct (dispatch_cases raw resolver config now policy)
    as [[err Herr]|(v & c & auth & cid & pre & te & Hs & Ha & _ & Heq)].
  - rewrite Herr. intros [= <- <-]. by left.
  - rewrite Heq. unfold commit. intros Hc. right. exists v, c, pre, te. split_and!; [done..|].
    destruct (check_and_insert _ _ _ _ _) as [[[]|] r]; by injection Hc as <- <-.
Qed.

Lemma read_version_path v ver :
  read_request_envelope_version v = Ok ver <->
  exists raw, path_get [str "params"; str "_meta"; REQUEST_META_KEY] v = Some raw /\
    get (str "version") raw = Some (VString ver).
Proof.
  unfold read_request_envelope_version.
  change (ok_or _ MissingEnvelope) with (locate_envelope v (str "params") REQUEST_META_KEY).
  destruct (locate_envelope v _ _) as [w|] eqn:El.
  - apply locate_envelope_path in El. rewrite El, ok_or_Ok.
    split; [intros E; exists w; split; [done|]|intros (w' & [= <-] & E)].
    + destruct (get (str "version") w) as [[]|]; cbn in E; by simplify_eq.
    + by rewrite E.
  - split; [done|]. intros (w & Hw & _). apply locate_envelope_path in Hw. congruence.
Qed.

(** The dispatcher on an authentic message of a profile the policy admits. *)
Lemma dispatch_draft02 raw resolver config now policy v e pre te (replay : C) :
  well_shaped raw v -> envelope02 v e -> authentic resolver config now v (claims02 e) pre te ->
  verify_request_dispatch raw resolver config now policy replay =
  commit (claims02 e) te
    (verdict (claims02 e) (Draft02Binding (d2_authorization_binding e)) (Some (d2_canonicalization_id e)) pre) replay.
Proof.
  intros Hs He Ha. pose proof (proj2 (shape_Ok raw v) Hs) as Hsh. unfold shape in Hsh. unfold verify_request_dispatch.
  destruct (from_slice_or_fail raw) as [w|]; [|done]. destruct (reject_batch w); [|done].
  destruct (reject_notification w); [|done]. destruct (canonicalize raw); [|done]. simplify_eq.
  assert (Hv : read_request_envelope_version v = Ok VERSION_DRAFT_02).
  { apply read_version_path. destruct He as (m & Hp & Hm & _ & Hver & _). exists (VObject m). split; [done|].
    rewrite <- Hver. apply Hm. }
  rewrite Hv. replace (admits policy VERSION_DRAFT_02) with true by (by destruct policy).
  rewrite (bool_decide_eq_false_2 (VERSION_DRAFT_02 = VERSION_DRAFT_01)), (bool_decide_eq_true_2 (VERSION_DRAFT_02 = _)) by done.
  cbn [orb negb]. rewrite verify_request_draft02_checks, (proj2 (checks02_Ok _ _ _ _ e pre te)) by eauto. done.
Qed.

Lemma dispatch_draft01 raw resolver config now v e pre te (replay : C) :
  well_shaped raw v -> envelope01 v e -> authentic resolver config now v (claims01 e) pre te ->
  verify_request_dispatch raw resolver config now Draft01AndDraft02 replay =
  commit (claims01 e) te (verdict (claims01 e) (Draft01Hash (req_authorization_hash e)) None pre) replay.
Proof.
  intros Hs He Ha. pose proof (proj2 (shape_Ok raw v) Hs) as Hsh. unfold shape in Hsh. unfold verify_request_dispatch.
  destruct (from_slice_or_fail raw) as [w|]; [|done]. destruct (reject_batch w); [|done].
  destruct (reject_notification w); [|done]. destruct (canonicalize raw); [|done]. simplify_eq.
  assert (Hv : read_request_envelope_version v = Ok VERSION_DRAFT_01).
  { apply read_version_path. destruct He as (m & Hp & Hm & _ & Hver & _). exists (VObject m). split; [done|].
    rewrite <- Hver. apply Hm. }
  rewrite Hv. replace (admits _ VERSION_DRAFT_01) with true by done.
  rewrite (bool_decide_eq_true_2 (VERSION_DRAFT_01 = VERSION_DRAFT_01)) by done.
  cbn [orb negb]. rewrite verify_request_checks, (proj2 (checks01_Ok _ _ _ _ e pre te)) by eauto. done.
Qed.

(** The version policy is enforced without cross-acceptance: an accepted
    request carries a version the policy admits, and the verdict is the one
    of exactly that profile: a draft-01 hash and no canonicalization id for
    [draft-01], a draft-02 binding with the allowlisted id for [draft-02].
    Under [Draft02Only] nothing is accepted as draft-01. *)
Theorem dispatch_no_cross_accept raw resolver config now policy (replay replay' : C) vr :
  verify_request_dispatch raw resolver config now policy replay = (Ok vr, replay') ->
  exists v ver m, from_slice raw = Some v /\
    path_get [str "params"; str "_meta"; REQUEST_META_KEY] v = Some (VObject m) /\
    map_get (str "version") m = Some (VString ver) /\ admits policy ver = true /\
    ((ver = VERSION_DRAFT_01 /\ policy = Draft01AndDraft02 /\ is_Some (draft01_hash (vr_authorization vr)) /\
      vr_canonicalization_id vr = None) \/
     (ver = VERSION_DRAFT_02 /\ is_Some (draft02_binding (vr_authorization vr)) /\
      vr_canonicalization_id vr = Some CANONICALIZATION_ID_INT53_V1)).
Proof.
  unfold verify_request_dispatch, from_slice_or_fail.
  destruct (from_slice raw) as [v|] eqn:Ev; [|done]. cbn [ok_or].
  destruct (reject_batch v); [|done]. destruct (reject_notification v); [|done].
  destruct (read_request_envelope_version v) as [ver|] eqn:Er; [|done].
  apply read_version_path in Er as (w & Hw & Hver).
  destruct (negb _) eqn:Erec; [done|]. destruct (admits policy ver) eqn:Ead; [|done]. cbn [negb].
  apply negb_false_iff in Erec.
  case_bool_decide as E1; cbn [orb] in Erec.
  - intros (v' & e & pre & te & (Hv' & _) & (m & Hm & _) & _ & _ & ->)%verify_request_Ok.
    exists v, ver, m. rewrite Ev in Hv'. simplify_eq. cbn in Hver.
    do 4 (split; [done|]). left. split_and!; [done|by destruct policy|by eexists|done].
  - intros (v' & e & pre & te & (Hv' & _) & (m & Hm & _ & _ & _ & Hc & _) & _ & _ & ->)%verify_request_draft02_Ok.
    exists v, ver, m. rewrite Ev in Hv'. simplify_eq. cbn in Hver. apply bool_decide_eq_true in Erec.
    do 4 (split; [done|]). right. split_and!; [done|by eexists|]. cbn. by f_equal.
Qed.

(** Downgrade attempts are refused before any cryptography: a message of
    the right shape whose version is recognized but not admitted yields
    [DowngradeForbidden], one whose version is not recognized
    [UnsupportedVersion], and the replay cache is untouched; in particular a
    draft-01 envelope never reaches a verifier under [Draft02Only]. *)
Theorem dispatch_downgrade raw resolver config now policy (replay : C) v m ver :
  from_slice raw = Some v -> reject_batch v = Ok tt -> reject_notification v = Ok tt ->
  path_get [str "params"; str "_meta"; REQUEST_META_KEY] v = Some (VObject m) ->
  map_get (str "version") m = Some (VString ver) -> admits policy ver = false ->
  verify_request_dispatch raw resolver config now policy replay =
  (Err (if bool_decide (ver = VERSION_DRAFT_01) then DowngradeForbidden else UnsupportedVersion), replay).
Proof.
  intros Hv Hb Hn Hm Hver Ha. unfold verify_request_dispatch, from_slice_or_fail. rewrite Hv. cbn [ok_or].
  rewrite Hb, Hn. rewrite (proj2 (read_version_path v ver)) by eauto. rewrite Ha. cbn [negb].
  assert (ver <> VERSION_DRAFT_02) by (intros ->; by destruct policy).
  rewrite (bool_decide_eq_false_2 (ver = VERSION_DRAFT_02)) by done.
  by case_bool_decide.
Qed.
End Requests.

(** ** The theorems at the sample messages *)

Import Toy.

Lemma verify_request_exact_witness :
  exists vr replay' v e pre te,
    well_shaped sample_raw01 v /\ envelope01 v e /\
    authentic sample_resolver sample_config sample_now v (claims01 e) pre te /\
    check_and_insert sample_replay (req_signer e) (req_audience e) (req_nonce e) te = (Ok Fresh, replay') /\
    vr = verdict (claims01 e) (Draft01Hash (req_authorization_hash e)) None pre.
Proof.
  eexists _, _.
  apply (proj1 (verify_request_exact sample_raw01 sample_resolver sample_config sample_now sample_replay _ _)).
  vm_compute. reflexivity.
Defined.

Lemma verify_request_draft02_exact_witness :
  exists vr replay' v e pre te,
    well_shaped sample_raw02 v /\ envelope02 v e /\
    authentic sample_resolver sample_config sample_now v (claims02 e) pre te /\
    check_and_insert sample_replay (d2_signer e) (d2_audience e) (d2_nonce e) te = (Ok Fresh, replay') /\
    vr = verdict (claims02 e) (Draft02Binding (d2_authorization_binding e))
           (Some (d2_canonicalization_id e)) pre.
Proof.
  eexists _, _.
  apply (proj1 (verify_request_draft02_exact sample_raw02 sample_resolver sample_config sample_now sample_replay _ _)).
  vm_compute. reflexivity.
Defined.

Lemma dispatch_cache_protected_witness :
  exists out replay',
    verify_request_dispatch sample_raw01 sample_resolver sample_config sample_now Draft01AndDraft02 sample_replay
    = (out, replay') /\
    ((replay' = sample_replay /\ is_ok out = false) \/
     exists v c pre te, well_shaped sample_raw01 v /\
       authentic sample_resolver sample_config sample_now v c pre te /\
       replay' = (check_and_insert sample_replay (c_signer c) (c_audience c) (c_nonce c) te).2).
Proof.
  eexists _, _. split; [vm_compute; reflexivity|].
  eapply (dispatch_cache_protected sample_raw01 sample_resolver sample_config sample_now
            Draft01AndDraft02 sample_replay).
  vm_compute. reflexivity.
Defined.


