(* ===== verification/PipelineHistory.v ===== *)
(** * Histories of a verifier

    Verifier processes handle a sequence of deliveries against one replay
    cache.  Acceptance at most once is proved for every cache that meets the
    [ReplayContract], and, once in each window, as an invariant of a step
    relation, for every cache that forgets by the [RetentionContract] under a
    clock that does not run backwards. *)

From S2P Require Import Prelude Utf8 Errors Json Canonical Signing Time Crypto Envelope Instances.
From S2P Require Import Constraints Replay Resolver Pipeline PipelineSpec PipelineTheorems Samples.

(** The replay key of a verdict. *)
Definition verdict_key (vr : VerifiedRequest) : replay_key :=
  (vr_verified_signer vr, vr_audience vr, vr_nonce vr).

(** The key with the signed expiry, which identifies a signed request. *)
Definition verdict_id (vr : VerifiedRequest) : replay_key * rstr := (verdict_key vr, vr_expires_at vr).

(** The window of an accepted request has ended by the instant [t] (the clocks
    of the caches count from the epoch). *)
Definition window_closed (skew : Z) (vr : VerifiedRequest) (t : Z) : Prop :=
  exists te, parse_rfc3339_utc (vr_expires_at vr) = Ok te /\ saturating_add te skew <= Z.max 0 t.

(** Acceptances, the last first, with their instants: a triple comes back only
    after the window of each of its earlier acceptances. *)
Fixpoint windows_apart (skew : Z) (acceptances : list (VerifiedRequest * Z)) : Prop :=
  match acceptances with
  | [] => True
  | a :: earlier =>
      Forall (fun b => verdict_key b.1 = verdict_key a.1 -> window_closed skew b.1 a.2) earlier /\ windows_apart skew earlier
  end.

Section History.
Context `{SJ : SerdeJson, SJL : !SerdeJsonLaws, B64 : !Base64, SH : !Sha2, DK : !Dalek}.
Context `{D1 : !Deserialize RequestEnvelope, D2 : !Deserialize Draft02RequestEnvelope}.
Context `{L1 : !DeserializeLaws RequestEnvelope, L2 : !DeserializeLaws Draft02RequestEnvelope}.

(** One delivery: the bytes, and the verifier's configuration, trust view and
    clock at that moment. *)
Record Delivery : Type := {
  d_raw : bytes;
  d_resolver : TrustResolver;
  d_config : VerificationConfig;
  d_policy : ExpectedVersionPolicy;
  d_now : Z;
}.

Definition deliver `{ReplayCache C} (c : C) (d : Delivery) : result VerifiedRequest McpsError * C :=
  verify_request_dispatch (d_raw d) (d_resolver d) (d_config d) (d_now d) (d_policy d) c.

(** What a delivery does to the cache: nothing, or one call for the verdict's
    triple at its signed expiry; and a verdict means that call said [Fresh]. *)
Lemma deliver_cases `{ReplayCache C} (c : C) d r c' :
  deliver c d = (r, c') ->
  (c' = c /\ is_ok r = false) \/
  exists cl te dec, check_and_insert c (c_signer cl) (c_audience cl) (c_nonce cl) te = (dec, c') /\
    call_ok (c_signer cl) (c_audience cl) (c_nonce cl) te /\ parse_rfc3339_utc (c_expires_at cl) = Ok te /\
    d_now d <= saturating_add te (max_clock_skew_secs (d_config d)) /\
    forall vr, r = Ok vr -> dec = Ok Fresh /\ verdict_id vr = (claims_key cl, c_expires_at cl).
Proof.
  unfold deliver.
  destruct (dispatch_cases (d_raw d) (d_resolver d) (d_config d) (d_now d) (d_policy d) (C := C))
    as [[err Herr]|(v & cl & auth & cid & pre & te & _ & Ha & Hwf & Heq)]; [rewrite Herr; intros [= <- <-]; by left|].
  rewrite Heq. intros Hc. right. destruct Ha as (_ & _ & (ti & _ & He & _ & Hw) & _).
  destruct (check_and_insert c (c_signer cl) (c_audience cl) (c_nonce cl) te) as [dec c1] eqn:Ec.
  exists cl, te, dec. assert (c1 = c') as -> by (unfold commit in Hc; rewrite Ec in Hc; by destruct dec as [[]|]; simplify_eq).
  split_and!; [done|destruct Hwf as (? & ? & ?); split_and!; [done..|by eexists]|done|lia|]. intros vr ->. apply commit_Ok in Hc as [Hc ->]. rewrite Ec in Hc. by simplify_eq.
Qed.

(** ** Caches that never forget *)

(** The requests accepted over a sequence of deliveries. *)
Fixpoint accepted `{ReplayCache C} (c : C) (ds : list Delivery) : list VerifiedRequest :=
  match ds with
  | [] => []
  | d :: ds' =>
      match deliver c d with
      | (Ok vr, c') => vr :: accepted c' ds'
      | (Err _, c') => accepted c' ds'
      end
  end.

Lemma deliver_keeps `{ReplayContract C} (c : C) d r c' k :
  deliver c d = (r, c') -> recorded c k -> recorded c' k.
Proof.
  intros [[-> _]|(cl & te & dec & Hc & _)]%deliver_cases; [done|]. by eapply insert_keeps.
Qed.

Lemma deliver_records `{ReplayContract C} (c : C) d vr c' :
  deliver c d = (Ok vr, c') -> ~ recorded c (verdict_key vr) /\ recorded c' (verdict_key vr).
Proof.
  intros [[_ ?]|(cl & te & dec & Hc & _ & _ & _ & Hv)]%deliver_cases; [done|].
  destruct (Hv vr eq_refl) as [-> Hid]. apply (f_equal fst) in Hid. cbn [fst verdict_id] in Hid. rewrite Hid.
  by eapply fresh_records.
Qed.

Lemma accepted_fresh `{ReplayContract C} (c : C) ds :
  NoDup (verdict_key <$> accepted c ds) /\
  forall k, recorded c k -> k ∉ verdict_key <$> accepted c ds.
Proof.
  revert c; induction ds as [|d ds IH]; intros c; cbn [accepted].
  { split; [constructor|]. intros k _. cbn. set_solver. }
  destruct (deliver c d) as [[vr|err] c'] eqn:Ed; destruct (IH c') as [Hnd Hrec];
    pose proof (fun k => deliver_keeps c d _ c' k Ed) as Hk; [|split; [done|auto]].
  apply deliver_records in Ed as [Hno Hyes]. split; [apply NoDup_cons; split; [by apply Hrec|done]|].
  intros k Hr [->|Hin]%elem_of_cons; [done|]. by eapply Hrec; [apply Hk|].
Qed.

(** At most once, for every conforming cache: over any sequence of
    deliveries of any bytes, whatever the clocks, configurations and trust
    views, no (signer, audience, nonce) is accepted twice, and nothing already
    recorded when the sequence starts is accepted at all. *)
Theorem accepted_at_most_once `{RC : ReplayCache C, RK : !ReplayContract C} (c : C) ds :
  NoDup (verdict_key <$> accepted c ds) /\
  Forall (fun vr => ~ recorded c (verdict_key vr)) (accepted c ds).
Proof.
  destruct (accepted_fresh c ds) as [Hnd Hrec]. split; [done|].
  apply Forall_forall. intros vr Hin Hr. eapply Hrec; [done|]. by apply list_elem_of_fmap_2.
Qed.

(** ** Caches that forget *)

Section Retention.
Context `{RC : ReplayCache C, RT : !RetentionContract C}.

(** The clock, the cache and the requests accepted so far, the last first, each
    with the instant at which the cache's answer came. *)
Record history : Type := { h_now : Z; h_cache : C; h_accepted : list (VerifiedRequest * Z) }.

(** A delivery reads the clock, and the cache reads its own no earlier; nothing
    happens before it, and the next one begins when it has ended.  Any
    verifier that uses the cache's skew may make it. *)
Inductive step : history -> history -> Prop :=
| step_deliver h d now r c' :
    h_now h <= d_now d -> d_now d <= now ->
    max_clock_skew_secs (d_config d) = retain_skew (h_cache h) ->
    deliver (tick now (h_cache h)) d = (r, c') ->
    step h {| h_now := ended now c'; h_cache := c';
              h_accepted := match r with Ok vr => (vr, ended now c') :: h_accepted h | Err _ => h_accepted h end |}
| step_maintain h now c' :
    h_now h <= now -> maintains now (h_cache h) c' ->
    step h {| h_now := now; h_cache := c'; h_accepted := h_accepted h |}.

(** An identity is spent at time [t]: its entry is live, or its window is over. *)
Definition spent (c : C) (t : Z) (i : replay_key * rstr) : Prop :=
  exists te, parse_rfc3339_utc i.2 = Ok te /\
    ((exists u, retained c i.1 = Some u /\ saturating_add te (retain_skew c) <= u) \/
     over t (saturating_add te (retain_skew c))).

(** What forgets only stale entries keeps the spent identities spent. *)
Lemma spent_keeps c c' t t' i :
  retain_skew c' = retain_skew c -> t <= t' ->
  (forall k u, retained c k = Some u -> retained c' k = Some u \/ over t' u) -> spent c t i -> spent c' t' i.
Proof.
  intros Hs Ht Hk (te & He & Hr). exists te. split; [done|]. rewrite Hs.
  destruct Hr as [(u & [?|?]%Hk & Hu)|Hr]; [left; by exists u|right..]; eapply over_mono; [| |done| | |done]; done || lia.
Qed.

Definition history_inv (skew : Z) (h : history) : Prop :=
  retention_inv (h_cache h) /\ retain_skew (h_cache h) = skew /\
  Forall (fun a => spent (h_cache h) (h_now h) (verdict_id a.1)) (h_accepted h) /\
  windows_apart skew (h_accepted h).

(** What a delivery does to the identities spent before it: they stay spent, a
    verdict is spent after it, and one under a spent triple finds the earlier
    window over. *)
Lemma deliver_spent h d now r c' :
  retention_inv (h_cache h) -> h_now h <= d_now d -> d_now d <= now -> deliver (tick now (h_cache h)) d = (r, c') ->
  retention_inv c' /\ retain_skew c' = retain_skew (h_cache h) /\
  (forall i, spent (h_cache h) (h_now h) i -> spent c' (ended now c') i) /\
  forall vr, r = Ok vr -> spent c' (ended now c') (verdict_id vr) /\
    forall i, spent (h_cache h) (h_now h) i -> i.1 = verdict_key vr ->
      exists te, parse_rfc3339_utc i.2 = Ok te /\ over (ended now c') (saturating_add te (retain_skew (h_cache h))).
Proof.
  intros HI Hn1 Hn2 Hd. destruct (retained_tick now _ HI) as (HI1 & Hs1 & Hr1). pose proof (ended_after now c') as Hea.
  apply deliver_cases in Hd as [[-> Hr]|(cl & te & dec & Hc & Hok & He & Hw & Hv)].
  - split_and!; try done; [|by intros vr ->]. intros i. apply spent_keeps; [done|lia|]. intros k u. rewrite Hr1. by left.
  - destruct (retained_call _ _ _ _ _ _ _ _ HI Hok Hc) as (HI' & Hs' & Hk). split_and!; [done..| |].
    { intros i. apply spent_keeps; [done|lia|done]. }
    intros vr Hvr. destruct (Hv vr Hvr) as [-> Hid]. destruct (retained_fresh now _ _ _ _ _ _ HI Hok Hc) as [Hold Hnew].
    rewrite Hid. split; [exists te; cbn; by rewrite Hs'|]. intros i (te' & He' & Hi) Hkey.
    assert (Hck : i.1 = claims_key cl) by (rewrite Hkey; apply (f_equal fst) in Hid; exact Hid).
    exists te'. split; [done|]. rewrite Hck in Hi.
    destruct Hi as [(u & Hu%Hold & Hle)|Hi]; (eapply over_mono; [| |done]); done || lia.
Qed.

Lemma step_inv skew h h' : step h h' -> history_inv skew h -> history_inv skew h'.
Proof.
  intros Hst (HI & Hskew & Hsp & Hwa). destruct Hst as [h d now r c' Hn1 Hn2 Hsk Hd|h now c' Hn Hm].
  - destruct (deliver_spent h d now r c' HI Hn1 Hn2 Hd) as (HI' & Hs' & Hk & Hv). unfold history_inv. cbn [h_accepted h_cache h_now].
    assert (Hsp' : Forall (fun a => spent c' (ended now c') (verdict_id a.1)) (h_accepted h)) by (eapply Forall_impl; [exact Hsp|auto]).
    split; [done|]. split; [congruence|]. destruct r as [vr|err]; [|done]. destruct (Hv vr eq_refl) as [Hyes Hno].
    split; [by constructor|]. split; [|done]. eapply Forall_impl; [exact Hsp|]. intros a Ha Hkey. cbn [fst snd] in *.
    destruct (Hno _ Ha Hkey) as (te & He & Ho). exists te. split; [exact He|]. apply over_past. by rewrite <- Hskew.
  - destruct (retained_maintains _ _ _ HI Hm) as (HI' & Hs & Hk). unfold history_inv. cbn [h_accepted h_cache h_now]. split_and!; try done; [congruence|].
    eapply Forall_impl; [exact Hsp|]. intros a. cbn. by apply spent_keeps.
Qed.

Definition history_start (now : Z) (c : C) : history := {| h_now := now; h_cache := c; h_accepted := [] |}.

Lemma history_inv_reachable now c h :
  retention_inv c -> rtc step (history_start now c) h -> history_inv (retain_skew c) h.
Proof.
  intros HI Hr. assert (H0 : history_inv (retain_skew c) (history_start now c)) by (by split_and!; [| |constructor|]).
  revert H0. generalize (retain_skew c). intros skew H0. revert H0. induction Hr as [|h1 h2 h3 Hs _ IH]; [done|].
  intros H1. by eapply IH, step_inv.
Qed.

Lemma history_windows now c h :
  retention_inv c -> rtc step (history_start now c) h -> windows_apart (retain_skew c) (h_accepted h).
Proof. intros HI Hr. by destruct (history_inv_reachable now c h HI Hr) as (_ & _ & _ & ?). Qed.

(** A prompt cache accepts no spent identity at all. *)
Lemma deliver_prompt `{PC : !PromptCache C} h d now vr c' :
  retention_inv (h_cache h) -> h_now h <= d_now d -> d_now d <= now ->
  max_clock_skew_secs (d_config d) = retain_skew (h_cache h) -> deliver (tick now (h_cache h)) d = (Ok vr, c') ->
  ~ spent (h_cache h) (h_now h) (verdict_id vr).
Proof.
  intros HI Hn1 Hn2 Hsk [[_ ?]|(cl & te & dec & Hc & _ & He & Hw & Hv)]%deliver_cases; [done|].
  destruct (Hv vr eq_refl) as [-> ->]. rewrite Hsk in Hw. destruct (prompt_fresh _ _ _ _ _ _ _ _ Hc Hw) as [Hno Hov].
  intros (te' & He' & Hi). cbn in He', Hi. rewrite He in He'. simplify_eq.
  destruct Hi as [(u & Hu & _)|Hi]; [change (retained (h_cache h) (c_signer cl, c_audience cl, c_nonce cl) = Some u) in Hu; congruence|].
  apply Hov. eapply over_mono; [| |exact Hi]; done || lia.
Qed.

Lemma history_nodup `{PC : !PromptCache C} now c h :
  retention_inv c -> rtc step (history_start now c) h -> NoDup (verdict_id <$> (h_accepted h).*1).
Proof.
  intros HI Hr. assert (H0 : history_inv (retain_skew c) (history_start now c)) by (by split_and!; [| |constructor|]).
  assert (Hd : NoDup (verdict_id <$> (h_accepted (history_start now c)).*1)) by constructor. clear HI.
  revert H0 Hd. generalize (retain_skew c). intros skew. induction Hr as [|h1 h2 h3 Hs _ IH]; [done|]. intros H1 Hd.
  apply IH; [by eapply step_inv|]. destruct H1 as (HI & _ & Hsp & _). destruct Hs as [h d t [vr|e] c' Hn1 Hn2 Hsk Hdel|h t c' _ _]; try done.
  cbn [h_accepted fmap list_fmap fst]. apply NoDup_cons. split; [|done].
  pose proof (deliver_prompt h d t vr c' HI Hn1 Hn2 Hsk Hdel) as Hno.
  intros (v & Ei & (a & -> & Hin)%list_elem_of_fmap)%list_elem_of_fmap. apply Hno. rewrite Ei.
  by eapply (Forall_forall (fun a => spent _ _ (verdict_id a.1))) in Hsp.
Qed.

(** C6: At most once in a window, for caches that forget.  In every reachable
    state of any sequence of deliveries (by any verifiers that share the cache
    and its skew, under any trust views and audiences) and maintenance steps
    (prunings, restarts) under a clock that does not run backwards: a (signer,
    audience, nonce) is accepted a second time only when the whole window of
    the earlier acceptance, its signed expiry and the skew, had passed by the
    instant at which the cache answered the second; and where the cache
    decides on what it holds when the call begins, two acceptances never share
    the triple and the signed expiry, so that no signed request is ever
    accepted twice. *)
Theorem verifier_at_most_once now c h :
  retention_inv c -> rtc step (history_start now c) h ->
  windows_apart (retain_skew c) (h_accepted h) /\ (PromptCache C -> NoDup (verdict_id <$> (h_accepted h).*1)).
Proof. intros HI Hr. split; [by eapply history_windows|]. intros PC. by eapply history_nodup. Qed.
End Retention.
End History.
Arguments history : clear implicits.

Import Toy.

Definition sample_delivery (now : Z) : Delivery :=
  {| d_raw := sample_raw01; d_resolver := sample_resolver; d_config := sample_config;
     d_policy := Draft01AndDraft02; d_now := now |}.

(** The same bytes delivered twice are accepted once. *)
Example sample_delivered_twice :
  length (accepted sample_replay [sample_delivery sample_now; sample_delivery sample_now]) = 1%nat.
Proof. vm_compute. reflexivity. Qed.

(** A delivery, a pruning and a second delivery of the same bytes. *)
Definition sample_end : history InMemoryReplayCache :=
  let c1 := (deliver sample_replay (sample_delivery sample_now)).2 in
  let c2 := prune c1 (sample_now + 10) in
  let r1 := (deliver sample_replay (sample_delivery sample_now)).1 in
  let d2 := deliver c2 (sample_delivery (sample_now + 20)) in
  let acc := match r1 with Ok vr => [(vr, sample_now)] | Err _ => [] end in
  {| h_now := sample_now + 20; h_cache := d2.2;
     h_accepted := match d2.1 with Ok vr => (vr, sample_now + 20) :: acc | Err _ => acc end |}.

Lemma verifier_at_most_once_witness :
  rtc step (history_start sample_now sample_replay) sample_end /\ windows_apart 60 (h_accepted sample_end) /\
  NoDup (verdict_id <$> (h_accepted sample_end).*1).
Proof.
  assert (Hr : rtc step (history_start sample_now sample_replay) sample_end).
  { eapply rtc_l; [eapply (step_deliver _ (sample_delivery sample_now) sample_now)|
      eapply rtc_l; [eapply (step_maintain _ (sample_now + 10))|
        eapply rtc_l; [eapply (step_deliver _ (sample_delivery (sample_now + 20)) (sample_now + 20))|]]];
      try apply surjective_pairing; try reflexivity; cbn; lia. }
  split; [exact Hr|]. assert (HI : retention_inv sample_replay) by exact I.
  destruct (verifier_at_most_once sample_now sample_replay sample_end HI Hr) as [H1 H2].
  split; [exact H1|exact (H2 _)].
Defined.
