(* ===== verification/PipelineResponses.v ===== *)
(** * Responses

    Exact acceptance conditions of [verify_response] and
    [verify_response_draft02], and what the request hash binds. *)

From S2P Require Import Prelude Utf8 Errors Json Canonical Signing Time Crypto Envelope Instances.
From S2P Require Import Constraints Replay Resolver Pipeline PipelineSpec Samples.

Section Responses.
Context `{SJ : SerdeJson, SJL : !SerdeJsonLaws, B64 : !Base64, SH : !Sha2, DK : !Dalek}.
Context `{D1 : !Deserialize ResponseEnvelope, D2 : !Deserialize Draft02ResponseEnvelope}.
Context `{L1 : !DeserializeLaws ResponseEnvelope, L2 : !DeserializeLaws Draft02ResponseEnvelope}.

(** What the located response envelope says under each profile. *)
Definition response01 (v : Value) (e : ResponseEnvelope) : Prop :=
  exists m, path_get [str "result"; str "_meta"; RESPONSE_META_KEY] v = Some (VObject m) /\
    wire_members (fun _ => nested_object) m e /\ Forall (fun k => k ∈ wire_fields ResponseEnvelope) m.*1.

Definition response02 (v : Value) (e : Draft02ResponseEnvelope) : Prop :=
  exists m, path_get [str "result"; str "_meta"; RESPONSE_META_KEY] v = Some (VObject m) /\
    wire_members (fun _ => nested_object) m e /\
    Forall (fun k => k ∈ wire_fields Draft02ResponseEnvelope) m.*1 /\
    d2r_version e = VERSION_DRAFT_02 /\ d2r_canonicalization_id e = CANONICALIZATION_ID_INT53_V1.

Lemma extract_response01_Ok v e pre :
  value_wf v -> response_signing_preimage v = Ok pre ->
  (extract_response_envelope v = Ok e <-> response01 v e).
Proof.
  intros W Hpre. pose proof (signing_preimage_block _ _ _ Hpre) as Hblk.
  unfold extract_response_envelope, response01. split.
  - intros He. destruct (locate_envelope _ _ _) as [raw|] eqn:El; [|done].
    apply locate_envelope_path in El. apply deserialize_envelope_Ok in He.
    destruct (located_members Response _ _ _ El Hblk He) as (m & sg & -> & Hsg & Hm & Hn).
    exists m. split; [done|]. split; [|done].
    cbn in Hm |- *. destruct_and! Hm. split_and!; try done. by eapply nested_upgrade.
  - intros (m & Hp & Hm & Hn). rewrite (proj2 (locate_envelope_path _ _ _ _) Hp).
    apply deserialize_envelope_Ok. apply from_value_wire; [|done..]. by eapply value_wf_path.
Qed.

Lemma extract_response02_Ok v e pre :
  value_wf v -> response_signing_preimage v = Ok pre ->
  (extract_draft02_response_envelope v = Ok e <-> response02 v e).
Proof.
  intros W Hpre. pose proof (signing_preimage_block _ _ _ Hpre) as Hblk.
  unfold extract_draft02_response_envelope, response02. split.
  - intros He. destruct (locate_envelope _ _ _) as [raw|] eqn:El; [|done].
    apply locate_envelope_path in El.
    destruct (require_draft02_version raw) eqn:E1; [|done]. apply require_draft02_version_Ok in E1.
    destruct (check_canonicalization_id raw) eqn:E2; [|done]. apply check_canonicalization_id_Ok in E2.
    apply deserialize_envelope_Ok in He.
    destruct (located_members Response _ _ _ El Hblk He) as (m & sg & -> & Hsg & Hm & Hn).
    cbn [get] in E1, E2. exists m. cbn in Hm. unfold field in Hm. destruct_and! Hm.
    split; [done|]. split; [cbn; unfold field; split_and!; try done; by eapply nested_upgrade|].
    split; [done|]. split; congruence.
  - intros (m & Hp & Hm & Hn & Hv & Hc). rewrite (proj2 (locate_envelope_path _ _ _ _) Hp).
    pose proof Hm as Hm'. cbn in Hm'. unfold field in Hm'. destruct_and! Hm'.
    rewrite (proj2 (require_draft02_version_Ok _ tt)) by (cbn; congruence).
    rewrite (proj2 (check_canonicalization_id_Ok _ tt)) by (cbn; congruence).
    apply deserialize_envelope_Ok. apply from_value_wire; [|done..]. by eapply value_wf_path.
Qed.

(** The signature steps of a response: algorithm, key, preimage, Ed25519. *)
Definition response_signature (resolver : TrustResolver) (v : Value) (signer : rstr)
    (sg : SignatureBlock) : result bytes McpsError :=
  try? ensure_ed25519_alg (alg sg) ResponseSigInvalid ;;
  let? key := map_err trust_to_mcps_error (resolver signer (key_id sg)) in
  let? pre := response_signing_preimage v in
  let? sv := ok_or (sig_value sg) ResponseSigInvalid in
  try? verify_ed25519_with pre sv key ResponseSigInvalid ;; Ok pre.

Lemma response_signature_Ok resolver v signer sg pre :
  response_signature resolver v signer sg = Ok pre <->
  exists key, resolver signer (key_id sg) = Ok key /\ signed_by Response v pre sg key.
Proof.
  unfold response_signature, signed_by, ensure_ed25519_alg, response_signing_preimage. split.
  - intros Hs. case_bool_decide as E1; [|done].
    destruct (map_err _ _) as [key|] eqn:E2; [|done]. apply map_err_Ok in E2.
    destruct (signing_preimage v Response) as [pre'|]; [|done].
    destruct (sig_value sg) as [sv|]; [|done]. cbn in Hs.
    destruct (verify_ed25519_with _ _ _ _) eqn:E3; [|done]. simplify_eq.
    apply verify_ed25519_with_Ok in E3 as (raw & ? & ? & ?).
    exists key. split; [done|]. split; [done|]. split; [done|]. by exists sv, raw.
  - intros (key & Hr & Hp & Ha & s & raw & Hs & Hd & Hl & Hv).
    rewrite (bool_decide_eq_true_2 _ Ha), Hr, Hp, Hs. cbn [map_err ok_or].
    unfold verify_ed25519_with, b64url_decode, try_into_array.
    rewrite Hd. cbn [ok_or]. by rewrite (bool_decide_eq_true_2 _ Hl), Hv.
Qed.

Lemma verify_response_steps raw resolver h :
  verify_response raw resolver h =
  (let? v := shape raw in let? e := extract_response_envelope v in
   let? _ := response_signature resolver v (resp_server_signer e) (resp_signature e) in
   if negb (bool_decide (resp_request_hash e = h)) then Err ResponseHashMismatch
   else Ok {| vresp_server_signer := resp_server_signer e; vresp_key_id := key_id (resp_signature e);
              vresp_request_hash := resp_request_hash e |}).
Proof. unfold verify_response, shape, response_signature. walk. Qed.

Lemma verify_response_draft02_steps raw resolver h cid :
  verify_response_draft02 raw resolver h cid =
  (let? v := shape raw in let? e := extract_draft02_response_envelope v in
   let? _ := response_signature resolver v (d2r_server_signer e) (d2r_signature e) in
   if negb (bool_decide (d2r_canonicalization_id e = cid)) then Err CanonicalizationIdMismatch
   else if negb (bool_decide (d2r_request_hash e = h)) then Err ResponseHashMismatch
   else Ok {| vresp_server_signer := d2r_server_signer e; vresp_key_id := key_id (d2r_signature e);
              vresp_request_hash := d2r_request_hash e |}).
Proof. unfold verify_response_draft02, shape, response_signature. walk. Qed.

Lemma verify_response_Ok raw resolver h r :
  verify_response raw resolver h = Ok r <->
  exists v e pre key, well_shaped raw v /\ response01 v e /\
    resolver (resp_server_signer e) (key_id (resp_signature e)) = Ok key /\
    signed_by Response v pre (resp_signature e) key /\ resp_request_hash e = h /\
    r = {| vresp_server_signer := resp_server_signer e; vresp_key_id := key_id (resp_signature e);
           vresp_request_hash := h |}.
Proof.
  rewrite verify_response_steps. split.
  - destruct (shape raw) as [v|] eqn:Es; [|done]. apply shape_Ok in Es.
    destruct (extract_response_envelope v) as [e|] eqn:Ee; [|done].
    destruct (response_signature _ _ _ _) as [pre|] eqn:Er; [|done].
    apply response_signature_Ok in Er as (key & Hk & Hsb). pose proof Hsb as [Hp _].
    apply (extract_response01_Ok v e pre) in Ee; [|eapply from_slice_wf, Es|exact Hp].
    case_bool_decide; [|done]. intros [= <-]. exists v, e, pre, key. subst. done.
  - intros (v & e & pre & key & Hs & He & Hk & Hsb & Hh & ->). rewrite (proj2 (shape_Ok _ _) Hs).
    pose proof Hsb as [Hp _].
    apply (extract_response01_Ok v e pre) in He; [|eapply from_slice_wf, Hs|exact Hp]. rewrite He.
    rewrite (proj2 (response_signature_Ok _ _ _ _ pre)) by eauto.
    by rewrite (bool_decide_eq_true_2 _ Hh), Hh.
Qed.

(** C9: [verify_response] accepts exactly the well-shaped responses (a JSON-RPC
    object with an id that is not null and a draft-01 response envelope) that
    are signed, as whole objects, by the key the given resolver returns for the
    signer and key id the envelope names, and whose signed [request_hash] is
    the expected one; a correctly signed response to another request is
    refused.  The id itself is not compared, and who may sign is the
    resolver's decision. *)
Theorem verify_response_exact raw resolver h r :
  verify_response raw resolver h = Ok r <->
  exists v e pre key, well_shaped raw v /\ response01 v e /\
    resolver (resp_server_signer e) (key_id (resp_signature e)) = Ok key /\
    signed_by Response v pre (resp_signature e) key /\ resp_request_hash e = h /\
    r = {| vresp_server_signer := resp_server_signer e; vresp_key_id := key_id (resp_signature e);
           vresp_request_hash := h |}.
Proof. apply verify_response_Ok. Qed.

Lemma verify_response_draft02_Ok raw resolver h cid r :
  verify_response_draft02 raw resolver h cid = Ok r <->
  exists v e pre key, well_shaped raw v /\ response02 v e /\
    resolver (d2r_server_signer e) (key_id (d2r_signature e)) = Ok key /\
    signed_by Response v pre (d2r_signature e) key /\ d2r_canonicalization_id e = cid /\
    d2r_request_hash e = h /\
    r = {| vresp_server_signer := d2r_server_signer e; vresp_key_id := key_id (d2r_signature e);
           vresp_request_hash := h |}.
Proof.
  rewrite verify_response_draft02_steps. split.
  - destruct (shape raw) as [v|] eqn:Es; [|done]. apply shape_Ok in Es.
    destruct (extract_draft02_response_envelope v) as [e|] eqn:Ee; [|done].
    destruct (response_signature _ _ _ _) as [pre|] eqn:Er; [|done].
    apply response_signature_Ok in Er as (key & Hk & Hsb). pose proof Hsb as [Hp _].
    apply (extract_response02_Ok v e pre) in Ee; [|eapply from_slice_wf, Es|exact Hp].
    do 2 (case_bool_decide; [|done]). intros [= <-]. exists v, e, pre, key. subst. done.
  - intros (v & e & pre & key & Hs & He & Hk & Hsb & Hc & Hh & ->). rewrite (proj2 (shape_Ok _ _) Hs).
    pose proof Hsb as [Hp _].
    apply (extract_response02_Ok v e pre) in He; [|eapply from_slice_wf, Hs|exact Hp]. rewrite He.
    rewrite (proj2 (response_signature_Ok _ _ _ _ pre)) by eauto.
    by rewrite (bool_decide_eq_true_2 _ Hc), (bool_decide_eq_true_2 _ Hh), Hh.
Qed.

(** [verify_response_draft02] accepts exactly the signed draft-02
    responses whose signed [request_hash] and [canonicalization_id] are those
    of the verified request. *)
Theorem verify_response_draft02_exact raw resolver h cid r :
  verify_response_draft02 raw resolver h cid = Ok r <->
  exists v e pre key, well_shaped raw v /\ response02 v e /\
    resolver (d2r_server_signer e) (key_id (d2r_signature e)) = Ok key /\
    signed_by Response v pre (d2r_signature e) key /\ d2r_canonicalization_id e = cid /\
    d2r_request_hash e = h /\
    r = {| vresp_server_signer := d2r_server_signer e; vresp_key_id := key_id (d2r_signature e);
           vresp_request_hash := h |}.
Proof. apply verify_response_draft02_Ok. Qed.
End Responses.

(** The request hash identifies the request: if two well-formed request
    objects have the same [request_hash], and SHA-256 does not collide on their
    two preimages, they are the same object up to member order once the
    excluded paths are deleted.  A response bound to that hash is therefore
    bound to that request. *)
Theorem request_hash_binds `{B64 : Base64, SH : !Sha2, BL : !Base64Laws, SL : !Sha2Laws} o1 o2 p1 p2 :
  value_wf o1 -> value_wf o2 ->
  request_signing_preimage o1 = Ok p1 -> request_signing_preimage o2 = Ok p2 ->
  (sha256_digest p1 = sha256_digest p2 -> p1 = p2) ->
  request_hash o1 = request_hash o2 ->
  value_equiv (signed_part Request o1) (signed_part Request o2).
Proof.
  intros W1 W2 H1 H2 Hcol Hh. unfold request_hash in Hh. rewrite H1, H2 in Hh. simplify_eq.
  unfold request_signing_preimage in *.
  assert (p1 = p2) as ->.
  { apply Hcol. pose proof (parse_hash_id_roundtrip p1) as R1. pose proof (parse_hash_id_roundtrip p2) as R2.
    unfold sha256_hash_id in *. congruence. }
  rewrite signing_preimage_spec in H1, H2 by done.
  destruct (has_signature_block Request o1), (has_signature_block Request o2); try done.
  apply (canonicalize_json_value_equiv _ _ p2); [| |done|done]; by apply value_wf_delete_paths.
Qed.

Import Toy.

Lemma verify_response_exact_witness :
  exists r v e pre key, well_shaped sample_response01 v /\ response01 v e /\
    sample_resolver (resp_server_signer e) (key_id (resp_signature e)) = Ok key /\
    signed_by Response v pre (resp_signature e) key /\ resp_request_hash e = sample_hash01 /\
    r = {| vresp_server_signer := resp_server_signer e; vresp_key_id := key_id (resp_signature e);
           vresp_request_hash := sample_hash01 |}.
Proof.
  eexists. apply (proj1 (verify_response_exact sample_response01 sample_resolver sample_hash01 _)).
  vm_compute. reflexivity.
Defined.
