(* ===== verification/SharedReplay.v ===== *)
(** * The shared replay cache

    [mcps-proxy/src/shared_replay.rs]: the atomic-store primitive, the cache
    that any number of sidecars put in front of one store, and the in-memory
    reference store.  The store behind the [Arc] is the state; every node's
    call goes through it. *)

From S2P Require Import Prelude Utf8 Errors Json Canonical CanonicalRound Time Crypto Signing Values Envelope Instances.
From S2P Require Import Replay Resolver Constraints Pipeline Samples PipelineSpec PipelineTheorems PipelineHistory.

Inductive ReplayStoreError : Type := StoreUnavailable (details : rstr).

(** [From<ReplayStoreError> for ReplayCacheError]. *)
Definition store_to_cache_error (e : ReplayStoreError) : ReplayCacheError :=
  match e with StoreUnavailable details => ReplayUnavailable details end.

Definition is_stale_pre_store (retain_until_unix now_unix : Z) : bool :=
  saturating_sub retain_until_unix now_unix <=? 0.

(** [trait AtomicReplayStore] over the state of the store. *)
Class AtomicReplayStore (St : Type) := {
  insert_if_absent : St -> rstr -> Z -> Z -> result ReplayDecision ReplayStoreError * St;
  store_durability_class : St -> ReplayDurabilityClass;
}.

(** What the cache relies on: a key is reported [Fresh] only when the store did
    not hold it, and is then held with the given instant; and a call drops
    nothing. *)
Class AtomicStoreContract (St : Type) `{AtomicReplayStore St} := {
  held : St -> rstr -> option Z;
  insert_fresh st key t now st' :
    insert_if_absent st key t now = (Ok Fresh, st') -> held st key = None /\ held st' key = Some t;
  insert_held st key t now r st' k u :
    insert_if_absent st key t now = (r, st') -> held st k = Some u -> held st' k = Some u;
}.

(** ** [SharedReplayCache] *)
Section Shared.
Context `{Base64, Sha2}.

(** The length-prefixed text of a triple. *)
Definition composite_preimage (signer audience nonce : rstr) : rstr :=
  display_unsigned (str_len signer) ++ [58] ++ signer ++ [124] ++
  display_unsigned (str_len audience) ++ [58] ++ audience ++ [124] ++
  display_unsigned (str_len nonce) ++ [58] ++ nonce.

Definition composite_key (signer audience nonce : rstr) : rstr :=
  sha256_hash_id (as_bytes (composite_preimage signer audience nonce)).

Record SharedReplayCache (St : Type) : Type := {
  src_store : St;
  src_max_clock_skew_secs : Z;
}.
Arguments src_store {St}.
Arguments src_max_clock_skew_secs {St}.

Definition shared_new {St} (st : St) (max_clock_skew_secs : Z) : SharedReplayCache St :=
  {| src_store := st; src_max_clock_skew_secs := max_clock_skew_secs |}.

Definition shared_check_and_insert `{AtomicReplayStore St} (c : SharedReplayCache St)
    (signer audience nonce : rstr) (expires_at_unix : Z)
  : result ReplayDecision ReplayCacheError * SharedReplayCache St :=
  let key := composite_key signer audience nonce in
  let retain_until := saturating_add expires_at_unix (src_max_clock_skew_secs c) in
  let (r, st) := insert_if_absent (src_store c) key retain_until 0 in
  (map_err store_to_cache_error r, shared_new st (src_max_clock_skew_secs c)).

#[export] Instance shared_replay_cache `{AtomicReplayStore St} : ReplayCache (SharedReplayCache St) := {
  check_and_insert := shared_check_and_insert;
  durability_class c := store_durability_class (src_store c);
}.
End Shared.
Arguments src_store {St}.
Arguments src_max_clock_skew_secs {St}.

(** ** [InMemoryAtomicReplayStore] *)

Definition MAX_ATOMIC_STORE_ENTRIES : Z := 1000000.

(** The map behind the mutex, with its poison flag. *)
Record InMemoryAtomicReplayStore : Type := {
  as_seen : gmap rstr Z;
  as_max_entries : Z;
  as_poisoned : bool;
}.

Definition atomic_store_new : InMemoryAtomicReplayStore :=
  {| as_seen := ∅; as_max_entries := MAX_ATOMIC_STORE_ENTRIES; as_poisoned := false |}.

Definition with_seen (st : InMemoryAtomicReplayStore) (m : gmap rstr Z) : InMemoryAtomicReplayStore :=
  {| as_seen := m; as_max_entries := as_max_entries st; as_poisoned := as_poisoned st |}.

Definition atomic_prune (st : InMemoryAtomicReplayStore) (now_unix : Z) : InMemoryAtomicReplayStore :=
  if as_poisoned st then st else with_seen st (filter (fun kv => now_unix <= kv.2) (as_seen st)).

Definition atomic_len (st : InMemoryAtomicReplayStore) : nat :=
  if as_poisoned st then 0%nat else size (as_seen st).

Definition stale_details (expires_at_unix now_unix : Z) : rstr :=
  str "replay request already stale: retain_until (" ++ display_signed expires_at_unix ++
  str ") is at or before now (" ++ display_signed now_unix ++
  str ") " ++ [8212] ++ str " rejected pre-store (MCPS-08, fail closed) rather than recorded as Fresh".

Definition atomic_insert_if_absent (st : InMemoryAtomicReplayStore) (key : rstr) (expires_at_unix now_unix : Z)
  : result ReplayDecision ReplayStoreError * InMemoryAtomicReplayStore :=
  if is_stale_pre_store expires_at_unix now_unix
  then (Err (StoreUnavailable (stale_details expires_at_unix now_unix)), st)
  else if as_poisoned st
  then (Err (StoreUnavailable (str "shared store mutex poisoned: poisoned lock: another task failed inside")), st)
  else if bool_decide (is_Some (as_seen st !! key)) then (Ok Replay, st)
  else if as_max_entries st <=? Z.of_nat (size (as_seen st))
  then (Err (StoreUnavailable (str "in-memory shared replay store at capacity (" ++ display_signed (as_max_entries st) ++
          str " entries); refusing further nonces until expired entries are pruned")), st)
  else (Ok Fresh, with_seen st (<[key := expires_at_unix]> (as_seen st))).

#[export] Instance in_memory_atomic_store : AtomicReplayStore InMemoryAtomicReplayStore := {
  insert_if_absent := atomic_insert_if_absent;
  store_durability_class := fun _ => SingleProcessReference;
}.

(** ** Contracts *)

Lemma atomic_insert_cases st key t now r st' :
  atomic_insert_if_absent st key t now = (r, st') ->
  (st' = st /\ r <> Ok Fresh) \/
  (r = Ok Fresh /\ as_seen st !! key = None /\ st' = with_seen st (<[key := t]> (as_seen st)) /\
   Z.of_nat (size (as_seen st)) < as_max_entries st).
Proof.
  unfold atomic_insert_if_absent. destruct (is_stale_pre_store t now); [intros [= <- <-]; by left|].
  destruct (as_poisoned st); [intros [= <- <-]; by left|]. case_bool_decide as Hk; [intros [= <- <-]; by left|].
  destruct (as_max_entries st <=? _) eqn:Em; [intros [= <- <-]; by left|]. breflect. intros [= <- <-]. right.
  apply eq_None_not_Some in Hk. done.
Qed.

#[export] Program Instance in_memory_atomic_contract : AtomicStoreContract InMemoryAtomicReplayStore := {
  held st key := as_seen st !! key;
}.
Next Obligation.
  intros st key t now st' [[_ ?]|(_ & Hk & -> & _)]%atomic_insert_cases; [done|]. split; [done|apply lookup_insert_eq].
Qed.
Next Obligation.
  intros st key t now r st' k u [[-> _]|(_ & Hk & -> & _)]%atomic_insert_cases Hu; [done|]. cbn.
  rewrite lookup_insert_ne; [done|congruence].
Qed.

(** Capacity is an invariant of the reference store. *)
Lemma atomic_insert_bounded st key t now r st' :
  atomic_insert_if_absent st key t now = (r, st') ->
  Z.of_nat (size (as_seen st)) <= as_max_entries st ->
  Z.of_nat (size (as_seen st')) <= as_max_entries st' /\ as_max_entries st' = as_max_entries st.
Proof.
  intros [[-> _]|(_ & Hk & -> & Hl)]%atomic_insert_cases Hs; [done|]. cbn. rewrite map_size_insert_None by done. split; [lia|done].
Qed.

Section SharedContracts.
Context `{B64 : Base64, SH : Sha2}.

(** Any conforming store makes a cache that never accepts a triple twice; a
    collision of the hash can only refuse. *)
#[export] Program Instance shared_contract `{AtomicStoreContract St} : ReplayContract (SharedReplayCache St) := {
  recorded c k := is_Some (held (src_store c) (composite_key k.1.1 k.1.2 k.2));
}.
Next Obligation.
  intros St AS AC c s a n t c' Hc. cbn in Hc |- *. unfold shared_check_and_insert in Hc.
  destruct (insert_if_absent _ _ _ _) as [r st] eqn:Ei. destruct r as [[]|]; simplify_eq.
  apply insert_fresh in Ei as [E1 E2]. cbn. rewrite E1, E2. split; [by intros []|done].
Qed.
Next Obligation.
  intros St AS AC c s a n t c' [u Hu] Hc. cbn in Hc, Hu. unfold shared_check_and_insert in Hc.
  destruct (insert_if_absent _ _ _ _) as [r st] eqn:Ei. destruct r as [[]|]; simplify_eq.
  apply insert_fresh in Ei as [E1 _]. congruence.
Qed.
Next Obligation.
  intros St AS AC c s a n t r c' k Hc [u Hu]. cbn in Hc |- *. unfold shared_check_and_insert in Hc.
  destruct (insert_if_absent _ _ _ _) as [r' st] eqn:Ei. simplify_eq. cbn. exists u. by eapply insert_held.
Qed.

(** The cache of a whole fleet over one reference store, which is pruned. *)
#[export] Program Instance shared_retention : RetentionContract (SharedReplayCache InMemoryAtomicReplayStore) := {
  retention_inv c := True;
  retain_skew := src_max_clock_skew_secs;
  retained c k := as_seen (src_store c) !! composite_key k.1.1 k.1.2 k.2;
  over now u := u < now;
  tick _ c := c;
  maintains now c c' := c' = shared_new (atomic_prune (src_store c) now) (src_max_clock_skew_secs c);
  ended now _ := now;
}.
Next Obligation. intros; cbn in *; lia. Qed.
Next Obligation. intros; cbn in *; lia. Qed.
Next Obligation. intros; cbn in *; lia. Qed.
Next Obligation.
  intros now c s a n t c' _ _ Hc. cbn in Hc |- *. unfold shared_check_and_insert in Hc.
  destruct (insert_if_absent _ _ _ _) as [r st] eqn:Ei. destruct r as [[]|]; simplify_eq. apply insert_fresh in Ei as [E1 E2].
  cbn in E1, E2. split; [congruence|left; by eexists].
Qed.
Next Obligation.
  intros now c s a n t r c' _ _ Hc. cbn in Hc |- *. unfold shared_check_and_insert in Hc.
  destruct (insert_if_absent _ _ _ _) as [r' st] eqn:Ei. simplify_eq. split_and!; try done.
  intros k u Hu. left. exact (insert_held _ _ _ _ _ _ _ _ Ei Hu).
Qed.
Next Obligation. done. Qed.
Next Obligation.
  intros now c c' _ ->. split_and!; try done. intros k u Hu. cbn. unfold atomic_prune.
  destruct (as_poisoned (src_store c)); [by left|]. cbn [as_seen with_seen].
  destruct (decide (now <= u)); [left|right; lia]. by apply map_lookup_filter_Some.
Qed.

(** ** The composite key *)

Lemma composite_preimage_inj s1 a1 n1 s2 a2 n2 :
  str_wf s1 -> str_wf a1 -> str_wf n1 -> str_wf s2 -> str_wf a2 -> str_wf n2 ->
  composite_preimage s1 a1 n1 = composite_preimage s2 a2 n2 -> (s1, a1, n1) = (s2, a2, n2).
Proof.
  intros W1 W2 W3 W4 W5 W6 E. unfold composite_preimage in E. cbn [app] in E.
  assert (Hp : forall k r, str_wf k -> str_wf r -> str_wf (124 :: display_unsigned (str_len k) ++ 58 :: k ++ r)).
  { intros k r Hk Hr. constructor; [done|]. apply Forall_app. split; [apply str_wf_display_unsigned, str_len_nonneg|].
    constructor; [done|]. by apply Forall_app. }
  assert (Hl : forall k, str_wf k -> str_wf (124 :: display_unsigned (str_len k) ++ 58 :: k)).
  { intros k Hk. pose proof (Hp k [] Hk (Forall_nil_2 _)) as Hx. by rewrite app_nil_r in Hx. }
  apply length_prefixed_inj in E as [-> E]; [|auto..]. injection E as E.
  apply length_prefixed_inj in E as [-> E]; [|auto..]. injection E as E.
  pose proof (length_prefixed_inj n1 n2 [] []) as L. rewrite !app_nil_r in L.
  apply L in E as [-> _]; [done|done|done|constructor|constructor].
Qed.

(** ** Refinement of the reference cache *)

(** A sequence of calls, and the decisions it gets. *)
Record replay_call : Type := { rc_key : replay_key; rc_expires_at : Z }.

Definition run_call `{ReplayCache C} (c : C) (q : replay_call) : result ReplayDecision ReplayCacheError * C :=
  check_and_insert c (rc_key q).1.1 (rc_key q).1.2 (rc_key q).2 (rc_expires_at q).

Fixpoint decisions `{ReplayCache C} (c : C) (qs : list replay_call) : list (result ReplayDecision ReplayCacheError) :=
  match qs with
  | [] => []
  | q :: qs' => let (r, c') := run_call c q in r :: decisions c' qs'
  end.

(** SHA-256 does not collide on the texts of these triples. *)
Definition collision_free (ks : list replay_key) : Prop :=
  forall k1 k2, k1 ∈ ks -> k2 ∈ ks ->
    sha256_digest (as_bytes (composite_preimage k1.1.1 k1.1.2 k1.2)) =
    sha256_digest (as_bytes (composite_preimage k2.1.1 k2.1.2 k2.2)) ->
    composite_preimage k1.1.1 k1.1.2 k1.2 = composite_preimage k2.1.1 k2.1.2 k2.2.

(** The store holds under the composite keys what the reference cache holds
    under the triples. *)
Definition store_simulates (ks : list replay_key) (c : SharedReplayCache InMemoryAtomicReplayStore)
    (r : InMemoryReplayCache) : Prop :=
  src_max_clock_skew_secs c = imrc_max_clock_skew_secs r /\ as_poisoned (src_store c) = false /\
  size (as_seen (src_store c)) = size (seen r) /\
  forall k, k ∈ ks -> as_seen (src_store c) !! composite_key k.1.1 k.1.2 k.2 = seen r !! k.

Lemma composite_key_inj `{BL : !Base64Laws, SL : !Sha2Laws} ks k1 k2 :
  Forall key_wf ks -> collision_free ks -> k1 ∈ ks -> k2 ∈ ks ->
  composite_key k1.1.1 k1.1.2 k1.2 = composite_key k2.1.1 k2.1.2 k2.2 -> k1 = k2.
Proof.
  intros Hw Hc H1 H2 E. unfold composite_key in E.
  assert (Hd := f_equal parse_hash_id E). rewrite !parse_hash_id_roundtrip in Hd. injection Hd as Hd.
  apply Hc in Hd; [|done..]. rewrite Forall_forall in Hw. destruct (Hw k1 H1) as (? & ? & ?), (Hw k2 H2) as (? & ? & ?).
  apply composite_preimage_inj in Hd; [|done..]. by destruct k1 as [[]], k2 as [[]].
Qed.

Lemma run_call_simulates `{BL : !Base64Laws, SL : !Sha2Laws} ks c r q :
  Forall key_wf ks -> collision_free ks -> rc_key q ∈ ks -> store_simulates ks c r ->
  Z.of_nat (size (seen r)) < as_max_entries (src_store c) ->
  0 < saturating_add (rc_expires_at q) (imrc_max_clock_skew_secs r) ->
  (run_call c q).1 = (run_call r q).1 /\ store_simulates ks (run_call c q).2 (run_call r q).2 /\
  as_max_entries (src_store (run_call c q).2) = as_max_entries (src_store c) /\
  (size (seen (run_call r q).2) <= S (size (seen r)))%nat.
Proof.
  intros Hw Hcf Hin (Hsk & Hp & Hsz & Hl) Hcap Hpos. destruct q as [[[s a] n] t]. cbn [rc_key rc_expires_at] in *.
  unfold run_call. cbn. unfold shared_check_and_insert, in_memory_check_and_insert. cbn.
  unfold atomic_insert_if_absent, is_stale_pre_store. rewrite Hsk.
  rewrite (proj2 (Z.leb_gt _ 0)) by (unfold saturating_add, saturating_sub, sat_i64, I64_MIN, I64_MAX in *; lia).
  pose proof (Hl _ Hin) as Hk. cbn in Hk. rewrite Hp, Hk.
  destruct (seen r !! (s, a, n)) as [u|] eqn:Es.
  - rewrite bool_decide_eq_true_2 by eauto. cbn. split_and!; try done. lia.
  - rewrite bool_decide_eq_false_2 by (by intros []). rewrite (proj2 (Z.leb_gt _ _)) by (rewrite Hsz; lia). cbn.
    split_and!; try done; [|rewrite map_size_insert_None by done; lia].
    unfold store_simulates. cbn. rewrite map_size_insert_None, map_size_insert_None by done.
    split_and!; [done|done|congruence|]. intros k Hkin.
    destruct (decide (k = (s, a, n))) as [->|Hne]; [by rewrite !lookup_insert_eq|].
    rewrite lookup_insert_ne, lookup_insert_ne; [by apply Hl|congruence|]. intros E. apply Hne.
    symmetry. by apply (composite_key_inj ks (s, a, n) k).
Qed.

Lemma decisions_simulate `{BL : !Base64Laws, SL : !Sha2Laws} ks qs c r :
  Forall key_wf ks -> collision_free ks -> Forall (fun q => rc_key q ∈ ks) qs -> store_simulates ks c r ->
  Z.of_nat (size (seen r) + length qs) <= as_max_entries (src_store c) ->
  Forall (fun q => 0 < saturating_add (rc_expires_at q) (imrc_max_clock_skew_secs r)) qs ->
  decisions c qs = decisions r qs.
Proof.
  intros Hw Hcf Hqs. revert c r. induction Hqs as [|q qs Hq _ IH]; intros c r Hs Hcap Hpos; [done|].
  apply Forall_cons in Hpos as [Hp Hpos]. cbn [length] in Hcap. cbn [decisions].
  destruct (run_call_simulates ks c r q Hw Hcf Hq Hs) as (Hd & Hs' & Hm & Hsz); [lia|done|].
  destruct (run_call c q) as [d c'], (run_call r q) as [d' r'] eqn:Er. cbn [fst snd] in *. subst d'. f_equal. apply IH; [done|lia|].
  assert (imrc_max_clock_skew_secs r' = imrc_max_clock_skew_secs r) as ->; [|done].
  revert Er. unfold run_call. destruct (in_memory_cases r (rc_key q).1.1 (rc_key q).1.2 (rc_key q).2 (rc_expires_at q))
    as [(u & _ & ->)|(_ & r2 & -> & ? & _)]; intros [= <- <-]; done.
Qed.

(** C19: The shared cache over the reference store decides exactly as the
    in-memory reference cache: on any sequence of calls whose retain-until
    instants are after the epoch and which is no longer than the store's
    capacity, the two give the same decisions, provided SHA-256 does not
    collide on the triples presented.  So any number of nodes over one store
    behave as a single cache. *)
Theorem shared_cache_refines `{BL : !Base64Laws, SL : !Sha2Laws} skew qs :
  Forall (fun q => key_wf (rc_key q)) qs -> collision_free (rc_key <$> qs) ->
  Z.of_nat (length qs) <= MAX_ATOMIC_STORE_ENTRIES ->
  Forall (fun q => 0 < saturating_add (rc_expires_at q) skew) qs ->
  decisions (shared_new atomic_store_new skew) qs = decisions (in_memory_new skew) qs.
Proof.
  intros Hw Hcf Hlen Hpos. apply (decisions_simulate (rc_key <$> qs)); try done.
  - by apply Forall_fmap.
  - apply Forall_forall. intros q Hq. apply list_elem_of_fmap. eauto.
Qed.
End SharedContracts.

Import Toy.

Definition sample_calls : list replay_call :=
  [{| rc_key := (str "did:a", str "srv", str "n1"); rc_expires_at := 1704067500 |};
   {| rc_key := (str "did:a", str "srv", str "n2"); rc_expires_at := 1704067500 |};
   {| rc_key := (str "did:a", str "srv", str "n1"); rc_expires_at := 1704067500 |}].

Lemma shared_cache_refines_witness :
  decisions (shared_new atomic_store_new 60) sample_calls = [Ok Fresh; Ok Fresh; Ok Replay] /\
  decisions (shared_new atomic_store_new 60) sample_calls = decisions (in_memory_new 60) sample_calls.
Proof.
  split; [vm_compute; reflexivity|]. apply (shared_cache_refines 60 sample_calls).
  - repeat constructor; solve_str_wf.
  - intros k1 k2 H1 H2. cbn in H1, H2. rewrite !elem_of_cons in H1, H2.
    destruct H1 as [->|[->|[->|[]%not_elem_of_nil]]], H2 as [->|[->|[->|[]%not_elem_of_nil]]];
      try reflexivity; intros E; exfalso; revert E; apply (bool_decide_unpack _); vm_compute; exact I.
  - vm_compute. discriminate.
  - repeat constructor; vm_compute; reflexivity.
Defined.

(** ** Replay stores whose server expires the keys

    What the Redis and the etcd store promise to the shared cache: a server
    keeps the keys with deadlines on its own clock, in milliseconds, and a node
    reads a clock of whole seconds once, when its call begins.  A store of this kind makes a cache that
    meets the [RetentionContract], so the history theorem applies to a fleet of
    nodes over one server. *)

(** [st_at now]: the store and its server at an instant of the second [now],
    which is what the node's clock reads; [store_ms] is the server's clock,
    which goes on during a call, while other clients use the server too. *)
Class ExpiringStore (St : Type) `{AtomicReplayStore St} := {
  deadline : St -> rstr -> option Z;
  store_ms : St -> Z;
  st_at : Z -> St -> St;
  expiring_fresh now st key t st' :
    0 <= now -> t <= 2 ^ 53 -> insert_if_absent (st_at now st) key t 0 = (Ok Fresh, st') ->
    now < t /\ (forall dl, deadline st key = Some dl -> dl <= store_ms st') /\
    exists dl, t * 1000 <= dl /\ (deadline st' key = Some dl \/ dl <= store_ms st');
  expiring_call now st key t r st' k dl :
    0 <= now -> insert_if_absent (st_at now st) key t 0 = (r, st') -> deadline st k = Some dl ->
    deadline st' k = Some dl \/ dl <= store_ms st';
  expiring_at now st k : deadline (st_at now st) k = deadline st k;
}.

(** Milliseconds of the server in the seconds a node reads. *)
Lemma deadline_second dl ms : dl <= ms -> dl / 1000 <= ms / 1000.
Proof. intros Hle. apply Z.div_le_mono; lia. Qed.

Lemma window_second t dl : t * 1000 <= dl -> t <= dl / 1000.
Proof. intros Hle. apply Z.div_le_lower_bound; lia. Qed.

Section Fleet.
Context `{B64 : Base64, SH : Sha2} `{AS : AtomicReplayStore St, ES : !ExpiringStore St}.

(** A call ends when the server's clock says so.  Between calls another node
    may take its turn, with a connection of its own, and the server may drop
    what has expired. *)
#[export] Program Instance expiring_retention : RetentionContract (SharedReplayCache St) := {
  retention_inv c := - 2 ^ 52 <= src_max_clock_skew_secs c <= 2 ^ 52;
  retain_skew := src_max_clock_skew_secs;
  retained c k := (fun dl => dl / 1000) <$> deadline (src_store c) (composite_key k.1.1 k.1.2 k.2);
  over now u := u <= Z.max 0 now;
  tick now c := shared_new (st_at (Z.max 0 now) (src_store c)) (src_max_clock_skew_secs c);
  maintains now c c' := src_max_clock_skew_secs c' = src_max_clock_skew_secs c /\
    forall k dl, deadline (src_store c) k = Some dl ->
      deadline (src_store c') k = Some dl \/ dl / 1000 <= Z.max 0 now;
  ended now c := Z.max now (store_ms (src_store c) / 1000);
}.
Next Obligation. intros; cbn in *; lia. Qed.
Next Obligation. intros; cbn in *; lia. Qed.
Next Obligation. intros; cbn in *; lia. Qed.
Next Obligation.
  intros now c s a n t c' Hsk (_ & _ & _ & text & Ht) Hc. cbn in Hc, Hsk |- *. unfold shared_check_and_insert in Hc. cbn in Hc.
  destruct (insert_if_absent _ _ _ _) as [r st] eqn:Ei. destruct r as [[]|]; simplify_eq.
  apply parse_rfc3339_utc_bound in Ht.
  apply expiring_fresh in Ei as (_ & Hold & dl & Hle & Hd); [|lia|].
  2: { unfold saturating_add, sat_i64, I64_MIN, I64_MAX. lia. }
  apply window_second in Hle. cbn [src_store shared_new]. split.
  - intros u (dl' & Hdl & ->)%fmap_Some. apply Hold, deadline_second in Hdl. lia.
  - destruct Hd as [->|Hd%deadline_second]; [left; by eexists|right; lia].
Qed.
Next Obligation.
  intros now c s a n t r c' Hsk _ Hc. cbn in Hc |- *. unfold shared_check_and_insert in Hc. cbn in Hc.
  destruct (insert_if_absent _ _ _ _) as [r' st] eqn:Ei. simplify_eq. split; [exact Hsk|split; [done|]].
  intros k u (dl & Hdl & ->)%fmap_Some. cbn. eapply expiring_call in Ei as [->|Hx%deadline_second]; [by left|right; lia|lia|done].
Qed.
Next Obligation. intros now c Hsk. cbn. split; [exact Hsk|split; [done|]]. intros k. by rewrite expiring_at. Qed.
Next Obligation.
  intros now c c' Hsk [Hs Hk]. cbn in *. rewrite Hs. split; [exact Hsk|split; [done|]].
  intros k u (dl & [->|Hx]%Hk & ->)%fmap_Some; [by left|by right].
Qed.

Context `{SJ : SerdeJson, SJL : !SerdeJsonLaws, DK : !Dalek}.
Context `{D1 : !Deserialize RequestEnvelope, D2 : !Deserialize Draft02RequestEnvelope}.
Context `{L1 : !DeserializeLaws RequestEnvelope, L2 : !DeserializeLaws Draft02RequestEnvelope}.

Lemma fleet_at_most_once now (c : SharedReplayCache St) h :
  - 2 ^ 52 <= src_max_clock_skew_secs c <= 2 ^ 52 -> rtc step (history_start now c) h ->
  windows_apart (src_max_clock_skew_secs c) (h_accepted h).
Proof. intros HI Hr. exact (history_windows now c h HI Hr). Qed.
End Fleet.
