(* ===== verification/RedisStore.v ===== *)
(** * The Redis replay store

    [mcps-proxy/src/redis_store.rs]: the semaphore of connect workers, the
    bounded connect, the single reconnect, and the insertion [SET NX PX] with
    its optional [WAIT].  The client library and the server behind it are
    parameters ([Redis]); what they are relied on for is [RedisLaws]. *)

From S2P Require Import Prelude Utf8 Errors Json Canonical Time Crypto Signing Envelope Instances Ocsp Replay Resolver.
From S2P Require Import Constraints Pipeline Samples PipelineSpec PipelineTheorems PipelineHistory SharedReplay.

(** ** Time to live *)

Definition compute_ttl_ms (expires_at_unix now_unix : Z) : Z :=
  let ttl_secs := Z.max (saturating_sub expires_at_unix now_unix) 0 in
  Z.max (Z.min (ttl_secs * 1000) U64_MAX) 1.

Definition is_nonpositive_ttl (expires_at_unix now_unix : Z) : bool :=
  saturating_sub expires_at_unix now_unix <=? 0.

(** [system_clock], at a [SystemTime] in nanoseconds from the epoch. *)
Definition system_clock (now : Z) : Z :=
  match system_time_to_unix now with Some d => d / NANOS | None => 0 end.

(** ** The semaphore *)

Definition MAX_INFLIGHT_CONNECTS : Z := 64.

Definition inflight_refused : rstr :=
  str "redis connect refused: " ++ display_unsigned MAX_INFLIGHT_CONNECTS ++
  str " connect/handshake threads already in flight (backend likely half-open; failing closed to bound stranded-thread/fd accumulation rather than spawn another)".

(** A thread in [ConnectPermit::acquire] and after it: before the load, in the
    loop with the value it last saw, refused, holding a permit, and done. *)
Inductive permit_thread : Type :=
| PtStart
| PtLoop (current : Z)
| PtRefused
| PtHolding
| PtDropped.

#[export] Instance permit_thread_eq_dec : EqDecision permit_thread.
Proof. solve_decision. Defined.

(** [fetch_sub(1)] on a [usize]. *)
Definition fetch_sub_one (count : Z) : Z := (count - 1) mod 2 ^ 64.

(** One atomic action of a thread on the counter: the load, the test with the
    weak compare-exchange (which may fail [spurious]ly), or the drop. *)
Definition permit_action (count : Z) (spurious : bool) (t : permit_thread) : option (Z * permit_thread) :=
  match t with
  | PtStart => Some (count, PtLoop count)
  | PtLoop current =>
      if MAX_INFLIGHT_CONNECTS <=? current then Some (count, PtRefused)
      else if (count =? current) && negb spurious then Some (count + 1, PtHolding)
      else Some (count, PtLoop count)
  | PtHolding => Some (fetch_sub_one count, PtDropped)
  | PtRefused | PtDropped => None
  end.

(** The counter and the threads; any thread acts next. *)
Inductive permit_step : Z * list permit_thread -> Z * list permit_thread -> Prop :=
| permit_step_at i ts t count spurious count' t' :
    ts !! i = Some t -> permit_action count spurious t = Some (count', t') ->
    permit_step (count, ts) (count', <[i := t']> ts).

(** [ConnectPermit::acquire] run alone. *)
Definition acquire (inflight : Z) : result Z ReplayStoreError :=
  if MAX_INFLIGHT_CONNECTS <=? inflight then Err (StoreUnavailable inflight_refused) else Ok (inflight + 1).

(** ** Connection *)

(** [redis::RedisError]: its [Display] text and its classification. *)
Record RedisError : Type := {
  re_display : rstr;
  is_io_error : bool;
  is_connection_dropped : bool;
  is_connection_refusal : bool;
  is_unrecoverable_error : bool;
}.

Definition is_transient_connection_error (e : RedisError) : bool :=
  is_io_error e || is_connection_dropped e || is_connection_refusal e || is_unrecoverable_error e.

(** The [redis] crate over a server: opening a client, connecting (with the
    time connect and handshake take, [None] when they never end), the socket
    timeouts, and the two commands. *)
Class Redis (Sv Cn : Type) := {
  redis_client : Type;
  client_open : rstr -> result redis_client RedisError;
  get_connection_with_timeout : Sv -> redis_client -> Z -> result Cn RedisError * Sv;
  connect_takes : Sv -> option Z;
  set_read_timeout : Cn -> option Z -> result Cn RedisError;
  set_write_timeout : Cn -> option Z -> result Cn RedisError;
  cmd_set_nx_px : Sv -> Cn -> rstr -> Z -> result (option rstr) RedisError * (Sv * Cn);
  cmd_wait : Sv -> Cn -> Z -> Z -> result Z RedisError * (Sv * Cn);
}.

(** Durations are in nanoseconds. *)
Definition DEFAULT_REDIS_TIMEOUT : Z := 30 * NANOS.
Definition HANDSHAKE_GRACE : Z := 5 * NANOS.

Record ConnectParams : Type := {
  url : rstr;
  connect_timeout : Z;
  read_timeout : option Z;
  write_timeout : option Z;
}.

Record WaitQuorum : Type := { quorum : Z; timeout_ms : Z }.

(** The server, and the process's count of connect workers. *)
Record RedisWorld (Sv : Type) : Type := { w_server : Sv; w_inflight : Z }.
Arguments w_server {Sv}.
Arguments w_inflight {Sv}.

(** [OpAttempt]. *)
Inductive OpAttempt (T : Type) : Type :=
| AttemptDone (value : T)
| AttemptTransient (e : ReplayStoreError)
| AttemptFatal (e : ReplayStoreError).
Arguments AttemptDone {T}.
Arguments AttemptTransient {T}.
Arguments AttemptFatal {T}.

Definition wait_quorum_satisfied (acked_replicas quorum : Z) : bool := quorum <=? acked_replicas.

Definition classify_fresh_insert_wait (acked quorum timeout_ms : Z) : OpAttempt ReplayDecision :=
  if wait_quorum_satisfied acked quorum then AttemptDone Fresh
  else AttemptFatal (StoreUnavailable
    (str "redis WAIT got " ++ display_signed acked ++ str " replica ack(s), need " ++ display_unsigned quorum ++
     str " within " ++ display_unsigned timeout_ms ++
     str "ms (fail closed; nonce not durably replicated; retry with a FRESH nonce " ++ [8212] ++
     str " the same signed request may be rejected as replay until the TTL window elapses)")).

(** [run_with_reconnect], over the world the closures act on: at most one
    reconnect and two attempts. *)
Definition run_with_reconnect {W C T : Type} (reconnect : W -> result C ReplayStoreError * W)
    (op : W -> C -> OpAttempt T * (W * C)) (w : W) (conn_slot : C)
  : result T ReplayStoreError * (W * C) :=
  let '(first, (w1, c1)) := op w conn_slot in
  match first with
  | AttemptDone value => (Ok value, (w1, c1))
  | AttemptFatal e => (Err e, (w1, c1))
  | AttemptTransient _ =>
      match reconnect w1 with
      | (Err e, w2) => (Err e, (w2, c1))
      | (Ok fresh, w2) =>
          let '(second, (w3, c3)) := op w2 fresh in
          match second with
          | AttemptDone value => (Ok value, (w3, c3))
          | AttemptTransient e | AttemptFatal e => (Err e, (w3, c3))
          end
      end
  end.

Section Store.
Context `{RD : Redis Sv Cn}.

(** The closure the connect worker runs. *)
Definition connect_worker (params : ConnectParams) (sv : Sv) : result Cn ReplayStoreError * Sv :=
  match client_open (url params) with
  | Err e => (Err (StoreUnavailable (str "redis client open failed: " ++ re_display e)), sv)
  | Ok client =>
      let (got, sv') := get_connection_with_timeout sv client (connect_timeout params) in
      match got with
      | Err e => (Err (StoreUnavailable (str "redis connection failed: " ++ re_display e)), sv')
      | Ok conn =>
          match set_read_timeout conn (read_timeout params) with
          | Err e => (Err (StoreUnavailable (str "redis set_read_timeout failed: " ++ re_display e)), sv')
          | Ok conn =>
              match set_write_timeout conn (write_timeout params) with
              | Err e => (Err (StoreUnavailable (str "redis set_write_timeout failed: " ++ re_display e)), sv')
              | Ok conn => (Ok conn, sv')
              end
          end
      end
  end.

(** A worker that answers in time has returned its permit; one that overruns
    the deadline is abandoned and keeps it. *)
Definition bounded_connect (params : ConnectParams) (w : RedisWorld Sv)
  : result Cn ReplayStoreError * RedisWorld Sv :=
  match acquire (w_inflight w) with
  | Err e => (Err e, w)
  | Ok inflight =>
      let connect_deadline := duration_saturating_add (connect_timeout params) HANDSHAKE_GRACE in
      let (outcome, sv) := connect_worker params (w_server w) in
      let in_time := match connect_takes (w_server w) with Some t => t <=? connect_deadline | None => false end in
      if in_time then (outcome, {| w_server := sv; w_inflight := fetch_sub_one inflight |})
      else (Err (StoreUnavailable
              (str "redis connect/handshake did not complete within " ++ debug_duration connect_deadline ++
               str " (backend accepted TCP but never answered the handshake; fail closed)")),
            {| w_server := sv; w_inflight := inflight |})
  end.

(** The store of a node: the parameters, the connection behind its mutex, the
    reading of its clock, and the world it acts on. *)
Record RedisAtomicReplayStore : Type := {
  rs_params : ConnectParams;
  rs_conn : Cn;
  rs_poisoned : bool;
  rs_clock : Z;
  rs_wait_quorum : option WaitQuorum;
  rs_world : RedisWorld Sv;
}.

Definition redis_connect_with (url : rstr) (connect_timeout : Z) (read_timeout write_timeout : option Z) (clock : Z)
    (w : RedisWorld Sv) : result RedisAtomicReplayStore ReplayStoreError * RedisWorld Sv :=
  let params := {| url := url; connect_timeout := connect_timeout;
                   read_timeout := read_timeout; write_timeout := write_timeout |} in
  let (got, w') := bounded_connect params w in
  (match got with
   | Err e => Err e
   | Ok conn => Ok {| rs_params := params; rs_conn := conn; rs_poisoned := false; rs_clock := clock;
                      rs_wait_quorum := None; rs_world := w' |}
   end, w').

Definition redis_connect (url : rstr) (clock : Z) (w : RedisWorld Sv)
  : result RedisAtomicReplayStore ReplayStoreError * RedisWorld Sv :=
  redis_connect_with url DEFAULT_REDIS_TIMEOUT (Some DEFAULT_REDIS_TIMEOUT) (Some DEFAULT_REDIS_TIMEOUT) clock w.

Definition with_wait_quorum (st : RedisAtomicReplayStore) (quorum timeout_ms : Z) : RedisAtomicReplayStore :=
  {| rs_params := rs_params st; rs_conn := rs_conn st; rs_poisoned := rs_poisoned st; rs_clock := rs_clock st;
     rs_wait_quorum := Some {| quorum := quorum; timeout_ms := timeout_ms |}; rs_world := rs_world st |}.

Definition with_world (st : RedisAtomicReplayStore) (w : RedisWorld Sv) (conn : Cn) : RedisAtomicReplayStore :=
  {| rs_params := rs_params st; rs_conn := conn; rs_poisoned := rs_poisoned st; rs_clock := rs_clock st;
     rs_wait_quorum := rs_wait_quorum st; rs_world := w |}.

Definition on_server (w : RedisWorld Sv) (sv : Sv) : RedisWorld Sv :=
  {| w_server := sv; w_inflight := w_inflight w |}.

(** The closure [insert_if_absent] runs on a connection: the [SET], and the
    [WAIT] of the quorum tier after a fresh insertion. *)
Definition set_attempt (wait_quorum : option WaitQuorum) (key : rstr) (ttl_ms : Z) (w : RedisWorld Sv) (conn : Cn)
  : OpAttempt ReplayDecision * (RedisWorld Sv * Cn) :=
  let '(result, (sv, conn)) := cmd_set_nx_px (w_server w) conn key ttl_ms in
  match result with
  | Ok (Some _) =>
      match wait_quorum with
      | None => (AttemptDone Fresh, (on_server w sv, conn))
      | Some q =>
          let '(acked, (sv, conn)) := cmd_wait sv conn (quorum q) (timeout_ms q) in
          (match acked with
           | Ok n => classify_fresh_insert_wait n (quorum q) (timeout_ms q)
           | Err e => AttemptFatal (StoreUnavailable (str "redis WAIT failed: " ++ re_display e))
           end, (on_server w sv, conn))
      end
  | Ok None => (AttemptDone Replay, (on_server w sv, conn))
  | Err e =>
      let store_error := StoreUnavailable (str "redis SET NX PX failed: " ++ re_display e) in
      (if is_transient_connection_error e then AttemptTransient store_error else AttemptFatal store_error,
       (on_server w sv, conn))
  end.

Definition redis_insert_if_absent (st : RedisAtomicReplayStore) (key : rstr) (expires_at_unix _now_unix : Z)
  : result ReplayDecision ReplayStoreError * RedisAtomicReplayStore :=
  let now_unix := rs_clock st in
  if is_nonpositive_ttl expires_at_unix now_unix
  then (Err (StoreUnavailable (stale_details expires_at_unix now_unix)), st)
  else
    let ttl_ms := compute_ttl_ms expires_at_unix now_unix in
    if rs_poisoned st
    then (Err (StoreUnavailable (str "redis connection mutex poisoned: poisoned lock: another task failed inside")), st)
    else
      let '(decision, (w, conn)) :=
        run_with_reconnect (bounded_connect (rs_params st)) (set_attempt (rs_wait_quorum st) key ttl_ms)
          (rs_world st) (rs_conn st) in
      (decision, with_world st w conn).

#[export] Instance redis_atomic_store : AtomicReplayStore RedisAtomicReplayStore := {
  insert_if_absent := redis_insert_if_absent;
  store_durability_class := fun _ => Durable;
}.
End Store.
Arguments RedisAtomicReplayStore : clear implicits.

(** ** What the server is relied on for *)

(** A server has a clock in milliseconds, which goes on while a command or a
    connect is under way, and the deadlines of its keys.  Other clients use it
    all the while: a key may be set at any moment, and a live one is dropped by
    nobody before its deadline.  Of [SET key 1 NX PX ttl] the store relies on
    this: it is executed at one instant [at_ms] between the sending and the
    reply; a reply [OK] means that no live key was there at that instant and
    the key was set for the time to live at least; a nil reply, that a live key
    was there. *)
Class RedisLaws (Sv Cn : Type) `{Redis Sv Cn} := {
  server_ms : Sv -> Z;
  key_deadline : Sv -> rstr -> option Z;
  server_at : Z -> Sv -> Sv;
  set_until sv key dl := key_deadline sv key = Some dl \/ dl <= server_ms sv;
  keeps sv sv' := server_ms sv <= server_ms sv' /\ forall k dl, key_deadline sv k = Some dl -> set_until sv' k dl;
  server_at_ms now sv : server_ms (server_at now sv) / 1000 = now;
  server_at_deadline now sv k : key_deadline (server_at now sv) k = key_deadline sv k;
  set_ok sv cn key ttl text sv' cn' :
    cmd_set_nx_px sv cn key ttl = (Ok (Some text), (sv', cn')) ->
    exists at_ms dl, server_ms sv <= at_ms <= server_ms sv' /\ (forall old, key_deadline sv key = Some old -> old <= at_ms) /\
      at_ms + ttl <= dl /\ set_until sv' key dl;
  set_nil sv cn key ttl sv' cn' :
    cmd_set_nx_px sv cn key ttl = (Ok None, (sv', cn')) ->
    exists at_ms dl, server_ms sv <= at_ms <= server_ms sv' /\ at_ms < dl /\ set_until sv' key dl;
  set_keeps sv cn key ttl r sv' cn' : cmd_set_nx_px sv cn key ttl = (r, (sv', cn')) -> keeps sv sv';
  wait_keeps sv cn q ms r sv' cn' : cmd_wait sv cn q ms = (r, (sv', cn')) -> keeps sv sv';
  connect_keeps sv client ms r sv' : get_connection_with_timeout sv client ms = (r, sv') -> keeps sv sv';
}.

Section Laws.
Context `{RD : Redis Sv Cn, RL : !RedisLaws Sv Cn}.

Lemma keeps_refl sv : keeps sv sv.
Proof. split; [lia|]. by left. Qed.

Lemma keeps_set_until sv sv' k dl : keeps sv sv' -> set_until sv k dl -> set_until sv' k dl.
Proof. intros [Hm Hk] [?|?]; [by apply Hk|right; lia]. Qed.

Lemma keeps_trans sv1 sv2 sv3 : keeps sv1 sv2 -> keeps sv2 sv3 -> keeps sv1 sv3.
Proof.
  intros [Hm Hk] H2. pose proof H2 as [Hm' _]. split; [lia|]. intros k dl Hd%Hk. by eapply keeps_set_until.
Qed.

Lemma connect_worker_keeps params sv r sv' : connect_worker params sv = (r, sv') -> keeps sv sv'.
Proof.
  unfold connect_worker. destruct (client_open _); [|intros [= <- <-]; apply keeps_refl].
  destruct (get_connection_with_timeout _ _ _) as [got sv1] eqn:Ec. apply connect_keeps in Ec.
  intros Hr. assert (sv' = sv1) as -> by (repeat case_match; by simplify_eq). done.
Qed.

Lemma bounded_connect_keeps params w r w' :
  bounded_connect params w = (r, w') -> keeps (w_server w) (w_server w').
Proof.
  unfold bounded_connect. destruct (acquire _); [|intros [= <- <-]; apply keeps_refl].
  destruct (connect_worker _ _) as [outcome sv] eqn:Ec. apply connect_worker_keeps in Ec.
  case_match; by intros [= <- <-].
Qed.

(** What an attempt does: it keeps the live keys, and a fresh insertion found
    none under its key and set it, with the acknowledgements of the quorum. *)
Definition acknowledged (q : option WaitQuorum) : Prop :=
  match q with
  | None => True
  | Some q => exists sv cn n out, cmd_wait sv cn (quorum q) (timeout_ms q) = (Ok n, out) /\ quorum q <= n
  end.

(** A key was found dead and set, for [ttl] at least, between [sv] and [sv']. *)
Definition freshly_set (key : rstr) (ttl : Z) (sv sv' : Sv) : Prop :=
  (forall old, key_deadline sv key = Some old -> old <= server_ms sv') /\
  exists dl, server_ms sv + ttl <= dl /\ set_until sv' key dl.

Lemma freshly_set_keeps key ttl sv1 sv2 sv3 sv4 :
  keeps sv1 sv2 -> server_ms sv2 <= server_ms sv3 -> freshly_set key ttl sv2 sv3 -> keeps sv3 sv4 -> freshly_set key ttl sv1 sv4.
Proof.
  intros [Hm1 Hk1] H23 (Hno & dl & Hle & Hd) Hk. pose proof Hk as [Hm _]. split.
  - intros old [Hold%Hno|Hold]%Hk1; lia.
  - exists dl. split; [lia|]. by eapply keeps_set_until.
Qed.

Lemma set_attempt_cases q key ttl w conn r w' conn' :
  set_attempt q key ttl w conn = (r, (w', conn')) ->
  keeps (w_server w) (w_server w') /\
  (r = AttemptDone Fresh -> acknowledged q /\ freshly_set key ttl (w_server w) (w_server w')).
Proof.
  unfold set_attempt. destruct (cmd_set_nx_px _ _ _ _) as [res [sv cn]] eqn:Es. pose proof (set_keeps _ _ _ _ _ _ _ Es) as Hk.
  destruct res as [[text|]|e].
  - assert (Hf : freshly_set key ttl (w_server w) sv).
    { apply set_ok in Es as (at_ms & dl & Hat & Hno & Hle & Hd). split; [intros old ?%Hno; lia|]. exists dl. split; [lia|done]. }
    destruct q as [q|]; [|intros [= <- <- <-]; by split_and!].
    destruct (cmd_wait _ _ _ _) as [acked [sv2 cn2]] eqn:Ew. intros [= <- <- <-]. pose proof (wait_keeps _ _ _ _ _ _ _ Ew) as Hk2.
    split; [by eapply keeps_trans|].
    intros Hr. destruct acked as [n|e]; [|done]. unfold classify_fresh_insert_wait, wait_quorum_satisfied in Hr.
    destruct (Z.leb_spec (quorum q) n); [|done]. split; [by repeat eexists|].
    by eapply freshly_set_keeps; [apply keeps_refl|apply Hk|exact Hf|].
  - intros [= <- <- <-]. by split.
  - intros [= <- <- <-]. split; [done|by case_match].
Qed.

(** The two attempts together. *)
Lemma run_with_reconnect_cases params q key ttl w conn r w' conn' :
  run_with_reconnect (bounded_connect params) (set_attempt q key ttl) w conn = (r, (w', conn')) ->
  keeps (w_server w) (w_server w') /\
  (r = Ok Fresh -> acknowledged q /\ freshly_set key ttl (w_server w) (w_server w')).
Proof.
  unfold run_with_reconnect. destruct (set_attempt _ _ _ w conn) as [a1 [w1 c1]] eqn:E1.
  apply set_attempt_cases in E1 as [Hk1 Hf1]. destruct a1 as [d|e|e].
  - intros [= <- <- <-]. split; [done|]. intros [= ->]. by apply Hf1.
  - destruct (bounded_connect _ w1) as [[fresh|e'] w2] eqn:E2; apply bounded_connect_keeps in E2;
      [|intros [= <- <- <-]; split; [by eapply keeps_trans|done]].
    destruct (set_attempt _ _ _ w2 fresh) as [a2 [w3 c3]] eqn:E3. apply set_attempt_cases in E3 as [Hk3 Hf3].
    pose proof (keeps_trans _ _ _ Hk1 E2) as Hk2. intros Hr.
    assert (w' = w3) as -> by (destruct a2; by simplify_eq). split; [by eapply keeps_trans|].
    intros ->. destruct a2 as [d|e2|e2]; simplify_eq. destruct (Hf3 eq_refl) as [Ha Hf]. split; [done|].
    by eapply freshly_set_keeps; [exact Hk2|apply Hk3|exact Hf|apply keeps_refl].
  - intros [= <- <- <-]. by split.
Qed.

Lemma redis_insert_cases (st : RedisAtomicReplayStore Sv Cn) key t now0 r st' :
  redis_insert_if_absent st key t now0 = (r, st') ->
  keeps (w_server (rs_world st)) (w_server (rs_world st')) /\
  (r = Ok Fresh -> is_nonpositive_ttl t (rs_clock st) = false /\ acknowledged (rs_wait_quorum st) /\
     freshly_set key (compute_ttl_ms t (rs_clock st)) (w_server (rs_world st)) (w_server (rs_world st'))).
Proof.
  unfold redis_insert_if_absent. destruct (is_nonpositive_ttl _ _); [intros [= <- <-]; split; [apply keeps_refl|done]|].
  destruct (rs_poisoned st); [intros [= <- <-]; split; [apply keeps_refl|done]|].
  destruct (run_with_reconnect _ _ _ _) as [d [w conn]] eqn:Er. intros [= <- <-].
  apply run_with_reconnect_cases in Er as [Hk Hf]. split; [done|]. intros Hr. by destruct (Hf Hr) as (? & ?).
Qed.
End Laws.

(** ** Theorems of the Redis replay store

    The store keeps the contract of [ExpiringStore], so a fleet of nodes over
    one server that read its second accepts no request twice in its window; it
    fails closed on every error; and the semaphore bounds the
    connect workers whatever the interleaving. *)

(** ** The window *)

Lemma is_nonpositive_ttl_false t now :
  0 <= now -> t <= 2 ^ 53 -> is_nonpositive_ttl t now = false ->
  now < t /\ compute_ttl_ms t now = (t - now) * 1000.
Proof.
  intros Hn Ht Hf. unfold is_nonpositive_ttl, compute_ttl_ms, saturating_sub, sat_i64, I64_MIN, I64_MAX, U64_MAX in *.
  apply Z.leb_gt in Hf. assert (now < t) by lia. split; [done|].
  assert (Z.max (- 2 ^ 63) (Z.min (2 ^ 63 - 1) (t - now)) = t - now) as -> by lia. lia.
Qed.

Section Expiring.
Context `{RD : Redis Sv Cn, RL : !RedisLaws Sv Cn}.

(** The server at an instant of the second [now], which the node reads. *)
Definition redis_store_at (now : Z) (st : RedisAtomicReplayStore Sv Cn) : RedisAtomicReplayStore Sv Cn :=
  {| rs_params := rs_params st; rs_conn := rs_conn st; rs_poisoned := rs_poisoned st; rs_clock := now;
     rs_wait_quorum := rs_wait_quorum st; rs_world := on_server (rs_world st) (server_at now (w_server (rs_world st))) |}.

#[export] Program Instance redis_expiring : ExpiringStore (RedisAtomicReplayStore Sv Cn) := {
  deadline st k := key_deadline (w_server (rs_world st)) k;
  store_ms st := server_ms (w_server (rs_world st));
  st_at := redis_store_at;
}.
Next Obligation.
  intros now st key t st' Hn Ht Hi. destruct (redis_insert_cases _ _ _ 0 _ _ Hi) as [_ Hf].
  destruct (Hf eq_refl) as (Hs & _ & Hno & dl & Hle & Hd).
  cbn in Hs, Hno, Hle. apply is_nonpositive_ttl_false in Hs as [Hlt Httl]; [|done..]. rewrite Httl in Hle.
  pose proof (server_at_ms now (w_server (rs_world st))) as Hms. split_and!; [done| |].
  - intros old Hold. apply Hno. by rewrite server_at_deadline.
  - exists dl. split; [|done]. pose proof (Z.mul_div_le (server_ms (server_at now (w_server (rs_world st)))) 1000). lia.
Qed.
Next Obligation.
  intros now st key t r st' k dl Hn Hi Hd. destruct (redis_insert_cases _ _ _ 0 _ _ Hi) as [[_ Hk] _]. cbn in Hk.
  apply Hk. by rewrite server_at_deadline.
Qed.
Next Obligation. intros now st k. cbn. apply server_at_deadline. Qed.

(** The Redis store fails closed, whatever the network does (replies lost
    before or after the command landed, a reconnect in between, a refused or
    abandoned connect): no key is dropped before its deadline; and [Fresh] is
    answered only when the node's clock read before the end of the window, for
    a key that was not live any more when the [SET] was executed, which is then
    held for the rest of the window, and in the quorum tier only after a [WAIT]
    that reported at least the quorum. *)
Theorem redis_insert_fails_closed (st : RedisAtomicReplayStore Sv Cn) key t now0 r st' :
  0 <= rs_clock st -> t <= 2 ^ 53 -> redis_insert_if_absent st key t now0 = (r, st') ->
  keeps (w_server (rs_world st)) (w_server (rs_world st')) /\
  (r = Ok Fresh ->
     rs_clock st < t /\
     freshly_set key ((t - rs_clock st) * 1000) (w_server (rs_world st)) (w_server (rs_world st')) /\
     forall q, rs_wait_quorum st = Some q ->
       exists sv cn n out, cmd_wait sv cn (quorum q) (timeout_ms q) = (Ok n, out) /\ quorum q <= n).
Proof.
  intros Hn Ht [Hk Hf]%redis_insert_cases. split; [done|]. intros Hr. destruct (Hf Hr) as (Hs & Ha & Hd).
  apply is_nonpositive_ttl_false in Hs as [Hlt Httl]; [|done..]. rewrite Httl in Hd. split_and!; [done..|].
  intros q Hq. by rewrite Hq in Ha.
Qed.

(** On a connection that answers, the plain tier decides by the instant at
    which the server executes the command: [Replay] only for a key that was
    live then, [Fresh] only for one that was not. *)
Theorem redis_decides_exactly (st : RedisAtomicReplayStore Sv Cn) key t now0 :
  rs_clock st < t -> - 2 ^ 62 <= rs_clock st <= 2 ^ 62 -> rs_poisoned st = false -> rs_wait_quorum st = None ->
  is_ok (cmd_set_nx_px (w_server (rs_world st)) (rs_conn st) key (compute_ttl_ms t (rs_clock st))).1 = true ->
  exists at_ms dl, let st' := (redis_insert_if_absent st key t now0).2 in
    server_ms (w_server (rs_world st)) <= at_ms <= server_ms (w_server (rs_world st')) /\
    at_ms < dl /\ set_until (w_server (rs_world st')) key dl /\
    ((redis_insert_if_absent st key t now0).1 = Ok Replay \/
     (redis_insert_if_absent st key t now0).1 = Ok Fresh /\
       forall old, key_deadline (w_server (rs_world st)) key = Some old -> old <= at_ms).
Proof.
  intros Hlt Hc Hp Hq Hok. unfold redis_insert_if_absent, is_nonpositive_ttl.
  rewrite (proj2 (Z.leb_gt _ 0)) by (unfold saturating_sub, sat_i64, I64_MIN, I64_MAX; lia). rewrite Hp, Hq.
  assert (Httl : 0 < compute_ttl_ms t (rs_clock st)) by (unfold compute_ttl_ms; lia).
  unfold run_with_reconnect, set_attempt. destruct (cmd_set_nx_px _ _ _ _) as [[[text|]|e] [sv cn]] eqn:Es; [| |done]; cbn.
  - apply set_ok in Es as (at_ms & dl & Hat & Hno & Hle & Hd). exists at_ms, dl. split_and!; try done; [lia..|]. by right.
  - apply set_nil in Es as (at_ms & dl & Hat & Hle & Hd). exists at_ms, dl. split_and!; try done; [lia..|]. by left.
Qed.

Context `{B64 : !Base64, SH : !Sha2, SJ : !SerdeJson, SJL : !SerdeJsonLaws, DK : !Dalek}.
Context `{D1 : !Deserialize RequestEnvelope, D2 : !Deserialize Draft02RequestEnvelope}.
Context `{L1 : !DeserializeLaws RequestEnvelope, L2 : !DeserializeLaws Draft02RequestEnvelope}.

(** C21: At most once in a window over Redis.  For any number of nodes over one
    server, their deliveries taken one after the other, with any failures of
    commands and connections, any expiry by the server, its clock going on
    during every command, and other clients at work on it all the while, each
    node reading the server's second when its insertion begins: a (signer,
    audience, nonce) is accepted a second time only when the whole window
    (signed expiry and skew) of the earlier acceptance had passed, on the
    server's clock, by the end of the second insertion. *)
Theorem redis_at_most_once now (c : SharedReplayCache (RedisAtomicReplayStore Sv Cn)) h :
  - 2 ^ 52 <= src_max_clock_skew_secs c <= 2 ^ 52 -> rtc step (history_start now c) h ->
  windows_apart (src_max_clock_skew_secs c) (h_accepted h).
Proof. apply fleet_at_most_once. Qed.
End Expiring.

(** ** The semaphore *)

Definition holding (ts : list permit_thread) : Z := Z.of_nat (length (filter (fun t => t = PtHolding) ts)).

Definition holds (t : permit_thread) : Z := match t with PtHolding => 1 | _ => 0 end.

Lemma holding_insert ts i t t' :
  ts !! i = Some t -> holding (<[i := t']> ts) = holding ts - holds t + holds t'.
Proof.
  intros Hi. unfold holding, holds. rewrite insert_take_drop by (by eapply lookup_lt_Some).
  rewrite <- (take_drop_middle ts i t Hi) at 3. rewrite !filter_app, !length_app, !filter_cons.
  destruct t, t'; repeat case_decide; try done; cbn [length]; lia.
Qed.

Definition permits_ok (s : Z * list permit_thread) : Prop :=
  s.1 = holding s.2 /\ s.1 <= MAX_INFLIGHT_CONNECTS.

Lemma permit_step_inv s s' : permit_step s s' -> permits_ok s -> permits_ok s'.
Proof.
  intros [i ts t count spurious count' t' Hi Ha] [He Hle]. unfold permits_ok. cbn [fst snd] in *. rewrite (holding_insert _ _ _ _ Hi).
  assert (Hpos : holds t <= holding ts).
  { unfold holds. destruct t; try (unfold holding; lia). apply list_elem_of_lookup_2 in Hi.
    assert (PtHolding ∈ filter (fun t => t = PtHolding) ts) as Hf by (by apply list_elem_of_filter).
    unfold holding. destruct (filter _ ts); [by apply not_elem_of_nil in Hf|cbn [length]; lia]. }
  destruct t as [|cur| | |]; cbn [permit_action] in Ha.
  - simplify_eq. cbn [holds]. lia.
  - destruct (Z.leb_spec MAX_INFLIGHT_CONNECTS cur); [|destruct (_ && _) eqn:Ec; breflect]; simplify_eq; cbn [holds]; lia.
  - done.
  - simplify_eq. cbn [holds] in *. unfold fetch_sub_one.
    rewrite Z.mod_small by (unfold MAX_INFLIGHT_CONNECTS in *; lia). lia.
  - done.
Qed.

(** The number of connect workers is bounded under every interleaving of
    any number of threads that acquire and drop permits, spurious failures of
    the compare-exchange included: the counter is at every moment the number of
    threads that hold a permit, which never exceeds 64, so the drop never takes
    the counter below zero, where it would wrap and refuse every later connect. *)
Theorem permits_bounded ts s :
  Forall (fun t => t = PtStart) ts -> rtc permit_step (0, ts) s ->
  s.1 = holding s.2 /\ 0 <= s.1 <= MAX_INFLIGHT_CONNECTS.
Proof.
  intros Hts Hr. assert (H0 : permits_ok (0, ts)).
  { split; [cbn|done]. symmetry. clear Hr. unfold holding. induction Hts as [|t ts -> _ IH]; [done|].
    rewrite filter_cons. by case_decide. }
  assert (Hs : permits_ok s).
  { revert H0. induction Hr as [|s1 s2 s3 Hst _ IH]; [done|]. intros H1. by eapply IH, permit_step_inv. }
  destruct Hs as [He Hle]. split; [done|]. unfold holding in He. lia.
Qed.

Lemma permits_bounded_witness :
  rtc permit_step (0, [PtStart; PtStart]) (1, [PtHolding; PtLoop 1]) /\
  (1, [PtHolding; PtLoop 1]).1 = holding (1, [PtHolding; PtLoop 1]).2 /\ 0 <= (1, [PtHolding; PtLoop 1]).1 <= MAX_INFLIGHT_CONNECTS.
Proof.
  assert (Hr : rtc permit_step (0, [PtStart; PtStart]) (1, [PtHolding; PtLoop 1])).
  { eapply rtc_l; [exact (permit_step_at 0 [PtStart; PtStart] PtStart 0 false 0 (PtLoop 0) eq_refl eq_refl)|].
    eapply rtc_l; [exact (permit_step_at 1 [PtLoop 0; PtStart] PtStart 0 false 0 (PtLoop 0) eq_refl eq_refl)|].
    eapply rtc_l; [exact (permit_step_at 0 [PtLoop 0; PtLoop 0] (PtLoop 0) 0 false 1 PtHolding eq_refl eq_refl)|].
    eapply rtc_l; [exact (permit_step_at 1 [PtHolding; PtLoop 0] (PtLoop 0) 1 false 1 (PtLoop 1) eq_refl eq_refl)|].
    apply rtc_refl. }
  split; [exact Hr|]. apply (permits_bounded [PtStart; PtStart]); [repeat constructor|exact Hr].
Defined.

(** ** A server with a script of failures *)

Inductive toy_event : Type := EvReply | EvLost | EvDown.

(** Clock, keys, what becomes of the next commands, the replicas, and how long a
    command takes to arrive. *)
Record ToyServer : Type := {
  ts_ms : Z;
  ts_keys : gmap rstr Z;
  ts_script : list toy_event;
  ts_replicas : Z;
  ts_lag : Z;
}.

Definition broken_pipe : RedisError :=
  {| re_display := str "broken pipe"; is_io_error := true; is_connection_dropped := true;
     is_connection_refusal := false; is_unrecoverable_error := false |}.

Definition toy_live (sv : ToyServer) (key : rstr) : bool :=
  match ts_keys sv !! key with Some dl => ts_ms sv <? dl | None => false end.

Definition toy_next (sv : ToyServer) (keys : gmap rstr Z) : ToyServer :=
  {| ts_ms := ts_ms sv; ts_keys := keys; ts_script := tail (ts_script sv); ts_replicas := ts_replicas sv; ts_lag := ts_lag sv |}.

Definition toy_arrived (sv : ToyServer) : ToyServer :=
  {| ts_ms := ts_ms sv + Z.max 0 (ts_lag sv); ts_keys := ts_keys sv; ts_script := ts_script sv;
     ts_replicas := ts_replicas sv; ts_lag := ts_lag sv |}.

Definition toy_execute (sv : ToyServer) (key : rstr) (ttl : Z) : result (option rstr) RedisError * ToyServer :=
  let keys := if toy_live sv key then ts_keys sv else <[key := ts_ms sv + ttl]> (ts_keys sv) in
  match ts_script sv with
  | EvDown :: _ => (Err broken_pipe, toy_next sv (ts_keys sv))
  | EvLost :: _ => (Err broken_pipe, toy_next sv keys)
  | _ => (Ok (if toy_live sv key then None else Some (str "OK")), toy_next sv keys)
  end.

Definition toy_set (sv : ToyServer) (cn : unit) (key : rstr) (ttl : Z)
  : result (option rstr) RedisError * (ToyServer * unit) :=
  let (r, sv') := toy_execute (toy_arrived sv) key ttl in (r, (sv', cn)).

#[export] Instance toy_redis : Redis ToyServer unit := {
  redis_client := unit;
  client_open _ := Ok tt;
  get_connection_with_timeout sv _ _ := (Ok tt, toy_arrived sv);
  connect_takes _ := Some 0;
  set_read_timeout cn _ := Ok cn;
  set_write_timeout cn _ := Ok cn;
  cmd_set_nx_px := toy_set;
  cmd_wait sv cn _ _ := (Ok (ts_replicas sv), (sv, cn));
}.

Lemma toy_execute_keys sv key ttl r sv' :
  toy_execute sv key ttl = (r, sv') -> ts_ms sv' = ts_ms sv /\
  (ts_keys sv' = ts_keys sv \/ toy_live sv key = false /\ ts_keys sv' = <[key := ts_ms sv + ttl]> (ts_keys sv)).
Proof.
  unfold toy_execute. destruct (toy_live sv key) eqn:El; destruct (ts_script sv) as [|[] ?]; intros [= <- <-]; cbn; auto.
Qed.

Lemma toy_dead sv key : toy_live sv key = false -> forall dl, ts_keys sv !! key = Some dl -> dl <= ts_ms sv.
Proof. unfold toy_live. intros El dl Hd. rewrite Hd in El. by apply Z.ltb_ge. Qed.

Lemma toy_execute_Ok sv key ttl v sv' :
  toy_execute sv key ttl = (Ok v, sv') -> ts_ms sv' = ts_ms sv /\
  match v with
  | Some _ => toy_live sv key = false /\ ts_keys sv' !! key = Some (ts_ms sv + ttl)
  | None => exists dl, ts_keys sv' !! key = Some dl /\ ts_ms sv < dl
  end.
Proof.
  unfold toy_execute. destruct (toy_live sv key) eqn:El; destruct (ts_script sv) as [|[] ?]; intros [= <- <-]; cbn; split; try done;
    try (split; [done|apply lookup_insert_eq]).
  all: unfold toy_live in El; destruct (ts_keys sv !! key) as [dl|]; [|done]; apply Z.ltb_lt in El; by exists dl.
Qed.

#[export] Program Instance toy_redis_laws : RedisLaws ToyServer unit := {
  server_ms := ts_ms;
  key_deadline sv k := ts_keys sv !! k;
  server_at now sv := {| ts_ms := now * 1000; ts_keys := ts_keys sv; ts_script := ts_script sv; ts_replicas := ts_replicas sv; ts_lag := ts_lag sv |};
}.
Next Obligation. intros now sv. cbn. apply Z.div_mul. lia. Qed.
Next Obligation. done. Qed.
Next Obligation.
  intros sv cn key ttl text sv' cn'. cbn. unfold toy_set. destruct (toy_execute _ _ _) as [r sv1] eqn:E. intros [= -> <- <-].
  apply toy_execute_Ok in E as (Hm & El & Hk). exists (ts_ms sv1), (ts_ms sv1 + ttl).
  split_and!; [rewrite Hm; cbn; lia|lia|rewrite Hm; exact (toy_dead _ _ El)|lia|left; rewrite Hm; exact Hk].
Qed.
Next Obligation.
  intros sv cn key ttl sv' cn'. cbn. unfold toy_set. destruct (toy_execute _ _ _) as [r sv1] eqn:E. intros [= -> <- <-].
  apply toy_execute_Ok in E as (Hm & dl & Hk & Hlt). exists (ts_ms sv1), dl. split_and!; [rewrite Hm; cbn; lia|lia|lia|by left].
Qed.
Next Obligation.
  intros sv cn key ttl r sv' cn'. cbn. unfold toy_set. destruct (toy_execute _ _ _) as [r1 sv1] eqn:E. intros [= -> <- <-].
  apply toy_execute_keys in E as [Hm Hk]. split; [rewrite Hm; cbn; lia|]. intros k dl Hd.
  destruct Hk as [->|[El ->]]; [by left|]. destruct (decide (k = key)) as [->|]; [right|left; by rewrite lookup_insert_ne].
  rewrite Hm. by apply (toy_dead _ _ El).
Qed.
Next Obligation. intros sv cn q ms r sv' cn' [= <- <- <-]. split; [lia|]. by left. Qed.
Next Obligation. intros sv cn ms r sv' [= <- <-]. split; [cbn; lia|]. by left. Qed.

Definition toy_server (now : Z) (script : list toy_event) : ToyServer :=
  {| ts_ms := now * 1000; ts_keys := ∅; ts_script := script; ts_replicas := 1; ts_lag := 0 |}.

(** A node whose clock reads [clock]. *)
Definition sample_node (clock : Z) (sv : ToyServer) : RedisAtomicReplayStore ToyServer unit :=
  {| rs_params := {| url := str "redis://127.0.0.1:6379"; connect_timeout := DEFAULT_REDIS_TIMEOUT;
                     read_timeout := Some DEFAULT_REDIS_TIMEOUT; write_timeout := Some DEFAULT_REDIS_TIMEOUT |};
     rs_conn := tt; rs_poisoned := false; rs_clock := clock; rs_wait_quorum := None;
     rs_world := {| w_server := sv; w_inflight := 0 |} |}.

Example sample_connect :
  (redis_connect (str "redis://127.0.0.1:6379") 1000 {| w_server := toy_server 1000 []; w_inflight := 0 |}).1 =
  Ok (sample_node 1000 (toy_server 1000 [])).
Proof. reflexivity. Qed.

(** A semaphore at its ceiling refuses the connect. *)
Example sample_connect_refused :
  (redis_connect (str "redis://127.0.0.1:6379") 1000 {| w_server := toy_server 1000 []; w_inflight := 64 |}).1 =
  Err (StoreUnavailable inflight_refused).
Proof. reflexivity. Qed.

(** A command that did not get through is retried; one whose reply was lost
    makes the retry see its own key; two failures are an outage; and a quorum
    that is not reached refuses, and the key stays. *)
Example sample_retry : (insert_if_absent (sample_node 1000 (toy_server 1000 [EvDown])) (str "k") 1060 0).1 = Ok Fresh.
Proof. vm_compute. reflexivity. Qed.

Example sample_lost_reply : (insert_if_absent (sample_node 1000 (toy_server 1000 [EvLost])) (str "k") 1060 0).1 = Ok Replay.
Proof. vm_compute. reflexivity. Qed.

Example sample_outage :
  (insert_if_absent (sample_node 1000 (toy_server 1000 [EvDown; EvDown])) (str "k") 1060 0).1 =
  Err (StoreUnavailable (str "redis SET NX PX failed: broken pipe")).
Proof. vm_compute. reflexivity. Qed.

Example sample_shortfall :
  let (r, st) := insert_if_absent (with_wait_quorum (sample_node 1000 (toy_server 1000 [])) 2 100) (str "k") 1060 0 in
  is_ok r = false /\ (insert_if_absent st (str "k") 1060 0).1 = Ok Replay.
Proof. vm_compute. by split. Qed.

(** ** A command that arrives late *)

(** The window is measured by the node when its call begins and counted down by
    the server.  With clocks that agree, a node that reads its clock a second
    before the end of the window, and whose command is a second on its way (a
    slow network, a wait for the connection, a reconnect), finds the key
    expired and accepts the request a second time. *)
Theorem redis_late_command_accepts_twice (now t : Z) key :
  0 <= now -> now < t -> t <= 2 ^ 53 ->
  let first := insert_if_absent (sample_node now (toy_server now [])) key t 0 in
  let late := {| ts_ms := (t - 1) * 1000; ts_keys := ts_keys (w_server (rs_world first.2)); ts_script := []; ts_replicas := 1; ts_lag := 1000 |} in
  first.1 = Ok Fresh /\ (insert_if_absent (sample_node (t - 1) late) key t 0).1 = Ok Fresh.
Proof.
  intros Hn Hlt Ht. cbn zeta.
  assert (Hf : forall clock sv, 0 <= clock -> clock < t -> ts_script sv = [] -> toy_live (toy_arrived sv) key = false ->
    insert_if_absent (sample_node clock sv) key t 0 =
    (Ok Fresh, with_world (sample_node clock sv)
       {| w_server := toy_next (toy_arrived sv) (<[key := ts_ms (toy_arrived sv) + (t - clock) * 1000]> (ts_keys sv)); w_inflight := 0 |} tt)).
  { intros clock sv Hc Hct Hs Hl. cbn. unfold redis_insert_if_absent. cbn [rs_clock sample_node].
    destruct (is_nonpositive_ttl t clock) eqn:Es.
    { unfold is_nonpositive_ttl, saturating_sub, sat_i64, I64_MIN, I64_MAX in Es. lia. }
    apply is_nonpositive_ttl_false in Es as [_ Httl]; [|done..]. rewrite Httl.
    unfold run_with_reconnect, set_attempt. cbn. unfold toy_set, toy_execute. rewrite Hl. cbn [toy_arrived ts_script ts_keys]. by rewrite Hs. }
  rewrite Hf by (done || lia). split; [done|]. rewrite Hf; [done|lia|lia|done|].
  unfold toy_live. cbn. rewrite lookup_insert_eq. apply Z.ltb_ge. lia.
Qed.

Lemma redis_insert_fails_closed_witness :
  let st := sample_node 1000 (toy_server 1000 [EvDown]) in
  let st' := (redis_insert_if_absent st (str "k") 1060 0).2 in
  exists dl, 1060000 <= dl /\ set_until (w_server (rs_world st')) (str "k") dl.
Proof.
  cbn zeta. set (st := sample_node _ _). assert (Hc : 0 <= rs_clock st) by (cbn; lia). assert (Ht : 1060 <= 2 ^ 53) by lia.
  destruct (redis_insert_fails_closed st (str "k") 1060 0 _ _ Hc Ht (surjective_pairing _)) as [_ Hf].
  destruct (Hf sample_retry) as (_ & [_ Hd] & _). exact Hd.
Defined.

Import Toy.

(** A server half a second away. *)
Definition sample_redis : SharedReplayCache (RedisAtomicReplayStore ToyServer unit) :=
  shared_new (sample_node sample_now {| ts_ms := sample_now * 1000; ts_keys := ∅; ts_script := [EvDown]; ts_replicas := 1; ts_lag := 500 |}) 60.

(** Two deliveries of the same bytes, ten seconds apart, the first over a
    connection that breaks. *)
Definition sample_redis_end : history (SharedReplayCache (RedisAtomicReplayStore ToyServer unit)) :=
  let d1 := deliver (tick sample_now sample_redis) (sample_delivery sample_now) in
  let d2 := deliver (tick (sample_now + 10) d1.2) (sample_delivery (sample_now + 10)) in
  let acc := match d1.1 with Ok vr => [(vr, ended sample_now d1.2)] | Err _ => [] end in
  {| h_now := ended (sample_now + 10) d2.2; h_cache := d2.2;
     h_accepted := match d2.1 with Ok vr => (vr, ended (sample_now + 10) d2.2) :: acc | Err _ => acc end |}.

(** The retry made the first insertion end a second later than it began. *)
Example sample_redis_accepts_once : (h_accepted sample_redis_end).*2 = [sample_now + 1].
Proof. vm_compute. reflexivity. Qed.

Lemma redis_at_most_once_witness :
  rtc step (history_start sample_now sample_redis) sample_redis_end /\ windows_apart 60 (h_accepted sample_redis_end).
Proof.
  assert (Hr : rtc step (history_start sample_now sample_redis) sample_redis_end).
  { eapply rtc_l; [eapply (step_deliver _ (sample_delivery sample_now) sample_now)|
      eapply rtc_l; [eapply (step_deliver _ (sample_delivery (sample_now + 10)) (sample_now + 10))|]];
      try apply surjective_pairing; try reflexivity; try (cbn; lia); vm_compute; discriminate. }
  split; [exact Hr|]. apply (redis_at_most_once sample_now sample_redis); [cbn; lia|exact Hr].
Defined.
