(* ===== verification/Unwrap.v ===== *)
(** * Error objects on the wire and the client-side unwrap

    [mcps-core/src/wire.rs] and [unwrap.rs].  [serde_json::to_vec] is a
    parameter. *)

From S2P Require Import Prelude Utf8 Errors Json Canonical Signing Envelope Values.

(** [serde_json::to_vec::<Value>]; [None] stands for its error. *)
Class SerdeSer := to_vec : Value -> option bytes.

(** [Display] of a [Value] and of [serde_json]'s errors. *)
Class SerdeTexts := {
  value_display : Value -> rstr;
  ser_error_display : Value -> rstr;
  de_error_display : bytes -> rstr;
}.

(** A [Value] always serializes: its keys are strings and its numbers finite. *)
Class SerdeSerLaws `{SerdeSer} : Prop := {
  to_vec_total v : is_Some (to_vec v);
}.

(** What [serde_json::to_vec] writes: JSON text of the value, which both
    parsers read back below the recursion limit. *)
Class SerdeWrites `{SerdeJson, SerdeSer} : Prop := {
  to_vec_reads v bs :
    value_wf v -> safe SERDE_MAX_NESTING v -> to_vec v = Some bs ->
    is_ok (canonicalize bs) = true /\ exists v', from_slice bs = Some v' /\ value_wf v' /\ value_equiv v v';
}.

(** ** wire.rs *)

Definition MCPS_JSON_RPC_ERROR_CODE : Z := -32003.

(** The object [json_rpc_error_object] serializes. *)
Definition json_rpc_error_value (error : McpsError) (id : Value) : Value :=
  let code := wire_code error in
  json_object
    [(str "jsonrpc", VString (str "2.0"));
     (str "id", id);
     (str "error", json_object
        [(str "code", VNumber (NegInt MCPS_JSON_RPC_ERROR_CODE));
         (str "message", VString code);
         (str "data", json_object
            [(str "mcps_error", VString code); (str "policy", VString (str "core"));
             (str "retryable", VBool false); (str "details", VString code)])])].

(** The literal of last resort. *)
Definition json_rpc_fallback : bytes :=
  json_text "{'jsonrpc':'2.0','id':null,'error':{'code':-32603}}".

Definition json_rpc_error_object `{SerdeSer} (error : McpsError) (id : Value) : bytes :=
  match to_vec (json_rpc_error_value error id) with Some bs => bs | None => json_rpc_fallback end.

(** ** unwrap.rs *)

Definition META_FIELD : rstr := str "_meta".

Inductive UnwrappedResult : Type :=
| UObject (v : Value)
| UScalar (v : Value)
| UInnerError (v : Value).

Definition is_inner_error (u : UnwrappedResult) : bool :=
  match u with UInnerError _ => true | _ => false end.

Definition into_value (u : UnwrappedResult) : Value :=
  match u with UObject v | UScalar v | UInnerError v => v end.

Definition unwrap_verified_result (result_value : Value) : result UnwrappedResult McpsError :=
  let? object := ok_or (as_object result_value) CanonicalizationFailed in
  let payload := filter (fun kv => kv.1 <> META_FIELD) object in
  if bool_decide (length payload = 1%nat) then
    match map_get RESPONSE_WRAP_VALUE_KEY payload with
    | Some value => Ok (UScalar value)
    | None =>
        match map_get RESPONSE_WRAP_INNER_ERROR_KEY payload with
        | Some inner_error => Ok (UInnerError inner_error)
        | None => Ok (UObject (VObject payload))
        end
    end
  else Ok (UObject (VObject payload)).
