(* ===== verification/EtcdStore.v ===== *)
(** * The etcd replay store

    [mcps-proxy/src/etcd_store.rs]: the request bodies of etcd's JSON gateway,
    the reading of its replies, the transport, and the insertion (a lease, a
    transaction that puts the key if it was never created, and the release of
    an unused lease).  The HTTP agent, [serde_json]'s texts and the standard
    base64 alphabet are parameters. *)

From S2P Require Import Prelude Utf8 Errors Json Canonical Strings CanonicalRound Time Crypto Signing Envelope.
From S2P Require Import Instances Ocsp Replay Resolver Constraints Pipeline Samples PipelineSpec PipelineTheorems.
From S2P Require Import PipelineHistory SharedReplay Unwrap.

(** [base64::STANDARD.encode]. *)
Class StandardBase64 := standard_encode : bytes -> rstr.

Definition DEFAULT_ETCD_TIMEOUT : Z := 30 * NANOS.
Definition MAX_RESPONSE_BYTES : nat := Z.to_nat (256 * 1024).

Definition compute_ttl_secs (expires_at_unix now_unix : Z) : Z :=
  Z.max (saturating_sub expires_at_unix now_unix) 1.

Definition build_lease_grant_body (ttl_secs : Z) : Value :=
  json_object [(str "TTL", value_of_i64 ttl_secs); (str "ID", VNumber (PosInt 0))].

Definition build_txn_body (key_b64 value_b64 : rstr) (lease_id : Z) : Value :=
  json_object
    [(str "compare", VArray [json_object
        [(str "key", VString key_b64); (str "target", VString (str "CREATE"));
         (str "result", VString (str "EQUAL")); (str "create_revision", VString (str "0"))]]);
     (str "success", VArray [json_object
        [(str "request_put", json_object
            [(str "key", VString key_b64); (str "value", VString value_b64);
             (str "lease", VString (display_signed lease_id))])]]);
     (str "failure", VArray [])].

Definition build_lease_revoke_body (lease_id : Z) : Value :=
  json_object [(str "ID", VString (display_signed lease_id))].

Definition parse_lease_id `{SerdeTexts} (resp : Value) : result Z ReplayStoreError :=
  match get (str "ID") resp with
  | None => Err (StoreUnavailable (str "etcd lease/grant response missing ID"))
  | Some raw =>
      match (match raw with
             | VString s => parse_i64 s
             | VNumber n => as_i64 n
             | _ => None
             end) with
      | None => Err (StoreUnavailable (str "etcd lease/grant ID not an integer: " ++ value_display raw))
      | Some id =>
          if id =? 0
          then Err (StoreUnavailable (str "etcd lease/grant returned lease id 0 (unleased put would never expire)"))
          else Ok id
      end
  end.

Definition decision_from_txn (resp : Value) : ReplayDecision :=
  let succeeded := default false (get (str "succeeded") resp ≫= as_bool) in
  if succeeded then Fresh else Replay.

(** ** Transport *)

(** [trait EtcdTransport], over what is behind it. *)
Class EtcdTransport (Tr : Type) := post : Tr -> rstr -> Value -> result Value ReplayStoreError * Tr.

(** The body of an HTTP response: the bytes its reader yields, and the error
    they end with, if any. *)
Record HttpBody : Type := { hb_bytes : bytes; hb_error : option rstr }.

(** [Read::take(limit)] with [read_to_end]. *)
Definition read_limited (limit : nat) (b : HttpBody) : result bytes rstr :=
  if (limit <=? length (hb_bytes b))%nat then Ok (take limit (hb_bytes b))
  else match hb_error b with Some e => Err e | None => Ok (hb_bytes b) end.

(** [ureq]: a POST of bytes with a content type and a timeout; a status other
    than 2xx is an error too. *)
Class HttpAgent (Net : Type) := http_post : Net -> rstr -> Z -> rstr -> bytes -> result HttpBody rstr * Net.

Record UreqEtcdTransport (Net : Type) : Type := {
  ut_net : Net;
  ut_base_url : rstr;
  ut_timeout : Z;
}.
Arguments ut_net {Net}.
Arguments ut_base_url {Net}.
Arguments ut_timeout {Net}.

(** [str::trim_end_matches('/')]. *)
Fixpoint trim_end_slashes (s : rstr) : rstr :=
  match s with
  | [] => []
  | c :: s' => let rest := trim_end_slashes s' in if is_empty rest && (c =? 47) then [] else c :: rest
  end.

Section Transport.
Context `{SerdeJson, SerdeSer, SerdeTexts, HttpAgent Net}.

Definition ureq_post (t : UreqEtcdTransport Net) (path : rstr) (body : Value)
  : result Value ReplayStoreError * UreqEtcdTransport Net :=
  let url := ut_base_url t ++ str "/" ++ path in
  match to_vec body with
  | None => (Err (StoreUnavailable (str "etcd POST " ++ path ++ str " request serialize failed: " ++ ser_error_display body)), t)
  | Some bs =>
      let (sent, net) := http_post (ut_net t) url (ut_timeout t) (str "application/json") bs in
      let t' := {| ut_net := net; ut_base_url := ut_base_url t; ut_timeout := ut_timeout t |} in
      (match sent with
       | Err e => Err (StoreUnavailable (str "etcd POST " ++ path ++ str " failed: " ++ e))
       | Ok response =>
           match read_limited MAX_RESPONSE_BYTES response with
           | Err e => Err (StoreUnavailable (str "etcd POST " ++ path ++ str " read response failed: " ++ e))
           | Ok buf =>
               match from_slice buf with
               | None => Err (StoreUnavailable (str "etcd POST " ++ path ++ str " response not JSON: " ++ de_error_display buf))
               | Some v => Ok v
               end
           end
       end, t')
  end.

#[export] Instance ureq_etcd_transport : EtcdTransport (UreqEtcdTransport Net) := ureq_post.
End Transport.

(** ** The store *)

Record EtcdAtomicReplayStore (Tr : Type) : Type := {
  es_transport : Tr;
  es_clock : Z;
}.
Arguments es_transport {Tr}.
Arguments es_clock {Tr}.

Definition etcd_connect_with {Net : Type} (net : Net) (endpoint : rstr) (timeout clock : Z)
  : EtcdAtomicReplayStore (UreqEtcdTransport Net) :=
  {| es_transport := {| ut_net := net; ut_base_url := trim_end_slashes endpoint; ut_timeout := timeout |};
     es_clock := clock |}.

Definition etcd_connect {Net : Type} (net : Net) (endpoint : rstr) (clock : Z)
  : EtcdAtomicReplayStore (UreqEtcdTransport Net) :=
  etcd_connect_with net endpoint DEFAULT_ETCD_TIMEOUT clock.

Section Insert.
Context `{StandardBase64, SerdeTexts, EtcdTransport Tr}.

Definition set_transport (st : EtcdAtomicReplayStore Tr) (tr : Tr) : EtcdAtomicReplayStore Tr :=
  {| es_transport := tr; es_clock := es_clock st |}.

Definition etcd_insert_if_absent (st : EtcdAtomicReplayStore Tr) (key : rstr) (expires_at_unix _now_unix : Z)
  : result ReplayDecision ReplayStoreError * EtcdAtomicReplayStore Tr :=
  let now_unix := es_clock st in
  if is_stale_pre_store expires_at_unix now_unix
  then (Err (StoreUnavailable (stale_details expires_at_unix now_unix)), st)
  else
    let ttl_secs := compute_ttl_secs expires_at_unix now_unix in
    match post (es_transport st) (str "v3/lease/grant") (build_lease_grant_body ttl_secs) with
    | (Err e, tr1) => (Err e, set_transport st tr1)
    | (Ok lease_resp, tr1) =>
        match parse_lease_id lease_resp with
        | Err e => (Err e, set_transport st tr1)
        | Ok lease_id =>
            let key_b64 := standard_encode (as_bytes key) in
            let value_b64 := standard_encode [1] in
            match post tr1 (str "v3/kv/txn") (build_txn_body key_b64 value_b64 lease_id) with
            | (Err e, tr2) => (Err e, set_transport st tr2)
            | (Ok txn_resp, tr2) =>
                match decision_from_txn txn_resp with
                | Fresh => (Ok Fresh, set_transport st tr2)
                | Replay =>
                    let tr3 := (post tr2 (str "v3/lease/revoke") (build_lease_revoke_body lease_id)).2 in
                    (Ok Replay, set_transport st tr3)
                end
            end
        end
    end.

#[export] Instance etcd_atomic_store : AtomicReplayStore (EtcdAtomicReplayStore Tr) := {
  insert_if_absent := etcd_insert_if_absent;
  store_durability_class := fun _ => Durable;
}.
End Insert.

(** ** Theorems of the etcd replay store

    What the gateway is relied on for, stated on the JSON bodies that go over
    the wire; that the insertion keeps the contract of [ExpiringStore] over it;
    and a gateway on which everything can be evaluated. *)

(** ** The gateway *)

(** The bodies of the three requests. *)
Definition grant_request (ttl : Z) : Value :=
  VObject [(str "ID", VNumber (PosInt 0)); (str "TTL", VNumber (PosInt ttl))].

Definition txn_request (key value : rstr) (lease : Z) : Value :=
  VObject
    [(str "compare", VArray [VObject
        [(str "create_revision", VString (str "0")); (str "key", VString key);
         (str "result", VString (str "EQUAL")); (str "target", VString (str "CREATE"))]]);
     (str "failure", VArray []);
     (str "success", VArray [VObject
        [(str "request_put", VObject
            [(str "key", VString key); (str "lease", VString (display_signed lease)); (str "value", VString value)])]])].

Definition revoke_request (lease : Z) : Value := VObject [(str "ID", VString (display_signed lease))].

(** The lease id of a reply, as a number or its decimal text. *)
Definition names_lease (resp : Value) (id : Z) : Prop :=
  match get (str "ID") resp with
  | Some (VString s) => parse_i64 s = Some id
  | Some (VNumber n) => as_i64 n = Some id
  | _ => False
  end.

(** etcd keeps keys, each under a lease, and leases with deadlines on its own
    clock, in milliseconds, which goes on during every request; other clients
    use it all the while, under leases of their own.  A granted lease lasts for
    the time to live at least, and no key is under it yet.  The transaction is
    executed at one instant between the request and the reply; the reply says
    [succeeded] only when no live key was there at that instant, and the key is
    then under the given lease; else it has put nothing under that lease.  A
    revoked lease takes its keys with it; nothing else drops a key before its
    deadline. *)
Class EtcdLaws (Tr : Type) `{EtcdTransport Tr} := {
  gw_ms : Tr -> Z;
  gw_lease : Tr -> Z -> option Z;
  gw_key : Tr -> rstr -> option Z;
  gw_at : Z -> Tr -> Tr;
  gw_deadline tr k := gw_key tr k ≫= gw_lease tr;
  gw_until tr k dl := gw_deadline tr k = Some dl \/ dl <= gw_ms tr;
  gw_keeps (kept : rstr -> Prop) tr tr' := gw_ms tr <= gw_ms tr' /\
    forall k dl, kept k -> gw_deadline tr k = Some dl -> gw_until tr' k dl;
  gw_at_ms now tr : gw_ms (gw_at now tr) / 1000 = now;
  gw_at_deadline now tr k : gw_deadline (gw_at now tr) k = gw_deadline tr k;
  grant_keeps tr ttl r tr' :
    post tr (str "v3/lease/grant") (grant_request ttl) = (r, tr') -> gw_keeps (fun _ => True) tr tr';
  grant_ok tr ttl resp tr' id :
    post tr (str "v3/lease/grant") (grant_request ttl) = (Ok resp, tr') -> names_lease resp id ->
    (exists dl, gw_ms tr + ttl * 1000 <= dl /\ (gw_lease tr' id = Some dl \/ dl <= gw_ms tr')) /\ forall k, gw_key tr' k <> Some id;
  txn_keeps tr key value id r tr' :
    post tr (str "v3/kv/txn") (txn_request key value id) = (r, tr') -> gw_keeps (fun _ => True) tr tr';
  txn_succeeded tr key value id resp tr' :
    post tr (str "v3/kv/txn") (txn_request key value id) = (Ok resp, tr') ->
    get (str "succeeded") resp = Some (VBool true) ->
    (exists at_ms, gw_ms tr <= at_ms <= gw_ms tr' /\ forall old, gw_deadline tr key = Some old -> old <= at_ms) /\
    forall dl, gw_lease tr id = Some dl -> gw_until tr' key dl;
  txn_refused tr key value id resp tr' k :
    post tr (str "v3/kv/txn") (txn_request key value id) = (Ok resp, tr') ->
    get (str "succeeded") resp <> Some (VBool true) -> gw_key tr' k = Some id -> gw_key tr k = Some id;
  revoke_keeps tr id r tr' :
    post tr (str "v3/lease/revoke") (revoke_request id) = (r, tr') -> gw_keeps (fun k => gw_key tr k <> Some id) tr tr';
}.

Lemma build_lease_grant_body_eq ttl : 0 <= ttl -> build_lease_grant_body ttl = grant_request ttl.
Proof. intros Ht. unfold build_lease_grant_body, value_of_i64. rewrite (proj2 (Z.ltb_ge _ _)) by done. reflexivity. Qed.

Lemma build_txn_body_eq key value id : build_txn_body key value id = txn_request key value id.
Proof. reflexivity. Qed.

Lemma build_lease_revoke_body_eq id : build_lease_revoke_body id = revoke_request id.
Proof. reflexivity. Qed.

Lemma parse_lease_id_Ok `{SerdeTexts} resp id : parse_lease_id resp = Ok id -> names_lease resp id /\ id <> 0.
Proof.
  unfold parse_lease_id, names_lease. destruct (get _ resp) as [raw|]; [|done].
  destruct raw as [| |n|s| |]; try done; [destruct (as_i64 n) as [i|]|destruct (parse_i64 s) as [i|]]; try done;
    destruct (Z.eqb_spec i 0); intros [= <-]; done.
Qed.

Lemma decision_from_txn_Fresh resp :
  decision_from_txn resp = Fresh <-> get (str "succeeded") resp = Some (VBool true).
Proof. unfold decision_from_txn. destruct (get _ resp) as [[|[]| | | |]|]; cbn; split; congruence. Qed.

Section Laws.
Context `{SB : StandardBase64, ST : SerdeTexts, ET : EtcdTransport Tr, EL : !EtcdLaws Tr}.

Lemma gw_keeps_refl P tr : gw_keeps P tr tr.
Proof. split; [lia|]. by left. Qed.

Lemma gw_keeps_trans P tr1 tr2 tr3 :
  gw_keeps (fun _ => True) tr1 tr2 -> gw_keeps P tr2 tr3 -> (forall k, P k) -> gw_keeps (fun _ => True) tr1 tr3.
Proof.
  intros [Hm Hk] [Hm' Hk'] HP. split; [lia|]. intros k dl _ Hd.
  destruct (Hk k dl I Hd) as [Hd'|?]; [by apply Hk'|right; lia].
Qed.

(** The deadline of a composite key. *)
Definition etcd_deadline (st : EtcdAtomicReplayStore Tr) (key : rstr) : option Z :=
  gw_deadline (es_transport st) (standard_encode (as_bytes key)).

Definition etcd_set_until (st : EtcdAtomicReplayStore Tr) (key : rstr) (dl : Z) : Prop :=
  gw_until (es_transport st) (standard_encode (as_bytes key)) dl.

Lemma etcd_insert_cases (st : EtcdAtomicReplayStore Tr) key t now0 r st' :
  etcd_insert_if_absent st key t now0 = (r, st') ->
  gw_keeps (fun _ => True) (es_transport st) (es_transport st') /\
  (r = Ok Fresh -> is_stale_pre_store t (es_clock st) = false /\
     (forall old, etcd_deadline st key = Some old -> old <= gw_ms (es_transport st')) /\
     exists dl, gw_ms (es_transport st) + compute_ttl_secs t (es_clock st) * 1000 <= dl /\ etcd_set_until st' key dl).
Proof.
  unfold etcd_insert_if_absent. destruct (is_stale_pre_store _ _) eqn:Es; [intros [= <- <-]; split; [apply gw_keeps_refl|done]|].
  set (ttl := compute_ttl_secs _ _). assert (Httl : 0 < ttl) by (unfold ttl, compute_ttl_secs; lia).
  rewrite build_lease_grant_body_eq by lia.
  destruct (post _ _ (grant_request ttl)) as [[resp|e] tr1] eqn:E1; pose proof (grant_keeps _ _ _ _ E1) as K1;
    [|intros [= <- <-]; by split].
  destruct (parse_lease_id resp) as [id|e] eqn:Ep; [|intros [= <- <-]; by split]. apply parse_lease_id_Ok in Ep as [Hid _].
  apply (grant_ok _ _ _ _ id) in E1 as [(dl & Hle & Hl) Hfree]; [|done]. rewrite build_txn_body_eq.
  destruct (post tr1 _ _) as [[tx|e] tr2] eqn:E2; pose proof (txn_keeps _ _ _ _ _ _ E2) as K2;
    pose proof (gw_keeps_trans _ _ _ _ K1 K2 (fun _ => I)) as K12; [|intros [= <- <-]; by split].
  destruct (decision_from_txn tx) eqn:Ed.
  - apply decision_from_txn_Fresh in Ed. apply (txn_succeeded _ _ _ _ _ _ E2) in Ed as [(at_ms & Hat & Hno) Hset].
    intros [= <- <-]. split; [done|]. intros _. split; [done|]. destruct K1 as [Hm1 K1]. cbn. split.
    + intros old Hold. unfold etcd_deadline in Hold. destruct (K1 _ _ I Hold) as [Hd1%Hno|]; lia.
    + exists dl. split; [done|]. destruct Hl as [Hl|Hl]; [by apply Hset|]. right. cbn. lia.
  - assert (Hne : get (str "succeeded") tx <> Some (VBool true)) by (rewrite <- decision_from_txn_Fresh; congruence).
    rewrite build_lease_revoke_body_eq. destruct (post tr2 _ _) as [r3 tr3] eqn:E3. intros [= <- <-]. cbn. split; [|done].
    apply revoke_keeps in E3. eapply gw_keeps_trans; [exact K12|exact E3|].
    intros k Hk. eapply Hfree. by eapply txn_refused.
Qed.
End Laws.

Section Expiring.
Context `{SB : StandardBase64, ST : SerdeTexts, ET : EtcdTransport Tr, EL : !EtcdLaws Tr}.

(** The gateway at an instant of the second [now], which the node reads. *)
Definition etcd_store_at (now : Z) (st : EtcdAtomicReplayStore Tr) : EtcdAtomicReplayStore Tr :=
  {| es_transport := gw_at now (es_transport st); es_clock := now |}.

Lemma is_stale_pre_store_false t now :
  0 <= now -> t <= 2 ^ 53 -> is_stale_pre_store t now = false -> now < t /\ compute_ttl_secs t now = t - now.
Proof.
  intros Hn Ht Hf. unfold is_stale_pre_store, compute_ttl_secs, saturating_sub, sat_i64, I64_MIN, I64_MAX in *.
  apply Z.leb_gt in Hf. lia.
Qed.

#[export] Program Instance etcd_expiring : ExpiringStore (EtcdAtomicReplayStore Tr) := {
  deadline := etcd_deadline;
  store_ms st := gw_ms (es_transport st);
  st_at := etcd_store_at;
}.
Next Obligation.
  intros now st key t st' Hn Ht Hi. destruct (etcd_insert_cases _ _ _ 0 _ _ Hi) as [_ Hf].
  destruct (Hf eq_refl) as (Hs & Hno & dl & Hle & Hd). cbn in Hs, Hle.
  apply is_stale_pre_store_false in Hs as [Hlt Httl]; [|done..]. rewrite Httl in Hle.
  pose proof (gw_at_ms now (es_transport st)) as Hms. split_and!; [done| |].
  - intros old Hold. apply Hno. unfold etcd_deadline. cbn. by rewrite gw_at_deadline.
  - exists dl. split; [|exact Hd]. pose proof (Z.mul_div_le (gw_ms (gw_at now (es_transport st))) 1000). lia.
Qed.
Next Obligation.
  intros now st key t r st' k dl Hn Hi Hd. destruct (etcd_insert_cases _ _ _ 0 _ _ Hi) as [[_ Hk] _]. cbn in Hk.
  apply (Hk (standard_encode (as_bytes k)) dl I). by rewrite gw_at_deadline.
Qed.
Next Obligation. intros now st k. apply gw_at_deadline. Qed.

(** The etcd store fails closed: whatever the gateway answers (errors,
    replies without an id, with the id 0, lost replies), no key is dropped
    before its deadline, the release of an unused lease included; and [Fresh]
    is answered only when the node's clock read before the end of the window,
    for a key that was not live any more when the transaction was executed,
    which is then under a lease that lasts for the rest of the window. *)
Theorem etcd_insert_fails_closed (st : EtcdAtomicReplayStore Tr) key t now0 r st' :
  0 <= es_clock st -> t <= 2 ^ 53 -> etcd_insert_if_absent st key t now0 = (r, st') ->
  gw_keeps (fun _ => True) (es_transport st) (es_transport st') /\
  (r = Ok Fresh ->
     es_clock st < t /\
     (forall old, etcd_deadline st key = Some old -> old <= gw_ms (es_transport st')) /\
     exists dl, gw_ms (es_transport st) + (t - es_clock st) * 1000 <= dl /\ etcd_set_until st' key dl).
Proof.
  intros Hn Ht [Hk Hf]%etcd_insert_cases. split; [done|]. intros Hr. destruct (Hf Hr) as (Hs & Hno & Hd).
  apply is_stale_pre_store_false in Hs as [Hlt Httl]; [|done..]. by rewrite Httl in Hd.
Qed.

Context `{B64 : !Base64, SH : !Sha2, SJ : !SerdeJson, SJL : !SerdeJsonLaws, DK : !Dalek}.
Context `{D1 : !Deserialize RequestEnvelope, D2 : !Deserialize Draft02RequestEnvelope}.
Context `{L1 : !DeserializeLaws RequestEnvelope, L2 : !DeserializeLaws Draft02RequestEnvelope}.

(** C22: At most once in a window over etcd.  For any number of nodes over one
    cluster, their deliveries taken one after the other, with any failures of
    the gateway, any expiry of leases, its clock going on during the grant, the
    transaction and the release, and other clients at work on it all the while,
    each node reading the cluster's second when its insertion begins: a (signer,
    audience, nonce) is accepted a second time only when the whole window
    (signed expiry and skew) of the earlier acceptance had passed, on the
    cluster's clock, by the end of the second insertion. *)
Theorem etcd_at_most_once now (c : SharedReplayCache (EtcdAtomicReplayStore Tr)) h :
  - 2 ^ 52 <= src_max_clock_skew_secs c <= 2 ^ 52 -> rtc step (history_start now c) h ->
  windows_apart (src_max_clock_skew_secs c) (h_accepted h).
Proof. apply fleet_at_most_once. Qed.
End Expiring.

(** ** A gateway in memory *)

(** Clock, keys with their leases, leases with their deadlines, what becomes of
    the next requests ([true] for a reply that is lost), and how long a request
    takes to arrive. *)
Record ToyGateway : Type := {
  tg_ms : Z;
  tg_keys : gmap rstr Z;
  tg_leases : gmap Z Z;
  tg_lost : list bool;
  tg_lag : Z;
}.

Definition tg_with (tr : ToyGateway) (keys : gmap rstr Z) (leases : gmap Z Z) : ToyGateway :=
  {| tg_ms := tg_ms tr; tg_keys := keys; tg_leases := leases; tg_lost := tail (tg_lost tr); tg_lag := tg_lag tr |}.

Definition tg_deadline (tr : ToyGateway) (key : rstr) : option Z := tg_keys tr !! key ≫= (fun l => tg_leases tr !! l).

Definition tg_live (tr : ToyGateway) (key : rstr) : bool :=
  match tg_deadline tr key with Some dl => tg_ms tr <? dl | None => false end.

(** A lease id above those of all keys. *)
Definition tg_next (tr : ToyGateway) : Z := 1 + map_fold (fun _ l m => Z.max l m) 0 (tg_keys tr).

Definition tg_find (tr : ToyGateway) (text : rstr) : option Z :=
  snd <$> list_find (fun l => display_signed l = text) (map_to_list (tg_leases tr)).*1.

Definition tg_answer (tr : ToyGateway) (v : Value) : result Value ReplayStoreError :=
  match tg_lost tr with true :: _ => Err (StoreUnavailable (str "timed out")) | _ => Ok v end.

Definition tg_arrived (tr : ToyGateway) : ToyGateway :=
  {| tg_ms := tg_ms tr + Z.max 0 (tg_lag tr); tg_keys := tg_keys tr; tg_leases := tg_leases tr; tg_lost := tg_lost tr; tg_lag := tg_lag tr |}.

Definition tg_execute (tr : ToyGateway) (path : rstr) (body : Value) : result Value ReplayStoreError * ToyGateway :=
  match body with
  | VObject [(_, VNumber _); (_, VNumber (PosInt ttl))] =>
      let id := tg_next tr in
      (tg_answer tr (VObject [(str "ID", VNumber (PosInt id))]),
       tg_with tr (tg_keys tr) (<[id := tg_ms tr + ttl * 1000]> (tg_leases tr)))
  | VObject [(_, VArray [VObject [_; (_, VString key); _; _]]); _;
             (_, VArray [VObject [(_, VObject [_; (_, VString lease); _])]])] =>
      match tg_find tr lease with
      | None => (Err (StoreUnavailable (str "requested lease not found")), tg_with tr (tg_keys tr) (tg_leases tr))
      | Some l =>
          if tg_live tr key then (tg_answer tr (VObject []), tg_with tr (tg_keys tr) (tg_leases tr))
          else (tg_answer tr (VObject [(str "succeeded", VBool true)]), tg_with tr (<[key := l]> (tg_keys tr)) (tg_leases tr))
      end
  | VObject [(_, VString lease)] =>
      match tg_find tr lease with
      | None => (Err (StoreUnavailable (str "requested lease not found")), tg_with tr (tg_keys tr) (tg_leases tr))
      | Some l => (tg_answer tr (VObject []),
                   tg_with tr (filter (fun kv => kv.2 <> l) (tg_keys tr)) (delete l (tg_leases tr)))
      end
  | _ => (Err (StoreUnavailable (str "bad request")), tr)
  end.

Definition toy_post (tr : ToyGateway) (path : rstr) (body : Value) : result Value ReplayStoreError * ToyGateway :=
  tg_execute (tg_arrived tr) path body.

#[export] Instance toy_etcd : EtcdTransport ToyGateway := toy_post.

Lemma tg_next_above tr k l : tg_keys tr !! k = Some l -> l < tg_next tr.
Proof.
  unfold tg_next. apply (map_fold_weak_ind (fun r m => m !! k = Some l -> l < 1 + r)); [by rewrite lookup_empty|].
  intros i x m r _ IH. destruct (decide (i = k)) as [->|]; [rewrite lookup_insert_eq; intros [= ->]; lia|].
  rewrite lookup_insert_ne by done. intros H%IH. lia.
Qed.

Lemma tg_find_Some tr id l : tg_find tr (display_signed id) = Some l -> l = id.
Proof.
  unfold tg_find. intros ([i l'] & E & ->)%fmap_Some. apply list_find_Some in E as (_ & E & _). by apply display_signed_inj in E.
Qed.

Lemma tg_dead tr key : tg_live tr key = false -> forall dl, tg_deadline tr key = Some dl -> dl <= tg_ms tr.
Proof. unfold tg_live. intros H dl Hd. rewrite Hd in H. by apply Z.ltb_ge. Qed.

#[export] Program Instance toy_etcd_laws : EtcdLaws ToyGateway := {
  gw_ms := tg_ms;
  gw_lease tr l := tg_leases tr !! l;
  gw_key tr k := tg_keys tr !! k;
  gw_at now tr := {| tg_ms := now * 1000; tg_keys := tg_keys tr; tg_leases := tg_leases tr; tg_lost := tg_lost tr; tg_lag := tg_lag tr |};
}.
Next Obligation. intros now tr. cbn. apply Z.div_mul. lia. Qed.
Next Obligation. done. Qed.
Next Obligation.
  intros tr ttl r tr' [= <- <-]. split; [cbn; lia|]. intros k dl _ Hd. left. revert Hd. cbn. destruct (tg_keys tr !! k) as [l|] eqn:Ek; [|done].
  cbn. change (tg_keys (tg_arrived tr) !! k = Some l) in Ek. apply tg_next_above in Ek. by rewrite lookup_insert_ne by lia.
Qed.
Next Obligation.
  intros tr ttl resp tr' id Hp Hid. unfold post, toy_etcd, toy_post, tg_execute, grant_request, tg_answer in Hp.
  set (ta := tg_arrived tr) in Hp.
  assert (resp = VObject [(str "ID", VNumber (PosInt (tg_next ta)))]) as -> by (repeat case_match; by simplify_eq).
  change (as_i64 (PosInt (tg_next ta)) = Some id) in Hid. unfold as_i64 in Hid.
  assert (id = tg_next ta) as -> by (destruct (_ <=? _); by simplify_eq).
  assert (tr' = tg_with ta (tg_keys ta) (<[tg_next ta := tg_ms ta + ttl * 1000]> (tg_leases ta))) as -> by (by simplify_eq).
  assert (tg_ms tr <= tg_ms ta) by (cbn; lia). split.
  - exists (tg_ms ta + ttl * 1000). split; [lia|left]. cbn [tg_with tg_leases]. apply lookup_insert_eq.
  - intros k Hk. apply (tg_next_above ta k) in Hk. lia.
Qed.
Next Obligation.
  intros tr key value id r tr' Hp. cbn in Hp. unfold toy_post in Hp. cbn in Hp. set (ta := tg_arrived tr) in Hp.
  assert (Hta : tg_ms tr <= tg_ms ta) by (cbn; lia).
  destruct (tg_find _ _) as [l|]; [|injection Hp as <- <-; split; [cbn in *; lia|by left]].
  destruct (tg_live ta key) eqn:El; injection Hp as <- <-; (split; [cbn in *; lia|]); [by left|]. intros k dl _ Hd.
  destruct (decide (k = key)) as [->|]; [right; by apply (tg_dead ta key El)|left]. cbn. by rewrite lookup_insert_ne.
Qed.
Next Obligation.
  intros tr key value id resp tr' Hp Hs. cbn in Hp. unfold toy_post in Hp. cbn in Hp. set (ta := tg_arrived tr) in Hp.
  assert (Hta : tg_ms tr <= tg_ms ta) by (cbn; lia). destruct (tg_find _ _) as [l|] eqn:Ef; [|done]. apply tg_find_Some in Ef as ->.
  destruct (tg_live ta key) eqn:El; injection Hp as Hr <-; unfold tg_answer in Hr.
  - assert (resp = VObject []) as -> by (repeat case_match; by simplify_eq). done.
  - split; [exists (tg_ms ta); split; [cbn in *; lia|exact (tg_dead ta key El)]|]. intros dl Hd. left. cbn. by rewrite lookup_insert_eq.
Qed.
Next Obligation.
  intros tr key value id resp tr' k Hp Hs. cbn in Hp. unfold toy_post in Hp. cbn in Hp. set (ta := tg_arrived tr) in Hp.
  destruct (tg_find _ _) as [l'|]; [|done].
  destruct (tg_live ta key); injection Hp as Hr <-; [done|]. unfold tg_answer in Hr. destruct Hs.
  by repeat case_match; simplify_eq.
Qed.
Next Obligation.
  intros tr id r tr' Hp. cbn in Hp. unfold toy_post in Hp. cbn in Hp. set (ta := tg_arrived tr) in Hp.
  assert (Hta : tg_ms tr <= tg_ms ta) by (cbn; lia).
  destruct (tg_find _ _) as [l|] eqn:Ef; [|injection Hp as <- <-; split; [cbn in *; lia|by left]].
  apply tg_find_Some in Ef as ->. injection Hp as <- <-. split; [cbn in *; lia|]. intros k dl Hne Hd. left. cbn in *.
  destruct (tg_keys tr !! k) as [l|] eqn:Ek; [|done]. cbn in Hd.
  rewrite (proj2 (map_lookup_filter_Some _ _ _ _)) by (split; [exact Ek|]; cbn; congruence). cbn.
  by rewrite lookup_delete_ne by congruence.
Qed.

Import Toy.

Definition toy_texts : SerdeTexts :=
  {| value_display _ := []; ser_error_display _ := []; de_error_display _ := [] |}.
#[local] Existing Instance toy_texts.
#[local] Instance toy_standard : StandardBase64 := toy_encode.

Definition sample_gateway (now : Z) (lost : list bool) : ToyGateway :=
  {| tg_ms := now * 1000; tg_keys := ∅; tg_leases := ∅; tg_lost := lost; tg_lag := 200 |}.

Definition sample_etcd_node (now : Z) (lost : list bool) : EtcdAtomicReplayStore ToyGateway :=
  {| es_transport := sample_gateway now lost; es_clock := now |}.

(** A key is fresh once; a lost reply of the lease leaves nothing behind, and
    one of the transaction makes the next attempt a replay; a reply without a
    lease id, or with the id 0, is refused. *)
Example sample_etcd_fresh : (insert_if_absent (sample_etcd_node 1000 []) (str "k") 1060 0).1 = Ok Fresh.
Proof. vm_compute. reflexivity. Qed.

Example sample_etcd_replay :
  (insert_if_absent (insert_if_absent (sample_etcd_node 1000 []) (str "k") 1060 0).2 (str "k") 1060 0).1 = Ok Replay.
Proof. vm_compute. reflexivity. Qed.

Example sample_etcd_lost_grant :
  let (r, st) := insert_if_absent (sample_etcd_node 1000 [true]) (str "k") 1060 0 in
  is_ok r = false /\ (insert_if_absent st (str "k") 1060 0).1 = Ok Fresh.
Proof. vm_compute. by split. Qed.

Example sample_etcd_lost_txn :
  let (r, st) := insert_if_absent (sample_etcd_node 1000 [false; true]) (str "k") 1060 0 in
  is_ok r = false /\ (insert_if_absent st (str "k") 1060 0).1 = Ok Replay.
Proof. vm_compute. by split. Qed.

Example sample_lease_ids :
  parse_lease_id (VObject [(str "ID", VString (str "7587862094"))]) = Ok 7587862094 /\
  is_ok (parse_lease_id (VObject [(str "ID", VString (str "0"))])) = false /\
  is_ok (parse_lease_id (VObject [])) = false.
Proof. vm_compute. by split_and!. Qed.

Lemma etcd_insert_fails_closed_witness :
  let st := sample_etcd_node 1000 [] in
  let st' := (etcd_insert_if_absent st (str "k") 1060 0).2 in
  exists dl, 1060000 <= dl /\ etcd_set_until st' (str "k") dl.
Proof.
  cbn zeta. set (st := sample_etcd_node _ _). assert (Hc : 0 <= es_clock st) by (cbn; lia). assert (Ht : 1060 <= 2 ^ 53) by lia.
  destruct (etcd_insert_fails_closed st (str "k") 1060 0 _ _ Hc Ht (surjective_pairing _)) as [_ Hf].
  destruct (Hf sample_etcd_fresh) as (_ & _ & Hd). exact Hd.
Defined.

Definition sample_etcd : SharedReplayCache (EtcdAtomicReplayStore ToyGateway) :=
  shared_new (sample_etcd_node sample_now []) 60.

(** Two deliveries of the same bytes, ten seconds apart. *)
Definition sample_etcd_end : history (SharedReplayCache (EtcdAtomicReplayStore ToyGateway)) :=
  let d1 := deliver (tick sample_now sample_etcd) (sample_delivery sample_now) in
  let d2 := deliver (tick (sample_now + 10) d1.2) (sample_delivery (sample_now + 10)) in
  let acc := match d1.1 with Ok vr => [(vr, ended sample_now d1.2)] | Err _ => [] end in
  {| h_now := ended (sample_now + 10) d2.2; h_cache := d2.2;
     h_accepted := match d2.1 with Ok vr => (vr, ended (sample_now + 10) d2.2) :: acc | Err _ => acc end |}.

Example sample_etcd_accepts_once : length (h_accepted sample_etcd_end) = 1%nat.
Proof. vm_compute. reflexivity. Qed.

Lemma etcd_at_most_once_witness :
  rtc step (history_start sample_now sample_etcd) sample_etcd_end /\ windows_apart 60 (h_accepted sample_etcd_end).
Proof.
  assert (Hr : rtc step (history_start sample_now sample_etcd) sample_etcd_end).
  { eapply rtc_l; [eapply (step_deliver _ (sample_delivery sample_now) sample_now)|
      eapply rtc_l; [eapply (step_deliver _ (sample_delivery (sample_now + 10)) (sample_now + 10))|]];
      try apply surjective_pairing; try reflexivity; try (cbn; lia); vm_compute; discriminate. }
  split; [exact Hr|]. apply (etcd_at_most_once sample_now sample_etcd); [cbn; lia|exact Hr].
Defined.

(** ** The transport *)

(** The store a command line builds: the endpoint without its trailing
    slashes, and the thirty seconds of the default. *)
Example sample_etcd_connect :
  etcd_connect tt (str "http://127.0.0.1:2379//") 1000 =
  {| es_transport := {| ut_net := tt; ut_base_url := str "http://127.0.0.1:2379"; ut_timeout := 30000000000 |}; es_clock := 1000 |}.
Proof. reflexivity. Qed.

Lemma read_limited_length limit b bs : read_limited limit b = Ok bs -> (length bs <= limit)%nat.
Proof.
  unfold read_limited. destruct (limit <=? _)%nat eqn:El; [intros [= <-]; rewrite length_take; lia|].
  apply Nat.leb_gt in El. destruct (hb_error b); [done|]. intros [= <-]. lia.
Qed.

(** A reply of the production transport is a JSON value of at most 256 KiB of
    a response that came in full up to there; everything else is [Unavailable]. *)
Theorem ureq_post_Ok `{SerdeJson, SerdeSer, SerdeTexts, HttpAgent Net} (t t' : UreqEtcdTransport Net) path body v :
  ureq_post t path body = (Ok v, t') ->
  exists bs b net buf, to_vec body = Some bs /\
    http_post (ut_net t) (ut_base_url t ++ str "/" ++ path) (ut_timeout t) (str "application/json") bs = (Ok b, net) /\
    read_limited MAX_RESPONSE_BYTES b = Ok buf /\ (length buf <= MAX_RESPONSE_BYTES)%nat /\ from_slice buf = Some v.
Proof.
  unfold ureq_post. destruct (to_vec body) as [bs|]; [|done]. destruct (http_post _ _ _ _ _) as [[b|e] net] eqn:Eh; [|done].
  destruct (read_limited _ b) as [buf|] eqn:Er; [|done]. destruct (from_slice buf) as [w|] eqn:Ev; [|done].
  intros [= -> _]. exists bs, b, net, buf. split_and!; try done. by eapply read_limited_length.
Qed.
