(* ===== verification/Graft.v ===== *)
(** * Grafting a signature into a message

    Every signer of the repository builds its message the same way: write the
    envelope without [signature.value], sign the preimage of that, and assign
    the value through [serde_json]'s [IndexMut].  Here are the indexing
    assignment, whose panic is an outcome of its own, and the reason the
    scheme works: the grafted message has the preimage that was signed, in
    whatever member order it is written and read back. *)

From S2P Require Import Prelude Utf8 Errors Json Canonical Strings Signing Values Crypto Envelope.
From S2P Require Import Pipeline PipelineSpec.

(** What a call that may panic does. *)
Inductive outcome (A : Type) : Type :=
| Returns (a : A)
| Panics.
Arguments Returns {A} a.
Arguments Panics {A}.

(** [value[k1][k2]... = ...]: a null becomes an object, a missing member is
    created as null; indexing anything else by a string panics. *)
Fixpoint index_update (path : list rstr) (f : Value -> Value) (v : Value) : outcome Value :=
  match path with
  | [] => Returns (f v)
  | k :: path' =>
      match match v with VObject m => Some m | VNull => Some [] | _ => None end with
      | None => Panics
      | Some m =>
          match index_update path' f (default VNull (map_get k m)) with
          | Returns w => Returns (VObject (map_insert k w m))
          | Panics => Panics
          end
      end
  end.

(** Indexing through existing members mutates what [get_mut] would reach; what
    happens behind them decides the outcome. *)
Lemma index_update_app ks ks' f v w :
  value_wf v -> path_get ks v = Some w ->
  index_update (ks ++ ks') f v =
  match index_update ks' f w with
  | Returns w' => Returns (update_at ks (fun _ => w') v)
  | Panics => Panics
  end.
Proof.
  revert v. induction ks as [|k ks IH]; intros v W; cbn [app path_get].
  { intros [= ->]. by destruct (index_update ks' f w). }
  destruct v as [| | | | |m]; try done. intros (x & Hx & Hw)%bind_Some. cbn [get] in Hx.
  pose proof (value_wf_object _ W) as (Hd & _ & Hg). cbn [index_update]. rewrite Hx. cbn [default].
  rewrite IH by eauto. destruct (index_update ks' f w) as [w'|]; [|done]. cbn [update_at update_member].
  do 2 f_equal. rewrite (map_insert_alter _ _ _ x) by done. apply map_alter_ext. intros y Hy.
  apply (map_get_elem _ _ _ Hd) in Hy. rewrite Hx in Hy. by simplify_eq.
Qed.

Lemma map_insert_wf k x m : str_wf k -> value_wf x -> value_wf (VObject m) -> value_wf (VObject (map_insert k x m)).
Proof.
  intros Hk Hx W. inversion W as [| | | | | | |? Hd Hs Hm]; subst. apply value_wf_members; [by apply map_insert_NoDup|].
  apply (json_object_members_wf [(k, x)] m); [by repeat constructor|].
  apply Forall_and; split; [exact (proj1 (Forall_fmap _ _ _) Hs)|done].
Qed.

(** ** The signature block *)

(** [{ "alg": "Ed25519", "key_id": ... }], as every signer writes it. *)
Definition signature_stub (key_id : rstr) : Value :=
  json_object [(str "alg", VString SIG_ALG_ED25519); (str "key_id", VString key_id)].

Lemma signature_stub_wf k : str_wf k -> value_wf (signature_stub k).
Proof. intros. apply value_wf_json_object. rewrite !Forall_cons, Forall_nil. split_and!; cbn [fst snd]; solve_str_wf. Qed.

Lemma safe_signature_stub k : safe 1 (signature_stub k).
Proof. apply safe_json_object. rewrite !Forall_cons, Forall_nil. split_and!; try apply safe_string; done. Qed.

Definition add_value (sg : rstr) (s : Value) : Value :=
  match s with VObject sm => VObject (map_insert (str "value") (VString sg) sm) | _ => s end.

Lemma add_value_wf sg s : str_wf sg -> value_wf s -> value_wf (add_value sg s).
Proof. intros Hsg W. destruct s as [| | | | |sm]; try done. apply map_insert_wf; [solve_str_wf|by constructor|done]. Qed.

(** The block the reader gets back. *)
Definition signature_of (key_id sg : rstr) : SignatureBlock :=
  {| alg := SIG_ALG_ED25519; Envelope.key_id := key_id; sig_value := Some sg |}.

Lemma signature_stub_read k sg m :
  str_wf k -> str_wf sg -> value_wf (VObject m) -> value_equiv (add_value sg (signature_stub k)) (VObject m) ->
  signature_object m (signature_of k sg).
Proof.
  intros Hk Hsg W H. pose proof (add_value_wf _ _ Hsg (signature_stub_wf _ Hk)) as Ws.
  unfold signature_object, field, opt_field. cbn [signature_of alg Envelope.key_id sig_value].
  split_and!; try (eapply equiv_field; [exact H|reflexivity]).
  eapply equiv_keys; [exact Ws|exact W|exact H|]. repeat constructor; unfold signature_fields; set_solver.
Qed.

Lemma signature_member_read k sg m m' :
  str_wf k -> str_wf sg -> value_wf (VObject m') -> value_equiv (VObject m) (VObject m') ->
  map_get (str "signature") m = Some (add_value sg (signature_stub k)) ->
  nested_object signature_object (str "signature") m' (signature_of k sg).
Proof.
  intros Hk Hsg W H E. destruct (equiv_object _ _ (str "signature") _ H E) as (sm & Hs & Hq). exists sm. split; [done|].
  apply signature_stub_read; try done. apply value_wf_object in W as (_ & _ & Hg). eauto.
Qed.

(** ** Messages *)

Definition signature_path (loc : EnvelopeLocation) : list rstr :=
  [container_key loc; str "_meta"; meta_key loc; str "signature"].

Definition envelope_path (loc : EnvelopeLocation) : list rstr := [container_key loc; str "_meta"; meta_key loc].

(** Filling in the signature value. *)
Definition fill_signature (loc : EnvelopeLocation) (sg : rstr) (v : Value) : Value :=
  update_at (signature_path loc) (add_value sg) v.

(** The envelope with the signature value filled in. *)
Definition signed_envelope (sg : rstr) (envelope : Value) : Value := update_at [str "signature"] (add_value sg) envelope.

(** A message with an envelope that is not signed yet. *)
Definition unsigned (loc : EnvelopeLocation) (v : Value) : Prop :=
  value_wf v /\
  exists sm, path_get (signature_path loc) v = Some (VObject sm) /\ map_get (str "value") sm = None.

(** An envelope object with an unsigned signature block. *)
Definition unsigned_envelope (envelope : Value) : Prop :=
  value_wf envelope /\
  exists sm, get (str "signature") envelope = Some (VObject sm) /\ map_get (str "value") sm = None.

Lemma unsigned_located loc v envelope :
  value_wf v -> path_get (envelope_path loc) v = Some envelope -> unsigned_envelope envelope -> unsigned loc v.
Proof.
  intros W Hp (_ & sm & Hs & Hv). split; [done|]. exists sm. split; [|done].
  change (signature_path loc) with (envelope_path loc ++ [str "signature"]). rewrite path_get_app, Hp. cbn. by rewrite Hs.
Qed.

Lemma safe_fill_signature n loc sg v : safe n v -> safe n (fill_signature loc sg v).
Proof.
  apply safe_update_at. intros k w Hw. destruct w as [| | | | |sm], k as [|k]; try done.
  by apply safe_insert; [apply safe_string|].
Qed.

Lemma fill_signature_envelope loc sg v envelope :
  path_get (envelope_path loc) v = Some envelope ->
  path_get (envelope_path loc) (fill_signature loc sg v) = Some (signed_envelope sg envelope).
Proof.
  intros Hp. change (fill_signature loc sg v) with (update_at (envelope_path loc) (signed_envelope sg) v).
  rewrite <- (app_nil_r (envelope_path loc)) at 1. by rewrite (path_get_update_at _ _ _ _ envelope).
Qed.

Section Graft.
Context (loc : EnvelopeLocation) (v : Value) (U : unsigned loc v).

Lemma unsigned_block : has_signature_block loc v = true.
Proof. destruct U as (_ & sm & Hs & _). unfold has_signature_block. fold (signature_path loc). by rewrite Hs. Qed.

(** The indexing assignment never panics. *)
Lemma index_signature sg :
  index_update (signature_path loc ++ [str "value"]) (fun _ => VString sg) v = Returns (fill_signature loc sg v).
Proof.
  destruct U as (W & sm & Hs & _). rewrite (index_update_app _ _ _ _ _ W Hs). cbn [index_update]. f_equal.
  apply update_at_get; [done|]. intros w Hw. rewrite Hs in Hw. by simplify_eq.
Qed.

Lemma fill_signature_wf sg : str_wf sg -> value_wf (fill_signature loc sg v).
Proof. intros Hsg. apply value_wf_update_at; [exact (proj1 U)|]. intros w W. by apply add_value_wf. Qed.

(** Signing over the message without the value is signing over the message
    with it. *)
Lemma fill_signature_preimage sg :
  str_wf sg -> signing_preimage (fill_signature loc sg v) loc = signing_preimage v loc.
Proof.
  intros Hsg. pose proof unsigned_block as Hb. destruct U as (W & sm & Hs & Hv).
  assert (Hf : path_get (signature_path loc) (fill_signature loc sg v) =
               Some (VObject (map_insert (str "value") (VString sg) sm))).
  { unfold fill_signature. rewrite <- (app_nil_r (signature_path loc)) at 1. by rewrite (path_get_update_at _ _ _ _ _ Hs). }
  apply signing_preimage_delete; [by apply fill_signature_wf|done|..|done|].
  - unfold has_signature_block. fold (signature_path loc). by rewrite Hf.
  - change [container_key loc; str "_meta"; meta_key loc; str "signature"; str "value"]
      with (signature_path loc ++ [str "value"]).
    rewrite (delete_path_absent _ v); [|done|done|].
    2:{ rewrite path_get_app, Hs. cbn. by rewrite Hv. }
    rewrite delete_path_snoc. unfold fill_signature. rewrite update_at_compose.
    etrans; [|apply (update_at_id (signature_path loc))]. apply update_at_get; [done|].
    intros w Hw. rewrite Hs in Hw. simplify_eq. cbn [remove_member add_value]. by rewrite map_remove_insert.
Qed.

(** The grafted message, however it is read back, carries the signature. *)
Lemma fill_signature_signed `{Base64, Dalek} sg pre kid key w :
  str_wf sg -> signing_preimage v loc = Ok pre -> verify_ed25519 pre sg key = Ok tt ->
  value_wf w -> value_equiv (fill_signature loc sg v) w -> signed_by loc w pre (signature_of kid sg) key.
Proof.
  intros Hsg Hpre (raw & Hd & Hl & Hv)%verify_ed25519_with_Ok W Hq.
  split; [|split; [done|by exists sg, raw]].
  eapply signing_preimage_equiv; [by apply fill_signature_wf|exact W|exact Hq|]. by rewrite fill_signature_preimage.
Qed.
End Graft.
