(* ===== verification/Policy.v ===== *)
(** * The authorization policy layer: operations

    The [mcps-policy] crate: the [PolicyError] taxonomy ([error.rs]), the
    authorization block ([block.rs]), decisions ([decision.rs]), revocation
    ([revocation.rs]), the profile traits ([profile.rs]), the Reference Signed
    Authorization Profile with its minting helper ([reference.rs]), the
    evaluator ([evaluator.rs]) and the error object ([wire.rs]).  The traits are
    records of operations; the [Deserialize] code of the grant is a parameter
    as for the envelopes. *)

From S2P Require Import Prelude Utf8 Errors Json Canonical Signing Time Crypto Envelope Constraints.
From S2P Require Import Resolver Pipeline Unwrap.

(** ** error.rs *)

Inductive PolicyError : Type :=
| AuthorizationBlockMissing
| AuthorizationHashMismatch
| AuthorizationProfileUnsupported
| AuthorizationMalformed
| AuthorizationSignatureInvalid
| AuthorizationSignerMismatch
| AuthorizationSubjectMismatch
| AuthorizationAudienceMismatch
| AuthorizationExpired
| AuthorizationRevoked
| AuthorizationRevocationUnavailable
| AuthorizationScopeDenied
| PolicyBindingProfileRequired.

#[export] Instance PolicyError_eq_dec : EqDecision PolicyError.
Proof. solve_decision. Defined.

Definition policy_wire_code (e : PolicyError) : rstr :=
  match e with
  | AuthorizationBlockMissing => str "mcps.authorization_block_missing"
  | AuthorizationHashMismatch => str "mcps.authorization_hash_mismatch"
  | AuthorizationProfileUnsupported => str "mcps.authorization_profile_unsupported"
  | AuthorizationMalformed => str "mcps.authorization_malformed"
  | AuthorizationSignatureInvalid => str "mcps.authorization_signature_invalid"
  | AuthorizationSignerMismatch => str "mcps.authorization_signer_mismatch"
  | AuthorizationSubjectMismatch => str "mcps.authorization_subject_mismatch"
  | AuthorizationAudienceMismatch => str "mcps.authorization_audience_mismatch"
  | AuthorizationExpired => str "mcps.authorization_expired"
  | AuthorizationRevoked => str "mcps.authorization_revoked"
  | AuthorizationRevocationUnavailable => str "mcps.authorization_revocation_unavailable"
  | AuthorizationScopeDenied => str "mcps.authorization_scope_denied"
  | PolicyBindingProfileRequired => str "mcps.authorization_binding_profile_required"
  end.

(** ** block.rs *)

Definition AUTHORIZATION_META_KEY : rstr := str "se.syncom/mcps.authorization".

Record AuthorizationBlock : Type := {
  profile : rstr;
  artifact_b64url : rstr;
}.

Definition decoded_artifact `{Base64} (b : AuthorizationBlock) : result bytes PolicyError :=
  map_err (fun _ => AuthorizationMalformed) (b64url_decode (artifact_b64url b)).

Definition extract_authorization_block (request : Value) : result AuthorizationBlock PolicyError :=
  let? block := ok_or (params ← get (str "params") request; meta ← get (str "_meta") params;
                       get AUTHORIZATION_META_KEY meta) AuthorizationBlockMissing in
  let? object := ok_or (as_object block) AuthorizationMalformed in
  let? profile := ok_or (get_str (str "profile") object) AuthorizationMalformed in
  let? artifact_b64url := ok_or (get_str (str "artifact") object) AuthorizationMalformed in
  Ok {| profile := profile; artifact_b64url := artifact_b64url |}.

(** ** decision.rs *)

Inductive AuthorizationDecision : Type :=
| Allow
| Deny (e : PolicyError).

Definition is_allowed (d : AuthorizationDecision) : bool :=
  match d with Allow => true | Deny _ => false end.

Definition denial (d : AuthorizationDecision) : option PolicyError :=
  match d with Allow => None | Deny err => Some err end.

(** ** revocation.rs *)

Inductive RevocationStatus : Type := NotRevoked | Revoked.

Record RevocationUnavailable : Type := { ru_details : rstr }.

(** The [RevocationSource] trait. *)
Definition RevocationSource : Type := rstr -> result RevocationStatus RevocationUnavailable.

Record InMemoryRevocationSource : Type := { revoked : gset rstr }.

Definition in_memory_revocation_new : InMemoryRevocationSource := {| revoked := ∅ |}.

Definition revocation_revoke (s : InMemoryRevocationSource) (revocation_id : rstr)
  : InMemoryRevocationSource := {| revoked := {[ revocation_id ]} ∪ revoked s |}.

Definition in_memory_revocation_status (s : InMemoryRevocationSource) : RevocationSource :=
  fun revocation_id =>
    if bool_decide (revocation_id ∈ revoked s) then Ok Revoked else Ok NotRevoked.

(** ** [PartialEq] on [Value] *)

(** Numbers compare within their representation; two float zeros are equal. *)
Definition number_eqb (a b : Number) : bool :=
  match a, b with
  | PosInt x, PosInt y | NegInt x, NegInt y => x =? y
  | Float x, Float y => (x =? y) || ((x mod 2 ^ 63 =? 0) && (y mod 2 ^ 63 =? 0))
  | _, _ => false
  end.

(** Objects compare as maps. *)
Fixpoint value_eqb (v w : Value) {struct v} : bool :=
  match v, w with
  | VNull, VNull => true
  | VBool a, VBool b => eqb a b
  | VNumber a, VNumber b => number_eqb a b
  | VString a, VString b => bool_decide (a = b)
  | VArray l, VArray k =>
      (fix go (l k : list Value) : bool :=
         match l, k with
         | [], [] => true
         | x :: l', y :: k' => value_eqb x y && go l' k'
         | _, _ => false
         end) l k
  | VObject m, VObject n =>
      bool_decide (length m = length n) &&
      (fix go (m : Map) : bool :=
         match m with
         | [] => true
         | kv :: m' =>
             match map_get kv.1 n with Some y => value_eqb kv.2 y | None => false end && go m'
         end) m
  | _, _ => false
  end.

(** ** reference.rs *)

Definition REFERENCE_PROFILE_ID : rstr := str "se.syncom/mcps-authz-reference-v1".

Record Grant : Type := {
  g_method : rstr;
  g_tool : rstr;
  g_arguments : option Value;
}.

Record GrantSignature : Type := {
  gs_alg : rstr;
  gs_key_id : rstr;
  gs_value : rstr;
}.

Record ReferenceGrant : Type := {
  issuer : rstr;
  grantee : rstr;
  subject : rstr;
  rg_audience : rstr;
  grants : list Grant;
  not_before : rstr;
  rg_expires_at : rstr;
  revocation_id : rstr;
  rg_signature : GrantSignature;
}.

Definition arguments_satisfied (constraint actual : option Value) : bool :=
  match constraint with
  | None => true
  | Some constraint =>
      match as_object constraint with
      | None => false
      | Some constraint =>
          match actual ≫= as_object with
          | None => is_empty constraint
          | Some actual =>
              forallb (fun kv => match map_get kv.1 actual with
                                 | Some v => value_eqb v kv.2
                                 | None => false
                                 end) constraint
          end
      end
  end.

(** The [params] field that names the target of a method. *)
Definition target_key (method : rstr) : option rstr :=
  if bool_decide (method = str "tools/call") || bool_decide (method = str "prompts/get")
  then Some (str "name")
  else if bool_decide (method = str "resources/read") then Some (str "uri")
  else None.

Definition request_method (request : Value) : rstr :=
  match get (str "method") request ≫= as_str with Some m => m | None => [] end.

Definition check_scope (grant : ReferenceGrant) (request : Value) : result unit PolicyError :=
  let method := request_method request in
  let params := get (str "params") request in
  let tool := key ← target_key method; p ← params; v ← get key p; as_str v in
  let arguments := p ← params; get (str "arguments") p in
  match tool with
  | None => Err AuthorizationScopeDenied
  | Some tool =>
      let permitted := existsb (fun g =>
        bool_decide (g_method g = method) && bool_decide (g_tool g = tool) &&
        arguments_satisfied (g_arguments g) arguments) (grants grant) in
      if permitted then Ok tt else Err AuthorizationScopeDenied
  end.

Definition check_window (grant : ReferenceGrant) (now_unix : Z) : result unit PolicyError :=
  let? not_before := map_err (fun _ => AuthorizationMalformed) (parse_rfc3339_utc (not_before grant)) in
  let? expires_at := map_err (fun _ => AuthorizationMalformed) (parse_rfc3339_utc (rg_expires_at grant)) in
  if (now_unix <? not_before) || (expires_at <? now_unix) then Err AuthorizationExpired else Ok tt.

(** The artifact with [signature.value] removed, when it has a signature object. *)
Definition artifact_preimage (artifact : Value) : result Value PolicyError :=
  match get (str "signature") artifact ≫= as_object with
  | Some sig =>
      Ok (update_member (str "signature") (fun _ => VObject (map_remove (str "value") sig)) artifact)
  | None => Err AuthorizationMalformed
  end.

Section Reference.
Context `{SerdeJson, Base64, Sha2, Dalek, !Deserialize ReferenceGrant}.

Definition verify_issuer_signature (artifact : Value) (grant : ReferenceGrant)
    (resolver : TrustResolver) : result unit PolicyError :=
  if negb (bool_decide (gs_alg (rg_signature grant) = SIG_ALG_ED25519))
  then Err AuthorizationSignatureInvalid else
  let? preimage_value := artifact_preimage artifact in
  let? preimage := map_err (fun _ => AuthorizationMalformed) (canonicalize_json_value preimage_value) in
  let? key := map_err (fun _ => AuthorizationSignatureInvalid)
                (resolver (issuer grant) (gs_key_id (rg_signature grant))) in
  map_err (fun _ => AuthorizationSignatureInvalid)
    (verify_ed25519_with preimage (gs_value (rg_signature grant)) key InvalidSignature).

Definition reference_evaluate_inner (artifact_bytes : bytes) (verified : VerifiedRequest)
    (request : Value) (resolver : TrustResolver) (revocation : RevocationSource) (now_unix : Z)
  : result unit PolicyError :=
  let? canonical_artifact := map_err (fun _ => AuthorizationMalformed) (canonicalize artifact_bytes) in
  let? artifact := ok_or (from_slice canonical_artifact) AuthorizationMalformed in
  let? grant := map_err (fun _ => AuthorizationMalformed)
                  (from_value (T := ReferenceGrant) artifact) in
  try? verify_issuer_signature artifact grant resolver ;;
  if negb (bool_decide (grantee grant = vr_verified_signer verified))
  then Err AuthorizationSignerMismatch else
  if negb (bool_decide (subject grant = vr_on_behalf_of verified))
  then Err AuthorizationSubjectMismatch else
  if negb (bool_decide (rg_audience grant = vr_audience verified))
  then Err AuthorizationAudienceMismatch else
  try? check_window grant now_unix ;;
  try? (match revocation (revocation_id grant) with
        | Ok NotRevoked => Ok tt
        | Ok Revoked => Err AuthorizationRevoked
        | Err _ => Err AuthorizationRevocationUnavailable
        end) ;;
  if existsb (fun g => is_empty (g_tool g)) (grants grant) then Err AuthorizationMalformed else
  try? check_scope grant request ;;
  Ok tt.

(** [ReferenceProfile]'s implementation of the trait. *)
Definition reference_expected_hash (artifact_bytes : bytes) : result rstr PolicyError :=
  let? canon := map_err (fun _ => AuthorizationMalformed) (canonicalize artifact_bytes) in
  Ok (sha256_hash_id canon).

Definition reference_authorize (artifact_bytes : bytes) (verified : VerifiedRequest)
    (request : Value) (resolver : TrustResolver) (revocation : RevocationSource) (now_unix : Z)
  : AuthorizationDecision :=
  match reference_evaluate_inner artifact_bytes verified request resolver revocation now_unix with
  | Ok _ => Allow
  | Err err => Deny err
  end.
End Reference.

(** *** Minting *)

Record GrantedOperation : Type := {
  op_method : rstr;
  op_tool : rstr;
  op_arguments : option Value;
}.

Record ReferenceGrantSpec : Type := {
  spec_issuer : rstr;
  spec_grantee : rstr;
  spec_subject : rstr;
  spec_audience : rstr;
  spec_operations : list GrantedOperation;
  spec_not_before : rstr;
  spec_expires_at : rstr;
  spec_revocation_id : rstr;
}.

Definition grant_entry (op : GrantedOperation) : Value :=
  let entry := map_insert (str "method") (VString (op_method op)) [] in
  let entry := map_insert (str "tool") (VString (op_tool op)) entry in
  match op_arguments op with
  | Some arguments => VObject (map_insert (str "arguments") arguments entry)
  | None => VObject entry
  end.

(** The artifact before its signature value is filled in. *)
Definition unsigned_artifact (spec : ReferenceGrantSpec) (key_id : rstr) : Value :=
  json_object
    [(str "profile", VString REFERENCE_PROFILE_ID);
     (str "issuer", VString (spec_issuer spec));
     (str "grantee", VString (spec_grantee spec));
     (str "subject", VString (spec_subject spec));
     (str "audience", VString (spec_audience spec));
     (str "grants", VArray (grant_entry <$> spec_operations spec));
     (str "not_before", VString (spec_not_before spec));
     (str "expires_at", VString (spec_expires_at spec));
     (str "revocation_id", VString (spec_revocation_id spec));
     (str "signature", json_object [(str "alg", VString SIG_ALG_ED25519); (str "key_id", VString key_id)])].

(** [artifact\["signature"\]\["value"\] = value]. *)
Definition set_signature_value (artifact : Value) (value : rstr) : Value :=
  update_member (str "signature")
    (fun sig => match sig with VObject m => VObject (map_insert (str "value") (VString value) m) | v => v end)
    artifact.

Definition mint_reference_grant `{Base64, Dalek} (spec : ReferenceGrantSpec) (issuer_key : SigningKey)
    (key_id : rstr) : result bytes PolicyError :=
  if existsb (fun op => is_empty (op_tool op)) (spec_operations spec) then Err AuthorizationMalformed else
  let artifact := unsigned_artifact spec key_id in
  let? preimage := map_err (fun _ => AuthorizationMalformed) (canonicalize_json_value artifact) in
  let value := sign issuer_key preimage in
  map_err (fun _ => AuthorizationMalformed)
    (canonicalize_json_value (set_signature_value artifact value)).

(** ** profile.rs *)
Section Evaluator.
Context `{SerdeJson, Base64, Sha2, Dalek}.

(** The [AuthorizationProfile] trait object. *)
Record AuthorizationProfile : Type := {
  profile_id : rstr;
  expected_authorization_hash : bytes -> result rstr PolicyError;
  authorize : bytes -> VerifiedRequest -> Value -> TrustResolver -> RevocationSource -> Z ->
    AuthorizationDecision;
}.

(** The [AuthorizationReferenceResolver] trait object. *)
Record AuthorizationReferenceResolver : Type := {
  authorization_system_id : rstr;
  authorize_reference : AuthorizationBinding -> VerifiedRequest -> Value -> TrustResolver ->
    RevocationSource -> Z -> AuthorizationDecision;
}.

Definition ReferenceProfile `{!Deserialize ReferenceGrant} : AuthorizationProfile := {|
  profile_id := REFERENCE_PROFILE_ID;
  expected_authorization_hash := reference_expected_hash;
  authorize := reference_authorize;
|}.

(** ** evaluator.rs *)

Record PolicyEvaluator : Type := {
  profiles : gmap rstr AuthorizationProfile;
  reference_resolvers : gmap rstr AuthorizationReferenceResolver;
}.

Definition evaluator_new : PolicyEvaluator := {| profiles := ∅; reference_resolvers := ∅ |}.

Definition register (e : PolicyEvaluator) (p : AuthorizationProfile) : PolicyEvaluator :=
  {| profiles := <[profile_id p := p]> (profiles e); reference_resolvers := reference_resolvers e |}.

Definition register_reference_resolver (e : PolicyEvaluator) (r : AuthorizationReferenceResolver)
  : PolicyEvaluator :=
  {| profiles := profiles e;
     reference_resolvers := <[authorization_system_id r := r]> (reference_resolvers e) |}.

Definition evaluate_artifact_binding (e : PolicyEvaluator) (request : Value)
    (verified : VerifiedRequest) (resolver : TrustResolver) (revocation : RevocationSource)
    (now_unix : Z) (check_binding : rstr -> result unit PolicyError)
  : result AuthorizationDecision PolicyError :=
  let? block := extract_authorization_block request in
  let? p := ok_or (profiles e !! profile block) AuthorizationProfileUnsupported in
  let? artifact_bytes := decoded_artifact block in
  let? expected := expected_authorization_hash p artifact_bytes in
  try? check_binding expected ;;
  Ok (authorize p artifact_bytes verified request resolver revocation now_unix).

Definition evaluate_inner (e : PolicyEvaluator) (verified : VerifiedRequest) (request : Value)
    (resolver : TrustResolver) (revocation : RevocationSource) (now_unix : Z)
  : result AuthorizationDecision PolicyError :=
  match vr_authorization verified with
  | Draft01Hash authorization_hash =>
      evaluate_artifact_binding e request verified resolver revocation now_unix
        (fun expected =>
           if bool_decide (expected = authorization_hash) then Ok tt
           else Err AuthorizationHashMismatch)
  | Draft02Binding (OpaqueBytes _ digest_value) =>
      evaluate_artifact_binding e request verified resolver revocation now_unix
        (fun expected =>
           let expected_bare :=
             match strip_prefix (str "sha256:") expected with Some t => t | None => expected end in
           if bool_decide (expected_bare = digest_value) then Ok tt
           else Err AuthorizationHashMismatch)
  | Draft02Binding (AuthzSystemReference system_id _ _ _ _ as authorization_binding) =>
      let? r := ok_or (reference_resolvers e !! system_id) PolicyBindingProfileRequired in
      Ok (authorize_reference r authorization_binding verified request resolver revocation now_unix)
  end.

Definition evaluate (e : PolicyEvaluator) (verified : VerifiedRequest) (request : Value)
    (resolver : TrustResolver) (revocation : RevocationSource) (now_unix : Z) : AuthorizationDecision :=
  match evaluate_inner e verified request resolver revocation now_unix with
  | Ok decision => decision
  | Err err => Deny err
  end.
End Evaluator.

(** ** wire.rs *)

Definition json_rpc_authorization_value (error : PolicyError) (id : Value) : Value :=
  let code := policy_wire_code error in
  json_object
    [(str "jsonrpc", VString (str "2.0"));
     (str "id", id);
     (str "error", json_object
        [(str "code", VNumber (NegInt MCPS_JSON_RPC_ERROR_CODE));
         (str "message", VString code);
         (str "data", json_object
            [(str "mcps_error", VString code); (str "policy", VString (str "authorization"));
             (str "retryable", VBool false); (str "details", VString code)])])].

Definition json_rpc_authorization_error `{SerdeSer} (error : PolicyError) (id : Value) : bytes :=
  match to_vec (json_rpc_authorization_value error id) with Some bs => bs | None => json_rpc_fallback end.
