(* ===== verification/PolicySpec.v ===== *)
(** * The authorization policy layer: what a decision means

    The conditions under which the reference profile and the evaluator allow a
    request, stated on the artifact, the request and the verified context, and
    the documented behaviour of the deserialized grant. *)

From S2P Require Import Prelude Utf8 Errors Json Canonical CanonicalParse CanonicalRound Time Crypto Signing Values.
From S2P Require Import Envelope Instances Resolver Constraints Pipeline PipelineSpec Unwrap Policy.

(** ** The wire form of a grant *)

Definition grant_entry_object (v : Value) (g : Grant) : Prop :=
  exists m, v = VObject m /\ field "method" m (g_method g) /\ field "tool" m (g_tool g) /\
    match g_arguments g with
    | Some a => map_get (str "arguments") m = Some a /\ a <> VNull
    | None => map_get (str "arguments") m = None \/ map_get (str "arguments") m = Some VNull
    end.

Definition grant_signature_object (m : Map) (s : GrantSignature) : Prop :=
  field "alg" m (gs_alg s) /\ field "key_id" m (gs_key_id s) /\ field "value" m (gs_value s).

(** The string claims of the artifact. *)
Definition grant_claims (m : Map) (g : ReferenceGrant) : Prop :=
  field "issuer" m (issuer g) /\ field "grantee" m (grantee g) /\ field "subject" m (subject g) /\
  field "audience" m (rg_audience g) /\ field "not_before" m (not_before g) /\
  field "expires_at" m (rg_expires_at g) /\ field "revocation_id" m (revocation_id g).

Definition grant_object (m : Map) (g : ReferenceGrant) : Prop :=
  grant_claims m g /\
  (exists items, map_get (str "grants") m = Some (VArray items) /\ Forall2 grant_entry_object items (grants g)) /\
  nested_object grant_signature_object (str "signature") m (rg_signature g).

(** The derived [Deserialize] of [ReferenceGrant]: unknown members are ignored,
    and a nested struct may also arrive as an array, which is left open. *)
Class GrantLaws `{Deserialize ReferenceGrant} : Prop := {
  grant_reads m g :
    from_value (VObject m) = Ok g ->
    grant_claims m g /\ nested_when_object grant_signature_object (str "signature") m (rg_signature g);
  grant_accepts m g : NoDup m.*1 -> grant_object m g -> from_value (VObject m) = Ok g;
}.

(** [serde_json] reads back canonical text below its recursion limit. *)
Class SerdeJsonReads `{SerdeJson} : Prop := {
  from_slice_canonical v j bs :
    value_wf v -> from_serde_value_at SERDE_MAX_NESTING v = Ok j -> canonicalize_json_value v = Ok bs ->
    exists v', from_slice bs = Some v' /\ value_wf v' /\ value_equiv v v';
}.

(** ** Equality of JSON values *)

Lemma value_eqb_array l k :
  value_eqb (VArray l) (VArray k) = true <-> Forall2 (fun x y => value_eqb x y = true) l k.
Proof.
  cbn. revert k. induction l as [|x l IH]; intros [|y k].
  - split; [constructor|done].
  - split; [done|inversion 1].
  - split; [done|inversion 1].
  - rewrite andb_true_iff, IH. split; [intros []; by constructor|by inversion 1].
Qed.

Lemma value_eqb_object m n :
  value_eqb (VObject m) (VObject n) = true <->
  length m = length n /\
  Forall (fun kv => exists y, map_get kv.1 n = Some y /\ value_eqb kv.2 y = true) m.
Proof.
  cbn. rewrite andb_true_iff, bool_decide_eq_true. apply and_iff_compat_l.
  induction m as [|[k v] m IH]; [split; [constructor|done]|].
  rewrite andb_true_iff, IH, Forall_cons. apply and_iff_compat_r. cbn [fst snd].
  destruct (map_get k n); naive_solver.
Qed.

(** Values equal up to member order are equal for the code. *)
Lemma value_equiv_eqb v w : value_wf v -> value_wf w -> value_equiv v w -> value_eqb v w = true.
Proof.
  revert w; induction v as [|b|n|s|l IH|m IH] using Value_ind'; intros w Wv Ww Hq;
    inversion Hq as [| | | |? k Hl|? n' Hm]; subst.
  - done.
  - by destruct b.
  - destruct n; cbn; rewrite Z.eqb_refl; done.
  - cbn. by apply bool_decide_eq_true.
  - apply value_eqb_array. inversion Wv as [| | | | | |? Wl|]; inversion Ww as [| | | | | |? Wk|]; subst.
    clear Wv Ww Hq. induction Hl; decompose_Forall_hyps; constructor; auto.
  - apply value_eqb_object. pose proof (value_wf_object _ Wv) as (Hd1 & _ & Hg1).
    pose proof (value_wf_object _ Ww) as (Hd2 & _ & Hg2). split.
    + pose proof (same_lookups_keys _ _ _ Hd1 Hd2 Hm) as Hp. apply Permutation_length in Hp.
      by rewrite !length_fmap in Hp.
    + apply Forall_forall. intros [k v] Hin. pose proof (map_get_elem _ _ _ Hd1 Hin) as Ek.
      specialize (Hm k). rewrite Ek in Hm. inversion Hm as [? y Hy Hx Hyy|]; subst. exists y. cbn [fst snd].
      split; [done|]. eapply (Forall_forall _ m) in IH; [|exact Hin]. cbn in IH. apply IH; eauto.
Qed.

(** ** Scope *)

(** The argument constraints of a grant against the arguments of a request. *)
Definition args_ok (constraint actual : option Value) : Prop :=
  forall c, constraint = Some c -> exists cm, c = VObject cm /\
    forall k v, (k, v) ∈ cm ->
      exists am w, actual = Some (VObject am) /\ map_get k am = Some w /\ value_eqb w v = true.

Lemma arguments_satisfied_iff constraint actual :
  arguments_satisfied constraint actual = true <-> args_ok constraint actual.
Proof.
  unfold arguments_satisfied, args_ok. destruct constraint as [c|]; [|naive_solver].
  destruct c as [| | | | |cm]; cbn [as_object];
    try (split; [done|]; intros H; destruct (H _ eq_refl) as (? & ? & _); done).
  destruct actual as [a|]; cbn [mbind option_bind].
  - destruct (as_object a) as [am|] eqn:Ea.
    + destruct a; simplify_eq. rewrite forallb_Forall_true, Forall_forall. cbn in Ea. simplify_eq. split.
      * intros H c [= <-]. exists cm. split; [done|]. intros k v Hin. specialize (H _ Hin). cbn in H.
        destruct (map_get k am) as [w|] eqn:Ek; [|done]. eauto.
      * intros H [k v] Hin. destruct (H _ eq_refl) as (cm' & [= <-] & Hc).
        destruct (Hc _ _ Hin) as (am' & w & [= <-] & Hw & He). cbn. by rewrite Hw.
    + split.
      * intros H c [= <-]. exists cm. destruct cm; [|done]. split; [done|]. intros k v Hin. set_solver.
      * intros H. destruct (H _ eq_refl) as (cm' & [= <-] & Hc). destruct cm as [|[k v] cm]; [done|].
        destruct (Hc k v) as (am & w & [= ->] & _); [left|]. done.
  - split.
    + intros H c [= <-]. exists cm. destruct cm; [|done]. split; [done|]. intros k v Hin. set_solver.
    + intros H. destruct (H _ eq_refl) as (cm' & [= <-] & Hc). destruct cm as [|[k v] cm]; [done|].
      destruct (Hc k v) as (am & w & ? & _); [left|done].
Qed.

(** The operation a request asks for: its method and the target that method names. *)
Definition request_target (request : Value) (method tool : rstr) (params : Value) : Prop :=
  exists key, get (str "method") request = Some (VString method) /\
    get (str "params") request = Some params /\
    target_key method = Some key /\ get key params = Some (VString tool).

Definition in_scope (grant : ReferenceGrant) (request : Value) : Prop :=
  exists method tool params g, request_target request method tool params /\ g ∈ grants grant /\
    g_method g = method /\ g_tool g = tool /\ args_ok (g_arguments g) (get (str "arguments") params).

Lemma as_str_Some v s : as_str v = Some s <-> v = VString s.
Proof. destruct v; cbn; naive_solver. Qed.

Lemma check_scope_Ok grant request u : check_scope grant request = Ok u <-> in_scope grant request.
Proof.
  unfold check_scope, in_scope, request_target, request_method. destruct u. split.
  - intros H. destruct (get (str "method") request) as [mv|] eqn:Egm; cbn [mbind option_bind] in H;
      [|by change (target_key []) with (@None rstr) in H].
    destruct (as_str mv) as [method|] eqn:Em; [|by change (target_key []) with (@None rstr) in H].
    apply as_str_Some in Em as ->.
    destruct (target_key method) as [key|] eqn:Ek; cbn [mbind option_bind] in H; [|done].
    destruct (get (str "params") request) as [params|] eqn:Ep; cbn [mbind option_bind] in H; [|done].
    destruct (get key params) as [tv|] eqn:Et; cbn [mbind option_bind] in H; [|done].
    destruct (as_str tv) as [tool|] eqn:Ev; [|done]. apply as_str_Some in Ev as ->.
    destruct (existsb _ _) eqn:Ex; [|done]. apply existsb_exists in Ex as (g & Hg & Hb).
    apply andb_true_iff in Hb as [[Hm%bool_decide_eq_true Htl%bool_decide_eq_true]%andb_true_iff Ha].
    apply arguments_satisfied_iff in Ha. exists method, tool, params, g.
    split; [exists key; split_and!; congruence|]. split; [by apply list_elem_of_In|]. split_and!; done.
  - intros (method & tool & params & g & (key & -> & -> & Hk & Ht) & Hin & Hm & Htl & Ha).
    cbn [mbind option_bind as_str]. rewrite Hk. cbn [mbind option_bind]. rewrite Ht. cbn [mbind option_bind as_str].
    replace (existsb _ _) with true; [done|]. symmetry. apply existsb_exists. exists g.
    split; [by apply list_elem_of_In|]. apply arguments_satisfied_iff in Ha.
    by rewrite !bool_decide_eq_true_2, Ha.
Qed.

(** ** The issuer signature *)
Section Signature.
Context `{SerdeJson, Base64, Sha2, Dalek}.

(** The artifact is signed by the key enrolled for its issuer: Ed25519 over
    its canonical form without [signature.value]. *)
Definition issuer_signed (artifact : Value) (grant : ReferenceGrant) (resolver : TrustResolver) : Prop :=
  gs_alg (rg_signature grant) = SIG_ALG_ED25519 /\
  (exists sg, get (str "signature") artifact = Some (VObject sg)) /\
  exists pre key raw,
    canonicalize_json_value (delete_path [str "signature"; str "value"] artifact) = Ok pre /\
    resolver (issuer grant) (gs_key_id (rg_signature grant)) = Ok key /\
    base64_decode (gs_value (rg_signature grant)) = Some raw /\ length raw = SIGNATURE_LEN /\
    dalek_verify_strict (vk_inner key) pre raw = true.

Lemma artifact_preimage_Ok artifact sg :
  value_wf artifact -> get (str "signature") artifact = Some (VObject sg) ->
  artifact_preimage artifact = Ok (delete_path [str "signature"; str "value"] artifact).
Proof.
  intros W Hs. unfold artifact_preimage. rewrite Hs. cbn [mbind option_bind as_object]. f_equal.
  change (delete_path _ artifact) with (update_at [str "signature"] (remove_member (str "value")) artifact).
  change (update_member ?k ?f artifact) with (update_at [k] f artifact).
  apply update_at_get; [done|]. intros w. cbn [path_get]. rewrite Hs. by intros [= <-].
Qed.

Lemma verify_issuer_signature_Ok artifact grant resolver u :
  value_wf artifact ->
  (verify_issuer_signature artifact grant resolver = Ok u <-> issuer_signed artifact grant resolver).
Proof.
  intros W. unfold verify_issuer_signature, issuer_signed. destruct u. split.
  - intros Hok. case_bool_decide as Ea; [|done]. cbn [negb] in Hok. split; [done|].
    destruct (get (str "signature") artifact) as [sv|] eqn:Es;
      [|by unfold artifact_preimage in Hok; rewrite Es in Hok].
    destruct sv as [| | | | |sg]; try (by unfold artifact_preimage in Hok; rewrite Es in Hok).
    split; [by exists sg|]. rewrite (artifact_preimage_Ok _ sg) in Hok by done.
    destruct (canonicalize_json_value _) as [pre|]; [|done]. cbn [map_err] in Hok.
    destruct (resolver _ _) as [key|] eqn:Er; [|done]. cbn [map_err] in Hok.
    destruct (verify_ed25519_with _ _ _ _) eqn:Ev; [|done].
    apply verify_ed25519_with_Ok in Ev as (raw & ? & ? & ?). by exists pre, key, raw.
  - intros (Ha & (sg & Hs) & pre & key & raw & Hp & Hr & Hd & Hl & Hv).
    rewrite (bool_decide_eq_true_2 _ Ha), (artifact_preimage_Ok _ sg), Hp, Hr by done. cbn [negb map_err].
    unfold verify_ed25519_with, b64url_decode, try_into_array.
    rewrite Hd. cbn [ok_or]. by rewrite (bool_decide_eq_true_2 _ Hl), Hv.
Qed.

(** Everything a reference grant must satisfy. *)
Definition grant_valid (artifact : Value) (grant : ReferenceGrant) (verified : VerifiedRequest)
    (request : Value) (resolver : TrustResolver) (revocation : RevocationSource) (now : Z) : Prop :=
  issuer_signed artifact grant resolver /\
  grantee grant = vr_verified_signer verified /\ subject grant = vr_on_behalf_of verified /\
  rg_audience grant = vr_audience verified /\
  (exists nb ea, parse_rfc3339_utc (not_before grant) = Ok nb /\ parse_rfc3339_utc (rg_expires_at grant) = Ok ea /\
     nb <= now <= ea) /\
  revocation (revocation_id grant) = Ok NotRevoked /\
  Forall (fun g => g_tool g <> []) (grants grant) /\ in_scope grant request.

Lemma check_window_Ok grant now u :
  check_window grant now = Ok u <->
  exists nb ea, parse_rfc3339_utc (not_before grant) = Ok nb /\ parse_rfc3339_utc (rg_expires_at grant) = Ok ea /\
    nb <= now <= ea.
Proof.
  unfold check_window. destruct u.
  destruct (parse_rfc3339_utc (not_before grant)) as [nb|]; cbn [map_err]; [|naive_solver].
  destruct (parse_rfc3339_utc (rg_expires_at grant)) as [ea|]; cbn [map_err]; [|naive_solver].
  destruct ((now <? nb) || (ea <? now)) eqn:E.
  - split; [done|]. intros (? & ? & [= <-] & [= <-] & Hw). apply orb_true_iff in E as [E|E]; breflect; lia.
  - breflect. split; [|done]. intros _. exists nb, ea. split_and!; [done|done|lia..].
Qed.

Lemma no_empty_tool gs :
  existsb (fun g => is_empty (g_tool g)) gs = false <-> Forall (fun g => g_tool g <> []) gs.
Proof.
  induction gs as [|g gs IH]; cbn; [split; [constructor|done]|].
  rewrite orb_false_iff, IH, Forall_cons. apply and_iff_compat_r. by destruct (g_tool g).
Qed.
End Signature.

(** ** Stand-ins for the policy layer's third-party code

    An executable reader of the grant struct with its laws, and the proof that
    the stand-in [from_slice] reads canonical text back. *)

Definition as_array (v : Value) : option (list Value) :=
  match v with VArray l => Some l | _ => None end.

Definition build_entry (v : Value) : option Grant :=
  m ← as_object v; me ← member_str "method" m; t ← member_str "tool" m;
  Some {| g_method := me; g_tool := t;
          g_arguments := match map_get (str "arguments") m with
                         | None | Some VNull => None
                         | Some a => Some a
                         end |}.

Definition build_grant_signature (m : Map) : option GrantSignature :=
  a ← member_str "alg" m; k ← member_str "key_id" m; v ← member_str "value" m;
  Some {| gs_alg := a; gs_key_id := k; gs_value := v |}.

Definition build_grant (m : Map) : option ReferenceGrant :=
  i ← member_str "issuer" m; g ← member_str "grantee" m; s ← member_str "subject" m;
  a ← member_str "audience" m; gv ← map_get (str "grants") m; items ← as_array gv;
  gs ← mapM build_entry items;
  nb ← member_str "not_before" m; ea ← member_str "expires_at" m; r ← member_str "revocation_id" m;
  sg ← nested build_grant_signature (str "signature") m;
  Some (Build_ReferenceGrant i g s a gs nb ea r sg).

Definition toy_reference_grant : Deserialize ReferenceGrant :=
  fun v => match v with
           | VObject m => match build_grant m with Some g => Ok g | None => Err (str "invalid value") end
           | _ => Err (str "invalid type")
           end.

Lemma build_entry_Some v g : build_entry v = Some g <-> grant_entry_object v g.
Proof.
  unfold build_entry, grant_entry_object. destruct v as [| | | | |m]; cbn [as_object mbind option_bind];
    try (split; [done|by intros (? & ? & _)]).
  split.
  - intros E. apply bind_iff in E as (me & Hm%member_str_Some & E). apply bind_iff in E as (t & Ht%member_str_Some & E).
    simplify_eq. exists m. split_and!; [done..|]. cbn [g_arguments].
    destruct (map_get (str "arguments") m) as [a|]; [|by left]. destruct a; try (by split). by right.
  - intros (m' & [= <-] & Hm%member_str_Some & Ht%member_str_Some & Ha). rewrite Hm. cbn [mbind option_bind].
    rewrite Ht. cbn [mbind option_bind]. f_equal. destruct g as [me t args]; cbn in *. f_equal.
    destruct args as [a|].
    + destruct Ha as [-> Hn]. by destruct a.
    + by destruct Ha as [-> | ->].
Qed.

Lemma build_grant_signature_Some m s : build_grant_signature m = Some s <-> grant_signature_object m s.
Proof.
  unfold build_grant_signature, grant_signature_object. rewrite <- !member_str_Some. destruct s; cbn.
  split.
  - intros E. repeat (apply bind_iff in E as (? & -> & E)). by simplify_eq.
  - by intros (-> & -> & ->).
Qed.

Lemma build_grant_Some m g : build_grant m = Some g <-> grant_object m g.
Proof.
  unfold build_grant, grant_object, grant_claims.
  rewrite <- (nested_Some _ _ _ _ _ build_grant_signature_Some), <- !member_str_Some.
  destruct g as [i gr s a gs nb ea r sg]; cbn [issuer grantee subject rg_audience grants not_before
    rg_expires_at revocation_id rg_signature]. split.
  - intros E. do 4 (apply bind_iff in E as (? & -> & E)). apply bind_iff in E as (gv & Hg & E).
    apply bind_iff in E as (items & Hi & E). destruct gv; simplify_eq.
    apply bind_iff in E as (gs' & Hm & E). do 4 (apply bind_iff in E as (? & -> & E)).
    injection E as -> -> -> -> -> -> -> -> ->. split_and!; try done. exists items. cbn in Hi. simplify_eq.
    split; [done|]. apply mapM_Some in Hm. eapply Forall2_impl; [exact Hm|]. intros ??. by apply build_entry_Some.
  - intros ((-> & -> & -> & -> & -> & -> & ->) & (items & -> & Hm) & ->). cbn [mbind option_bind as_array].
    rewrite (proj2 (mapM_Some _ _ gs)); [done|]. eapply Forall2_impl; [exact Hm|].
    intros ??. by apply build_entry_Some.
Qed.

Lemma toy_grant_laws : @GrantLaws toy_reference_grant.
Proof.
  split; intros m g; unfold from_value, toy_reference_grant.
  - destruct (build_grant m) as [g'|] eqn:E; [|done]. intros [= <-]. apply build_grant_Some in E as (? & _ & ?).
    split; [done|]. by apply nested_object_when.
  - intros _ Hg. apply build_grant_Some in Hg. by rewrite Hg.
Qed.

(** ** Canonical text read back *)

Lemma from_serde_of_integer i :
  - MAX_SAFE_INTEGER <= i <= MAX_SAFE_INTEGER ->
  from_serde_number (if i <? 0 then NegInt i else PosInt i) = Ok (JInteger i).
Proof.
  intros Hi. assert (Hc : check_safe_integer i = Ok tt) by (unfold check_safe_integer; by zguard).
  unfold from_serde_number. destruct (i <? 0) eqn:E; cbn [as_i64]; [by rewrite Hc|].
  rewrite (proj2 (Z.leb_le i I64_MAX)) by (unfold MAX_SAFE_INTEGER, I64_MAX in *; lia). by rewrite Hc.
Qed.

Lemma from_serde_of_jcs room j : jcs_wf room j -> from_serde_value_at room (of_jcs j) = Ok j.
Proof.
  revert j; induction room as [|room IH]; intros j Hj; inversion Hj as [| |? i Hi| |? l Hl|? m Hd Hs Hm]; subst;
    cbn [of_jcs from_serde_value_at]; try done; try by apply from_serde_of_integer.
  - rewrite (proj2 (map_result_Ok _ _ l)); [done|]. apply Forall2_fmap_l, Forall_Forall2_diag.
    eapply Forall_impl; [exact Hl|]. auto.
  - rewrite (proj2 (map_result_on_member _ _ m)); [done|]. apply Forall2_fmap_l, Forall_Forall2_diag.
    eapply Forall_impl; [exact Hm|]. intros [k v]; cbn. auto.
Qed.

#[local] Opaque from_serde_value_at canonicalize_value write_value parse.

Lemma canon_idemp j : jcs_wf MAX_PARSE_DEPTH j -> canon (canon j) = canon j.
Proof.
  intros Hj. destruct (canonicalize_value_ok j Hj) as (t & _ & E).
  eapply canonicalize_value_inj; [by apply canon_wf|exact Hj| |exact E].
  by rewrite canonicalize_value_canon.
Qed.

Lemma toy_serde_json_reads : @SerdeJsonReads toy_serde_json.
Proof.
  split. intros v j0 bs Wv _ Hc. unfold canonicalize_json_value, from_serde_value in Hc.
  destruct (from_serde_value_at MAX_PARSE_DEPTH v) as [j|] eqn:Ej; [|discriminate Hc].
  pose proof (from_serde_value_wf _ _ _ Wv Ej) as Jw.
  destruct (canonicalize_value_ok j Jw) as (t & Ht & Ec). rewrite Hc in Ec. injection Ec as ->.
  pose proof (canon_wf _ _ Jw) as Cw. pose proof (of_jcs_wf _ _ Cw) as Ow.
  exists (of_jcs (canon j)). split; [|split; [exact Ow|]].
  - unfold from_slice, toy_serde_json. by rewrite (parse_written _ _ Ht).
  - eapply canon_value_equiv; [exact Wv|exact Ow|exact Ej|by apply from_serde_of_jcs|].
    symmetry. by apply canon_idemp.
Qed.

(** Importing [ToyPolicy] makes them the implementations in use. *)
Module ToyPolicy.
#[export] Existing Instance toy_reference_grant.
#[export] Existing Instance toy_grant_laws.
#[export] Existing Instance toy_serde_json_reads.
End ToyPolicy.

(** ** A sample grant and request *)
Section Samples.
Import Toy ToyPolicy.

Definition sample_issuer_key : SigningKey := {| sk_inner := false |}.

Definition sample_operation : GrantedOperation :=
  {| op_method := str "tools/call"; op_tool := str "read";
     op_arguments := Some (VObject [(str "path", VString (str "x"))]) |}.

Definition sample_spec : ReferenceGrantSpec :=
  {| spec_issuer := str "did:iss"; spec_grantee := str "did:a"; spec_subject := str "user:u";
     spec_audience := str "did:srv"; spec_operations := [sample_operation];
     spec_not_before := str "2024-01-01T00:00:00Z"; spec_expires_at := str "2024-01-02T00:00:00Z";
     spec_revocation_id := str "r1" |}.

Definition sample_artifact : bytes := Eval vm_compute in
  match mint_reference_grant sample_spec sample_issuer_key (str "i1") with Ok bs => bs | Err _ => [] end.

Definition sample_policy_params : Value :=
  VObject [(str "_meta", VObject [(AUTHORIZATION_META_KEY, VObject
             [(str "artifact", VString (b64url_encode sample_artifact));
              (str "profile", VString REFERENCE_PROFILE_ID)])]);
           (str "arguments", VObject [(str "n", VNumber (PosInt 1)); (str "path", VString (str "x"))]);
           (str "name", VString (str "read"))].

Definition sample_policy_request : Value :=
  VObject [(str "method", VString (str "tools/call")); (str "params", sample_policy_params)].

Definition sample_verified : VerifiedRequest := {|
  vr_verified_signer := str "did:a"; vr_key_id := str "k1"; vr_on_behalf_of := str "user:u";
  vr_audience := str "did:srv"; vr_authorization := Draft01Hash (sha256_hash_id sample_artifact);
  vr_request_hash := str "sha256:aa"; vr_nonce := str "n1"; vr_issued_at := str "2024-01-01T00:00:00Z";
  vr_expires_at := str "2024-01-01T00:05:00Z"; vr_canonicalization_id := None |}.

Definition sample_issuers : TrustResolver :=
  in_memory_resolve (resolver_insert in_memory_resolver_new (str "did:iss") (str "i1")
    (public_key sample_issuer_key)).

Definition sample_revocation : RevocationSource := in_memory_revocation_status in_memory_revocation_new.
End Samples.
