(* ===== verification/PolicyTheorems.v ===== *)
(** * The authorization policy layer: theorems

    Exact conditions for [Allow] by the reference profile and by the
    evaluator, and that grants minted by [mint_reference_grant] are honoured
    within their scope. *)

From S2P Require Import Prelude Utf8 Errors Json Canonical CanonicalParse.
From S2P Require Import CanonicalRound Signing Time Crypto Envelope Instances Constraints Resolver.
From S2P Require Import Pipeline PipelineSpec Unwrap Policy PolicySpec.

Section Reference.
Context `{SJ : SerdeJson, SJL : !SerdeJsonLaws, B64 : !Base64, SH : !Sha2, DK : !Dalek}.
Context `{DG : !Deserialize ReferenceGrant}.

Lemma reference_evaluate_inner_Ok bs verified request resolver revocation now u :
  reference_evaluate_inner bs verified request resolver revocation now = Ok u <->
  exists canon artifact grant, canonicalize bs = Ok canon /\ from_slice canon = Some artifact /\
    from_value artifact = Ok grant /\ grant_valid artifact grant verified request resolver revocation now.
Proof.
  unfold reference_evaluate_inner, grant_valid. destruct u. split.
  - intros Hok. destruct (canonicalize bs) as [canon|]; [|done]. cbn [map_err] in Hok.
    destruct (from_slice canon) as [artifact|] eqn:Ef; [|done]. cbn [ok_or] in Hok.
    destruct (from_value artifact) as [grant|] eqn:Eg; [|done]. cbn [map_err] in Hok.
    destruct (verify_issuer_signature _ _ _) eqn:Es; [|done].
    apply verify_issuer_signature_Ok in Es; [|by eapply from_slice_wf].
    case_bool_decide; [|done]. case_bool_decide; [|done]. case_bool_decide; [|done]. cbn [negb] in Hok.
    destruct (check_window grant now) eqn:Ew; [|done]. apply check_window_Ok in Ew.
    destruct (revocation (revocation_id grant)) as [[]|] eqn:Er; try done.
    destruct (existsb _ _) eqn:Ee; [done|]. apply no_empty_tool in Ee.
    destruct (check_scope grant request) eqn:Ec; [|done]. apply check_scope_Ok in Ec.
    exists canon, artifact, grant. done.
  - intros (canon & artifact & grant & -> & Hf & Hg & Hs & H1 & H2 & H3 & Hw & Hr & He & Hc).
    cbn [map_err]. rewrite Hf. cbn [ok_or]. rewrite Hg. cbn [map_err].
    rewrite (proj2 (verify_issuer_signature_Ok _ _ _ tt (from_slice_wf _ _ Hf)) Hs).
    rewrite (bool_decide_eq_true_2 _ H1), (bool_decide_eq_true_2 _ H2), (bool_decide_eq_true_2 _ H3).
    rewrite (proj2 (check_window_Ok _ _ tt) Hw), Hr, (proj2 (no_empty_tool _) He).
    by rewrite (proj2 (check_scope_Ok _ _ tt) Hc).
Qed.

Lemma reference_authorize_allow bs verified request resolver revocation now :
  reference_authorize bs verified request resolver revocation now = Allow <->
  exists canon artifact grant, canonicalize bs = Ok canon /\ from_slice canon = Some artifact /\
    from_value artifact = Ok grant /\ grant_valid artifact grant verified request resolver revocation now.
Proof.
  unfold reference_authorize. rewrite <- (reference_evaluate_inner_Ok _ _ _ _ _ _ tt).
  destruct (reference_evaluate_inner _ _ _ _ _ _) as [[]|]; naive_solver.
Qed.

(** C13: The reference profile allows exactly the valid grants: the artifact is
    JCS-safe, it is signed by the key enrolled for its issuer over its
    canonical form, it names this signer, subject and audience, [now] is
    inside its window, it is affirmatively not revoked, no granted target is
    blank, and some granted operation matches the request's method, target
    and constrained arguments.  Every other outcome is a denial. *)
Theorem reference_authorize_exact bs verified request resolver revocation now :
  reference_authorize bs verified request resolver revocation now = Allow <->
  exists canon artifact grant, canonicalize bs = Ok canon /\ from_slice canon = Some artifact /\
    from_value artifact = Ok grant /\ grant_valid artifact grant verified request resolver revocation now.
Proof. apply reference_authorize_allow. Qed.
End Reference.

Section Evaluator.
Context `{SJ : SerdeJson, B64 : !Base64, SH : !Sha2, DK : !Dalek}.

(** The evidence of the verified request that an artifact's hash must match. *)
Definition hash_bound (auth : VerifiedAuthorization) (expected : rstr) : Prop :=
  match auth with
  | Draft01Hash h => expected = h
  | Draft02Binding (OpaqueBytes _ dv) =>
      (match strip_prefix (str "sha256:") expected with Some t => t | None => expected end) = dv
  | Draft02Binding (AuthzSystemReference _ _ _ _ _) => False
  end.

(** The profile path: the block's profile is registered, its artifact hashes
    to the bound evidence, and the profile allows. *)
Definition artifact_allows (e : PolicyEvaluator) (verified : VerifiedRequest) (request : Value)
    (resolver : TrustResolver) (revocation : RevocationSource) (now : Z) : Prop :=
  exists block p bs expected, extract_authorization_block request = Ok block /\
    profiles e !! profile block = Some p /\ base64_decode (artifact_b64url block) = Some bs /\
    expected_authorization_hash p bs = Ok expected /\ hash_bound (vr_authorization verified) expected /\
    authorize p bs verified request resolver revocation now = Allow.

(** The reference path: a resolver for the bound system allows. *)
Definition reference_allows (e : PolicyEvaluator) (verified : VerifiedRequest) (request : Value)
    (resolver : TrustResolver) (revocation : RevocationSource) (now : Z) : Prop :=
  exists sys sch rv da dv r,
    vr_authorization verified = Draft02Binding (AuthzSystemReference sys sch rv da dv) /\
    reference_resolvers e !! sys = Some r /\
    authorize_reference r (AuthzSystemReference sys sch rv da dv) verified request resolver revocation now = Allow.

Lemma evaluate_artifact_binding_allow e request verified resolver revocation now check :
  evaluate_artifact_binding e request verified resolver revocation now check = Ok Allow <->
  exists block p bs expected, extract_authorization_block request = Ok block /\
    profiles e !! profile block = Some p /\ base64_decode (artifact_b64url block) = Some bs /\
    expected_authorization_hash p bs = Ok expected /\ check expected = Ok tt /\
    authorize p bs verified request resolver revocation now = Allow.
Proof.
  unfold evaluate_artifact_binding, decoded_artifact, b64url_decode. split.
  - intros Hok. destruct (extract_authorization_block request) as [block|]; [|done].
    destruct (profiles e !! profile block) as [p|] eqn:Ep; [|done]. cbn [ok_or] in Hok.
    destruct (base64_decode (artifact_b64url block)) as [bs|] eqn:Eb; [|done]. cbn [ok_or map_err] in Hok.
    destruct (expected_authorization_hash p bs) as [expected|] eqn:Ex; [|done].
    destruct (check expected) as [[]|] eqn:Ec; [|done]. simplify_eq.
    exists block, p, bs, expected. split_and!; congruence.
  - intros (block & p & bs & expected & -> & Hp & Hb & Hx & Hc & Ha). rewrite Hp. cbn [ok_or].
    rewrite Hb. cbn [ok_or map_err]. by rewrite Hx, Hc, Ha.
Qed.

Lemma check_result (P : Prop) `{!Decision P} (e : PolicyError) :
  (if bool_decide P then Ok tt else Err e) = @Ok unit PolicyError tt <-> P.
Proof. case_bool_decide; naive_solver. Qed.

(** C14: The evaluator allows exactly bound evidence: a draft-01 or opaque-bytes
    request is allowed iff the profile named in its authorization block is
    registered, the hash that profile computes of the carried artifact is the
    one Core verified under the signature, and the profile allows; an
    authz-system-reference is allowed iff a resolver registered for that
    system allows.  No other form of evidence, and no missing registration,
    yields [Allow]. *)
Theorem evaluate_allow_exact e verified request resolver revocation now :
  evaluate e verified request resolver revocation now = Allow <->
  artifact_allows e verified request resolver revocation now \/
  reference_allows e verified request resolver revocation now.
Proof.
  unfold evaluate, evaluate_inner, artifact_allows, reference_allows.
  destruct (vr_authorization verified) as [h|[da dv|sys sch rv da dv]] eqn:Ea; cbn [hash_bound].
  - transitivity (evaluate_artifact_binding e request verified resolver revocation now
      (fun expected => if bool_decide (expected = h) then Ok tt else Err AuthorizationHashMismatch) = Ok Allow).
    { destruct (evaluate_artifact_binding _ _ _ _ _ _ _); naive_solver. }
    rewrite evaluate_artifact_binding_allow. setoid_rewrite check_result. split; [by left|].
    intros [?|(? & ? & ? & ? & ? & ? & ? & _)]; done.
  - match goal with |- context [evaluate_artifact_binding _ _ _ _ _ _ ?c] =>
      transitivity (evaluate_artifact_binding e request verified resolver revocation now c = Ok Allow) end.
    { destruct (evaluate_artifact_binding _ _ _ _ _ _ _); naive_solver. }
    rewrite evaluate_artifact_binding_allow. setoid_rewrite check_result. split; [by left|].
    intros [?|(? & ? & ? & ? & ? & ? & ? & _)]; done.
  - split.
    + intros Hok. right. destruct (reference_resolvers e !! sys) as [r|] eqn:Er; [|done]. cbn [ok_or] in Hok.
      exists sys, sch, rv, da, dv, r. done.
    + intros [(b & p & bs & x & ? & ? & ? & ? & [] & ?)|(sys' & sch' & rv' & da' & dv' & r & [= <- <- <- <- <-] & Hr & Ha)].
      rewrite Hr. cbn [ok_or]. done.
Qed.
End Evaluator.

(** What a request allowed by the reference profile has behind it: when an
    evaluator knows only the reference profile, an allowed draft-01 request
    carries an artifact whose canonical bytes hash to the [authorization_hash]
    that Core verified under the request signature, and that artifact is a
    valid grant: issuer-signed, for this signer, subject and audience, in its
    window, not revoked and in scope. *)
Theorem reference_evaluation_sound
    `{SJ : SerdeJson, SJL : !SerdeJsonLaws, B64 : !Base64, SH : !Sha2, DK : !Dalek,
      DG : !Deserialize ReferenceGrant}
    verified request resolver revocation now h :
  vr_authorization verified = Draft01Hash h ->
  evaluate (register evaluator_new ReferenceProfile) verified request resolver revocation now = Allow ->
  exists block bs canon artifact grant,
    extract_authorization_block request = Ok block /\ profile block = REFERENCE_PROFILE_ID /\
    base64_decode (artifact_b64url block) = Some bs /\ canonicalize bs = Ok canon /\
    h = sha256_hash_id canon /\ from_slice canon = Some artifact /\ from_value artifact = Ok grant /\
    grant_valid artifact grant verified request resolver revocation now.
Proof.
  intros Hh Hev. unfold evaluate in Hev.
  destruct (evaluate_inner _ _ _ _ _ _) as [d|] eqn:Ei; [|done]. subst d.
  unfold evaluate_inner in Ei. rewrite Hh in Ei.
  apply evaluate_artifact_binding_allow in Ei as (block & p & bs & expected & Hb & Hp & Hd & Hx & Hc & Ha).
  cbn in Hp. rewrite lookup_insert_Some in Hp. destruct Hp as [[Hid <-]|[_ Hp]]; [|by rewrite lookup_empty in Hp].
  cbn in Hx, Ha. unfold reference_authorize in Ha.
  destruct (reference_evaluate_inner _ _ _ _ _ _) eqn:Er; [|done].
  apply reference_evaluate_inner_Ok in Er as (canon & artifact & grant & Hcan & Hf & Hg & Hv).
  unfold reference_expected_hash in Hx. rewrite Hcan in Hx. cbn in Hx. simplify_eq.
  apply check_result in Hc. exists block, bs, canon, artifact, grant. split_and!; congruence.
Qed.

Import Toy ToyPolicy.

Lemma reference_authorize_exact_witness :
  exists canon artifact grant, canonicalize sample_artifact = Ok canon /\ from_slice canon = Some artifact /\
    from_value artifact = Ok grant /\
    grant_valid artifact grant sample_verified sample_policy_request sample_issuers sample_revocation 1704067300.
Proof. apply reference_authorize_exact. vm_compute. reflexivity. Defined.

