(* ===== verification/PolicyMint.v ===== *)
(** * Minted grants are honoured

    The artifact [mint_reference_grant] builds, read back by the profile: the
    canonical bytes survive the profile's own canonicalization, the value
    [serde_json] reads is the minted one up to member order, and the issuer
    signature verifies over its preimage. *)

From S2P Require Import Prelude Utf8 Errors Json Canonical CanonicalParse.
From S2P Require Import CanonicalRound Signing Values Time Crypto Envelope Instances Constraints Resolver.
From S2P Require Import Pipeline PipelineSpec Unwrap Policy PolicySpec.
From S2P Require Import PolicyTheorems.

(** ** The minted artifact *)

Definition op_wf (op : GrantedOperation) : Prop :=
  str_wf (op_method op) /\ str_wf (op_tool op) /\
  match op_arguments op with Some a => value_wf a /\ a <> VNull | None => True end.

Definition spec_wf (spec : ReferenceGrantSpec) (kid : rstr) : Prop :=
  str_wf (spec_issuer spec) /\ str_wf (spec_grantee spec) /\ str_wf (spec_subject spec) /\
  str_wf (spec_audience spec) /\ Forall op_wf (spec_operations spec) /\ str_wf (spec_not_before spec) /\
  str_wf (spec_expires_at spec) /\ str_wf (spec_revocation_id spec) /\ str_wf kid.

Lemma grant_entry_alt op :
  grant_entry op = json_object
    ([(str "method", VString (op_method op)); (str "tool", VString (op_tool op))] ++
     match op_arguments op with Some a => [(str "arguments", a)] | None => [] end).
Proof. unfold grant_entry. by destruct (op_arguments op). Qed.

Lemma grant_entry_wf op : op_wf op -> value_wf (grant_entry op).
Proof.
  intros (Hm & Ht & Ha). rewrite grant_entry_alt. apply value_wf_json_object. apply Forall_app. split.
  - rewrite !Forall_cons, Forall_nil. split_and!; cbn [fst snd]; solve_str_wf.
  - destruct (op_arguments op) as [a|]; [|constructor].
    apply Forall_singleton. split; [solve_str_wf|by destruct Ha].
Qed.

Lemma unsigned_artifact_wf spec kid : spec_wf spec kid -> value_wf (unsigned_artifact spec kid).
Proof.
  intros (H1 & H2 & H3 & H4 & Hops & H5 & H6 & H7 & H8). apply value_wf_json_object.
  rewrite !Forall_cons, Forall_nil. split_and!; cbn [fst snd];
    try solve_str_wf.
  - constructor. apply Forall_fmap. eapply Forall_impl; [exact Hops|]. intros op. apply grant_entry_wf.
  - apply value_wf_json_object. rewrite !Forall_cons, Forall_nil. split_and!; cbn [fst snd];
      solve_str_wf.
Qed.

Definition unsigned_signature (kid : rstr) : Map :=
  foldl (fun m kv => map_insert kv.1 kv.2 m) [] [(str "alg", VString SIG_ALG_ED25519); (str "key_id", VString kid)].

Lemma unsigned_signature_get spec kid :
  get (str "signature") (unsigned_artifact spec kid) = Some (VObject (unsigned_signature kid)).
Proof. unfold unsigned_artifact. by rewrite json_object_get. Qed.

Lemma update_member_compose k f g v :
  update_member k g (update_member k f v) = update_member k (fun x => g (f x)) v.
Proof. destruct v; cbn; try done. by rewrite map_alter_compose. Qed.

Lemma set_signature_value_get artifact value k :
  get k (set_signature_value artifact value) =
  if bool_decide (str "signature" = k)
  then (fun sig => match sig with VObject m => VObject (map_insert (str "value") (VString value) m) | v => v end)
         <$> get k artifact
  else get k artifact.
Proof.
  unfold set_signature_value. destruct artifact as [| | | | |m]; cbn; try by case_bool_decide.
  rewrite map_get_alter. case_bool_decide; [done|]. by destruct (map_get k m).
Qed.

(** Deleting the signature value of the signed artifact gives back the unsigned one. *)
Lemma minted_preimage artifact sg value :
  get (str "signature") artifact = Some (VObject sg) -> map_get (str "value") sg = None ->
  value_equiv (delete_path [str "signature"; str "value"] (set_signature_value artifact value)) artifact.
Proof.
  intros Hs Hn. unfold set_signature_value.
  change (delete_path [str "signature"; str "value"]) with
    (update_member (str "signature") (remove_member (str "value"))).
  rewrite update_member_compose. destruct artifact as [| | | | |m]; try done. cbn in Hs |- *.
  constructor. intros k. rewrite map_get_alter. case_bool_decide as Hk.
  - subst. rewrite Hs. cbn. constructor. constructor. intros k. rewrite map_get_remove, map_get_insert.
    case_bool_decide; [subst; rewrite Hn; constructor|].
    destruct (map_get k sg); constructor. apply value_equiv_refl.
  - destruct (map_get k m); cbn; constructor. apply value_equiv_refl.
Qed.

Lemma set_signature_value_wf artifact value :
  value_wf artifact -> str_wf value -> value_wf (set_signature_value artifact value).
Proof.
  intros W Hv. unfold set_signature_value. apply value_wf_update; [done|].
  intros [| | | | |m] Wm; try done. apply value_wf_object in Wm as Hm. destruct Hm as (Hd & Hs & Hg).
  apply value_wf_members; [by apply map_insert_NoDup|].
  assert (H : Forall (fun kv => str_wf kv.1 /\ value_wf kv.2) m).
  { apply Forall_forall. intros [k v] Hin. split.
    - eapply (Forall_forall _ m.*1); [exact Hs|]. apply list_elem_of_fmap. by exists (k, v).
    - eapply Hg. by apply map_get_elem. }
  apply (json_object_members_wf [(str "value", VString value)] m); [|done].
  apply Forall_singleton. cbn [fst snd]. split; solve_str_wf.
Qed.

(** ** Nesting *)

Lemma set_signature_value_nesting n artifact value :
  (2 <= n)%nat -> is_ok (from_serde_value_at n artifact) = true ->
  is_ok (from_serde_value_at n (set_signature_value artifact value)) = true.
Proof.
  destruct n as [|[|room]]; [lia..|]. intros _ Ha. destruct artifact as [| | | | |m]; try done. unfold set_signature_value, update_member.
  rewrite from_serde_object_ok in *. unfold map_alter. apply Forall_fmap.
  eapply Forall_impl; [exact Ha|]. intros [k v] Hv. cbn [fst snd compose] in *.
  unfold compose. cbn [fst snd]. case_bool_decide; cbn [snd]; [|done].
  destruct v as [| | | | |sg]; try done. rewrite from_serde_object_ok in *.
  unfold map_insert. destruct (map_contains_key _ sg).
  - unfold map_alter. apply Forall_fmap. eapply Forall_impl; [exact Hv|]. intros [k' v'] Hv'.
    unfold compose; cbn. by case_bool_decide; destruct room.
  - rewrite map_place_perm. constructor; [by destruct room|done].
Qed.

(** ** Reading the minted artifact back *)

(** A grant whose entries are the operations, arguments up to member order. *)
Definition entry_of (op : GrantedOperation) (g : Grant) : Prop :=
  g_method g = op_method op /\ g_tool g = op_tool op /\
  option_Forall2 value_equiv (op_arguments op) (g_arguments g).

Lemma grant_entry_read op v :
  op_wf op -> value_equiv (grant_entry op) v -> exists g, grant_entry_object v g /\ entry_of op g.
Proof.
  intros (_ & _ & Hargs) Hq. rewrite grant_entry_alt in Hq.
  destruct (value_equiv_is_object _ _ Hq eq_refl) as [m ->].
  assert (Hget : forall k x, map_get k (reverse ([(str "method", VString (op_method op)); (str "tool", VString (op_tool op))] ++
      match op_arguments op with Some a => [(str "arguments", a)] | None => [] end)) = Some x ->
      exists y, map_get k m = Some y /\ value_equiv x y).
  { intros k x Hk. rewrite <- json_object_get in Hk. exact (value_equiv_get _ _ _ _ Hq Hk). }
  assert (Hm : map_get (str "method") m = Some (VString (op_method op))).
  { destruct (Hget (str "method") (VString (op_method op))) as (y & Hy & ->%value_equiv_string); [|done].
    by destruct (op_arguments op). }
  assert (Ht : map_get (str "tool") m = Some (VString (op_tool op))).
  { destruct (Hget (str "tool") (VString (op_tool op))) as (y & Hy & ->%value_equiv_string); [|done].
    by destruct (op_arguments op). }
  destruct (op_arguments op) as [a|] eqn:Ea.
  - destruct (Hget (str "arguments") a) as (y & Hy & Hqa); [done|].
    exists {| g_method := op_method op; g_tool := op_tool op; g_arguments := Some y |}. split.
    + exists m. split_and!; [done..|]. cbn. split; [done|]. intros ->. destruct Hargs as [_ Hn].
      by inversion Hqa; subst.
    + split_and!; [done..|]. rewrite Ea. by constructor.
  - exists {| g_method := op_method op; g_tool := op_tool op; g_arguments := None |}. split.
    + exists m. split_and!; [done..|]. cbn. left.
      inversion Hq as [| | | | |m0 m0' Hmm]; subst. specialize (Hmm (str "arguments")).
      by inversion Hmm.
    + split_and!; [done..|]. rewrite Ea. constructor.
Qed.

Lemma grant_entries_read ops items :
  Forall op_wf ops -> Forall2 value_equiv (grant_entry <$> ops) items ->
  exists gs, Forall2 grant_entry_object items gs /\ Forall2 entry_of ops gs.
Proof.
  intros Hops; revert items. induction Hops as [|op ops Hop _ IH]; intros items Hq; cbn in Hq;
    inversion Hq as [|? y ? items' Hy Hl]; subst; [by exists []|].
  destruct (grant_entry_read _ _ Hop Hy) as (g & ? & ?). destruct (IH _ Hl) as (gs & ? & ?).
  exists (g :: gs). split; by constructor.
Qed.

(** The grant a value equal to the signed artifact up to member order deserializes to. *)
Definition grant_of (spec : ReferenceGrantSpec) (kid value : rstr) (gs : list Grant) : ReferenceGrant := {|
  issuer := spec_issuer spec; grantee := spec_grantee spec; subject := spec_subject spec;
  rg_audience := spec_audience spec; grants := gs; not_before := spec_not_before spec;
  rg_expires_at := spec_expires_at spec; revocation_id := spec_revocation_id spec;
  rg_signature := {| gs_alg := SIG_ALG_ED25519; gs_key_id := kid; gs_value := value |} |}.

Lemma minted_read spec kid value v :
  spec_wf spec kid -> value_equiv (set_signature_value (unsigned_artifact spec kid) value) v ->
  exists m gs, v = VObject m /\ grant_object m (grant_of spec kid value gs) /\
    Forall2 entry_of (spec_operations spec) gs.
Proof.
  intros (_ & _ & _ & _ & Hops & _) Hq.
  destruct (value_equiv_is_object _ _ Hq eq_refl) as [m ->].
  assert (Hget : forall k x, bool_decide (str "signature" = k) = false ->
      get k (unsigned_artifact spec kid) = Some x -> exists y, map_get k m = Some y /\ value_equiv x y).
  { intros k x Hk Hx. eapply (value_equiv_get _ (VObject m)); [exact Hq|].
    by rewrite set_signature_value_get, Hk. }
  assert (Hstr : forall k s, bool_decide (str "signature" = k) = false ->
      get k (unsigned_artifact spec kid) = Some (VString s) -> map_get k m = Some (VString s)).
  { intros k s Hk Hx. by destruct (Hget _ _ Hk Hx) as (y & Hy & ->%value_equiv_string). }
  destruct (Hget (str "grants") (VArray (grant_entry <$> spec_operations spec))) as (ga & Hga & Hqa);
    [done|unfold unsigned_artifact; by rewrite json_object_get|].
  inversion Hqa as [| | | |l1 items Hitems|]; subst.
  destruct (grant_entries_read _ _ Hops Hitems) as (gs & Hgs & Hent).
  exists m, gs. split; [done|]. split; [|done]. split; [|split].
  - unfold grant_claims, field, grant_of; cbn [issuer grantee subject rg_audience not_before rg_expires_at revocation_id].
    split_and!; apply Hstr; try done; unfold unsigned_artifact; by rewrite json_object_get.
  - by exists items.
  - destruct (value_equiv_get _ (VObject m) (str "signature")
      (VObject (map_insert (str "value") (VString value) (unsigned_signature kid))) Hq) as (y & Hy & Hqy).
    { rewrite set_signature_value_get, unsigned_signature_get. done. }
    cbn in Hy. inversion Hqy as [| | | | |m1 sg Hsg]; subst. exists sg. split; [done|].
    assert (Hs : forall k s, map_get k (map_insert (str "value") (VString value) (unsigned_signature kid)) = Some (VString s) ->
              map_get k sg = Some (VString s)).
    { intros k s Hk. specialize (Hsg k). rewrite Hk in Hsg. inversion Hsg as [? z Hz|]; subst.
      by apply value_equiv_string in Hz as ->. }
    unfold grant_signature_object, field; cbn [gs_alg gs_key_id gs_value rg_signature grant_of].
    split_and!; apply Hs; by rewrite map_get_insert.
Qed.

(** The request's arguments carry every constrained member of the operation. *)
Definition args_match (constraint actual : option Value) : Prop :=
  forall c, constraint = Some c -> exists cm, c = VObject cm /\
    forall k v, map_get k cm = Some v ->
      exists am w, actual = Some (VObject am) /\ map_get k am = Some w /\ value_equiv w v.

Lemma args_match_ok constraint constraint' actual :
  option_Forall2 value_equiv constraint constraint' ->
  (forall c, constraint' = Some c -> value_wf c) -> (forall a, actual = Some a -> value_wf a) ->
  args_match constraint actual -> args_ok constraint' actual.
Proof.
  intros Hq Wc Wa Hm c' ->. inversion Hq as [c ? Hcc|]; subst. destruct (Hm c eq_refl) as (cm & -> & Hcm).
  inversion Hcc as [| | | | |? cm' Hl]; subst. exists cm'. split; [done|]. intros k v' Hin.
  destruct (value_wf_object _ (Wc _ eq_refl)) as (Hd & _ & Hg).
  pose proof (map_get_elem _ _ _ Hd Hin) as Ek. specialize (Hl k). rewrite Ek in Hl.
  inversion Hl as [v ? Hv Hx|]; subst. symmetry in Hx. destruct (Hcm _ _ Hx) as (am & w & -> & Hw & Hwv).
  exists am, w. split_and!; [done|done|]. apply value_equiv_eqb; [|by eapply Hg|by eapply value_equiv_trans].
  destruct (value_wf_object _ (Wa _ eq_refl)) as (_ & _ & Hga). by eapply Hga.
Qed.

Lemma grant_arguments_wf m grant g c :
  value_wf (VObject m) -> grant_object m grant -> g ∈ grants grant -> g_arguments g = Some c -> value_wf c.
Proof.
  intros W (_ & (items & Hi & Hall) & _) Hin Hc. apply list_elem_of_lookup in Hin as [i Hgi].
  destruct (Forall2_lookup_r _ _ _ _ _ Hall Hgi) as (item & Hit & m' & -> & _ & _ & Ha).
  rewrite Hc in Ha. destruct Ha as [Ha _].
  destruct (value_wf_object _ W) as (_ & _ & Hg). pose proof (Hg _ _ Hi) as Wa.
  inversion Wa as [| | | | | |? Wl|]; subst. eapply Forall_lookup_1 in Wl; [|exact Hit].
  destruct (value_wf_object _ Wl) as (_ & _ & Hg'). by eapply Hg'.
Qed.

Lemma params_member_wf request params k a :
  value_wf request -> get (str "params") request = Some params -> get k params = Some a -> value_wf a.
Proof.
  intros W Hp Ha. destruct request as [| | | | |rm]; try done. destruct (value_wf_object _ W) as (_ & _ & Hwr).
  pose proof (Hwr _ _ Hp) as Wp. destruct params as [| | | | |pm]; try done.
  destruct (value_wf_object _ Wp) as (_ & _ & Hwp). by eapply Hwp.
Qed.

#[local] Opaque from_serde_value_at canonicalize_json_value unsigned_artifact set_signature_value.

Section Mint.
Context `{SJ : SerdeJson, SJR : !SerdeJsonReads, B64 : !Base64, SH : !Sha2, DK : !Dalek}.
Context `{BL : !Base64Laws, DL : !DalekLaws, DG : !Deserialize ReferenceGrant, GL : !GrantLaws}.

(** What the profile reads from minted bytes. *)
Lemma minted_bytes_read spec kid key bs :
  spec_wf spec kid ->
  is_ok (from_serde_value_at SERDE_MAX_NESTING (unsigned_artifact spec kid)) = true ->
  mint_reference_grant spec key kid = Ok bs ->
  exists pre m gs, canonicalize bs = Ok bs /\ from_slice bs = Some (VObject m) /\ value_wf (VObject m) /\
    canonicalize_json_value (delete_path [str "signature"; str "value"] (VObject m)) = Ok pre /\
    grant_object m (grant_of spec kid (sign key pre) gs) /\ Forall2 entry_of (spec_operations spec) gs /\
    Forall (fun op => op_tool op <> []) (spec_operations spec).
Proof.
  intros Hspec Hnest Hmint. unfold mint_reference_grant in Hmint.
  destruct (existsb _ _) eqn:Hempty; [discriminate Hmint|].
  destruct (canonicalize_json_value (unsigned_artifact spec kid)) as [pre|] eqn:Hpre; [|discriminate Hmint].
  cbn [map_err] in Hmint. set (value := sign key pre) in *. apply map_err_Ok in Hmint.
  pose proof (unsigned_artifact_wf _ _ Hspec) as Wu.
  assert (Wv : str_wf value) by apply base64_encode_wf, dalek_sign_wf.
  pose proof (set_signature_value_wf _ _ Wu Wv) as Ws.
  apply (set_signature_value_nesting _ _ value) in Hnest; [|unfold SERDE_MAX_NESTING; lia].
  destruct (from_serde_value_at _ (set_signature_value _ _)) as [j|] eqn:Ej; [|discriminate Hnest].
  destruct (from_slice_canonical _ _ _ Ws Ej Hmint) as (v & Hv & Wvv & Hq).
  destruct (minted_read _ _ _ _ Hspec Hq) as (m & gs & -> & Hgo & Hent).
  pose proof (minted_preimage _ _ value (unsigned_signature_get spec kid) eq_refl) as Hmp.
  exists pre, m, gs. split; [exact (canonicalize_of_json _ _ Ws Hmint)|].
  split; [exact Hv|]. split; [exact Wvv|]. split; [|split; [exact Hgo|split; [exact Hent|]]].
  - apply (canonicalize_json_value_equiv (unsigned_artifact spec kid));
      [exact Wu|apply value_wf_delete_path; exact Wvv|exact Hpre|].
    eapply value_equiv_trans; [apply value_equiv_sym; exact Hmp|apply value_equiv_delete_path; exact Hq].
  - clear - Hempty. induction (spec_operations spec) as [|op ops IH]; [constructor|].
    cbn in Hempty. apply orb_false_iff in Hempty as [Ho Hr]. constructor; [by destruct (op_tool op)|auto].
Qed.
End Mint.

(** Minted grants are honoured: the artifact bytes returned by
    [mint_reference_grant] are allowed by the reference profile for every
    request of the grantee, subject and audience it names, inside its window,
    not revoked, that asks for one of the granted operations with its
    constrained arguments, whenever the issuer's public key is enrolled. *)
Theorem mint_grant_honoured
    `{SJ : SerdeJson, SJR : !SerdeJsonReads, SJL : !SerdeJsonLaws, B64 : !Base64, SH : !Sha2, DK : !Dalek,
      BL : !Base64Laws, DL : !DalekLaws, DG : !Deserialize ReferenceGrant, GL : !GrantLaws}
    spec kid key bs verified request resolver revocation now nb ea op params :
  spec_wf spec kid -> value_wf request ->
  is_ok (from_serde_value_at SERDE_MAX_NESTING (unsigned_artifact spec kid)) = true ->
  mint_reference_grant spec key kid = Ok bs ->
  resolver (spec_issuer spec) kid = Ok (public_key key) ->
  spec_grantee spec = vr_verified_signer verified -> spec_subject spec = vr_on_behalf_of verified ->
  spec_audience spec = vr_audience verified ->
  parse_rfc3339_utc (spec_not_before spec) = Ok nb -> parse_rfc3339_utc (spec_expires_at spec) = Ok ea ->
  nb <= now <= ea -> revocation (spec_revocation_id spec) = Ok NotRevoked ->
  op ∈ spec_operations spec -> request_target request (op_method op) (op_tool op) params ->
  args_match (op_arguments op) (get (str "arguments") params) ->
  reference_authorize bs verified request resolver revocation now = Allow.
Proof.
  intros Hspec Wreq Hnest Hmint Hres Hg Hs Ha Hnb Hea Hwin Hrev Hop Htgt Hargs.
  destruct (minted_bytes_read _ _ _ _ Hspec Hnest Hmint) as (pre & m & gs & Hcan & Hsl & Wm & Hpre & Hgo & Hent & Htools).
  clear Hnest Hmint. set (grant := grant_of spec kid (sign key pre) gs) in *.
  apply reference_authorize_allow. exists bs, (VObject m), grant.
  split; [exact Hcan|]. split; [exact Hsl|].
  split; [apply grant_accepts; [by destruct (value_wf_object _ Wm)|exact Hgo]|].
  split; [|split_and!; [exact Hg|exact Hs|exact Ha|exists nb, ea; tauto|exact Hrev| |]].
  - split; [reflexivity|]. split; [destruct Hgo as (_ & _ & sg & Hsg & _); by exists sg|].
    exists pre, (public_key key), (dalek_sign (sk_inner key) pre).
    split_and!; [exact Hpre|exact Hres|apply base64_decode_encode, dalek_sign_wf|apply dalek_sign_length
                |apply dalek_verify_sign].
  - cbn [grants grant grant_of]. clear - Hent Htools. induction Hent as [|op g ops gs (_ & Ht & _) _ IH]; [constructor|].
    apply Forall_cons in Htools as [? ?]. constructor; [congruence|auto].
  - apply list_elem_of_lookup in Hop as [i Hi].
    destruct (Forall2_lookup_l _ _ _ _ _ Hent Hi) as (g & Hgi & Hgm & Hgt & Hga).
    assert (Hgin : g ∈ grants grant) by (by eapply list_elem_of_lookup_2).
    exists (op_method op), (op_tool op), params, g. split_and!; [exact Htgt|exact Hgin|exact Hgm|exact Hgt|].
    eapply args_match_ok; [exact Hga| | |exact Hargs].
    + intros c Hc. exact (grant_arguments_wf m grant g c Wm Hgo Hgin Hc).
    + intros a Hget. destruct Htgt as (key' & _ & Hp & _). exact (params_member_wf _ _ _ _ Wreq Hp Hget).
Qed.

Import Toy ToyPolicy.
