(* ===== verification/TrustCache.v ===== *)
(** * Trust propagation

    [mcps-proxy/src/trust_cache.rs], [live_trust.rs] and [push_trust.rs]: the
    three ways a sidecar consults a shared trust source.  The source is the
    argument of each call, as its answers change over time, and the injected
    clock is the [now] of the call.  A poisoned mutex is part of the state. *)

From S2P Require Import Prelude Utf8 Errors Json Canonical Signing Crypto Instances Values Resolver Unwrap Policy.

(** ** Windows *)

Definition RECOMMENDED_MAX_T_SECS : Z := 300.
Definition DEFAULT_T_SECS : Z := 60.
Definition DEFAULT_NEGATIVE_TTL_SECS : Z := 5.

Definition t_exceeds_recommended_max (t_secs : Z) : bool := RECOMMENDED_MAX_T_SECS <? t_secs.

Definition strictest_applicable_t (default_t_secs : Z) (class_windows : list Z) : Z :=
  foldl Z.min (Z.max default_t_secs 0) (filter (fun t => 0 <= t) class_windows).

(** The window is the least of the default and the non-negative class windows. *)
Lemma strictest_applicable_t_least d ws t :
  t <= strictest_applicable_t d ws <-> t <= Z.max d 0 /\ Forall (fun w => 0 <= w -> t <= w) ws.
Proof.
  unfold strictest_applicable_t. generalize (Z.max d 0). induction ws as [|w ws IH]; intros a.
  { rewrite Forall_nil. naive_solver. }
  rewrite Forall_cons, filter_cons. destruct (decide (0 <= w)); cbn [foldl]; rewrite IH; [|naive_solver lia].
  rewrite Z.min_glb_iff. naive_solver.
Qed.

Section TrustCache.
Context `{Dalek}.

(** ** Tier 1: the bounded cache *)

Inductive CachedOutcome : Type :=
| CachedActive (key : VerificationKey)
| CachedRevoked
| CachedNotFound
| CachedMalformed.

Definition to_result (o : CachedOutcome) : result VerificationKey TrustResolverError :=
  match o with
  | CachedActive key => Ok key
  | CachedRevoked => Err TrustRevoked
  | CachedNotFound => Err NotFound
  | CachedMalformed => Err MalformedKey
  end.

Record CacheEntry : Type := { ce_outcome : CachedOutcome; ce_expires_at : Z }.

(** The cache map with the poison flag of its mutex; the inner resolver and the
    clock are arguments of [bounded_resolve]. *)
Record BoundedTrustCache : Type := {
  t_secs : Z;
  negative_ttl_secs : Z;
  tc_cache : gmap rstr CacheEntry;
  tc_poisoned : bool;
}.

Definition bounded_new (t negative_ttl : Z) : BoundedTrustCache :=
  {| t_secs := Z.max t 0; negative_ttl_secs := Z.max negative_ttl 0; tc_cache := ∅; tc_poisoned := false |}.

Definition with_cache (c : BoundedTrustCache) (m : gmap rstr CacheEntry) : BoundedTrustCache :=
  {| t_secs := t_secs c; negative_ttl_secs := negative_ttl_secs c; tc_cache := m; tc_poisoned := tc_poisoned c |}.

(** [PoisonError]'s message, behind the prefix the source gives it. *)
Definition POISONED : rstr :=
  str "trust cache mutex poisoned: poisoned lock: another task failed inside".

Definition cached (c : BoundedTrustCache) (key : rstr) (now : Z)
  : option (result VerificationKey TrustResolverError) :=
  if tc_poisoned c then Some (Err (TrustUnavailable POISONED))
  else
    entry ← tc_cache c !! key;
    if now <? ce_expires_at entry then Some (to_result (ce_outcome entry)) else None.

Definition store (c : BoundedTrustCache) (key : rstr) (outcome : CachedOutcome) (now ttl : Z)
  : BoundedTrustCache :=
  if tc_poisoned c then c
  else with_cache c (<[key := {| ce_outcome := outcome; ce_expires_at := saturating_add now ttl |}]> (tc_cache c)).

Definition bounded_prune (c : BoundedTrustCache) (now : Z) : BoundedTrustCache :=
  if tc_poisoned c then c else with_cache c (filter (fun kv => now < ce_expires_at kv.2) (tc_cache c)).

Definition evict (c : BoundedTrustCache) (signer key_id : rstr) : bool * BoundedTrustCache :=
  let key := compose_key signer key_id in
  if tc_poisoned c then (false, c)
  else (bool_decide (is_Some (tc_cache c !! key)), with_cache c (delete key (tc_cache c))).

Definition bounded_resolve (inner : TrustResolver) (now : Z) (c : BoundedTrustCache) (signer key_id : rstr)
  : result VerificationKey TrustResolverError * BoundedTrustCache :=
  let key := compose_key signer key_id in
  match cached c key now with
  | Some hit => (hit, c)
  | None =>
      let result := inner signer key_id in
      (result,
       match result with
       | Ok verification_key => store c key (CachedActive verification_key) now (t_secs c)
       | Err TrustRevoked => store c key CachedRevoked now (t_secs c)
       | Err NotFound => store c key CachedNotFound now (negative_ttl_secs c)
       | Err MalformedKey => store c key CachedMalformed now (negative_ttl_secs c)
       | Err (TrustUnavailable _) => c
       end)
  end.

(** ** Tier 2: the live check *)

Record LiveTrustResolver : Type := {
  live_inner : TrustResolver;
  live_revocation : option RevocationSource;
}.

Definition live_new (inner : TrustResolver) : LiveTrustResolver :=
  {| live_inner := inner; live_revocation := None |}.

Definition with_revocation_source (inner : TrustResolver) (revocation : RevocationSource) : LiveTrustResolver :=
  {| live_inner := inner; live_revocation := Some revocation |}.

Definition resolve_with_revocation_id (l : LiveTrustResolver) (signer key_id revocation_id : rstr)
  : result VerificationKey TrustResolverError :=
  let? key := live_inner l signer key_id in
  match live_revocation l with
  | None => Ok key
  | Some revocation =>
      match revocation revocation_id with
      | Ok NotRevoked => Ok key
      | Ok Revoked => Err TrustRevoked
      | Err unavailable =>
          Err (TrustUnavailable (str "revocation source unavailable: " ++ ru_details unavailable))
      end
  end.

Definition live_resolve (l : LiveTrustResolver) : TrustResolver :=
  fun signer key_id => live_inner l signer key_id.

(** ** Tier 3: push invalidation *)

Record InvalidationEvent : Type := { ie_signer : rstr; ie_key_id : rstr }.

(** [trait InvalidationChannel] over the state of a channel. *)
Class InvalidationChannel (Ch : Type) := {
  drain_pending : Ch -> list InvalidationEvent * Ch;
  is_healthy : Ch -> bool;
}.

(** The queue and health flag, each behind its mutex. *)
Record InMemoryInvalidationChannel : Type := {
  pending : list InvalidationEvent;
  pending_poisoned : bool;
  healthy : bool;
  healthy_poisoned : bool;
}.

Definition channel_new : InMemoryInvalidationChannel :=
  {| pending := []; pending_poisoned := false; healthy := true; healthy_poisoned := false |}.

Definition push_revocation (ch : InMemoryInvalidationChannel) (signer key_id : rstr)
  : InMemoryInvalidationChannel :=
  if pending_poisoned ch then ch
  else {| pending := pending ch ++ [{| ie_signer := signer; ie_key_id := key_id |}];
          pending_poisoned := pending_poisoned ch; healthy := healthy ch;
          healthy_poisoned := healthy_poisoned ch |}.

Definition set_healthy (ch : InMemoryInvalidationChannel) (h : bool) : InMemoryInvalidationChannel :=
  if healthy_poisoned ch then ch
  else {| pending := pending ch; pending_poisoned := pending_poisoned ch; healthy := h;
          healthy_poisoned := healthy_poisoned ch |}.

Definition in_memory_drain_pending (ch : InMemoryInvalidationChannel)
  : list InvalidationEvent * InMemoryInvalidationChannel :=
  if pending_poisoned ch then ([], ch)
  else (pending ch, {| pending := []; pending_poisoned := false; healthy := healthy ch;
                       healthy_poisoned := healthy_poisoned ch |}).

Definition in_memory_is_healthy (ch : InMemoryInvalidationChannel) : bool :=
  if healthy_poisoned ch then false else healthy ch.

#[export] Instance in_memory_channel : InvalidationChannel InMemoryInvalidationChannel := {
  drain_pending := in_memory_drain_pending;
  is_healthy := in_memory_is_healthy;
}.

Context `{InvalidationChannel Ch}.

Record PushInvalidationTrustCache : Type := {
  pt_cache : BoundedTrustCache;
  pt_channel : Ch;
}.

Definition push_new (t negative_ttl : Z) (ch : Ch) : PushInvalidationTrustCache :=
  {| pt_cache := bounded_new t negative_ttl; pt_channel := ch |}.

(** The loop over the drained events, with the count of evicted entries. *)
Definition evict_all (c : BoundedTrustCache) (events : list InvalidationEvent) : nat * BoundedTrustCache :=
  foldl (fun acc ev => let (gone, c') := evict acc.2 (ie_signer ev) (ie_key_id ev) in
           ((if gone then S acc.1 else acc.1), c')) (0%nat, c) events.

Definition apply_pending_invalidations (p : PushInvalidationTrustCache) : nat * PushInvalidationTrustCache :=
  let (events, ch) := drain_pending (pt_channel p) in
  let (evicted, c) := evict_all (pt_cache p) events in
  (evicted, {| pt_cache := c; pt_channel := ch |}).

Definition push_resolve (inner : TrustResolver) (now : Z) (p : PushInvalidationTrustCache) (signer key_id : rstr)
  : result VerificationKey TrustResolverError * PushInvalidationTrustCache :=
  let p1 := (apply_pending_invalidations p).2 in
  let (r, c) := bounded_resolve inner now (pt_cache p1) signer key_id in
  (r, {| pt_cache := c; pt_channel := pt_channel p1 |}).

Definition channel_is_healthy (p : PushInvalidationTrustCache) : bool := is_healthy (pt_channel p).
End TrustCache.
Arguments PushInvalidationTrustCache {_} Ch.

(** ** Where an answer comes from *)
Section Provenance.
Context `{Dalek}.

(** A call of [resolve]: the clock, the source at that moment and the pair. *)
Record Consultation : Type := { cs_now : Z; cs_source : TrustResolver; cs_signer : rstr; cs_key_id : rstr }.

Inductive cache_op : Type :=
| OpResolve (q : Consultation)
| OpPrune (now : Z)
| OpEvict (signer key_id : rstr)
| OpPoison.

Definition cache_op_wf (o : cache_op) : Prop :=
  match o with
  | OpResolve q => str_wf (cs_signer q) /\ str_wf (cs_key_id q)
  | OpEvict s k => str_wf s /\ str_wf k
  | OpPrune _ | OpPoison => True
  end.

Definition run_cache_op (c : BoundedTrustCache) (o : cache_op) : BoundedTrustCache :=
  match o with
  | OpResolve q => (bounded_resolve (cs_source q) (cs_now q) c (cs_signer q) (cs_key_id q)).2
  | OpPrune now => bounded_prune c now
  | OpEvict s k => (evict c s k).2
  | OpPoison => {| t_secs := t_secs c; negative_ttl_secs := negative_ttl_secs c; tc_cache := tc_cache c;
                   tc_poisoned := true |}
  end.

(** How long an answer may be served. *)
Definition window (c : BoundedTrustCache) (r : result VerificationKey TrustResolverError) : Z :=
  match r with Ok _ | Err TrustRevoked => t_secs c | Err _ => negative_ttl_secs c end.

(** An answer the source gave in [ops], still in its window at [now]. *)
Definition consulted (ops : list cache_op) (c : BoundedTrustCache) (s k : rstr)
    (r : result VerificationKey TrustResolverError) (now : Z) : Prop :=
  exists q, OpResolve q ∈ ops /\ cs_signer q = s /\ cs_key_id q = k /\ cs_source q s k = r /\
    now < saturating_add (cs_now q) (window c r).

Definition entries_justified (ops : list cache_op) (c : BoundedTrustCache) : Prop :=
  forall s k e, str_wf s -> str_wf k -> tc_cache c !! compose_key s k = Some e ->
    forall now, now < ce_expires_at e -> consulted ops c s k (to_result (ce_outcome e)) now.

Definition same_windows (c c' : BoundedTrustCache) : Prop :=
  t_secs c' = t_secs c /\ negative_ttl_secs c' = negative_ttl_secs c.

Lemma consulted_mono ops o c c' s k r now :
  same_windows c c' -> consulted ops c s k r now -> consulted (ops ++ [o]) c' s k r now.
Proof.
  intros [H1 H2] (q & Hq & Hs & Hk & Hr & Hn). exists q. split_and!; try done; [set_solver|].
  unfold window in *. rewrite H1, H2. done.
Qed.

(** Keeping or dropping entries keeps the rest justified. *)
Lemma justified_subset ops o c c' :
  same_windows c c' -> entries_justified ops c -> (forall k e, tc_cache c' !! k = Some e -> tc_cache c !! k = Some e) ->
  entries_justified (ops ++ [o]) c'.
Proof. intros Hw HJ Hsub s k e Ws Wk He now Hn. eapply consulted_mono; [done|]. by eapply HJ; [..|apply Hsub|]. Qed.

(** What resolving does: an answer from the cache, or the source's answer,
    stored under its window. *)
Lemma bounded_resolve_cases inner now c s k :
  (exists r, cached c (compose_key s k) now = Some r /\ bounded_resolve inner now c s k = (r, c)) \/
  (cached c (compose_key s k) now = None /\ tc_poisoned c = false /\ exists c',
     bounded_resolve inner now c s k = (inner s k, c') /\
     (c' = c \/ exists o, to_result o = inner s k /\
        c' = with_cache c (<[compose_key s k := {| ce_outcome := o; ce_expires_at := saturating_add now (window c (inner s k)) |}]> (tc_cache c)))).
Proof.
  unfold bounded_resolve. destruct (cached c (compose_key s k) now) as [hit|] eqn:Ec; [left; eauto|right].
  assert (Hp : tc_poisoned c = false) by (unfold cached in Ec; by destruct (tc_poisoned c)).
  split_and!; [done..|]. eexists. split; [done|]. unfold store, window. rewrite Hp.
  destruct (inner s k) as [key|[| | |d]]; [right|right|right|right|by left]; eexists; (split; [|done]); done.
Qed.

Lemma cached_justified ops c s k now r :
  str_wf s -> str_wf k -> entries_justified ops c -> cached c (compose_key s k) now = Some r ->
  (tc_poisoned c = true /\ r = Err (TrustUnavailable POISONED)) \/ consulted ops c s k r now.
Proof.
  intros Ws Wk HJ. unfold cached. destruct (tc_poisoned c); [intros [= <-]; by left|right].
  revert H0. intros (e & He & Hr)%bind_Some. destruct (now <? ce_expires_at e) eqn:En; [|done]. simplify_eq. breflect.
  by eapply HJ.
Qed.

Lemma run_cache_op_justified ops c o :
  cache_op_wf o -> entries_justified ops c -> entries_justified (ops ++ [o]) (run_cache_op c o) /\ same_windows c (run_cache_op c o).
Proof.
  intros Ho HJ. destruct o as [q|t|s k|]; cbn [run_cache_op].
  - destruct (bounded_resolve_cases (cs_source q) (cs_now q) c (cs_signer q) (cs_key_id q))
      as [(r & _ & ->)|(_ & _ & c' & -> & Hc)]; cbn [snd]; [split; [by apply (justified_subset ops _ c)|done]|].
    destruct Hc as [->|(o & Ho' & ->)]; [split; [by apply (justified_subset ops _ c)|done]|]. split; [|done].
    destruct Ho as [W1 W2]. intros s k e Ws Wk He now Hn. cbn [tc_cache with_cache] in He.
    destruct (decide (compose_key (cs_signer q) (cs_key_id q) = compose_key s k)) as [E|E].
    + rewrite E, lookup_insert_eq in He. simplify_eq. cbn in *.
      apply compose_key_inj in E as [<- <-]; [|done..]. exists q. rewrite Ho'. split_and!; try done. set_solver.
    + rewrite lookup_insert_ne in He by done. eapply consulted_mono; [|by eapply HJ]. done.
  - unfold bounded_prune. destruct (tc_poisoned c); (split; [|done]); apply (justified_subset ops _ c); try done.
    intros k e. cbn [tc_cache with_cache]. rewrite map_lookup_filter_Some. naive_solver.
  - unfold evict. destruct (tc_poisoned c); (split; [|done]); apply (justified_subset ops _ c); try done.
    intros k' e. cbn [tc_cache with_cache snd]. rewrite lookup_delete_Some. naive_solver.
  - split; [|done]. by apply (justified_subset ops _ c).
Qed.

Lemma run_cache_justified ops T N :
  Forall cache_op_wf ops ->
  entries_justified ops (foldl run_cache_op (bounded_new T N) ops) /\
  same_windows (bounded_new T N) (foldl run_cache_op (bounded_new T N) ops).
Proof.
  induction ops as [|o ops IH] using rev_ind; intros Hw.
  { split; [|done]. intros s k e _ _ He. cbn in He. by rewrite lookup_empty in He. }
  apply Forall_app in Hw as [Hw Ho]. rewrite Forall_singleton in Ho. destruct (IH Hw) as [HJ HS]. rewrite foldl_app. cbn [foldl].
  destruct (run_cache_op_justified ops _ o Ho HJ) as [HJ' HS']. split; [done|]. destruct HS, HS'. split; congruence.
Qed.

(** An answer is the source's current one, an earlier one still in its
    window, or the refusal of a poisoned lock. *)
Lemma bounded_cache_provenance T N ops inner now s k :
  Forall cache_op_wf ops -> str_wf s -> str_wf k ->
  let c := foldl run_cache_op (bounded_new T N) ops in
  let r := (bounded_resolve inner now c s k).1 in
  r = inner s k \/ consulted ops (bounded_new T N) s k r now \/ r = Err (TrustUnavailable POISONED).
Proof.
  intros Hw Ws Wk c. destruct (run_cache_justified ops T N Hw) as [HJ [H1 H2]]. fold c in HJ, H1, H2.
  destruct (bounded_resolve_cases inner now c s k) as [(r & Hc & ->)|(_ & _ & c' & -> & _)]; cbn [fst]; [right|by left].
  destruct (cached_justified ops c s k now r Ws Wk HJ Hc) as [[_ ->]|(q & Hq)]; [by right|left].
  exists q. unfold window in *. by rewrite <- H1, <- H2.
Qed.

(** C18: Revocation takes effect within the window: whatever sequence of
    resolutions, prunings and evictions a bounded cache has been through, if
    the source has refused the key at every consultation since [t0] (and
    refuses it now), the cache does not resolve it at any time from
    [t0 + T] on. *)
Theorem revocation_exposure_bounded T N ops inner now t0 s k key :
  Forall cache_op_wf ops -> str_wf s -> str_wf k ->
  (forall q, OpResolve q ∈ ops -> cs_signer q = s -> cs_key_id q = k -> t0 <= cs_now q ->
     is_ok (cs_source q s k) = false) ->
  is_ok (inner s k) = false -> in_i64 now -> t0 + Z.max T 0 <= now ->
  (bounded_resolve inner now (foldl run_cache_op (bounded_new T N) ops) s k).1 <> Ok key.
Proof.
  intros Hw Ws Wk Hops Hin [Hi _] Hnow Hr.
  destruct (bounded_cache_provenance T N ops inner now s k Hw Ws Wk) as [E|[(q & Hq & Hs & Hk & E & Hn)|E]];
    rewrite Hr in *; [by rewrite <- E in Hin| |done].
  cbn [window bounded_new t_secs] in Hn. unfold saturating_add, sat_i64 in Hn.
  specialize (Hops q Hq Hs Hk). rewrite E in Hops. discriminate Hops. lia.
Qed.

(** ** Push invalidation *)

Lemma evict_lookup c s k key :
  tc_poisoned c = false -> tc_cache (evict c s k).2 !! key = (if decide (key = compose_key s k) then None else tc_cache c !! key) /\
  tc_poisoned (evict c s k).2 = false.
Proof.
  intros Hp. unfold evict. rewrite Hp. cbn [snd with_cache tc_cache tc_poisoned]. split; [|done].
  destruct (decide (key = compose_key s k)) as [->|]; [apply lookup_delete_eq|by rewrite lookup_delete_ne].
Qed.

Lemma evict_all_lookup events c n s k :
  tc_poisoned c = false ->
  let c' := (foldl (fun acc ev => let (gone, c') := evict acc.2 (ie_signer ev) (ie_key_id ev) in
               ((if gone then S acc.1 else acc.1), c')) (n, c) events).2 in
  tc_poisoned c' = false /\
  (tc_cache c !! compose_key s k = None \/ {| ie_signer := s; ie_key_id := k |} ∈ events ->
   tc_cache c' !! compose_key s k = None).
Proof.
  revert c n. induction events as [|ev events IH]; intros c n Hp; cbn [foldl].
  { split; [done|]. cbn. set_solver. }
  pose proof (evict_lookup c (ie_signer ev) (ie_key_id ev) (compose_key s k) Hp) as [Hl Hp'].
  cbn [snd fst]. destruct (evict c (ie_signer ev) (ie_key_id ev)) as [gone c1]. cbn [snd] in *.
  destruct (IH c1 (if gone then S n else n) Hp') as [H1 H2]. split; [done|]. intros Hx. apply H2.
  rewrite Hl. destruct (decide _) as [|Hne]; [by left|]. destruct Hx as [Hx|[Hx|Hx]%elem_of_cons]; [by left| |by right].
  subst ev. by destruct Hne.
Qed.

(** A pushed revocation takes effect at once: when an event for the pair
    is pending, the next resolution is answered by the source itself, whatever
    the cache held and however much of its window was left; and the answer
    cached then is that one. *)
Theorem push_invalidation_immediate `{InvalidationChannel Ch} inner now (p : PushInvalidationTrustCache Ch) s k :
  tc_poisoned (pt_cache p) = false ->
  {| ie_signer := s; ie_key_id := k |} ∈ (drain_pending (pt_channel p)).1 ->
  (push_resolve inner now p s k).1 = inner s k /\
  forall now' r, cached (pt_cache (push_resolve inner now p s k).2) (compose_key s k) now' = Some r -> r = inner s k.
Proof.
  intros Hp Hin. unfold push_resolve, apply_pending_invalidations. destruct (drain_pending (pt_channel p)) as [events ch].
  cbn [fst snd] in *. unfold evict_all. destruct (evict_all_lookup events (pt_cache p) 0 s k Hp) as [Hp' Hl].
  specialize (Hl (or_intror Hin)). destruct (foldl _ _ events) as [n c]. cbn [snd pt_cache pt_channel] in *.
  assert (Hc : forall t, cached c (compose_key s k) t = None) by (intros t; unfold cached; by rewrite Hp', Hl).
  destruct (bounded_resolve_cases inner now c s k) as [(r & Hr & _)|(_ & _ & c' & -> & Hc')]; [by rewrite Hc in Hr|].
  cbn [fst snd pt_cache]. split; [done|]. intros now' r Hr. destruct Hc' as [->|(o & Ho & ->)]; [by rewrite Hc in Hr|].
  unfold cached in Hr. cbn [tc_poisoned with_cache tc_cache] in Hr. rewrite Hp', lookup_insert_eq in Hr. cbn in Hr.
  by destruct (now' <? _); simplify_eq.
Qed.
End Provenance.

(** ** Examples *)

Import Toy.

Definition sample_pair_source (r : result VerificationKey TrustResolverError) : TrustResolver := fun _ _ => r.

Definition sample_ops : list cache_op :=
  [OpResolve {| cs_now := 100; cs_source := sample_pair_source (Ok {| vk_inner := true |});
                cs_signer := str "did:a"; cs_key_id := str "k1" |}].

(** Within the window the revoked key is still served; after it, not. *)
Example sample_exposure :
  is_ok (bounded_resolve (sample_pair_source (Err TrustRevoked)) 159 (foldl run_cache_op (bounded_new 60 5) sample_ops)
     (str "did:a") (str "k1")).1 = true /\
  is_ok (bounded_resolve (sample_pair_source (Err TrustRevoked)) 160 (foldl run_cache_op (bounded_new 60 5) sample_ops)
     (str "did:a") (str "k1")).1 = false.
Proof. split; vm_compute; reflexivity. Qed.

Lemma revocation_exposure_bounded_witness :
  (bounded_resolve (sample_pair_source (Err TrustRevoked)) 161 (foldl run_cache_op (bounded_new 60 5) sample_ops)
     (str "did:a") (str "k1")).1 <> Ok {| vk_inner := true |}.
Proof.
  apply (revocation_exposure_bounded 60 5 sample_ops _ 161 101).
  - repeat constructor; solve_str_wf.
  - solve_str_wf.
  - solve_str_wf.
  - intros q Hq. apply list_elem_of_singleton in Hq. injection Hq as ->. cbn. lia.
  - reflexivity.
  - unfold in_i64, I64_MIN, I64_MAX. lia.
  - lia.
Defined.
