(* ===== verification/KeySet.v ===== *)
(** * The authorized server key set

    [mcps-proxy/src/authorized_keyset.rs]: the admission document of a fleet's
    response-signing keys and the resolver over it.  The injected clock is the
    [now] of a call. *)

From S2P Require Import Prelude Utf8 Errors Json Canonical Strings Tiers Signing Crypto Instances Values Resolver.

Inductive KeyStatus : Type := KeyActive | KeyRevoked | KeyDisabled.

#[export] Instance KeyStatus_eq_dec : EqDecision KeyStatus.
Proof. solve_decision. Defined.

Inductive KeySetError : Type :=
| DuplicateKeyId (key_id : rstr)
| SharedKeyNotActive (key_id : rstr)
| SharedModeMultipleActive (audience : rstr).

Inductive ResponseSigningIdentityMode : Type := PerNodeKeyset | SharedRemoteSigner.

#[export] Instance ResponseSigningIdentityMode_eq_dec : EqDecision ResponseSigningIdentityMode.
Proof. solve_decision. Defined.

Definition mode_wire_name (m : ResponseSigningIdentityMode) : rstr :=
  match m with
  | PerNodeKeyset => str "PER_NODE_KEYSET"
  | SharedRemoteSigner => str "SHARED_REMOTE_SIGNER"
  end.

(** [ResponseSigningIdentityMode::parse], [guarantee] and
    [startup_audit_line]. *)
Definition mode_parse `{Lowercase} (value : rstr) : result ResponseSigningIdentityMode rstr :=
  let lower := to_lowercase (trim value) in
  if bool_decide (lower = str "per-node-keyset") then Ok PerNodeKeyset
  else if bool_decide (lower = str "shared-remote-signer") then Ok SharedRemoteSigner
  else Err (str "unknown response-signing identity mode '" ++ lower ++ str "' (expected per-node-keyset | shared-remote-signer)").

Definition mode_guarantee (m : ResponseSigningIdentityMode) : rstr :=
  match m with
  | PerNodeKeyset => str
      "each node signs with its own key; compromise of one node revokes only that node's key (tight blast radius); no shared private key"
  | SharedRemoteSigner => str
      "one non-exporting remote signer for the whole audience; higher key custody, not necessarily smaller blast radius (a compromised node credential can sign as the shared identity until revoked)"
  end.

Definition mode_startup_audit_line (m : ResponseSigningIdentityMode) (audience : rstr) : rstr :=
  str "response-signing audience=" ++ audience ++ str " mode=" ++ mode_wire_name m ++ str " guarantee=" ++ [34] ++ mode_guarantee m ++ [34].

(** The names are read back whatever their case and the blanks around them. *)
Definition mode_flag (m : ResponseSigningIdentityMode) : rstr :=
  match m with PerNodeKeyset => str "per-node-keyset" | SharedRemoteSigner => str "shared-remote-signer" end.

Lemma mode_parse_Ok `{LC : Lowercase, LL : !LowercaseLaws} value m :
  mode_parse value = Ok m <-> to_lowercase (trim value) = mode_flag m.
Proof.
  unfold mode_parse. case_bool_decide as H1; [|case_bool_decide as H2]; split.
  - by intros [= <-].
  - rewrite H1. by destruct m.
  - by intros [= <-].
  - rewrite H2. by destruct m.
  - done.
  - intros E. by destruct m.
Qed.

Section KeySet.
Context `{Dalek}.

Record AuthorizedKeyEntry : Type := {
  ake_key_id : rstr;
  ake_public_key : VerificationKey;
  ake_issuer : rstr;
  ake_audience : rstr;
  ake_node_label : rstr;
  valid_from : Z;
  valid_until : option Z;
  ake_status : KeyStatus;
  ake_generation : Z;
}.

Record AuthorizedKeySet : Type := { by_key_id : gmap rstr AuthorizedKeyEntry }.

(** The loop of [AuthorizedKeySet::new]. *)
Fixpoint collect_entries (m : gmap rstr AuthorizedKeyEntry) (entries : list AuthorizedKeyEntry)
  : result (gmap rstr AuthorizedKeyEntry) KeySetError :=
  match entries with
  | [] => Ok m
  | entry :: entries' =>
      if bool_decide (is_Some (m !! ake_key_id entry)) then Err (DuplicateKeyId (ake_key_id entry))
      else collect_entries (<[ake_key_id entry := entry]> m) entries'
  end.

Definition key_set_new (entries : list AuthorizedKeyEntry) : result AuthorizedKeySet KeySetError :=
  let? m := collect_entries ∅ entries in Ok {| by_key_id := m |}.

Definition key_set_lookup (ks : AuthorizedKeySet) (audience key_id : rstr) : option AuthorizedKeyEntry :=
  entry ← by_key_id ks !! key_id;
  if bool_decide (ake_audience entry = audience) then Some entry else None.

Definition active_count_for (ks : AuthorizedKeySet) (audience : rstr) : nat :=
  length (filter (fun entry => ake_audience entry = audience /\ ake_status entry = KeyActive)
            (map_to_list (by_key_id ks)).*2).

Record KeySetTrustResolver : Type := {
  ksr_key_set : AuthorizedKeySet;
  ksr_audience : rstr;
  ksr_mode : ResponseSigningIdentityMode;
  ksr_shared_key_id : option rstr;
}.

Definition per_node_keyset (ks : AuthorizedKeySet) (audience : rstr) : KeySetTrustResolver :=
  {| ksr_key_set := ks; ksr_audience := audience; ksr_mode := PerNodeKeyset; ksr_shared_key_id := None |}.

Definition shared_remote_signer (ks : AuthorizedKeySet) (audience shared_key_id : rstr)
  : result KeySetTrustResolver KeySetError :=
  let? entry := ok_or (key_set_lookup ks audience shared_key_id) (SharedKeyNotActive shared_key_id) in
  if negb (bool_decide (ake_status entry = KeyActive)) then Err (SharedKeyNotActive shared_key_id)
  else if (1 <? active_count_for ks audience)%nat then Err (SharedModeMultipleActive audience)
  else Ok {| ksr_key_set := ks; ksr_audience := audience; ksr_mode := SharedRemoteSigner;
             ksr_shared_key_id := Some shared_key_id |}.

Definition key_set_resolve (r : KeySetTrustResolver) (now : Z) : TrustResolver := fun signer key_id =>
  if negb (bool_decide (signer = ksr_audience r)) then Err NotFound
  else
    match key_set_lookup (ksr_key_set r) (ksr_audience r) key_id with
    | None => Err NotFound
    | Some entry =>
        if bool_decide (ksr_mode r = SharedRemoteSigner) && negb (bool_decide (ksr_shared_key_id r = Some key_id))
        then Err NotFound
        else
          match ake_status entry with
          | KeyRevoked | KeyDisabled => Err TrustRevoked
          | KeyActive =>
              if now <? valid_from entry then Err NotFound
              else
                match valid_until entry with
                | Some until => if until <? now then Err NotFound else Ok (ake_public_key entry)
                | None => Ok (ake_public_key entry)
                end
          end
    end.

(** ** Admission *)

Lemma collect_entries_fresh entries m m' x :
  collect_entries m entries = Ok m' -> x ∈ entries -> m !! ake_key_id x = None.
Proof.
  revert m. induction entries as [|e entries IH]; intros m; cbn [collect_entries]; [set_solver|].
  case_bool_decide as He; [done|]. intros Hc [->|Hx]%elem_of_cons; [by apply eq_None_not_Some|].
  pose proof (IH _ Hc Hx) as Hi. destruct (decide (ake_key_id e = ake_key_id x)) as [E|E].
  - by rewrite E, lookup_insert_eq in Hi.
  - by rewrite lookup_insert_ne in Hi.
Qed.

Lemma collect_entries_Ok entries m m' :
  collect_entries m entries = Ok m' ->
  NoDup (ake_key_id <$> entries) /\
  forall k e, m' !! k = Some e <-> m !! k = Some e \/ (e ∈ entries /\ ake_key_id e = k).
Proof.
  revert m. induction entries as [|e entries IH]; intros m; cbn [collect_entries].
  { intros [= <-]. split; [constructor|]. set_solver. }
  case_bool_decide as He; [done|]. intros Hc. destruct (IH _ Hc) as [Hd Hm]. apply eq_None_not_Some in He. split.
  - cbn [fmap list_fmap]. apply NoDup_cons. split; [|done]. intros (x & Ek & Hin)%list_elem_of_fmap.
    pose proof (collect_entries_fresh _ _ _ _ Hc Hin) as Hn. by rewrite <- Ek, lookup_insert_eq in Hn.
  - intros k x. rewrite Hm, elem_of_cons. destruct (decide (ake_key_id e = k)) as [<-|Hne].
    + rewrite lookup_insert_eq, He. naive_solver.
    + rewrite lookup_insert_ne by done. naive_solver.
Qed.

Lemma key_set_new_Ok entries ks :
  key_set_new entries = Ok ks ->
  NoDup (ake_key_id <$> entries) /\
  forall k e, by_key_id ks !! k = Some e <-> e ∈ entries /\ ake_key_id e = k.
Proof.
  unfold key_set_new. destruct (collect_entries ∅ entries) as [m|] eqn:Ec; [|done]. intros [= <-].
  apply collect_entries_Ok in Ec as [Hd Hm]. split; [done|]. intros k e. cbn. rewrite Hm, lookup_empty. naive_solver.
Qed.

Lemma two_elements {A} (x y : A) l : x ∈ l -> y ∈ l -> x <> y -> (1 < length l)%nat.
Proof. destruct l as [|a [|b l]]; cbn; [set_solver|set_solver|lia]. Qed.

(** At most one active entry. *)
Lemma active_count_unique ks audience e1 e2 :
  by_key_id ks !! ake_key_id e1 = Some e1 -> by_key_id ks !! ake_key_id e2 = Some e2 ->
  ake_audience e1 = audience -> ake_status e1 = KeyActive -> ake_audience e2 = audience -> ake_status e2 = KeyActive ->
  (1 <? active_count_for ks audience)%nat = false -> ake_key_id e1 = ake_key_id e2.
Proof.
  intros H1 H2 A1 S1 A2 S2 Hc. apply Nat.ltb_ge in Hc. destruct (decide (ake_key_id e1 = ake_key_id e2)) as [|Hne]; [done|].
  assert (Hin : forall e, by_key_id ks !! ake_key_id e = Some e -> ake_audience e = audience -> ake_status e = KeyActive ->
    e ∈ filter (fun entry => ake_audience entry = audience /\ ake_status entry = KeyActive) (map_to_list (by_key_id ks)).*2).
  { intros e He Ha Hs. apply list_elem_of_filter. split; [done|]. apply list_elem_of_fmap. exists (ake_key_id e, e).
    split; [done|]. by apply elem_of_map_to_list. }
  pose proof (two_elements e1 e2 _ (Hin e1 H1 A1 S1) (Hin e2 H2 A2 S2) ltac:(congruence)) as Hl.
  unfold active_count_for in Hc. lia.
Qed.

(** An entry that vouches for a response under [signer] and [key_id] at [now]. *)
Definition admits_key (e : AuthorizedKeyEntry) (signer key_id : rstr) (now : Z) : Prop :=
  ake_key_id e = key_id /\ ake_audience e = signer /\ ake_status e = KeyActive /\ valid_from e <= now /\
  (forall until, valid_until e = Some until -> now <= until).

Lemma key_set_resolve_Ok r now signer key_id key :
  key_set_resolve r now signer key_id = Ok key <->
  signer = ksr_audience r /\ (ksr_mode r = SharedRemoteSigner -> ksr_shared_key_id r = Some key_id) /\
  exists e, by_key_id (ksr_key_set r) !! key_id = Some e /\ ake_audience e = signer /\ ake_status e = KeyActive /\
    valid_from e <= now /\ (forall until, valid_until e = Some until -> now <= until) /\ ake_public_key e = key.
Proof.
  unfold key_set_resolve, key_set_lookup. case_bool_decide as Hs; [subst|naive_solver]. cbn [negb].
  destruct (by_key_id _ !! key_id) as [e|]; cbn [mbind option_bind]; [|naive_solver].
  case_bool_decide as Ha; [|naive_solver].
  destruct (bool_decide (ksr_mode r = SharedRemoteSigner)) eqn:Em, (bool_decide (ksr_shared_key_id r = Some key_id)) eqn:Ek;
    breflect; cbn [andb negb]; try (split; [done|]; intros (_ & Hm & _); by destruct Ek; apply Hm).
  all: destruct (ake_status e) eqn:Es; try (split; [done|]; intros (_ & _ & e' & ? & ? & ? & _); simplify_eq; congruence).
  all: destruct (now <? valid_from e) eqn:Ef; breflect; try (split; [done|]; intros (_ & _ & e' & ? & ? & ? & ? & _); simplify_eq; lia).
  all: destruct (valid_until e) as [u|] eqn:Eu; [destruct (u <? now) eqn:Et; breflect|].
  all: try (split; [done|]; intros (_ & _ & e' & ? & ? & ? & ? & Hu & _); simplify_eq; specialize (Hu _ Eu); lia).
  all: split; [intros [= <-]; split; [done|]; split; [done|]; exists e; split_and!; try done; intros; simplify_eq; lia|].
  all: intros (_ & _ & e' & ? & _ & _ & _ & _ & <-); simplify_eq; done.
Qed.
End KeySet.

(** Admission of response-signing keys is exact: when the key set was built
    from [entries] (which then have distinct key ids) the per-node resolver
    yields a key exactly for an entry of that document with this key id, bound
    to this audience, active, and inside its validity window; the shared-signer
    resolver, when it can be built, yields exactly the one configured key, under
    the same conditions, and no other entry of the audience is active. *)
Theorem key_set_admission_exact `{Dalek} entries ks audience shared now signer key_id key :
  key_set_new entries = Ok ks ->
  NoDup (ake_key_id <$> entries) /\
  (key_set_resolve (per_node_keyset ks audience) now signer key_id = Ok key <->
   signer = audience /\ exists e, e ∈ entries /\ admits_key e signer key_id now /\ ake_public_key e = key) /\
  (forall r, shared_remote_signer ks audience shared = Ok r ->
     (key_set_resolve r now signer key_id = Ok key <->
      signer = audience /\ key_id = shared /\
      exists e, e ∈ entries /\ admits_key e signer key_id now /\ ake_public_key e = key) /\
     (forall e, e ∈ entries -> ake_audience e = audience -> ake_status e = KeyActive -> ake_key_id e = shared)).
Proof.
  intros [Hd Hm]%key_set_new_Ok. split; [done|]. split.
  - rewrite key_set_resolve_Ok. cbn. split.
    + intros (-> & _ & e & [? ?]%Hm & ? & ? & ? & ? & ?). split; [done|]. by exists e.
    + intros (-> & e & ? & (? & ? & ? & ? & ?) & ?). split; [done|]. split; [done|]. exists e. rewrite Hm. done.
  - intros r Hr. unfold shared_remote_signer, key_set_lookup in Hr.
    destruct (by_key_id ks !! shared) as [e|] eqn:Ee; cbn [mbind option_bind ok_or] in Hr; [|done].
    case_bool_decide as Ha; cbn [ok_or] in Hr; [|done]. case_bool_decide as Hs; cbn [negb] in Hr; [|done].
    destruct (1 <? active_count_for ks audience)%nat eqn:Ec; [done|]. simplify_eq.
    pose proof (proj1 (Hm _ _) Ee) as [Hin Hk]. subst shared. split.
    + rewrite key_set_resolve_Ok. cbn. split.
      * intros (-> & Hsh & e' & [? ?]%Hm & ? & ? & ? & ? & ?). specialize (Hsh eq_refl). simplify_eq.
        split; [done|]. split; [congruence|]. by exists e'.
      * intros (-> & -> & e' & ? & (? & ? & ? & ? & ?) & ?). split; [done|]. split; [done|]. exists e'. rewrite Hm. done.
    + intros e' He' Ha' Hs'. symmetry.
      eapply (active_count_unique ks _ e e'); try eassumption; [by apply Hm|congruence..].
Qed.

Import Toy.

Definition sample_entry (key_id : rstr) (status : KeyStatus) : AuthorizedKeyEntry :=
  {| ake_key_id := key_id; ake_public_key := {| vk_inner := true |}; ake_issuer := str "root";
     ake_audience := str "did:srv"; ake_node_label := str "node"; valid_from := 100; valid_until := Some 200;
     ake_status := status; ake_generation := 1 |}.

Definition sample_key_set : AuthorizedKeySet :=
  {| by_key_id := <[str "n2" := sample_entry (str "n2") KeyRevoked]>
                    (<[str "n1" := sample_entry (str "n1") KeyActive]> ∅) |}.


(** The active key resolves, the revoked one does not, and the shared resolver
    can be built. *)
Example sample_key_set_resolves :
  is_ok (key_set_resolve (per_node_keyset sample_key_set (str "did:srv")) 150 (str "did:srv") (str "n1")) = true /\
  is_ok (key_set_resolve (per_node_keyset sample_key_set (str "did:srv")) 150 (str "did:srv") (str "n2")) = false /\
  is_ok (shared_remote_signer sample_key_set (str "did:srv") (str "n1")) = true.
Proof. split_and!; vm_compute; reflexivity. Qed.
