(* ===== verification/Sigv4.v ===== *)
(** * AWS request signing

    [mcps-proxy/src/aws_sigv4.rs], and the timestamps of
    [aws_kms_keysource.rs] that go into a signature.  SHA-256 and HMAC-SHA256
    are parameters. *)

From S2P Require Import Prelude Utf8 Errors Json Canonical Strings CanonicalRound Time Crypto Instances.

(** [hmac::Hmac<Sha256>]: key, then data. *)
Class HmacSha256 := hmac_sha256 : bytes -> bytes -> bytes.

Definition ALGORITHM : rstr := str "AWS4-HMAC-SHA256".
Definition TERMINATOR : rstr := str "aws4_request".

(** [char::from_digit(d, 16)]. *)
Definition hex_digit (d : Z) : rchar := if d <? 10 then 48 + d else 87 + d.

Definition to_hex_lower (bs : bytes) : rstr :=
  bs ≫= (fun b => [hex_digit (Z.shiftr b 4); hex_digit (Z.land b 15)]).

Record Header : Type := { header_name : rstr; header_value : rstr }.

Record AwsCredentials : Type := {
  access_key_id : rstr;
  secret_access_key : rstr;
  session_token : option rstr;
}.

Record SigV4Signer : Type := {
  sv_credentials : AwsCredentials;
  sv_region : rstr;
  sv_service : rstr;
}.

Record SignedAuth : Type := {
  authorization : rstr;
  sa_amz_date : rstr;
  security_token : option rstr;
}.

Section Sigv4.
Context `{Sha2, HmacSha256}.

Definition sha256_hex (data : bytes) : rstr := to_hex_lower (sha256_digest data).

(** [&amz_date[..8]]. *)
Definition datestamp (amz_date : rstr) : rstr := take 8 amz_date.

Definition scope (s : SigV4Signer) (amz_date : rstr) : rstr :=
  datestamp amz_date ++ str "/" ++ sv_region s ++ str "/" ++ sv_service s ++ str "/" ++ TERMINATOR.

Definition signing_key (s : SigV4Signer) (amz_date : rstr) : bytes :=
  let k_secret := str "AWS4" ++ secret_access_key (sv_credentials s) in
  let k_date := hmac_sha256 (as_bytes k_secret) (as_bytes (datestamp amz_date)) in
  let k_region := hmac_sha256 k_date (as_bytes (sv_region s)) in
  let k_service := hmac_sha256 k_region (as_bytes (sv_service s)) in
  hmac_sha256 k_service (as_bytes TERMINATOR).

(** [sort_by] on the names, in byte order; the sort is stable. *)
Fixpoint insert_header (x : rstr * rstr) (l : list (rstr * rstr)) : list (rstr * rstr) :=
  match l with
  | [] => [x]
  | y :: l' => if str_ltb y.1 x.1 then y :: insert_header x l' else x :: l
  end.
Definition sort_headers (l : list (rstr * rstr)) : list (rstr * rstr) := foldr insert_header [] l.

(** The lowercased, trimmed and sorted headers. *)
Definition canonical_headers (headers : list Header) : list (rstr * rstr) :=
  sort_headers ((fun h => (to_ascii_lowercase (header_name h), trim (header_value h))) <$> headers).

Definition header_lines (sorted : list (rstr * rstr)) : rstr := sorted ≫= (fun nv => nv.1 ++ str ":" ++ nv.2 ++ [10]).

Definition canonical_request (headers : list Header) (payload : bytes) : rstr * rstr :=
  let sorted := canonical_headers headers in
  let signed_headers := join_with 59 sorted.*1 in
  let payload_hash := sha256_hex payload in
  (str "POST" ++ [10] ++ str "/" ++ [10; 10] ++ header_lines sorted ++ [10] ++ signed_headers ++ [10] ++ payload_hash,
   signed_headers).

(** The headers [sign] adds to the caller's. *)
Definition added_headers (s : SigV4Signer) (amz_date : rstr) : list Header :=
  {| header_name := str "x-amz-date"; header_value := amz_date |} ::
  match session_token (sv_credentials s) with
  | Some token => [{| header_name := str "x-amz-security-token"; header_value := token |}]
  | None => []
  end.

Definition string_to_sign (s : SigV4Signer) (amz_date canonical : rstr) : rstr :=
  ALGORITHM ++ [10] ++ amz_date ++ [10] ++ scope s amz_date ++ [10] ++ sha256_hex (as_bytes canonical).

Definition sigv4_sign (s : SigV4Signer) (headers : list Header) (payload : bytes) (amz_date : rstr) : SignedAuth :=
  let headers := headers ++ added_headers s amz_date in
  let (canonical, signed_headers) := canonical_request headers payload in
  let signature := to_hex_lower (hmac_sha256 (signing_key s amz_date) (as_bytes (string_to_sign s amz_date canonical))) in
  {| authorization := ALGORITHM ++ str " Credential=" ++ access_key_id (sv_credentials s) ++ str "/" ++ scope s amz_date ++
                      str ", SignedHeaders=" ++ signed_headers ++ str ", Signature=" ++ signature;
     sa_amz_date := amz_date;
     security_token := session_token (sv_credentials s) |}.
End Sigv4.

(** [format_amz_date] of a [u64] of seconds. *)
Definition format_amz_date (unix_secs : Z) : rstr :=
  let days := unix_secs / 86400 in
  let sod := unix_secs mod 86400 in
  let hour := sod / 3600 in
  let min := (sod mod 3600) / 60 in
  let sec := sod mod 60 in
  let '(y, m, d) := civil_from_days days in
  display_padded 4 y ++ display_padded 2 m ++ display_padded 2 d ++ [84] ++
  display_padded 2 hour ++ display_padded 2 min ++ display_padded 2 sec ++ [90].

Example amz_dates : format_amz_date 1440938160 = str "20150830T123600Z" /\ format_amz_date 0 = str "19700101T000000Z".
Proof. vm_compute. by split. Qed.

(** ** The order of the headers does not matter *)

Definition name_lt (x y : rstr * rstr) : Prop := str_ltb x.1 y.1 = true.

Lemma insert_header_perm x l : insert_header x l ≡ₚ x :: l.
Proof. induction l as [|y l IH]; cbn; [done|]. destruct (str_ltb y.1 x.1); [|done]. rewrite IH. constructor. Qed.

Lemma sort_headers_perm l : sort_headers l ≡ₚ l.
Proof. induction l as [|x l IH]; cbn; [done|]. by rewrite insert_header_perm, IH. Qed.

Lemma str_ltb_trans a b c : str_ltb a b = true -> str_ltb b c = true -> str_ltb a c = true.
Proof.
  revert b c. induction a as [|x a IH]; intros [|y b] [|z c]; cbn; try done.
  destruct (Z.eqb_spec x y) as [E1|E1], (Z.eqb_spec y z) as [E2|E2], (Z.eqb_spec x z) as [E3|E3]; rewrite ?Z.ltb_lt; intros H1 H2;
    try lia. by eapply IH.
Qed.

Lemma str_ltb_total a b : str_ltb a b = false -> a <> b -> str_ltb b a = true.
Proof.
  revert b. induction a as [|x a IH]; intros [|y b]; cbn; try done.
  rewrite (Z.eqb_sym y x). destruct (Z.eqb_spec x y) as [->|]; [intros H Hne; apply IH; congruence|].
  intros H _. breflect. apply Z.ltb_lt. lia.
Qed.

Lemma str_ltb_irrefl a : str_ltb a a = false.
Proof. induction a as [|x a IH]; cbn; [done|]. by rewrite Z.eqb_refl. Qed.

Lemma insert_header_sorted x l :
  StronglySorted name_lt l -> x.1 ∉ l.*1 -> StronglySorted name_lt (insert_header x l).
Proof.
  intros Hs. induction Hs as [|y l Hs IH Hy]; intros Hn; cbn; [by repeat constructor|].
  cbn in Hn. apply not_elem_of_cons in Hn as [Hne Hn]. destruct (str_ltb y.1 x.1) eqn:E.
  - constructor; [by apply IH|]. rewrite insert_header_perm. by constructor.
  - apply str_ltb_total in E; [|congruence]. constructor; [by constructor|]. constructor; [done|].
    eapply Forall_impl; [exact Hy|]. intros z Hz. by eapply str_ltb_trans.
Qed.

Lemma sort_headers_sorted l : NoDup l.*1 -> StronglySorted name_lt (sort_headers l).
Proof.
  induction l as [|x l IH]; cbn; [constructor|]. intros [Hn Hd]%NoDup_cons. apply insert_header_sorted; [by apply IH|].
  by rewrite sort_headers_perm.
Qed.

Lemma sort_headers_unique l1 l2 : NoDup l1.*1 -> l1 ≡ₚ l2 -> sort_headers l1 = sort_headers l2.
Proof.
  intros Hd Hp. apply (StronglySorted_unique_strong name_lt).
  - intros x y _ _ H1 H2. exfalso. unfold name_lt in *. pose proof (str_ltb_trans _ _ _ H1 H2) as Hx. by rewrite str_ltb_irrefl in Hx.
  - by apply sort_headers_sorted.
  - apply sort_headers_sorted. by rewrite <- Hp.
  - by rewrite !sort_headers_perm.
Qed.

Definition lowercased (headers : list Header) : list rstr := (fun h => to_ascii_lowercase (header_name h)) <$> headers.

Lemma canonical_headers_unique hs1 hs2 :
  NoDup (lowercased hs1) -> hs1 ≡ₚ hs2 -> canonical_headers hs1 = canonical_headers hs2.
Proof.
  intros Hd Hp. apply sort_headers_unique; [|by rewrite Hp]. by rewrite <- list_fmap_compose.
Qed.

Section Theorems.
Context `{SH : Sha2, HM : HmacSha256}.

(** The signature does not depend on the order in which the caller lists the
    headers, if their names differ in more than case. *)
Theorem sigv4_order_independent s hs1 hs2 payload amz_date :
  NoDup (lowercased (hs1 ++ added_headers s amz_date)) -> hs1 ≡ₚ hs2 ->
  sigv4_sign s hs1 payload amz_date = sigv4_sign s hs2 payload amz_date.
Proof.
  intros Hd Hp. unfold sigv4_sign, canonical_request.
  rewrite (canonical_headers_unique _ (hs2 ++ added_headers s amz_date) Hd); [done|by rewrite Hp].
Qed.

(** ** The canonical request is unambiguous *)

Lemma hex_digit_inj a b : 0 <= a < 16 -> 0 <= b < 16 -> hex_digit a = hex_digit b -> a = b.
Proof. intros Ha Hb. unfold hex_digit. destruct (Z.ltb_spec a 10), (Z.ltb_spec b 10); lia. Qed.

Lemma nibbles b : 0 <= b < 256 -> b = 16 * Z.shiftr b 4 + Z.land b 15 /\ 0 <= Z.shiftr b 4 < 16 /\ 0 <= Z.land b 15 < 16.
Proof.
  intros Hb. rewrite Z.shiftr_div_pow2 by lia. change 15 with (Z.ones 4). rewrite Z.land_ones by lia.
  pose proof (Z.div_mod b (2 ^ 4)). pose proof (Z.mod_pos_bound b (2 ^ 4)).
  assert (0 <= b / 2 ^ 4 < 16) by (split; [apply Z.div_pos|apply Z.div_lt_upper_bound]; lia). lia.
Qed.

Lemma to_hex_lower_inj bs1 bs2 : bytes_wf bs1 -> bytes_wf bs2 -> to_hex_lower bs1 = to_hex_lower bs2 -> bs1 = bs2.
Proof.
  intros H1. revert bs2. induction H1 as [|b bs1 Hb _ IH]; intros [|c bs2] H2; cbn; try done.
  apply Forall_cons in H2 as [Hc H2]. intros [= E1 E2 E3]. apply nibbles in Hb as (Eb & ? & ?), Hc as (Ec & ? & ?).
  apply hex_digit_inj in E1; [|done..]. apply hex_digit_inj in E2; [|done..]. f_equal; [congruence|by apply IH].
Qed.

Definition header_wf (nv : rstr * rstr) : Prop := nv.1 <> [] /\ (10 ∉ nv.1) /\ (58 ∉ nv.1) /\ (10 ∉ nv.2).
#[export] Instance header_wf_dec nv : Decision (header_wf nv).
Proof. unfold header_wf. apply _. Defined.

Lemma header_lines_cons n v l : header_lines ((n, v) :: l) = n ++ 58 :: v ++ 10 :: header_lines l.
Proof. unfold header_lines. rewrite bind_cons. cbn [fst snd]. rewrite <- !app_assoc. reflexivity. Qed.

Lemma header_lines_inj l1 l2 t1 t2 :
  Forall header_wf l1 -> Forall header_wf l2 ->
  header_lines l1 ++ 10 :: t1 = header_lines l2 ++ 10 :: t2 -> l1 = l2 /\ t1 = t2.
Proof.
  assert (Hnil : forall n v l t (s : rstr), n <> [] -> 10 ∉ n -> 10 :: s <> header_lines ((n, v) :: l) ++ t).
  { intros [|c n] v l t s Hn Hno; [done|]. rewrite header_lines_cons. cbn. intros [= <- _]. set_solver. }
  intros H1. revert l2. induction H1 as [|[n1 v1] l1 (Hn1 & Ha1 & Hb1 & Hv1) _ IH]; intros l2 H2 E.
  - destruct H2 as [|[n2 v2] l2 (Hn2 & Ha2 & _)]; [by injection E|]. by apply Hnil in E.
  - destruct H2 as [|[n2 v2] l2 (Hn2 & Ha2 & Hb2 & Hv2) H2]; [symmetry in E; by apply Hnil in E|]. cbn [fst snd] in *.
    rewrite !header_lines_cons, <- !app_assoc in E. cbn [app] in E. apply sep_inj in E as [-> E]; [|done..].
    rewrite <- !app_assoc in E. cbn [app] in E. apply sep_inj in E as [-> E]; [|done..].
    apply IH in E as [-> ->]; done.
Qed.

(** A canonical request is unambiguous: two requests whose header names are
    nonempty and without colons and newlines, and whose values have no newline,
    have the same canonical text only if they sign the same headers with the
    same values and payloads with the same digest.  No header can take over the
    bytes of another or of the payload. *)
Theorem canonical_request_injective `{SL : !Sha2Laws} hs1 hs2 p1 p2 :
  Forall header_wf (canonical_headers hs1) -> Forall header_wf (canonical_headers hs2) ->
  (canonical_request hs1 p1).1 = (canonical_request hs2 p2).1 ->
  canonical_headers hs1 = canonical_headers hs2 /\ sha256_digest p1 = sha256_digest p2.
Proof.
  intros H1 H2 E. unfold canonical_request in E. cbn [fst] in E. do 4 apply app_inv_head in E.
  apply header_lines_inj in E as [Eh E]; [|done..]. split; [done|]. rewrite Eh in E. apply app_inv_head in E. injection E as E.
  apply to_hex_lower_inj in E; [done|apply sha256_wf..].
Qed.

(** ** Timestamps *)

Definition not_separator (c : rchar) : Prop := c <> 45 /\ c <> 58.
#[export] Instance not_separator_dec c : Decision (not_separator c).
Proof. unfold not_separator. apply _. Defined.

Lemma filter_id (l : rstr) : Forall not_separator l -> filter not_separator l = l.
Proof. induction 1 as [|c l Hc _ IH]; [done|]. by rewrite filter_cons_True, IH. Qed.

Lemma filter_padded w n : 0 <= n -> filter not_separator (display_padded w n) = display_padded w n.
Proof.
  intros Hn. apply filter_id. apply Forall_forall. unfold display_padded. rewrite (proj2 (Z.ltb_ge n 0)) by done.
  intros c [Hc|Hc]%elem_of_app; [apply elem_of_replicate in Hc as [-> _]; done|].
  destruct (display_unsigned_spec n Hn) as [(_ & Hd & _) _]. eapply (Forall_forall _ (display_unsigned n)) in Hd; [|exact Hc].
  apply is_ascii_digit_spec in Hd. split; lia.
Qed.

(** The time stamp of a signature is the RFC 3339 text of [mcps-core] without
    its separators, at every second up to the year 9999: the hand-written
    formatter of this adapter and the verifier's agree. *)
Theorem format_amz_date_rfc3339 t :
  0 <= t <= 253402300799 -> format_amz_date t = filter not_separator (unix_to_rfc3339_utc t).
Proof.
  intros Ht. unfold format_amz_date, unix_to_rfc3339_utc. pose proof (civil_from_days_valid (t / 86400)) as Hc.
  destruct (civil_from_days (t / 86400)) as [[y m] d]. destruct Hc as (Hok & _ & Hy).
  assert (Hdays : 0 <= t / 86400 < 2932897) by (split; [apply Z.div_pos; lia|apply Z.div_lt_upper_bound; lia]).
  pose proof (Z.mod_pos_bound t 86400). specialize (Hy ltac:(lia)).
  assert (Hmd : 0 <= m /\ 0 <= d) by (unfold date_ok in Hok; breflect; lia).
  rewrite !filter_app, !filter_padded by (repeat (apply Z.quot_pos || apply Z.rem_nonneg); lia).
  rewrite !Z.quot_div_nonneg, !Z.rem_mod_nonneg by (repeat (apply Z.quot_pos || apply Z.rem_nonneg); lia). reflexivity.
Qed.
End Theorems.

(** ** On sample requests *)

Definition kms_headers (authority target : rstr) : list Header :=
  [{| header_name := str "host"; header_value := authority |};
   {| header_name := str "content-type"; header_value := str "application/x-amz-json-1.1" |};
   {| header_name := str "x-amz-target"; header_value := target |}].

Import Toy.

Lemma canonical_request_injective_witness :
  let hs1 := kms_headers (str "kms.eu-west-1.amazonaws.com") (str "TrentService.Sign") in
  let hs2 := [{| header_name := str "X-Amz-Target"; header_value := str " TrentService.Sign " |};
              {| header_name := str "Content-Type"; header_value := str "application/x-amz-json-1.1" |};
              {| header_name := str "HOST"; header_value := str "kms.eu-west-1.amazonaws.com" |}] in
  canonical_headers hs1 = canonical_headers hs2 /\ sha256_digest [1] = sha256_digest [1].
Proof.
  apply (canonical_request_injective _ _ [1] [1]); [| |vm_compute; reflexivity];
    apply (bool_decide_unpack _); vm_compute; exact I.
Defined.
