(* ===== verification/KeySource.v ===== *)
(** * Response signers

    [mcps-proxy/src/key_source.rs] (the response-signing part) and
    [delegated_response_signer.rs].  The file system is a parameter, as is
    the opaque signing callback of a delegated signer. *)

From S2P Require Import Prelude Utf8 Errors Canonical Strings Crypto Instances.

Inductive KeyError : Type :=
| KeyNotFound (what : rstr)
| KeyMalformed (what : rstr).

Section KeySource.
Context `{Base64, Dalek}.

(** [trait ResponseSigner]: its two methods. *)
Record ResponseSigner : Type := {
  sign_response : bytes -> result rstr KeyError;
  response_public_key : result VerificationKey KeyError;
}.

(** [impl ResponseSigner for SigningKey]. *)
Definition signing_key_signer (k : SigningKey) : ResponseSigner := {|
  sign_response preimage := Ok (sign k preimage);
  response_public_key := Ok (public_key k);
|}.

Definition signing_key_from_seed_b64url (seed_b64url : rstr) : result SigningKey KeyError :=
  let? bs := map_err (fun _ => KeyMalformed (str "signing-key seed is not Base64URL"))
               (b64url_decode (trim seed_b64url)) in
  if negb (bool_decide (length bs = 32%nat))
  then Err (KeyMalformed (str "signing-key seed is not 32 bytes"))
  else Ok (sk_from_seed_bytes bs).

(** [FileKeySource::signing_key], over the contents of the files. *)
Definition file_signing_key (read : rstr -> result bytes KeyError) (signing_key_seed_path : rstr)
  : result SigningKey KeyError :=
  let? bs := read signing_key_seed_path in
  let? text := ok_or (from_utf8 bs) (KeyMalformed (str "signing-key seed is not UTF-8")) in
  signing_key_from_seed_b64url text.

(** [impl ResponseSigner for FileKeySource]: the seed is read at each call. *)
Definition file_key_source_signer (read : rstr -> result bytes KeyError) (signing_key_seed_path : rstr)
  : ResponseSigner := {|
  sign_response preimage :=
    let? k := file_signing_key read signing_key_seed_path in
    sign_response (signing_key_signer k) preimage;
  response_public_key :=
    let? k := file_signing_key read signing_key_seed_path in
    response_public_key (signing_key_signer k);
|}.

Record DelegatedResponseSigner : Type := {
  sign_fn : bytes -> result rstr KeyError;
  delegated_public_key : VerificationKey;
}.

Definition DELEGATED_MISMATCH : rstr :=
  str "delegated signer produced a signature that does not verify as Ed25519 under its advertised public key".

(** [impl ResponseSigner for DelegatedResponseSigner]. *)
Definition delegated_signer (d : DelegatedResponseSigner) : ResponseSigner := {|
  sign_response preimage :=
    let? signature := sign_fn d preimage in
    try? map_err (fun _ => KeyMalformed DELEGATED_MISMATCH)
           (verify_ed25519 preimage signature (delegated_public_key d)) ;;
    Ok signature;
  response_public_key := Ok (delegated_public_key d);
|}.

(** The contract of the seam: a signature it hands out verifies under the
    public key it advertises. *)
Class SignerLaws (s : ResponseSigner) : Prop := {
  signer_signs pre sg key :
    sign_response s pre = Ok sg -> response_public_key s = Ok key -> verify_ed25519 pre sg key = Ok tt;
}.

(** The delegated signer keeps the contract whatever its callback returns. *)
#[export] Instance delegated_signer_laws d : SignerLaws (delegated_signer d).
Proof.
  split. intros pre sg key Hs [= <-]. cbn in Hs. destruct (sign_fn d pre) as [sg'|]; [|done].
  destruct (verify_ed25519 pre sg' _) as [[]|] eqn:E; [|done]. cbn in Hs. congruence.
Qed.
End KeySource.

(** The in-memory and file-backed signers keep it by the laws of Ed25519. *)
#[export] Instance signing_key_signer_laws `{B64 : Base64, DK : Dalek, !Base64Laws, !DalekLaws}
  (k : SigningKey) : SignerLaws (signing_key_signer k).
Proof. split. intros pre sg key [= <-] [= <-]. apply verify_sign. Qed.

#[export] Instance file_key_source_signer_laws `{B64 : Base64, DK : Dalek, !Base64Laws, !DalekLaws}
  read path : SignerLaws (file_key_source_signer read path).
Proof.
  split. intros pre sg key. cbn. destruct (file_signing_key read path) as [k|]; [|done].
  intros [= <-] [= <-]. apply verify_sign.
Qed.
