(* ===== verification/Proxy.v ===== *)
(** * The sidecar

    [mcps-proxy/src/proxy.rs]: verify, authorize, bind to the channel, strip
    and forward to the inner server, sign its answer.  A run of the handler
    passes the state it works on explicitly: the replay cell, the state of the
    inner server and the record of what was sent to it and logged.  A panic is an
    outcome of its own. *)

From S2P Require Import Prelude Utf8 Errors Json Canonical Strings Time Crypto Transport Signing Values Envelope.
From S2P Require Import Instances Replay Resolver Constraints Pipeline Samples Unwrap Graft Policy PolicySpec KeySource.

(** ** Proxy-owned metadata *)

Definition PROXY_OWNED_META_KEYS : list rstr :=
  [REQUEST_META_KEY; RESPONSE_META_KEY; VERIFIED_META_KEY; AUTHORIZATION_META_KEY].

(** The loop over [PROXY_OWNED_META_KEYS], each [remove] in turn. *)
Definition remove_owned (m : Map) : Map :=
  foldl (fun m key => map_remove key m) m PROXY_OWNED_META_KEYS.

(** [scrub_proxy_owned_meta] on the value of a member: whether the member is a
    [_meta], so that the strip its parent does precedes the recursion into it.
    [scrub_object] gives the recursion as the source writes it. *)
Fixpoint scrub_member (is_meta : bool) (v : Value) : Value :=
  match v with
  | VObject m =>
      let m' := (fun kv => (kv.1, scrub_member (bool_decide (kv.1 = META_FIELD)) kv.2)) <$> m in
      VObject (if is_meta then remove_owned m' else m')
  | VArray items => VArray (scrub_member false <$> items)
  | _ => v
  end.

Definition scrub_proxy_owned_meta (v : Value) : Value := scrub_member false v.

(** ** Effects the outside sees *)

Inductive InnerLogEvent : Type :=
| Spawned (pid : Z)
| SpawnFailed (reason : rstr)
| Exited (code : option Z)
| Killed (reason : rstr)
| StderrTruncated (captured_bytes cap_bytes : Z)
| ProtocolError (detail : rstr)
| RequestForwarded
| ResponseSigned.

Inductive Effect : Type :=
| Dispatched (request : bytes)
| Logged (inner_identity : rstr) (event : InnerLogEvent).

(** [trait InnerServer], with the state the server keeps. *)
Class InnerServer (Srv : Type) := inner_dispatch : Srv -> bytes -> bytes * Srv.

Section Proxy.
Context `{SerdeJson, SerdeSer, Base64, Sha2, Dalek}.
Context `{!Deserialize RequestEnvelope, !Deserialize Draft02RequestEnvelope}.
Context `{ReplayCache C, InnerServer Srv}.

Record PolicyEnforcement : Type := {
  pe_evaluator : PolicyEvaluator;
  pe_revocation : RevocationSource;
}.

(** The immutable part of a [Proxy]; the replay cell and the inner server are
    in [World]. *)
Record Proxy : Type := {
  p_signer : ResponseSigner;
  p_server_signer : rstr;
  p_key_id : rstr;
  p_resolver : TrustResolver;
  p_config : VerificationConfig;
  p_version_policy : ExpectedVersionPolicy;
  p_policy : option PolicyEnforcement;
  p_transport_binding : option TransportBindingPolicy;
  p_lb_assertion : option LbAssertionBinding;
  p_log_sink : bool;
}.

(** [w_replay] is the content of the [RefCell], [None] while it is borrowed. *)
Record World : Type := {
  w_replay : option C;
  w_inner : Srv;
  w_effects : list Effect;
}.

Definition proxy_new (signer : ResponseSigner) (server_signer key_id : rstr) (resolver : TrustResolver)
    (expected_audience : rstr) (max_clock_skew_secs : Z) : Proxy := {|
  p_signer := signer; p_server_signer := server_signer; p_key_id := key_id; p_resolver := resolver;
  p_config := {| expected_audience := expected_audience; max_clock_skew_secs := max_clock_skew_secs |};
  p_version_policy := Draft01AndDraft02; p_policy := None; p_transport_binding := None;
  p_lb_assertion := None; p_log_sink := false |}.

Definition with_expected_version_policy (p : Proxy) (policy : ExpectedVersionPolicy) : Proxy := {|
  p_signer := p_signer p; p_server_signer := p_server_signer p; p_key_id := p_key_id p;
  p_resolver := p_resolver p; p_config := p_config p; p_version_policy := policy;
  p_policy := p_policy p; p_transport_binding := p_transport_binding p;
  p_lb_assertion := p_lb_assertion p; p_log_sink := p_log_sink p |}.

Definition with_policy_enforcement (p : Proxy) (evaluator : PolicyEvaluator)
    (revocation : RevocationSource) : Proxy := {|
  p_signer := p_signer p; p_server_signer := p_server_signer p; p_key_id := p_key_id p;
  p_resolver := p_resolver p; p_config := p_config p; p_version_policy := p_version_policy p;
  p_policy := Some {| pe_evaluator := evaluator; pe_revocation := revocation |};
  p_transport_binding := p_transport_binding p; p_lb_assertion := p_lb_assertion p;
  p_log_sink := p_log_sink p |}.

Definition with_transport_binding (p : Proxy) (policy : TransportBindingPolicy) : Proxy := {|
  p_signer := p_signer p; p_server_signer := p_server_signer p; p_key_id := p_key_id p;
  p_resolver := p_resolver p; p_config := p_config p; p_version_policy := p_version_policy p;
  p_policy := p_policy p; p_transport_binding := Some policy; p_lb_assertion := p_lb_assertion p;
  p_log_sink := p_log_sink p |}.

Definition with_lb_assertion (p : Proxy) (lb_assertion : LbAssertionBinding) : Proxy := {|
  p_signer := p_signer p; p_server_signer := p_server_signer p; p_key_id := p_key_id p;
  p_resolver := p_resolver p; p_config := p_config p; p_version_policy := p_version_policy p;
  p_policy := p_policy p; p_transport_binding := p_transport_binding p;
  p_lb_assertion := Some lb_assertion; p_log_sink := p_log_sink p |}.

Definition with_log_sink (p : Proxy) : Proxy := {|
  p_signer := p_signer p; p_server_signer := p_server_signer p; p_key_id := p_key_id p;
  p_resolver := p_resolver p; p_config := p_config p; p_version_policy := p_version_policy p;
  p_policy := p_policy p; p_transport_binding := p_transport_binding p;
  p_lb_assertion := p_lb_assertion p; p_log_sink := true |}.

(** ** Forwarding *)

(** [serde_json::to_value] of a [VerifiedContext]: its fields. *)
Definition verified_context_value (c : VerifiedContext) : Value :=
  json_object
    [(str "verified_signer", VString (vc_verified_signer c)); (str "key_id", VString (vc_key_id c));
     (str "on_behalf_of", VString (vc_on_behalf_of c)); (str "audience", VString (vc_audience c));
     (str "authorization_hash", VString (vc_authorization_hash c));
     (str "request_hash", VString (vc_request_hash c)); (str "verifier", VString (vc_verifier c));
     (str "verified_at", VString (vc_verified_at c))].

Definition build_verified_context (p : Proxy) (verified : VerifiedRequest) (now_unix : Z)
  : result Value McpsError :=
  let verified_at := unix_to_rfc3339_utc now_unix in
  match vr_authorization verified with
  | Draft01Hash authorization_hash =>
      Ok (verified_context_value {|
        vc_verified_signer := vr_verified_signer verified; vc_key_id := vr_key_id verified;
        vc_on_behalf_of := vr_on_behalf_of verified; vc_audience := vr_audience verified;
        vc_authorization_hash := authorization_hash; vc_request_hash := vr_request_hash verified;
        vc_verifier := p_server_signer p; vc_verified_at := verified_at |})
  | Draft02Binding authorization_binding =>
      let? canonicalization_id := ok_or (vr_canonicalization_id verified) CanonicalizationIdMissing in
      Ok (json_object
        [(str "version", VString VERSION_DRAFT_02);
         (str "verified_signer", VString (vr_verified_signer verified));
         (str "key_id", VString (vr_key_id verified));
         (str "on_behalf_of", VString (vr_on_behalf_of verified));
         (str "audience", VString (vr_audience verified));
         (str "request_hash", VString (vr_request_hash verified));
         (str "verifier", VString (p_server_signer p));
         (str "verified_at", VString verified_at);
         (str "canonicalization_id", VString canonicalization_id);
         (str "authorization_binding", binding_value authorization_binding)])
  end.

(** The injection: insert into [params._meta], or synthesize it. *)
Definition inject_verified (context_value meta : Value) : Value :=
  match meta with
  | VObject m => VObject (map_insert VERIFIED_META_KEY context_value m)
  | _ => json_object [(VERIFIED_META_KEY, context_value)]
  end.

Definition build_forwarded_request (p : Proxy) (request_bytes : bytes) (verified : VerifiedRequest)
    (now_unix : Z) : outcome (result bytes McpsError) :=
  match from_slice request_bytes with
  | None => Returns (Err CanonicalizationFailed)
  | Some request =>
      match build_verified_context p verified now_unix with
      | Err e => Returns (Err e)
      | Ok context_value =>
          match index_update [str "params"; str "_meta"] (inject_verified context_value)
                  (scrub_proxy_owned_meta request) with
          | Panics => Panics
          | Returns request' => Returns (ok_or (to_vec request') CanonicalizationFailed)
          end
      end
  end.

(** ** Signing the answer *)

Definition build_response_envelope (p : Proxy) (verified : VerifiedRequest) (now_unix : Z)
  : result Value McpsError :=
  let issued_at := unix_to_rfc3339_utc now_unix in
  match vr_authorization verified with
  | Draft01Hash _ =>
      Ok (json_object
        [(str "request_hash", VString (vr_request_hash verified));
         (str "server_signer", VString (p_server_signer p));
         (str "issued_at", VString issued_at);
         (str "signature", signature_stub (p_key_id p))])
  | Draft02Binding _ =>
      let? canonicalization_id := ok_or (vr_canonicalization_id verified) CanonicalizationIdMissing in
      Ok (json_object
        [(str "version", VString VERSION_DRAFT_02);
         (str "canonicalization_id", VString canonicalization_id);
         (str "request_hash", VString (vr_request_hash verified));
         (str "server_signer", VString (p_server_signer p));
         (str "issued_at", VString issued_at);
         (str "signature", signature_stub (p_key_id p))])
  end.

(** The four inner shapes, normalized to an object. *)
Definition wrap_inner (inner : Value) : Value :=
  match get (str "result") inner with
  | Some (VObject m) => VObject m
  | Some result => json_object [(RESPONSE_WRAP_VALUE_KEY, result)]
  | None => json_object [(RESPONSE_WRAP_INNER_ERROR_KEY, inner)]
  end.

Definition build_signed_response (p : Proxy) (inner_response : bytes) (verified : VerifiedRequest)
    (now_unix : Z) (id_value : Value) : outcome (result bytes McpsError) :=
  match from_slice inner_response with
  | None => Returns (Err CanonicalizationFailed)
  | Some inner =>
      let result := scrub_proxy_owned_meta (wrap_inner inner) in
      let response := json_object
        [(str "jsonrpc", VString (str "2.0")); (str "id", id_value); (str "result", result)] in
      match build_response_envelope p verified now_unix with
      | Err e => Returns (Err e)
      | Ok envelope =>
          match index_update [str "result"; str "_meta"; RESPONSE_META_KEY] (fun _ => envelope) response with
          | Panics => Panics
          | Returns response =>
              match response_signing_preimage response with
              | Err e => Returns (Err e)
              | Ok preimage =>
                  match map_err (fun _ => ResponseSigInvalid) (sign_response (p_signer p) preimage) with
                  | Err e => Returns (Err e)
                  | Ok signature =>
                      match index_update
                              [str "result"; str "_meta"; RESPONSE_META_KEY; str "signature"; str "value"]
                              (fun _ => VString signature) response with
                      | Panics => Panics
                      | Returns response => Returns (ok_or (to_vec response) CanonicalizationFailed)
                      end
                  end
              end
          end
      end
  end.

(** ** The handler *)

Definition log_event (p : Proxy) (verified : VerifiedRequest) (event : InnerLogEvent) : list Effect :=
  if p_log_sink p then [Logged (vr_verified_signer verified) event] else [].

Definition dispatch_and_sign (p : Proxy) (request_bytes : bytes) (verified : VerifiedRequest)
    (now_unix : Z) (id_value : Value) (w : World) : outcome (result bytes McpsError) * World :=
  match build_forwarded_request p request_bytes verified now_unix with
  | Panics => (Panics, w)
  | Returns (Err e) => (Returns (Err e), w)
  | Returns (Ok forwarded) =>
      let (inner_response, inner') := inner_dispatch (w_inner w) forwarded in
      let effects := w_effects w ++ log_event p verified RequestForwarded ++ [Dispatched forwarded] in
      let w1 := {| w_replay := w_replay w; w_inner := inner'; w_effects := effects |} in
      match build_signed_response p inner_response verified now_unix id_value with
      | Returns (Ok signed) =>
          (Returns (Ok signed),
           {| w_replay := w_replay w; w_inner := inner';
              w_effects := effects ++ log_event p verified ResponseSigned |})
      | other => (other, w1)
      end
  end.

(** The identity the channel binding is checked against: [Err] is the early
    [TransportBindingFailed]. *)
Definition lb_verified_identity (p : Proxy) (verified : VerifiedRequest) (now_unix : Z)
    (lb_assertion_header : option rstr) : result (option TransportIdentity) McpsError :=
  match p_lb_assertion p with
  | None => Ok None
  | Some lb =>
      match p_transport_binding p with
      | None => Err TransportBindingFailed
      | Some _ =>
          let? header := ok_or lb_assertion_header TransportBindingFailed in
          let? identity := map_err (fun _ => TransportBindingFailed)
                             (lb_verify lb header (vr_request_hash verified) now_unix) in
          Ok (Some identity)
      end
  end.

Definition policy_refusal (p : Proxy) (parsed : option Value) (verified : VerifiedRequest) (now_unix : Z)
    (id_value : Value) : option bytes :=
  match p_policy p with
  | None => None
  | Some policy =>
      match parsed with
      | None => Some (json_rpc_error_object CanonicalizationFailed id_value)
      | Some request_value =>
          match evaluate (pe_evaluator policy) verified request_value (p_resolver p)
                  (pe_revocation policy) now_unix with
          | Deny err => Some (json_rpc_authorization_error err id_value)
          | Allow => None
          end
      end
  end.

Definition handle_with_transport (p : Proxy) (request_bytes : bytes) (now_unix : Z)
    (transport_identity : option TransportIdentity) (lb_assertion_header : option rstr)
    (w : World) : outcome bytes * World :=
  let parsed := from_slice request_bytes in
  let id_value := default VNull (v ← parsed; get (str "id") v) in
  let (verify_result, w1) :=
    match w_replay w with
    | Some replay =>
        let (r, replay') := verify_request_dispatch request_bytes (p_resolver p) (p_config p) now_unix
                              (p_version_policy p) replay in
        (r, {| w_replay := Some replay'; w_inner := w_inner w; w_effects := w_effects w |})
    | None => (Err ReplayCacheUnavailable, w)
    end in
  match verify_result with
  | Err err => (Returns (json_rpc_error_object err id_value), w1)
  | Ok verified =>
      match policy_refusal p parsed verified now_unix id_value with
      | Some refusal => (Returns refusal, w1)
      | None =>
          match lb_verified_identity p verified now_unix lb_assertion_header with
          | Err err => (Returns (json_rpc_error_object err id_value), w1)
          | Ok lb_identity =>
              match match p_transport_binding p with
                    | None => Ok tt
                    | Some binding =>
                        binding (vr_verified_signer verified)
                          (match lb_identity with Some i => Some i | None => transport_identity end)
                    end with
              | Err err => (Returns (json_rpc_error_object err id_value), w1)
              | Ok _ =>
                  match dispatch_and_sign p request_bytes verified now_unix id_value w1 with
                  | (Returns (Ok bs), w2) => (Returns bs, w2)
                  | (Returns (Err err), w2) => (Returns (json_rpc_error_object err id_value), w2)
                  | (Panics, w2) => (Panics, w2)
                  end
              end
          end
      end
  end.

Definition handle (p : Proxy) (request_bytes : bytes) (now_unix : Z) (w : World) : outcome bytes * World :=
  handle_with_transport p request_bytes now_unix None None w.
End Proxy.

Arguments World C Srv : clear implicits.

(** ** A sample sidecar

    A stand-in for [serde_json::to_vec], two inner servers that count their
    calls and a sidecar for the messages of [Samples.v], for the closed
    examples of the handler. *)

(** Canonical text; what has none gets the empty string. *)
Definition toy_to_vec : SerdeSer :=
  fun v => match canonicalize_json_value v with Ok bs => Some bs | Err _ => Some [] end.

Lemma toy_to_vec_total : @SerdeSerLaws toy_to_vec.
Proof. split. intros v. unfold to_vec, toy_to_vec. by destruct (canonicalize_json_value v). Qed.

Lemma toy_to_vec_reads : @SerdeWrites toy_serde_json toy_to_vec.
Proof.
  split. intros v bs W Hs. unfold to_vec, toy_to_vec.
  destruct (safe_canonicalize v W) as [bs' Hc]; [by eapply safe_mono; [|exact Hs]; apply (bool_decide_eq_true_1 _)|].
  rewrite Hc. intros [= <-]. split; [by rewrite (canonicalize_of_json v bs' W Hc)|].
  unfold safe in Hs. destruct (from_serde_value_at SERDE_MAX_NESTING v) as [j|] eqn:Ej; [|done].
  destruct toy_serde_json_reads as [Hr]. eapply Hr; eauto.
Qed.

(** An inner server that gives one answer and counts its calls. *)
Definition toy_inner (answer : bytes) : InnerServer nat := fun calls _ => (answer, S calls).

Definition good_answer : bytes := json_text "{'jsonrpc':'2.0','id':1,'result':{'ok':true}}".
Definition bad_answer : bytes := json_text "{'jsonrpc':'2.0','id':1,'result':{'ok':true,'_meta':7}}".

Module ToyProxy.
#[export] Existing Instance toy_to_vec.
#[export] Existing Instance toy_to_vec_total.
#[export] Existing Instance toy_to_vec_reads.
End ToyProxy.

Import Toy ToyProxy.

Definition sample_proxy : Proxy :=
  proxy_new (signing_key_signer sample_key) (str "did:srv") (str "s1") sample_resolver (str "did:srv") 60.

Definition sample_world : World InMemoryReplayCache nat :=
  {| w_replay := Some sample_replay; w_inner := 0%nat; w_effects := [] |}.

Definition sample_run (answer : bytes) (w : World InMemoryReplayCache nat)
  : outcome bytes * World InMemoryReplayCache nat :=
  @handle_with_transport _ _ _ _ _ _ _ _ _ _ (toy_inner answer) sample_proxy sample_raw01 sample_now None None w.

(** The first delivery reaches the inner server and its answer verifies. *)
Example sample_run_answered :
  match sample_run good_answer sample_world with
  | (Returns bs, w) => is_ok (verify_response bs sample_resolver sample_hash01) && (w_inner w =? 1)%nat
  | (Panics, _) => false
  end = true.
Proof. vm_compute. reflexivity. Qed.

(** The second delivery is a replay and does not. *)
Example sample_run_replayed :
  w_inner (sample_run good_answer (sample_run good_answer sample_world).2).2 = 1%nat.
Proof. vm_compute. reflexivity. Qed.

Definition sample_dispatch : result VerifiedRequest McpsError * InMemoryReplayCache :=
  verify_request_dispatch sample_raw01 (p_resolver sample_proxy) (p_config sample_proxy) sample_now
    (p_version_policy sample_proxy) sample_replay.

Definition sample_vr : VerifiedRequest := Eval vm_compute in
  match sample_dispatch.1 with Ok vr => vr | Err _ =>
    {| vr_verified_signer := []; vr_key_id := []; vr_on_behalf_of := []; vr_audience := [];
       vr_authorization := Draft01Hash []; vr_request_hash := []; vr_nonce := []; vr_issued_at := [];
       vr_expires_at := []; vr_canonicalization_id := None |} end.

Definition sample_replay' : InMemoryReplayCache := Eval vm_compute in sample_dispatch.2.

Lemma sample_dispatch_Ok :
  verify_request_dispatch sample_raw01 (p_resolver sample_proxy) (p_config sample_proxy) sample_now
    (p_version_policy sample_proxy) sample_replay = (Ok sample_vr, sample_replay').
Proof. vm_compute. reflexivity. Qed.
