(* ===== verification/DurableReplay.v ===== *)
(** * The durable replay cache

    [mcps-proxy/src/durable_replay.rs]: the file-backed cache of a single
    node.  The disk is part of the state: the content of the file and what the
    coming writes do (succeed, fail before the rename takes effect, or fail
    after it).  A restart opens a new cache on the disk the old one left. *)

From S2P Require Import Prelude Utf8 Errors Json Canonical CanonicalRound Signing Time Crypto Envelope Instances.
From S2P Require Import Values Constraints Replay Resolver Pipeline PipelineSpec PipelineTheorems.
From S2P Require Import Samples PipelineHistory Unwrap Graft Policy PolicySpec Proxy.

Definition PRUNE_EVERY_N_INSERTS : Z := 64.
Definition MAX_ENTRIES : Z := 1000000.

(** An [io::Error]: of the file system, one that carries a [serde_json] error,
    or invalid data. *)
Inductive IoError : Type :=
| IoFs (code : Z)
| IoOther
| IoInvalidData (message : rstr).

(** What a write of the file runs into. *)
Inductive WriteFault : Type :=
| BeforeRename (code : Z)
| AfterRename (code : Z).

(** The file, whether it can be read, and the faults of the coming writes in
    order; past the end of the list there are none. *)
Record Disk : Type := {
  disk_file : option bytes;
  disk_unreadable : option Z;
  disk_faults : list (option WriteFault);
}.

Abbreviation entries_map := (gmap replay_key Z) (only parsing).

(** ** The order a [BTreeMap] iterates in *)

Fixpoint str_leb (a b : rstr) : bool :=
  match a, b with
  | [], _ => true
  | _ :: _, [] => false
  | x :: a', y :: b' => (x <? y) || ((x =? y) && str_leb a' b')
  end.

(** Lexicographic on the triple. *)
Definition key_leb (k1 k2 : replay_key) : bool :=
  let '(s1, a1, n1) := k1 in
  let '(s2, a2, n2) := k2 in
  if bool_decide (s1 = s2) then
    if bool_decide (a1 = a2) then str_leb n1 n2 else str_leb a1 a2
  else str_leb s1 s2.

Definition entry_le (x y : replay_key * Z) : Prop := key_leb x.1 y.1 = true.

#[export] Instance entry_le_dec : RelDecision entry_le.
Proof. intros x y. unfold entry_le. apply _. Defined.

Definition btree_iter (m : entries_map) : list (replay_key * Z) := merge_sort entry_le (map_to_list m).

Section Durable.
Context `{SerdeJson, SerdeSer}.
Context (io_display : IoError -> rstr).

Definition entry_value (e : replay_key * Z) : Value :=
  json_object [(str "signer", VString e.1.1.1); (str "audience", VString e.1.1.2);
               (str "nonce", VString e.1.2); (str "retain_until", value_of_i64 e.2)].

Definition next_fault (d : Disk) : option WriteFault := default None (head (disk_faults d)).

Definition write_disk (d : Disk) (file : option bytes) : Disk :=
  {| disk_file := file; disk_unreadable := disk_unreadable d; disk_faults := tail (disk_faults d) |}.

Definition persist (d : Disk) (entries : entries_map) : result unit IoError * Disk :=
  match to_vec (VArray (entry_value <$> btree_iter entries)) with
  | None => (Err IoOther, d)
  | Some bs =>
      match next_fault d with
      | None => (Ok tt, write_disk d (Some bs))
      | Some (BeforeRename code) => (Err (IoFs code), write_disk d (disk_file d))
      | Some (AfterRename code) => (Err (IoFs code), write_disk d (Some bs))
      end
  end.

(** One iteration of the loop of [load]. *)
Definition load_entry (m : entries_map) (entry : Value) : result entries_map IoError :=
  match get (str "signer") entry ≫= as_str, get (str "audience") entry ≫= as_str,
        get (str "nonce") entry ≫= as_str,
        get (str "retain_until") entry ≫= (fun v => match v with VNumber n => as_i64 n | _ => None end) with
  | Some s, Some a, Some n, Some r => Ok (<[(s, a, n) := r]> m)
  | _, _, _, _ => Err (IoInvalidData (str "malformed replay cache entry"))
  end.

Fixpoint load_entries (m : entries_map) (array : list Value) : result entries_map IoError :=
  match array with
  | [] => Ok m
  | entry :: array' => let? m' := load_entry m entry in load_entries m' array'
  end.

Definition load (d : Disk) (bs : bytes) : result entries_map IoError :=
  match disk_unreadable d with
  | Some code => Err (IoFs code)
  | None =>
      let? value := ok_or (from_slice bs) IoOther in
      match value with
      | VArray array => load_entries ∅ array
      | _ => Err (IoInvalidData (str "replay cache is not a JSON array"))
      end
  end.

(** [dc_clock] is what the injected clock reads next. *)
Record DurableReplayCache : Type := {
  dc_disk : Disk;
  dc_max_clock_skew_secs : Z;
  dc_entries : entries_map;
  dc_inserts_since_prune : Z;
  dc_max_entries : Z;
  dc_clock : Z;
}.

Definition durable_open (d : Disk) (max_clock_skew_secs clock : Z) : result DurableReplayCache IoError :=
  let? entries := match disk_file d with Some bs => load d bs | None => Ok ∅ end in
  Ok {| dc_disk := d; dc_max_clock_skew_secs := max_clock_skew_secs; dc_entries := entries;
        dc_inserts_since_prune := 0; dc_max_entries := MAX_ENTRIES; dc_clock := clock |}.

Definition with_state (c : DurableReplayCache) (d : Disk) (entries : entries_map) (inserts : Z) : DurableReplayCache :=
  {| dc_disk := d; dc_max_clock_skew_secs := dc_max_clock_skew_secs c; dc_entries := entries;
     dc_inserts_since_prune := inserts; dc_max_entries := dc_max_entries c; dc_clock := dc_clock c |}.

Definition retain_from (entries : entries_map) (now : Z) : entries_map := filter (fun kv => now <= kv.2) entries.

Definition durable_prune (c : DurableReplayCache) (now_unix : Z) : result unit IoError * DurableReplayCache :=
  let entries := retain_from (dc_entries c) now_unix in
  let (r, d) := persist (dc_disk c) entries in
  (r, with_state c d entries (dc_inserts_since_prune c)).

Definition CAPACITY_PREFIX : rstr := str "replay cache at capacity (".
Definition CAPACITY_SUFFIX : rstr :=
  str " entries); refusing to admit further nonces until expired entries drain".

(** [u64::saturating_add]. *)
Definition saturating_add_u64 (a b : Z) : Z := Z.min U64_MAX (a + b).

(** The opportunistic pruning inside a call, every so many inserts. *)
Definition prune_if_due (c : DurableReplayCache) : DurableReplayCache :=
  let inserts := saturating_add_u64 (dc_inserts_since_prune c) 1 in
  if PRUNE_EVERY_N_INSERTS <=? inserts
  then with_state c (dc_disk c) (retain_from (dc_entries c) (dc_clock c)) 0
  else with_state c (dc_disk c) (dc_entries c) inserts.

Definition durable_check_and_insert (c : DurableReplayCache) (signer audience nonce : rstr) (expires_at_unix : Z)
  : result ReplayDecision ReplayCacheError * DurableReplayCache :=
  let key := (signer, audience, nonce) in
  if bool_decide (is_Some (dc_entries c !! key)) then (Ok Replay, c)
  else
    let c1 := prune_if_due c in
    if dc_max_entries c1 <=? Z.of_nat (size (dc_entries c1))
    then (Err (ReplayUnavailable (CAPACITY_PREFIX ++ display_signed (dc_max_entries c1) ++ CAPACITY_SUFFIX)), c1)
    else
      let retain_until := saturating_add expires_at_unix (dc_max_clock_skew_secs c1) in
      let entries := <[key := retain_until]> (dc_entries c1) in
      match persist (dc_disk c1) entries with
      | (Ok _, d) => (Ok Fresh, with_state c1 d entries (dc_inserts_since_prune c1))
      | (Err e, d) =>
          (Err (ReplayUnavailable (str "persist failed: " ++ io_display e)),
           with_state c1 d (delete key entries) (dc_inserts_since_prune c1))
      end.
End Durable.

(** The file system's error texts are an argument, so the cache is an instance
    for each rendering of them. *)
Definition durable_replay_cache `{SerdeJson, SerdeSer} (io_display : IoError -> rstr)
  : ReplayCache DurableReplayCache := {|
  check_and_insert := durable_check_and_insert io_display;
  durability_class := fun _ => Durable;
|}.

(** ** The file read back *)

Definition entry_ok (e : replay_key * Z) : Prop := key_wf e.1 /\ - MAX_SAFE_INTEGER <= e.2 <= MAX_SAFE_INTEGER.

Definition entries_ok (m : entries_map) : Prop := map_Forall (fun k u => entry_ok (k, u)) m.

Lemma btree_iter_perm m : btree_iter m ≡ₚ map_to_list m.
Proof. apply merge_sort_Permutation. Qed.

Lemma btree_iter_ok m : entries_ok m -> Forall entry_ok (btree_iter m).
Proof.
  intros Hm. rewrite btree_iter_perm. apply Forall_forall. intros [k u] Hin%elem_of_map_to_list. by apply Hm.
Qed.

Lemma entry_value_wf e : entry_ok e -> value_wf (entry_value e).
Proof.
  intros [(? & ? & ?) Hu]. apply value_wf_json_object. rewrite !Forall_cons, Forall_nil.
  split_and!; cbn [fst snd]; try solve_str_wf. unfold value_of_i64. unfold MAX_SAFE_INTEGER in *.
  destruct (e.2 <? 0) eqn:E; breflect; constructor; unfold I64_MIN, U64_MAX; lia.
Qed.

Lemma entry_value_safe n e : entry_ok e -> safe (S n) (entry_value e).
Proof.
  intros [_ Hu]. apply safe_json_object. rewrite !Forall_cons, Forall_nil. split_and!; cbn [snd]; try done; try apply safe_string.
  unfold value_of_i64, safe. destruct n; cbn [from_serde_value_at]; by rewrite from_serde_of_integer.
Qed.

Lemma load_entry_reads m e v :
  entry_ok e -> value_equiv (entry_value e) v -> load_entry m v = Ok (<[e.1 := e.2]> m).
Proof.
  intros [_ Hu] H. destruct (value_equiv_is_object _ _ H eq_refl) as [vm ->]. unfold load_entry. cbn [get].
  rewrite (equiv_field _ vm (str "signer") e.1.1.1 H eq_refl), (equiv_field _ vm (str "audience") e.1.1.2 H eq_refl),
    (equiv_field _ vm (str "nonce") e.1.2 H eq_refl).
  destruct (value_equiv_get _ _ (str "retain_until") (value_of_i64 e.2) H eq_refl) as (y & Hy & Hq). cbn [get] in Hy.
  inversion Hq as [|?|n Hn|?|?|?]; subst y. rewrite Hy. cbn [mbind option_bind as_str].
  assert (as_i64 (if e.2 <? 0 then NegInt e.2 else PosInt e.2) = Some e.2) as ->.
  { destruct (e.2 <? 0); [done|]. cbn. unfold MAX_SAFE_INTEGER, I64_MAX in *. by rewrite (proj2 (Z.leb_le _ _)) by lia. }
  by destruct e as [[[s a] k] u].
Qed.

Definition insert_all (m : entries_map) (l : list (replay_key * Z)) : entries_map :=
  foldl (fun (m : entries_map) e => <[e.1 := e.2]> m) m l.

Lemma insert_all_cons m e l : insert_all m (e :: l) = insert_all (<[e.1 := e.2]> m) l.
Proof. done. Qed.

Lemma load_entries_reads m l l' :
  Forall entry_ok l -> Forall2 value_equiv (entry_value <$> l) l' ->
  load_entries m l' = Ok (insert_all m l).
Proof.
  intros Hl. revert m l'. induction Hl as [|e l He _ IH]; intros m l' H; inversion H; subst; cbn [load_entries]; [done|]; rewrite insert_all_cons.
  rewrite (load_entry_reads m e) by done. by apply IH.
Qed.

Lemma foldl_insert_lookup (l : list (replay_key * Z)) m k :
  NoDup l.*1 -> (forall u, (k, u) ∈ l -> insert_all m l !! k = Some u) /\
  (k ∉ l.*1 -> insert_all m l !! k = m !! k).
Proof.
  revert m. induction l as [|e l IH]; intros m; rewrite ?insert_all_cons; cbn [fmap list_fmap]; [split; [set_solver|done]|].
  intros [He Hd]%NoDup_cons. destruct (IH (<[e.1 := e.2]> m) Hd) as [H1 H2]. split.
  - intros u [<-|Hin]%elem_of_cons; [|auto]. rewrite H2 by done. apply lookup_insert_eq.
  - intros [Hk Hn]%not_elem_of_cons. rewrite H2 by done. by apply lookup_insert_ne.
Qed.

Lemma foldl_insert_iter m : insert_all ∅ (btree_iter m) = m.
Proof.
  assert (Hd : NoDup (btree_iter m).*1) by (rewrite btree_iter_perm; apply NoDup_fst_map_to_list).
  apply map_eq. intros k. destruct (foldl_insert_lookup (btree_iter m) ∅ k Hd) as [H1 H2].
  destruct (m !! k) as [u|] eqn:E.
  - apply H1. rewrite btree_iter_perm. by apply elem_of_map_to_list.
  - rewrite H2; [apply lookup_empty|]. rewrite btree_iter_perm. intros ([k' u] & -> & Hin)%list_elem_of_fmap.
    apply elem_of_map_to_list in Hin. cbn in E. congruence.
Qed.

Section Reads.
Context `{SJ : SerdeJson, SJL : !SerdeJsonLaws, SS : !SerdeSer, SSL : !SerdeSerLaws, SW : !SerdeWrites}.

Lemma load_written d m bs :
  entries_ok m -> disk_unreadable d = None ->
  to_vec (VArray (entry_value <$> btree_iter m)) = Some bs -> load d bs = Ok m.
Proof.
  intros Hm Hr Hb. pose proof (btree_iter_ok m Hm) as Hl.
  assert (W : value_wf (VArray (entry_value <$> btree_iter m))).
  { constructor. apply Forall_fmap. eapply Forall_impl; [exact Hl|]. intros e. apply entry_value_wf. }
  assert (Hs : safe SERDE_MAX_NESTING (VArray (entry_value <$> btree_iter m))).
  { apply safe_array, Forall_fmap. eapply Forall_impl; [exact Hl|]. intros e. apply entry_value_safe. }
  destruct (to_vec_reads _ _ W Hs Hb) as (_ & v & Hv & _ & Hq). unfold load. rewrite Hr, Hv. cbn [ok_or].
  inversion Hq as [| | | |? l' Hl'|]; subst. rewrite (load_entries_reads _ _ _ Hl Hl'). by rewrite foldl_insert_iter.
Qed.

(** ** The contract *)

(** What the running cache holds is on the disk. *)
Definition durable_inv (c : DurableReplayCache) : Prop :=
  - 2 ^ 52 <= dc_max_clock_skew_secs c <= 2 ^ 52 /\ disk_unreadable (dc_disk c) = None /\
  exists m, dc_entries c ⊆ m /\ entries_ok m /\
    match disk_file (dc_disk c) with Some bs => load (dc_disk c) bs = Ok m | None => m = ∅ end.

Lemma load_write_disk d f bs : load (write_disk d f) bs = load d bs.
Proof. done. Qed.

Lemma entries_ok_subset m m' : m ⊆ m' -> entries_ok m' -> entries_ok m.
Proof. intros Hs Hm k u Hk. apply Hm. by eapply lookup_weaken. Qed.

(** Whatever a write runs into, the disk then holds the new entries or the old
    ones, and the new ones when it succeeded. *)
Lemma persist_disk d m0 m :
  disk_unreadable d = None -> entries_ok m ->
  match disk_file d with Some bs => load d bs = Ok m0 | None => m0 = ∅ end ->
  let d' := (persist d m).2 in
  disk_unreadable d' = None /\ exists m1,
    match disk_file d' with Some bs => load d' bs = Ok m1 | None => m1 = ∅ end /\
    (m1 = m \/ (m1 = m0 /\ is_ok (persist d m).1 = false)).
Proof.
  intros Hr Hm H0. unfold persist. destruct (to_vec_total (VArray (entry_value <$> btree_iter m))) as [bs Hb]. rewrite Hb.
  pose proof (load_written d m bs Hm Hr Hb) as Hl.
  destruct (next_fault d) as [[code|code]|]; cbn; (split; [done|]); eauto.
Qed.

Lemma retain_from_lookup m now k u : retain_from m now !! k = Some u <-> m !! k = Some u /\ now <= u.
Proof. unfold retain_from. rewrite map_lookup_filter_Some. done. Qed.

Lemma retain_from_subset m now : retain_from m now ⊆ m.
Proof. apply map_filter_subseteq. Qed.

Lemma persist_inv c m0 m inserts entries :
  durable_inv c -> entries_ok m -> entries ⊆ m -> entries ⊆ m0 \/ is_ok (persist (dc_disk c) m).1 = true ->
  (exists mm, mm = m0 /\ match disk_file (dc_disk c) with Some bs => load (dc_disk c) bs = Ok mm | None => mm = ∅ end /\ entries_ok mm) ->
  durable_inv (with_state c (persist (dc_disk c) m).2 entries inserts).
Proof.
  intros (Hs & Hr & _) Hm Hsub Hor (mm & -> & Hd & Hmm). split; [done|].
  destruct (persist_disk _ _ _ Hr Hm Hd) as (Hr' & m1 & Hm1 & Hc). split; [done|]. exists m1. cbn.
  destruct Hc as [->|[-> Hf]]; split_and!; try done. destruct Hor as [|Hx]; [done|congruence].
Qed.

Section Contract.
Context (io_display : IoError -> rstr).
#[local] Instance durable_cache_instance : ReplayCache DurableReplayCache := durable_replay_cache io_display.

Definition set_clock (now : Z) (c : DurableReplayCache) : DurableReplayCache :=
  {| dc_disk := dc_disk c; dc_max_clock_skew_secs := dc_max_clock_skew_secs c; dc_entries := dc_entries c;
     dc_inserts_since_prune := dc_inserts_since_prune c; dc_max_entries := dc_max_entries c; dc_clock := now |}.

(** The owner prunes, or the process restarts on the same disk with the same
    skew, at any point between two calls. *)
Inductive durable_maintains (now : Z) (c : DurableReplayCache) : DurableReplayCache -> Prop :=
| maintains_prune : durable_maintains now c (durable_prune c now).2
| maintains_restart c' :
    durable_open (dc_disk c) (dc_max_clock_skew_secs c) now = Ok c' -> durable_maintains now c c'.

Lemma prune_if_due_spec c :
  exists base inserts, prune_if_due c = with_state c (dc_disk c) base inserts /\ base ⊆ dc_entries c /\
    forall k u, dc_entries c !! k = Some u -> base !! k = Some u \/ u < dc_clock c.
Proof.
  unfold prune_if_due. destruct (_ <=? _).
  - exists (retain_from (dc_entries c) (dc_clock c)), 0. split_and!; [done|apply retain_from_subset|].
    intros k u Hk. destruct (decide (dc_clock c <= u)); [left; by apply retain_from_lookup|right; lia].
  - eexists _, _. split_and!; [done..|]. intros k u. by left.
Qed.

(** What a call does: refuse a recorded triple; refuse at capacity; record and
    persist; or roll back. *)
Lemma durable_call_cases c s a n t r c' :
  durable_check_and_insert io_display c s a n t = (r, c') ->
  (c' = c /\ r = Ok Replay) \/
  (dc_entries c !! (s, a, n) = None /\ exists base inserts, base ⊆ dc_entries c /\
     (forall k u, dc_entries c !! k = Some u -> base !! k = Some u \/ u < dc_clock c) /\
     let m := <[(s, a, n) := saturating_add t (dc_max_clock_skew_secs c)]> base in
     let p := persist (dc_disk c) m in
     (is_ok r = false /\ c' = with_state c (dc_disk c) base inserts) \/
     (r = Ok Fresh /\ is_ok p.1 = true /\ c' = with_state c p.2 m inserts) \/
     (is_ok r = false /\ c' = with_state c p.2 base inserts)).
Proof.
  unfold durable_check_and_insert. case_bool_decide as Hk; [intros [= <- <-]; by left|]. intros Hc. right.
  apply eq_None_not_Some in Hk. split; [done|].
  destruct (prune_if_due_spec c) as (base & inserts & Hb & Hsub & Hkeep). rewrite Hb in Hc.
  exists base, inserts. split_and!; [done..|]. cbn [dc_max_entries dc_entries with_state dc_max_clock_skew_secs dc_disk] in Hc.
  destruct (_ <=? _) in Hc; [injection Hc as <- <-; by left|].
  assert (Hn : base !! (s, a, n) = None) by (by eapply lookup_weaken_None). right.
  destruct (persist _ _) as [[u|e] d]; injection Hc as <- <-; [by left|right]. by rewrite delete_insert_id.
Qed.

Lemma durable_call_inv c s a n t r c' :
  durable_inv c -> call_ok s a n t -> durable_check_and_insert io_display c s a n t = (r, c') -> durable_inv c'.
Proof.
  intros HI (Ws & Wa & Wn & text & Ht) [[-> _]|(Hk & base & inserts & Hsub & _ & Hc)]%durable_call_cases; [done|].
  pose proof HI as (Hs & Hr & m0 & Hm0 & Hok & Hd). cbn zeta in Hc. set (m := <[_ := _]> base) in Hc.
  assert (Hbase : base ⊆ m0) by (by transitivity (dc_entries c)).
  assert (Hm : entries_ok m).
  { apply map_Forall_insert_2; [|by eapply entries_ok_subset]. split; [done|]. apply parse_rfc3339_utc_bound in Ht. cbn.
    unfold saturating_add, sat_i64, I64_MIN, I64_MAX, MAX_SAFE_INTEGER. lia. }
  assert (Hnb : base !! (s, a, n) = None) by (by eapply lookup_weaken_None).
  destruct Hc as [[_ ->]|[(_ & Hp & ->)|[_ ->]]].
  - split; [done|]. split; [done|]. by exists m0.
  - apply (persist_inv c m0 m); eauto.
  - apply (persist_inv c m0 m); eauto. by apply insert_subseteq.
Qed.

#[local] Program Instance durable_retention : RetentionContract DurableReplayCache := {
  retention_inv := durable_inv;
  retain_skew := dc_max_clock_skew_secs;
  retained c k := dc_entries c !! k;
  over now u := u < now;
  tick := set_clock;
  maintains := durable_maintains;
  ended now _ := now;
}.
Next Obligation. intros; cbn in *; lia. Qed.
Next Obligation. intros; cbn in *; lia. Qed.
Next Obligation. intros; cbn in *; lia. Qed.
Next Obligation.
  intros now c s a n t c' _ _ [[_ ?]|(Hk & base & inserts & _ & _ & [[? _]|[(_ & _ & ->)|[? _]]])]%durable_call_cases; try done.
  cbn in Hk |- *. rewrite lookup_insert_eq. split; [congruence|left; by eexists].
Qed.
Next Obligation.
  intros now c s a n t r c' HI Hok Hc. assert (HI' : durable_inv (set_clock now c)) by done.
  split; [by eapply durable_call_inv|].
  apply durable_call_cases in Hc as [[-> _]|(Hk & base & inserts & _ & Hkeep & Hc)]; [split; [done|by left]|].
  assert (Hn : forall k u, dc_entries c !! k = Some u ->
    <[(s, a, n) := saturating_add t (dc_max_clock_skew_secs c)]> base !! k = Some u \/ u < now).
  { intros k u Hu. rewrite lookup_insert_ne by (intros <-; cbn in Hk; congruence). by apply Hkeep. }
  destruct Hc as [[_ ->]|[(_ & _ & ->)|[_ ->]]]; split; try done; try apply Hkeep; apply Hn.
Qed.
Next Obligation. done. Qed.
Next Obligation.
  intros now c c' HI Hm. pose proof HI as (Hs & Hr & m0 & Hm0 & Hok & Hd). destruct Hm as [|c' Ho].
  - unfold durable_prune. destruct (persist _ _) as [r d] eqn:Ep. cbn [snd]. split_and!; [|done|].
    + replace d with (persist (dc_disk c) (retain_from (dc_entries c) now)).2 by (by rewrite Ep).
      pose proof (retain_from_subset (dc_entries c) now) as Hsub.
      apply (persist_inv c m0); eauto; [eapply entries_ok_subset; [|exact Hok]|left]; by transitivity (dc_entries c).
    + intros k u Hu. destruct (decide (now <= u)); [left; by apply retain_from_lookup|right; lia].
  - unfold durable_open in Ho. destruct (disk_file (dc_disk c)) as [bs|] eqn:Ef; [rewrite Hd in Ho|subst m0];
      injection Ho as <-; (split; [|split; [done|]]); cbn.
    + split; [done|]. split; [done|]. exists m0. cbn. by rewrite Ef.
    + intros k u Hu. left. by eapply lookup_weaken.
    + split; [done|]. split; [done|]. exists ∅. cbn. by rewrite Ef.
    + intros k u Hu. left. by eapply lookup_weaken.
Qed.

#[local] Instance durable_prompt : PromptCache DurableReplayCache.
Proof.
  split. intros now t0 c s a n t c' [[_ ?]|(Hk & _)]%durable_call_cases Ht; [done|]. split; [done|cbn in *; lia].
Qed.

(** A disk the cache has written can be opened again. *)
Lemma durable_reopen c now :
  durable_inv c -> exists c', durable_open (dc_disk c) (dc_max_clock_skew_secs c) now = Ok c'.
Proof.
  intros (_ & _ & m & _ & _ & Hd). unfold durable_open. destruct (disk_file (dc_disk c)); [rewrite Hd|]; eauto.
Qed.

Section History.
Context `{B64 : !Base64, SH : !Sha2, DK : !Dalek}.
Context `{D1 : !Deserialize RequestEnvelope, D2 : !Deserialize Draft02RequestEnvelope}.
Context `{L1 : !DeserializeLaws RequestEnvelope, L2 : !DeserializeLaws Draft02RequestEnvelope}.

(** C20: At most once across restarts and write failures: for a node that
    starts without a state file, after any sequence of deliveries, prunings and
    restarts, with writes failing at any point before or after the rename, and
    the cache pruning itself every so many inserts, a (signer, audience, nonce)
    has been accepted a second time only after the whole window (signed expiry
    and skew) of the earlier acceptance, and none twice under the same signed
    expiry; and at that moment a restart succeeds, and every request accepted
    so far is still held by the reopened cache or past its window. *)
Theorem durable_at_most_once now d skew c h :
  - 2 ^ 52 <= skew <= 2 ^ 52 -> disk_file d = None -> disk_unreadable d = None ->
  durable_open d skew now = Ok c -> rtc step (history_start now c) h ->
  windows_apart skew (h_accepted h) /\ NoDup (verdict_id <$> (h_accepted h).*1) /\
  exists c', durable_open (dc_disk (h_cache h)) (dc_max_clock_skew_secs (h_cache h)) (h_now h) = Ok c' /\
    Forall (fun vr => spent c' (h_now h) (verdict_id vr)) (h_accepted h).*1.
Proof.
  intros Hs Hf Hr Ho Hst. unfold durable_open in Ho. rewrite Hf in Ho. injection Ho as Ho.
  assert (H0 : retention_inv c).
  { subst c. split; [done|]. split; [done|]. exists ∅. cbn. by rewrite Hf. }
  assert (Hsk0 : retain_skew c = skew) by (by subst c). rewrite <- Hsk0.
  destruct (history_inv_reachable now c h H0 Hst) as (HI & _ & Hsp & Hwa).
  split; [done|]. split; [exact (history_nodup now c h H0 Hst)|]. destruct (durable_reopen (h_cache h) (h_now h) HI) as [c' Hc']. exists c'. split; [done|].
  destruct (retained_maintains (h_now h) (h_cache h) c' HI (maintains_restart _ _ _ Hc')) as (_ & Hsk & Hk).
  apply Forall_fmap. eapply Forall_impl; [exact Hsp|]. intros a. cbn. apply spent_keeps; [done|lia|done].
Qed.
End History.
End Contract.
End Reads.

(** ** A restart between two deliveries of the same bytes *)

Import Toy ToyPolicy ToyProxy.

Definition sample_disk : Disk := {| disk_file := None; disk_unreadable := None; disk_faults := [] |}.

Definition no_text (e : IoError) : rstr := [].

#[local] Instance sample_durable_cache : ReplayCache DurableReplayCache := durable_replay_cache no_text.
#[local] Existing Instance durable_retention.

Definition sample_durable : DurableReplayCache :=
  {| dc_disk := sample_disk; dc_max_clock_skew_secs := 60; dc_entries := ∅; dc_inserts_since_prune := 0;
     dc_max_entries := MAX_ENTRIES; dc_clock := sample_now |}.

Definition sample_durable1 : result VerifiedRequest McpsError * DurableReplayCache :=
  deliver (tick sample_now sample_durable) (sample_delivery sample_now).

Definition sample_reopened : DurableReplayCache :=
  match durable_open (dc_disk sample_durable1.2) 60 (sample_now + 10) with Ok c => c | Err _ => sample_durable end.

Definition sample_durable2 : result VerifiedRequest McpsError * DurableReplayCache :=
  deliver (tick (sample_now + 20) sample_reopened) (sample_delivery (sample_now + 20)).

Example sample_durable_refused : is_ok sample_durable1.1 = true /\ sample_durable2.1 = Err ReplayDetected.
Proof. split; vm_compute; reflexivity. Qed.

Definition sample_history1 : history DurableReplayCache :=
  {| h_now := ended sample_now sample_durable1.2; h_cache := sample_durable1.2;
     h_accepted := match sample_durable1.1 with Ok vr => [(vr, ended sample_now sample_durable1.2)] | Err _ => [] end |}.

Definition sample_history2 : history DurableReplayCache :=
  {| h_now := sample_now + 10; h_cache := sample_reopened; h_accepted := h_accepted sample_history1 |}.

Definition sample_history3 : history DurableReplayCache :=
  {| h_now := ended (sample_now + 20) sample_durable2.2; h_cache := sample_durable2.2;
     h_accepted := match sample_durable2.1 with
                   | Ok vr => (vr, ended (sample_now + 20) sample_durable2.2) :: h_accepted sample_history2 | Err _ => h_accepted sample_history2 end |}.

Lemma sample_durable_steps : rtc step (history_start sample_now sample_durable) sample_history3.
Proof.
  apply (rtc_l _ _ sample_history1).
  { apply (step_deliver (history_start sample_now sample_durable) (sample_delivery sample_now) sample_now
             sample_durable1.1 sample_durable1.2); [reflexivity..|]. unfold sample_durable1. apply surjective_pairing. }
  apply (rtc_l _ _ sample_history2).
  { apply (step_maintain sample_history1 (sample_now + 10) sample_reopened); [cbn; lia|].
    apply maintains_restart. vm_compute. reflexivity. }
  apply rtc_once.
  apply (step_deliver sample_history2 (sample_delivery (sample_now + 20)) (sample_now + 20) sample_durable2.1 sample_durable2.2);
    [cbn; lia|reflexivity|vm_compute; reflexivity|]. unfold sample_durable2. apply surjective_pairing.
Qed.

Lemma durable_at_most_once_witness :
  length (h_accepted sample_history3) = 1%nat /\ windows_apart 60 (h_accepted sample_history3) /\
  NoDup (verdict_id <$> (h_accepted sample_history3).*1) /\
  exists c', durable_open (dc_disk (h_cache sample_history3)) (dc_max_clock_skew_secs (h_cache sample_history3))
               (h_now sample_history3) = Ok c' /\
    Forall (fun vr => spent c' (h_now sample_history3) (verdict_id vr)) (h_accepted sample_history3).*1.
Proof.
  split; [vm_compute; reflexivity|].
  apply (durable_at_most_once no_text sample_now sample_disk 60 sample_durable sample_history3);
    [lia|reflexivity..|exact sample_durable_steps].
Defined.
