(* ===== verification/ClientRequest.v ===== *)
(** * Signing requests

    The client side of a request: [mcps-client-core/src/request.rs] and
    [signer.rs] (draft-02 requests through a policy-checked signer) and
    [mcps-host/src/signer.rs] (draft-01 requests of the host).  A signer is a
    record of its trait's methods. *)

From S2P Require Import Prelude Utf8 Errors Json Canonical Strings Signing Values Time Crypto Envelope.
From S2P Require Import Constraints Replay Resolver Pipeline PipelineSpec PipelineTheorems Unwrap Graft.

(** ** request.rs *)

Record RequestSigningInputs : Type := {
  in_signer : rstr;
  in_key_id : rstr;
  in_on_behalf_of : rstr;
  in_audience : rstr;
  in_authorization_binding : AuthorizationBinding;
  in_nonce : rstr;
  in_issued_at : rstr;
  in_expires_at : rstr;
  in_canonicalization_id : rstr;
}.

(** [DRAFT_02_CANONICALIZATION_ALLOWLIST[0]] is the head of a constant. *)
Definition with_default_canonicalization (signer key_id on_behalf_of audience : rstr)
    (authorization_binding : AuthorizationBinding) (nonce issued_at expires_at : rstr) : RequestSigningInputs := {|
  in_signer := signer; in_key_id := key_id; in_on_behalf_of := on_behalf_of; in_audience := audience;
  in_authorization_binding := authorization_binding; in_nonce := nonce; in_issued_at := issued_at;
  in_expires_at := expires_at;
  in_canonicalization_id := default [] (head DRAFT_02_CANONICALIZATION_ALLOWLIST) |}.

Record SignedRequest : Type := {
  wire_bytes : bytes;
  sr_request_hash : rstr;
  sr_object : Value;
}.

(** [check_canonicalization_id] of request.rs. *)
Definition client_check_canonicalization_id (id : rstr) : result unit McpsError :=
  if is_empty id then Err CanonicalizationIdMissing
  else if bool_decide (id ∈ DRAFT_02_CANONICALIZATION_ALLOWLIST) then Ok tt
  else Err CanonicalizationIdNotAllowed.

(** The envelope without its signature value. *)
Definition request_envelope (inputs : RequestSigningInputs) : Value :=
  json_object
    [(str "version", VString VERSION_DRAFT_02);
     (str "canonicalization_id", VString (in_canonicalization_id inputs));
     (str "signer", VString (in_signer inputs));
     (str "on_behalf_of", VString (in_on_behalf_of inputs));
     (str "audience", VString (in_audience inputs));
     (str "authorization_binding", binding_value (in_authorization_binding inputs));
     (str "nonce", VString (in_nonce inputs));
     (str "issued_at", VString (in_issued_at inputs));
     (str "expires_at", VString (in_expires_at inputs));
     (str "signature", signature_stub (in_key_id inputs))].

(** [params._meta] with the envelope, a caller-supplied copy overwritten and a
    [_meta] that is not an object dropped. *)
Definition merge_envelope (envelope : Value) (params : Map) : Map :=
  let meta := match map_get (str "_meta") params with Some (VObject map) => map | _ => [] end in
  map_insert (str "_meta") (VObject (map_insert REQUEST_META_KEY envelope meta)) (map_remove (str "_meta") params).

Definition request_object (id : Value) (method : rstr) (params : Map) : Value :=
  json_object
    [(str "id", id); (str "jsonrpc", VString (str "2.0")); (str "method", VString method);
     (str "params", VObject params)].

Definition VALUE_PATH : list rstr :=
  [str "params"; str "_meta"; REQUEST_META_KEY; str "signature"; str "value"].

(** [{"name", "arguments"}]. *)
Definition tool_call_params (tool_name : rstr) (arguments : Value) : Map :=
  map_insert (str "arguments") arguments (map_insert (str "name") (VString tool_name) []).

Section Requests.
Context `{SerdeSer, Base64, Sha2, Dalek}.

Definition build_signed_request_with (id : Value) (method : rstr) (params : Map) (inputs : RequestSigningInputs)
    (sign : bytes -> result rstr McpsError) : outcome (result SignedRequest McpsError) :=
  match client_check_canonicalization_id (in_canonicalization_id inputs) with
  | Err e => Returns (Err e)
  | Ok _ =>
      let request := request_object id method (merge_envelope (request_envelope inputs) params) in
      match request_signing_preimage request with
      | Err e => Returns (Err e)
      | Ok preimage =>
          match sign preimage with
          | Err e => Returns (Err e)
          | Ok signature =>
              match index_update VALUE_PATH (fun _ => VString signature) request with
              | Panics => Panics
              | Returns request =>
                  Returns (let? hash := request_hash request in
                           let? bs := ok_or (to_vec request) CanonicalizationFailed in
                           Ok {| wire_bytes := bs; sr_request_hash := hash; sr_object := request |})
              end
          end
      end
  end.

Definition build_signed_request (id : Value) (method : rstr) (params : Map) (inputs : RequestSigningInputs)
    (signing_key : SigningKey) : outcome (result SignedRequest McpsError) :=
  build_signed_request_with id method params inputs (fun preimage => Ok (sign signing_key preimage)).

Definition build_signed_tool_call (id : Value) (tool_name : rstr) (arguments : Value) (inputs : RequestSigningInputs)
    (signing_key : SigningKey) : outcome (result SignedRequest McpsError) :=
  build_signed_request id (str "tools/call") (tool_call_params tool_name arguments) inputs signing_key.

(** ** signer.rs *)

Inductive CustodyClass : Type := NonExporting | SoftwareHeldPrivate | DevFileUnprotected.

Definition acceptable_for_production (c : CustodyClass) : bool :=
  match c with DevFileUnprotected => false | _ => true end.

Definition is_non_exporting (c : CustodyClass) : bool :=
  match c with NonExporting => true | _ => false end.

(** [trait ClientSigner]: its four methods. *)
Record ClientSigner : Type := {
  signer_id : rstr;
  signer_key_id : rstr;
  custody : CustodyClass;
  sign_preimage : bytes -> result rstr McpsError;
}.

Inductive Environment : Type := Production | DevTest.

Definition is_production (e : Environment) : bool := match e with Production => true | DevTest => false end.

Record SignerPolicy : Type := {
  expected_signer : rstr;
  revoked_key_ids : gset rstr;
  environment : Environment;
  require_mcps : bool;
  require_non_exporting : bool;
}.

Definition signer_policy_new (expected_signer : rstr) (environment : Environment) (require_mcps : bool)
  : SignerPolicy := {|
  expected_signer := expected_signer; revoked_key_ids := ∅; environment := environment;
  require_mcps := require_mcps; require_non_exporting := false |}.

Definition revoke_key_id (p : SignerPolicy) (key_id : rstr) : SignerPolicy := {|
  expected_signer := expected_signer p; revoked_key_ids := {[key_id]} ∪ revoked_key_ids p;
  environment := environment p; require_mcps := require_mcps p; require_non_exporting := require_non_exporting p |}.

Definition with_require_non_exporting (p : SignerPolicy) : SignerPolicy := {|
  expected_signer := expected_signer p; revoked_key_ids := revoked_key_ids p;
  environment := environment p; require_mcps := require_mcps p; require_non_exporting := true |}.

Definition authorize_signer (policy : SignerPolicy) (signer : ClientSigner) : result unit McpsError :=
  if negb (bool_decide (signer_id signer = expected_signer policy)) then Err ActorBindingFailed
  else if bool_decide (signer_key_id signer ∈ revoked_key_ids policy) then Err ActorBindingFailed
  else if require_non_exporting policy && negb (is_non_exporting (custody signer)) then Err ActorBindingFailed
  else if require_mcps policy && is_production (environment policy)
          && negb (acceptable_for_production (custody signer)) then Err ActorBindingFailed
  else Ok tt.

(** [bound]: the inputs under the signer's own identity. *)
Definition bind_inputs (inputs : RequestSigningInputs) (signer : ClientSigner) : RequestSigningInputs := {|
  in_signer := signer_id signer; in_key_id := signer_key_id signer; in_on_behalf_of := in_on_behalf_of inputs;
  in_audience := in_audience inputs; in_authorization_binding := in_authorization_binding inputs;
  in_nonce := in_nonce inputs; in_issued_at := in_issued_at inputs; in_expires_at := in_expires_at inputs;
  in_canonicalization_id := in_canonicalization_id inputs |}.

Definition build_signed_request_with_signer (id : Value) (method : rstr) (params : Map)
    (inputs : RequestSigningInputs) (signer : ClientSigner) (policy : SignerPolicy)
  : outcome (result SignedRequest McpsError) :=
  match authorize_signer policy signer with
  | Err e => Returns (Err e)
  | Ok _ => build_signed_request_with id method params (bind_inputs inputs signer) (sign_preimage signer)
  end.

(** [SoftwareSigner::new] as a [ClientSigner]. *)
Definition software_signer (key : SigningKey) (signer key_id : rstr) : ClientSigner := {|
  signer_id := signer; signer_key_id := key_id; custody := SoftwareHeldPrivate;
  sign_preimage preimage := Ok (sign key preimage) |}.

(** [DevFileSigner::new] as a [ClientSigner]. *)
Definition dev_file_signer (key : SigningKey) (signer key_id : rstr) : ClientSigner := {|
  signer_id := signer; signer_key_id := key_id; custody := DevFileUnprotected;
  sign_preimage preimage := Ok (sign key preimage) |}.

(** ** The host's signer *)

Record HostSigner : Type := {
  hs_signing_key : SigningKey;
  hs_signer : rstr;
  hs_key_id : rstr;
}.

Definition host_envelope (h : HostSigner) (on_behalf_of audience authorization_hash nonce issued_at expires_at : rstr)
  : Value :=
  json_object
    [(str "version", VString VERSION_DRAFT_01);
     (str "signer", VString (hs_signer h));
     (str "on_behalf_of", VString on_behalf_of);
     (str "audience", VString audience);
     (str "authorization_hash", VString authorization_hash);
     (str "nonce", VString nonce);
     (str "issued_at", VString issued_at);
     (str "expires_at", VString expires_at);
     (str "signature", signature_stub (hs_key_id h))].

Definition host_sign_request (h : HostSigner) (id : Value) (method : rstr) (params : Map)
    (on_behalf_of audience authorization_hash nonce issued_at expires_at : rstr)
  : outcome (result bytes McpsError) :=
  let envelope := host_envelope h on_behalf_of audience authorization_hash nonce issued_at expires_at in
  let request := request_object id method (merge_envelope envelope params) in
  match request_signing_preimage request with
  | Err e => Returns (Err e)
  | Ok preimage =>
      match index_update VALUE_PATH (fun _ => VString (sign (hs_signing_key h) preimage)) request with
      | Panics => Panics
      | Returns request => Returns (ok_or (to_vec request) CanonicalizationFailed)
      end
  end.

Definition host_sign_tool_call (h : HostSigner) (id : Value) (tool_name : rstr) (arguments : Value)
    (on_behalf_of audience authorization_hash nonce issued_at expires_at : rstr)
  : outcome (result bytes McpsError) :=
  host_sign_request h id (str "tools/call") (tool_call_params tool_name arguments) on_behalf_of audience
    authorization_hash nonce issued_at expires_at.
End Requests.
