(* ===== verification/ClientRequestTheorems.v ===== *)
(** * Signed requests at the server

    What the client and the host sign is what the server verifies: building a
    request does not panic, the bytes carry the claims and the signature under
    one preimage, and the dispatcher's verdict on them is the replay check of
    those very claims. *)

From S2P Require Import Prelude Utf8 Errors Json Canonical Strings Signing Values Time Crypto Envelope.
From S2P Require Import Instances Constraints Replay Resolver Pipeline Samples PipelineSpec PipelineTheorems Unwrap Graft.
From S2P Require Import KeySource Transport Policy PolicySpec Proxy ClientRequest.

(** ** The message around an envelope *)
Section Message.
Context (id : Value) (method : rstr) (params : Map) (envelope : Value).
Context (Wid : value_wf id) (Wmethod : str_wf method) (Wparams : value_wf (VObject params)).
Context (He : unsigned_envelope envelope).

Let request := request_object id method (merge_envelope envelope params).

Lemma merge_envelope_wf : value_wf (VObject (merge_envelope envelope params)).
Proof.
  destruct He as [We _]. unfold merge_envelope. apply map_insert_wf; [solve_str_wf| |].
  - apply map_insert_wf; [solve_str_wf|done|].
    assert (Hn : value_wf (VObject [])) by (apply value_wf_members; by constructor).
    destruct (map_get (str "_meta") params) as [[| | | | |mm]|] eqn:E; try done.
    apply value_wf_object in Wparams as (_ & _ & Hg). eauto.
  - apply (value_wf_remove (str "_meta") (VObject params) Wparams).
Qed.

Lemma merge_envelope_path : path_get [str "_meta"; REQUEST_META_KEY] (VObject (merge_envelope envelope params)) = Some envelope.
Proof.
  unfold merge_envelope. cbn [path_get get]. rewrite map_get_insert, bool_decide_eq_true_2 by done.
  cbn [mbind option_bind get]. by rewrite map_get_insert, bool_decide_eq_true_2.
Qed.

Lemma request_object_get :
  get (str "id") request = Some id /\ get (str "params") request = Some (VObject (merge_envelope envelope params)).
Proof. unfold request, request_object. by rewrite !json_object_get. Qed.

Lemma request_object_path : path_get (envelope_path Request) request = Some envelope.
Proof.
  change (envelope_path Request) with ([str "params"] ++ [str "_meta"; REQUEST_META_KEY]).
  rewrite path_get_app. cbn [path_get]. rewrite (proj2 request_object_get). cbn [mbind option_bind].
  exact merge_envelope_path.
Qed.

Lemma request_object_unsigned : unsigned Request request.
Proof.
  eapply unsigned_located; [|exact request_object_path|done]. apply value_wf_json_object.
  rewrite !Forall_cons, Forall_nil. split_and!; cbn [fst snd]; try exact merge_envelope_wf; try exact Wid; solve_str_wf.
Qed.

Lemma safe_request_object n :
  safe (S (S n)) id -> safe (S (S n)) (VObject params) -> safe n envelope -> safe (S (S (S n))) request.
Proof.
  intros Hi Hp Hen. apply safe_json_object. rewrite !Forall_cons, Forall_nil. split_and!; cbn [snd]; try apply safe_string; try done.
  unfold merge_envelope. apply safe_insert; [|apply (safe_remove _ (str "_meta") (VObject params) Hp)].
  apply safe_insert; [done|]. destruct (map_get (str "_meta") params) as [[| | | | |mm]|] eqn:E; try by apply safe_object.
  apply map_get_Some in E. rewrite safe_object in Hp. by eapply (Forall_forall _ params) in Hp; [|exact E].
Qed.

(** The bytes of the signed request, read by the server. *)
Lemma request_object_read `{SJ : SerdeJson, SS : !SerdeSer, SSL : !SerdeSerLaws, SW : !SerdeWrites, B64 : !Base64, DK : !Dalek} sg pre :
  safe 126 id -> safe 126 (VObject params) -> safe 124 envelope -> id <> VNull -> str_wf sg ->
  signing_preimage request Request = Ok pre ->
  exists bs v m, to_vec (fill_signature Request sg request) = Some bs /\ well_shaped bs v /\ value_wf v /\
    path_get (envelope_path Request) v = Some (VObject m) /\ value_wf (VObject m) /\
    value_equiv (signed_envelope sg envelope) (VObject m) /\
    (exists i, get (str "id") v = Some i /\ value_equiv id i) /\ signing_preimage v Request = Ok pre /\
    forall kid key, verify_ed25519 pre sg key = Ok tt -> signed_by Request v pre (signature_of kid sg) key.
Proof.
  intros Hsi Hsp Hse Hid Hsg Hpre. pose proof request_object_unsigned as U.
  pose proof (safe_fill_signature 127 Request sg _ (safe_request_object 124 Hsi Hsp Hse)) as Hs.
  destruct (to_vec_total (fill_signature Request sg request)) as [bs Hbs].
  destruct (to_vec_reads _ _ (fill_signature_wf _ _ U _ Hsg) Hs Hbs) as (Hc & v & Hfs & W & Hq).
  destruct (value_equiv_path _ _ _ _ Hq (fill_signature_envelope Request sg _ _ request_object_path)) as (w & Hw & Hqw).
  assert (Hobj : exists m, w = VObject m).
  { destruct He as (_ & sm & Hg & _). destruct envelope as [| | | | |em]; try done.
    apply (value_equiv_is_object _ _ Hqw). done. }
  destruct Hobj as [m ->].
  assert (Hi : get (str "id") (fill_signature Request sg request) = Some id).
  { unfold fill_signature, signature_path. cbn [update_at]. by rewrite get_update_member, (proj1 request_object_get). }
  destruct (value_equiv_get _ _ _ _ Hq Hi) as (i & Hgi & Hqi).
  exists bs, v, m. split_and!; try done; [|by eapply value_wf_path|by exists i| |].
  - split_and!; try done. exists i. split; [done|]. intros ->. by inversion Hqi; subst.
  - eapply signing_preimage_equiv; [by apply (fill_signature_wf _ _ U)|exact W|exact Hq|]. by rewrite (fill_signature_preimage _ _ U).
  - intros kid key Hv. by eapply fill_signature_signed; [exact U|..].
Qed.
End Message.

(** ** The draft-02 envelope *)

Lemma same_gets_perm {V} (m1 m2 : list (rstr * V)) :
  NoDup m1.*1 -> NoDup m2.*1 -> (forall k, map_get k m1 = map_get k m2) -> m1 ≡ₚ m2.
Proof.
  intros H1 H2 H. apply NoDup_Permutation; [by eapply NoDup_fmap_1..|]. intros [k v].
  split; intros Hin; apply map_get_Some; [rewrite <- H|rewrite H]; by apply map_get_elem.
Qed.

(** An object of strings is determined up to the order of its members. *)
Lemma equiv_strings_perm m m' :
  value_wf (VObject m) -> value_wf (VObject m') -> value_equiv (VObject m) (VObject m') ->
  Forall (fun kv => exists s, kv.2 = VString s) m -> m' ≡ₚ m.
Proof.
  intros (Hd & _)%value_wf_object (Hd' & _)%value_wf_object H Hs. apply same_gets_perm; [done..|]. intros k.
  inversion H as [| | | | |? ? Hm]; subst. specialize (Hm k). destruct (map_get k m) as [x|] eqn:E; inversion Hm as [? y Hxy|]; subst; [|done].
  apply map_get_Some in E. eapply (Forall_forall _ m) in Hs as [s Hx]; [|exact E]. cbn in Hx. subst.
  apply value_equiv_string in Hxy. by subst.
Qed.

Definition binding_wf (b : AuthorizationBinding) : Prop := Forall (fun kv => value_wf kv.2) (binding_members b).

Lemma binding_value_members b m : binding_value b = VObject m -> m ≡ₚ binding_members b.
Proof.
  intros E. pose proof (NoDup_binding_members b) as Hd. apply same_gets_perm; [|done|].
  - injection E as <-. apply json_object_NoDup.
  - intros k. change (get k (VObject m) = map_get k (binding_members b)). rewrite <- E. unfold binding_value.
    rewrite json_object_get. apply map_get_perm; [|apply reverse_Permutation].
    rewrite fmap_reverse. by rewrite reverse_Permutation.
Qed.

Definition inputs_wf (i : RequestSigningInputs) : Prop :=
  str_wf (in_signer i) /\ str_wf (in_key_id i) /\ str_wf (in_on_behalf_of i) /\ str_wf (in_audience i) /\
  str_wf (in_nonce i) /\ str_wf (in_issued_at i) /\ str_wf (in_expires_at i) /\
  str_wf (in_canonicalization_id i) /\ binding_wf (in_authorization_binding i).

Lemma binding_value_wf b : binding_wf b -> value_wf (binding_value b).
Proof.
  intros H. apply value_wf_json_object. unfold binding_wf in H. destruct b; cbn [binding_members] in *;
    rewrite !Forall_cons, Forall_nil in *; cbn [fst snd] in *; destruct_and! H; split_and!; try done; solve_str_wf.
Qed.

Lemma binding_strings b : Forall (fun kv => exists s, kv.2 = VString s) (binding_members b).
Proof. destruct b; cbn; repeat constructor; eauto. Qed.

Lemma safe_binding_value b : safe 1 (binding_value b).
Proof. apply safe_json_object. eapply Forall_impl; [apply binding_strings|]. intros kv [s ->]. apply safe_string. Qed.

Lemma request_envelope_unsigned i : inputs_wf i -> unsigned_envelope (request_envelope i).
Proof.
  intros (? & Hk & ? & ? & ? & ? & ? & ? & Hb). split.
  - apply value_wf_json_object. rewrite !Forall_cons, Forall_nil. split_and!; cbn [fst snd];
      try exact (binding_value_wf _ Hb); try exact (signature_stub_wf _ Hk); solve_str_wf.
  - unfold request_envelope. rewrite json_object_get. eexists. split; reflexivity.
Qed.

Lemma safe_request_envelope i : safe 2 (request_envelope i).
Proof.
  apply safe_json_object. rewrite !Forall_cons, Forall_nil. split_and!; cbn [snd]; try apply safe_string;
    try apply safe_binding_value; try apply safe_signature_stub; done.
Qed.

(** The envelope the server deserializes. *)
Definition client_envelope (i : RequestSigningInputs) (sg : rstr) : Draft02RequestEnvelope := {|
  d2_version := VERSION_DRAFT_02; d2_canonicalization_id := in_canonicalization_id i; d2_signer := in_signer i;
  d2_on_behalf_of := in_on_behalf_of i; d2_audience := in_audience i;
  d2_authorization_binding := in_authorization_binding i; d2_nonce := in_nonce i;
  d2_issued_at := in_issued_at i; d2_expires_at := in_expires_at i;
  d2_signature := signature_of (in_key_id i) sg |}.

Lemma request_envelope_read i sg m :
  inputs_wf i -> str_wf sg -> value_wf (VObject m) ->
  value_equiv (signed_envelope sg (request_envelope i)) (VObject m) ->
  wire_members (fun _ => nested_object) m (client_envelope i sg) /\
  Forall (fun k => k ∈ wire_fields Draft02RequestEnvelope) m.*1 /\
  exists b, map_get (str "authorization_binding") m = Some (VObject b) /\ b ≡ₚ binding_members (in_authorization_binding i).
Proof.
  intros Hi Hsg W H. pose proof (request_envelope_unsigned i Hi) as [Wr _].
  pose proof (value_wf_update_at [str "signature"] (add_value sg) _ Wr (fun w => add_value_wf sg w Hsg)) as Ws.
  fold (signed_envelope sg (request_envelope i)) in Ws.
  destruct Hi as (_ & Hk & _ & _ & _ & _ & _ & _ & Hb).
  assert (Hbm : exists b, map_get (str "authorization_binding") m = Some (VObject b) /\ NoDup b.*1 /\
    b ≡ₚ binding_members (in_authorization_binding i)).
  { destruct (equiv_object _ _ (str "authorization_binding") _ H eq_refl) as (b & Hg & Hq). exists b.
    pose proof (value_wf_object _ W) as (_ & _ & Hgw). pose proof (Hgw _ _ Hg) as Wb. split; [done|].
    split; [by apply value_wf_object in Wb as (? & _)|].
    pose proof (binding_value_members _ _ eq_refl : _ ≡ₚ binding_members (in_authorization_binding i)) as Hp.
    rewrite <- Hp. apply equiv_strings_perm; [exact (binding_value_wf _ Hb)|done|done|].
    rewrite Hp. apply binding_strings. }
  split_and!.
  - cbn [wire_members Draft02RequestEnvelope_wire client_envelope d2_version d2_canonicalization_id d2_signer
      d2_on_behalf_of d2_audience d2_authorization_binding d2_nonce d2_issued_at d2_expires_at d2_signature].
    unfold field. split_and!; try (eapply equiv_field; [exact H|reflexivity]).
    + destruct Hbm as (b & Hg & Hd & Hp). exists b. split; [done|]. by apply binding_members_object.
    + eapply signature_member_read; [exact Hk|exact Hsg|exact W|exact H|reflexivity].
  - eapply equiv_keys; [exact Ws|exact W|exact H|]. repeat constructor; cbn [wire_fields Draft02RequestEnvelope_wire]; set_solver.
  - destruct Hbm as (b & ? & _ & ?). eauto.
Qed.

(** ** The members determine the envelope *)

Lemma signature_object_unique m s s' : signature_object m s -> signature_object m s' -> s = s'.
Proof.
  destruct s as [a k v], s' as [a' k' v']. unfold signature_object, field, opt_field. cbn [alg key_id sig_value].
  intros (Ha & Hk & Hv & _) (Ha' & Hk' & Hv' & _).
  destruct v, v'; try (destruct Hv as [Hv|Hv]); try (destruct Hv' as [Hv'|Hv']); congruence.
Qed.

Lemma nested_object_unique {T} (P : Map -> T -> Prop) k m t t' :
  (forall m x y, P m x -> P m y -> x = y) -> nested_object P k m t -> nested_object P k m t' -> t = t'.
Proof. intros HP (m1 & E1 & H1) (m2 & E2 & H2). rewrite E1 in E2. simplify_eq. by eapply HP. Qed.

Lemma envelope02_unique m (e e' : Draft02RequestEnvelope) :
  wire_members (fun _ => nested_object) m e -> wire_members (fun _ => nested_object) m e' -> e = e'.
Proof.
  destruct e, e'. cbn. unfold field. intros H H'. destruct_and! H. destruct_and! H'. f_equal; try congruence.
  - eapply (nested_object_unique binding_object); [apply binding_object_unique|eassumption..].
  - eapply (nested_object_unique signature_object); [apply signature_object_unique|eassumption..].
Qed.

Lemma envelope01_unique m (e e' : RequestEnvelope) :
  wire_members (fun _ => nested_object) m e -> wire_members (fun _ => nested_object) m e' -> e = e'.
Proof.
  destruct e, e'. cbn. unfold field. intros H H'. destruct_and! H. destruct_and! H'. f_equal; try congruence.
  eapply (nested_object_unique signature_object); [apply signature_object_unique|eassumption..].
Qed.

(** ** The client's request *)

(** What the MCP layer hands over: an addressable request with room below the
    nesting limit of the parsers. *)
Definition sendable (id : Value) (method : rstr) (params : Map) : Prop :=
  value_wf id /\ id <> VNull /\ str_wf method /\ value_wf (VObject params) /\ safe 126 id /\ safe 126 (VObject params).

Section Client.
Context `{SJ : SerdeJson, SJL : !SerdeJsonLaws, SS : !SerdeSer, SSL : !SerdeSerLaws, SW : !SerdeWrites}.
Context `{B64 : !Base64, B64L : !Base64Laws, SH : !Sha2, SHL : !Sha2Laws, DK : !Dalek, DKL : !DalekLaws}.
Context `{D1 : !Deserialize RequestEnvelope, D2 : !Deserialize Draft02RequestEnvelope}.
Context `{L1 : !DeserializeLaws RequestEnvelope, L2 : !DeserializeLaws Draft02RequestEnvelope}.
Context `{RC : ReplayCache C}.

(** The contract of the signing seam: what a signer returns is a signature
    under its public key. *)
Class ClientSignerLaws (s : ClientSigner) (key : VerificationKey) : Prop := {
  client_signs pre sg : sign_preimage s pre = Ok sg -> str_wf sg /\ verify_ed25519 pre sg key = Ok tt;
}.

Lemma sign_wf k pre : str_wf (sign k pre).
Proof. apply base64_encode_wf, dalek_sign_wf. Qed.

#[export] Instance software_signer_laws k s kid : ClientSignerLaws (software_signer k s kid) (public_key k).
Proof. split. intros pre sg [= <-]. split; [apply sign_wf|apply verify_sign]. Qed.

#[export] Instance dev_file_signer_laws k s kid : ClientSignerLaws (dev_file_signer k s kid) (public_key k).
Proof. split. intros pre sg [= <-]. split; [apply sign_wf|apply verify_sign]. Qed.

Definition unsigned_request (id : Value) (method : rstr) (params : Map) (i : RequestSigningInputs) : Value :=
  request_object id method (merge_envelope (request_envelope i) params).

(** What building a request amounts to: the indexing assignment never panics
    and the hash is the hash of the signed preimage. *)
Lemma build_signed_request_with_spec id method params i (sgn : bytes -> result rstr McpsError) :
  sendable id method params -> inputs_wf i -> (forall pre sg, sgn pre = Ok sg -> str_wf sg) ->
  build_signed_request_with id method params i sgn =
  Returns (try? client_check_canonicalization_id (in_canonicalization_id i) ;;
           let? pre := signing_preimage (unsigned_request id method params i) Request in
           let? sg := sgn pre in
           let signed := fill_signature Request sg (unsigned_request id method params i) in
           let? bs := ok_or (to_vec signed) CanonicalizationFailed in
           Ok {| wire_bytes := bs; sr_request_hash := sha256_hash_id pre; sr_object := signed |}).
Proof.
  intros (Wid & _ & Wm & Wp & _) Hi Hsgn.
  pose proof (request_object_unsigned id method params _ Wid Wm Wp (request_envelope_unsigned i Hi)
    : unsigned Request (unsigned_request id method params i)) as U.
  unfold build_signed_request_with, request_signing_preimage. fold (unsigned_request id method params i).
  destruct (client_check_canonicalization_id _); [|done].
  destruct (signing_preimage _ Request) as [pre|] eqn:Hpre; [|done]. destruct (sgn pre) as [sg|] eqn:Hsg; [|done].
  change VALUE_PATH with (signature_path Request ++ [str "value"]). rewrite (index_signature Request _ U).
  unfold request_hash, request_signing_preimage.
  rewrite (fill_signature_preimage Request _ U); [|by eapply Hsgn]. by rewrite Hpre.
Qed.

(** A signed request read by the server. *)
Lemma client_envelope_located id method params i sg pre :
  sendable id method params -> inputs_wf i -> str_wf sg ->
  in_canonicalization_id i = CANONICALIZATION_ID_INT53_V1 -> binding_nonempty (in_authorization_binding i) ->
  binding_digest_alg (in_authorization_binding i) = DIGEST_ALG_SHA256 ->
  signing_preimage (unsigned_request id method params i) Request = Ok pre ->
  exists bs v, to_vec (fill_signature Request sg (unsigned_request id method params i)) = Some bs /\
    well_shaped bs v /\ envelope02 v (client_envelope i sg) /\ signing_preimage v Request = Ok pre /\
    (exists x, get (str "id") v = Some x /\ value_equiv id x) /\
    forall key, verify_ed25519 pre sg key = Ok tt -> signed_by Request v pre (signature_of (in_key_id i) sg) key.
Proof.
  intros (Wid & Hid & Wm & Wp & Hsi & Hsp) Hi Hsg Hc Hne Hda Hpre.
  destruct (request_object_read id method params _ Wid Wm Wp (request_envelope_unsigned i Hi) sg pre Hsi Hsp) as
    (bs & v & m & Hbs & Hsh & W & Hp & Wmm & Hq & Hx & Hpv & Hs); try done.
  { eapply safe_mono; [|apply safe_request_envelope]. lia. }
  destruct (request_envelope_read i sg m Hi Hsg Wmm Hq) as (Hm & Hf & Hb).
  exists bs, v. split_and!; try done; [|intros key Hv; by apply Hs]. by exists m.
Qed.
Lemma request_preimage_total id method params i :
  sendable id method params -> inputs_wf i ->
  exists pre, signing_preimage (unsigned_request id method params i) Request = Ok pre.
Proof.
  intros (Wid & _ & Wm & Wp & Hsi & Hsp) Hi.
  pose proof (request_object_unsigned id method params _ Wid Wm Wp (request_envelope_unsigned i Hi)) as U.
  apply safe_signing_preimage; [apply U| |by apply unsigned_block].
  apply (safe_mono 127); [by apply (bool_decide_eq_true_1 _)|]. apply (safe_request_object id method params _ 124); [done..|].
  eapply safe_mono; [|apply safe_request_envelope]. lia.
Qed.

(** What a server is told by the inputs. *)
Definition client_verdict (i : RequestSigningInputs) (hash : rstr) : VerifiedRequest := {|
  vr_verified_signer := in_signer i; vr_key_id := in_key_id i; vr_on_behalf_of := in_on_behalf_of i;
  vr_audience := in_audience i; vr_authorization := Draft02Binding (in_authorization_binding i);
  vr_request_hash := hash; vr_nonce := in_nonce i; vr_issued_at := in_issued_at i; vr_expires_at := in_expires_at i;
  vr_canonicalization_id := Some (in_canonicalization_id i) |}.

(** The binding is one the server can read: a base form with its fields. *)
Definition binding_admissible (b : AuthorizationBinding) : Prop :=
  binding_nonempty b /\ binding_digest_alg b = DIGEST_ALG_SHA256.

Lemma client_request_accepted_holds id method params inputs signer policy key resolver config now vpolicy te (replay replay' : C) :
  let i := bind_inputs inputs signer in
  sendable id method params -> inputs_wf i ->
  in_canonicalization_id i = CANONICALIZATION_ID_INT53_V1 -> binding_admissible (in_authorization_binding i) ->
  authorize_signer policy signer = Ok tt -> ClientSignerLaws signer key -> (forall pre, is_ok (sign_preimage signer pre) = true) ->
  in_on_behalf_of i <> [] -> in_audience i = expected_audience config ->
  check_freshness (in_issued_at i) (in_expires_at i) now (max_clock_skew_secs config) = Ok tt ->
  parse_rfc3339_utc (in_expires_at i) = Ok te ->
  resolver (signer_id signer) (signer_key_id signer) = Ok key ->
  check_and_insert replay (signer_id signer) (in_audience i) (in_nonce i) te = (Ok Fresh, replay') ->
  exists sr, build_signed_request_with_signer id method params inputs signer policy = Returns (Ok sr) /\
    verify_request_dispatch (wire_bytes sr) resolver config now vpolicy replay
      = (Ok (client_verdict i (sr_request_hash sr)), replay') /\
    exists v x, from_slice (wire_bytes sr) = Some v /\ get (str "id") v = Some x /\ value_equiv id x.
Proof.
  intros i Hsend Hi Hc [Hne Hda] Hau HL Hav Hob Haud Hfr Hte Hres Hci.
  destruct (request_preimage_total _ _ _ _ Hsend Hi) as [pre Hpre]. pose proof (Hav pre) as Hok.
  destruct (sign_preimage signer pre) as [sg|] eqn:Hsg; [|done]. destruct (client_signs _ _ Hsg) as [Wsg Hver].
  destruct (client_envelope_located _ _ _ _ sg pre Hsend Hi Wsg Hc Hne Hda Hpre) as (bs & v & Hbs & Hsh & He & _ & (x & Hx & Hq) & Hs).
  eexists. split_and!.
  - unfold build_signed_request_with_signer. rewrite Hau. fold i. rewrite build_signed_request_with_spec; [|done..|].
    2:{ intros pre' sg' H. by apply client_signs in H as [? _]. }
    cbv zeta. rewrite Hc, Hpre, Hsg, Hbs. reflexivity.
  - cbn [wire_bytes sr_request_hash]. erewrite dispatch_draft02; [|exact Hsh|exact He|].
    + apply commit_Ok. split; [exact Hci|]. done.
    + apply check_freshness_Ok in Hfr as (ti & te' & Hti & Hte' & Hle & Hw). rewrite Hte in Hte'. simplify_eq.
      split_and!; try done; [by exists ti|]. exists key. split; [done|]. by apply Hs.
  - exists v, x. split; [apply Hsh|by split].
Qed.

(** The request round trip (draft-02): a request built through a signer
    its policy authorizes, with inputs of the profile, is accepted by every
    server that expects this audience, knows the signer's key and has the
    validity window open, whatever versions it admits; the verdict reports
    the signer's own identity and exactly the claims of the inputs, its
    request hash is the one the client keeps for the response, and the only
    replay question asked is the one about this nonce. *)
Theorem client_request_accepted id method params inputs signer policy key resolver config now vpolicy te (replay replay' : C) :
  let i := bind_inputs inputs signer in
  sendable id method params -> inputs_wf i ->
  in_canonicalization_id i = CANONICALIZATION_ID_INT53_V1 -> binding_admissible (in_authorization_binding i) ->
  authorize_signer policy signer = Ok tt -> ClientSignerLaws signer key -> (forall pre, is_ok (sign_preimage signer pre) = true) ->
  in_on_behalf_of i <> [] -> in_audience i = expected_audience config ->
  check_freshness (in_issued_at i) (in_expires_at i) now (max_clock_skew_secs config) = Ok tt ->
  parse_rfc3339_utc (in_expires_at i) = Ok te ->
  resolver (signer_id signer) (signer_key_id signer) = Ok key ->
  check_and_insert replay (signer_id signer) (in_audience i) (in_nonce i) te = (Ok Fresh, replay') ->
  exists sr, build_signed_request_with_signer id method params inputs signer policy = Returns (Ok sr) /\
    verify_request_dispatch (wire_bytes sr) resolver config now vpolicy replay
      = (Ok (client_verdict i (sr_request_hash sr)), replay').
Proof.
  intros i **. edestruct (client_request_accepted_holds id method params inputs signer policy key resolver config now vpolicy)
    as (sr & Hb & Hv & _); eauto.
Qed.

(** What a policy authorizes. *)
Definition custody_admitted (policy : SignerPolicy) (s : ClientSigner) : Prop :=
  signer_id s = expected_signer policy /\ (signer_key_id s ∉ revoked_key_ids policy) /\
  (require_non_exporting policy = true -> custody s = NonExporting) /\
  (require_mcps policy = true -> environment policy = Production -> custody s <> DevFileUnprotected).

Lemma authorize_signer_Ok policy s u : authorize_signer policy s = Ok u <-> custody_admitted policy s.
Proof.
  unfold authorize_signer, custody_admitted. destruct u.
  destruct (custody s), (environment policy), (require_mcps policy), (require_non_exporting policy);
    cbn; repeat case_bool_decide; naive_solver.
Qed.

(** The verdict of any server on the request. *)
Lemma client_verdict_only id method params i sg pre bs resolver config now vpolicy (replay replay' : C) vr :
  sendable id method params -> inputs_wf i -> str_wf sg ->
  signing_preimage (unsigned_request id method params i) Request = Ok pre ->
  to_vec (fill_signature Request sg (unsigned_request id method params i)) = Some bs ->
  verify_request_dispatch bs resolver config now vpolicy replay = (Ok vr, replay') ->
  vr = client_verdict i (sha256_hash_id pre).
Proof.
  intros (Wid & Hid & Wm & Wp & Hsi & Hsp) Hi Hsg Hpre Hbs Hv.
  destruct (request_object_read id method params _ Wid Wm Wp (request_envelope_unsigned i Hi) sg pre Hsi Hsp) as
    (bs' & v & m & Hbs' & (Hfs & _) & W & Hp & Wmm & Hq & _ & Hpv & _); try done.
  { eapply safe_mono; [|apply safe_request_envelope]. lia. }
  unfold unsigned_request in Hbs. rewrite Hbs in Hbs'. simplify_eq.
  destruct (request_envelope_read i sg m Hi Hsg Wmm Hq) as (Hm & _ & _).
  apply dispatch_accepted in Hv as (v' & c & pre' & te & (Hfs' & _) & (_ & _ & _ & key & _ & Hpre' & _) & _ & Hpr).
  rewrite Hfs in Hfs'. simplify_eq. rewrite Hpv in Hpre'. simplify_eq.
  destruct Hpr as [(e & (m' & Hp' & Hm' & _ & Hver & _) & -> & ->)|(e & (m' & Hp' & Hm' & _) & -> & ->)];
    unfold envelope_path in Hp; cbn [container_key meta_key] in Hp; rewrite Hp in Hp'; simplify_eq.
  - exfalso. destruct Hm' as (Hm' & _), Hm as (Hm & _). unfold field in *. rewrite Hver, Hm in Hm'. discriminate.
  - by rewrite (envelope02_unique _ _ _ Hm' Hm).
Qed.

(** C23: Only the authorized identity speaks: when a request could be built
    through a signer, that signer is the one the policy expects, its key is
    not revoked and its custody is admitted (no unprotected file key in
    production under [require_mcps], non-exporting custody where required);
    and every server that accepts the bytes, under any configuration,
    attributes the request to that signer and key, with the claims of the
    inputs and the request hash the client keeps, whatever identity the
    caller put into the inputs and whatever envelope into [params]. *)
Theorem client_identity_bound id method params inputs signer policy sr :
  let i := bind_inputs inputs signer in
  sendable id method params -> inputs_wf i -> (forall pre sg, sign_preimage signer pre = Ok sg -> str_wf sg) ->
  build_signed_request_with_signer id method params inputs signer policy = Returns (Ok sr) ->
  custody_admitted policy signer /\
  forall resolver config now vpolicy (replay replay' : C) vr,
    verify_request_dispatch (wire_bytes sr) resolver config now vpolicy replay = (Ok vr, replay') ->
    vr = client_verdict i (sr_request_hash sr) /\ vr_verified_signer vr = expected_signer policy.
Proof.
  intros i Hsend Hi Hsgn. unfold build_signed_request_with_signer.
  destruct (authorize_signer policy signer) as [u|] eqn:Hau; [|done]. apply authorize_signer_Ok in Hau.
  fold i. rewrite build_signed_request_with_spec by done. intros [= Hb]. split; [done|].
  destruct (client_check_canonicalization_id _); [|done]. destruct (signing_preimage _ Request) as [pre|] eqn:Hpre; [|done].
  destruct (sign_preimage signer pre) as [sg|] eqn:Hsg; [|done]. cbv zeta in Hb.
  destruct (to_vec _) as [bs|] eqn:Hbs; [|done]. cbn [ok_or] in Hb. simplify_eq. cbn [wire_bytes sr_request_hash].
  intros resolver config now vpolicy replay replay' vr Hv.
  rewrite (client_verdict_only _ _ _ _ _ _ _ _ _ _ _ _ _ _ Hsend Hi (Hsgn _ _ Hsg) Hpre Hbs Hv).
  split; [done|]. apply Hau.
Qed.
End Client.

(** ** On a sample request *)

Import Toy ToyProxy.

Definition sample_inputs : RequestSigningInputs :=
  with_default_canonicalization (str "ignored") (str "ignored") (str "user:u") (str "did:srv")
    (OpaqueBytes DIGEST_ALG_SHA256 (str "aa")) (str "n3") (str "2024-01-01T00:00:00Z") (str "2024-01-01T00:05:00Z").

Definition sample_signer : ClientSigner := software_signer sample_key (str "did:a") (str "k1").

Definition sample_signer_policy : SignerPolicy := signer_policy_new (str "did:a") Production true.

Definition sample_params : Map := tool_call_params (str "read") (VObject [(str "path", VString (str "/tmp"))]).

Definition sample_built : outcome (result SignedRequest McpsError) :=
  build_signed_request_with_signer (VNumber (PosInt 7)) (str "tools/call") sample_params sample_inputs sample_signer
    sample_signer_policy.

Lemma sample_sendable : sendable (VNumber (PosInt 7)) (str "tools/call") sample_params.
Proof.
  assert (W : value_wf (VNumber (PosInt 7))) by solve_value_wf.
  assert (Wp : value_wf (VObject sample_params)) by solve_value_wf.
  split_and!; try done; [solve_str_wf|vm_compute; reflexivity..].
Qed.

Lemma sample_inputs_wf : inputs_wf (bind_inputs sample_inputs sample_signer).
Proof. split_and!; try solve_str_wf. repeat constructor; cbn [snd]; solve_str_wf. Qed.

Lemma client_identity_bound_witness :
  exists sr, sample_built = Returns (Ok sr) /\ custody_admitted sample_signer_policy sample_signer /\
  forall resolver config now vpolicy (replay replay' : InMemoryReplayCache) vr,
    verify_request_dispatch (wire_bytes sr) resolver config now vpolicy replay = (Ok vr, replay') ->
    vr = client_verdict (bind_inputs sample_inputs sample_signer) (sr_request_hash sr) /\
    vr_verified_signer vr = str "did:a".
Proof.
  assert (Hok : match sample_built with Returns (Ok _) => true | _ => false end = true) by (vm_compute; reflexivity).
  destruct sample_built as [[sr|]|] eqn:E; try discriminate Hok. exists sr. split; [reflexivity|].
  apply (client_identity_bound (VNumber (PosInt 7)) (str "tools/call") sample_params sample_inputs sample_signer
    sample_signer_policy sr sample_sendable sample_inputs_wf).
  - intros pre sg Hs. exact (proj1 (@client_signs _ _ _ _ (software_signer_laws _ _ _) pre sg Hs)).
  - exact E.
Defined.
