(* ===== verification/ProxyMeta.v ===== *)
(** * Scrubbing and in-place indexing

    What [scrub_proxy_owned_meta] removes and keeps, and when [IndexMut] on a
    JSON value panics. *)

From S2P Require Import Prelude Utf8 Errors Json Canonical Signing Values Envelope Constraints Pipeline.
From S2P Require Import PipelineSpec Unwrap Graft Policy Proxy.

(** ** The recursion of the source *)

(** The strip of one object's own [_meta]. *)
Definition strip_owned (v : Value) : Value :=
  match v with VObject m => VObject (remove_owned m) | _ => v end.

Definition scrub_entry (kv : rstr * Value) : rstr * Value :=
  (kv.1, scrub_member (bool_decide (kv.1 = META_FIELD)) kv.2).

Lemma scrub_member_object b m :
  scrub_member b (VObject m) = VObject (if b then remove_owned (scrub_entry <$> m) else scrub_entry <$> m).
Proof. done. Qed.

Lemma map_remove_fmap (f : rstr * Value -> rstr * Value) k m :
  (forall kv, (f kv).1 = kv.1) -> map_remove k (f <$> m) = f <$> map_remove k m.
Proof.
  intros Hf. induction m as [|[k' v] m IH]; cbn; [done|].
  destruct (f (k', v)) as [k2 v2] eqn:E. pose proof (Hf (k', v)) as Hk. rewrite E in Hk. cbn in Hk. subst k2.
  case_bool_decide; cbn; rewrite IH; [done|]. by rewrite E.
Qed.

Lemma remove_owned_fmap (f : rstr * Value -> rstr * Value) m :
  (forall kv, (f kv).1 = kv.1) -> remove_owned (f <$> m) = f <$> remove_owned m.
Proof. intros Hf. unfold remove_owned. cbn. by rewrite !(map_remove_fmap f). Qed.

Lemma scrub_member_meta v : scrub_member true v = scrub_proxy_owned_meta (strip_owned v).
Proof.
  destruct v; try done. cbn [strip_owned]. unfold scrub_proxy_owned_meta.
  rewrite !scrub_member_object. by rewrite remove_owned_fmap.
Qed.

(** On an object: strip its own [_meta], then recurse into every member. *)
Lemma scrub_object m :
  scrub_proxy_owned_meta (VObject m) =
  VObject ((fun kv => (kv.1, scrub_proxy_owned_meta kv.2)) <$> map_alter strip_owned META_FIELD m).
Proof.
  unfold scrub_proxy_owned_meta at 1. rewrite scrub_member_object. f_equal. unfold map_alter.
  rewrite <- list_fmap_compose. apply list_fmap_ext. intros i [k v] _. unfold scrub_entry. cbn [compose fst snd].
  case_bool_decide; cbn [fst snd]; [by rewrite scrub_member_meta|done].
Qed.

Lemma scrub_array items :
  scrub_proxy_owned_meta (VArray items) = VArray (scrub_proxy_owned_meta <$> items).
Proof. done. Qed.

(** ** What is left *)

Lemma map_get_fmap_entry (f : rstr -> Value -> Value) k m :
  map_get k ((fun kv => (kv.1, f kv.1 kv.2)) <$> m) = f k <$> map_get k m.
Proof.
  induction m as [|[k' v] m IH]; cbn; [done|]. case_bool_decide; [by subst|done].
Qed.

Lemma map_get_scrub_entry k m :
  map_get k (scrub_entry <$> m) = scrub_member (bool_decide (k = META_FIELD)) <$> map_get k m.
Proof. exact (map_get_fmap_entry (fun k => scrub_member (bool_decide (k = META_FIELD))) k m). Qed.

Lemma map_get_remove_owned k m :
  map_get k (remove_owned m) = if bool_decide (k ∈ PROXY_OWNED_META_KEYS) then None else map_get k m.
Proof.
  unfold remove_owned, PROXY_OWNED_META_KEYS. cbn [foldl]. rewrite !map_get_remove.
  repeat case_bool_decide; try done; exfalso; set_solver.
Qed.

Lemma META_FIELD_not_owned : META_FIELD ∉ PROXY_OWNED_META_KEYS.
Proof. exact (bool_decide_eq_true_1 (META_FIELD ∉ PROXY_OWNED_META_KEYS) eq_refl). Qed.

(** One step into a value. *)
Inductive child : Value -> Value -> Prop :=
| child_item l x : x ∈ l -> child (VArray l) x
| child_member m k x : (k, x) ∈ m -> child (VObject m) x.

(** No [_meta] object anywhere inside has a proxy-owned member. *)
Definition owned_free (v : Value) : Prop :=
  forall w k, rtc child v w -> k ∈ PROXY_OWNED_META_KEYS -> path_get [META_FIELD; k] w = None.

Lemma remove_owned_elem kv m : kv ∈ remove_owned m -> kv ∈ m.
Proof.
  unfold remove_owned. cbn [foldl]. intros Hin.
  do 4 (eapply elem_of_sublist in Hin; [|apply map_remove_sublist]). done.
Qed.

Lemma scrub_member_child b v w :
  child (scrub_member b v) w -> exists b' x, w = scrub_member b' x /\ child v x.
Proof.
  destruct v as [| | | |l|m]; cbn; try by inversion 1.
  - inversion 1 as [? x Hx|]; subst. apply list_elem_of_fmap in Hx as (y & -> & Hy).
    exists false, y. split; [done|]. by constructor.
  - intros Hc. assert (Hin : exists k, (k, w) ∈ scrub_entry <$> m).
    { destruct b; inversion Hc as [|? k ? Hin]; subst; exists k; [by apply remove_owned_elem|done]. }
    destruct Hin as (k & ([k' x] & E & Hx)%list_elem_of_fmap). unfold scrub_entry in E. cbn in E. simplify_eq.
    eexists _, x. split; [done|]. by econstructor.
Qed.

(** A scrubbed value, wherever it sits, has no proxy-owned metadata. *)
Lemma scrub_member_owned_free b v : owned_free (scrub_member b v).
Proof.
  intros w k Hr Hk. remember (scrub_member b v) as u eqn:Eu. revert b v Eu.
  induction Hr as [u|u u' w Hs _ IH]; intros b v ->.
  - destruct v as [| | | |l|m]; try done. rewrite scrub_member_object. cbn [path_get get].
    assert (Hg : map_get META_FIELD (if b then remove_owned (scrub_entry <$> m) else scrub_entry <$> m)
                 = scrub_member true <$> map_get META_FIELD m).
    { destruct b; rewrite ?map_get_remove_owned, map_get_scrub_entry; [|by rewrite bool_decide_eq_true_2].
      rewrite bool_decide_eq_false_2 by apply META_FIELD_not_owned. by rewrite bool_decide_eq_true_2. }
    rewrite Hg. destruct (map_get META_FIELD m) as [x|]; [|done]. cbn [fmap option_fmap option_map mbind option_bind].
    destruct x as [| | | |?|mm]; try done. rewrite scrub_member_object. cbn [get].
    rewrite map_get_remove_owned. by rewrite bool_decide_eq_true_2.
  - apply scrub_member_child in Hs as (b' & x & -> & _). by eapply IH.
Qed.

Lemma scrub_owned_free v : owned_free (scrub_proxy_owned_meta v).
Proof. apply scrub_member_owned_free. Qed.

(** A member that is not proxy-owned stays, scrubbed inside. *)
Lemma scrub_member_get b k v :
  k ∉ PROXY_OWNED_META_KEYS ->
  get k (scrub_member b v) = scrub_member (bool_decide (k = META_FIELD)) <$> get k v.
Proof.
  intros Hk. destruct v as [| | | |l|m]; try done. rewrite scrub_member_object. cbn [get].
  destruct b; rewrite ?map_get_remove_owned, map_get_scrub_entry; [|done]. by rewrite bool_decide_eq_false_2.
Qed.

(** ** Every place of a value *)

(** A step into a value, and the value at the end of a path of steps. *)
Inductive Place : Type := Key (k : rstr) | Index (i : nat).

Definition into (st : Place) (v : Value) : option Value :=
  match st, v with
  | Key k, VObject m => map_get k m
  | Index i, VArray items => items !! i
  | _, _ => None
  end.

Fixpoint at_path (p : list Place) (v : Value) : option Value :=
  match p with [] => Some v | st :: p' => into st v ≫= at_path p' end.

(** What is to be seen of a value without going into it. *)
Inductive Face : Type := Scalar (v : Value) | ArrayOf (n : nat) | SomeObject.

Definition face (v : Value) : Face :=
  match v with VArray items => ArrayOf (length items) | VObject _ => SomeObject | _ => Scalar v end.

(** A path that enters a proxy-owned member of a [_meta]; [in_meta]: it starts
    inside one. *)
Fixpoint enters_owned (in_meta : bool) (p : list Place) : bool :=
  match p with
  | [] => false
  | Key k :: p' => (in_meta && bool_decide (k ∈ PROXY_OWNED_META_KEYS)) || enters_owned (bool_decide (k = META_FIELD)) p'
  | Index _ :: p' => enters_owned false p'
  end.

(** Scrubbing takes away those places, and changes nothing at any other. *)
Lemma scrub_at p b v :
  face <$> at_path p (scrub_member b v) = if enters_owned b p then None else face <$> at_path p v.
Proof.
  revert b v. induction p as [|st p IH]; intros b v.
  { destruct v; cbn; try done. by rewrite length_fmap. }
  destruct st as [k|i]; cbn [at_path enters_owned].
  - destruct v as [| | | | |m]; try (by cbn; destruct (_ || _)). rewrite scrub_member_object. cbn [into].
    assert (Hg : map_get k (if b then remove_owned (scrub_entry <$> m) else scrub_entry <$> m) =
      if b && bool_decide (k ∈ PROXY_OWNED_META_KEYS) then None else scrub_member (bool_decide (k = META_FIELD)) <$> map_get k m).
    { destruct b; rewrite ?map_get_remove_owned, map_get_scrub_entry; done. }
    rewrite Hg. destruct (b && _); cbn [orb]; [done|]. destruct (map_get k m) as [x|]; cbn [fmap option_fmap option_map mbind option_bind].
    + apply IH.
    + by destruct (enters_owned _ p).
  - destruct v as [| | | |items|m]; try (by cbn; destruct (enters_owned _ _)). cbn [scrub_member into].
    rewrite list_lookup_fmap. destruct (items !! i) as [x|]; cbn [fmap option_fmap option_map mbind option_bind]; [apply IH|].
    by destruct (enters_owned _ p).
Qed.

(** Replacing an object at [k1.k2] changes what is below it and nothing else. *)
Lemma update_two_at k1 k2 v m m' p :
  path_get [k1; k2] v = Some (VObject m) ->
  face <$> at_path p (update_at [k1; k2] (fun _ => VObject m') v) =
  match p with
  | Key a :: Key b :: q => if bool_decide (a = k1 /\ b = k2) then face <$> at_path q (VObject m') else face <$> at_path p v
  | _ => face <$> at_path p v
  end.
Proof.
  intros (x & Hx & Hm)%bind_Some. apply bind_Some in Hm as (y & Hy & [= ->]).
  destruct v as [| | | | |vm]; try done. destruct x as [| | | | |xm]; try done. cbn [get] in Hx, Hy. cbn [update_at update_member].
  destruct p as [|[a|i] p]; [done| |done]. cbn [at_path into]. rewrite map_get_alter.
  case_bool_decide as Ea; [subst a; rewrite Hx; cbn [fmap option_fmap option_map mbind option_bind]|
    rewrite option_fmap_id; destruct p as [|[b|] p]; try done; by rewrite bool_decide_eq_false_2 by naive_solver].
  destruct p as [|[b|i] p]; [done| |done]. cbn [at_path into update_member]. rewrite map_get_alter.
  case_bool_decide as Eb; [subst b; rewrite Hy, bool_decide_eq_true_2 by done; done|].
  by rewrite option_fmap_id, bool_decide_eq_false_2 by naive_solver.
Qed.

(** ** Well-formedness *)

Lemma remove_owned_wf m : value_wf (VObject m) -> value_wf (VObject (remove_owned m)).
Proof.
  intros W. unfold remove_owned. cbn [foldl].
  assert (Hr : forall k m, value_wf (VObject m) -> value_wf (VObject (map_remove k m)))
    by (intros; by apply (value_wf_remove k (VObject _))).
  by do 4 apply Hr.
Qed.

Lemma scrub_member_wf b v : value_wf v -> value_wf (scrub_member b v).
Proof.
  revert b. induction v as [|x|x|x|l IH|m IH] using Value_ind'; intros b W; try done.
  - inversion W as [| | | | | |? Hl|]; subst. constructor. apply Forall_fmap.
    rewrite Forall_forall in *. intros x Hx. cbn. auto.
  - rewrite scrub_member_object. assert (We : value_wf (VObject (scrub_entry <$> m))).
    { inversion W as [| | | | | | |? Hd Hs Hm]; subst.
      assert (Hk : (scrub_entry <$> m).*1 = m.*1) by (rewrite <- list_fmap_compose; by apply list_fmap_ext).
      constructor; rewrite ?Hk; [done..|]. apply Forall_fmap. rewrite Forall_forall in *.
      intros [k x] Hx. cbn. apply (IH (k, x) Hx). by apply (Hm (k, x)). }
    destruct b; [by apply remove_owned_wf|done].
Qed.
