(* ===== verification/ProxyTheorems.v ===== *)
(** * What the sidecar guarantees

    Complete mediation of the inner server, the proxy as the sole writer of
    its metadata, and exactly when the handler panics. *)

From S2P Require Import Prelude Utf8 Errors Json Canonical Strings Signing Time Crypto Envelope Instances.
From S2P Require Import Constraints Replay Resolver Pipeline PipelineSpec PipelineTheorems Samples Unwrap Graft.
From S2P Require Import Values Policy Transport KeySource Proxy ProxyMeta.

Section Requests.
Context `{SJ : SerdeJson, SJL : !SerdeJsonLaws, SS : !SerdeSer, B64 : !Base64, SH : !Sha2, DK : !Dalek}.
Context `{D1 : !Deserialize RequestEnvelope, D2 : !Deserialize Draft02RequestEnvelope}.
Context `{L1 : !DeserializeLaws RequestEnvelope, L2 : !DeserializeLaws Draft02RequestEnvelope}.
Context `{RC : ReplayCache C, IS : InnerServer Srv}.

(** ** Accepted requests are forwarded *)

Definition verified_path : list rstr := [str "params"; META_FIELD; VERIFIED_META_KEY].

Lemma accepted_meta v c pre vr :
  profile_verdict v c pre vr -> exists m, path_get [str "params"; META_FIELD] v = Some (VObject m).
Proof.
  assert (H : forall k w, path_get [str "params"; META_FIELD; k] v = Some w ->
                exists m, path_get [str "params"; META_FIELD] v = Some (VObject m)).
  { intros k w. cbn [path_get]. destruct (get (str "params") v) as [a|]; cbn [mbind option_bind]; [|done].
    destruct (get META_FIELD a) as [[| | | | |m]|]; cbn [mbind option_bind]; try done. eauto. }
  intros [(e & (m & Hm & _) & _)|(e & (m & Hm & _) & _)]; by eapply H.
Qed.

Lemma accepted_context p v c pre vr now :
  profile_verdict v c pre vr -> exists ctx, build_verified_context p vr now = Ok ctx.
Proof. unfold build_verified_context. intros [(e & _ & -> & ->)|(e & _ & -> & ->)]; cbn; eauto. Qed.

Lemma scrub_meta v m :
  path_get [str "params"; META_FIELD] v = Some (VObject m) ->
  path_get [str "params"; META_FIELD] (scrub_proxy_owned_meta v) = Some (VObject (remove_owned (scrub_entry <$> m))).
Proof.
  intros (a & Ha & Hm)%bind_Some. apply bind_Some in Hm as (b & Hb & [= ->]). cbn [path_get].
  unfold scrub_proxy_owned_meta. rewrite scrub_member_get, Ha
    by exact (bool_decide_eq_true_1 (str "params" ∉ PROXY_OWNED_META_KEYS) eq_refl).
  cbn [fmap option_fmap option_map mbind option_bind]. rewrite scrub_member_get, Hb by apply META_FIELD_not_owned.
  rewrite bool_decide_eq_true_2 by done. done.
Qed.

(** The value sent to the inner server: the scrubbed request, with the verified
    context inserted into its metadata [m]. *)
Definition forwarded_form (ctx v : Value) (m : Map) : Value :=
  update_at [str "params"; META_FIELD] (fun _ => VObject (map_insert VERIFIED_META_KEY ctx (remove_owned (scrub_entry <$> m))))
    (scrub_proxy_owned_meta v).

Lemma forwarded_is p raw v m vr now ctx :
  value_wf v -> from_slice raw = Some v -> path_get [str "params"; META_FIELD] v = Some (VObject m) ->
  build_verified_context p vr now = Ok ctx ->
  build_forwarded_request p raw vr now = Returns (ok_or (to_vec (forwarded_form ctx v m)) CanonicalizationFailed).
Proof.
  intros W Hv Hm Hctx. unfold build_forwarded_request. rewrite Hv, Hctx.
  change [str "params"; str "_meta"] with ([str "params"; META_FIELD] ++ []).
  by rewrite (index_update_app _ _ _ _ _ (scrub_member_wf false v W) (scrub_meta _ _ Hm)).
Qed.

Lemma forwarded_value p raw v m vr now ctx :
  value_wf v -> from_slice raw = Some v -> path_get [str "params"; META_FIELD] v = Some (VObject m) ->
  build_verified_context p vr now = Ok ctx ->
  build_forwarded_request p raw vr now = Returns (ok_or (to_vec (forwarded_form ctx v m)) CanonicalizationFailed) /\
  path_get verified_path (forwarded_form ctx v m) = Some ctx /\
  delete_path verified_path (forwarded_form ctx v m) = scrub_proxy_owned_meta v.
Proof.
  intros W Hv Hm Hctx. split; [by apply forwarded_is|].
  unfold forwarded_form. apply scrub_meta in Hm as Hs. set (mm := remove_owned (scrub_entry <$> m)) in *.
  set (sv := scrub_proxy_owned_meta v) in *. assert (Ws : value_wf sv) by (by apply scrub_member_wf). split.
  - change verified_path with ([str "params"; META_FIELD] ++ [VERIFIED_META_KEY]).
    rewrite (path_get_update_at _ _ _ _ _ Hs). cbn. by rewrite map_get_insert, bool_decide_eq_true_2.
  - change verified_path with ([str "params"; META_FIELD] ++ [VERIFIED_META_KEY]).
    rewrite delete_path_snoc, update_at_compose. cbn [remove_member].
    rewrite map_remove_insert.
    + etrans; [|apply (update_at_id [str "params"; META_FIELD] sv)]. apply update_at_get; [done|]. congruence.
    + unfold mm. rewrite map_get_remove_owned. by rewrite bool_decide_eq_true_2 by (cbn; set_solver).
Qed.

(** The place of the verified context. *)
Definition verified_place : list Place := [Key (str "params"); Key META_FIELD; Key VERIFIED_META_KEY].

(** What is found at every place of the forwarded value. *)
Lemma forwarded_at v m ctx :
  path_get [str "params"; META_FIELD] v = Some (VObject m) ->
  (forall q, face <$> at_path (verified_place ++ q) (forwarded_form ctx v m) = face <$> at_path q ctx) /\
  (forall p, ~ verified_place `prefix_of` p ->
     face <$> at_path p (forwarded_form ctx v m) = if enters_owned false p then None else face <$> at_path p v).
Proof.
  intros Hm%scrub_meta. unfold forwarded_form. set (mm := remove_owned (scrub_entry <$> m)) in *. split.
  - intros q. rewrite (update_two_at _ _ _ _ _ _ Hm). unfold verified_place. cbn [app]. rewrite bool_decide_eq_true_2 by done.
    cbn [at_path into]. by rewrite map_get_insert, bool_decide_eq_true_2.
  - intros p Hp. rewrite (update_two_at _ _ _ _ _ _ Hm), <- scrub_at. fold (scrub_proxy_owned_meta v).
    destruct p as [|[a|i] p]; try done. destruct p as [|[b|i] p]; try done. case_bool_decide as E; [|done]. destruct E as [-> ->].
    assert (Hq : at_path (Key (str "params") :: Key META_FIELD :: p) (scrub_proxy_owned_meta v) = at_path p (VObject mm)).
    { revert Hm. cbn [path_get at_path]. destruct (scrub_proxy_owned_meta v) as [| | | | |sm]; try done. cbn [get into].
      destruct (map_get (str "params") sm) as [x|]; [|done]. cbn [mbind option_bind]. destruct x as [| | | | |xm]; try done. cbn [get into].
      destruct (map_get META_FIELD xm) as [y|]; [|done]. cbn [mbind option_bind]. by intros [= ->]. }
    rewrite Hq. destruct p as [|[k|i] p]; [done| |done]. cbn [at_path into]. rewrite map_get_insert. case_bool_decide as Ek; [|done].
    subst k. exfalso. apply Hp. by exists p.
Qed.

(** C11: The proxy is the sole writer of its metadata: for every accepted request
    the forwarding step does not panic and forwards one value [fv] that
    carries, at [params._meta], the verified-context block computed from the
    verdict alone; without that block [fv] is the scrubbed request, in which
    no [_meta] object at any depth holds a proxy-owned member, so nothing the
    caller put under those names reaches the inner server.  And [fv] is known
    at every place a path of member names and array indices can reach: inside
    the verified context, it is that context; inside a proxy-owned member of
    any [_meta], there is nothing; everywhere else there is what the request
    has there, the same string, number, boolean or null, an array of the same
    length, an object, or nothing. *)
Theorem forward_sole_writer p raw now (replay replay' : C) vr :
  verify_request_dispatch raw (p_resolver p) (p_config p) now (p_version_policy p) replay = (Ok vr, replay') ->
  exists v ctx fv, from_slice raw = Some v /\ build_verified_context p vr now = Ok ctx /\
    build_forwarded_request p raw vr now = Returns (ok_or (to_vec fv) CanonicalizationFailed) /\
    path_get verified_path fv = Some ctx /\ delete_path verified_path fv = scrub_proxy_owned_meta v /\
    owned_free (delete_path verified_path fv) /\
    (forall q, face <$> at_path (verified_place ++ q) fv = face <$> at_path q ctx) /\
    forall place, ~ verified_place `prefix_of` place ->
      face <$> at_path place fv = if enters_owned false place then None else face <$> at_path place v.
Proof.
  intros (v & c & pre & te & (Hv & _) & _ & _ & Hp)%dispatch_accepted.
  destruct (accepted_meta _ _ _ _ Hp) as [m Hm]. destruct (accepted_context p _ _ _ _ now Hp) as [ctx Hctx].
  destruct (forwarded_value p raw v m vr now ctx (from_slice_wf _ _ Hv) Hv Hm Hctx) as (Hf & Hg & Hd).
  destruct (forwarded_at v m ctx Hm) as [H1 H2].
  exists v, ctx, (forwarded_form ctx v m). split_and!; try done. rewrite Hd. apply scrub_owned_free.
Qed.

(** ** Mediation *)

(** The requests sent to the inner server. *)
Definition dispatched (effects : list Effect) : list bytes :=
  omap (fun e => match e with Dispatched r => Some r | Logged _ _ => None end) effects.

(** The policy layer, when it is on, allows the request. *)
Definition policy_allows (p : Proxy) (raw : bytes) (now : Z) (vr : VerifiedRequest) : Prop :=
  forall pe, p_policy p = Some pe -> exists v, from_slice raw = Some v /\
    evaluate (pe_evaluator pe) vr v (p_resolver p) (pe_revocation pe) now = Allow.

(** The signer is bound to the channel: to the identity of the connection, or
    to the one an assertion for this very request vouches for. *)
Definition channel_bound (p : Proxy) (now : Z) (ti : option TransportIdentity) (header : option rstr)
    (vr : VerifiedRequest) : Prop :=
  match p_lb_assertion p, p_transport_binding p with
  | None, None => True
  | None, Some binding => binding (vr_verified_signer vr) ti = Ok tt
  | Some lb, Some binding => exists h id, header = Some h /\
      lb_verify lb h (vr_request_hash vr) now = Ok id /\ binding (vr_verified_signer vr) (Some id) = Ok tt
  | Some _, None => False
  end.

(** Everything the handler demands before it forwards. *)
Definition admitted (p : Proxy) (raw : bytes) (now : Z) (ti : option TransportIdentity)
    (header : option rstr) (replay : C) (vr : VerifiedRequest) (replay' : C) : Prop :=
  verify_request_dispatch raw (p_resolver p) (p_config p) now (p_version_policy p) replay = (Ok vr, replay') /\
  policy_allows p raw now vr /\ channel_bound p now ti header vr.

(** The id answers carry. *)
Definition answer_id (raw : bytes) : Value := default VNull (v ← from_slice raw; get (str "id") v).

(** An unsigned JSON-RPC error of one of the two layers. *)
Definition error_answer (raw answer : bytes) : Prop :=
  (exists e, answer = json_rpc_error_object e (answer_id raw)) \/
  (exists e, answer = json_rpc_authorization_error e (answer_id raw)).

Lemma error_answer_core raw e : error_answer raw (json_rpc_error_object e (answer_id raw)).
Proof. left. by exists e. Qed.

Lemma error_answer_policy raw e : error_answer raw (json_rpc_authorization_error e (answer_id raw)).
Proof. right. by exists e. Qed.

(** The tail of the handler. *)
Definition answer (raw : bytes) (r : outcome (result bytes McpsError) * World C Srv) : outcome bytes * World C Srv :=
  match r with
  | (Returns (Ok bs), w) => (Returns bs, w)
  | (Returns (Err err), w) => (Returns (json_rpc_error_object err (answer_id raw)), w)
  | (Panics, w) => (Panics, w)
  end.

Definition with_replay (w : World C Srv) (replay : C) : World C Srv :=
  {| w_replay := Some replay; w_inner := w_inner w; w_effects := w_effects w |}.

Lemma policy_refusal_None p raw vr now :
  match policy_refusal p (from_slice raw) vr now (answer_id raw) with
  | None => policy_allows p raw now vr
  | Some refusal => error_answer raw refusal /\ ~ policy_allows p raw now vr
  end.
Proof.
  unfold policy_refusal, policy_allows. destruct (p_policy p) as [pe|]; [|done].
  destruct (from_slice raw) as [v|].
  - destruct (evaluate _ _ _ _ _ _) eqn:Ee; [intros ? [= <-]; eauto|]. split; [apply error_answer_policy|].
    intros Hx. destruct (Hx pe eq_refl) as (? & [= <-] & ?). congruence.
  - split; [apply error_answer_core|]. intros Hx. by destruct (Hx pe eq_refl) as (? & ? & _).
Qed.

Lemma channel_bound_spec p vr now ti header :
  match lb_verified_identity p vr now header with
  | Err _ => ~ channel_bound p now ti header vr
  | Ok i =>
      match p_transport_binding p with
      | None => channel_bound p now ti header vr
      | Some binding =>
          binding (vr_verified_signer vr) (match i with Some x => Some x | None => ti end) = Ok tt <->
          channel_bound p now ti header vr
      end
  end.
Proof.
  unfold lb_verified_identity, channel_bound.
  destruct (p_lb_assertion p) as [lb|], (p_transport_binding p) as [binding|]; try done; [|tauto].
  destruct header as [h|]; cbn [ok_or]; [|intros (? & ? & ? & _); done].
  destruct (lb_verify lb h _ now) as [id|] eqn:El; cbn [map_err].
  - split; [eauto 10|]. intros (? & id' & [= <-] & Hl & Hb). congruence.
  - intros (? & id' & [= <-] & Hl & _). congruence.
Qed.

(** The handler forwards what is admitted and refuses the rest. *)
Lemma handle_cases p raw now ti header (w : World C Srv) :
  (exists replay vr replay', w_replay w = Some replay /\ admitted p raw now ti header replay vr replay' /\
     handle_with_transport p raw now ti header w =
     answer raw (dispatch_and_sign p raw vr now (answer_id raw) (with_replay w replay'))) \/
  ((forall replay vr replay', w_replay w = Some replay -> ~ admitted p raw now ti header replay vr replay') /\
   exists bs w', handle_with_transport p raw now ti header w = (Returns bs, w') /\ error_answer raw bs /\
     w_inner w' = w_inner w /\ w_effects w' = w_effects w).
Proof.
  unfold handle_with_transport, admitted. fold (answer_id raw).
  destruct (w_replay w) as [replay|] eqn:Er;
    [|right; split; [done|]; do 2 eexists; split; [done|]; split; [apply error_answer_core|done]].
  destruct (verify_request_dispatch _ _ _ _ _ replay) as [[vr|err] replay'] eqn:Ev.
  2:{ right. split; [intros ??? [= <-] [? _]; congruence|]. do 2 eexists. split; [done|]. split; [apply error_answer_core|done]. }
  pose proof (policy_refusal_None p raw vr now) as Hpol.
  destruct (policy_refusal _ _ _ _ _) as [refusal|].
  { destruct Hpol as [He Hno]. right. split; [|by do 2 eexists].
    intros ??? [= <-] (Hv & Hx & _). rewrite Ev in Hv. by simplify_eq. }
  pose proof (channel_bound_spec p vr now ti header) as Hch.
  assert (Hgo : channel_bound p now ti header vr -> exists replay0 vr0 replay0', Some replay = Some replay0 /\
    (verify_request_dispatch raw (p_resolver p) (p_config p) now (p_version_policy p) replay0 = (Ok vr0, replay0') /\
     policy_allows p raw now vr0 /\ channel_bound p now ti header vr0) /\
    answer raw (dispatch_and_sign p raw vr now (answer_id raw) (with_replay w replay')) =
    answer raw (dispatch_and_sign p raw vr0 now (answer_id raw) (with_replay w replay0'))) by eauto 10.
  assert (Hstop : forall err, ~ channel_bound p now ti header vr ->
    (forall replay0 vr0 replay0', Some replay = Some replay0 ->
       ~ (verify_request_dispatch raw (p_resolver p) (p_config p) now (p_version_policy p) replay0 = (Ok vr0, replay0') /\
          policy_allows p raw now vr0 /\ channel_bound p now ti header vr0)) /\
    exists bs w', (Returns (json_rpc_error_object err (answer_id raw)), with_replay w replay') = (Returns bs, w') /\
      error_answer raw bs /\ w_inner w' = w_inner w /\ w_effects w' = w_effects w).
  { intros err Hno. split; [intros ??? [= <-] (Hv & _ & Hx); rewrite Ev in Hv; by simplify_eq|].
    do 2 eexists. split; [done|]. split; [apply error_answer_core|done]. }
  destruct (lb_verified_identity p vr now header) as [i|err]; [|right; by apply Hstop].
  destruct (p_transport_binding p) as [binding|]; [|left; by apply Hgo].
  destruct (binding _ _) as [[]|err]; [left; by apply Hgo, Hch|right]. apply Hstop. rewrite <- Hch. done.
Qed.

Lemma dispatched_app e1 e2 : dispatched (e1 ++ e2) = dispatched e1 ++ dispatched e2.
Proof. apply omap_app. Qed.

Lemma dispatched_log p vr event : dispatched (log_event p vr event) = [].
Proof. unfold log_event. by destruct (p_log_sink p). Qed.

(** What one forwarded request does to the world. *)
Lemma dispatch_and_sign_world p raw vr now id (w w' : World C Srv) fwd out :
  build_forwarded_request p raw vr now = Returns (Ok fwd) ->
  dispatch_and_sign p raw vr now id w = (out, w') ->
  w_replay w' = w_replay w /\ w_inner w' = (inner_dispatch (w_inner w) fwd).2 /\
  dispatched (w_effects w') = dispatched (w_effects w) ++ [fwd] /\
  out = build_signed_response p (inner_dispatch (w_inner w) fwd).1 vr now id.
Proof.
  intros Hf. unfold dispatch_and_sign. rewrite Hf. destruct (inner_dispatch (w_inner w) fwd) as [resp inner'] eqn:Ei.
  intros H. cbn [fst snd].
  destruct (build_signed_response p resp vr now id) as [[signed|e]|] eqn:Es; simplify_eq; cbn [w_replay w_inner w_effects];
    rewrite ?dispatched_app, ?dispatched_log, ?app_nil_r; done.
Qed.

Lemma accepted_forwards `{!SerdeSerLaws} p raw now (replay replay' : C) vr :
  verify_request_dispatch raw (p_resolver p) (p_config p) now (p_version_policy p) replay = (Ok vr, replay') ->
  exists fwd, build_forwarded_request p raw vr now = Returns (Ok fwd).
Proof.
  intros (v & c & pre & te & (Hv & _) & _ & _ & Hp)%dispatch_accepted.
  destruct (accepted_meta _ _ _ _ Hp) as [m Hm]. destruct (accepted_context p _ _ _ _ now Hp) as [ctx Hctx].
  destruct (forwarded_value p raw v m vr now ctx (from_slice_wf _ _ Hv) Hv Hm Hctx) as (-> & _). set (fv := forwarded_form ctx v m).
  destruct (to_vec_total fv) as [bs ->]. by exists bs.
Qed.

(** When the inner server is reached, and what stays when it is not. *)
Lemma handle_mediates_holds `{!SerdeSerLaws} p raw now ti header (w w' : World C Srv) out :
  handle_with_transport p raw now ti header w = (out, w') ->
  (forall replay vr replay', w_replay w = Some replay -> admitted p raw now ti header replay vr replay' ->
     exists fwd, build_forwarded_request p raw vr now = Returns (Ok fwd) /\ w_replay w' = Some replay' /\
       w_inner w' = (inner_dispatch (w_inner w) fwd).2 /\
       dispatched (w_effects w') = dispatched (w_effects w) ++ [fwd]) /\
  ((forall replay vr replay', w_replay w = Some replay -> ~ admitted p raw now ti header replay vr replay') ->
     w_inner w' = w_inner w /\ w_effects w' = w_effects w /\ exists bs, out = Returns bs /\ error_answer raw bs).
Proof.
  intros Hh. destruct (handle_cases p raw now ti header w) as [(replay & vr & replay' & Hr & Ha & He)|[Hno He]].
  - split; [|intros Hno; by destruct (Hno _ _ _ Hr Ha)]. rewrite He in Hh. intros r2 vr2 r2' Hr2 Ha2.
    rewrite Hr in Hr2. simplify_eq. destruct Ha as [Hv _], Ha2 as [Hv2 _]. rewrite Hv in Hv2. simplify_eq.
    destruct (accepted_forwards _ _ _ _ _ _ Hv) as [fwd Hf]. exists fwd. split; [done|].
    destruct (dispatch_and_sign _ _ _ _ _ _) as [out' w2] eqn:Ed.
    apply (dispatch_and_sign_world _ _ _ _ _ _ _ _ _ Hf) in Ed as (H1 & H2 & H3 & _).
    destruct out' as [[|]|]; cbn in Hh; simplify_eq; done.
  - destruct He as (bs & w2 & He & Hbs & Hi & Heff). rewrite He in Hh. simplify_eq.
    split; [intros ??? Hr Ha; by destruct (Hno _ _ _ Hr Ha)|]. eauto 10.
Qed.

(** C1: Complete mediation: the inner server is reached exactly for admitted
    requests.  When the request verifies (signature, freshness, audience,
    nonce not seen before), the policy allows it and its signer is bound to
    the channel, the handler sends exactly one message to the inner server,
    the forwarded form of that request, and the nonce is recorded; otherwise
    the inner server's state and the record of effects are untouched and the
    answer is an unsigned JSON-RPC error. *)
Theorem handle_mediates `{!SerdeSerLaws} p raw now ti header (w w' : World C Srv) out :
  handle_with_transport p raw now ti header w = (out, w') ->
  (forall replay vr replay', w_replay w = Some replay -> admitted p raw now ti header replay vr replay' ->
     exists fwd, build_forwarded_request p raw vr now = Returns (Ok fwd) /\ w_replay w' = Some replay' /\
       w_inner w' = (inner_dispatch (w_inner w) fwd).2 /\
       dispatched (w_effects w') = dispatched (w_effects w) ++ [fwd]) /\
  ((forall replay vr replay', w_replay w = Some replay -> ~ admitted p raw now ti header replay vr replay') ->
     w_inner w' = w_inner w /\ w_effects w' = w_effects w /\ exists bs, out = Returns bs /\ error_answer raw bs).
Proof. intros Hh. split; [exact (proj1 (handle_mediates_holds _ _ _ _ _ _ _ _ Hh))|exact (proj2 (handle_mediates_holds _ _ _ _ _ _ _ _ Hh))]. Qed.
End Requests.

(** ** On the sample sidecar *)

Import Toy ToyProxy.

Lemma forward_sole_writer_witness :
  exists v ctx fv, from_slice sample_raw01 = Some v /\
    build_verified_context sample_proxy sample_vr sample_now = Ok ctx /\
    build_forwarded_request sample_proxy sample_raw01 sample_vr sample_now =
      Returns (ok_or (to_vec fv) CanonicalizationFailed) /\
    path_get verified_path fv = Some ctx /\ delete_path verified_path fv = scrub_proxy_owned_meta v /\
    owned_free (delete_path verified_path fv) /\
    (forall q, face <$> at_path (verified_place ++ q) fv = face <$> at_path q ctx) /\
    forall place, ~ verified_place `prefix_of` place ->
      face <$> at_path place fv = if enters_owned false place then None else face <$> at_path place v.
Proof.
  apply (forward_sole_writer sample_proxy sample_raw01 sample_now sample_replay sample_replay').
  exact sample_dispatch_Ok.
Defined.

Lemma handle_mediates_witness :
  exists out w' fwd, sample_run good_answer sample_world = (out, w') /\
    build_forwarded_request sample_proxy sample_raw01 sample_vr sample_now = Returns (Ok fwd) /\
    w_replay w' = Some sample_replay' /\ w_inner w' = 1%nat /\ dispatched (w_effects w') = [fwd].
Proof.
  unfold sample_run. destruct (handle_with_transport _ _ _ _ _ _) as [out w'] eqn:E. exists out, w'.
  destruct (proj1 (handle_mediates _ _ _ _ _ _ _ _ E) sample_replay sample_vr sample_replay' eq_refl) as [fwd H].
  - split; [exact sample_dispatch_Ok|]. split; [intros pe; discriminate|exact I].
  - exists fwd. split; [reflexivity|exact H].
Defined.
