(* ===== verification/ProxyResponses.v ===== *)
(** * Signed answers

    The value the sidecar signs for every shape of inner answer: exactly when
    building it panics, and that the client's verifier accepts it and gets the
    inner answer back. *)

From S2P Require Import Prelude Utf8 Errors Json Canonical CanonicalParse CanonicalRound Strings Signing.
From S2P Require Import Values Time Crypto Envelope Instances Constraints Replay Resolver Pipeline.
From S2P Require Import PipelineSpec PipelineTheorems PipelineResponses Samples Unwrap Graft Policy PolicySpec.
From S2P Require Import Transport KeySource Proxy ProxyMeta ProxyTheorems.

(** ** The unsigned response *)

Definition response_base (id result : Value) : Value :=
  json_object [(str "jsonrpc", VString (str "2.0")); (str "id", id); (str "result", result)].

Lemma response_base_get id r :
  get (str "result") (response_base id r) = Some r /\ get (str "id") (response_base id r) = Some id.
Proof. unfold response_base. by rewrite !json_object_get. Qed.

Lemma response_base_wf id r : value_wf id -> value_wf r -> value_wf (response_base id r).
Proof.
  intros. apply value_wf_json_object. rewrite !Forall_cons, Forall_nil. split_and!; cbn [fst snd]; try done; solve_str_wf.
Qed.

(** The result the proxy signs over: the members of the scrubbed answer. *)
Lemma wrap_inner_object inner :
  value_wf inner -> exists m, wrap_inner inner = VObject m /\ value_wf (VObject m).
Proof.
  intros W. assert (Hj : forall k x, str_wf k -> value_wf x -> exists m, json_object [(k, x)] = VObject m /\ value_wf (VObject m)).
  { intros k x Hk Hx. eexists. split; [done|]. apply (value_wf_json_object [(k, x)]). by repeat constructor. }
  unfold wrap_inner. destruct (get (str "result") inner) as [r|] eqn:E.
  - assert (Wr : value_wf r). { destruct inner as [| | | | |m]; try done. apply value_wf_object in W as (_ & _ & Hg). eauto. }
    destruct r; try (apply Hj; [solve_str_wf|done]). eauto.
  - apply Hj; [solve_str_wf|done].
Qed.

(** The metadata of an object answer is neither an object nor null. *)
Definition bad_meta (inner : Value) : Prop :=
  exists m x, get (str "result") inner = Some (VObject m) /\ map_get META_FIELD m = Some x /\
    is_object x = false /\ x <> VNull.

(** Adding the envelope to the members of the result. *)
Definition add_envelope (envelope : Value) (m : Map) : option Map :=
  match default VNull (map_get META_FIELD m) with
  | VNull => Some (map_insert META_FIELD (VObject [(RESPONSE_META_KEY, envelope)]) m)
  | VObject mm => Some (map_insert META_FIELD (VObject (map_insert RESPONSE_META_KEY envelope mm)) m)
  | _ => None
  end.

Lemma index_envelope envelope m :
  index_update [META_FIELD; RESPONSE_META_KEY] (fun _ => envelope) (VObject m) =
  match add_envelope envelope m with Some m' => Returns (VObject m') | None => Panics end.
Proof. unfold add_envelope. cbn [index_update]. by destruct (default VNull (map_get META_FIELD m)). Qed.

Lemma add_envelope_None envelope inner m :
  scrub_proxy_owned_meta (wrap_inner inner) = VObject m -> add_envelope envelope m = None <-> bad_meta inner.
Proof.
  intros Hm. unfold add_envelope, bad_meta.
  assert (Hg : map_get META_FIELD m = scrub_member true <$> get META_FIELD (wrap_inner inner)).
  { change (map_get META_FIELD m) with (get META_FIELD (VObject m)). rewrite <- Hm.
    unfold scrub_proxy_owned_meta. rewrite scrub_member_get by apply META_FIELD_not_owned.
    by rewrite bool_decide_eq_true_2. }
  rewrite Hg. clear Hg Hm. unfold wrap_inner. destruct (get (str "result") inner) as [r|].
  2:{ rewrite json_object_get. split; [done|]. by intros (? & ? & ? & _). }
  assert (Hw : forall x, is_object x = false ->
    get META_FIELD (json_object [(RESPONSE_WRAP_VALUE_KEY, x)]) = None) by (intros; by rewrite json_object_get).
  destruct r as [| | | | |rm]; try (rewrite Hw by done; split; [done|]; by intros (? & ? & ? & _)).
  cbn [get]. destruct (map_get META_FIELD rm) as [x|] eqn:Ex.
  - destruct x; (split; [intros H; first [discriminate H|by exists rm; eexists]|]);
      try done; intros (? & ? & [= <-] & Hx & ? & ?); rewrite Ex in Hx; by simplify_eq.
  - split; [done|]. intros (? & ? & [= <-] & Hx & _). by rewrite Ex in Hx.
Qed.

(** The members the envelope was added to. *)
Lemma add_envelope_get envelope m m' :
  add_envelope envelope m = Some m' ->
  exists mm, map_get META_FIELD m' = Some (VObject mm) /\ map_get RESPONSE_META_KEY mm = Some envelope /\
    forall k, k <> META_FIELD -> map_get k m' = map_get k m.
Proof.
  unfold add_envelope. intros H.
  assert (Hm : exists mm, m' = map_insert META_FIELD (VObject mm) m /\ map_get RESPONSE_META_KEY mm = Some envelope).
  { destruct (default VNull (map_get META_FIELD m)); simplify_eq; eexists; (split; [done|]); [done|].
    by rewrite map_get_insert, bool_decide_eq_true_2. }
  destruct Hm as (mm & -> & Hmm). exists mm. rewrite map_get_insert, bool_decide_eq_true_2 by done.
  split_and!; [done..|]. intros k Hk. by rewrite map_get_insert, bool_decide_eq_false_2.
Qed.

Lemma add_envelope_wf envelope m m' :
  value_wf envelope -> value_wf (VObject m) -> add_envelope envelope m = Some m' -> value_wf (VObject m').
Proof.
  intros We Wm H. unfold add_envelope in H.
  assert (Hk : str_wf META_FIELD) by solve_str_wf. assert (Hk2 : str_wf RESPONSE_META_KEY) by solve_str_wf.
  destruct (map_get META_FIELD m) as [x|] eqn:E; cbn in H.
  - pose proof (value_wf_object _ Wm) as (_ & _ & Hg). apply Hg in E.
    destruct x; simplify_eq; apply map_insert_wf; try done; [|by apply map_insert_wf].
    apply value_wf_members; [apply NoDup_singleton|by repeat constructor].
  - simplify_eq. apply map_insert_wf; try done.
    apply value_wf_members; [apply NoDup_singleton|by repeat constructor].
Qed.

(** ** The signed response *)

(** The response with its envelope, before it is signed. *)
Definition with_envelope (id : Value) (m m' : Map) : Value :=
  update_at [str "result"] (fun _ => VObject m') (response_base id (VObject m)).

Section Build.
Context `{SJ : SerdeJson, SJL : !SerdeJsonLaws, SS : !SerdeSer, B64 : !Base64, SH : !Sha2, DK : !Dalek}.
Context (id envelope : Value) (m m' : Map).
Context (Wid : value_wf id) (Wm : value_wf (VObject m)) (He : unsigned_envelope envelope).
Context (Hadd : add_envelope envelope m = Some m').

Lemma with_envelope_wf : value_wf (with_envelope id m m').
Proof.
  destruct He as [We _]. unfold with_envelope. cbn [update_at]. apply value_wf_update; [by apply response_base_wf|]. intros _ _. by eapply add_envelope_wf.
Qed.

Lemma with_envelope_get :
  get (str "id") (with_envelope id m m') = Some id /\ get (str "result") (with_envelope id m m') = Some (VObject m').
Proof.
  pose proof (response_base_get id (VObject m)) as [Hr Hi]. unfold with_envelope. cbn [update_at].
  rewrite !get_update_member, Hr, Hi. by rewrite bool_decide_eq_false_2, bool_decide_eq_true_2.
Qed.

Lemma with_envelope_path : path_get (envelope_path Response) (with_envelope id m m') = Some envelope.
Proof.
  unfold envelope_path. cbn [path_get container_key]. rewrite (proj2 with_envelope_get). cbn [mbind option_bind get].
  destruct (add_envelope_get _ _ _ Hadd) as (mm & Hmm & Hr & _). fold META_FIELD. rewrite Hmm. cbn [mbind option_bind get meta_key].
  by rewrite Hr.
Qed.

Lemma with_envelope_unsigned : unsigned Response (with_envelope id m m').
Proof. eapply unsigned_located; [exact with_envelope_wf|exact with_envelope_path|done]. Qed.
End Build.

(** ** The envelope the proxy authors *)

Lemma str_wf_display_padded w z : str_wf (display_padded w z).
Proof.
  unfold display_padded.
  assert (Hd : forall n, 0 <= n -> str_wf (display_unsigned n)) by (intros; by apply str_wf_display_unsigned).
  assert (Hr : forall n, str_wf (replicate n 48)) by (intros; by apply Forall_replicate).
  destruct (Z.ltb_spec z 0); [constructor; [done|]|]; apply str_wf_app; split; auto; apply Hd; lia.
Qed.

Lemma str_wf_rfc3339 t : str_wf (unix_to_rfc3339_utc t).
Proof.
  unfold unix_to_rfc3339_utc. destruct (civil_from_days _) as [[y m] d].
  rewrite !str_wf_app. split_and!; try apply str_wf_display_padded; by apply str_wf_ascii.
Qed.

Section Answers.
Context `{SJ : SerdeJson, SJL : !SerdeJsonLaws, SS : !SerdeSer, SSL : !SerdeSerLaws}.
Context `{B64 : !Base64, SH : !Sha2, DK : !Dalek}.

(** The names a proxy is configured with and the verdict it answers are proper
    strings. *)
Definition names_wf (p : Proxy) (vr : VerifiedRequest) : Prop :=
  str_wf (p_server_signer p) /\ str_wf (p_key_id p) /\ str_wf (vr_request_hash vr) /\
  (forall cid, vr_canonicalization_id vr = Some cid -> str_wf cid).

Lemma response_envelope_unsigned p vr now envelope :
  names_wf p vr -> build_response_envelope p vr now = Ok envelope -> unsigned_envelope envelope.
Proof.
  intros (H1 & H2 & H3 & H4) He. unfold build_response_envelope in He. pose proof (str_wf_rfc3339 now) as H5.
  pose proof (signature_stub_wf _ H2) as Hs.
  destruct (vr_authorization vr); [|destruct (vr_canonicalization_id vr) as [cid|]; [specialize (H4 cid eq_refl)|done]];
    cbn [ok_or] in He; simplify_eq;
    (split; [apply value_wf_json_object; rewrite !Forall_cons, Forall_nil; split_and!; cbn [fst snd]; try done; solve_str_wf|];
     rewrite json_object_get; eexists; split; [reflexivity|]; reflexivity).
Qed.

(** What building the answer amounts to, given the parsed inner answer. *)
Lemma build_signed_response_spec p ib inner vr now id envelope m :
  from_slice ib = Some inner -> value_wf id -> unsigned_envelope envelope ->
  build_response_envelope p vr now = Ok envelope -> scrub_proxy_owned_meta (wrap_inner inner) = VObject m ->
  build_signed_response p ib vr now id =
  match add_envelope envelope m with
  | None => Panics
  | Some m' =>
      Returns (let? preimage := signing_preimage (with_envelope id m m') Response in
               let? sg := map_err (fun _ => ResponseSigInvalid) (sign_response (p_signer p) preimage) in
               ok_or (to_vec (fill_signature Response sg (with_envelope id m m'))) CanonicalizationFailed)
  end.
Proof.
  intros Hi Wid Hu He Hm. unfold build_signed_response. rewrite Hi, Hm, He. fold (response_base id (VObject m)).
  assert (Wm : value_wf (VObject m)).
  { rewrite <- Hm. apply scrub_member_wf. destruct (wrap_inner_object inner) as (? & -> & ?); [|done].
    by eapply from_slice_wf. }
  change [str "result"; str "_meta"; RESPONSE_META_KEY] with ([str "result"] ++ [META_FIELD; RESPONSE_META_KEY]).
  rewrite (index_update_app _ _ _ _ (VObject m)); [|by apply response_base_wf|].
  2:{ cbn [path_get]. by rewrite (proj1 (response_base_get _ _)). }
  rewrite index_envelope. destruct (add_envelope envelope m) as [m'|] eqn:Ea; [|done].
  fold (with_envelope id m m'). unfold response_signing_preimage.
  destruct (signing_preimage _ Response) as [pre|]; [|done].
  destruct (map_err _ _) as [sg|]; [|done]. by rewrite (index_signature Response _ (with_envelope_unsigned id envelope m m' Wid Wm Hu Ea)).
Qed.
End Answers.

(** ** Panics *)
Section Panics.
Context `{SJ : SerdeJson, SJL : !SerdeJsonLaws, SS : !SerdeSer, SSL : !SerdeSerLaws}.
Context `{B64 : !Base64, B64L : !Base64Laws, SH : !Sha2, SHL : !Sha2Laws, DK : !Dalek}.
Context `{D1 : !Deserialize RequestEnvelope, D2 : !Deserialize Draft02RequestEnvelope}.
Context `{L1 : !DeserializeLaws RequestEnvelope, L2 : !DeserializeLaws Draft02RequestEnvelope}.
Context `{RC : ReplayCache C, IS : InnerServer Srv}.

Lemma sha256_hash_id_wf bs : str_wf (sha256_hash_id bs).
Proof.
  unfold sha256_hash_id. apply str_wf_app. split; [solve_str_wf|]. apply base64_encode_wf, sha256_wf.
Qed.

(** An accepted verdict can be answered. *)
Lemma accepted_answerable p raw now (replay replay' : C) vr :
  str_wf (p_server_signer p) -> str_wf (p_key_id p) ->
  verify_request_dispatch raw (p_resolver p) (p_config p) now (p_version_policy p) replay = (Ok vr, replay') ->
  names_wf p vr /\ value_wf (answer_id raw) /\ answer_id raw <> VNull /\
  exists envelope, build_response_envelope p vr now = Ok envelope /\ unsigned_envelope envelope.
Proof.
  intros H1 H2 (v & c & pre & te & (Hv & _ & i & Hi & Hn) & _ & _ & Hp)%dispatch_accepted.
  assert (Hw : names_wf p vr).
  { destruct Hp as [(e & _ & -> & ->)|(e & (m & _ & _ & _ & _ & Hc & _) & -> & ->)];
      unfold names_wf; split_and!; try done; try apply sha256_hash_id_wf. intros cid [= <-]. rewrite Hc. solve_str_wf. }
  assert (Ha : answer_id raw = i) by (unfold answer_id; rewrite Hv; cbn [mbind option_bind]; by rewrite Hi).
  rewrite Ha. split_and!; try done.
  - apply from_slice_wf in Hv. destruct v as [| | | | |m]; try done. apply value_wf_object in Hv as (_ & _ & Hg). eauto.
  - assert (He : exists envelope, build_response_envelope p vr now = Ok envelope).
    { unfold build_response_envelope. destruct Hp as [(e & _ & -> & ->)|(e & _ & -> & ->)]; cbn; eauto. }
    destruct He as [env He]. exists env. split; [done|]. by eapply response_envelope_unsigned.
Qed.

Lemma build_signed_response_panics p ib vr now id envelope :
  value_wf id -> build_response_envelope p vr now = Ok envelope -> unsigned_envelope envelope ->
  build_signed_response p ib vr now id = Panics <-> exists inner, from_slice ib = Some inner /\ bad_meta inner.
Proof.
  intros Wid He Hu. destruct (from_slice ib) as [inner|] eqn:Ei.
  2:{ unfold build_signed_response. rewrite Ei. split; [done|]. by intros (? & ? & _). }
  destruct (wrap_inner_object inner (from_slice_wf _ _ Ei)) as (wm & Hwm & _).
  assert (Hm : exists m, scrub_proxy_owned_meta (wrap_inner inner) = VObject m) by (rewrite Hwm; by eexists).
  destruct Hm as [m Hm]. rewrite (build_signed_response_spec _ _ _ _ _ _ _ _ Ei Wid Hu He Hm).
  pose proof (add_envelope_None envelope inner m Hm) as Hn. destruct (add_envelope envelope m) as [m'|].
  - split; [done|]. intros (? & [= <-] & Hb). by apply Hn in Hb.
  - split; [|done]. intros _. exists inner. split; [done|]. by apply Hn.
Qed.

(** C12: The handler panics, in exactly one situation: an admitted request whose
    inner answer has an object [result] whose [_meta] member is neither an
    object nor null.  On every other input, hostile or not, it returns. *)
Theorem handle_panics_exact p raw now ti header (w : World C Srv) :
  str_wf (p_server_signer p) -> str_wf (p_key_id p) ->
  (handle_with_transport p raw now ti header w).1 = Panics <->
  exists replay vr replay' fwd inner, w_replay w = Some replay /\
    admitted p raw now ti header replay vr replay' /\ build_forwarded_request p raw vr now = Returns (Ok fwd) /\
    from_slice (inner_dispatch (w_inner w) fwd).1 = Some inner /\ bad_meta inner.
Proof.
  intros H1 H2. destruct (handle_cases p raw now ti header w) as [(replay & vr & replay' & Hr & Ha & ->)|[Hno He]].
  2:{ destruct He as (bs & w' & -> & _). split; [done|]. intros (? & ? & ? & ? & ? & Hr & Ha & _). by destruct (Hno _ _ _ Hr Ha). }
  pose proof Ha as (Hv & _). destruct (accepted_forwards _ _ _ _ _ _ Hv) as [fwd Hf].
  destruct (accepted_answerable _ _ _ _ _ _ H1 H2 Hv) as (_ & Wid & _ & env & He & Hu).
  destruct (dispatch_and_sign _ _ _ _ _ _) as [out w2] eqn:Ed.
  apply (dispatch_and_sign_world _ _ _ _ _ _ _ _ _ Hf) in Ed as (_ & _ & _ & Ho). cbn [w_inner with_replay] in Ho.
  pose proof (build_signed_response_panics p (inner_dispatch (w_inner w) fwd).1 vr now _ env Wid He Hu) as Hb.
  rewrite <- Ho in Hb. split.
  - intros Hp. assert (out = Panics) as -> by (by destruct out as [[]|]).
    destruct (proj1 Hb eq_refl) as (inner & ? & ?). by exists replay, vr, replay', fwd, inner.
  - intros (r2 & vr2 & r2' & fwd2 & inner & Hr2 & (Hv2 & _) & Hf2 & Hi & Hbad). rewrite Hr in Hr2. simplify_eq.
    rewrite Hv in Hv2. simplify_eq. rewrite Hf in Hf2. simplify_eq. rewrite (proj2 Hb); eauto.
Qed.
End Panics.

(** ** Nesting of the answer *)

Lemma safe_scrub n b v : safe n v -> safe n (scrub_member b v).
Proof.
  revert n b. induction v as [|x|x|x|l IH|m IH] using Value_ind'; intros n b H; try done.
  - destruct n as [|n]; [done|]. cbn [scrub_member]. rewrite safe_array in *. apply Forall_fmap.
    rewrite Forall_forall in *. intros x Hx. unfold compose. auto.
  - destruct n as [|n]; [done|]. rewrite scrub_member_object.
    assert (Hm : safe (S n) (VObject (scrub_entry <$> m))).
    { rewrite safe_object in *. apply Forall_fmap. rewrite Forall_forall in *. intros [k x] Hx.
      unfold compose, scrub_entry. cbn [fst snd]. apply (IH (k, x) Hx). by apply (H (k, x)). }
    destruct b; [|done]. unfold remove_owned. cbn [foldl].
    do 4 apply (safe_remove (S n) _ (VObject _)). done.
Qed.

Lemma safe_wrap_inner n inner : safe n inner -> safe (S n) (wrap_inner inner).
Proof.
  intros H. unfold wrap_inner. destruct (get (str "result") inner) as [r|] eqn:E.
  - assert (Hr : safe n r).
    { destruct inner as [| | | | |m], n as [|n]; try done. rewrite safe_object in H. cbn in E. apply map_get_Some in E.
      apply (safe_mono n); [lia|]. by eapply (Forall_forall _ m) in H; [|exact E]. }
    destruct r; try (apply safe_json_object; by repeat constructor). apply (safe_mono n); [lia|done].
  - apply safe_json_object. by repeat constructor.
Qed.

Lemma safe_add_envelope n envelope m m' :
  safe n envelope -> safe (S (S n)) (VObject m) -> add_envelope envelope m = Some m' -> safe (S (S n)) (VObject m').
Proof.
  intros He Hm H. unfold add_envelope in H.
  assert (Hx : forall mm, safe (S n) (VObject mm) -> safe (S n) (VObject (map_insert RESPONSE_META_KEY envelope mm)))
    by (intros; by apply safe_insert).
  assert (Hn : safe (S n) (VObject [])) by (by apply safe_object).
  destruct (map_get META_FIELD m) as [x|] eqn:E; cbn in H.
  - assert (Hs : safe (S n) x). { rewrite safe_object in Hm. apply map_get_Some in E. by eapply (Forall_forall _ m) in Hm; [|exact E]. }
    destruct x; simplify_eq; apply safe_insert; try done; [exact (Hx [] Hn)|by apply Hx].
  - simplify_eq. apply safe_insert; [exact (Hx [] Hn)|done].
Qed.

Lemma safe_with_envelope n id m m' :
  safe n id -> safe n (VObject m) -> safe n (VObject m') -> safe (S n) (with_envelope id m m').
Proof.
  intros Hi Hm Hm'. unfold with_envelope, response_base. cbn [update_at].
  assert (Hb : safe (S n) (json_object [(str "jsonrpc", VString (str "2.0")); (str "id", id); (str "result", VObject m)])).
  { apply safe_json_object. repeat constructor; try done. apply safe_string. }
  unfold json_object in *. cbn [update_member]. rewrite safe_object in *. unfold map_alter. apply Forall_fmap.
  eapply Forall_impl; [exact Hb|]. intros [k y] Hy. unfold compose. cbn [fst snd]. by case_bool_decide.
Qed.

(** ** On the sample sidecar *)

Import Toy ToyProxy.

Lemma handle_panics_exact_witness :
  exists replay vr replay' fwd inner, Some sample_replay = Some replay /\
    admitted sample_proxy sample_raw01 sample_now None None replay vr replay' /\
    build_forwarded_request sample_proxy sample_raw01 vr sample_now = Returns (Ok fwd) /\
    from_slice bad_answer = Some inner /\ bad_meta inner.
Proof.
  apply (proj1 (handle_panics_exact (IS := toy_inner bad_answer)
           sample_proxy sample_raw01 sample_now None None sample_world
           ltac:(solve_str_wf) ltac:(solve_str_wf))).
  vm_compute. reflexivity.
Defined.
