(* ===== verification/ProxyClient.v ===== *)
(** * The answer at the client

    The signed answer of the sidecar read by the other side: the client's
    verifier accepts it under the server's key and the hash of its own
    request, and unwrapping gives the inner server's answer back, up to member
    order and without the metadata. *)

From S2P Require Import Prelude Utf8 Errors Json Canonical CanonicalParse CanonicalRound Strings Signing.
From S2P Require Import Values Time Crypto Envelope Instances Constraints Replay Resolver Pipeline.
From S2P Require Import PipelineSpec PipelineTheorems PipelineResponses Samples Unwrap Graft Policy PolicySpec.
From S2P Require Import Transport KeySource Proxy ProxyMeta ProxyTheorems ProxyResponses.

(** ** The envelope read back *)

Section Envelope.
Context `{B64 : Base64, SH : Sha2, DK : Dalek}.
Context (p : Proxy) (vr : VerifiedRequest) (now : Z) (sg : rstr).
Context (Hsg : str_wf sg) (Hn : names_wf p vr).

(** The two envelopes the client deserializes. *)
Definition answer_envelope01 : ResponseEnvelope := {|
  resp_request_hash := vr_request_hash vr; resp_server_signer := p_server_signer p;
  resp_issued_at := unix_to_rfc3339_utc now; resp_signature := signature_of (p_key_id p) sg |}.

Definition answer_envelope02 (cid : rstr) : Draft02ResponseEnvelope := {|
  d2r_version := VERSION_DRAFT_02; d2r_canonicalization_id := cid;
  d2r_request_hash := vr_request_hash vr; d2r_server_signer := p_server_signer p;
  d2r_issued_at := unix_to_rfc3339_utc now; d2r_signature := signature_of (p_key_id p) sg |}.

Lemma envelope01_read h envelope w :
  vr_authorization vr = Draft01Hash h -> build_response_envelope p vr now = Ok envelope ->
  value_wf (signed_envelope sg envelope) -> value_wf w -> value_equiv (signed_envelope sg envelope) w ->
  exists m, w = VObject m /\ wire_members (fun _ => nested_object) m answer_envelope01 /\
    Forall (fun k => k ∈ wire_fields ResponseEnvelope) m.*1.
Proof.
  intros Ha He Ws W H. unfold build_response_envelope in He. rewrite Ha in He. simplify_eq.
  destruct (value_equiv_is_object _ _ H eq_refl) as [m ->]. exists m. split; [done|]. split.
  - cbn [wire_members ResponseEnvelope_wire answer_envelope01 resp_request_hash resp_server_signer resp_issued_at resp_signature].
    unfold field. split_and!; try (eapply equiv_field; [exact H|reflexivity]).
    eapply signature_member_read; [exact (proj1 (proj2 Hn))|exact Hsg|exact W|exact H|reflexivity].
  - eapply equiv_keys; [exact Ws|exact W|exact H|]. repeat constructor; cbn [wire_fields ResponseEnvelope_wire]; set_solver.
Qed.

Lemma envelope02_read b cid envelope w :
  vr_authorization vr = Draft02Binding b -> vr_canonicalization_id vr = Some cid ->
  build_response_envelope p vr now = Ok envelope ->
  value_wf (signed_envelope sg envelope) -> value_wf w -> value_equiv (signed_envelope sg envelope) w ->
  exists m, w = VObject m /\ wire_members (fun _ => nested_object) m (answer_envelope02 cid) /\
    Forall (fun k => k ∈ wire_fields Draft02ResponseEnvelope) m.*1.
Proof.
  intros Ha Hc He Ws W H. unfold build_response_envelope in He. rewrite Ha, Hc in He. cbn [ok_or] in He. simplify_eq.
  destruct (value_equiv_is_object _ _ H eq_refl) as [m ->]. exists m. split; [done|]. split.
  - cbn [wire_members Draft02ResponseEnvelope_wire answer_envelope02 d2r_version d2r_canonicalization_id
      d2r_request_hash d2r_server_signer d2r_issued_at d2r_signature].
    unfold field. split_and!; try (eapply equiv_field; [exact H|reflexivity]).
    eapply signature_member_read; [exact (proj1 (proj2 Hn))|exact Hsg|exact W|exact H|reflexivity].
  - eapply equiv_keys; [exact Ws|exact W|exact H|]. repeat constructor; cbn [wire_fields Draft02ResponseEnvelope_wire]; set_solver.
Qed.
End Envelope.

(** ** Unwrapping *)

Inductive unwrapped_equiv : UnwrappedResult -> UnwrappedResult -> Prop :=
| unwrapped_object v w : value_equiv v w -> unwrapped_equiv (UObject v) (UObject w)
| unwrapped_scalar v w : value_equiv v w -> unwrapped_equiv (UScalar v) (UScalar w)
| unwrapped_inner_error v w : value_equiv v w -> unwrapped_equiv (UInnerError v) (UInnerError w).

Definition payload (m : Map) : Map := filter (fun kv => kv.1 <> META_FIELD) m.

Lemma map_get_payload k m : map_get k (payload m) = if bool_decide (k = META_FIELD) then None else map_get k m.
Proof.
  unfold payload. induction m as [|[k' x] m IH]; [by case_bool_decide|]. rewrite filter_cons. cbn [fst].
  destruct (decide (k' <> META_FIELD)) as [Hk|Hk%dec_stable]; cbn [map_get]; rewrite IH; clear IH;
    repeat case_bool_decide; congruence.
Qed.

Lemma payload_NoDup m : NoDup m.*1 -> NoDup (payload m).*1.
Proof.
  unfold payload. induction m as [|[k x] m IH]; [done|]. cbn [fmap list_fmap fst]. intros [Hk Hd]%NoDup_cons.
  rewrite filter_cons. destruct (decide _); cbn [fmap list_fmap fst]; [|auto]. apply NoDup_cons. split; [|auto].
  intros (kv & -> & Hin)%list_elem_of_fmap. apply list_elem_of_filter in Hin as [_ Hin]. apply Hk, list_elem_of_fmap. eauto.
Qed.

(** Unwrapping ignores the metadata and the order of the members. *)
Lemma unwrap_equiv m m' u :
  NoDup m.*1 -> NoDup m'.*1 ->
  (forall k, k <> META_FIELD -> option_Forall2 value_equiv (map_get k m) (map_get k m')) ->
  unwrap_verified_result (VObject m) = Ok u ->
  exists u', unwrap_verified_result (VObject m') = Ok u' /\ unwrapped_equiv u u'.
Proof.
  intros Hd%payload_NoDup Hd'%payload_NoDup H. cbn [unwrap_verified_result as_object ok_or].
  fold (payload m) (payload m').
  assert (Hq : forall k, option_Forall2 value_equiv (map_get k (payload m)) (map_get k (payload m'))).
  { intros k. rewrite !map_get_payload. case_bool_decide; [constructor|auto]. }
  assert (Hl : length (payload m) = length (payload m')).
  { rewrite <- !(length_fmap fst). apply Permutation_length. by eapply same_lookups_keys. }
  rewrite Hl. pose proof (Hq RESPONSE_WRAP_VALUE_KEY) as H1. pose proof (Hq RESPONSE_WRAP_INNER_ERROR_KEY) as H2.
  assert (Hp : value_equiv (VObject (payload m)) (VObject (payload m'))) by (by constructor).
  case_bool_decide; [|intros [= <-]; eexists; by split; [|constructor]].
  destruct H1 as [x y Hxy|]; [intros [= <-]; eexists; by split; [|constructor]|].
  destruct H2 as [x y Hxy|]; intros [= <-]; eexists; by split; [|constructor].
Qed.

(** What the client is to get back: the inner server's answer, scrubbed. *)
Definition inner_payload (inner : Value) : UnwrappedResult :=
  match get (str "result") inner with
  | Some (VObject m) => UObject (VObject (payload (scrub_entry <$> m)))
  | Some r => UScalar (scrub_proxy_owned_meta r)
  | None => UInnerError (scrub_proxy_owned_meta inner)
  end.

(** An object answer that reads like a wrapper: its only member besides
    [_meta] has a wrapper's name. *)
Definition ambiguous (inner : Value) : Prop :=
  exists m k x, get (str "result") inner = Some (VObject m) /\ payload m = [(k, x)] /\
    (k = RESPONSE_WRAP_VALUE_KEY \/ k = RESPONSE_WRAP_INNER_ERROR_KEY).

Lemma payload_scrub m : payload (scrub_entry <$> m) = scrub_entry <$> payload m.
Proof.
  unfold payload. induction m as [|[k x] m IH]; [done|]. cbn [fmap list_fmap]. rewrite !filter_cons. unfold scrub_entry at 1 2.
  cbn [fst]. destruct (decide _); [|done]. cbn [fmap list_fmap]. by rewrite IH.
Qed.

Lemma unwrap_wrap inner m :
  scrub_proxy_owned_meta (wrap_inner inner) = VObject m -> ~ ambiguous inner ->
  unwrap_verified_result (VObject m) = Ok (inner_payload inner).
Proof.
  intros <- Ha. unfold wrap_inner, inner_payload. destruct (get (str "result") inner) as [r|] eqn:E; [|reflexivity].
  destruct r as [| | | | |rm]; try reflexivity.
  unfold scrub_proxy_owned_meta. rewrite scrub_member_object. cbn [unwrap_verified_result as_object ok_or].
  fold (payload (scrub_entry <$> rm)). case_bool_decide as Hl; [|done]. rewrite payload_scrub in *. rewrite length_fmap in Hl.
  destruct (payload rm) as [|[k x] [|? ?]] eqn:Ep; try done. unfold scrub_entry. cbn [fmap list_fmap map_get fst snd].
  assert (Hk : k <> RESPONSE_WRAP_VALUE_KEY /\ k <> RESPONSE_WRAP_INNER_ERROR_KEY).
  { split; intros ->; apply Ha; exists rm; do 2 eexists; eauto. }
  destruct Hk. repeat case_bool_decide; congruence.
Qed.

(** ** The round trip *)
Section Roundtrip.
Context `{SJ : SerdeJson, SJL : !SerdeJsonLaws, SS : !SerdeSer, SSL : !SerdeSerLaws, SW : !SerdeWrites}.
Context `{B64 : !Base64, B64L : !Base64Laws, SH : !Sha2, SHL : !Sha2Laws, DK : !Dalek}.
Context `{D1 : !Deserialize RequestEnvelope, D2 : !Deserialize Draft02RequestEnvelope}.
Context `{L1 : !DeserializeLaws RequestEnvelope, L2 : !DeserializeLaws Draft02RequestEnvelope}.
Context `{D3 : !Deserialize ResponseEnvelope, D4 : !Deserialize Draft02ResponseEnvelope}.
Context `{L3 : !DeserializeLaws ResponseEnvelope, L4 : !DeserializeLaws Draft02ResponseEnvelope}.
Context `{RC : ReplayCache C}.

(** The verifier of the profile the request was made under. *)
Definition client_verify (bs : bytes) (resolver : TrustResolver) (vr : VerifiedRequest)
  : result VerifiedResponse McpsError :=
  match vr_authorization vr with
  | Draft01Hash _ => verify_response bs resolver (vr_request_hash vr)
  | Draft02Binding _ => verify_response_draft02 bs resolver (vr_request_hash vr) CANONICALIZATION_ID_INT53_V1
  end.

Definition pinned_profile (vr : VerifiedRequest) : Prop :=
  forall b, vr_authorization vr = Draft02Binding b -> vr_canonicalization_id vr = Some CANONICALIZATION_ID_INT53_V1.

Lemma accepted_pinned p raw now (replay replay' : C) vr :
  verify_request_dispatch raw (p_resolver p) (p_config p) now (p_version_policy p) replay = (Ok vr, replay') ->
  pinned_profile vr.
Proof.
  intros (v & c & pre & te & _ & _ & _ & Hp)%dispatch_accepted b.
  destruct Hp as [(e & _ & -> & ->)|(e & (m & _ & _ & _ & _ & Hc & _) & -> & ->)]; [done|]. cbn. by rewrite Hc.
Qed.

Section Signed.
Context (p : Proxy) (vr : VerifiedRequest) (now : Z) (id envelope : Value) (m m' : Map) (sg pre : bytes) (key : VerificationKey).
Context (Hn : names_wf p vr) (Hpin : pinned_profile vr) (Wid : value_wf id) (Hid : id <> VNull) (Wm : value_wf (VObject m)).
Context (He : build_response_envelope p vr now = Ok envelope) (Hadd : add_envelope envelope m = Some m').
Context (Hpre : signing_preimage (with_envelope id m m') Response = Ok pre).
Context (Hsg : str_wf sg) (Hver : verify_ed25519 pre sg key = Ok tt).

Let answer := fill_signature Response sg (with_envelope id m m').

Lemma answer_unsigned : unsigned Response (with_envelope id m m').
Proof. eapply with_envelope_unsigned; [exact Wid|exact Wm| |exact Hadd]. by eapply response_envelope_unsigned. Qed.

Lemma answer_wf : value_wf answer.
Proof. apply fill_signature_wf; [exact answer_unsigned|exact Hsg]. Qed.

Lemma answer_signed_by v :
  value_wf v -> value_equiv answer v -> signed_by Response v pre (signature_of (p_key_id p) sg) key.
Proof. intros W H. by eapply fill_signature_signed; [exact answer_unsigned|..]. Qed.

Lemma answer_id_get : get (str "id") answer = Some id.
Proof.
  unfold answer, fill_signature, signature_path. cbn [update_at]. rewrite get_update_member.
  by rewrite (proj1 (with_envelope_get id m m')), bool_decide_eq_false_2.
Qed.

Lemma answer_verifies bs v resolver :
  from_slice bs = Some v -> is_ok (canonicalize bs) = true -> value_wf v -> value_equiv answer v ->
  resolver (p_server_signer p) (p_key_id p) = Ok key ->
  client_verify bs resolver vr = Ok {| vresp_server_signer := p_server_signer p; vresp_key_id := p_key_id p;
                                       vresp_request_hash := vr_request_hash vr |}.
Proof.
  intros Hb Hc W H Hr. pose proof (fill_signature_envelope Response sg _ _ (with_envelope_path id envelope m m' Hadd)) as Hp.
  pose proof (value_wf_path _ _ _ answer_wf Hp) as Ws.
  destruct (value_equiv_path _ _ _ _ H Hp) as (w & Hw & Hq). pose proof (value_wf_path _ _ _ W Hw) as Ww.
  assert (Hsh : well_shaped bs v).
  { split_and!; [done..|]. destruct (value_equiv_get _ _ (str "id") id H answer_id_get) as (i & Hi & Hqi).
    exists i. split; [done|]. intros ->. by inversion Hqi; subst. }
  pose proof (answer_signed_by v W H) as Hs. unfold client_verify.
  destruct (vr_authorization vr) as [h|b] eqn:Ea.
  - destruct (envelope01_read p vr now sg Hsg Hn h _ _ Ea He Ws Ww Hq) as (em & -> & Hm & Hf).
    apply verify_response_Ok. exists v, (answer_envelope01 p vr now sg), pre, key.
    split_and!; try done. by exists em.
  - destruct (envelope02_read p vr now sg Hsg Hn b _ _ _ Ea (Hpin _ Ea) He Ws Ww Hq) as (em & -> & Hm & Hf).
    apply verify_response_draft02_Ok. exists v, (answer_envelope02 p vr now sg CANONICALIZATION_ID_INT53_V1), pre, key.
    split_and!; try done. by exists em.
Qed.

Lemma answer_result v :
  value_wf v -> value_equiv answer v ->
  exists i rm, get (str "id") v = Some i /\ value_equiv id i /\ get (str "result") v = Some (VObject rm) /\
    NoDup rm.*1 /\ forall k, k <> META_FIELD -> option_Forall2 value_equiv (map_get k m) (map_get k rm).
Proof.
  intros W H. destruct (value_equiv_get _ _ (str "id") id H answer_id_get) as (i & Hi & Hqi).
  set (rest := update_at [META_FIELD; RESPONSE_META_KEY; str "signature"] (add_value sg)).
  assert (Hr : get (str "result") answer = Some (rest (VObject m'))).
  { unfold answer, fill_signature, signature_path. cbn [update_at]. rewrite get_update_member.
    by rewrite (proj2 (with_envelope_get id m m')), bool_decide_eq_true_2. }
  destruct (value_equiv_get _ _ _ _ H Hr) as (r & Hgr & Hq). destruct (value_equiv_is_object _ _ Hq eq_refl) as [rm ->].
  exists i, rm. split_and!; try done.
  - pose proof (value_wf_path [str "result"] _ (VObject rm) W ltac:(cbn; by rewrite Hgr)) as (? & _)%value_wf_object. done.
  - intros k Hk. destruct (add_envelope_get _ _ _ Hadd) as (_ & _ & _ & Hm). rewrite <- (Hm k Hk).
    inversion Hq as [| | | | |? ? Hmm]; subst. specialize (Hmm k). rewrite map_get_alter in Hmm.
    rewrite bool_decide_eq_false_2 in Hmm by done. by rewrite option_fmap_id in Hmm.
Qed.
End Signed.

Lemma safe_envelope p vr now envelope : build_response_envelope p vr now = Ok envelope -> safe 2 envelope.
Proof.
  unfold build_response_envelope. intros H.
  destruct (vr_authorization vr); [|destruct (vr_canonicalization_id vr); [|done]]; cbn [ok_or] in H; simplify_eq;
    apply safe_json_object; rewrite !Forall_cons, Forall_nil; split_and!; cbn [snd];
    try apply safe_string; try apply safe_signature_stub; done.
Qed.

(** The members of the scrubbed answer. *)
Lemma answer_members inner :
  value_wf inner -> safe 125 inner ->
  exists m, scrub_proxy_owned_meta (wrap_inner inner) = VObject m /\ value_wf (VObject m) /\ safe 126 (VObject m).
Proof.
  intros W H. destruct (wrap_inner_object inner W) as (wm & Hw & Ww).
  assert (Hs : safe 126 (scrub_proxy_owned_meta (wrap_inner inner))) by (by apply safe_scrub, safe_wrap_inner).
  assert (Wsc : value_wf (scrub_proxy_owned_meta (wrap_inner inner))) by (apply scrub_member_wf; by rewrite Hw).
  destruct (scrub_proxy_owned_meta (wrap_inner inner)) as [| | | | |m] eqn:E; rewrite Hw in E; try discriminate E. eauto.
Qed.

Lemma unwrap_total m : exists u, unwrap_verified_result (VObject m) = Ok u.
Proof.
  cbn [unwrap_verified_result as_object ok_or]. case_bool_decide; [|eauto].
  destruct (map_get RESPONSE_WRAP_VALUE_KEY _); [eauto|]. destruct (map_get RESPONSE_WRAP_INNER_ERROR_KEY _); eauto.
Qed.

(** The signer answers every preimage with a proper string. *)
Definition signs (s : ResponseSigner) : Prop := forall pre, exists sg, sign_response s pre = Ok sg /\ str_wf sg.

Lemma answer_roundtrip_holds p raw now (replay replay' : C) vr ib inner resolver key :
  str_wf (p_server_signer p) -> str_wf (p_key_id p) ->
  verify_request_dispatch raw (p_resolver p) (p_config p) now (p_version_policy p) replay = (Ok vr, replay') ->
  from_slice ib = Some inner -> ~ bad_meta inner -> safe 125 inner -> safe 126 (answer_id raw) ->
  SignerLaws (p_signer p) -> signs (p_signer p) -> response_public_key (p_signer p) = Ok key ->
  resolver (p_server_signer p) (p_key_id p) = Ok key ->
  exists bs v i r u, build_signed_response p ib vr now (answer_id raw) = Returns (Ok bs) /\
    client_verify bs resolver vr = Ok {| vresp_server_signer := p_server_signer p; vresp_key_id := p_key_id p;
                                         vresp_request_hash := vr_request_hash vr |} /\
    from_slice bs = Some v /\ get (str "id") v = Some i /\ value_equiv (answer_id raw) i /\
    get (str "result") v = Some r /\ unwrap_verified_result r = Ok u /\
    (~ ambiguous inner -> unwrapped_equiv (inner_payload inner) u).
Proof.
  intros H1 H2 Hv Hi Hbad Hsi Hsid HS Hsign Hpk Hres.
  destruct (accepted_answerable _ _ _ _ _ _ H1 H2 Hv) as (Hn & Wid & Hid & env & He & Hu).
  pose proof (accepted_pinned _ _ _ _ _ _ Hv) as Hpin.
  destruct (answer_members inner (from_slice_wf _ _ Hi) Hsi) as (m & Hm & Wm & Hsm).
  destruct (add_envelope env m) as [m'|] eqn:Ea; [|by destruct Hbad; eapply add_envelope_None].
  pose proof (safe_add_envelope 124 _ _ _ (safe_mono 2 124 _ ltac:(lia) (safe_envelope _ _ _ _ He)) Hsm Ea) as Hsm'.
  pose proof (safe_with_envelope _ _ _ _ Hsid Hsm Hsm') as Hs.
  pose proof (with_envelope_wf _ _ _ _ Wid Wm Hu Ea) as Ww.
  destruct (safe_signing_preimage Response _ Ww (safe_mono 127 MAX_PARSE_DEPTH _ ltac:(by apply (bool_decide_eq_true_1 _)) Hs)) as [pre Hpre].
  { apply unsigned_block. by eapply with_envelope_unsigned. }
  destruct (Hsign pre) as (sg & Hsg & Wsg). pose proof (signer_signs _ _ _ Hsg Hpk) as Hver.
  destruct (to_vec_total (fill_signature Response sg (with_envelope (answer_id raw) m m'))) as [bs Hbs].
  pose proof (answer_wf p vr now _ env m m' sg Hn Wid Wm He Ea Wsg) as Wa.
  destruct (to_vec_reads _ _ Wa (safe_fill_signature _ Response sg _ Hs) Hbs) as (Hc & v & Hfs & W & Hq).
  destruct (answer_result _ env m m' sg Ea v W Hq) as (i & rm & Hgi & Hqi & Hgr & Hd & Hl).
  destruct (unwrap_total m) as [u0 Hu0].
  destruct (unwrap_equiv m rm u0 ltac:(by apply value_wf_object in Wm as (? & _)) Hd Hl Hu0) as (u & Hur & Hqu).
  exists bs, v, i, (VObject rm), u. split_and!; try done.
  - rewrite (build_signed_response_spec _ _ _ _ _ _ _ _ Hi Wid Hu He Hm), Ea, Hpre, Hsg. cbn [map_err]. by rewrite Hbs.
  - by eapply (answer_verifies p vr now (answer_id raw) env m m' sg pre key).
  - intros Hna. rewrite (unwrap_wrap _ _ Hm Hna) in Hu0. by simplify_eq.
Qed.

(** C10: The answer round trip: for every accepted request whose inner answer is
    JSON with safe numbers and room for two more levels of nesting below the
    parser's limit (and whose [_meta], if any, is an object or null), the
    sidecar produces bytes that the client's verifier of the request's own
    profile accepts under the server's key and the hash of the request; the
    id is the request's; and unwrapping the verified result gives the inner
    server's answer back (object, scalar or inner error), scrubbed of
    proxy-owned metadata and up to member order, unless the answer is an
    object that itself reads like a wrapper. *)
Theorem answer_roundtrip p raw now (replay replay' : C) vr ib inner resolver key :
  str_wf (p_server_signer p) -> str_wf (p_key_id p) ->
  verify_request_dispatch raw (p_resolver p) (p_config p) now (p_version_policy p) replay = (Ok vr, replay') ->
  from_slice ib = Some inner -> ~ bad_meta inner -> safe 125 inner -> safe 126 (answer_id raw) ->
  SignerLaws (p_signer p) -> signs (p_signer p) -> response_public_key (p_signer p) = Ok key ->
  resolver (p_server_signer p) (p_key_id p) = Ok key ->
  exists bs v i r u, build_signed_response p ib vr now (answer_id raw) = Returns (Ok bs) /\
    client_verify bs resolver vr = Ok {| vresp_server_signer := p_server_signer p; vresp_key_id := p_key_id p;
                                         vresp_request_hash := vr_request_hash vr |} /\
    from_slice bs = Some v /\ get (str "id") v = Some i /\ value_equiv (answer_id raw) i /\
    get (str "result") v = Some r /\ unwrap_verified_result r = Ok u /\
    (~ ambiguous inner -> unwrapped_equiv (inner_payload inner) u).
Proof. apply answer_roundtrip_holds. Qed.
End Roundtrip.

(** ** On the sample sidecar *)

Import Toy ToyPolicy ToyProxy.

Definition good_inner : Value :=
  VObject [(str "jsonrpc", VString (str "2.0")); (str "id", VNumber (PosInt 1));
           (str "result", VObject [(str "ok", VBool true)])].

Lemma answer_roundtrip_witness :
  exists bs v i r u,
    build_signed_response sample_proxy good_answer sample_vr sample_now (answer_id sample_raw01) = Returns (Ok bs) /\
    client_verify bs sample_resolver sample_vr =
      Ok {| vresp_server_signer := p_server_signer sample_proxy; vresp_key_id := p_key_id sample_proxy;
            vresp_request_hash := vr_request_hash sample_vr |} /\
    from_slice bs = Some v /\ get (str "id") v = Some i /\ value_equiv (answer_id sample_raw01) i /\
    get (str "result") v = Some r /\ unwrap_verified_result r = Ok u /\
    (~ ambiguous good_inner -> unwrapped_equiv (inner_payload good_inner) u).
Proof.
  apply (answer_roundtrip sample_proxy sample_raw01 sample_now sample_replay sample_replay' sample_vr good_answer good_inner
    sample_resolver (public_key sample_key)).
  - solve_str_wf.
  - solve_str_wf.
  - exact sample_dispatch_Ok.
  - vm_compute. reflexivity.
  - intros (m & x & [= <-] & Hx & _). discriminate Hx.
  - vm_compute. reflexivity.
  - vm_compute. reflexivity.
  - apply signing_key_signer_laws.
  - intros pre. exists (sign sample_key pre). split; [reflexivity|]. apply base64_encode_wf, dalek_sign_wf.
  - reflexivity.
  - reflexivity.
Defined.
