(* ===== verification/ClientResponse.v ===== *)
(** * Responses and enforcement at the client

    [mcps-client-core/src/response.rs] (verification against what was sent),
    [enforcement.rs] (accept, fall back or fail closed), [audit.rs] (the event
    of a decision) and [discovery.rs] (adverts, their cache and the capability
    verdict). *)

From S2P Require Import Prelude Utf8 Errors Json Canonical Strings Time Crypto Signing CanonicalErrors Values Envelope.
From S2P Require Import Instances Replay Resolver Constraints Pipeline Samples PipelineSpec PipelineTheorems.
From S2P Require Import PipelineResponses.

(** ** response.rs *)

Record ResponseExpectation : Type := {
  expected_request_hash : rstr;
  expected_canonicalization_id : rstr;
  expected_server_signer : option rstr;
}.

Definition expectation_new (request_hash canonicalization_id : rstr) : ResponseExpectation := {|
  expected_request_hash := request_hash; expected_canonicalization_id := canonicalization_id;
  expected_server_signer := None |}.

Definition with_expected_server_signer (e : ResponseExpectation) (signer : rstr) : ResponseExpectation := {|
  expected_request_hash := expected_request_hash e; expected_canonicalization_id := expected_canonicalization_id e;
  expected_server_signer := Some signer |}.

Section Response.
Context `{SerdeJson, Base64, Dalek, !Deserialize Draft02ResponseEnvelope}.

Definition verify_signed_response (raw_bytes : bytes) (resolver : TrustResolver) (expectation : ResponseExpectation)
  : result VerifiedResponse McpsError :=
  let? verified := verify_response_draft02 raw_bytes resolver (expected_request_hash expectation)
                     (expected_canonicalization_id expectation) in
  match expected_server_signer expectation with
  | Some expected =>
      if negb (bool_decide (vresp_server_signer verified = expected)) then Err ActorBindingFailed else Ok verified
  | None => Ok verified
  end.
End Response.

(** ** enforcement.rs *)

Inductive EnforcementMode : Type := RequireMcps | AllowLegacyExplicit.

Inductive AbsenceReason : Type := TransportFailurePreEvidence | PlainUnsigned | ExplicitUnsupportedHint.

Inductive EvidenceOutcome : Type :=
| Verified (response : VerifiedResponse)
| Absent (reason : AbsenceReason)
| Invalid (error : McpsError).

Inductive EnforcementDecision : Type :=
| AcceptMcps
| FallBackToLegacy (reason : AbsenceReason)
| FailClosed (error : McpsError).

Definition absence_fail_closed_code (reason : AbsenceReason) : McpsError :=
  match reason with
  | PlainUnsigned => MissingEnvelope
  | TransportFailurePreEvidence | ExplicitUnsupportedHint => DowngradeForbidden
  end.

Definition classify_response_result (r : result VerifiedResponse McpsError) : EvidenceOutcome :=
  match r with
  | Ok verified => Verified verified
  | Err MissingEnvelope => Absent PlainUnsigned
  | Err other => Invalid other
  end.

Definition decide_outcome (mode : EnforcementMode) (route_legacy_allowed : bool) (outcome : EvidenceOutcome)
  : EnforcementDecision :=
  match outcome with
  | Verified _ => AcceptMcps
  | Invalid err => FailClosed err
  | Absent reason =>
      match mode with
      | RequireMcps => FailClosed (absence_fail_closed_code reason)
      | AllowLegacyExplicit =>
          if route_legacy_allowed then FallBackToLegacy reason else FailClosed (absence_fail_closed_code reason)
      end
  end.

(** ** audit.rs *)

Inductive ClientPath : Type := McpsVerified | LegacyExplicit.

Inductive ClientOutcome : Type := Accepted | FellBackToLegacy | Rejected.

Record ClientAuditEvent : Type := {
  ca_path : ClientPath;
  ca_outcome : ClientOutcome;
  ca_reason : option rstr;
  ca_legacy_reason : option AbsenceReason;
}.

Definition accepted_mcps : ClientAuditEvent :=
  {| ca_path := McpsVerified; ca_outcome := Accepted; ca_reason := None; ca_legacy_reason := None |}.

Definition fell_back_to_legacy (reason : AbsenceReason) : ClientAuditEvent :=
  {| ca_path := LegacyExplicit; ca_outcome := FellBackToLegacy; ca_reason := None; ca_legacy_reason := Some reason |}.

Definition rejected (error : McpsError) : ClientAuditEvent :=
  {| ca_path := McpsVerified; ca_outcome := Rejected; ca_reason := Some (wire_code error); ca_legacy_reason := None |}.

Definition audit_for_decision (decision : EnforcementDecision) : ClientAuditEvent :=
  match decision with
  | AcceptMcps => accepted_mcps
  | FallBackToLegacy reason => fell_back_to_legacy reason
  | FailClosed error => rejected error
  end.

(** ** discovery.rs *)

Record ProvenSupport : Type := { ps_server_signer : rstr }.

Definition from_verified_response (verified : VerifiedResponse) : ProvenSupport :=
  {| ps_server_signer := vresp_server_signer verified |}.

Record LegacyAdvert : Type := { versions : list rstr; canonicalization_ids : list rstr }.

Definition string_array (value : option Value) : list rstr :=
  match value with
  | Some (VArray arr) => omap as_str arr
  | _ => []
  end.

Definition parse_legacy_advert (capabilities : Value) : option LegacyAdvert :=
  experimental ← get (str "experimental") capabilities;
  value ← get EXTENSION_ID experimental;
  advert ← as_object value;
  Some {| versions := string_array (map_get (str "versions") advert);
          canonicalization_ids := string_array (map_get (str "canonicalization_ids") advert) |}.

Record AdvertCache : Type := { ttl_secs : Z; advert_entries : gmap rstr (LegacyAdvert * Z) }.

Definition advert_cache_new (ttl : Z) : AdvertCache := {| ttl_secs := ttl; advert_entries := ∅ |}.

(** [now_unix + ttl_secs]: [None] where the addition overflows an [i64], which
    panics or wraps with the build profile. *)
Definition advert_insert (c : AdvertCache) (key : rstr) (advert : LegacyAdvert) (now_unix : Z) : option AdvertCache :=
  let expiry := now_unix + ttl_secs c in
  if bool_decide (I64_MIN <= expiry <= I64_MAX)
  then Some {| ttl_secs := ttl_secs c; advert_entries := <[key := (advert, expiry)]> (advert_entries c) |}
  else None.

Definition advert_get (c : AdvertCache) (key : rstr) (now_unix : Z) : option LegacyAdvert :=
  '(advert, expiry) ← advert_entries c !! key;
  if now_unix <? expiry then Some advert else None.

Definition advert_evict (c : AdvertCache) (key : rstr) : AdvertCache :=
  {| ttl_secs := ttl_secs c; advert_entries := delete key (advert_entries c) |}.

Definition evict_expired (c : AdvertCache) (now_unix : Z) : AdvertCache :=
  {| ttl_secs := ttl_secs c; advert_entries := filter (fun kv => now_unix < kv.2.2) (advert_entries c) |}.

Record ExchangeCapability : Type := { ex_version : rstr; ex_canonicalization_id : option rstr }.

Record CapabilityPolicy : Type := { required_min_version : rstr; supported_versions : list rstr }.

Definition draft02_only : CapabilityPolicy :=
  {| required_min_version := VERSION_DRAFT_02; supported_versions := [VERSION_DRAFT_02] |}.

Inductive CapabilityVerdict : Type := SatisfiesPolicy | WeakerThanPolicy | StrongerSupported | SelfContradictory.

Definition version_rank (version : rstr) : Z :=
  if bool_decide (version = VERSION_DRAFT_01) then 1
  else if bool_decide (version = VERSION_DRAFT_02) then 2 else 0.

(** The protocol invariants between version and canonicalization. *)
Definition self_contradictory (exchange : ExchangeCapability) : bool :=
  if bool_decide (ex_version exchange = VERSION_DRAFT_02) then
    match ex_canonicalization_id exchange with
    | Some id => negb (bool_decide (id ∈ DRAFT_02_CANONICALIZATION_ALLOWLIST))
    | None => true
    end
  else if bool_decide (ex_version exchange = VERSION_DRAFT_01) then
    match ex_canonicalization_id exchange with Some _ => true | None => false end
  else false.

Definition evaluate_capability (exchange : ExchangeCapability) (policy : CapabilityPolicy) : CapabilityVerdict :=
  if self_contradictory exchange then SelfContradictory
  else
    let exchange_rank := version_rank (ex_version exchange) in
    let required_rank := version_rank (required_min_version policy) in
    if (exchange_rank =? 0) || negb (bool_decide (ex_version exchange ∈ supported_versions policy))
    then WeakerThanPolicy
    else if exchange_rank <? required_rank then WeakerThanPolicy
    else if required_rank <? exchange_rank then StrongerSupported
    else SatisfiesPolicy.

Definition advert_mismatch (advert : LegacyAdvert) (exchange : ExchangeCapability) : bool :=
  negb (is_empty (versions advert)) && negb (bool_decide (ex_version exchange ∈ versions advert)).

(** ** The bright line *)
Section Enforcement.
Context `{SJ : SerdeJson, SJL : !SerdeJsonLaws, B64 : !Base64, SH : !Sha2, DK : !Dalek}.
Context `{D4 : !Deserialize Draft02ResponseEnvelope, L4 : !DeserializeLaws Draft02ResponseEnvelope}.

(** A response that satisfies the expectation: signed by an enrolled server,
    bound to the request hash and scheme, and by the pinned signer if any. *)
Definition evidence (raw : bytes) (resolver : TrustResolver) (x : ResponseExpectation) (r : VerifiedResponse) : Prop :=
  exists v e pre key, well_shaped raw v /\ response02 v e /\
    resolver (d2r_server_signer e) (key_id (d2r_signature e)) = Ok key /\
    signed_by Response v pre (d2r_signature e) key /\ d2r_canonicalization_id e = expected_canonicalization_id x /\
    d2r_request_hash e = expected_request_hash x /\
    (forall s, expected_server_signer x = Some s -> d2r_server_signer e = s) /\
    r = {| vresp_server_signer := d2r_server_signer e; vresp_key_id := key_id (d2r_signature e);
           vresp_request_hash := expected_request_hash x |}.

Lemma verify_signed_response_Ok raw resolver x r :
  verify_signed_response raw resolver x = Ok r <-> evidence raw resolver x r.
Proof.
  unfold verify_signed_response, evidence. split.
  - intros H. destruct (verify_response_draft02 _ _ _ _) as [r'|] eqn:E; [|done].
    apply verify_response_draft02_Ok in E as (v & e & pre & key & ? & ? & ? & ? & ? & ? & ->).
    exists v, e, pre, key. destruct (expected_server_signer x) as [s|]; cbn in H.
    + case_bool_decide; cbn in H; simplify_eq. split_and!; try done. by intros ? [= <-].
    + simplify_eq. by split_and!.
  - intros (v & e & pre & key & ? & ? & ? & ? & Hc & Hh & Hs & ->).
    assert (E : verify_response_draft02 raw resolver (expected_request_hash x) (expected_canonicalization_id x) =
      Ok {| vresp_server_signer := d2r_server_signer e; vresp_key_id := key_id (d2r_signature e);
            vresp_request_hash := expected_request_hash x |}) by (apply verify_response_draft02_Ok; by exists v, e, pre, key).
    rewrite E.
    destruct (expected_server_signer x) as [s|]; [|done]. cbn. by rewrite bool_decide_eq_true_2 by auto.
Qed.

Lemma classify_canonicalization_id_error id allow known e :
  classify_canonicalization_id id allow known = Err e -> e <> MissingEnvelope.
Proof. unfold classify_canonicalization_id. intros H ->. inv_match H. Qed.

(** What an answer reported as absent evidence looks like. *)
Lemma missing_envelope_inv raw resolver h cid :
  verify_response_draft02 raw resolver h cid = Err MissingEnvelope ->
  exists v, from_slice raw = Some v /\ has_signature_block Response v = false.
Proof.
  unfold verify_response_draft02, from_slice_or_fail, reject_batch.
  destruct (from_slice raw) as [v|] eqn:Ev; cbn [ok_or]; [|done]. pose proof (from_slice_wf _ _ Ev) as W.
  destruct (is_array v); [done|]. 
  destruct (reject_notification v) eqn:En; [|unfold reject_notification in En; destruct (get _ v) as [[]|]; congruence].
  destruct (canonicalize raw) eqn:Ec; [|intros [= ->]; by apply canonicalize_error in Ec].
  unfold extract_draft02_response_envelope. destruct (locate_envelope v _ _) as [w|] eqn:El.
  2:{ intros _. exists v. split; [done|]. unfold locate_envelope in El. unfold has_signature_block.
      cbn [path_get container_key meta_key].
      destruct (get (str "result") v) as [x|]; cbn [mbind option_bind] in El |- *; [|done].
      destruct (get (str "_meta") x) as [y|]; cbn [mbind option_bind] in El |- *; [|done].
      by destruct (get RESPONSE_META_KEY y). }
  unfold require_draft02_version. case_bool_decide; [|done].
  destruct (check_canonicalization_id w) eqn:Ek.
  2:{ intros [= ->]. unfold check_canonicalization_id in Ek. destruct (get (str "canonicalization_id") w ≫= as_str); [|done].
      by apply classify_canonicalization_id_error in Ek. }
  unfold deserialize_envelope. destruct (from_value w) as [e|msg]; [|destruct (starts_with _ msg); done].
  unfold ensure_ed25519_alg. case_bool_decide; [|done].
  destruct (map_err _ _) as [key|err] eqn:Er; [|destruct (resolver _ _) as [?|[]]; cbn in Er; congruence].
  unfold response_signing_preimage. destruct (signing_preimage v Response) as [pre|err] eqn:Ep.
  2:{ intros [= ->]. apply signing_preimage_error in Ep as [?|[_ ?]]; [done|eauto|done]. }
  destruct (sig_value _) as [sv|]; cbn [ok_or]; [|done].
  destruct (verify_ed25519_with _ _ _ _) eqn:Evf; [|intros [= ->]; unfold verify_ed25519_with in Evf; inv_match Evf].
  destruct (negb _); [done|]. by destruct (negb _).
Qed.

Definition enforcement (mode : EnforcementMode) (allowed : bool) (raw : bytes) (resolver : TrustResolver)
    (x : ResponseExpectation) : EnforcementDecision :=
  decide_outcome mode allowed (classify_response_result (verify_signed_response raw resolver x)).

(** The bright line of enforcement: a response is accepted exactly when it
    is genuine evidence for this request, in both modes; a fallback to plain
    MCP happens only in migration mode, only on an allow-listed route, and
    only when there is no signature object under the response envelope's
    path, so that no corrupted, re-signed, re-targeted or replayed signed
    response can be turned into a downgrade; and everything else fails closed
    with the verifier's own token. *)
Theorem enforcement_bright_line mode allowed raw resolver x :
  (enforcement mode allowed raw resolver x = AcceptMcps <-> exists r, evidence raw resolver x r) /\
  (forall reason, enforcement mode allowed raw resolver x = FallBackToLegacy reason ->
     mode = AllowLegacyExplicit /\ allowed = true /\ reason = PlainUnsigned /\
     exists v, from_slice raw = Some v /\ has_signature_block Response v = false) /\
  (forall err, enforcement mode allowed raw resolver x = FailClosed err <->
     verify_signed_response raw resolver x = Err err /\
     (err = MissingEnvelope -> mode = RequireMcps \/ allowed = false)).
Proof.
  assert (HA : (exists r, evidence raw resolver x r) <-> exists r, verify_signed_response raw resolver x = Ok r).
  { split; intros [r Hr]; exists r; by apply verify_signed_response_Ok. }
  rewrite HA. clear HA. unfold enforcement.
  destruct (verify_signed_response raw resolver x) as [r|err] eqn:E; cbn [classify_response_result decide_outcome].
  - split_and!; [split; eauto|done|by split; [|intros []]].
  - destruct (decide (err = MissingEnvelope)) as [->|Hne].
    + cbn. destruct mode, allowed; cbn; split_and!; try (split; [done|by intros []]); try done.
      all: try (intros err'; split; [intros [= <-]; auto|intros [[= <-] ?]; done]).
      * intros ? [= <-]. split_and!; try done. unfold verify_signed_response in E.
        destruct (verify_response_draft02 _ _ _ _) eqn:Ev; [|simplify_eq; by eapply missing_envelope_inv].
        destruct (expected_server_signer x); [|done]. by destruct (negb _).
      * intros err'. split; [done|]. intros [[= <-] H]. by destruct (H eq_refl).
    + assert (Hc : classify_response_result (Err err) = Invalid err) by (by destruct err).
      cbn [classify_response_result] in Hc. rewrite Hc. cbn. split_and!; [by split; [|intros []]|done|].
      intros err'. split; [intros [= <-]; by split|by intros [[= <-] _]].
Qed.
End Enforcement.

(** ** On the sample responses *)

Import Toy.

Definition sample_expectation : ResponseExpectation :=
  with_expected_server_signer (expectation_new sample_hash02 CANONICALIZATION_ID_INT53_V1) (str "did:srv").

Definition plain_response : bytes := json_text "{'jsonrpc':'2.0','id':2,'result':{'ok':true}}".

(** The signed response is accepted; for another request it fails closed even
    on an allow-listed route; a plain response falls back there, and only
    there. *)
Example sample_enforcement :
  enforcement RequireMcps false sample_response02 sample_resolver sample_expectation = AcceptMcps /\
  enforcement AllowLegacyExplicit true sample_response02 sample_resolver
    (expectation_new sample_hash01 CANONICALIZATION_ID_INT53_V1) = FailClosed ResponseHashMismatch /\
  enforcement AllowLegacyExplicit true plain_response sample_resolver sample_expectation
    = FallBackToLegacy PlainUnsigned /\
  enforcement AllowLegacyExplicit false plain_response sample_resolver sample_expectation
    = FailClosed MissingEnvelope.
Proof. vm_compute. split_and!; reflexivity. Qed.

(** ** The support probe

    [mcps-client-core/src/probe.rs]: a development diagnostic that remembers,
    for each server, whether the last exchange carried verified evidence. *)

Inductive SupportObservation : Type := SupportsMcps | NoMcpsEvidence.

#[export] Instance SupportObservation_eq_dec : EqDecision SupportObservation.
Proof. solve_decision. Defined.

Record OpportunisticProbe : Type := { observations : gmap rstr SupportObservation }.

Definition probe_new : OpportunisticProbe := {| observations := ∅ |}.

Definition probe_record (p : OpportunisticProbe) (server : rstr) (outcome : EvidenceOutcome) : OpportunisticProbe :=
  let observation := match outcome with
                     | Verified _ => SupportsMcps
                     | Absent _ | Invalid _ => NoMcpsEvidence
                     end in
  {| observations := <[server := observation]> (observations p) |}.

Definition observation (p : OpportunisticProbe) (server : rstr) : option SupportObservation := observations p !! server.

Definition supports_mcps (p : OpportunisticProbe) (server : rstr) : bool := bool_decide (observation p server = Some SupportsMcps).

Definition observed_count (p : OpportunisticProbe) : nat := size (observations p).

(** Records in order. *)
Definition probe_run (records : list (rstr * EvidenceOutcome)) : OpportunisticProbe :=
  foldl (fun p r => probe_record p r.1 r.2) probe_new records.

Definition verified_outcome (o : EvidenceOutcome) : bool := match o with Verified _ => true | _ => false end.

(** The last record of a server decides. *)
Definition last_outcome (records : list (rstr * EvidenceOutcome)) (server : rstr) : option EvidenceOutcome :=
  snd <$> last (filter (fun r => r.1 = server) records).

Theorem probe_last_observation records server :
  supports_mcps (probe_run records) server = from_option verified_outcome false (last_outcome records server) /\
  (observation (probe_run records) server = None <-> server ∉ records.*1).
Proof.
  unfold supports_mcps, observation, probe_run, last_outcome. induction records as [|[s o] records IH] using rev_ind.
  { split; [reflexivity|]. cbn. rewrite lookup_empty. set_solver. }
  rewrite foldl_app, filter_app, fmap_app. cbn [foldl probe_record observations fst snd fmap list_fmap].
  destruct IH as [IH1 IH2]. destruct (decide (s = server)) as [->|Hne].
  - rewrite lookup_insert_eq, filter_cons_True by done. rewrite filter_nil, last_snoc. cbn. split; [by destruct o|set_solver].
  - rewrite lookup_insert_ne, filter_cons_False, filter_nil, app_nil_r by done. split; [done|]. rewrite IH2. set_solver.
Qed.
