(* ===== verification/ClientAudience.v ===== *)
(** * Audiences and authorization bindings at the client

    [mcps-client-core/src/audience.rs]: the audience tuple, its canonical
    string and the resolution of a route's expected signer and audience; and
    [authz.rs]: the providers of the authorization binding.  The resolver of
    authorization references is the application's code, a function here. *)

From S2P Require Import Prelude Utf8 Errors Json Canonical Strings Crypto Envelope Constraints Instances CanonicalRound.

(** ** audience.rs *)

Record AudienceTuple : Type := {
  au_scheme : rstr;
  au_host : rstr;
  au_port : Z;
  au_tenant_id : rstr;
  au_route_id : rstr;
  au_realm : rstr;
}.

(** [str::replace] of one char. *)
Definition replace_char (c : rchar) (by_ : rstr) (s : rstr) : rstr :=
  mjoin ((fun x => if x =? c then by_ else [x]) <$> s).

Definition escape_field (value : rstr) : rstr :=
  replace_char 61 (str "%3D") (replace_char 59 (str "%3B") (replace_char 37 (str "%25") value)).

Definition audience_new (scheme host : rstr) (port : Z) (tenant_id route_id realm : rstr)
  : result AudienceTuple McpsError :=
  if is_empty tenant_id || is_empty route_id then Err InvalidAudience
  else Ok {| au_scheme := scheme; au_host := host; au_port := port; au_tenant_id := tenant_id;
             au_route_id := route_id; au_realm := realm |}.

Definition to_audience_string (a : AudienceTuple) : rstr :=
  str "mcps-audience:v1:scheme=" ++ escape_field (au_scheme a) ++
  str ";host=" ++ escape_field (au_host a) ++
  str ";port=" ++ display_unsigned (au_port a) ++
  str ";tenant=" ++ escape_field (au_tenant_id a) ++
  str ";route=" ++ escape_field (au_route_id a) ++
  str ";realm=" ++ escape_field (au_realm a).

Record SignerAudienceBinding : Type := {
  sab_expected_server_signer : rstr;
  sab_audience : AudienceTuple;
}.

Definition audience_string (b : SignerAudienceBinding) : rstr := to_audience_string (sab_audience b).

(** [TransportIdentity] of audience.rs. *)
Record ClientTransportIdentity : Type := {
  verified_host : rstr;
  ct_verified_identity : option rstr;
}.

Record SignerAudiencePolicy : Type := { bindings : gmap rstr SignerAudienceBinding }.

Definition signer_audience_policy_new : SignerAudiencePolicy := {| bindings := ∅ |}.

Definition bind (p : SignerAudiencePolicy) (b : SignerAudienceBinding) : SignerAudiencePolicy :=
  {| bindings := <[au_route_id (sab_audience b) := b]> (bindings p) |}.

Definition resolve_signer_audience (policy : SignerAudiencePolicy) (transport : ClientTransportIdentity)
    (route_id : rstr) : result SignerAudienceBinding McpsError :=
  let? binding := ok_or (bindings policy !! route_id) InvalidAudience in
  if negb (bool_decide (au_host (sab_audience binding) = verified_host transport))
  then Err TransportBindingFailed else Ok binding.

Definition enforce_request_audience (request_audience : rstr) (expected : AudienceTuple) : result unit McpsError :=
  if bool_decide (request_audience = to_audience_string expected) then Ok tt else Err InvalidAudience.

(** ** authz.rs *)

Inductive BindingTypeTag : Type := TagOpaqueBytes | TagAuthzSystemReference.

#[export] Instance BindingTypeTag_eq_dec : EqDecision BindingTypeTag.
Proof. solve_decision. Defined.

Definition binding_tag (b : AuthorizationBinding) : BindingTypeTag :=
  match b with OpaqueBytes _ _ => TagOpaqueBytes | AuthzSystemReference _ _ _ _ _ => TagAuthzSystemReference end.

Record AuthorizationBindingPolicy : Type := { allowed_types : list BindingTypeTag }.

Definition both_base_forms : AuthorizationBindingPolicy :=
  {| allowed_types := [TagOpaqueBytes; TagAuthzSystemReference] |}.

Definition permits (p : AuthorizationBindingPolicy) (tag : BindingTypeTag) : bool :=
  bool_decide (tag ∈ allowed_types p).

Record BindingRequestContext : Type := {
  ctx_audience : rstr;
  ctx_route_id : rstr;
  ctx_method : option rstr;
  ctx_tool_id : option rstr;
  ctx_deadline_unix : Z;
}.

(** [trait AuthorizationBindingProvider]: its one method. *)
Definition AuthorizationBindingProvider : Type := BindingRequestContext -> result AuthorizationBinding McpsError.

Definition resolve_authorization_binding (provider : AuthorizationBindingProvider)
    (policy : AuthorizationBindingPolicy) (ctx : BindingRequestContext) : result AuthorizationBinding McpsError :=
  let? binding := provider ctx in
  if negb (permits policy (binding_tag binding)) then Err AuthorizationBindingTypeUnsupported else Ok binding.

Record AuthzReference : Type := {
  rf_authorization_system_id : rstr;
  rf_reference_scheme_id : rstr;
  rf_reference_value : rstr;
  rf_digest_value : rstr;
}.

(** [AuthzSystemReferenceProvider], with or without a resolver. *)
Definition authz_system_reference_provider (resolver : option (BindingRequestContext -> result AuthzReference McpsError))
  : AuthorizationBindingProvider := fun ctx =>
  let? resolve := ok_or resolver AuthorizationBindingMissing in
  let? reference := resolve ctx in
  Ok (AuthzSystemReference (rf_authorization_system_id reference) (rf_reference_scheme_id reference)
        (rf_reference_value reference) DIGEST_ALG_SHA256 (rf_digest_value reference)).

Definition structured_object_hashing_provider : AuthorizationBindingProvider :=
  fun _ => Err AuthorizationBindingProfileRequired.

Section Opaque.
Context `{Base64, Sha2}.

(** [strip_prefix] never fails: the prefix is the one [sha256_hash_id] writes
    ([opaque_digest_value_some]). *)
Definition opaque_digest_value (artifact_bytes : bytes) : option rstr :=
  strip_prefix (str "sha256:") (sha256_hash_id artifact_bytes).

Definition opaque_bytes_provider (artifact_bytes : bytes) : AuthorizationBindingProvider := fun _ =>
  Ok (OpaqueBytes DIGEST_ALG_SHA256 (default [] (opaque_digest_value artifact_bytes))).

Lemma opaque_digest_value_some bs : opaque_digest_value bs = Some (b64url_encode (sha256_digest bs)).
Proof. apply strip_prefix_Some. reflexivity. Qed.
End Opaque.

(** ** The canonical string is injective *)

Definition escape_char (x : rchar) : rstr :=
  if x =? 37 then str "%25" else if x =? 59 then str "%3B" else if x =? 61 then str "%3D" else [x].

Lemma replace_char_cons c t x s : replace_char c t (x :: s) = (if x =? c then t else [x]) ++ replace_char c t s.
Proof. done. Qed.

Lemma replace_char_app c t s1 s2 : replace_char c t (s1 ++ s2) = replace_char c t s1 ++ replace_char c t s2.
Proof. induction s1 as [|x s1 IH]; [done|]. cbn [app]. by rewrite !replace_char_cons, IH, app_assoc. Qed.

(** The three passes are one pass. *)
Lemma escape_field_cons x s : escape_field (x :: s) = escape_char x ++ escape_field s.
Proof.
  unfold escape_field, escape_char. rewrite replace_char_cons, !replace_char_app. f_equal.
  destruct (Z.eqb_spec x 37); [reflexivity|]. destruct (Z.eqb_spec x 59) as [->|]; [reflexivity|].
  assert (Hone : forall c t, replace_char c t [x] = if x =? c then t else [x]).
  { intros c t. rewrite replace_char_cons. apply app_nil_r. }
  rewrite Hone. rewrite (proj2 (Z.eqb_neq x 59)) by done. apply Hone.
Qed.

Lemma escape_char_spec x :
  (59 ∉ escape_char x) /\ (escape_char x = [x] /\ x <> 37 \/ exists t, escape_char x = 37 :: t).
Proof.
  unfold escape_char. destruct (Z.eqb_spec x 37) as [->|H1]; [|destruct (Z.eqb_spec x 59) as [->|H2];
    [|destruct (Z.eqb_spec x 61) as [->|H3]]].
  1-3: split; [by apply (bool_decide_unpack _); vm_compute|right; eexists; reflexivity].
  split; [|by left]. by intros ?%list_elem_of_singleton.
Qed.

Lemma escape_field_no_sep s : 59 ∉ escape_field s.
Proof.
  induction s as [|x s IH]; [set_solver|]. rewrite escape_field_cons.
  intros [H|H]%elem_of_app; [|done]. by apply (escape_char_spec x) in H.
Qed.

(** The codes of the escaped chars form a prefix code. *)
Lemma escape_char_prefix x y t u : escape_char x ++ t = escape_char y ++ u -> x = y /\ t = u.
Proof.
  unfold escape_char. intros H.
  repeat match type of H with context [?a =? ?b] => destruct (Z.eqb_spec a b); subst end;
    cbn in H; injection H; intros; subst; try lia; done.
Qed.

Lemma escape_field_inj s t : escape_field s = escape_field t -> s = t.
Proof.
  revert t. induction s as [|x s IH]; intros [|y t]; rewrite ?escape_field_cons.
  - done.
  - intros H. by destruct (escape_char_spec y) as [_ [[E _]|[u E]]]; rewrite E in H.
  - intros H. by destruct (escape_char_spec x) as [_ [[E _]|[u E]]]; rewrite E in H.
  - intros [-> H]%escape_char_prefix. by rewrite (IH _ H).
Qed.

Lemma display_unsigned_no_sep n : 0 <= n -> 59 ∉ display_unsigned n.
Proof.
  intros Hn. destruct (display_unsigned_spec n Hn) as [(_ & Hd & _) _]. intros H.
  eapply (Forall_forall _ (display_unsigned n)) in Hd; [|exact H]. cbn in Hd. lia.
Qed.

(** Distinct audiences never share a signed audience string, whatever
    characters their fields contain: two tenants or routes on one host cannot
    be confused by the verifier. *)
Theorem audience_string_injective a b :
  0 <= au_port a -> 0 <= au_port b -> to_audience_string a = to_audience_string b -> a = b.
Proof.
  intros Ha Hb H. unfold to_audience_string in H. apply app_inv_head in H.
  assert (Hsep : forall k s s' t t', 59 ∉ s -> 59 ∉ s' -> s ++ (59 :: k) ++ t = s' ++ (59 :: k) ++ t' -> s = s' /\ t = t').
  { intros k s s' t t' Hs Hs' E. apply sep_inj in E as [-> E]; [|done..]. by apply app_inv_head in E. }
  pose proof escape_field_no_sep as Hn.
  apply Hsep in H as [H1 H]; [|apply Hn..]. apply Hsep in H as [H2 H]; [|apply Hn..].
  apply Hsep in H as [H3 H]; [|by apply display_unsigned_no_sep..]. apply Hsep in H as [H4 H]; [|apply Hn..].
  apply Hsep in H as [H5 H6]; [|apply Hn..]. apply escape_field_inj in H1, H2, H4, H5, H6.
  apply display_unsigned_inj in H3; [|done..]. destruct a, b; cbn in *. congruence.
Qed.

Definition sample_audience (tenant : rstr) : AudienceTuple :=
  {| au_scheme := str "https"; au_host := str "api"; au_port := 443; au_tenant_id := tenant;
     au_route_id := str "r"; au_realm := [] |}.

(** A tenant name that tries to forge the next field. *)
