(* ===== verification/Correlation.v ===== *)
(** * In-flight correlation

    [mcps-client-core/src/correlation.rs]: the store of outstanding requests,
    which binds a response to the request it answers and refuses the reuse of
    a nonce inside its window.  Histories of the store are a step relation
    under a clock that does not run backwards. *)

From S2P Require Import Prelude Utf8 Errors.

Record PendingRequest : Type := {
  correlation_id : rstr;
  pr_request_hash : rstr;
  pr_nonce : rstr;
  issued_at_unix : Z;
  deadline_unix : Z;
  pr_route_id : rstr;
  pr_audience : rstr;
  expected_server_signers : list rstr;
  pr_version : rstr;
  pr_canonicalization_id : rstr;
  authz_digest : rstr;
}.

Inductive CorrelationError : Type := DuplicateCorrelationId | NonceReuse | Uncorrelatable | CorrelationExpired.

(** [CorrelationError::to_mcps_error]. *)
Definition correlation_to_mcps_error (e : CorrelationError) : McpsError :=
  match e with
  | DuplicateCorrelationId | NonceReuse => ReplayDetected
  | Uncorrelatable => ResponseHashMismatch
  | CorrelationExpired => ExpiredRequest
  end.

Record CorrelationStore : Type := {
  pending : gmap rstr PendingRequest;
  nonce_window : gmap rstr Z;
}.

Definition correlation_new : CorrelationStore := {| pending := ∅; nonce_window := ∅ |}.

Definition outstanding (s : CorrelationStore) : nat := size (pending s).

Definition correlation_register (s : CorrelationStore) (request : PendingRequest) (now_unix : Z)
  : result unit CorrelationError * CorrelationStore :=
  if bool_decide (is_Some (pending s !! correlation_id request)) then (Err DuplicateCorrelationId, s)
  else if match nonce_window s !! pr_nonce request with
          | Some retained_until => now_unix <? retained_until
          | None => false
          end then (Err NonceReuse, s)
  else (Ok tt, {| pending := <[correlation_id request := request]> (pending s);
                  nonce_window := <[pr_nonce request := deadline_unix request]> (nonce_window s) |}).

Definition take_for_response (s : CorrelationStore) (id : rstr) (now_unix : Z)
  : result PendingRequest CorrelationError * CorrelationStore :=
  match pending s !! id with
  | None => (Err Uncorrelatable, s)
  | Some entry =>
      let s' := {| pending := delete id (pending s); nonce_window := nonce_window s |} in
      if deadline_unix entry <? now_unix then (Err CorrelationExpired, s') else (Ok entry, s')
  end.

Definition cancel (s : CorrelationStore) (id : rstr) : option PendingRequest * CorrelationStore :=
  (pending s !! id, {| pending := delete id (pending s); nonce_window := nonce_window s |}).

Definition sweep_expired (s : CorrelationStore) (now_unix : Z) : nat * CorrelationStore :=
  let kept := filter (fun kv => now_unix <= deadline_unix kv.2) (pending s) in
  ((size (pending s) - size kept)%nat,
   {| pending := kept; nonce_window := filter (fun kv => now_unix <= kv.2) (nonce_window s) |}).

(** ** Histories *)

(** The store with what has become of every registered request. *)
Record traffic : Type := {
  t_store : CorrelationStore;
  t_now : Z;
  t_sent : list (PendingRequest * Z);
  t_answered : list (PendingRequest * Z);
  t_cancelled : list PendingRequest;
  t_expired : list PendingRequest;
}.

Definition traffic_start (now : Z) : traffic := {|
  t_store := correlation_new; t_now := now; t_sent := []; t_answered := []; t_cancelled := []; t_expired := [] |}.

(** The requests of [s] that [sweep_expired] drops at [now]. *)
Definition overdue (s : CorrelationStore) (now : Z) : list PendingRequest :=
  (map_to_list (filter (fun kv => ~ now <= deadline_unix kv.2) (pending s))).*2.

Inductive traffic_step (h : traffic) : traffic -> Prop :=
| step_register r t res s' :
    t_now h <= t -> correlation_register (t_store h) r t = (res, s') ->
    traffic_step h {| t_store := s'; t_now := t; t_sent := (if is_ok res then [(r, t)] else []) ++ t_sent h;
      t_answered := t_answered h; t_cancelled := t_cancelled h; t_expired := t_expired h |}
| step_take id t res s' :
    t_now h <= t -> take_for_response (t_store h) id t = (res, s') ->
    traffic_step h {| t_store := s'; t_now := t; t_sent := t_sent h;
      t_answered := match res with Ok r => [(r, t)] | Err _ => [] end ++ t_answered h; t_cancelled := t_cancelled h;
      t_expired := match res, pending (t_store h) !! id with Err _, Some r => [r] | _, _ => [] end ++ t_expired h |}
| step_cancel id t o s' :
    t_now h <= t -> cancel (t_store h) id = (o, s') ->
    traffic_step h {| t_store := s'; t_now := t; t_sent := t_sent h; t_answered := t_answered h;
      t_cancelled := match o with Some r => [r] | None => [] end ++ t_cancelled h; t_expired := t_expired h |}
| step_sweep t n s' :
    t_now h <= t -> sweep_expired (t_store h) t = (n, s') ->
    traffic_step h {| t_store := s'; t_now := t; t_sent := t_sent h; t_answered := t_answered h;
      t_cancelled := t_cancelled h; t_expired := overdue (t_store h) t ++ t_expired h |}.

Definition waiting (s : CorrelationStore) : list PendingRequest := (map_to_list (pending s)).*2.

(** Every request sent is waiting, answered, cancelled or expired, once. *)
Definition accounted (h : traffic) : Prop :=
  (t_sent h).*1 ≡ₚ waiting (t_store h) ++ (t_answered h).*1 ++ t_cancelled h ++ t_expired h.

(** A nonce sent before is still guarded, or its window has closed. *)
Definition guarded (h : traffic) : Prop :=
  forall r t, (r, t) ∈ t_sent h ->
    deadline_unix r <= t_now h \/ exists d, nonce_window (t_store h) !! pr_nonce r = Some d /\ deadline_unix r <= d.

(** The newest registration first: a nonce comes back only after the deadline
    of its earlier use. *)
Fixpoint nonces_spaced (sent : list (PendingRequest * Z)) : Prop :=
  match sent with
  | [] => True
  | (r, t) :: earlier =>
      Forall (fun q => pr_nonce q.1 = pr_nonce r -> deadline_unix q.1 <= t) earlier /\ nonces_spaced earlier
  end.

Record traffic_inv (h : traffic) : Prop := {
  inv_accounted : accounted h;
  inv_keyed : map_Forall (fun id r => correlation_id r = id) (pending (t_store h));
  inv_guarded : guarded h;
  inv_spaced : nonces_spaced (t_sent h);
  inv_in_time : Forall (fun q => q.2 <= deadline_unix q.1) (t_answered h);
  inv_late : Forall (fun r => deadline_unix r < t_now h) (t_expired h);
}.

Lemma filter_values (P : rstr * PendingRequest -> Prop) `{!forall x, Decision (P x)} (m : gmap rstr PendingRequest) :
  (map_to_list m).*2 ≡ₚ (map_to_list (filter P m)).*2 ++ (map_to_list (filter (fun x => ~ P x) m)).*2.
Proof.
  induction m as [|i x m Hi IH] using map_ind; [by rewrite !map_filter_empty, map_to_list_empty|].
  rewrite map_to_list_insert by done. cbn [fmap list_fmap snd]. destruct (decide (P (i, x))) as [HP|HP].
  - rewrite (map_filter_insert_True P) by done. rewrite (map_filter_insert_False (fun x => ~ P x)) by tauto.
    rewrite delete_id by done. rewrite map_to_list_insert by (by apply map_lookup_filter_None; left).
    cbn [fmap list_fmap snd]. by rewrite IH.
  - rewrite (map_filter_insert_False P) by done. rewrite (map_filter_insert_True (fun x => ~ P x)) by done.
    rewrite delete_id by done. rewrite map_to_list_insert by (by apply map_lookup_filter_None; left).
    cbn [fmap list_fmap snd]. rewrite IH. solve_Permutation.
Qed.

Lemma delete_values (m : gmap rstr PendingRequest) i x :
  m !! i = Some x -> (map_to_list m).*2 ≡ₚ x :: (map_to_list (delete i m)).*2.
Proof. intros H. by rewrite <- (map_to_list_delete m i x H). Qed.

(** The clock moves. *)
Lemma guarded_mono h t : guarded h -> t_now h <= t -> forall s, nonce_window s = nonce_window (t_store h) ->
  forall r u, (r, u) ∈ t_sent h -> deadline_unix r <= t \/ exists d, nonce_window s !! pr_nonce r = Some d /\ deadline_unix r <= d.
Proof. intros Hg Ht s -> r u Hin. destruct (Hg _ _ Hin) as [?|?]; [left; lia|by right]. Qed.

Lemma late_mono l t t' : Forall (fun r => deadline_unix r < t) l -> t <= t' -> Forall (fun r => deadline_unix r < t') l.
Proof. intros H Ht. eapply Forall_impl; [exact H|]. cbn. lia. Qed.

Lemma register_inv h r t res s' :
  traffic_inv h -> t_now h <= t -> correlation_register (t_store h) r t = (res, s') ->
  traffic_inv {| t_store := s'; t_now := t; t_sent := (if is_ok res then [(r, t)] else []) ++ t_sent h;
    t_answered := t_answered h; t_cancelled := t_cancelled h; t_expired := t_expired h |}.
Proof.
  intros [Ha Hk Hg Hs Hi Hl] Ht. unfold correlation_register. case_bool_decide as Hd.
  { intros [= <- <-]. split; cbn; try done; [by intros ? ? ?; eapply guarded_mono|by eapply late_mono]. }
  destruct (match _ with Some _ => _ | None => _ end) eqn:Hn.
  { intros [= <- <-]. split; cbn; try done; [by intros ? ? ?; eapply guarded_mono|by eapply late_mono]. }
  intros [= <- <-]. apply eq_None_not_Some in Hd. cbn [is_ok app].
  assert (Hold : forall q u, (q, u) ∈ t_sent h -> pr_nonce q = pr_nonce r -> deadline_unix q <= t).
  { intros q u Hin Hq. destruct (Hg q u Hin) as [?|(d & Hd' & Hle)]; [lia|]. rewrite Hq in Hd'. rewrite Hd' in Hn.
    apply Z.ltb_ge in Hn. lia. }
  split; cbn.
  - unfold accounted, waiting in *. cbn. rewrite map_to_list_insert by done. cbn. by rewrite Ha.
  - by apply map_Forall_insert_2.
  - intros q u [Hq|Hin]%elem_of_cons; cbn.
    + simplify_eq. right. exists (deadline_unix r). split; [apply lookup_insert_eq|lia].
    + destruct (decide (pr_nonce q = pr_nonce r)) as [E|E]; [left; eauto|].
      rewrite lookup_insert_ne by done. destruct (Hg q u Hin) as [?|?]; [left; lia|by right].
  - split; [|done]. apply Forall_forall. intros [q u] Hin E. by eapply Hold.
  - done.
  - by eapply late_mono.
Qed.

Lemma take_inv h id t res s' :
  traffic_inv h -> t_now h <= t -> take_for_response (t_store h) id t = (res, s') ->
  traffic_inv {| t_store := s'; t_now := t; t_sent := t_sent h;
    t_answered := match res with Ok r => [(r, t)] | Err _ => [] end ++ t_answered h; t_cancelled := t_cancelled h;
    t_expired := match res, pending (t_store h) !! id with Err _, Some r => [r] | _, _ => [] end ++ t_expired h |}.
Proof.
  intros [Ha Hk Hg Hs Hi Hl] Ht. unfold take_for_response. destruct (pending (t_store h) !! id) as [e|] eqn:Ee.
  2:{ intros [= <- <-]. split; cbn; try done; [by intros ? ? ?; eapply guarded_mono|by eapply late_mono]. }
  pose proof (delete_values _ _ _ Ee) as Hv. pose proof (late_mono _ _ _ Hl Ht) as Hl'.
  destruct (Z.ltb_spec (deadline_unix e) t) as [Hlt|Hge]; intros [= <- <-]; split; cbn; try done.
  1, 5: unfold accounted, waiting in *; cbn; rewrite Ha, Hv; solve_Permutation.
  all: try (by apply map_Forall_delete); try (by intros ? ? ?; eapply guarded_mono); by constructor.
Qed.

Lemma cancel_inv h id t o s' :
  traffic_inv h -> t_now h <= t -> cancel (t_store h) id = (o, s') ->
  traffic_inv {| t_store := s'; t_now := t; t_sent := t_sent h; t_answered := t_answered h;
    t_cancelled := match o with Some r => [r] | None => [] end ++ t_cancelled h; t_expired := t_expired h |}.
Proof.
  intros [Ha Hk Hg Hs Hi Hl] Ht [= <- <-]. split; cbn; try done.
  - unfold accounted, waiting in *. cbn. destruct (pending (t_store h) !! id) as [e|] eqn:Ee.
    + rewrite Ha, (delete_values _ _ _ Ee). solve_Permutation.
    + by rewrite delete_id.
  - by apply map_Forall_delete.
  - by intros ? ? ?; eapply guarded_mono.
  - by eapply late_mono.
Qed.

Lemma sweep_inv h t n s' :
  traffic_inv h -> t_now h <= t -> sweep_expired (t_store h) t = (n, s') ->
  traffic_inv {| t_store := s'; t_now := t; t_sent := t_sent h; t_answered := t_answered h;
    t_cancelled := t_cancelled h; t_expired := overdue (t_store h) t ++ t_expired h |}.
Proof.
  intros [Ha Hk Hg Hs Hi Hl] Ht [= _ <-]. split; cbn; try done.
  - unfold accounted, waiting, overdue in *. cbn. rewrite Ha.
    rewrite (filter_values (fun kv => t <= deadline_unix kv.2) (pending (t_store h))). solve_Permutation.
  - intros i x [Hx _]%map_lookup_filter_Some. by apply (Hk i x).
  - intros r u Hin. cbn in *. destruct (Hg r u Hin) as [?|(d & Hd & Hle)]; [left; lia|].
    destruct (decide (t <= d)) as [E|E]; [right|left; lia]. exists d. split; [|done]. by apply map_lookup_filter_Some.
  - apply Forall_app. split; [|by eapply late_mono]. apply Forall_forall. intros r. unfold overdue.
    intros ([i x] & -> & Hin)%list_elem_of_fmap. apply elem_of_map_to_list, map_lookup_filter_Some in Hin as [_ Hin]. cbn in *. lia.
Qed.

Lemma traffic_inv_reachable now h : rtc traffic_step (traffic_start now) h -> traffic_inv h.
Proof.
  intros H. remember (traffic_start now) as h0 eqn:E. assert (I : traffic_inv h0).
  { subst. split; cbn; try done. - by unfold accounted, waiting. - intros ? ? Hin. by apply not_elem_of_nil in Hin. }
  clear E. induction H as [|h1 h2 h3 Hstep _ IH]; [done|]. apply IH. destruct Hstep.
  - by eapply register_inv.
  - by eapply take_inv.
  - by eapply cancel_inv.
  - by eapply sweep_inv.
Qed.

(** C25: Correlation is exact: over any history of registrations, responses,
    cancellations and sweeps, every registered request is in exactly one
    place (waiting, answered, cancelled or expired), so a response can be
    bound to a request at most once and only to one that was sent; an answer
    is taken no later than its deadline and only late requests expire; and a
    nonce is never reused before the deadline of its earlier use. *)
Theorem correlation_exact now h :
  rtc traffic_step (traffic_start now) h ->
  (t_sent h).*1 ≡ₚ waiting (t_store h) ++ (t_answered h).*1 ++ t_cancelled h ++ t_expired h /\
  Forall (fun q => q.2 <= deadline_unix q.1) (t_answered h) /\
  Forall (fun r => deadline_unix r < t_now h) (t_expired h) /\ nonces_spaced (t_sent h).
Proof. intros H%traffic_inv_reachable. by destruct H. Qed.

Definition sample_pending (id nonce : rstr) (deadline : Z) : PendingRequest := {|
  correlation_id := id; pr_request_hash := str "sha256:h"; pr_nonce := nonce; issued_at_unix := 0;
  deadline_unix := deadline; pr_route_id := str "r"; pr_audience := str "a"; expected_server_signers := [];
  pr_version := str "draft-02"; pr_canonicalization_id := str "c"; authz_digest := str "d" |}.

Definition sample_store1 : CorrelationStore := (correlation_register correlation_new (sample_pending (str "1") (str "n") 10) 0).2.
Definition sample_store2 : CorrelationStore := (take_for_response sample_store1 (str "1") 9).2.
Definition sample_store3 : CorrelationStore := (correlation_register sample_store2 (sample_pending (str "1") (str "n") 20) 10).2.

(** The nonce stays guarded after the answer, until its deadline. *)
Example sample_nonce_guarded :
  (correlation_register sample_store2 (sample_pending (str "2") (str "n") 20) 9).1 = Err NonceReuse.
Proof. vm_compute. reflexivity. Qed.

Lemma correlation_exact_witness :
  exists h, t_answered h = [(sample_pending (str "1") (str "n") 10, 9)] /\
    ((t_sent h).*1 ≡ₚ waiting (t_store h) ++ (t_answered h).*1 ++ t_cancelled h ++ t_expired h /\
     Forall (fun q => q.2 <= deadline_unix q.1) (t_answered h) /\
     Forall (fun r => deadline_unix r < t_now h) (t_expired h) /\ nonces_spaced (t_sent h)).
Proof.
  eexists {| t_store := sample_store3; t_now := 10;
    t_sent := [(sample_pending (str "1") (str "n") 20, 10); (sample_pending (str "1") (str "n") 10, 0)];
    t_answered := [(sample_pending (str "1") (str "n") 10, 9)]; t_cancelled := []; t_expired := [] |}.
  split; [reflexivity|]. apply (correlation_exact 0).
  eapply rtc_l; [apply (step_register _ (sample_pending (str "1") (str "n") 10) 0 (Ok tt) sample_store1); [done|vm_compute; reflexivity]|].
  eapply rtc_l; [apply (step_take _ (str "1") 9 (Ok (sample_pending (str "1") (str "n") 10)) sample_store2); [cbn; lia|vm_compute; reflexivity]|].
  eapply rtc_l; [apply (step_register _ (sample_pending (str "1") (str "n") 20) 10 (Ok tt) sample_store3); [cbn; lia|vm_compute; reflexivity]|].
  apply rtc_refl.
Defined.
