(* ===== verification/HostSession.v ===== *)
(** * The host session

    [mcps-host/src/session.rs], [pending.rs], [nonce.rs], [clock.rs] and
    [verified_result.rs]: a client that stamps, signs and remembers its
    requests and verifies responses against what it remembers.  The clock and
    the nonce source are injected interfaces.  A map key, a [String] in the
    source, is kept as its UTF-8 bytes. *)

From S2P Require Import Prelude Utf8 Errors Json Canonical Strings Time Crypto Transport Signing Values Envelope.
From S2P Require Import Instances Replay Resolver Constraints Pipeline Samples PipelineSpec PipelineTheorems.
From S2P Require Import PipelineResponses Unwrap Graft Policy PolicySpec KeySource Proxy ClientRequest.
From S2P Require Import ClientRequestTheorems ProxyMeta ProxyTheorems ProxyResponses ProxyClient.

Definition NONCE_BYTES : nat := 16.

Definition DEFAULT_REQUEST_LIFETIME_SECS : Z := 300.

(** [trait Clock]. *)
Class Clock (Ck : Type) := now_unix : Ck -> Z.

(** [trait NonceSource]: [fill] of a buffer of the given length. *)
Class NonceSource (Ns : Type) := fill : Ns -> nat -> bytes * Ns.

(** [PendingRequest] of pending.rs. *)
Record HostPending : Type := {
  hp_request_hash : rstr;
  expires_at_unix : Z;
}.

Definition is_expired_at (p : HostPending) (now : Z) : bool := expires_at_unix p <=? now.

(** [FixedClock] and [SeededNonceSource], the deterministic fixtures. *)
Record FixedClock : Type := { fixed_now : Z }.

#[export] Instance fixed_clock : Clock FixedClock := fixed_now.

Record SeededNonceSource : Type := { seed : bytes; offset : nat }.

Definition seeded_new (s : bytes) : SeededNonceSource := {| seed := if is_empty s then [0] else s; offset := 0 |}.

Fixpoint seeded_fill (s : SeededNonceSource) (n : nat) : bytes * SeededNonceSource :=
  match n with
  | O => ([], s)
  | S n' =>
      let byte := nth (offset s mod length (seed s)) (seed s) 0 in
      let (rest, s') := seeded_fill {| seed := seed s; offset := S (offset s) |} n' in
      (byte :: rest, s')
  end.

#[export] Instance seeded_nonce_source : NonceSource SeededNonceSource := seeded_fill.

(** [VerifiedResult]. *)
Record VerifiedResult : Type := {
  vres_verified : VerifiedResponse;
  vres_unwrapped : UnwrappedResult;
}.

Section Session.
Context `{SerdeJson, !SerdeSer, Base64, Sha2, Dalek, !Deserialize ResponseEnvelope}.
Context `{Clock Ck, NonceSource Ns}.

Record HostSession : Type := {
  s_signer : HostSigner;
  s_clock : Ck;
  s_nonce_source : Ns;
  request_lifetime_secs : Z;
  s_pending : gmap bytes HostPending;
}.

Definition session_new (signer : HostSigner) (clock : Ck) (nonce_source : Ns) (lifetime : Z) : HostSession := {|
  s_signer := signer; s_clock := clock; s_nonce_source := nonce_source; request_lifetime_secs := lifetime;
  s_pending := ∅ |}.

Definition with_defaults (signer : HostSigner) (clock : Ck) (nonce_source : Ns) : HostSession :=
  session_new signer clock nonce_source DEFAULT_REQUEST_LIFETIME_SECS.

Definition with_pending (s : HostSession) (m : gmap bytes HostPending) : HostSession := {|
  s_signer := s_signer s; s_clock := s_clock s; s_nonce_source := s_nonce_source s;
  request_lifetime_secs := request_lifetime_secs s; s_pending := m |}.

(** [serde_json::to_string(id).unwrap_or_default()]. *)
Definition id_key (id : Value) : bytes := default [] (to_vec id).

Definition response_id (response_bytes : bytes) : result Value McpsError :=
  let? value := ok_or (from_slice response_bytes) CanonicalizationFailed in
  ok_or (get (str "id") value) MissingEnvelope.

Definition next_nonce (s : HostSession) : rstr * HostSession :=
  let (bs, source') := fill (s_nonce_source s) NONCE_BYTES in
  (b64url_encode bs, {| s_signer := s_signer s; s_clock := s_clock s; s_nonce_source := source';
                        request_lifetime_secs := request_lifetime_secs s; s_pending := s_pending s |}).

Definition checked_add_i64 (a b : Z) : option Z :=
  if bool_decide (I64_MIN <= a + b <= I64_MAX) then Some (a + b) else None.

Definition session_sign_request (s : HostSession) (id : Value) (method : rstr) (params : Map)
    (on_behalf_of audience authorization_hash : rstr) : outcome (result bytes McpsError) * HostSession :=
  let key := id_key id in
  if bool_decide (is_Some (s_pending s !! key)) then (Returns (Err ReplayDetected), s)
  else
    let (nonce, s) := next_nonce s in
    let issued_unix := now_unix (s_clock s) in
    match checked_add_i64 issued_unix (request_lifetime_secs s) with
    | None => (Returns (Err CanonicalizationFailed), s)
    | Some expires_unix =>
        match host_sign_request (s_signer s) id method params on_behalf_of audience authorization_hash nonce
                (unix_to_rfc3339_utc issued_unix) (unix_to_rfc3339_utc expires_unix) with
        | Panics => (Panics, s)
        | Returns (Err e) => (Returns (Err e), s)
        | Returns (Ok bs) =>
            match (let? signed_value := ok_or (from_slice bs) CanonicalizationFailed in request_hash signed_value) with
            | Err e => (Returns (Err e), s)
            | Ok hash =>
                (Returns (Ok bs),
                 with_pending s (<[key := {| hp_request_hash := hash; expires_at_unix := expires_unix |}]> (s_pending s)))
            end
        end
    end.

Definition session_sign_tool_call (s : HostSession) (id : Value) (tool_name : rstr) (arguments : Value)
    (on_behalf_of audience authorization_hash : rstr) : outcome (result bytes McpsError) * HostSession :=
  session_sign_request s id (str "tools/call") (tool_call_params tool_name arguments) on_behalf_of audience
    authorization_hash.

Definition session_verify_response (s : HostSession) (response_bytes : bytes) (resolver : TrustResolver)
  : result VerifiedResponse McpsError * HostSession :=
  match response_id response_bytes with
  | Err e => (Err e, s)
  | Ok id =>
      let key := id_key id in
      match s_pending s !! key with
      | None => (Err MissingEnvelope, s)
      | Some entry =>
          match verify_response response_bytes resolver (hp_request_hash entry) with
          | Err e => (Err e, s)
          | Ok verified => (Ok verified, with_pending s (delete key (s_pending s)))
          end
      end
  end.

Definition verify_and_unwrap_response (s : HostSession) (response_bytes : bytes) (resolver : TrustResolver)
  : result VerifiedResult McpsError * HostSession :=
  match session_verify_response s response_bytes resolver with
  | (Err e, s') => (Err e, s')
  | (Ok verified, s') =>
      ((let? value := ok_or (from_slice response_bytes) CanonicalizationFailed in
        let? r := ok_or (get (str "result") value) MissingEnvelope in
        let? unwrapped := unwrap_verified_result r in
        Ok {| vres_verified := verified; vres_unwrapped := unwrapped |}), s')
  end.

Definition stored_request_hash (s : HostSession) (id : Value) : option rstr :=
  hp_request_hash <$> s_pending s !! id_key id.

Definition pending_count (s : HostSession) : nat := size (s_pending s).

Definition cancel_request (s : HostSession) (id : Value) : bool * HostSession :=
  (bool_decide (is_Some (s_pending s !! id_key id)), with_pending s (delete (id_key id) (s_pending s))).

Definition expire_pending (s : HostSession) (now : Z) : nat * HostSession :=
  let kept := filter (fun kv => is_expired_at kv.2 now = false) (s_pending s) in
  ((size (s_pending s) - size kept)%nat, with_pending s kept).
End Session.

Arguments HostSession {_} Ck Ns.

(** ** A session end to end

    The draft-01 requests of the host at the server, and the whole exchange:
    a session signs a request, the sidecar admits it, forwards it and signs
    the inner answer, and the session verifies and unwraps that answer. *)

(** ** The draft-01 envelope *)

(** What a caller tells the host about a request. *)
Record Ask : Type := {
  a_id : Value;
  a_method : rstr;
  a_params : Map;
  a_on_behalf_of : rstr;
  a_audience : rstr;
  a_authorization_hash : rstr;
}.

Definition ask_wf (a : Ask) : Prop :=
  sendable (a_id a) (a_method a) (a_params a) /\ str_wf (a_on_behalf_of a) /\ a_on_behalf_of a <> [] /\
  str_wf (a_audience a) /\ str_wf (a_authorization_hash a) /\
  starts_with SHA256_PREFIX (a_authorization_hash a) = true.

Section Host.
Context `{SJ : SerdeJson, SJL : !SerdeJsonLaws, SS : !SerdeSer, SSL : !SerdeSerLaws, SW : !SerdeWrites}.
Context `{B64 : !Base64, B64L : !Base64Laws, SH : !Sha2, SHL : !Sha2Laws, DK : !Dalek, DKL : !DalekLaws}.

Definition host_wf (h : HostSigner) : Prop := str_wf (hs_signer h) /\ str_wf (hs_key_id h).

Section Envelope.
Context (h : HostSigner) (a : Ask) (nonce issued expires : rstr).
Context (Hh : host_wf h) (Ha : ask_wf a) (Wn : str_wf nonce) (Wi : str_wf issued) (We : str_wf expires).

Definition ask_envelope : Value :=
  host_envelope h (a_on_behalf_of a) (a_audience a) (a_authorization_hash a) nonce issued expires.

Lemma ask_envelope_unsigned : unsigned_envelope ask_envelope.
Proof.
  destruct Hh as [? Hk], Ha as (_ & ? & _ & ? & ? & _). split.
  - apply value_wf_json_object. rewrite !Forall_cons, Forall_nil. split_and!; cbn [fst snd];
      try exact (signature_stub_wf _ Hk); solve_str_wf.
  - unfold ask_envelope, host_envelope. rewrite json_object_get. eexists. split; reflexivity.
Qed.

Lemma safe_ask_envelope : safe 2 ask_envelope.
Proof.
  apply safe_json_object. rewrite !Forall_cons, Forall_nil. split_and!; cbn [snd]; try apply safe_string;
    try apply safe_signature_stub; done.
Qed.

(** The envelope the server deserializes. *)
Definition host_request_envelope (sg : rstr) : RequestEnvelope := {|
  req_version := VERSION_DRAFT_01; req_signer := hs_signer h; req_on_behalf_of := a_on_behalf_of a;
  req_audience := a_audience a; req_authorization_hash := a_authorization_hash a; req_nonce := nonce;
  req_issued_at := issued; req_expires_at := expires; req_signature := signature_of (hs_key_id h) sg |}.

Lemma ask_envelope_read sg m :
  str_wf sg -> value_wf (VObject m) -> value_equiv (signed_envelope sg ask_envelope) (VObject m) ->
  wire_members (fun _ => nested_object) m (host_request_envelope sg) /\
  Forall (fun k => k ∈ wire_fields RequestEnvelope) m.*1.
Proof.
  intros Hsg W H. pose proof ask_envelope_unsigned as [Wr _].
  pose proof (value_wf_update_at [str "signature"] (add_value sg) _ Wr (fun w => add_value_wf sg w Hsg)) as Ws.
  fold (signed_envelope sg ask_envelope) in Ws. split.
  - cbn [wire_members RequestEnvelope_wire host_request_envelope req_version req_signer req_on_behalf_of req_audience
      req_authorization_hash req_nonce req_issued_at req_expires_at req_signature].
    unfold field. split_and!; try (eapply equiv_field; [exact H|reflexivity]).
    eapply signature_member_read; [exact (proj2 Hh)|exact Hsg|exact W|exact H|reflexivity].
  - eapply equiv_keys; [exact Ws|exact W|exact H|]. repeat constructor; cbn [wire_fields RequestEnvelope_wire]; set_solver.
Qed.

Definition ask_request : Value := request_object (a_id a) (a_method a) (merge_envelope ask_envelope (a_params a)).

Lemma ask_request_unsigned : unsigned Request ask_request.
Proof.
  pose proof ask_envelope_unsigned as U. destruct Ha as ((? & _ & ? & ? & _) & _). by apply request_object_unsigned.
Qed.

(** Signing a request returns bytes the server reads as that request. *)
Lemma host_sign_request_read :
  exists bs v pre, host_sign_request h (a_id a) (a_method a) (a_params a) (a_on_behalf_of a) (a_audience a)
      (a_authorization_hash a) nonce issued expires = Returns (Ok bs) /\
    well_shaped bs v /\ value_wf v /\ signing_preimage v Request = Ok pre /\
    (exists i, get (str "id") v = Some i /\ value_equiv (a_id a) i) /\
    envelope01 v (host_request_envelope (sign (hs_signing_key h) pre)) /\
    signed_by Request v pre (signature_of (hs_key_id h) (sign (hs_signing_key h) pre)) (public_key (hs_signing_key h)).
Proof.
  pose proof ask_request_unsigned as U. pose proof ask_envelope_unsigned as Ue.
  pose proof Ha as ((Wid & Hid & Wm & Wp & Hsi & Hsp) & _ & _ & _ & _ & Hsw).
  assert (Hse : safe 124 ask_envelope) by (eapply safe_mono; [|exact safe_ask_envelope]; lia).
  destruct (safe_signing_preimage Request ask_request) as [pre Hpre];
    [apply U| |by apply unsigned_block|].
  { apply (safe_mono 127); [by apply (bool_decide_eq_true_1 _)|]. by apply (safe_request_object _ _ _ _ 124). }
  set (sg := sign (hs_signing_key h) pre). assert (Wsg : str_wf sg) by apply sign_wf.
  destruct (request_object_read _ _ _ _ Wid Wm Wp Ue sg pre Hsi Hsp Hse Hid Wsg Hpre) as
    (bs & v & m & Hbs & Hsh & W & Hp & Wmm & Hq & Hi & Hpv & Hs).
  destruct (ask_envelope_read sg m Wsg Wmm Hq) as [Hm Hf].
  exists bs, v, pre. split; [|refine (conj Hsh (conj W (conj Hpv (conj Hi (conj _ _)))))].
  - unfold host_sign_request, request_signing_preimage. fold ask_envelope. fold ask_request. rewrite Hpre. fold sg.
    change VALUE_PATH with (signature_path Request ++ [str "value"]). rewrite (index_signature Request _ U).
    fold ask_request in Hbs. by rewrite Hbs.
  - exists m. exact (conj Hp (conj Hm (conj Hf (conj eq_refl Hsw)))).
  - apply Hs, verify_sign.
Qed.
End Envelope.

(** ** The session *)
Section Session.
Context `{CK : Clock Ck, NS : NonceSource Ns}.

Implicit Types s : HostSession Ck Ns.

(** A request can be stamped: its id is free, the nonce source yields bytes,
    and the window is a range of years the timestamps can express. *)
Record can_stamp s (a : Ask) (expires : Z) : Prop := {
  nonce_bytes : bytes_wf (fill (s_nonce_source s) NONCE_BYTES).1;
  id_free : s_pending s !! id_key (a_id a) = None;
  expiry : checked_add_i64 (now_unix (s_clock s)) (request_lifetime_secs s) = Some expires;
  lifetime_pos : 0 <= request_lifetime_secs s;
  years : -62167219200 <= now_unix (s_clock s) /\ expires <= 253402300799;
}.

Definition session_envelope s (a : Ask) (expires : Z) (pre : bytes) : RequestEnvelope :=
  host_request_envelope (s_signer s) a (next_nonce s).1 (unix_to_rfc3339_utc (now_unix (s_clock s)))
    (unix_to_rfc3339_utc expires) (sign (hs_signing_key (s_signer s)) pre).

Definition sign_ask s (a : Ask) : outcome (result bytes McpsError) * HostSession Ck Ns :=
  session_sign_request s (a_id a) (a_method a) (a_params a) (a_on_behalf_of a) (a_audience a) (a_authorization_hash a).

Lemma next_nonce_session s : bytes_wf (fill (s_nonce_source s) NONCE_BYTES).1 -> s_signer (next_nonce s).2 = s_signer s /\ s_clock (next_nonce s).2 = s_clock s /\
  request_lifetime_secs (next_nonce s).2 = request_lifetime_secs s /\ s_pending (next_nonce s).2 = s_pending s /\
  str_wf (next_nonce s).1.
Proof.
  intros Hf. unfold next_nonce.
  destruct (fill (s_nonce_source s) NONCE_BYTES) as [bs n']. cbn in *. split_and!; try reflexivity. by apply base64_encode_wf.
Qed.

(** The session signs, and remembers the hash of what it signed. *)
Lemma sign_ask_spec s a expires :
  host_wf (s_signer s) -> ask_wf a -> can_stamp s a expires ->
  exists bs v pre s1, sign_ask s a = (Returns (Ok bs), s1) /\
    s_pending s1 = <[id_key (a_id a) := {| hp_request_hash := sha256_hash_id pre; expires_at_unix := expires |}]> (s_pending s) /\
    well_shaped bs v /\ (exists i, get (str "id") v = Some i /\ value_equiv (a_id a) i) /\
    envelope01 v (session_envelope s a expires pre) /\
    signed_by Request v pre (req_signature (session_envelope s a expires pre)) (public_key (hs_signing_key (s_signer s))).
Proof.
  intros Hh Ha [Hnb Hfree Hexp _ _]. destruct (next_nonce_session s Hnb) as (E1 & E2 & E3 & E4 & Wn).
  destruct (host_sign_request_read (s_signer s) a (next_nonce s).1 (unix_to_rfc3339_utc (now_unix (s_clock s)))
    (unix_to_rfc3339_utc expires) Hh Ha Wn (str_wf_rfc3339 _) (str_wf_rfc3339 _)) as
    (bs & v & pre & Hb & Hsh & W & Hpre & Hi & He & Hs).
  exists bs, v, pre, (with_pending (next_nonce s).2 (<[id_key (a_id a) :=
    {| hp_request_hash := sha256_hash_id pre; expires_at_unix := expires |}]> (s_pending (next_nonce s).2))).
  split; [|refine (conj _ (conj Hsh (conj Hi (conj He Hs))))].
  - unfold sign_ask, session_sign_request. rewrite bool_decide_eq_false_2 by (rewrite Hfree; by intros []).
    destruct (next_nonce s) as [nonce s0]. cbn [fst snd] in *. rewrite E1, E2, E3, Hexp, Hb.
    rewrite (proj1 Hsh). cbn [ok_or]. unfold request_hash, request_signing_preimage. rewrite Hpre. reflexivity.
  - cbn [s_pending with_pending]. by rewrite E4.
Qed.

(** ** The exchange *)

Context `{D1 : !Deserialize RequestEnvelope, D2 : !Deserialize Draft02RequestEnvelope}.
Context `{L1 : !DeserializeLaws RequestEnvelope, L2 : !DeserializeLaws Draft02RequestEnvelope}.
Context `{D3 : !Deserialize ResponseEnvelope, D4 : !Deserialize Draft02ResponseEnvelope}.
Context `{L3 : !DeserializeLaws ResponseEnvelope, L4 : !DeserializeLaws Draft02ResponseEnvelope}.
Context `{RC : ReplayCache C, IS : InnerServer Srv}.

(** The JSON-RPC ids of the protocol: strings and numbers. *)
Definition scalar_id (v : Value) : Prop := match v with VString _ | VNumber _ => True | _ => False end.

Lemma scalar_id_equiv v w : scalar_id v -> value_equiv v w -> w = v.
Proof. intros Hs H. by destruct H. Qed.

(** The sidecar expects this client: its audience, its window, its key, and a
    nonce it has not seen. *)
Record expects (p : Proxy) s (a : Ask) (expires now : Z) (replay replay' : C) : Prop := {
  ex_names : str_wf (p_server_signer p) /\ str_wf (p_key_id p);
  ex_version : p_version_policy p = Draft01AndDraft02;
  ex_audience : a_audience a = expected_audience (p_config p);
  ex_window : saturating_sub (now_unix (s_clock s)) (max_clock_skew_secs (p_config p)) <= now
              <= saturating_add expires (max_clock_skew_secs (p_config p));
  ex_key : p_resolver p (hs_signer (s_signer s)) (hs_key_id (s_signer s)) = Ok (public_key (hs_signing_key (s_signer s)));
  ex_fresh : check_and_insert replay (hs_signer (s_signer s)) (a_audience a) (next_nonce s).1 expires = (Ok Fresh, replay');
}.

(** The session trusts this sidecar's response key. *)
Record trusts (resolver : TrustResolver) (p : Proxy) (key : VerificationKey) : Prop := {
  tr_laws : SignerLaws (p_signer p);
  tr_signs : signs (p_signer p);
  tr_public : response_public_key (p_signer p) = Ok key;
  tr_key : resolver (p_server_signer p) (p_key_id p) = Ok key;
}.

(** What the sidecar makes of the session's request. *)
Lemma ask_verified s a expires bs v pre p now replay replay' :
  ask_wf a -> can_stamp s a expires -> well_shaped bs v -> envelope01 v (session_envelope s a expires pre) ->
  signed_by Request v pre (req_signature (session_envelope s a expires pre)) (public_key (hs_signing_key (s_signer s))) ->
  expects p s a expires now replay replay' ->
  verify_request_dispatch bs (p_resolver p) (p_config p) now (p_version_policy p) replay =
    (Ok (verdict (claims01 (session_envelope s a expires pre)) (Draft01Hash (a_authorization_hash a)) None pre), replay').
Proof.
  intros (_ & _ & Hob & _) [_ _ Hexp Hpos [Hlo Hhi]] Hsh He Hs [_ Hver Haud Hwin Hkey Hfresh]. rewrite Hver.
  assert (He' : expires = now_unix (s_clock s) + request_lifetime_secs s).
  { unfold checked_add_i64 in Hexp. case_bool_decide; by simplify_eq. }
  rewrite (dispatch_draft01 _ _ _ _ v (session_envelope s a expires pre) pre expires); [|exact Hsh|exact He|].
  - apply commit_Ok. split; [exact Hfresh|reflexivity].
  - split; [exact Hob|]. split; [exact Haud|]. split.
    + exists (now_unix (s_clock s)). split; [apply parse_unix_to_rfc3339; lia|].
      split; [apply parse_unix_to_rfc3339; lia|]. split; [lia|exact Hwin].
    + exists (public_key (hs_signing_key (s_signer s))). split; [exact Hkey|exact Hs].
Qed.

(** The session on an answer that verifies under the hash it remembers. *)
Lemma verify_and_unwrap_spec s answer resolver v id r u entry vresp :
  from_slice answer = Some v -> get (str "id") v = Some id -> s_pending s !! id_key id = Some entry ->
  verify_response answer resolver (hp_request_hash entry) = Ok vresp ->
  get (str "result") v = Some r -> unwrap_verified_result r = Ok u ->
  verify_and_unwrap_response s answer resolver =
  (Ok {| vres_verified := vresp; vres_unwrapped := u |}, with_pending s (delete (id_key id) (s_pending s))).
Proof.
  intros Hf Hi Hp Hv Hr Hu. unfold verify_and_unwrap_response, session_verify_response, response_id.
  rewrite Hf. cbn [ok_or]. rewrite Hi. cbn [ok_or]. rewrite Hp, Hv, Hr. cbn [ok_or]. by rewrite Hu.
Qed.

(** What the session accepts as the answer to a request it remembers. *)
Definition session_answer s (bs : bytes) (resolver : TrustResolver) (k : bytes) (r : VerifiedResponse) : Prop :=
  exists v id entry e pre key, well_shaped bs v /\ get (str "id") v = Some id /\ k = id_key id /\
    s_pending s !! k = Some entry /\ response01 v e /\ resolver (resp_server_signer e) (key_id (resp_signature e)) = Ok key /\
    signed_by Response v pre (resp_signature e) key /\ resp_request_hash e = hp_request_hash entry /\
    r = {| vresp_server_signer := resp_server_signer e; vresp_key_id := key_id (resp_signature e);
           vresp_request_hash := hp_request_hash entry |}.

Lemma session_verify_cases s bs resolver :
  (exists k r, session_answer s bs resolver k r /\
     session_verify_response s bs resolver = (Ok r, with_pending s (delete k (s_pending s)))) \/
  (exists e, session_verify_response s bs resolver = (Err e, s) /\ forall k r, ~ session_answer s bs resolver k r).
Proof.
  unfold session_verify_response, session_answer, response_id.
  destruct (from_slice bs) as [v|] eqn:Ev; cbn [ok_or].
  2:{ right. eexists. split; [done|]. intros k r (v & id & entry & e & pre & key & (Hf & _) & _). congruence. }
  destruct (get (str "id") v) as [id|] eqn:Ei; cbn [ok_or].
  2:{ right. eexists. split; [done|]. intros k r (v' & id & entry & e & pre & key & (Hf & _) & Hi & _). congruence. }
  destruct (s_pending s !! id_key id) as [entry|] eqn:Ep.
  2:{ right. eexists. split; [done|]. intros k r (v' & id' & entry & e & pre & key & (Hf & _) & Hi & -> & Hp & _). congruence. }
  destruct (verify_response bs resolver (hp_request_hash entry)) as [r|err] eqn:Er.
  - left. exists (id_key id), r. split; [|done].
    apply verify_response_Ok in Er as (v' & e & pre & key & Hsh & Hr & Hk & Hs & Hh & Hr'). pose proof (proj1 Hsh).
    assert (v' = v) as -> by congruence. exists v, id, entry, e, pre, key. by split_and!.
  - right. exists err. split; [done|].
    intros k r (v' & id' & entry' & e & pre & key & Hsh & Hi & -> & Hp & Hr & Hk & Hs & Hh & ->). pose proof (proj1 Hsh).
    assert (v' = v) as -> by congruence. rewrite Ei in Hi. injection Hi as <-. rewrite Ep in Hp. injection Hp as <-.
    assert (E : verify_response bs resolver (hp_request_hash entry) = Ok {| vresp_server_signer := resp_server_signer e;
      vresp_key_id := key_id (resp_signature e); vresp_request_hash := hp_request_hash entry |}).
    { apply verify_response_Ok. exists v, e, pre, key. by split_and!. }
    congruence.
Qed.

(** A response is consumed once and only for what was asked: the session
    accepts bytes exactly when they are a response signed by an enrolled
    server, bound to the hash remembered for their id; accepting forgets that
    id and nothing else, so no second answer for it is accepted before it is
    signed for again, and a refusal changes nothing. *)
Theorem session_consumes_once s bs resolver :
  (exists k r, session_answer s bs resolver k r /\
     session_verify_response s bs resolver = (Ok r, with_pending s (delete k (s_pending s))) /\
     forall bs' resolver' r', ~ session_answer (with_pending s (delete k (s_pending s))) bs' resolver' k r') \/
  (exists e, session_verify_response s bs resolver = (Err e, s) /\ forall k r, ~ session_answer s bs resolver k r).
Proof.
  destruct (session_verify_cases s bs resolver) as [(k & r & Ha & Hv)|He]; [left|by right].
  exists k, r. split; [done|]. split; [done|].
  intros bs' resolver' r' (v & id & entry & e & pre & key & _ & _ & _ & Hp & _). cbn in Hp. by rewrite lookup_delete_eq in Hp.
Qed.

(** C24: The whole exchange: a session whose id is free signs the request; a
    sidecar that expects this client reads in it exactly the session's claims
    and forwards it; and, when its policy and channel admit the request and
    the inner server's answer is JSON with room in its nesting, the handler
    sends that one message to the inner server and returns an answer which
    the session verifies against the hash it remembered, unwraps to the inner
    server's own answer, and then forgets the id. *)
Theorem session_exchange s a expires p now ti header (w : World C Srv) replay replay' resolver key :
  host_wf (s_signer s) -> ask_wf a -> scalar_id (a_id a) -> can_stamp s a expires ->
  w_replay w = Some replay -> expects p s a expires now replay replay' -> trusts resolver p key ->
  exists bs s1 vr fwd, sign_ask s a = (Returns (Ok bs), s1) /\
    vr_verified_signer vr = hs_signer (s_signer s) /\ vr_on_behalf_of vr = a_on_behalf_of a /\
    vr_authorization vr = Draft01Hash (a_authorization_hash a) /\
    stored_request_hash s1 (a_id a) = Some (vr_request_hash vr) /\
    build_forwarded_request p bs vr now = Returns (Ok fwd) /\
    (policy_allows p bs now vr -> channel_bound p now ti header vr ->
     forall inner, from_slice (inner_dispatch (w_inner w) fwd).1 = Some inner -> ~ bad_meta inner -> safe 125 inner ->
     exists answer w' r s2, handle_with_transport p bs now ti header w = (Returns answer, w') /\
       dispatched (w_effects w') = dispatched (w_effects w) ++ [fwd] /\
       verify_and_unwrap_response s1 answer resolver = (Ok r, s2) /\ s_pending s2 = s_pending s /\
       vresp_server_signer (vres_verified r) = p_server_signer p /\
       (~ ambiguous inner -> unwrapped_equiv (inner_payload inner) (vres_unwrapped r))).
Proof.
  intros Hh Ha Hsc Hst Hw Hex Htr.
  destruct (sign_ask_spec s a expires Hh Ha Hst) as (bs & v & pre & s1 & Hsign & Hpend & Hsh & (i & Hi & Hqi) & He & Hs).
  apply (scalar_id_equiv _ _ Hsc) in Hqi. subst i.
  pose proof (ask_verified _ _ _ _ _ _ _ _ _ _ Ha Hst Hsh He Hs Hex) as Hv.
  set (vr := verdict _ _ _ _) in Hv. destruct (accepted_forwards _ _ _ _ _ _ Hv) as [fwd Hf].
  assert (Hid : answer_id bs = a_id a) by (unfold answer_id; rewrite (proj1 Hsh); cbn; by rewrite Hi).
  exists bs, s1, vr, fwd. refine (conj Hsign (conj eq_refl (conj eq_refl (conj eq_refl (conj _ (conj Hf _)))))).
  { unfold stored_request_hash. by rewrite Hpend, lookup_insert_eq. }
  intros Hpol Hch inner Hin Hbad Hsafe.
  destruct Hex as [[W1 W2] _ _ _ _ _], Htr as [T1 T2 T3 T4], Ha as ((_ & _ & _ & _ & Hsi & _) & _).
  destruct (answer_roundtrip_holds p bs now replay replay' vr _ inner resolver key W1 W2 Hv Hin Hbad Hsafe
    ltac:(by rewrite Hid) T1 T2 T3 T4) as (answer & av & i & r & u & Hb & Hver & Hav & Hai & Hqi & Hr & Hu & Hund).
  rewrite Hid in Hqi. apply (scalar_id_equiv _ _ Hsc) in Hqi. subst i.
  destruct (handle_cases p bs now ti header w) as [(replay2 & vr2 & replay2' & Hw2 & (Hv2 & _) & Hhd)|[Hno _]].
  2:{ by destruct (Hno _ _ _ Hw (conj Hv (conj Hpol Hch))). }
  rewrite Hw in Hw2. injection Hw2 as <-. rewrite Hv in Hv2. injection Hv2 as <- <-.
  destruct (dispatch_and_sign _ _ _ _ _ _) as [out w'] eqn:Ed.
  destruct (dispatch_and_sign_world _ _ _ _ _ _ _ _ _ Hf Ed) as (_ & _ & Hd & Ho). cbn [with_replay w_inner w_effects] in *.
  rewrite Hb in Ho. subst out. exists answer, w'. do 2 eexists.
  set (entry := {| hp_request_hash := sha256_hash_id pre; expires_at_unix := expires |}) in *.
  change (verify_response answer resolver (hp_request_hash entry) = Ok {| vresp_server_signer := p_server_signer p;
    vresp_key_id := p_key_id p; vresp_request_hash := sha256_hash_id pre |}) in Hver.
  refine (conj Hhd (conj Hd (conj (verify_and_unwrap_spec s1 answer resolver av (a_id a) r u entry _ Hav Hai _ Hver Hr Hu) (conj _ (conj eq_refl Hund))))).
  - rewrite Hpend. apply lookup_insert_eq.
  - cbn [s_pending with_pending]. rewrite Hpend. apply delete_insert_id. apply Hst.
Qed.
End Session.
End Host.

(** ** On the sample sidecar *)

Import Toy ToyPolicy ToyProxy.

Definition sample_host : HostSigner := {| hs_signing_key := sample_key; hs_signer := str "did:a"; hs_key_id := str "k1" |}.

Definition sample_session : HostSession FixedClock SeededNonceSource :=
  with_defaults sample_host {| fixed_now := 1704067300 |} (seeded_new [1; 2; 3]).

Definition sample_ask : Ask := {|
  a_id := VNumber (PosInt 7); a_method := str "tools/call"; a_params := sample_params;
  a_on_behalf_of := str "user:u"; a_audience := str "did:srv"; a_authorization_hash := str "sha256:aa" |}.

Definition sample_exchange_replay : InMemoryReplayCache :=
  (check_and_insert sample_replay (str "did:a") (str "did:srv") (next_nonce sample_session).1 1704067600).2.

Lemma sample_session_conditions :
  host_wf sample_host /\ ask_wf sample_ask /\ can_stamp sample_session sample_ask 1704067600 /\
  expects sample_proxy sample_session sample_ask 1704067600 sample_now sample_replay sample_exchange_replay /\
  trusts sample_resolver sample_proxy (public_key sample_key).
Proof.
  split_and!.
  - split; solve_str_wf.
  - split; [exact sample_sendable|]. split; [solve_str_wf|]. split; [discriminate|].
    split; [solve_str_wf|]. split; [solve_str_wf|reflexivity].
  - split; [|reflexivity|vm_compute; reflexivity|apply (bool_decide_unpack _); vm_compute; exact I|].
    + by apply (bool_decide_unpack _); vm_compute.
    + split; apply (bool_decide_unpack _); vm_compute; exact I.
  - split; [split; solve_str_wf|reflexivity|reflexivity| |reflexivity|].
    + apply (bool_decide_unpack _). vm_compute. exact I.
    + unfold sample_exchange_replay. vm_compute. reflexivity.
  - split; [apply signing_key_signer_laws| |reflexivity|reflexivity].
    intros pre. exists (sign sample_key pre). split; [reflexivity|apply sign_wf].
Qed.

Lemma session_exchange_witness :
  exists bs s1 answer w' r s2, sign_ask sample_session sample_ask = (Returns (Ok bs), s1) /\
    @handle_with_transport _ _ _ _ _ _ _ _ _ _ (toy_inner good_answer) sample_proxy bs sample_now None None sample_world
      = (Returns answer, w') /\
    verify_and_unwrap_response s1 answer sample_resolver = (Ok r, s2) /\ s_pending s2 = ∅ /\
    unwrapped_equiv (inner_payload good_inner) (vres_unwrapped r).
Proof.
  destruct sample_session_conditions as (Hh & Ha & Hst & Hex & Htr).
  destruct (session_exchange (IS := toy_inner good_answer)
    sample_session sample_ask 1704067600 sample_proxy sample_now None None sample_world sample_replay
    sample_exchange_replay sample_resolver (public_key sample_key) Hh Ha I Hst eq_refl Hex Htr) as
    (bs & s1 & vr & fwd & Hs & _ & _ & _ & _ & _ & Hgo).
  destruct (Hgo ltac:(intros pe Hpe; discriminate Hpe) I good_inner) as (answer & w' & r & s2 & H1 & _ & H3 & H4 & _ & H6).
  - vm_compute. reflexivity.
  - intros (m & x & [= <-] & Hx & _). discriminate Hx.
  - vm_compute. reflexivity.
  - exists bs, s1, answer, w', r, s2. split; [exact Hs|]. split; [exact H1|]. split; [exact H3|]. split; [exact H4|].
    apply H6. intros (m & k & x & [= <-] & [= <- _] & [Hk|Hk]); discriminate Hk.
Defined.

(** A session that waits for the answer to the sample request. *)
Definition sample_waiting : HostSession FixedClock SeededNonceSource :=
  with_pending sample_session {[ id_key (VNumber (PosInt 1)) := {| hp_request_hash := sample_hash01; expires_at_unix := 1704067500 |} ]}.
