(* ===== verification/ClientProxy.v ===== *)
(** * The client-side proxy

    [mcps-client-proxy/src/proxy.rs], [route.rs] and [transport.rs]: plain MCP
    in, a signed exchange with the remote endpoint, plain MCP out.  The remote
    leg is an interface with a state of its own, so that a run shows what was
    sent. *)

From S2P Require Import Prelude Utf8 Errors Json Canonical Strings Time Crypto Transport Signing Values Envelope.
From S2P Require Import Instances Replay Resolver Constraints Pipeline Samples PipelineSpec PipelineTheorems.
From S2P Require Import PipelineResponses Unwrap Graft Policy PolicySpec KeySource Proxy ClientRequest.
From S2P Require Import ClientRequestTheorems ProxyMeta ProxyTheorems ProxyResponses ProxyClient ClientResponse.
From S2P Require Import ClientAudience Correlation HostSession.

(** ** route.rs *)

Record Route : Type := {
  rt_route_id : rstr;
  enforcement_mode : EnforcementMode;
  legacy_allowed : bool;
  signer_audience : SignerAudienceBinding;
  authz_policy : AuthorizationBindingPolicy;
  authz_provider : AuthorizationBindingProvider;
}.

Record RouteRegistry : Type := { routes : gmap rstr Route }.

Definition registry_new : RouteRegistry := {| routes := ∅ |}.

Definition registry_register (r : RouteRegistry) (route : Route) : RouteRegistry :=
  {| routes := <[rt_route_id route := route]> (routes r) |}.

Definition registry_get (r : RouteRegistry) (route_id : rstr) : option Route := routes r !! route_id.

(** ** transport.rs *)

(** [TransportError] of the remote leg. *)
Record RemoteError : Type := { detail : rstr }.

(** [trait RemoteTransport], with the state of the other side. *)
Class RemoteTransport (Net : Type) := round_trip : Net -> bytes -> result bytes RemoteError * Net.

Inductive ProxyError : Type :=
| UnknownRoute (route_id : rstr)
| MalformedRequest
| TransportFailed (e : RemoteError)
| FailedClosed (e : McpsError).

Definition proxy_wire_code (e : ProxyError) : option rstr :=
  match e with FailedClosed error => Some (wire_code error) | _ => None end.

(** [impl From<McpsError>], behind [?]. *)
Definition failed {A} (r : result A McpsError) : result A ProxyError := map_err FailedClosed r.

(** ** proxy.rs *)

Record CallParams : Type := {
  cp_on_behalf_of : rstr;
  cp_nonce : rstr;
  cp_issued_at : rstr;
  cp_expires_at : rstr;
  cp_now_unix : Z;
  cp_deadline_unix : Z;
}.

Record ProxyResponse : Type := {
  pr_plain_response : Value;
  pr_audit : ClientAuditEvent;
  pr_path : ClientPath;
}.

Definition binding_digest (b : AuthorizationBinding) : rstr :=
  match b with
  | OpaqueBytes _ digest_value => digest_value
  | AuthzSystemReference _ _ _ _ digest_value => digest_value
  end.

Section ClientProxy.
Context `{SerdeJson, !SerdeSer, Base64, Sha2, DK : Dalek, !Deserialize Draft02ResponseEnvelope}.
Context `{RT : RemoteTransport Net}.

Record ClientProxy : Type := {
  registry : RouteRegistry;
  px_signer : ClientSigner;
  px_signer_policy : SignerPolicy;
  trust_resolver : TrustResolver;
  px_transport : Net;
  correlation : CorrelationStore;
}.

Definition client_proxy_new (registry : RouteRegistry) (signer : ClientSigner) (signer_policy : SignerPolicy)
    (trust_resolver : TrustResolver) (transport : Net) : ClientProxy := {|
  registry := registry; px_signer := signer; px_signer_policy := signer_policy;
  trust_resolver := trust_resolver; px_transport := transport; correlation := correlation_new |}.

Definition with_correlation (c : ClientProxy) (s : CorrelationStore) : ClientProxy := {|
  registry := registry c; px_signer := px_signer c; px_signer_policy := px_signer_policy c;
  trust_resolver := trust_resolver c; px_transport := px_transport c; correlation := s |}.

Definition with_transport (c : ClientProxy) (t : Net) : ClientProxy := {|
  registry := registry c; px_signer := px_signer c; px_signer_policy := px_signer_policy c;
  trust_resolver := trust_resolver c; px_transport := t; correlation := correlation c |}.

(** [id.to_string()]: the compact JSON text. *)
Definition id_text (id : Value) : rstr := default [] (to_vec id ≫= from_utf8).

(** The parts of the plain request the proxy reads. *)
Definition request_id (plain_request : Value) : Value := default VNull (get (str "id") plain_request).

Definition request_params (plain_request : Value) : Map :=
  default [] (get (str "params") plain_request ≫= as_object).

Definition call_context (route : Route) (route_id method : rstr) (req_params : Map) (params : CallParams)
  : BindingRequestContext := {|
  ctx_audience := audience_string (signer_audience route); ctx_route_id := route_id; ctx_method := Some method;
  ctx_tool_id := map_get (str "name") req_params ≫= as_str; ctx_deadline_unix := cp_deadline_unix params |}.

Definition call_inputs (c : ClientProxy) (route : Route) (binding : AuthorizationBinding) (params : CallParams)
  : RequestSigningInputs :=
  with_default_canonicalization (signer_id (px_signer c)) (signer_key_id (px_signer c)) (cp_on_behalf_of params)
    (audience_string (signer_audience route)) binding (cp_nonce params) (cp_issued_at params) (cp_expires_at params).

(** Parse, resolve the binding and sign: everything before the first effect. *)
Definition sign_call (c : ClientProxy) (route : Route) (route_id : rstr) (plain_request : Value) (params : CallParams)
  : outcome (result (AuthorizationBinding * SignedRequest) ProxyError) :=
  match get (str "method") plain_request ≫= as_str with
  | None => Returns (Err MalformedRequest)
  | Some method =>
      let req_params := request_params plain_request in
      match resolve_authorization_binding (authz_provider route) (authz_policy route)
              (call_context route route_id method req_params params) with
      | Err e => Returns (Err (FailedClosed e))
      | Ok binding =>
          match build_signed_request_with_signer (request_id plain_request) method req_params
                  (call_inputs c route binding params) (px_signer c) (px_signer_policy c) with
          | Panics => Panics
          | Returns r => Returns (let? signed := failed r in Ok (binding, signed))
          end
      end
  end.

Definition pending_call (route : Route) (route_id : rstr) (id : Value) (binding : AuthorizationBinding)
    (signed : SignedRequest) (params : CallParams) : PendingRequest := {|
  correlation_id := id_text id; pr_request_hash := sr_request_hash signed; pr_nonce := cp_nonce params;
  issued_at_unix := cp_now_unix params; deadline_unix := cp_deadline_unix params; pr_route_id := route_id;
  pr_audience := audience_string (signer_audience route);
  expected_server_signers := [sab_expected_server_signer (signer_audience route)];
  pr_version := VERSION_DRAFT_02; pr_canonicalization_id := CANONICALIZATION_ID_INT53_V1;
  authz_digest := binding_digest binding |}.

Definition call_expectation (route : Route) (signed : SignedRequest) : ResponseExpectation :=
  with_expected_server_signer (expectation_new (sr_request_hash signed) CANONICALIZATION_ID_INT53_V1)
    (sab_expected_server_signer (signer_audience route)).

Definition plain_message (id : Value) (u : UnwrappedResult) : Value :=
  json_object [(str "jsonrpc", VString (str "2.0")); (str "id", id); (str "result", into_value u)].

Definition plain_response_from_verified (id : Value) (response_bytes : bytes) : result Value ProxyError :=
  let? object := ok_or (from_slice response_bytes) (FailedClosed CanonicalizationFailed) in
  let? result := ok_or (get (str "result") object) (FailedClosed CanonicalizationFailed) in
  let? unwrapped := failed (unwrap_verified_result result) in
  Ok (plain_message id unwrapped).

(** The decision on a response that correlated. *)
Definition deliver (route : Route) (id : Value) (response_bytes : bytes) (outcome : EvidenceOutcome)
  : result ProxyResponse ProxyError :=
  let decision := decide_outcome (enforcement_mode route) (legacy_allowed route) outcome in
  let audit := audit_for_decision decision in
  match decision with
  | AcceptMcps =>
      let? plain := plain_response_from_verified id response_bytes in
      Ok {| pr_plain_response := plain; pr_audit := audit; pr_path := McpsVerified |}
  | FallBackToLegacy _ =>
      let? plain := ok_or (from_slice response_bytes) MalformedRequest in
      Ok {| pr_plain_response := plain; pr_audit := audit; pr_path := LegacyExplicit |}
  | FailClosed err => Err (FailedClosed err)
  end.

(** A failed remote leg: no evidence, and nothing to fall back to. *)
Definition transport_failure (route : Route) (e : RemoteError) : ProxyError :=
  match decide_outcome (enforcement_mode route) (legacy_allowed route) (Absent TransportFailurePreEvidence) with
  | FailClosed err => FailedClosed err
  | _ => TransportFailed e
  end.

Definition handle (c : ClientProxy) (route_id : rstr) (plain_request : Value) (params : CallParams)
  : outcome (result ProxyResponse ProxyError) * ClientProxy :=
  match registry_get (registry c) route_id with
  | None => (Returns (Err (UnknownRoute route_id)), c)
  | Some route =>
      let id := request_id plain_request in
      match sign_call c route route_id plain_request params with
      | Panics => (Panics, c)
      | Returns (Err e) => (Returns (Err e), c)
      | Returns (Ok (binding, signed)) =>
          match correlation_register (correlation c) (pending_call route route_id id binding signed params)
                  (cp_now_unix params) with
          | (Err e, s1) => (Returns (Err (FailedClosed (correlation_to_mcps_error e))), with_correlation c s1)
          | (Ok _, s1) =>
              match round_trip (px_transport c) (wire_bytes signed) with
              | (Err e, net) =>
                  let (_, s2) := cancel s1 (id_text id) in
                  (Returns (Err (transport_failure route e)), with_transport (with_correlation c s2) net)
              | (Ok response_bytes, net) =>
                  let outcome := classify_response_result
                                   (verify_signed_response response_bytes (trust_resolver c) (call_expectation route signed)) in
                  match take_for_response s1 (id_text id) (cp_now_unix params) with
                  | (Err e, s2) =>
                      (Returns (Err (FailedClosed (correlation_to_mcps_error e))), with_transport (with_correlation c s2) net)
                  | (Ok _, s2) =>
                      (Returns (deliver route id response_bytes outcome), with_transport (with_correlation c s2) net)
                  end
              end
          end
      end
  end.
End ClientProxy.
Arguments ClientProxy {DK} Net.

(** ** What the client-side proxy guarantees

    Its calls leave the correlation store as they found it, send only what the
    admitted signer signed, and hand back only verified answers or explicitly
    allowed plain ones; with the sidecar on the other side of the remote leg,
    the caller gets the inner server's answer. *)

Section Calls.
Context `{SJ : SerdeJson, SS : !SerdeSer, B64 : !Base64, SH : !Sha2, DK : !Dalek}.
Context `{D4 : !Deserialize Draft02ResponseEnvelope}.
Context `{RT : RemoteTransport Net}.

(** The request of a call, signed by the admitted signer. *)
Definition call_signed (c : ClientProxy Net) (route_id : rstr) (req : Value) (params : CallParams) (route : Route)
    (binding : AuthorizationBinding) (signed : SignedRequest) : Prop :=
  registry_get (registry c) route_id = Some route /\
  sign_call c route route_id req params = Returns (Ok (binding, signed)) /\ custody_admitted (px_signer_policy c) (px_signer c).

Lemma sign_call_admitted (c : ClientProxy Net) route route_id req params binding signed :
  sign_call c route route_id req params = Returns (Ok (binding, signed)) -> custody_admitted (px_signer_policy c) (px_signer c).
Proof.
  unfold sign_call, build_signed_request_with_signer. intros H.
  destruct (get _ req ≫= as_str); [|done]. destruct (resolve_authorization_binding _ _ _); [|done].
  destruct (authorize_signer _ _) as [u|] eqn:E; [|done]. by apply authorize_signer_Ok in E.
Qed.

Lemma registered_fresh s r now u s1 :
  correlation_register s r now = (Ok u, s1) ->
  pending s !! correlation_id r = None /\ (forall d, nonce_window s !! pr_nonce r = Some d -> d <= now) /\
  s1 = {| pending := <[correlation_id r := r]> (pending s); nonce_window := <[pr_nonce r := deadline_unix r]> (nonce_window s) |}.
Proof.
  unfold correlation_register. case_bool_decide as Hd; [done|]. apply eq_None_not_Some in Hd.
  destruct (nonce_window s !! pr_nonce r) as [d|]; [destruct (Z.ltb_spec now d); [done|]|]; intros [= _ <-]; split_and!; try done.
  intros ? [= <-]. lia.
Qed.

Lemma register_error_state s r now e s1 : correlation_register s r now = (Err e, s1) -> s1 = s.
Proof. unfold correlation_register. case_bool_decide; [congruence|]. destruct (match _ with Some _ => _ | None => _ end); congruence. Qed.

Lemma with_correlation_same (c : ClientProxy Net) : with_correlation c (correlation c) = c.
Proof. by destruct c. Qed.

(** Taking the entry just registered. *)
Lemma take_registered s r now :
  pending s !! correlation_id r = None ->
  let s1 := {| pending := <[correlation_id r := r]> (pending s); nonce_window := <[pr_nonce r := deadline_unix r]> (nonce_window s) |} in
  take_for_response s1 (correlation_id r) now =
  (if deadline_unix r <? now then Err CorrelationExpired else Ok r,
   {| pending := pending s; nonce_window := <[pr_nonce r := deadline_unix r]> (nonce_window s) |}).
Proof.
  intros Hd. unfold take_for_response. cbn [pending nonce_window]. rewrite lookup_insert_eq, delete_insert_id by done.
  by destruct (deadline_unix r <? now).
Qed.

(** What became of a call: it failed before anything was sent and changed
    nothing, or its one message was sent under a nonce out of its window. *)
Lemma handle_runs (c : ClientProxy Net) route_id req params :
  (exists e, handle c route_id req params = (e, c) /\ (forall r, e <> Returns (Ok r))) \/
  exists route binding signed, call_signed c route_id req params route binding signed /\
    (forall d, nonce_window (correlation c) !! cp_nonce params = Some d -> d <= cp_now_unix params) /\
    pending (correlation c) !! id_text (request_id req) = None /\
    let (res, net) := round_trip (px_transport c) (wire_bytes signed) in
    handle c route_id req params =
    (Returns (match res with
              | Err e => Err (transport_failure route e)
              | Ok bs => if cp_deadline_unix params <? cp_now_unix params then Err (FailedClosed ExpiredRequest)
                         else deliver route (request_id req) bs (classify_response_result
                                (verify_signed_response bs (trust_resolver c) (call_expectation route signed)))
              end),
     with_transport (with_correlation c {| pending := pending (correlation c);
       nonce_window := <[cp_nonce params := cp_deadline_unix params]> (nonce_window (correlation c)) |}) net).
Proof.
  unfold handle, call_signed. destruct (registry_get _ _) as [route|] eqn:Er; [|left; by eexists].
  destruct (sign_call _ _ _ _ _) as [[[binding signed]|e]|] eqn:Es; [|left; by eexists..].
  pose proof (sign_call_admitted _ _ _ _ _ _ _ Es) as Ha.
  set (r := pending_call route route_id (request_id req) binding signed params).
  destruct (correlation_register _ r _) as [[u|e] s1] eqn:Ereg.
  2:{ left. apply register_error_state in Ereg as ->. eexists. rewrite with_correlation_same. by split. }
  right. apply registered_fresh in Ereg as (Hp & Hn & ->). exists route, binding, signed.
  split_and!; try done. destruct (round_trip _ _) as [[bs|e] net].
  - change (id_text (request_id req)) with (correlation_id r). rewrite take_registered by done. cbn [deadline_unix r pending_call].
    by destruct (cp_deadline_unix params <? cp_now_unix params).
  - unfold cancel. cbn [pending nonce_window]. by rewrite delete_insert_id.
Qed.

(** A signed call with a free id and nonce is sent. *)
Lemma handle_sent (c : ClientProxy Net) route_id req params route binding signed bs net :
  call_signed c route_id req params route binding signed -> pending (correlation c) !! id_text (request_id req) = None ->
  (forall d, nonce_window (correlation c) !! cp_nonce params = Some d -> d <= cp_now_unix params) ->
  cp_now_unix params <= cp_deadline_unix params -> round_trip (px_transport c) (wire_bytes signed) = (Ok bs, net) ->
  exists c', handle c route_id req params =
    (Returns (deliver route (request_id req) bs (classify_response_result
       (verify_signed_response bs (trust_resolver c) (call_expectation route signed)))), c') /\
    px_transport c' = net /\ pending (correlation c') = pending (correlation c).
Proof.
  intros (Hr & Hs & _) Hp Hn Hd Hrt. unfold handle. rewrite Hr, Hs.
  set (r := pending_call route route_id (request_id req) binding signed params).
  unfold correlation_register. rewrite bool_decide_eq_false_2 by (by apply eq_None_not_Some).
  assert (E : match nonce_window (correlation c) !! pr_nonce r with Some d => cp_now_unix params <? d | None => false end = false).
  { destruct (nonce_window _ !! _) as [d|] eqn:E; [|done]. apply Z.ltb_ge. by apply Hn. }
  rewrite E, Hrt. change (id_text (request_id req)) with (correlation_id r). rewrite take_registered by done.
  cbn [deadline_unix r pending_call]. rewrite (proj2 (Z.ltb_ge _ _)) by done. eexists. by split_and!.
Qed.

(** ** What is handed back *)

Context `{SJL : !SerdeJsonLaws}.
Context `{L4 : !DeserializeLaws Draft02ResponseEnvelope}.

(** A verified answer, unwrapped under the caller's own id. *)
Definition verified_delivery (resolver : TrustResolver) (route : Route) (signed : SignedRequest) (req : Value) (bs : bytes)
    (r : ProxyResponse) : Prop :=
  exists vr v res u, evidence bs resolver (call_expectation route signed) vr /\ from_slice bs = Some v /\
    get (str "result") v = Some res /\ unwrap_verified_result res = Ok u /\
    r = {| pr_plain_response := plain_message (request_id req) u; pr_audit := accepted_mcps; pr_path := McpsVerified |}.

(** A plain answer on a route that allows it, audited as such. *)
Definition legacy_delivery (route : Route) (bs : bytes) (r : ProxyResponse) : Prop :=
  enforcement_mode route = AllowLegacyExplicit /\ legacy_allowed route = true /\
  exists v, from_slice bs = Some v /\ has_signature_block Response v = false /\
    r = {| pr_plain_response := v; pr_audit := fell_back_to_legacy PlainUnsigned; pr_path := LegacyExplicit |}.

Lemma classified_absent bs resolver x reason :
  classify_response_result (verify_signed_response bs resolver x) = Absent reason ->
  reason = PlainUnsigned /\ exists v, from_slice bs = Some v /\ has_signature_block Response v = false.
Proof.
  intros H. unfold verify_signed_response in H.
  destruct (verify_response_draft02 _ _ _ _) as [r|e] eqn:E.
  - destruct (expected_server_signer x) as [s|]; [|done]. by destruct (negb _).
  - destruct e; cbn in H; simplify_eq. split; [done|]. by eapply missing_envelope_inv.
Qed.

Lemma deliver_Ok resolver route signed req bs r :
  deliver route (request_id req) bs
    (classify_response_result (verify_signed_response bs resolver (call_expectation route signed))) = Ok r ->
  verified_delivery resolver route signed req bs r \/ legacy_delivery route bs r.
Proof.
  destruct (classify_response_result _) as [vr|reason|e] eqn:Ec; unfold deliver; [|destruct (enforcement_mode route) eqn:Em|]; cbn; try done.
  - intros H. left. assert (Hv : verify_signed_response bs resolver (call_expectation route signed) = Ok vr).
    { destruct (verify_signed_response _ _ _) as [?|[]]; cbn in Ec; congruence. }
    apply verify_signed_response_Ok in Hv. unfold plain_response_from_verified in H.
    destruct (from_slice bs) as [v|] eqn:Ev; [|done]. cbn [ok_or] in H. destruct (get (str "result") v) as [res|] eqn:Er; [|done].
    cbn [ok_or] in H. destruct (unwrap_verified_result res) as [u|] eqn:Eu; [|done]. cbn in H. simplify_eq.
    exists vr, v, res, u. by split_and!.
  - apply classified_absent in Ec as (-> & v & Hv & Hs). destruct (legacy_allowed route) eqn:El; [|done].
    cbn. rewrite Hv. intros [= <-]. right. split_and!; [done..|]. by exists v.
Qed.

(** C26: The client proxy is a security adapter that cannot leak: every call, in
    every branch, leaves the table of outstanding requests as it found it and
    sends either nothing or exactly one message, which the admitted signer
    signed, under a nonce that is outside its replay window and is guarded
    from then on; and whatever it hands back as a success is either the
    unwrapped payload of a response that verifies for this very request under
    the route's pinned server, or, only on a route explicitly allowed and in
    migration mode, an answer that carries no signature block, and the audit
    record says which. *)
Theorem client_proxy_bright_line c route_id req params out c' :
  handle c route_id req params = (out, c') ->
  pending (correlation c') = pending (correlation c) /\
  (px_transport c' = px_transport c /\ (forall r, out <> Returns (Ok r)) \/
   exists route binding signed, call_signed c route_id req params route binding signed /\
     px_transport c' = (round_trip (px_transport c) (wire_bytes signed)).2 /\
     (forall d, nonce_window (correlation c) !! cp_nonce params = Some d -> d <= cp_now_unix params) /\
     nonce_window (correlation c') !! cp_nonce params = Some (cp_deadline_unix params) /\
     forall r, out = Returns (Ok r) -> exists bs, (round_trip (px_transport c) (wire_bytes signed)).1 = Ok bs /\
       cp_now_unix params <= cp_deadline_unix params /\
       (verified_delivery (trust_resolver c) route signed req bs r \/ legacy_delivery route bs r)).
Proof.
  intros H. destruct (handle_runs c route_id req params) as [(e & He & Hno)|(route & binding & signed & Hs & Hn & _ & Hrun)].
  - rewrite He in H. simplify_eq. split; [done|]. by left.
  - destruct (round_trip _ _) as [res net] eqn:Ert. rewrite Hrun in H. injection H as <- <-. split; [done|]. right.
    exists route, binding, signed. rewrite Ert. cbn. split_and!; try done; [apply lookup_insert_eq|].
    intros r [= Hr]. destruct res as [bs|]; [|done]. exists bs.
    destruct (Z.ltb_spec (cp_deadline_unix params) (cp_now_unix params)); [done|]. split_and!; [done..|]. by eapply deliver_Ok.
Qed.
End Calls.

(** ** With the sidecar on the other side *)
Section Exchange.
Context `{SJ : SerdeJson, SJL : !SerdeJsonLaws, SS : !SerdeSer, SSL : !SerdeSerLaws, SW : !SerdeWrites}.
Context `{B64 : !Base64, B64L : !Base64Laws, SH : !Sha2, SHL : !Sha2Laws, DK : !Dalek, DKL : !DalekLaws}.
Context `{D1 : !Deserialize RequestEnvelope, D2 : !Deserialize Draft02RequestEnvelope}.
Context `{L1 : !DeserializeLaws RequestEnvelope, L2 : !DeserializeLaws Draft02RequestEnvelope}.
Context `{D3 : !Deserialize ResponseEnvelope, D4 : !Deserialize Draft02ResponseEnvelope}.
Context `{L3 : !DeserializeLaws ResponseEnvelope, L4 : !DeserializeLaws Draft02ResponseEnvelope}.
Context `{RC : ReplayCache C, IS : InnerServer Srv}.

(** The remote leg that ends at the sidecar [p]; a handler that panics drops
    the connection. *)
Definition sidecar_net (p : Proxy) (now : Z) (ti : option TransportIdentity) : RemoteTransport (World C Srv) := fun w bs =>
  match handle_with_transport p bs now ti None w with
  | (Returns answer, w') => (Ok answer, w')
  | (Panics, w') => (Err {| detail := str "connection closed" |}, w')
  end.

(** The caller's side is in order: a configured route that binds the request,
    an admitted signer that signs, a free id and nonce, and time left. *)
Record call_ready (c : ClientProxy (World C Srv)) (route_id : rstr) (req : Value) (params : CallParams)
    (route : Route) (method : rstr) (binding : AuthorizationBinding) (key : VerificationKey) : Prop := {
  rd_route : registry_get (registry c) route_id = Some route;
  rd_method : get (str "method") req ≫= as_str = Some method;
  rd_sendable : sendable (request_id req) method (request_params req);
  rd_binding : resolve_authorization_binding (authz_provider route) (authz_policy route)
                 (call_context route route_id method (request_params req) params) = Ok binding;
  rd_admissible : binding_admissible binding;
  rd_inputs : inputs_wf (call_inputs c route binding params);
  rd_authorized : authorize_signer (px_signer_policy c) (px_signer c) = Ok tt;
  rd_signer : ClientSignerLaws (px_signer c) key;
  rd_signs : forall pre, is_ok (sign_preimage (px_signer c) pre) = true;
  rd_subject : cp_on_behalf_of params <> [];
  rd_free : pending (correlation c) !! id_text (request_id req) = None;
  rd_nonce : forall d, nonce_window (correlation c) !! cp_nonce params = Some d -> d <= cp_now_unix params;
  rd_deadline : cp_now_unix params <= cp_deadline_unix params;
}.

(** The sidecar expects this caller. *)
Record serves (p : Proxy) (now : Z) (c : ClientProxy (World C Srv)) (route : Route) (params : CallParams)
    (key : VerificationKey) (expires : Z) (replay replay' : C) : Prop := {
  sv_names : str_wf (p_server_signer p) /\ str_wf (p_key_id p);
  sv_pinned : sab_expected_server_signer (signer_audience route) = p_server_signer p;
  sv_audience : audience_string (signer_audience route) = expected_audience (p_config p);
  sv_window : check_freshness (cp_issued_at params) (cp_expires_at params) now (max_clock_skew_secs (p_config p)) = Ok tt;
  sv_expires : parse_rfc3339_utc (cp_expires_at params) = Ok expires;
  sv_key : p_resolver p (signer_id (px_signer c)) (signer_key_id (px_signer c)) = Ok key;
  sv_fresh : check_and_insert replay (signer_id (px_signer c)) (audience_string (signer_audience route)) (cp_nonce params) expires
             = (Ok Fresh, replay');
}.

(** A call that is ready is signed, and the sidecar accepts what was signed. *)
Lemma ready_signed c route_id req params route method binding key p now expires replay replay' :
  call_ready c route_id req params route method binding key -> serves p now c route params key expires replay replay' ->
  exists signed, call_signed c route_id req params route binding signed /\
    safe 126 (answer_id (wire_bytes signed)) /\
    verify_request_dispatch (wire_bytes signed) (p_resolver p) (p_config p) now (p_version_policy p) replay =
      (Ok (client_verdict (call_inputs c route binding params) (sr_request_hash signed)), replay').
Proof.
  intros [H1 H2 H3 H4 H5 H6 H7 H8 H9 H10 H11 H12 H13] [S1 S2 S3 S4 S5 S6 S7].
  destruct (client_request_accepted_holds (request_id req) method (request_params req) (call_inputs c route binding params)
    (px_signer c) (px_signer_policy c) key (p_resolver p) (p_config p) now (p_version_policy p) expires replay replay')
    as (signed & Hb & Hv & v & x & Hf & Hx & Hq); try done.
  exists signed. refine (conj (conj H1 (conj _ _)) (conj _ Hv)).
  - unfold sign_call. by rewrite H2, H4, Hb.
  - by apply authorize_signer_Ok in H7.
  - unfold answer_id. rewrite Hf. cbn [mbind option_bind]. rewrite Hx. cbn [default from_option].
    eapply safe_equiv; [|exact Hq|apply H3]. exact (value_wf_path [str "id"] v x (from_slice_wf _ _ Hf) ltac:(cbn; by rewrite Hx)).
Qed.

End Exchange.

(** ** On a sample route *)

Import Toy ToyPolicy ToyProxy.

Definition sample_binding_of_route : SignerAudienceBinding :=
  {| sab_expected_server_signer := str "did:srv"; sab_audience := sample_audience (str "t") |}.

Definition sample_route (mode : EnforcementMode) (allowed : bool) : Route := {|
  rt_route_id := str "r"; enforcement_mode := mode; legacy_allowed := allowed;
  signer_audience := sample_binding_of_route; authz_policy := both_base_forms;
  authz_provider := opaque_bytes_provider [1; 2; 3] |}.

Definition sample_call_proxy : Proxy :=
  proxy_new (signing_key_signer sample_key) (str "did:srv") (str "s1") sample_resolver
    (audience_string sample_binding_of_route) 60.

Definition sample_client (mode : EnforcementMode) (allowed : bool) : ClientProxy (World InMemoryReplayCache nat) :=
  client_proxy_new (registry_register registry_new (sample_route mode allowed)) sample_signer sample_signer_policy
    sample_resolver sample_world.

Definition sample_call : CallParams := {|
  cp_on_behalf_of := str "user:u"; cp_nonce := str "n4"; cp_issued_at := str "2024-01-01T00:00:00Z";
  cp_expires_at := str "2024-01-01T00:05:00Z"; cp_now_unix := sample_now; cp_deadline_unix := sample_now + 30 |}.

Definition sample_plain : Value := VObject
  [(str "jsonrpc", VString (str "2.0")); (str "id", VNumber (PosInt 7)); (str "method", VString (str "tools/call"));
   (str "params", VObject sample_params)].

Definition sample_call_run (mode : EnforcementMode) (allowed : bool) (answer : bytes) :=
  handle (RT := sidecar_net (IS := toy_inner answer) sample_call_proxy sample_now None)
    (sample_client mode allowed) (str "r") sample_plain sample_call.

Definition plain_of (r : outcome (result ProxyResponse ProxyError)) : option Value :=
  match r with Returns (Ok x) => Some (pr_plain_response x) | _ => None end.

(** The caller of a route gets the inner server's result. *)
Example sample_call_answered :
  plain_of (sample_call_run RequireMcps false good_answer).1 =
  Some (plain_message (VNumber (PosInt 7)) (UObject (VObject [(str "ok", VBool true)]))).
Proof. vm_compute. reflexivity. Qed.

Definition inner_error_answer : bytes :=
  json_text "{'jsonrpc':'2.0','id':7,'error':{'code':-32601,'message':'no such tool'}}".

(** An error of the inner server reaches the caller as a JSON-RPC success: the
    whole error message sits under [result], and there is no [error]. *)
Theorem inner_error_as_success :
  exists v x e, plain_of (sample_call_run RequireMcps false inner_error_answer).1 = Some v /\
    get (str "error") v = None /\ get (str "result") v = Some x /\ get (str "error") x = Some e.
Proof. do 3 eexists. split; [vm_compute; reflexivity|]. vm_compute. split_and!; reflexivity. Qed.

Lemma client_proxy_bright_line_witness :
  exists out c', sample_call_run RequireMcps false good_answer = (out, c') /\ pending (correlation c') = ∅.
Proof.
  destruct (sample_call_run RequireMcps false good_answer) as [out c'] eqn:E. exists out, c'. split; [reflexivity|].
  exact (proj1 (client_proxy_bright_line (RT := sidecar_net (IS := toy_inner good_answer) sample_call_proxy sample_now None)
    _ _ _ _ _ _ E)).
Defined.

Lemma sample_call_ready :
  call_ready (sample_client RequireMcps false) (str "r") sample_plain sample_call (sample_route RequireMcps false)
    (str "tools/call") (OpaqueBytes DIGEST_ALG_SHA256 (default [] (opaque_digest_value [1; 2; 3]))) (public_key sample_key).
Proof.
  split; try reflexivity; try done.
  - exact sample_sendable.
  - split_and!; try solve_str_wf. repeat constructor; cbn [snd]; solve_str_wf.
  - apply software_signer_laws.
Qed.

Definition sample_call_replay : InMemoryReplayCache :=
  (check_and_insert sample_replay (str "did:a") (audience_string sample_binding_of_route) (str "n4") 1704067500).2.

Lemma empty_cache_fresh skew s a n t :
  check_and_insert (in_memory_new skew) s a n t = (Ok Fresh, (check_and_insert (in_memory_new skew) s a n t).2).
Proof.
  destruct (in_memory_cases (in_memory_new skew) s a n t) as [(u & Hu & _)|(_ & c' & -> & _)]; [|done].
  change (seen (in_memory_new skew)) with (∅ : gmap (rstr * rstr * rstr) Z) in Hu. by rewrite lookup_empty in Hu.
Qed.

Lemma sample_serves :
  serves sample_call_proxy sample_now (sample_client RequireMcps false) (sample_route RequireMcps false) sample_call
    (public_key sample_key) 1704067500 sample_replay sample_call_replay.
Proof.
  split; [split; solve_str_wf|reflexivity|reflexivity|vm_compute; reflexivity|vm_compute; reflexivity|reflexivity|].
  exact (empty_cache_fresh 60 (str "did:a") (audience_string sample_binding_of_route) (str "n4") 1704067500).
Qed.

