(* ===== verification/Sandbox.v ===== *)
(** * Kernel containment of the inner server

    [mcps-proxy/src/sandbox.rs] and [sandbox_linux.rs]: the profile, its gate,
    the Landlock ruleset and the seccomp filter that the parent builds for it,
    and their enforcement in the child.  The crates [landlock], [seccompiler]
    and [libc] and the system calls behind them are classes. *)

From S2P Require Import Prelude Utf8 Errors Json Canonical Strings.

(** ** sandbox.rs *)

Inductive SandboxMode : Type := SandboxOff | SandboxEnforce.
Inductive NetworkPolicy : Type := DenyAll | AllowNet.

Record SandboxProfile : Type := {
  sb_mode : SandboxMode;
  fs_allow_read : list rstr;
  fs_allow_write : list rstr;
  network : NetworkPolicy;
}.
#[export] Instance SandboxProfile_settable : Settable SandboxProfile := fun s => {|
  sb_mode := sb_mode s; fs_allow_read := fs_allow_read s; fs_allow_write := fs_allow_write s; network := network s |}.

Definition sandbox_new : SandboxProfile := {| sb_mode := SandboxOff; fs_allow_read := []; fs_allow_write := []; network := DenyAll |}.

Definition is_enforced (s : SandboxProfile) : bool := match sb_mode s with SandboxEnforce => true | SandboxOff => false end.

(** ** The crates *)

(** The architectures the code distinguishes. *)
Inductive CfgArch : Type := ArchX86_64 | ArchAarch64 | ArchX86 | ArchOther.

(** [seccompiler::TargetArch]. *)
Inductive TargetArch : Type := TargetX86_64 | TargetAarch64.

Inductive SeccompAction : Type := ActAllow | ActErrno (errno : Z).
#[export] Instance SeccompAction_eq_dec : EqDecision SeccompAction.
Proof. solve_decision. Defined.

(** [SeccompFilter]: the keys of its map of rules.  Every chain the code
    inserts is the empty vector, an unconditional match. *)
Record SeccompFilter : Type := {
  sf_syscalls : gset Z;
  sf_default : SeccompAction;
  sf_match : SeccompAction;
  sf_arch : TargetArch;
}.

(** The compiled filter: a sequence of instructions. *)
Definition BpfProgram : Type := list Z.

(** [PathBeneath]: a directory or file that was opened, and the access rights
    (a bit mask of [AccessFs]) below it. *)
Record PathBeneath : Type := { pb_fd : Z; pb_access : Z }.

(** [RulesetCreated]: the rights it governs, and its rules. *)
Record RulesetCreated : Type := { rs_handled : Z; rs_rules : list PathBeneath }.

Inductive RulesetStatus : Type := FullyEnforced | PartiallyEnforced | NotEnforced.
#[export] Instance RulesetStatus_eq_dec : EqDecision RulesetStatus.
Proof. solve_decision. Defined.

(** What the parent uses of the three crates.  The rights are those of the
    required ABI; [hard] tells [CompatLevel::HardRequirement] from the default. *)
Class SandboxHost := {
  target_linux : bool;
  target_arch : CfgArch;
  SYS_socket : Z;
  SYS_connect : Z;
  SYS_io_uring_setup : Z;
  SYS_io_uring_enter : Z;
  SYS_io_uring_register : Z;
  SYS_socketcall : Z;
  EACCES : Z;
  access_from_read : Z;
  access_from_all : Z;
  handle_access_ok : bool -> Z -> bool;
  ruleset_create_ok : bool;
  path_fd : rstr -> option Z;
  add_rule_ok : PathBeneath -> bool;
  seccomp_filter_ok : SeccompFilter -> bool;
  bpf_compile : SeccompFilter -> option BpfProgram;
  bpf_verdict : BpfProgram -> Z -> SeccompAction;
}.

(** What the crates document: the compiled program gives the match action to
    the syscalls with a matching rule and the default one to the others. *)
Class SandboxHostLaws `{SandboxHost} : Prop := {
  bpf_compile_verdict f p nr :
    bpf_compile f = Some p -> bpf_verdict p nr = if decide (nr ∈ sf_syscalls f) then sf_match f else sf_default f;
}.

(** ** sandbox_linux.rs: the parent *)

Inductive SandboxError : Type :=
| UnsupportedArch | FilterBuild | FilterCompile | HandleAccess | RulesetCreate
| OpenPath (path : rstr) | AddRule (path : rstr).

(** [SandboxArtifacts]. *)
Record SandboxArtifacts : Type := { sa_ruleset : RulesetCreated; sa_egress_filter : option BpfProgram }.

Section Parent.
Context `{SandboxHost}.

Definition landlock_abi_is_enforceable : bool := handle_access_ok true access_from_all && ruleset_create_ok.

Definition backend_can_enforce : bool := if target_linux then landlock_abi_is_enforceable else false.

Definition current_target_arch : option TargetArch :=
  match target_arch with ArchX86_64 => Some TargetX86_64 | ArchAarch64 => Some TargetAarch64 | _ => None end.

Definition denied_egress_syscalls : list Z :=
  [SYS_socket; SYS_connect; SYS_io_uring_setup; SYS_io_uring_enter; SYS_io_uring_register] ++
  match target_arch with ArchX86 => [SYS_socketcall] | _ => [] end.

Definition build_egress_filter (net : NetworkPolicy) : result (option BpfProgram) SandboxError :=
  match net with
  | AllowNet => Ok None
  | DenyAll =>
      let? arch := ok_or current_target_arch UnsupportedArch in
      let filter := {| sf_syscalls := list_to_set denied_egress_syscalls; sf_default := ActAllow; sf_match := ActErrno EACCES; sf_arch := arch |} in
      if seccomp_filter_ok filter then
        let? program := ok_or (bpf_compile filter) FilterCompile in
        Ok (Some program)
      else Err FilterBuild
  end.

(** The two loops of [build_landlock_ruleset]. *)
Fixpoint add_rules (paths : list rstr) (access : Z) (created : RulesetCreated) : result RulesetCreated SandboxError :=
  match paths with
  | [] => Ok created
  | path :: rest =>
      let? fd := ok_or (path_fd path) (OpenPath path) in
      let rule := {| pb_fd := fd; pb_access := access |} in
      if add_rule_ok rule
      then add_rules rest access {| rs_handled := rs_handled created; rs_rules := rs_rules created ++ [rule] |}
      else Err (AddRule path)
  end.

Definition build_landlock_ruleset (profile : SandboxProfile) : result RulesetCreated SandboxError :=
  if negb (handle_access_ok false access_from_all) then Err HandleAccess
  else if negb ruleset_create_ok then Err RulesetCreate
  else
    let? created := add_rules (fs_allow_read profile) access_from_read {| rs_handled := access_from_all; rs_rules := [] |} in
    add_rules (fs_allow_write profile) access_from_all created.

Definition build_sandbox (profile : SandboxProfile) : result SandboxArtifacts SandboxError :=
  let? ruleset := build_landlock_ruleset profile in
  let? egress_filter := build_egress_filter (network profile) in
  Ok {| sa_ruleset := ruleset; sa_egress_filter := egress_filter |}.
End Parent.

(** ** sandbox_linux.rs: the child *)

(** What holds a thread back. *)
Record Confinement : Type := {
  cf_no_new_privs : bool;
  cf_landlock : list RulesetCreated;
  cf_seccomp : list BpfProgram;
}.

Definition unconfined : Confinement := {| cf_no_new_privs := false; cf_landlock := []; cf_seccomp := [] |}.

(** The system calls of the child; [None] is success for an error number.
    [is_beneath inode fd] says that a file is, or lies below, the one opened. *)
Class SandboxKernel := {
  prctl_no_new_privs_rc : option Z;
  ruleset_clone_ok : bool;
  restrict_self : RulesetCreated -> option RulesetStatus;
  apply_filter_ok : BpfProgram -> bool;
  is_beneath : Z -> Z -> bool;
}.

(** What the parent is told of an error without a number. *)
Definition EINVAL : Z := 22.

Section Kernel.
Context `{SandboxKernel}.

(** [SandboxArtifacts::enforce]. *)
Definition enforce (artifacts : SandboxArtifacts) (c : Confinement) : result Confinement Z :=
  match prctl_no_new_privs_rc with
  | Some errno => Err errno
  | None =>
      if negb ruleset_clone_ok then Err EINVAL
      else
        let? status := ok_or (restrict_self (sa_ruleset artifacts)) EINVAL in
        if negb (bool_decide (status = FullyEnforced)) then Err EINVAL
        else
          let restricted := {| cf_no_new_privs := true; cf_landlock := sa_ruleset artifacts :: cf_landlock c; cf_seccomp := cf_seccomp c |} in
          match sa_egress_filter artifacts with
          | None => Ok restricted
          | Some program =>
              if apply_filter_ok program
              then Ok {| cf_no_new_privs := true; cf_landlock := cf_landlock restricted; cf_seccomp := program :: cf_seccomp c |}
              else Err EINVAL
          end
  end.

(** ** What containment means *)

(** A ruleset lets a right through if it does not govern it or a rule grants
    it on the file or above; a thread needs every ruleset's leave. *)
Definition ruleset_allows (right inode : Z) (rs : RulesetCreated) : bool :=
  negb (Z.testbit (rs_handled rs) right) ||
  existsb (fun rule => Z.testbit (pb_access rule) right && is_beneath inode (pb_fd rule)) (rs_rules rs).

Definition may_access (c : Confinement) (right inode : Z) : bool := forallb (ruleset_allows right inode) (cf_landlock c).

Definition may_call `{SandboxHost} (c : Confinement) (nr : Z) : bool :=
  forallb (fun p => bool_decide (bpf_verdict p nr = ActAllow)) (cf_seccomp c).
End Kernel.

(** ** The sandbox holds *)

Section Holds.
Context `{SK : SandboxKernel, SH : SandboxHost, SL : !SandboxHostLaws}.

(** The profile grants a right on a file: an allow-listed path, opened by the
    parent, is the file or above it, and lists the right. *)
Definition granted (s : SandboxProfile) (right inode : Z) : Prop :=
  exists path fd, path_fd path = Some fd /\ is_beneath inode fd = true /\
    (path ∈ fs_allow_write s \/ path ∈ fs_allow_read s /\ Z.testbit access_from_read right = true).

(** The calls by which a process reaches the network, itself or through a ring. *)
Definition reaches_network (nr : Z) : Prop :=
  nr = SYS_socket \/ nr = SYS_connect \/ nr = SYS_io_uring_setup \/ nr = SYS_io_uring_enter \/ nr = SYS_io_uring_register.

(** From [before] to [after] the thread lost every governed right the profile
    does not grant and, without network, the calls that reach it, which a
    filter answers with a refusal; nothing else. *)
Record confined_to (s : SandboxProfile) (before after : Confinement) : Prop := {
  ct_no_new_privs : cf_no_new_privs after = true;
  ct_access right inode : Z.testbit access_from_all right = true ->
    (may_access after right inode = true <-> granted s right inode /\ may_access before right inode = true);
  ct_ungoverned right inode : Z.testbit access_from_all right = false -> may_access after right inode = may_access before right inode;
  ct_calls nr : may_call after nr = true <-> (network s = DenyAll -> ~ reaches_network nr) /\ may_call before nr = true;
  ct_refusal nr : network s = DenyAll -> reaches_network nr -> exists program, program ∈ cf_seccomp after /\ bpf_verdict program nr = ActErrno EACCES;
}.

Lemma add_rules_spec paths access rs rs' :
  add_rules paths access rs = Ok rs' ->
  exists fds, Forall2 (fun path fd => path_fd path = Some fd) paths fds /\ rs_handled rs' = rs_handled rs /\
    rs_rules rs' = rs_rules rs ++ ((fun fd => {| pb_fd := fd; pb_access := access |}) <$> fds).
Proof.
  revert rs. induction paths as [|path paths IH]; intros rs; cbn [add_rules].
  - intros [= <-]. exists []. cbn. rewrite app_nil_r. done.
  - destruct (path_fd path) as [fd|] eqn:Ef; cbn [ok_or]; [|done]. destruct (add_rule_ok _); [|done].
    intros (fds & Hf & Hh & Hr)%IH. exists (fd :: fds). split; [by constructor|]. split; [done|]. rewrite Hr. cbn. by rewrite <- (assoc_L (++)).
Qed.

(** Some rule made of the paths lets the right through. *)
Lemma rules_allow paths fds access right inode :
  Forall2 (fun path fd => path_fd path = Some fd) paths fds ->
  existsb (fun rule => Z.testbit (pb_access rule) right && is_beneath inode (pb_fd rule))
    ((fun fd => {| pb_fd := fd; pb_access := access |}) <$> fds) = true <->
  Z.testbit access right = true /\ exists path fd, path ∈ paths /\ path_fd path = Some fd /\ is_beneath inode fd = true.
Proof.
  induction 1 as [|path fd paths fds Hp Hf IH]; cbn [fmap list_fmap existsb pb_access pb_fd].
  - split; [done|]. intros (_ & p & fd & Hin & _). set_solver.
  - rewrite orb_true_iff, andb_true_iff, IH. split.
    + intros [[Ht Hb]|(Ht & p & fd' & Hin & Hpf & Hb)]; (split; [done|]); [exists path, fd|exists p, fd']; split_and!; set_solver.
    + intros (Ht & p & fd' & [->|Hin]%elem_of_cons & Hpf & Hb); [left; by simplify_eq|right]. eauto 10.
Qed.

Lemma build_landlock_ruleset_spec s rs right inode :
  build_landlock_ruleset s = Ok rs ->
  rs_handled rs = access_from_all /\
  (Z.testbit access_from_all right = true -> ruleset_allows right inode rs = true <-> granted s right inode).
Proof.
  unfold build_landlock_ruleset. destruct (negb _); [done|]. destruct (negb _); [done|].
  destruct (add_rules (fs_allow_read s) _ _) as [created|] eqn:Er; [|done]. intros Ew.
  apply add_rules_spec in Er as (rfds & Hr & Hh & Hrr). apply add_rules_spec in Ew as (wfds & Hw & Hh' & Hwr).
  rewrite Hh in Hh'. split; [done|]. intros Hall. unfold ruleset_allows. rewrite Hh', Hwr, Hrr. cbn [rs_handled rs_rules app]. rewrite Hall.
  cbn [negb orb]. rewrite existsb_app, orb_true_iff, (rules_allow _ _ _ _ _ Hr), (rules_allow _ _ _ _ _ Hw). unfold granted. naive_solver.
Qed.

(** On an architecture with a filter the list has no other call. *)
Lemma denied_reach arch nr : current_target_arch = Some arch -> nr ∈ denied_egress_syscalls <-> reaches_network nr.
Proof.
  unfold current_target_arch, denied_egress_syscalls, reaches_network. intros Ha.
  destruct target_arch; try done; rewrite app_nil_r, !elem_of_cons, elem_of_nil; tauto.
Qed.

Lemma build_egress_filter_spec net p nr :
  build_egress_filter net = Ok p ->
  match net, p with
  | AllowNet, None => True
  | DenyAll, Some p => (reaches_network nr -> bpf_verdict p nr = ActErrno EACCES) /\ (~ reaches_network nr -> bpf_verdict p nr = ActAllow)
  | _, _ => False
  end.
Proof.
  destruct net; cbn [build_egress_filter]; [|by intros [= <-]].
  destruct current_target_arch as [arch|] eqn:Ea; cbn [ok_or]; [|done]. destruct (seccomp_filter_ok _); [|done].
  destruct (bpf_compile _) as [q|] eqn:Ec; cbn [ok_or]; [|done]. intros [= <-]. rewrite (bpf_compile_verdict _ _ nr Ec). cbn [sf_syscalls sf_match sf_default].
  destruct (decide _) as [Hin|Hin]; rewrite elem_of_list_to_set, (denied_reach _ _ Ea) in Hin; done.
Qed.

(** A sandbox that was built and enforced confines the thread to its profile. *)
Lemma enforced_confined s artifacts c c' :
  build_sandbox s = Ok artifacts -> enforce artifacts c = Ok c' -> confined_to s c c'.
Proof.
  unfold build_sandbox. destruct (build_landlock_ruleset s) as [rs|] eqn:Er; [|done].
  destruct (build_egress_filter _) as [p|] eqn:Ep; [|done]. intros [= <-]. unfold enforce. cbn [sa_ruleset sa_egress_filter].
  destruct prctl_no_new_privs_rc; [done|]. destruct (negb _); [done|]. destruct (restrict_self rs) as [status|]; cbn [ok_or]; [|done].
  destruct (negb _); [done|]. intros He.
  assert (G : cf_no_new_privs c' = true /\ cf_landlock c' = rs :: cf_landlock c /\
    cf_seccomp c' = (match p with Some q => [q] | None => [] end) ++ cf_seccomp c).
  { destruct p as [q|]; [destruct (apply_filter_ok q); [|done]|]; by simplify_eq. }
  destruct G as (G1 & G2 & G3). split; [done| | | |].
  - intros right inode Hall. unfold may_access. rewrite G2. cbn [forallb]. rewrite andb_true_iff.
    destruct (build_landlock_ruleset_spec s rs right inode Er) as [_ ->]; done.
  - intros right inode Hno. unfold may_access. rewrite G2. cbn [forallb]. unfold ruleset_allows at 1.
    destruct (build_landlock_ruleset_spec s rs right inode Er) as [-> _]. by rewrite Hno.
  - intros nr. unfold may_call. rewrite G3. apply (build_egress_filter_spec _ _ nr) in Ep. rewrite forallb_app, andb_true_iff.
    destruct (network s), p as [q|]; try done; cbn [forallb]; [|naive_solver]. rewrite andb_true_r, bool_decide_eq_true.
    destruct Ep as [E1 E2]. split; [|naive_solver]. intros [Ha Hb]. split; [|done]. intros _ Hn. by rewrite (E1 Hn) in Ha.
  - intros nr Hn Hr. rewrite Hn in Ep. apply (build_egress_filter_spec _ _ nr) in Ep. rewrite G3.
    destruct p as [q|]; [|done]. exists q. split; [set_solver|by apply Ep].
Qed.
End Holds.
