(* ===== verification/Launch.v ===== *)
(** * Launching the inner server

    [mcps-proxy/src/inner_launch.rs] and [rlimits.rs]: what the child process
    is given (environment, directory, resource ceilings,
    containment, descriptors) and the bounded capture of its standard error.
    The hooks run between fork and exec are a list that is executed on a model
    of the child; the system calls are a class. *)

From S2P Require Import Prelude Utf8 Errors Json Canonical Strings Proxy Sandbox.

(** ** Events and captured output *)

Definition tag (e : InnerLogEvent) : rstr :=
  match e with
  | Spawned _ => str "inner_spawned"
  | SpawnFailed _ => str "inner_spawn_failed"
  | Exited _ => str "inner_exited"
  | Killed _ => str "inner_killed"
  | StderrTruncated _ _ => str "inner_stderr_truncated"
  | ProtocolError _ => str "inner_protocol_error"
  | RequestForwarded => str "inner_request_forwarded"
  | ResponseSigned => str "inner_response_signed"
  end.

Record BoundedStderr : Type := {
  be_cap_bytes : Z;
  be_cap_lines : Z;
  be_bytes_ : bytes;
  be_lines : Z;
  be_truncated : bool;
}.
#[export] Instance BoundedStderr_settable : Settable BoundedStderr := fun b => {|
  be_cap_bytes := be_cap_bytes b; be_cap_lines := be_cap_lines b; be_bytes_ := be_bytes_ b; be_lines := be_lines b;
  be_truncated := be_truncated b |}.

Definition stderr_new (cap_bytes cap_lines : Z) : BoundedStderr :=
  {| be_cap_bytes := cap_bytes; be_cap_lines := cap_lines; be_bytes_ := []; be_lines := 0; be_truncated := false |}.

Fixpoint stderr_push (chunk : bytes) (b : BoundedStderr) : BoundedStderr :=
  match chunk with
  | [] => b
  | byte :: chunk' =>
      if (be_cap_bytes b <=? Z.of_nat (length (be_bytes_ b))) || (be_cap_lines b <=? be_lines b) then b <| be_truncated := true |>
      else
        let b := b <| be_bytes_ ::= fun bs => bs ++ [byte] |> in
        if byte =? 10 then
          let b := b <| be_lines ::= Z.add 1 |> in
          if be_cap_lines b <=? be_lines b then b <| be_truncated := true |> else stderr_push chunk' b
        else stderr_push chunk' b
  end.

(** ** rlimits.rs *)

Inductive Resource : Type := RLIMIT_NOFILE | RLIMIT_CPU | RLIMIT_AS | RLIMIT_DATA | RLIMIT_CORE | RLIMIT_FSIZE.

#[export] Instance Resource_eq_dec : EqDecision Resource.
Proof. solve_decision. Defined.

Record RLimits : Type := {
  nofile : option Z;
  cpu_seconds : option Z;
  address_space_bytes : option Z;
  data_bytes : option Z;
  core_bytes : option Z;
  fsize_bytes : option Z;
  best_effort : bool;
}.
#[export] Instance RLimits_settable : Settable RLimits := fun r => {|
  nofile := nofile r; cpu_seconds := cpu_seconds r; address_space_bytes := address_space_bytes r; data_bytes := data_bytes r;
  core_bytes := core_bytes r; fsize_bytes := fsize_bytes r; best_effort := best_effort r |}.

Definition rlimits_new : RLimits := {|
  nofile := None; cpu_seconds := None; address_space_bytes := None; data_bytes := None; core_bytes := Some 0;
  fsize_bytes := None; best_effort := false |}.

Definition is_some {A} (o : option A) : bool := match o with Some _ => true | None => false end.

Definition any_configured (r : RLimits) : bool :=
  is_some (nofile r) || is_some (cpu_seconds r) || is_some (address_space_bytes r) || is_some (data_bytes r) ||
  is_some (core_bytes r) || is_some (fsize_bytes r).

Definition configured (r : RLimits) : list (Resource * Z) :=
  let one resource value := match value with Some v => [(resource, v)] | None => [] end in
  one RLIMIT_NOFILE (nofile r) ++ one RLIMIT_CPU (cpu_seconds r) ++ one RLIMIT_AS (address_space_bytes r) ++
  one RLIMIT_DATA (data_bytes r) ++ one RLIMIT_CORE (core_bytes r) ++ one RLIMIT_FSIZE (fsize_bytes r).

(** ** The configuration *)

Inductive LaunchError : Type :=
| RlimitsNotOnPlatform | EmptyAllowRead | EmptyAllowWrite | CannotEnforce | SandboxNotOnPlatform | SandboxBuild (e : SandboxError)
| EnvNotPresent (name : rstr) | WorkingDirRefused | DefaultDirStat | DefaultDirNotADir | DefaultDirNotOwned | DefaultDirNotPrivate
| DefaultDirCreate.

Definition DEFAULT_STDERR_CAP_BYTES : Z := 64 * 1024.
Definition DEFAULT_STDERR_CAP_LINES : Z := 1024.
Definition DEFAULT_INNER_READ_TIMEOUT : Z := 30.

Record InnerLaunchConfig : Type := {
  inherit_env : bool;
  explicit_env : list (rstr * rstr);
  allow_env_names : list rstr;
  working_dir : option rstr;
  stderr_cap_bytes : Z;
  stderr_cap_lines : Z;
  il_rlimits : RLimits;
  inner_read_timeout : Z;
  il_sandbox : SandboxProfile;
}.
#[export] Instance InnerLaunchConfig_settable : Settable InnerLaunchConfig := fun l => {|
  inherit_env := inherit_env l; explicit_env := explicit_env l; allow_env_names := allow_env_names l; working_dir := working_dir l;
  stderr_cap_bytes := stderr_cap_bytes l; stderr_cap_lines := stderr_cap_lines l; il_rlimits := il_rlimits l;
  inner_read_timeout := inner_read_timeout l; il_sandbox := il_sandbox l |}.

Definition inner_launch_new : InnerLaunchConfig := {|
  inherit_env := false; explicit_env := []; allow_env_names := []; working_dir := None;
  stderr_cap_bytes := DEFAULT_STDERR_CAP_BYTES; stderr_cap_lines := DEFAULT_STDERR_CAP_LINES; il_rlimits := rlimits_new;
  inner_read_timeout := DEFAULT_INNER_READ_TIMEOUT; il_sandbox := sandbox_new |}.

Definition new_stderr_capture (l : InnerLaunchConfig) : BoundedStderr := stderr_new (stderr_cap_bytes l) (stderr_cap_lines l).

(** ** The parent's view of the system *)

Record Metadata : Type := { md_is_dir : bool; md_uid : Z; md_mode : Z }.
Inductive MkdirResult : Type := MkdirOk | MkdirExists | MkdirFailed.

(** A directory is known by the inode that was opened. *)
Class Fs := {
  open_dir_nofollow : rstr -> option Z;
  default_working_dir : rstr;
  mkdir_private : rstr -> MkdirResult;
  symlink_metadata : rstr -> option Metadata;
  getuid : Z;
}.

Class Platform := {
  unix : bool;
  platform_sandbox :: SandboxHost;
}.

(** ** The command *)

(** What runs in the child before exec. *)
Inductive Hook : Type :=
| HookFchdir (inode : Z)
| HookRlimits (limits : list (Resource * Z)) (best : bool)
| HookSandbox (artifacts : SandboxArtifacts)
| HookCloseFds.

Record Command : Type := {
  cm_env_cleared : bool;
  cm_env : list (rstr * rstr);
  cm_current_dir : option rstr;
  cm_hooks : list Hook;
}.
#[export] Instance Command_settable : Settable Command := fun c => {|
  cm_env_cleared := cm_env_cleared c; cm_env := cm_env c; cm_current_dir := cm_current_dir c; cm_hooks := cm_hooks c |}.

Definition command_new : Command := {| cm_env_cleared := false; cm_env := []; cm_current_dir := None; cm_hooks := [] |}.

Definition pre_exec (h : Hook) (c : Command) : Command := c <| cm_hooks ::= fun hs => hs ++ [h] |>.

(** The variable the child finds: the last assignment, else the inherited one. *)
Definition child_env (c : Command) (inherited : rstr -> option rstr) (name : rstr) : option rstr :=
  match List.find (fun kv => bool_decide (kv.1 = name)) (reverse (cm_env c)) with
  | Some kv => Some kv.2
  | None => if cm_env_cleared c then None else inherited name
  end.

Fixpoint resolve_allowlist (names : list rstr) (getter : rstr -> option rstr) : result (list (rstr * rstr)) LaunchError :=
  match names with
  | [] => Ok []
  | name :: names' =>
      match getter name with
      | Some value => let? rest := resolve_allowlist names' getter in Ok ((name, value) :: rest)
      | None => Err (EnvNotPresent name)
      end
  end.

Definition apply_env (l : InnerLaunchConfig) (getter : rstr -> option rstr) (c : Command) : result Command LaunchError :=
  let? pass_through := resolve_allowlist (allow_env_names l) getter in
  let c := if inherit_env l then c else c <| cm_env_cleared := true |> <| cm_env := [] |> in
  Ok (c <| cm_env ::= fun e => e ++ pass_through ++ explicit_env l |>).

Section Launch.
Context `{Fs, Platform}.

Definition ensure_private_default_working_dir : result rstr LaunchError :=
  let path := default_working_dir in
  match mkdir_private path with
  | MkdirOk => Ok path
  | MkdirExists =>
      let? meta := ok_or (symlink_metadata path) DefaultDirStat in
      if negb (md_is_dir meta) then Err DefaultDirNotADir
      else if negb (md_uid meta =? getuid) then Err DefaultDirNotOwned
      else if negb (Z.land (md_mode meta) 0x3F =? 0) then Err DefaultDirNotPrivate
      else Ok path
  | MkdirFailed => Err DefaultDirCreate
  end.

Definition effective_working_dir (l : InnerLaunchConfig) : rstr := default default_working_dir (working_dir l).

Definition apply_working_dir (l : InnerLaunchConfig) (c : Command) : result Command LaunchError :=
  match working_dir l with
  | Some explicit =>
      let? inode := ok_or (open_dir_nofollow explicit) WorkingDirRefused in
      Ok (pre_exec (HookFchdir inode) c)
  | None =>
      let? dir := ensure_private_default_working_dir in
      Ok (c <| cm_current_dir := Some dir |>)
  end.

Definition rlimits_validate_platform (r : RLimits) : result unit LaunchError :=
  if unix then Ok tt
  else if any_configured r && negb (best_effort r) then Err RlimitsNotOnPlatform else Ok tt.

Definition apply_to_command (r : RLimits) (c : Command) : Command :=
  if unix then pre_exec (HookRlimits (configured r) (best_effort r)) c else c.

Definition apply_rlimits (l : InnerLaunchConfig) (c : Command) : result Command LaunchError :=
  try? rlimits_validate_platform (il_rlimits l) ;;
  Ok (apply_to_command (il_rlimits l) c).

Definition validate_allowlists (s : SandboxProfile) : result unit LaunchError :=
  if existsb is_empty (fs_allow_read s) then Err EmptyAllowRead
  else if existsb is_empty (fs_allow_write s) then Err EmptyAllowWrite
  else Ok tt.

Definition sandbox_validate_platform (s : SandboxProfile) : result unit LaunchError :=
  if negb (is_enforced s) then Ok tt
  else
    try? validate_allowlists s ;;
    if negb backend_can_enforce then Err CannotEnforce else Ok tt.

Definition install_sandbox_backend (l : InnerLaunchConfig) (c : Command) : result Command LaunchError :=
  if target_linux then
    let? artifacts := map_err SandboxBuild (build_sandbox (il_sandbox l)) in
    Ok (pre_exec (HookSandbox artifacts) c)
  else Err SandboxNotOnPlatform.

Definition apply_sandbox (l : InnerLaunchConfig) (c : Command) : result Command LaunchError :=
  try? sandbox_validate_platform (il_sandbox l) ;;
  if negb (is_enforced (il_sandbox l)) then Ok c else install_sandbox_backend l c.

Definition apply_close_extra_fds (c : Command) : Command := pre_exec HookCloseFds c.

(** The chain of [SubprocessInner::run] up to the spawn. *)
Definition launch_command (l : InnerLaunchConfig) (getter : rstr -> option rstr) : result Command LaunchError :=
  let? c := apply_env l getter command_new in
  let? c := apply_working_dir l c in
  let? c := apply_rlimits l c in
  let? c := apply_sandbox l c in
  Ok (apply_close_extra_fds c).
End Launch.

(** ** The child between fork and exec *)

Definition EBADF : Z := 9.
Definition EINTR : Z := 4.
Definition ENOSYS : Z := 38.

(** [None] is success, [Some] the error number.  [close_rc fd n] is the outcome
    of the [n]-th attempt to close an open descriptor. *)
Class Kernel := {
  setrlimit_rc : Resource -> Z -> option Z;
  fchdir_rc : Z -> option Z;
  kernel_sandbox :: SandboxKernel;
  close_range_rc : option Z;
  getrlimit_ok : bool;
  close_rc : Z -> nat -> option Z;
  close_patience : nat;
}.

Class KernelLaws `{Kernel} : Prop := {
  close_not_interrupted_forever fd : exists n, (n < close_patience)%nat /\ close_rc fd n <> Some EINTR;
  close_open_not_bad fd n : close_rc fd n <> Some EBADF;
}.

(** Soft and hard limit of each resource, the directory, the open descriptors,
    the containment in force. *)
Record Child : Type := {
  ch_limits : Resource -> Z * Z;
  ch_cwd : option Z;
  ch_fds : gset Z;
  ch_confined : Confinement;
}.
#[export] Instance Child_settable : Settable Child := fun c => {|
  ch_limits := ch_limits c; ch_cwd := ch_cwd c; ch_fds := ch_fds c; ch_confined := ch_confined c |}.

Section Child.
Context `{Kernel}.

Fixpoint set_limits (limits : list (Resource * Z)) (best : bool) (ch : Child) : result Child Z :=
  match limits with
  | [] => Ok ch
  | (resource, value) :: rest =>
      match setrlimit_rc resource value with
      | None => set_limits rest best (ch <| ch_limits ::= fun f r => if decide (r = resource) then (value, value) else f r |>)
      | Some errno => if best then set_limits rest best ch else Err errno
      end
  end.

(** [close(fd)] until it is not interrupted; [None] is fuel exhausted. *)
Fixpoint close_retrying (fuel : nat) (fd : Z) (attempt : nat) (ch : Child) : option (result Child Z) :=
  match fuel with
  | O => None
  | S fuel' =>
      if negb (bool_decide (fd ∈ ch_fds ch)) then Some (Ok ch)
      else
        match close_rc fd attempt with
        | None => Some (Ok (ch <| ch_fds ::= fun s => s ∖ {[ fd ]} |>))
        | Some errno =>
            if errno =? EBADF then Some (Ok ch)
            else if errno =? EINTR then close_retrying fuel' fd (S attempt) ch
            else Some (Err errno)
        end
  end.

(** The loop [while fd <= max_fd], over the remaining count. *)
Fixpoint close_from (n : nat) (fd : Z) (ch : Child) : option (result Child Z) :=
  match n with
  | O => Some (Ok ch)
  | S n' =>
      r ← close_retrying close_patience fd 0 ch;
      match r with
      | Err e => Some (Err e)
      | Ok ch' => close_from n' (fd + 1) ch'
      end
  end.

Definition FALLBACK_MAX_FD : Z := 1024.
Definition HARD_CAP_FD : Z := 65536.

Definition fallback_bound (ch : Child) : Z :=
  let hard := (ch_limits ch RLIMIT_NOFILE).2 in
  if getrlimit_ok && (0 <? hard) then Z.min hard HARD_CAP_FD else FALLBACK_MAX_FD.

Definition close_fds_above_stdio_loop (ch : Child) : option (result Child Z) :=
  close_from (Z.to_nat (fallback_bound ch - 2)) 3 ch.

Definition close_fds_above_stdio (ch : Child) : option (result Child Z) :=
  match close_range_rc with
  | None => Some (Ok (ch <| ch_fds ::= filter (fun fd => fd < 3) |>))
  | Some errno => if negb (errno =? ENOSYS) then Some (Err errno) else close_fds_above_stdio_loop ch
  end.

Definition run_hook (h : Hook) (ch : Child) : option (result Child Z) :=
  match h with
  | HookFchdir inode =>
      Some (match fchdir_rc inode with None => Ok (ch <| ch_cwd := Some inode |>) | Some errno => Err errno end)
  | HookRlimits limits best => Some (set_limits limits best ch)
  | HookSandbox artifacts =>
      Some (let? confined := enforce artifacts (ch_confined ch) in Ok (ch <| ch_confined := confined |>))
  | HookCloseFds => close_fds_above_stdio ch
  end.

(** In the order of registration; an error stops the spawn. *)
Fixpoint run_hooks (hs : list Hook) (ch : Child) : option (result Child Z) :=
  match hs with
  | [] => Some (Ok ch)
  | h :: hs' =>
      r ← run_hook h ch;
      match r with
      | Err e => Some (Err e)
      | Ok ch' => run_hooks hs' ch'
      end
  end.
End Child.
