(* ===== verification/LaunchTheorems.v ===== *)
(** * What a launched inner server gets

    Its environment, directory, limits, containment and descriptors after the
    hooks have run, and the bound on what is kept of its standard error. *)

From S2P Require Import Prelude Utf8 Errors Json Canonical Strings Proxy Sandbox Launch.

(** ** The captured standard error *)

Definition newlines (bs : bytes) : Z := Z.of_nat (length (filter (fun b => b = 10) bs)).

Lemma newlines_snoc bs b : newlines (bs ++ [b]) = newlines bs + (if b =? 10 then 1 else 0).
Proof.
  unfold newlines. rewrite filter_app, length_app. cbn [filter list_filter]. destruct (Z.eqb_spec b 10) as [->|].
  - rewrite decide_True by done. cbn. lia.
  - rewrite decide_False by done. cbn. lia.
Qed.

Record stderr_inv (out : bytes) (b : BoundedStderr) : Prop := {
  si_prefix : exists dropped, out = be_bytes_ b ++ dropped /\ (be_truncated b = false -> dropped = []);
  si_bytes : Z.of_nat (length (be_bytes_ b)) <= Z.max 0 (be_cap_bytes b);
  si_lines : be_lines b = newlines (be_bytes_ b);
  si_line_cap : be_lines b <= Z.max 0 (be_cap_lines b);
  si_full : be_truncated b = true ->
    be_cap_bytes b <= Z.of_nat (length (be_bytes_ b)) \/ be_cap_lines b <= be_lines b;
}.

(** What is offered once the capture is full is dropped. *)
Lemma stderr_push_full chunk b :
  (be_cap_bytes b <= Z.of_nat (length (be_bytes_ b)) \/ be_cap_lines b <= be_lines b) ->
  stderr_push chunk b = (if is_empty chunk then b else b <| be_truncated := true |>).
Proof.
  intros H. destruct chunk as [|c chunk]; [done|]. cbn [stderr_push is_empty].
  destruct (Z.leb_spec (be_cap_bytes b) (Z.of_nat (length (be_bytes_ b)))); [done|].
  destruct (Z.leb_spec (be_cap_lines b) (be_lines b)); [done|lia].
Qed.

Lemma stderr_push_inv chunk out b : stderr_inv out b -> stderr_inv (out ++ chunk) (stderr_push chunk b).
Proof.
  revert out b. induction chunk as [|c chunk IH]; intros out b Hi; [by rewrite app_nil_r|].
  assert (Hfull : (be_cap_bytes b <= Z.of_nat (length (be_bytes_ b)) \/ be_cap_lines b <= be_lines b) ->
    stderr_inv (out ++ c :: chunk) (b <| be_truncated := true |>)).
  { intros Hf. destruct Hi as [(d & Ed & Hd) H2 H3 H4 H5]. split; try done. exists (d ++ c :: chunk). split; [|done]. cbn. rewrite Ed.
    by rewrite (assoc_L (++)). }
  cbn [stderr_push]. destruct (Z.leb_spec (be_cap_bytes b) (Z.of_nat (length (be_bytes_ b)))); [apply Hfull; by left|].
  destruct (Z.leb_spec (be_cap_lines b) (be_lines b)); [apply Hfull; by right|]. cbn [orb].
  destruct Hi as [(d & Ed & Hd) H2 H3 H4 H5].
  assert (Ht : be_truncated b = false) by (destruct (be_truncated b); [destruct (H5 eq_refl); lia|done]).
  rewrite (Hd Ht), app_nil_r in Ed. subst out.
  set (b1 := b <| be_bytes_ ::= fun bs => bs ++ [c] |>). change (c :: chunk) with ([c] ++ chunk). rewrite (assoc_L (++)).
  destruct (Z.eqb_spec c 10) as [->|Hc].
  - set (b2 := b1 <| be_lines ::= Z.add 1 |>).
    assert (Hi2 : stderr_inv (be_bytes_ b ++ [10]) b2).
    { split; cbn; [exists []; by rewrite app_nil_r| | | |by rewrite Ht].
      - rewrite length_app. cbn. lia.
      - rewrite newlines_snoc, H3. cbn. lia.
      - lia. }
    destruct (Z.leb_spec (be_cap_lines b2) (be_lines b2)); [|by apply IH].
    destruct Hi2 as [(d2 & Ed2 & Hd2) G2 G3 G4 G5]. split; try done; [|right; done]. exists (d2 ++ chunk). split; [|done]. cbn. cbn in Ed2.
    by rewrite (assoc_L (++) _ d2 chunk), <- Ed2.
  - apply IH. split; cbn; [exists []; by rewrite app_nil_r| | |done|by rewrite Ht].
    + rewrite length_app. cbn. lia.
    + rewrite newlines_snoc, H3. rewrite (proj2 (Z.eqb_neq c 10)) by done. lia.
Qed.

Lemma stderr_capture_inv cap_bytes cap_lines chunks :
  0 < cap_bytes -> 0 < cap_lines ->
  stderr_inv (mjoin chunks) (foldl (fun b c => stderr_push c b) (stderr_new cap_bytes cap_lines) chunks).
Proof.
  intros Hb Hl. assert (G : forall out b, stderr_inv out b -> stderr_inv (out ++ mjoin chunks) (foldl (fun b c => stderr_push c b) b chunks)).
  { induction chunks as [|c chunks IH]; intros out b Hi; cbn; [by rewrite app_nil_r|]. rewrite (assoc_L (++)).
    apply IH. by apply stderr_push_inv. }
  apply (G []). split; cbn; [by exists []|lia|done|lia|done].
Qed.

(** A capture that ends exactly at its line cap dropped nothing, and is marked
    truncated; one that ends exactly at its byte cap is not. *)
Theorem truncated_without_loss :
  be_truncated (stderr_push [97; 10] (stderr_new 100 1)) = true /\ be_bytes_ (stderr_push [97; 10] (stderr_new 100 1)) = [97; 10] /\
  be_truncated (stderr_push [97; 10] (stderr_new 2 100)) = false.
Proof. done. Qed.

(** ** The hooks *)

Section Hooks.
Context `{K : Kernel, KL : !KernelLaws}.

Lemma close_retrying_total fuel fd attempt ch :
  (exists n, (attempt <= n < attempt + fuel)%nat /\ close_rc fd n <> Some EINTR) ->
  exists r, close_retrying fuel fd attempt ch = Some r.
Proof.
  revert attempt. induction fuel as [|fuel IH]; intros attempt (n & Hn & Hr); [lia|]. cbn [close_retrying].
  destruct (negb _); [by eexists|]. destruct (close_rc fd attempt) as [errno|] eqn:Ec; [|by eexists].
  destruct (errno =? EBADF); [by eexists|]. destruct (Z.eqb_spec errno EINTR) as [->|]; [|by eexists].
  apply IH. exists n. split; [|done]. destruct (decide (n = attempt)) as [->|]; [by rewrite Ec in Hr|lia].
Qed.

Lemma close_from_total n fd ch : exists r, close_from n fd ch = Some r.
Proof.
  revert fd ch. induction n as [|n IH]; intros fd ch; cbn [close_from]; [by eexists|].
  destruct (close_retrying_total close_patience fd 0 ch) as [r ->].
  { destruct (close_not_interrupted_forever fd) as (k & Hk & Hr). exists k. split; [lia|done]. }
  cbn [mbind option_bind]. destruct r; [apply IH|by eexists].
Qed.

Lemma run_hooks_total hs ch : exists r, run_hooks hs ch = Some r.
Proof.
  revert ch. induction hs as [|h hs IH]; intros ch; cbn [run_hooks]; [by eexists|].
  assert (exists r, run_hook h ch = Some r) as [r ->].
  { destruct h; cbn [run_hook]; try by eexists. unfold close_fds_above_stdio. destruct close_range_rc as [e|]; [|by eexists].
    destruct (negb _); [by eexists|apply close_from_total]. }
  cbn [mbind option_bind]. destruct r; [apply IH|by eexists].
Qed.

Lemma run_hooks_app hs1 hs2 ch ch' :
  run_hooks (hs1 ++ hs2) ch = Some (Ok ch') -> exists ch1, run_hooks hs1 ch = Some (Ok ch1) /\ run_hooks hs2 ch1 = Some (Ok ch').
Proof.
  revert ch. induction hs1 as [|h hs1 IH]; intros ch; cbn [app run_hooks]; [by eauto|].
  destruct (run_hook h ch) as [[c1|e]|]; cbn [mbind option_bind]; try done. apply IH.
Qed.

Lemma run_hooks_snoc hs h ch ch' :
  run_hooks (hs ++ [h]) ch = Some (Ok ch') -> exists ch1, run_hooks hs ch = Some (Ok ch1) /\ run_hook h ch1 = Some (Ok ch').
Proof.
  intros (ch1 & H1 & H2)%run_hooks_app. exists ch1. split; [done|]. cbn [run_hooks] in H2.
  destruct (run_hook h ch1) as [[c1|e]|]; cbn in H2; simplify_eq; done.
Qed.

(** What a step leaves alone. *)
Lemma close_retrying_frame fuel fd attempt ch ch' :
  close_retrying fuel fd attempt ch = Some (Ok ch') ->
  ch_limits ch' = ch_limits ch /\ ch_cwd ch' = ch_cwd ch /\ ch_confined ch' = ch_confined ch /\ ch_fds ch' ⊆ ch_fds ch.
Proof.
  revert attempt. induction fuel as [|fuel IH]; intros attempt; cbn [close_retrying]; [done|].
  destruct (negb _); [by intros [= <-]|]. destruct (close_rc fd attempt) as [errno|].
  - destruct (errno =? EBADF); [by intros [= <-]|]. destruct (errno =? EINTR); [apply IH|done].
  - intros [= <-]. cbn. set_solver.
Qed.

Lemma close_from_frame n fd ch ch' :
  close_from n fd ch = Some (Ok ch') ->
  ch_limits ch' = ch_limits ch /\ ch_cwd ch' = ch_cwd ch /\ ch_confined ch' = ch_confined ch /\ ch_fds ch' ⊆ ch_fds ch.
Proof.
  revert fd ch. induction n as [|n IH]; intros fd ch; cbn [close_from]; [by intros [= <-]|].
  destruct (close_retrying close_patience fd 0 ch) as [[c1|e]|] eqn:E; cbn [mbind option_bind]; try done.
  apply close_retrying_frame in E as (E1 & E2 & E3 & E4). intros (G1 & G2 & G3 & G4)%IH. split_and!; try congruence. set_solver.
Qed.

(** A close that is not an error closes this descriptor and no other. *)
Lemma close_retrying_fds fuel fd attempt ch ch' :
  close_retrying fuel fd attempt ch = Some (Ok ch') -> ch_fds ch' = ch_fds ch ∖ {[ fd ]}.
Proof.
  revert attempt. induction fuel as [|fuel IH]; intros attempt; cbn [close_retrying]; [done|].
  destruct (bool_decide (fd ∈ ch_fds ch)) eqn:Ei; cbn [negb].
  - destruct (close_rc fd attempt) as [errno|] eqn:Ec; [|by intros [= <-]].
    destruct (Z.eqb_spec errno EBADF) as [->|]; [by apply close_open_not_bad in Ec|]. destruct (errno =? EINTR); [apply IH|done].
  - apply bool_decide_eq_false in Ei. intros [= <-]. set_solver.
Qed.

Lemma close_from_fds n first ch ch' :
  close_from n first ch = Some (Ok ch') ->
  forall fd, fd ∈ ch_fds ch' <-> fd ∈ ch_fds ch /\ (fd < first \/ first + Z.of_nat n <= fd).
Proof.
  revert first ch. induction n as [|n IH]; intros first ch; cbn [close_from].
  - intros [= <-] fd. split; [intros ?; split; [done|lia]|tauto].
  - destruct (close_retrying close_patience first 0 ch) as [[c1|e]|] eqn:E; cbn [mbind option_bind]; try done.
    apply close_retrying_fds in E. intros Hc fd. rewrite (IH _ _ Hc), E, elem_of_difference, elem_of_singleton. split.
    + intros [[? ?] ?]. split; [done|lia].
    + intros [? ?]. split_and!; [done|lia|lia].
Qed.

(** The descriptors above the three standard ones that the sweep does not get to: none with [close_range], else those beyond the
    hard limit on open files, at most 65536 and 1024 where there is none. *)
Definition beyond_sweep (hard fd : Z) : Prop :=
  match close_range_rc with
  | None => False
  | Some _ => if getrlimit_ok && (0 <? hard) then hard < fd \/ 65536 < fd else 1024 < fd
  end.

Lemma close_fds_frame ch ch' :
  close_fds_above_stdio ch = Some (Ok ch') ->
  ch_limits ch' = ch_limits ch /\ ch_cwd ch' = ch_cwd ch /\ ch_confined ch' = ch_confined ch /\
  (close_range_rc = None \/ close_range_rc = Some ENOSYS) /\
  forall fd, fd ∈ ch_fds ch' <-> fd ∈ ch_fds ch /\ (fd < 3 \/ beyond_sweep (ch_limits ch RLIMIT_NOFILE).2 fd).
Proof.
  unfold close_fds_above_stdio, beyond_sweep. destruct close_range_rc as [errno|] eqn:E.
  - destruct (Z.eqb_spec errno ENOSYS) as [->|]; cbn [negb]; [|done]. unfold close_fds_above_stdio_loop. intros Hc.
    destruct (close_from_frame _ _ _ _ Hc) as (? & ? & ? & _). split_and!; try done; [by right|].
    intros fd. rewrite (close_from_fds _ _ _ _ Hc). unfold fallback_bound, HARD_CAP_FD, FALLBACK_MAX_FD.
    destruct (getrlimit_ok && _) eqn:Eg; [apply andb_true_iff in Eg as [_ Eg%Z.ltb_lt]|]; split; intros [? ?]; (split; [done|lia]).
  - intros [= <-]. cbn. split_and!; try done; [by left|]. intros fd. rewrite elem_of_filter. naive_solver.
Qed.

Lemma set_limits_spec limits best ch ch' :
  set_limits limits best ch = Ok ch' ->
  ch_cwd ch' = ch_cwd ch /\ ch_confined ch' = ch_confined ch /\ ch_fds ch' = ch_fds ch /\
  (forall r, r ∉ limits.*1 -> ch_limits ch' r = ch_limits ch r) /\
  (best = false -> NoDup limits.*1 -> forall r v, (r, v) ∈ limits -> ch_limits ch' r = (v, v)).
Proof.
  revert ch. induction limits as [|[r0 v0] limits IH]; intros ch; cbn [set_limits].
  - intros [= <-]. split_and!; try done. intros _ _ r v []%elem_of_nil.
  - destruct (setrlimit_rc r0 v0) as [errno|].
    + destruct best; [|done]. intros (H1 & H2 & H3 & H4 & _)%IH. split_and!; try done. intros r Hr. apply H4. set_solver.
    + intros (H1 & H2 & H3 & H4 & H5)%IH. split_and!; try done.
      * intros r Hr. cbn in Hr. rewrite H4 by set_solver. cbn. rewrite decide_False by set_solver. done.
      * intros Hb [Hn Hd]%NoDup_cons r v [E|Hin]%elem_of_cons; [|by apply H5]. simplify_eq. rewrite H4 by done. cbn.
        by rewrite decide_True.
Qed.
End Hooks.

Lemma configured_nodup r : NoDup (configured r).*1.
Proof.
  unfold configured. destruct (nofile r), (cpu_seconds r), (address_space_bytes r), (data_bytes r), (core_bytes r), (fsize_bytes r);
    apply (bool_decide_eq_true_1 (NoDup _)); reflexivity.
Qed.

(** The ceiling the operator set on a resource. *)
Definition ceiling (r : RLimits) (res : Resource) : option Z :=
  match res with
  | RLIMIT_NOFILE => nofile r | RLIMIT_CPU => cpu_seconds r | RLIMIT_AS => address_space_bytes r
  | RLIMIT_DATA => data_bytes r | RLIMIT_CORE => core_bytes r | RLIMIT_FSIZE => fsize_bytes r
  end.

Lemma ceiling_configured r res v : ceiling r res = Some v -> (res, v) ∈ configured r /\ any_configured r = true.
Proof.
  unfold configured, any_configured. destruct res; cbn [ceiling]; intros E; rewrite E; cbn [is_some]; rewrite ?orb_true_r, ?orb_true_l;
    (split; [|done]); rewrite ?elem_of_app, ?elem_of_cons; tauto.
Qed.

(** ** The environment *)

Lemma resolve_allowlist_spec names getter ps :
  resolve_allowlist names getter = Ok ps -> ps.*1 = names /\ Forall (fun kv => getter kv.1 = Some kv.2) ps.
Proof.
  revert ps. induction names as [|n names IH]; intros ps; cbn [resolve_allowlist]; [by intros [= <-]|].
  destruct (getter n) as [v|] eqn:E; [|done]. destruct (resolve_allowlist names getter) as [rest|]; [|done]. intros [= <-].
  destruct (IH rest eq_refl) as [<- Hf]. split; [done|]. by constructor.
Qed.

Lemma child_env_found c inherited k v :
  cm_env_cleared c = true -> child_env c inherited k = Some v -> (k, v) ∈ cm_env c.
Proof.
  unfold child_env. intros Hc. destruct (List.find _ _) as [[k' v']|] eqn:E; [|by rewrite Hc].
  intros [= ->]. apply find_some in E as [Hin Hk]. apply bool_decide_eq_true in Hk. cbn in Hk. subst k'.
  apply list_elem_of_In in Hin. by rewrite elem_of_reverse in Hin.
Qed.

Lemma child_env_total c inherited k v : (k, v) ∈ cm_env c -> child_env c inherited k <> None.
Proof.
  intros Hin. unfold child_env. destruct (List.find _ _) as [kv|] eqn:E; [done|]. intros _.
  eapply find_none in E; [|apply list_elem_of_In; by rewrite elem_of_reverse]. cbn in E. by rewrite bool_decide_eq_true_2 in E.
Qed.

(** ** The launched child *)

Section Launched.
Context `{F : Fs, P : Platform, PL : !SandboxHostLaws, K : Kernel, KL : !KernelLaws}.

(** The default directory was made for the inner server, or is a directory of
    this user that is closed to group and world. *)
Definition private_default : Prop :=
  mkdir_private default_working_dir = MkdirOk \/
  exists meta, symlink_metadata default_working_dir = Some meta /\ md_is_dir meta = true /\ md_uid meta = getuid /\ Z.land (md_mode meta) 0x3F = 0.

Lemma ensure_private_Ok dir : ensure_private_default_working_dir = Ok dir -> dir = default_working_dir /\ private_default.
Proof.
  unfold ensure_private_default_working_dir, private_default. destruct (mkdir_private _); [intros [= <-]; auto| |done].
  destruct (symlink_metadata _) as [meta|]; cbn [ok_or]; [|done]. destruct (md_is_dir meta) eqn:Ed; cbn [negb]; [|done].
  destruct (Z.eqb_spec (md_uid meta) getuid); cbn [negb]; [|done]. destruct (Z.eqb_spec (Z.land (md_mode meta) 0x3F) 0); cbn [negb]; [|done].
  intros [= <-]. split; [done|]. right. by exists meta.
Qed.

(** The hooks a configuration registers, by kind. *)
Definition dir_hooks (l : InnerLaunchConfig) (hs : list Hook) : Prop :=
  match working_dir l with
  | Some dir => exists inode, open_dir_nofollow dir = Some inode /\ hs = [HookFchdir inode]
  | None => hs = []
  end.

Definition limit_hooks (l : InnerLaunchConfig) : list Hook :=
  if unix then [HookRlimits (configured (il_rlimits l)) (best_effort (il_rlimits l))] else [].

Definition sandbox_hooks (l : InnerLaunchConfig) (hs : list Hook) : Prop :=
  if is_enforced (il_sandbox l)
  then exists artifacts, backend_can_enforce = true /\ build_sandbox (il_sandbox l) = Ok artifacts /\ hs = [HookSandbox artifacts]
  else hs = [].

Lemma launch_command_spec l getter cmd :
  launch_command l getter = Ok cmd ->
  exists pass dh sh, resolve_allowlist (allow_env_names l) getter = Ok pass /\ dir_hooks l dh /\ sandbox_hooks l sh /\
    cm_env_cleared cmd = negb (inherit_env l) /\ cm_env cmd = pass ++ explicit_env l /\
    cm_hooks cmd = dh ++ limit_hooks l ++ sh ++ [HookCloseFds] /\
    (working_dir l = None -> cm_current_dir cmd = Some default_working_dir /\ private_default) /\
    (any_configured (il_rlimits l) = true -> best_effort (il_rlimits l) = false -> unix = true).
Proof.
  unfold launch_command, apply_env. destruct (resolve_allowlist _ getter) as [pass|] eqn:Ep; [|done].
  set (c0 := _ <| cm_env ::= _ |>).
  assert (E0 : cm_env_cleared c0 = negb (inherit_env l) /\ cm_env c0 = pass ++ explicit_env l /\ cm_hooks c0 = [])
    by (unfold c0; by destruct (inherit_env l)).
  destruct E0 as (Z1 & Z2 & Z3). clearbody c0.
  destruct (apply_working_dir l c0) as [c1|] eqn:E1; [|done].
  assert (exists dh, dir_hooks l dh /\ cm_env_cleared c1 = negb (inherit_env l) /\ cm_env c1 = pass ++ explicit_env l /\ cm_hooks c1 = dh /\
    (working_dir l = None -> cm_current_dir c1 = Some default_working_dir /\ private_default)) as (dh & Hdh & A1 & A2 & A3 & A4).
  { unfold apply_working_dir, dir_hooks in *. destruct (working_dir l) as [dir|].
    - destruct (open_dir_nofollow dir) as [inode|]; cbn [ok_or] in E1; [|done]. simplify_eq. exists [HookFchdir inode].
      split; [by exists inode|]. unfold pre_exec. cbn. rewrite Z1, Z2, Z3. done.
    - destruct ensure_private_default_working_dir as [d|] eqn:Ed; [|done]. simplify_eq. apply ensure_private_Ok in Ed as [-> Hp].
      exists []. by split_and!. }
  unfold apply_rlimits. destruct (rlimits_validate_platform _) as [_u|] eqn:Ev; [|done].
  assert (Hun : any_configured (il_rlimits l) = true -> best_effort (il_rlimits l) = false -> unix = true).
  { unfold rlimits_validate_platform in Ev. intros Ha Hb. rewrite Ha, Hb in Ev. by destruct unix. }
  set (c2 := apply_to_command _ c1). assert (E2 : cm_env_cleared c2 = cm_env_cleared c1 /\ cm_env c2 = cm_env c1 /\
    cm_hooks c2 = cm_hooks c1 ++ limit_hooks l /\ cm_current_dir c2 = cm_current_dir c1).
  { unfold c2, apply_to_command, limit_hooks. destruct unix; [done|]. by rewrite app_nil_r. }
  destruct E2 as (B1 & B2 & B3 & B4). clearbody c2.
  destruct (apply_sandbox l c2) as [c3|] eqn:E3; [|done].
  assert (exists sh, sandbox_hooks l sh /\ cm_env_cleared c3 = cm_env_cleared c2 /\ cm_env c3 = cm_env c2 /\ cm_hooks c3 = cm_hooks c2 ++ sh /\
    cm_current_dir c3 = cm_current_dir c2) as (sh & Hsh & D1 & D2 & D3 & D4).
  { unfold apply_sandbox, sandbox_validate_platform, sandbox_hooks in *. destruct (is_enforced (il_sandbox l)); cbn [negb] in E3.
    - destruct (validate_allowlists _); [|done]. destruct backend_can_enforce; cbn [negb] in E3; [|done].
      unfold install_sandbox_backend in E3. destruct target_linux; [|done]. destruct (build_sandbox _) as [artifacts|]; cbn [map_err] in E3; [|done].
      simplify_eq. exists [HookSandbox artifacts]. split; [by eexists|done].
    - simplify_eq. exists []. by rewrite app_nil_r. }
  intros [= <-]. exists pass, dh, sh. cbn. rewrite D1, B1, D2, B2, D3, B3, A3, D4, B4. split_and!; try done.
  by rewrite <- !(assoc_L (++)).
Qed.

(** What each kind of hook does to the child. *)
Lemma dir_hooks_run l hs ch ch' :
  dir_hooks l hs -> run_hooks hs ch = Some (Ok ch') ->
  ch_confined ch' = ch_confined ch /\ ch_fds ch' = ch_fds ch /\
  (forall dir, working_dir l = Some dir -> exists inode, open_dir_nofollow dir = Some inode /\ ch_cwd ch' = Some inode).
Proof.
  unfold dir_hooks. destruct (working_dir l) as [dir|].
  - intros (inode & Ho & ->). cbn [run_hooks run_hook mbind option_bind]. destruct (fchdir_rc inode); [done|]. intros [= <-].
    split_and!; [done..|]. intros ? [= <-]. by exists inode.
  - intros ->. cbn. by intros [= <-].
Qed.

Lemma limit_hooks_run l ch ch' :
  run_hooks (limit_hooks l) ch = Some (Ok ch') ->
  ch_confined ch' = ch_confined ch /\ ch_cwd ch' = ch_cwd ch /\ ch_fds ch' = ch_fds ch /\
  (unix = true -> best_effort (il_rlimits l) = false -> forall r v, (r, v) ∈ configured (il_rlimits l) -> ch_limits ch' r = (v, v)).
Proof.
  unfold limit_hooks. destruct unix; cbn [run_hooks run_hook]; [|by intros [= <-]]. cbn [mbind option_bind].
  destruct (set_limits _ _ ch) as [c|] eqn:E; [|done]. intros [= <-]. apply set_limits_spec in E as (? & ? & ? & _ & Hl).
  split_and!; try done. intros _ Hb. apply Hl; [done|apply configured_nodup].
Qed.

Lemma sandbox_hooks_run l hs ch ch' :
  sandbox_hooks l hs -> run_hooks hs ch = Some (Ok ch') ->
  ch_limits ch' = ch_limits ch /\ ch_cwd ch' = ch_cwd ch /\ ch_fds ch' = ch_fds ch /\
  (is_enforced (il_sandbox l) = true -> backend_can_enforce = true /\ confined_to (il_sandbox l) (ch_confined ch) (ch_confined ch')).
Proof.
  unfold sandbox_hooks. destruct (is_enforced (il_sandbox l)); [|intros ->; cbn; by intros [= <-]].
  intros (artifacts & Hcan & Hb & ->). cbn [run_hooks run_hook mbind option_bind].
  destruct (enforce artifacts (ch_confined ch)) as [confined|] eqn:Ee; [|done]. intros [= <-]. split_and!; try done.
  intros _. split; [done|]. exact (enforced_confined _ _ _ _ Hb Ee).
Qed.

(** C34: What the inner server gets.  When the launch is built and its hooks
    run, the child's environment holds only the pairs the operator set and the
    allow-listed variables with the sidecar's values (unless full inheritance
    was asked for), every allow-listed variable among them; the working
    directory is the very directory that was opened without following a link,
    or the default one, just made or owned by this user and closed to others,
    never the sidecar's; every ceiling set on a resource is in force as soft
    and hard limit unless best effort was chosen (where there are no such
    limits the launch is refused);
    if containment was demanded, the platform can enforce it and the child has
    lost every governed file right that no allow-listed path grants and, unless
    the network is allowed, the five calls that reach it (socket, connect and
    the three of a ring), which a filter refuses, and nothing else.  The
    standard descriptors are as they were; above them none is left where the
    kernel has [close_range], and where it has not ([ENOSYS]) those are left
    that lie beyond the hard limit on open files, or beyond 65536, or beyond
    1024 where no limit is known.  Any other error of [close_range] fails the
    spawn.  The hooks always finish, and with an error the spawn fails. *)
Theorem inner_launch_contained l getter cmd ch :
  launch_command l getter = Ok cmd ->
  (inherit_env l = false -> forall k v, child_env cmd getter k = Some v ->
     (k, v) ∈ explicit_env l \/ (k ∈ allow_env_names l /\ getter k = Some v)) /\
  (forall k, k ∈ allow_env_names l -> child_env cmd getter k <> None) /\
  (exists r, run_hooks (cm_hooks cmd) ch = Some r) /\
  forall ch', run_hooks (cm_hooks cmd) ch = Some (Ok ch') ->
    (forall dir, working_dir l = Some dir -> exists inode, open_dir_nofollow dir = Some inode /\ ch_cwd ch' = Some inode) /\
    (working_dir l = None -> cm_current_dir cmd = Some default_working_dir /\ private_default) /\
    (best_effort (il_rlimits l) = false -> forall r v, ceiling (il_rlimits l) r = Some v -> unix = true /\ ch_limits ch' r = (v, v)) /\
    (is_enforced (il_sandbox l) = true -> backend_can_enforce = true /\ confined_to (il_sandbox l) (ch_confined ch) (ch_confined ch')) /\
    (close_range_rc = None \/ close_range_rc = Some ENOSYS) /\
    (forall fd, fd ∈ ch_fds ch' <-> fd ∈ ch_fds ch /\ (fd < 3 \/ beyond_sweep (ch_limits ch' RLIMIT_NOFILE).2 fd)).
Proof.
  intros (pass & dh & sh & Hpass & Hdh & Hsh & Hcl & Henv & Hhooks & Hdir & Hun)%launch_command_spec.
  apply resolve_allowlist_spec in Hpass as [Hn Hv]. split_and!.
  - intros Hinh k v Hk. apply child_env_found in Hk; [|by rewrite Hcl, Hinh]. rewrite Henv, elem_of_app in Hk.
    destruct Hk as [Hk|Hk]; [right|by left]. split; [rewrite <- Hn; by apply (list_elem_of_fmap_2 fst pass (k, v))|].
    eapply (Forall_forall _ pass) in Hv; [|exact Hk]. done.
  - intros k Hk. rewrite <- Hn in Hk. apply list_elem_of_fmap in Hk as ([k' v] & -> & Hk). apply (child_env_total _ _ _ v).
    rewrite Henv, elem_of_app. by left.
  - apply run_hooks_total.
  - intros ch' Hrun. rewrite Hhooks in Hrun. apply run_hooks_app in Hrun as (c1 & R1 & Hrun).
    apply run_hooks_app in Hrun as (c2 & R2 & (c3 & R3 & R4)%run_hooks_snoc). cbn [run_hook] in R4.
    apply close_fds_frame in R4 as (L4 & W4 & S4 & E4 & F4). apply (sandbox_hooks_run _ _ _ _ Hsh) in R3 as (L3 & W3 & F3 & S3).
    apply (dir_hooks_run _ _ _ _ Hdh) in R1 as (C1 & F1 & W1). apply limit_hooks_run in R2 as (C2 & W2 & F2 & L2).
    split_and!; try done.
    + intros dir Hd. destruct (W1 dir Hd) as (inode & Ho & E). exists inode. split; [done|]. by rewrite W4, W3, W2.
    + intros Hb r v [Hin Hany]%ceiling_configured. specialize (Hun Hany Hb). split; [done|]. rewrite L4, L3. by apply L2.
    + intros He. rewrite S4, <- C1, <- C2. by apply S3.
    + intros fd. by rewrite F4, F3, F2, F1, L4.
Qed.
End Launched.

(** ** On a sample system *)

Definition sample_fs : Fs := {|
  open_dir_nofollow path := if bool_decide (path = str "/srv/inner") then Some 77 else None;
  default_working_dir := str "/tmp/mcps-inner-1"; mkdir_private _ := MkdirOk; symlink_metadata _ := None; getuid := 1000 |}.

(** An x86_64 system with Landlock, whose filters are kept as the error number
    followed by the calls. *)
Definition sample_sandbox_host : SandboxHost := {|
  target_linux := true; target_arch := ArchX86_64; SYS_socket := 41; SYS_connect := 42; SYS_io_uring_setup := 425;
  SYS_io_uring_enter := 426; SYS_io_uring_register := 427; SYS_socketcall := 102; EACCES := 13;
  access_from_read := 0xD; access_from_all := 0x1FFF; handle_access_ok _ _ := true; ruleset_create_ok := true;
  path_fd path := if bool_decide (path = str "/srv/data") then Some 50 else None; add_rule_ok _ := true; seccomp_filter_ok _ := true;
  bpf_compile f := match sf_default f, sf_match f with ActAllow, ActErrno e => Some (e :: elements (sf_syscalls f)) | _, _ => None end;
  bpf_verdict p nr := match p with e :: nrs => if bool_decide (nr ∈ nrs) then ActErrno e else ActAllow | [] => ActAllow end |}.

Lemma sample_sandbox_host_laws : @SandboxHostLaws sample_sandbox_host.
Proof.
  split. intros [nrs [|] [|e] arch] p nr; cbn; try done. intros [= <-].
  destruct (decide (nr ∈ nrs)); [rewrite bool_decide_eq_true_2|rewrite bool_decide_eq_false_2]; [done|by rewrite elem_of_elements|done|by rewrite elem_of_elements].
Qed.

Definition linux : Platform := {| unix := true; platform_sandbox := sample_sandbox_host |}.

(** Every call succeeds, and file 51 lies below directory 50. *)
Definition sample_sandbox_kernel : SandboxKernel := {|
  prctl_no_new_privs_rc := None; ruleset_clone_ok := true; restrict_self _ := Some FullyEnforced; apply_filter_ok _ := true;
  is_beneath inode fd := (inode =? fd) || (inode =? fd + 1) |}.

(** A kernel before 5.9: no [close_range]. *)
Definition old_kernel : Kernel := {|
  setrlimit_rc _ _ := None; fchdir_rc _ := None; kernel_sandbox := sample_sandbox_kernel; close_range_rc := Some ENOSYS; getrlimit_ok := true;
  close_rc _ _ := None; close_patience := 1 |}.

Definition new_kernel : Kernel := {|
  setrlimit_rc _ _ := None; fchdir_rc _ := None; kernel_sandbox := sample_sandbox_kernel; close_range_rc := None; getrlimit_ok := true;
  close_rc _ _ := None; close_patience := 1 |}.

Lemma new_kernel_laws : @KernelLaws new_kernel.
Proof. split; [|done]. intros fd. exists 0%nat. split; [cbn; lia|done]. Qed.

Lemma old_kernel_laws : @KernelLaws old_kernel.
Proof. split; [|done]. intros fd. exists 0%nat. split; [cbn; lia|done]. Qed.

Definition sample_getter (name : rstr) : option rstr := if bool_decide (name = str "PATH") then Some (str "/bin") else Some (str "secret").

Definition sample_launch : InnerLaunchConfig :=
  inner_launch_new <| allow_env_names := [str "PATH"] |> <| working_dir := Some (str "/srv/inner") |>
    <| il_sandbox ::= fun s => s <| sb_mode := SandboxEnforce |> <| fs_allow_read := [str "/srv/data"] |> |> <| il_rlimits ::= fun r => r <| nofile := Some 64 |> |>.

(** The forked child, with a descriptor of the sidecar still open. *)
Definition sample_child : Child := {|
  ch_limits _ := (1024, 4096); ch_cwd := None; ch_fds := {[ 0; 1; 2; 100 ]}; ch_confined := unconfined |}.

Definition sample_artifacts : SandboxArtifacts := {|
  sa_ruleset := {| rs_handled := 0x1FFF; rs_rules := [{| pb_fd := 50; pb_access := 0xD |}] |};
  sa_egress_filter := Some (13 :: elements (list_to_set (C := gset Z) [41; 42; 425; 426; 427])) |}.

Definition sample_command : Command := {|
  cm_env_cleared := true; cm_env := [(str "PATH", str "/bin")]; cm_current_dir := None;
  cm_hooks := [HookFchdir 77; HookRlimits [(RLIMIT_NOFILE, 64); (RLIMIT_CORE, 0)] false;
               HookSandbox sample_artifacts; HookCloseFds] |}.

(** The sidecar's descriptor 100 and the one it opened as 40. *)
Definition sample_child_two : Child := sample_child <| ch_fds := {[ 0; 1; 2; 40; 100 ]} |>.

Lemma inner_launch_contained_witness :
  @launch_command sample_fs linux sample_launch sample_getter = Ok sample_command /\
  child_env sample_command sample_getter (str "AWS_SECRET_ACCESS_KEY") = None /\
  (exists ch', @run_hooks new_kernel (cm_hooks sample_command) sample_child = Some (Ok ch') /\
    ch_cwd ch' = Some 77 /\ ch_limits ch' RLIMIT_NOFILE = (64, 64) /\
    @may_access sample_sandbox_kernel (ch_confined ch') 2 51 = true /\ @may_access sample_sandbox_kernel (ch_confined ch') 1 51 = false /\
    @may_call sample_sandbox_host (ch_confined ch') 425 = false /\ (forall fd, fd ∈ ch_fds ch' -> fd < 3)) /\
  (exists ch', @run_hooks old_kernel (cm_hooks sample_command) sample_child_two = Some (Ok ch') /\ 40 ∉ ch_fds ch').
Proof.
  assert (Hc : @launch_command sample_fs linux sample_launch sample_getter = Ok sample_command) by (vm_compute; reflexivity).
  destruct (@inner_launch_contained sample_fs linux sample_sandbox_host_laws new_kernel new_kernel_laws sample_launch sample_getter sample_command
    sample_child Hc) as (H1 & _ & _ & H2).
  destruct (@inner_launch_contained sample_fs linux sample_sandbox_host_laws old_kernel old_kernel_laws sample_launch sample_getter sample_command
    sample_child_two Hc) as (_ & _ & _ & H3).
  split; [exact Hc|]. split; [vm_compute; reflexivity|]. split; cycle 1.
  { eexists. split; [vm_compute; reflexivity|]. destruct (H3 _ ltac:(vm_compute; reflexivity)) as (_ & _ & _ & _ & _ & Fd).
    intros [_ [Hlt|Hb]]%Fd; [lia|]. unfold beyond_sweep in Hb. cbn in Hb. lia. }
  eexists. split; [cbn; reflexivity|]. destruct (H2 _ ltac:(cbn; reflexivity)) as (W & _ & L & S & _ & Fd). split.
  - destruct (W (str "/srv/inner") eq_refl) as (inode & Hi & E). vm_compute in Hi. injection Hi as <-. exact E.
  - split; [apply L; reflexivity|]. destruct (S eq_refl) as [_ [_ HA _ HC _]]. split.
    { apply HA; [reflexivity|]. split; [|reflexivity]. exists (str "/srv/data"), 50. split; [reflexivity|]. split; [reflexivity|]. right.
      split; [by left|reflexivity]. }
    split; [vm_compute; reflexivity|]. split.
    + apply not_true_iff_false. intros [Hn _]%HC. apply Hn; [reflexivity|]. right. right. by left.
    + intros fd [_ [?|[]]]%Fd. done.
Defined.

(** The fallback loop is bounded by the hard limit, which the ceiling hook has
    lowered together with the soft one: with [--inner-rlimit-nofile 64] on a
    kernel without [close_range] the descriptor 100 reaches the inner server. *)
Theorem fallback_leaks_descriptor :
  exists ch', @run_hooks old_kernel (cm_hooks sample_command) sample_child = Some (Ok ch') /\ 100 ∈ ch_fds ch'.
Proof. eexists. split; [vm_compute; reflexivity|]. apply (bool_decide_eq_true_1 _). vm_compute. reflexivity. Qed.
