(* ===== verification/OneShot.v ===== *)
(** * One request, one process

    [SubprocessInner::run] of [mcps-proxy/src/cli.rs] after the spawn: the
    serving thread, the watchdog thread and the processes on the other end of
    the pipes, as a step relation over the points where they can interleave.
    [dispatch] turns the outcome into the answer of the inner server. *)

From S2P Require Import Prelude Utf8 Errors Json Canonical Strings Instances Pipeline Unwrap Proxy Sandbox Launch.

(** [wrote] is whether [write_all] succeeded. *)
Inductive Main : Type :=
| Writing
| Collecting (wrote : bool)
| Reaped (wrote : bool)
| JoiningWatchdog (wrote : bool)
| JoiningStderr (wrote : bool)
| Finished (wrote : bool)
| WaitFailed.

(** The child: running, with or without its standard input; exited but not
    waited for; waited for. *)
Inductive Process : Type := Running (stdin : bool) | Zombie | Gone.

(** The watchdog: in [recv_timeout], past it, after the store, returned. *)
Inductive Watchdog : Type := Armed | Expired | Flagged | Ended.

(** [holders] counts the descendants of the child that still hold its pipes;
    [done] is the message of the channel; [killed] and [stray] record whether
    the signal met the running child or a pid that was already waited for. *)
Record Run : Type := {
  r_main : Main;
  r_child : Process;
  r_holders : nat;
  r_watchdog : Watchdog;
  r_timed_out : bool;
  r_done : bool;
  r_killed : bool;
  r_stray : bool;
}.
#[export] Instance Run_settable : Settable Run := fun r => {|
  r_main := r_main r; r_child := r_child r; r_holders := r_holders r; r_watchdog := r_watchdog r; r_timed_out := r_timed_out r;
  r_done := r_done r; r_killed := r_killed r; r_stray := r_stray r |}.

Definition spawned (holders : nat) : Run := {|
  r_main := Writing; r_child := Running true; r_holders := holders; r_watchdog := Armed; r_timed_out := false; r_done := false;
  r_killed := false; r_stray := false |}.

(** Whether somebody can still read the child's input, or write its outputs. *)
Definition has_reader (r : Run) : bool := match r_child r with Running true => true | _ => (0 <? r_holders r)%nat end.
Definition has_writer (r : Run) : bool := match r_child r with Running _ => true | _ => (0 <? r_holders r)%nat end.

(** [libc::kill(pid, SIGKILL)]. *)
Definition kill (r : Run) : Run :=
  match r_child r with
  | Running _ => r <| r_child := Zombie |> <| r_killed := true |>
  | Zombie => r
  | Gone => r <| r_stray := true |>
  end.

(** The threads of the sidecar. *)
Inductive thread_step : Run -> Run -> Prop :=
| write_broken r : r_main r = Writing -> has_reader r = false -> thread_step r (r <| r_main := Collecting false |>)
| collected r wrote : r_main r = Collecting wrote -> has_writer r = false -> r_child r = Zombie ->
    thread_step r (r <| r_main := Reaped wrote |> <| r_child := Gone |>)
| stand_down r wrote : r_main r = Reaped wrote -> thread_step r (r <| r_main := JoiningWatchdog wrote |> <| r_done := true |>)
| join_watchdog r wrote : r_main r = JoiningWatchdog wrote -> r_watchdog r = Ended -> thread_step r (r <| r_main := JoiningStderr wrote |>)
| join_stderr r wrote : r_main r = JoiningStderr wrote -> has_writer r = false -> thread_step r (r <| r_main := Finished wrote |>)
| received r : r_watchdog r = Armed -> r_done r = true -> thread_step r (r <| r_watchdog := Ended |>)
| expired r : r_watchdog r = Armed -> r_done r = false -> thread_step r (r <| r_watchdog := Expired |>)
| flag_timeout r : r_watchdog r = Expired -> thread_step r (r <| r_watchdog := Flagged |> <| r_timed_out := true |>)
| signal r : r_watchdog r = Flagged -> thread_step r (kill r <| r_watchdog := Ended |>).

(** The processes outside, among them the one that takes the request from the
    pipe, and an error of the pipe or of [wait]. *)
Inductive world_step : Run -> Run -> Prop :=
| request_taken r : r_main r = Writing -> has_reader r = true -> world_step r (r <| r_main := Collecting true |>)
| child_closes_stdin r : r_child r = Running true -> world_step r (r <| r_child := Running false |>)
| child_exits r stdin : r_child r = Running stdin -> world_step r (r <| r_child := Zombie |>)
| holder_exits r n : r_holders r = S n -> world_step r (r <| r_holders := n |>)
| wait_fails r wrote : r_main r = Collecting wrote -> world_step r (r <| r_main := WaitFailed |>).

Definition step (r r' : Run) : Prop := thread_step r r' \/ world_step r r'.

Definition returned (r : Run) : bool := match r_main r with Finished _ | WaitFailed => true | _ => false end.

(** What [run] returns; [stdout] is what was collected. *)
Inductive RunError : Type := RunTimedOut | RunBrokenPipe | RunIo.

Definition run_result (stdout : bytes) (r : Run) : option (result bytes RunError) :=
  match r_main r with
  | Finished wrote => Some (if r_timed_out r then Err RunTimedOut else if wrote then Ok stdout else Err RunBrokenPipe)
  | WaitFailed => Some (Err RunIo)
  | _ => None
  end.

(** [InnerServer::dispatch]; [display] is the text of the error. *)
Definition INNER_UNAVAILABLE : rstr := str "inner server unavailable".

Definition subprocess_dispatch `{SerdeSer} (display : RunError -> rstr) (outcome : result bytes RunError) : bytes :=
  match outcome with
  | Ok response => response
  | Err e => default [] (to_vec (json_object [
      (str "jsonrpc", VString (str "2.0")); (str "id", VNull);
      (str "error", json_object [(str "code", VNumber (NegInt (-32603))); (str "message", VString INNER_UNAVAILABLE);
                                 (str "data", VString (display e))])]))
  end.

(** ** The watchdog of a one-shot request

    Termination and absence of deadlock by a measure and an invariant of the
    step relation, and the two runs that contradict the comments. *)

(** ** Every step is a step towards the end *)

Definition main_left (m : Main) : nat :=
  match m with Writing => 5 | Collecting _ => 4 | Reaped _ => 3 | JoiningWatchdog _ => 2 | JoiningStderr _ => 1 | Finished _ | WaitFailed => 0 end.
Definition child_left (p : Process) : nat := match p with Running true => 2 | Running false => 1 | Zombie | Gone => 0 end.
Definition watchdog_left (w : Watchdog) : nat := match w with Armed => 3 | Expired => 2 | Flagged => 1 | Ended => 0 end.
Definition left (r : Run) : nat := main_left (r_main r) + child_left (r_child r) + watchdog_left (r_watchdog r) + r_holders r.

Lemma step_progresses r r' : step r r' -> (left r' < left r)%nat.
Proof.
  destruct r as [m c h w t d k s]. intros [H|H]; inversion H; subst; unfold left; cbn in *; subst; cbn; try lia.
  - unfold kill. cbn. destruct c as [[]| |]; cbn in *; lia.
  - destruct stdin; lia.
Qed.

Lemma nsteps_bounded n r r' : nsteps step n r r' -> (n + left r' <= left r)%nat.
Proof. induction 1 as [|n r1 r2 r3 H _ IH]; [lia|]. apply step_progresses in H. lia. Qed.

(** ** What holds along the way *)

Definition before_reaping (m : Main) : bool := match m with Writing | Collecting _ | WaitFailed => true | _ => false end.
Definition told (m : Main) : bool := match m with JoiningWatchdog _ | JoiningStderr _ | Finished _ => true | _ => false end.

Record run_inv (holders : nat) (r : Run) : Prop := {
  inv_holders : (r_holders r <= holders)%nat;
  inv_child : r_child r = Gone <-> before_reaping (r_main r) = false;
  inv_done : r_done r = told (r_main r);
  inv_joined : match r_main r with JoiningStderr _ | Finished _ => r_watchdog r = Ended | _ => True end;
  inv_flag : r_timed_out r = match r_watchdog r with Armed | Expired => false | Flagged => true | Ended => r_timed_out r end;
  inv_quiet : r_timed_out r = false -> r_killed r = false /\ r_stray r = false;
  inv_ended : r_watchdog r = Ended -> if r_timed_out r then forall b, r_child r <> Running b else r_done r = true;
}.

Lemma spawned_inv holders : run_inv holders (spawned holders).
Proof. by split. Qed.

Lemma signal_inv holders r : run_inv holders r -> r_watchdog r = Flagged -> run_inv holders (kill r <| r_watchdog := Ended |>).
Proof.
  intros [Hh Hc Hd Hj Hf Hq He] Hw. destruct r as [m c h w t d k s]. cbn in *. subst w t.
  destruct c as [b| |]; split; cbn in *; try done; try (intuition congruence); by destruct m.
Qed.

Lemma run_step_inv holders r r' : run_inv holders r -> step r r' -> run_inv holders r'.
Proof.
  intros Hi [H|H]; destruct H; try (by apply signal_inv); destruct Hi as [Hh Hc Hd Hj Hf Hq He], r as [m c h w t d k s]; cbn in *; subst;
    split; cbn; try done; try lia; try tauto; try (intuition congruence).
  all: try (by destruct m); try (by destruct t).
  all: intros Hw; specialize (He Hw); destruct t; [|done]; by edestruct He.
Qed.

Lemma reachable_inv holders r : rtc step (spawned holders) r -> run_inv holders r.
Proof. intros H. eapply (rtc_ind_l (fun a => run_inv holders a -> run_inv holders r)); [done| |exact H|apply spawned_inv]. eauto using run_step_inv. Qed.

(** With nobody else on the pipes, a thread can move until the call returns. *)
Lemma thread_moves r : run_inv 0 r -> returned r = false -> exists r', thread_step r r'.
Proof.
  intros [Hh Hc Hd Hj Hf Hq He] Hr. destruct r as [m c h w t d k s]. cbn in *. assert (h = 0%nat) as -> by lia.
  destruct w.
  - destruct d; [eexists; by apply received|eexists; by apply expired].
  - eexists. by apply flag_timeout.
  - eexists. by apply signal.
  - specialize (He eq_refl). destruct m; try done; cbn in *; subst d; destruct t; try done.
    + eexists. apply write_broken; [done|]. cbn. destruct c as [[]| |]; [by destruct (He true)|by destruct (He false)|done|done].
    + destruct c as [b| |]; [by destruct (He b)| |naive_solver]. eexists. by eapply collected.
    + eexists. by eapply stand_down.
    + eexists. by eapply join_watchdog.
    + eexists. by eapply join_watchdog.
    + assert (c = Gone) as -> by (by apply Hc). eexists. by eapply join_stderr.
    + assert (c = Gone) as -> by (by apply Hc). eexists. by eapply join_stderr.
Qed.

(** C35: The call to a one-shot inner server always comes back.  With no process but the child on its pipes, whatever the child does
    (never reads, never exits, dies, closes its input) and however the threads interleave with it and with the deadline, the run has at
    most ten steps, and as long as it has not returned the serving thread or the watchdog can move, so it is never stuck.  When it
    returns an answer, the watchdog never fired, no signal was sent and the child has been waited for; when the child was killed, the
    call is an error and never the partial output. *)
Theorem one_shot_never_hangs stdout n r :
  nsteps step n (spawned 0) r ->
  (n <= 10)%nat /\
  ((forall r', ~ thread_step r r') -> exists out, run_result stdout r = Some out) /\
  (forall answer, run_result stdout r = Some (Ok answer) ->
     answer = stdout /\ r_child r = Gone /\ r_watchdog r = Ended /\ r_timed_out r = false /\ r_killed r = false /\ r_stray r = false) /\
  (r_killed r = true -> forall out, run_result stdout r = Some out -> out = Err RunTimedOut \/ out = Err RunIo).
Proof.
  intros H. assert (Hi : run_inv 0 r) by (apply reachable_inv; apply rtc_nsteps; by exists n).
  split; [apply nsteps_bounded in H; cbn in H; lia|]. split; [|destruct Hi as [_ Hc _ Hj _ Hq _]; split].
  - intros Hstuck. destruct (returned r) eqn:Er; [|destruct (thread_moves r Hi Er) as [r' ?]; by destruct (Hstuck r')].
    unfold returned in Er. unfold run_result. destruct (r_main r); try done; by eexists.
  - intros answer. unfold run_result. destruct (r_main r) as [| | | | |wrote|]; try done. destruct (r_timed_out r); [done|].
    destruct wrote; [|done]. intros [= <-]. destruct (Hq eq_refl). split_and!; try done. by apply Hc.
  - intros Hk out. unfold run_result. destruct (r_timed_out r); [|destruct (Hq eq_refl); congruence].
    destruct (r_main r); try done; intros [= <-]; auto.
Qed.

(** ** Runs *)

Lemma steps_cons n r1 r2 r3 : step r1 r2 -> nsteps step n r2 r3 -> nsteps step (S n) r1 r3.
Proof. apply nsteps_l. Qed.

Ltac threads H := eapply steps_cons; [left; eapply H; reflexivity|cbn].
Ltac world H := eapply steps_cons; [right; eapply H; reflexivity|cbn].

(** A child that never reads and never exits. *)
Definition timed_out_run : Run := {|
  r_main := Finished false; r_child := Gone; r_holders := 0; r_watchdog := Ended; r_timed_out := true; r_done := true; r_killed := true;
  r_stray := false |}.

Lemma wedged_run : nsteps step 8 (spawned 0) timed_out_run.
Proof.
  threads expired. threads flag_timeout. threads signal. threads write_broken. threads collected. threads stand_down.
  threads join_watchdog. threads join_stderr. apply nsteps_O.
Qed.

Lemma one_shot_never_hangs_witness : run_result [] timed_out_run = Some (Err RunTimedOut) /\ (8 <= 10)%nat.
Proof.
  destruct (one_shot_never_hangs [] 8 timed_out_run wedged_run) as (H1 & _ & _ & H2). split; [reflexivity|exact H1].
Defined.

(** The signal can reach a pid that was already waited for, which by then may be another process: the deadline passes after the child was
    reaped and before the watchdog is told. *)
Theorem signal_after_reaping : exists n r, nsteps step n (spawned 0) r /\ r_stray r = true /\ r_child r = Gone /\ r_killed r = false.
Proof.
  eexists 6%nat, _. split; [|repeat split].
  - world request_taken. world child_exits. threads collected. threads expired. threads flag_timeout. threads signal. apply nsteps_O.
  - reflexivity.
  - reflexivity.
  - reflexivity.
Qed.

(** A descendant that keeps the output open: the deadline has passed, the child is dead, and neither thread can move until that
    descendant decides to exit. *)
Theorem held_pipe_hangs :
  exists n r, nsteps step n (spawned 1) r /\ r_timed_out r = true /\ r_child r = Zombie /\ returned r = false /\
    (forall r', ~ thread_step r r') /\
    (forall r', world_step r r' -> r_holders r' = 0%nat \/ r_main r' = WaitFailed).
Proof.
  eexists 4%nat, {| r_main := Collecting true; r_child := Zombie; r_holders := 1; r_watchdog := Ended; r_timed_out := true; r_done := false;
                    r_killed := true; r_stray := false |}.
  split; [world request_taken; threads expired; threads flag_timeout; threads signal; apply nsteps_O|].
  split_and!; try done; intros r' H; inversion H; subst; cbn in *; try discriminate; simplify_eq; auto.
Qed.
