(* ===== verification/Persistent.v ===== *)
(** * The persistent inner server

    [mcps-proxy/src/persistent_inner.rs]: one child for many requests, over its
    standard input and output, one JSON object per line.  The child and its
    pipes are a parameter ([ChildIo]): the state that the system calls of the
    sidecar act on, with its clock.  Durations and instants are in nanoseconds.
    The loops take fuel, [None] being fuel exhausted; [PersistentTheorems] shows
    how much is enough. *)

From S2P Require Import Prelude Utf8 Errors Json Canonical Strings Envelope Pipeline Unwrap Policy Proxy Http Ocsp Sandbox Launch.

Definition PROTOCOL_VERSION : rstr := str "2025-06-18".
Definition CARGO_PKG_VERSION : rstr := str "0.7.0".
Definition MAX_INNER_LINE_BYTES : Z := 1048576.
Definition MAX_SKIPPED_LINES : nat := 64.
Definition I32_MAX : Z := 2 ^ 31 - 1.

Inductive OsKind : Type := OsInterrupted | OsWouldBlock | OsOther.

Record OsError : Type := { os_kind : OsKind; os_display : rstr }.

(** The child, its pipes and the system calls on them: [poll] for writing and
    for reading with a timeout in milliseconds, which gives the number of ready
    descriptors; [write], [flush] and [read]; [fcntl] on the standard input;
    [kill] (whether it succeeded) and [wait] (the exit code, if the child was
    not ended by a signal). *)
Class ChildIo (Ch : Type) := {
  ci_now : Ch -> Z;
  poll_stdin : Ch -> Z -> result Z OsError * Ch;
  poll_stdout : Ch -> Z -> result Z OsError * Ch;
  write_stdin : Ch -> bytes -> result nat OsError * Ch;
  flush_stdin : Ch -> result unit OsError * Ch;
  read_stdout : Ch -> nat -> result bytes OsError * Ch;
  O_NONBLOCK : Z;
  fcntl_getfl : Ch -> result Z OsError;
  fcntl_setfl : Ch -> Z -> result unit OsError * Ch;
  child_kill : Ch -> bool * Ch;
  child_wait : Ch -> result (option Z) OsError * Ch;
}.

Inductive PollOutcome : Type := Readable | PollTimedOut.
Inductive PollWriteOutcome : Type := Writable | PollWriteTimedOut.
Inductive ReadLineOutcome : Type := Line (bs : bytes) | Eof.

Section Pipes.
Context `{ChildIo Ch} (instant_max : Z).

(** [Instant::now() .. deadline], not below zero. *)
Definition remaining_until (deadline : Z) (c : Ch) : Z := Z.max 0 (deadline - ci_now c).

(** The loop of the two polls: whether the descriptor became ready. *)
Fixpoint poll_loop (poll : Ch -> Z -> result Z OsError * Ch) (fuel : nat) (deadline : Z) (c : Ch)
  : option (result bool OsError * Ch) :=
  match fuel with
  | O => None
  | S fuel' =>
      let remaining := remaining_until deadline c in
      if remaining =? 0 then Some (Ok false, c)
      else
        let millis := Z.max (Z.min (remaining / 10 ^ 6) I32_MAX) 1 in
        match poll c millis with
        | (Err e, c') =>
            match os_kind e with
            | OsInterrupted => poll_loop poll fuel' deadline c'
            | _ => Some (Err e, c')
            end
        | (Ok rc, c') => Some (Ok (negb (rc =? 0)), c')
        end
  end.

Definition poll_readable (fuel : nat) (c : Ch) (budget : Z) : option (result PollOutcome rstr * Ch) :=
  match instant_checked_add instant_max (ci_now c) budget with
  | None => Some (Err (str "inner read deadline overflow (timeout too large)"), c)
  | Some deadline =>
      '(r, c') ← poll_loop poll_stdout fuel deadline c;
      Some (match (r : result bool OsError) with
            | Err e => Err (str "poll inner stdout: " ++ os_display e)
            | Ok ready => Ok (if ready then Readable else PollTimedOut)
            end, c')
  end.

Definition poll_writable (fuel : nat) (c : Ch) (budget : Z) : option (result PollWriteOutcome rstr * Ch) :=
  match instant_checked_add instant_max (ci_now c) budget with
  | None => Some (Err (str "inner write deadline overflow (timeout too large)"), c)
  | Some deadline =>
      '(r, c') ← poll_loop poll_stdin fuel deadline c;
      Some (match (r : result bool OsError) with
            | Err e => Err (str "poll inner stdin: " ++ os_display e)
            | Ok ready => Ok (if ready then Writable else PollWriteTimedOut)
            end, c')
  end.

(** ** Writing *)

Definition set_nonblocking (c : Ch) (nonblocking : bool) : result bool rstr * Ch :=
  match fcntl_getfl c with
  | Err e => (Err (str "fcntl F_GETFL on inner stdin: " ++ os_display e), c)
  | Ok flags =>
      let was_nonblocking := negb (Z.land flags O_NONBLOCK =? 0) in
      let new_flags := if nonblocking then Z.lor flags O_NONBLOCK else Z.land flags (Z.lnot O_NONBLOCK) in
      if new_flags =? flags then (Ok was_nonblocking, c)
      else
        match fcntl_setfl c new_flags with
        | (Err e, c') => (Err (str "fcntl F_SETFL on inner stdin: " ++ os_display e), c')
        | (Ok _, c') => (Ok was_nonblocking, c')
        end
  end.

Definition write_exceeded (timeout : Z) : rstr :=
  str "inner stdin write exceeded " ++ debug_duration timeout ++ str " (inner not draining stdin)".

(** [buf] is what is left to send. *)
Fixpoint write_all_nonblocking (poll_fuel fuel : nat) (c : Ch) (buf : bytes) (deadline timeout : Z)
  : option (result unit rstr * Ch) :=
  match fuel with
  | O => None
  | S fuel' =>
      match buf with
      | [] => Some (Ok tt, c)
      | _ :: _ =>
          let remaining := remaining_until deadline c in
          if remaining =? 0 then Some (Err (write_exceeded timeout), c)
          else
            '(polled, c1) ← poll_writable poll_fuel c remaining;
            match polled with
            | Err e => Some (Err e, c1)
            | Ok PollWriteTimedOut => Some (Err (write_exceeded timeout), c1)
            | Ok Writable =>
                match write_stdin c1 buf with
                | (Ok O, c2) =>
                    Some (Err (str "inner closed stdin (crash mid-session?) before draining the request"), c2)
                | (Ok n, c2) => write_all_nonblocking poll_fuel fuel' c2 (drop n buf) deadline timeout
                | (Err e, c2) =>
                    match os_kind e with
                    | OsWouldBlock | OsInterrupted => write_all_nonblocking poll_fuel fuel' c2 buf deadline timeout
                    | OsOther => Some (Err (os_display e), c2)
                    end
                end
            end
      end
  end.

Definition write_all_until_deadline (fuel : nat) (c : Ch) (buf : bytes) (deadline timeout : Z)
  : option (result unit rstr * Ch) :=
  match set_nonblocking c true with
  | (Err e, c1) => Some (Err e, c1)
  | (Ok restore, c1) =>
      '(result, c2) ← write_all_nonblocking fuel fuel c1 buf deadline timeout;
      Some (result, (set_nonblocking c2 restore).2)
  end.

(** ** The session *)

Record Session : Type := {
  s_child : Ch;
  s_buffer : bytes;
  s_next_id : Z;
  s_poisoned : bool;
  s_read_timeout : Z;
}.
#[export] Instance Session_settable : Settable Session := fun s => {|
  s_child := s_child s; s_buffer := s_buffer s; s_next_id := s_next_id s; s_poisoned := s_poisoned s;
  s_read_timeout := s_read_timeout s |}.

(** Step 1 of the line reader over the buffered bytes: the line so far, what is
    left in the buffer, whether the newline was found, whether the cap was
    exceeded. *)
Fixpoint drain_buffer (line buffered : bytes) : bytes * bytes * bool * bool :=
  match buffered with
  | [] => (line, [], false, false)
  | b :: rest =>
      let line := line ++ [b] in
      if b =? 10 then (line, rest, true, false)
      else if MAX_INNER_LINE_BYTES <? blen line then (line, rest, false, true)
      else drain_buffer line rest
  end.

Definition read_exceeded (timeout : Z) : rstr :=
  str "inner stdout read exceeded " ++ debug_duration timeout ++ str " (silent or hung inner)".

(** [BufReader]'s default capacity. *)
Definition BUF_READER_CAPACITY : nat := Z.to_nat 8192.

Fixpoint read_line_until_deadline (poll_fuel fuel : nat) (s : Session) (deadline : Z) (line : bytes)
  : option (result ReadLineOutcome rstr * Session) :=
  match fuel with
  | O => None
  | S fuel' =>
      let '(line, rest, found_newline, over_cap) := drain_buffer line (s_buffer s) in
      let s := s <| s_buffer := rest |> in
      if over_cap
      then Some (Err (str "inner stdout line exceeded " ++ display_unsigned MAX_INNER_LINE_BYTES ++
                      str " bytes (unbounded-line flood)"), s)
      else if found_newline then Some (Ok (Line line), s)
      else
        let remaining := remaining_until deadline (s_child s) in
        if remaining =? 0 then Some (Err (read_exceeded (s_read_timeout s)), s)
        else
          '(polled, c1) ← poll_readable poll_fuel (s_child s) remaining;
          let s := s <| s_child := c1 |> in
          match polled with
          | Err e => Some (Err e, s)
          | Ok PollTimedOut => Some (Err (read_exceeded (s_read_timeout s)), s)
          | Ok Readable =>
              match read_stdout c1 BUF_READER_CAPACITY with
              | (Err e, c2) => Some (Err (str "read from inner stdout: " ++ os_display e), s <| s_child := c2 |>)
              | (Ok [], c2) =>
                  Some (Ok (if is_empty line then Eof else Line line), s <| s_child := c2 |>)
              | (Ok filled, c2) =>
                  read_line_until_deadline poll_fuel fuel' (s <| s_child := c2 |> <| s_buffer := filled |>) deadline line
              end
          end
  end.
End Pipes.
Arguments Session Ch : clear implicits.

(** A line of the log: an event, or the captured standard error. *)
Inductive LogEntry : Type :=
| LogEvent (event : InnerLogEvent)
| LogStderr (captured : bytes).

Section Exchange.
Context `{SerdeJson, SerdeSer, SerdeTexts, ChildIo Ch} (instant_max : Z).

(** The loop over at most [MAX_SKIPPED_LINES + 1] lines. *)
Fixpoint read_matching (lines fuel : nat) (s : Session Ch) (deadline : Z) (want_id : Value)
  : option (result bytes rstr * Session Ch) :=
  match lines with
  | O => Some (Err (str "inner produced no response with the matching id within the line bound"), s)
  | S lines' =>
      '(read, s1) ← read_line_until_deadline instant_max fuel fuel s deadline [];
      match read with
      | Err e => Some (Err e, s1)
      | Ok Eof => Some (Err (str "inner closed stdout (crash mid-session?) before responding"), s1)
      | Ok (Line bs) =>
          let line := trim (from_utf8_lossy bs) in
          if is_empty line then read_matching lines' fuel s1 deadline want_id
          else
            match from_slice (as_bytes line) with
            | None => Some (Err (str "inner stdout line is not valid JSON"), s1)
            | Some value =>
                let line_id := default VNull (get (str "id") value) in
                if (match want_id with VNull => true | _ => false end) || value_eqb line_id want_id
                then Some (Ok (as_bytes line), s1)
                else read_matching lines' fuel s1 deadline want_id
            end
      end
  end.

(** A write of the exchange, its error labelled. *)
Definition write_labelled (fuel : nat) (s : Session Ch) (buf : bytes) (deadline : Z) (label : rstr)
  : option (result unit rstr * Session Ch) :=
  '(r, c) ← write_all_until_deadline instant_max fuel (s_child s) buf deadline (s_read_timeout s);
  Some (map_err (fun e => label ++ e) (r : result unit rstr), s <| s_child := c |>).

Definition write_line_read_matching (fuel : nat) (s : Session Ch) (request : bytes) (want_id : Value)
  : option (result bytes rstr * Session Ch) :=
  if bool_decide (10 ∈ request) then Some (Err (str "request frame contained an embedded newline"), s)
  else
    match instant_checked_add instant_max (ci_now (s_child s)) (s_read_timeout s) with
    | None => Some (Err (str "inner write deadline overflow (timeout too large)"), s)
    | Some write_deadline =>
        '(r1, s1) ← write_labelled fuel s request write_deadline (str "write to inner stdin: ");
        match r1 with
        | Err e => Some (Err e, s1)
        | Ok _ =>
            '(r2, s2) ← write_labelled fuel s1 [10] write_deadline (str "write newline to inner stdin: ");
            match r2 with
            | Err e => Some (Err e, s2)
            | Ok _ =>
                let (r3, c) := flush_stdin (s_child s2) in
                let s3 := s2 <| s_child := c |> in
                match r3 with
                | Err e => Some (Err (str "flush inner stdin: " ++ os_display e), s3)
                | Ok _ =>
                    match instant_checked_add instant_max (ci_now (s_child s3)) (s_read_timeout s3) with
                    | None => Some (Err (str "inner read deadline overflow (timeout too large)"), s3)
                    | Some deadline => read_matching (S MAX_SKIPPED_LINES) fuel s3 deadline want_id
                    end
                end
            end
        end
    end.

(** [Session::alloc_id]. *)
Definition alloc_id (s : Session Ch) : Z * Session Ch := (s_next_id s, s <| s_next_id := s_next_id s + 1 |>).

Definition initialize_request (id : Z) : Value :=
  json_object
    [(str "jsonrpc", VString (str "2.0")); (str "id", value_of_i64 id); (str "method", VString (str "initialize"));
     (str "params", json_object
        [(str "protocolVersion", VString PROTOCOL_VERSION); (str "capabilities", json_object []);
         (str "clientInfo", json_object [(str "name", VString (str "mcps-proxy")); (str "version", VString CARGO_PKG_VERSION)])])].

Definition initialize (fuel : nat) (s : Session Ch) : option (result unit rstr * Session Ch) :=
  let (id, s) := alloc_id s in
  match to_vec (initialize_request id) with
  | None => Some (Err (ser_error_display (initialize_request id)), s)
  | Some bs =>
      '(r, s1) ← write_line_read_matching fuel s bs (value_of_i64 id);
      Some (match r with
            | Err e => Err e
            | Ok response =>
                match from_slice response with
                | None => Err (str "initialize response was not JSON")
                | Some value =>
                    match get (str "error") value with
                    | Some error => Err (str "inner rejected initialize: " ++ value_display error)
                    | None =>
                        match get (str "result") value with
                        | None => Err (str "initialize response carried no result")
                        | Some _ => Ok tt
                        end
                    end
                end
            end, s1)
  end.

(** The id [exchange] correlates by. *)
Definition request_id (request : bytes) : Value :=
  default VNull (from_slice request ≫= get (str "id")).

Definition exchange (fuel : nat) (s : Session Ch) (request : bytes) : option (result bytes rstr * Session Ch) :=
  write_line_read_matching fuel s request (request_id request).

(** [.ok().and_then(|s| s.code())]. *)
Definition exit_code (waited : result (option Z) OsError) : option Z := match waited with Ok code => code | Err _ => None end.

Definition kill_and_reap (s : Session Ch) (reason : rstr) : Session Ch * list LogEntry :=
  let (killed, c1) := child_kill (s_child s) in
  let (waited, c2) := child_wait c1 in
  (s <| s_child := c2 |>, (if killed then [LogEvent (Killed reason)] else []) ++ [LogEvent (Exited (exit_code waited))]).

(** ** The inner server *)

Record PersistentSubprocessInner : Type := {
  pi_identity : rstr;
  pi_session : Session Ch;
  pi_lock_poisoned : bool;
}.

Definition persistent_fail_closed (detail : rstr) : bytes :=
  default [] (to_vec (json_object [
    (str "jsonrpc", VString (str "2.0")); (str "id", VNull);
    (str "error", json_object [(str "code", VNumber (NegInt (-32603))); (str "message", VString (str "inner server unavailable"));
                               (str "data", VString detail)])])).

Definition with_session (p : PersistentSubprocessInner) (s : Session Ch) : PersistentSubprocessInner :=
  {| pi_identity := pi_identity p; pi_session := s; pi_lock_poisoned := pi_lock_poisoned p |}.

Definition persistent_dispatch (fuel : nat) (p : PersistentSubprocessInner) (request : bytes)
  : option (bytes * list LogEntry * PersistentSubprocessInner) :=
  if pi_lock_poisoned p then Some (persistent_fail_closed (str "inner session lock poisoned"), [], p)
  else if s_poisoned (pi_session p) then Some (persistent_fail_closed (str "inner session previously failed"), [], p)
  else
    '(r, s) ← exchange fuel (pi_session p) request;
    match r with
    | Ok response =>
        Some (response,
              match from_slice response with
              | Some _ => []
              | None => [LogEvent (ProtocolError (str "inner stdout line is not a JSON-RPC frame"))]
              end,
              with_session p s)
    | Err err =>
        let (s', log) := kill_and_reap (s <| s_poisoned := true |>) (str "dispatch failure") in
        Some (persistent_fail_closed err, LogEvent (ProtocolError err) :: log, with_session p s')
    end.

(** Why a construction failed: a text, or an error of the launch policy. *)
Inductive PersistentError : Type :=
| PeText (text : rstr)
| PeLaunch (e : LaunchError).

(** [with_log_sink]: [spawn] starts the program with its arguments as the
    command says and gives the child's pid, [getter] reads the environment. *)
Definition persistent_new `{Fs, Platform} (spawn : rstr -> list rstr -> Command -> result (Z * Ch) rstr)
    (getter : rstr -> option rstr) (fuel : nat) (inner_command : list rstr) (launch : InnerLaunchConfig)
  : option (result PersistentSubprocessInner PersistentError * list LogEntry) :=
  match inner_command with
  | [] => Some (Err (PeText (str "persistent inner: empty inner command")), [])
  | program :: args =>
      match launch_command launch getter with
      | Err e => Some (Err (PeLaunch e), [])
      | Ok command =>
          match spawn program args command with
          | Err e => Some (Err (PeText (str "persistent inner: spawn failed: " ++ e)), [LogEvent (SpawnFailed e)])
          | Ok (pid, c) =>
              let session := {| s_child := c; s_buffer := []; s_next_id := 1; s_poisoned := false;
                                s_read_timeout := inner_read_timeout launch * NANOS |} in
              '(r, s) ← initialize fuel session;
              match r with
              | Err err =>
                  let (_, log) := kill_and_reap (s <| s_poisoned := true |>) (str "initialize handshake failed") in
                  Some (Err (PeText (str "persistent inner: initialize handshake failed: " ++ err)),
                        LogEvent (Spawned pid) :: LogEvent (ProtocolError (str "initialize handshake: " ++ err)) :: log)
              | Ok _ =>
                  Some (Ok {| pi_identity := program; pi_session := s; pi_lock_poisoned := false |}, [LogEvent (Spawned pid)])
              end
          end
      end
  end.

(** ** Shutdown *)

Definition shutdown_request (id : Z) : Value :=
  json_object [(str "jsonrpc", VString (str "2.0")); (str "id", value_of_i64 id); (str "method", VString (str "shutdown"))].

(** The two writes of [drop], their outcomes ignored. *)
Definition write_shutdown (fuel : nat) (s : Session Ch) (bs : bytes) : option (Session Ch) :=
  s' ← match instant_checked_add instant_max (ci_now (s_child s)) (Z.min (s_read_timeout s) NANOS) with
       | None => Some s
       | Some deadline =>
           '(_, s1) ← write_labelled fuel s bs deadline [];
           '(_, s2) ← write_labelled fuel s1 [10] deadline [];
           Some s2
       end;
  Some (s' <| s_child := (flush_stdin (s_child s')).2 |>).

Definition persistent_drop (fuel : nat) (p : PersistentSubprocessInner) : option (list LogEntry * PersistentSubprocessInner) :=
  if pi_lock_poisoned p || s_poisoned (pi_session p) then Some ([], p)
  else
    let (id, s) := alloc_id (pi_session p) in
    s1 ← match to_vec (shutdown_request id) with
         | None => Some s
         | Some bs => write_shutdown fuel s bs
         end;
    let c1 := (child_kill (s_child s1)).2 in
    let (waited, c2) := child_wait c1 in
    Some ([LogEvent (Exited (exit_code waited))], with_session p (s1 <| s_child := c2 |>)).
End Exchange.
Arguments PersistentSubprocessInner Ch : clear implicits.

(** The thread of [spawn_stderr_drain], over the chunks the pipe yields up to
    its end or an error. *)
Definition stderr_drain (launch : InnerLaunchConfig) (chunks : list bytes) : list LogEntry :=
  let capture := foldl (fun b chunk => stderr_push chunk b) (new_stderr_capture launch) chunks in
  (if be_truncated capture then [LogEvent (StderrTruncated (blen (be_bytes_ capture)) (be_cap_bytes capture))] else []) ++
  (if is_empty (be_bytes_ capture) then [] else [LogStderr (be_bytes_ capture)]).
