(* ===== verification/PersistentTheorems.v ===== *)
(** * Theorems of the persistent inner server

    However the child behaves, an exchange ends within the two deadlines; a
    request goes out as one line and the answer is a line of the child's output
    with the request's id, nothing of that output being lost or read twice; and
    a session that failed is never used again. *)

From S2P Require Import Prelude Utf8 Errors Json Canonical Strings Envelope Instances Pipeline Unwrap Policy Proxy Http Ocsp Sandbox Launch Persistent.

(** ** What the system calls are relied on for *)

(** [ci_sent] is what the child's input has received, [ci_read] what has been
    read of its output.  A call takes time; a poll takes its timeout and [tau]
    at most, and a call that cannot block takes [tau] at most: a write on a
    descriptor in non-blocking mode, a read after a poll that found it ready,
    the wait for a child that was killed.  Nothing bounds the wait for a child
    whose kill failed.  [ci_gone] says that the child has ended and been waited
    for. *)
Class ChildLaws (tau : Z) (Ch : Type) `{ChildIo Ch} := {
  ci_sent : Ch -> bytes;
  ci_read : Ch -> bytes;
  ci_gone : Ch -> bool;
  same c c' := ci_sent c' = ci_sent c /\ ci_read c' = ci_read c /\ fcntl_getfl c' = fcntl_getfl c;
  tau_nonneg : 0 <= tau;
  nonblock_bit : exists n, 0 <= n /\ O_NONBLOCK = 2 ^ n;
  poll_stdin_takes c ms r c' :
    0 < ms -> poll_stdin c ms = (r, c') -> same c c' /\ ci_now c < ci_now c' <= ci_now c + ms * 10 ^ 6 + tau;
  poll_stdout_takes c ms r c' :
    0 < ms -> poll_stdout c ms = (r, c') -> same c c' /\ ci_now c < ci_now c' <= ci_now c + ms * 10 ^ 6 + tau;
  write_sends c bs r c' :
    write_stdin c bs = (r, c') -> ci_read c' = ci_read c /\ fcntl_getfl c' = fcntl_getfl c /\
    match r with
    | Ok n => (n <= length bs)%nat /\ ci_sent c' = ci_sent c ++ take n bs
    | Err _ => ci_sent c' = ci_sent c
    end;
  write_takes c bs r c' flags :
    write_stdin c bs = (r, c') -> fcntl_getfl c = Ok flags -> Z.land flags O_NONBLOCK <> 0 ->
    ci_now c < ci_now c' <= ci_now c + tau;
  read_receives c n r c' :
    read_stdout c n = (r, c') -> ci_sent c' = ci_sent c /\
    match r with Ok bs => ci_read c' = ci_read c ++ bs | Err _ => ci_read c' = ci_read c end;
  read_takes c0 ms rc c n r c' :
    poll_stdout c0 ms = (Ok rc, c) -> rc <> 0 -> read_stdout c n = (r, c') -> ci_now c < ci_now c' <= ci_now c + tau;
  flush_takes c r c' : flush_stdin c = (r, c') -> same c c' /\ ci_now c <= ci_now c' <= ci_now c + tau;
  setfl_sets c flags r c' :
    fcntl_setfl c flags = (r, c') -> ci_sent c' = ci_sent c /\ ci_read c' = ci_read c /\
    ci_now c <= ci_now c' <= ci_now c + tau /\
    fcntl_getfl c' = match r with Ok _ => Ok flags | Err _ => fcntl_getfl c end;
  kill_takes c killed c1 : child_kill c = (killed, c1) -> ci_now c <= ci_now c1 <= ci_now c + tau;
  wait_takes c c1 waited c2 : child_kill c = (true, c1) -> child_wait c1 = (waited, c2) -> ci_now c1 <= ci_now c2 <= ci_now c + tau;
  wait_reaps c code c' : child_wait c = (Ok code, c') -> ci_gone c' = true;
}.

Section Pipes.
Context `{CI : ChildIo Ch, CL : !ChildLaws tau Ch} (instant_max : Z).

Lemma same_trans c1 c2 c3 : same c1 c2 -> same c2 c3 -> same c1 c3.
Proof. intros (? & ? & ?) (? & ? & ?). split_and!; congruence. Qed.

(** A poll with a budget never overruns its deadline by more than the
    granularity of [poll] and [tau]. *)
Lemma poll_millis remaining :
  0 < remaining -> Z.max (Z.min (remaining / 10 ^ 6) I32_MAX) 1 * 10 ^ 6 <= remaining + 10 ^ 6.
Proof. intros Hr. pose proof (Z.mul_div_le remaining (10 ^ 6)). lia. Qed.

Section PollLoop.
Context (poll : Ch -> Z -> result Z OsError * Ch).
Context (Hpoll : forall c ms r c', 0 < ms -> poll c ms = (r, c') -> same c c' /\ ci_now c < ci_now c' <= ci_now c + ms * 10 ^ 6 + tau).

Lemma poll_loop_total fuel deadline c :
  remaining_until deadline c < Z.of_nat fuel -> exists out, poll_loop poll fuel deadline c = Some out.
Proof.
  revert c. induction fuel as [|fuel IH]; intros c Hf; [unfold remaining_until in Hf; lia|]. cbn [poll_loop].
  destruct (Z.eqb_spec (remaining_until deadline c) 0); [eauto|]. destruct (poll c _) as [[rc|e] c'] eqn:Ep; [eauto|].
  apply Hpoll in Ep as [_ Ht]; [|lia]. destruct (os_kind e); eauto. apply IH. unfold remaining_until in *. lia.
Qed.

Lemma poll_loop_spec fuel deadline c r c' :
  poll_loop poll fuel deadline c = Some (r, c') ->
  same c c' /\ ci_now c <= ci_now c' <= Z.max (ci_now c) (deadline + 10 ^ 6 + tau) /\
  (r = Ok true -> ci_now c < ci_now c' /\ exists c0 ms rc, poll c0 ms = (Ok rc, c') /\ rc <> 0).
Proof.
  revert c. induction fuel as [|fuel IH]; intros c; cbn [poll_loop]; [done|].
  destruct (Z.eqb_spec (remaining_until deadline c) 0) as [|Hr]; [intros [= <- <-]; split; [done|]; split; [lia|done]|].
  set (ms := Z.max _ 1). assert (Hms : ms * 10 ^ 6 <= remaining_until deadline c + 10 ^ 6).
  { apply poll_millis. unfold remaining_until in *. lia. }
  destruct (poll c ms) as [[rc|e] c1] eqn:Ep; (apply Hpoll in Ep as Ep'; [|lia]); destruct Ep' as [Hs Ht]; unfold remaining_until in *.
  - intros [= <- <-]. split; [done|]. split; [lia|]. intros [= Hrc]. split; [lia|]. exists c, ms, rc. split; [done|].
    by destruct (Z.eqb_spec rc 0).
  - destruct (os_kind e); [|intros [= <- <-]; split; [done|]; split; [lia|done]..].
    intros (Hs' & Ht' & Hr')%IH. split; [by eapply same_trans|]. split; [lia|].
    intros Hok. destruct (Hr' Hok) as [Hlt Hex]. split; [lia|done].
Qed.
End PollLoop.

Lemma poll_writable_total fuel c budget :
  0 <= budget < Z.of_nat fuel -> exists out, poll_writable instant_max fuel c budget = Some out.
Proof.
  intros Hb. unfold poll_writable, instant_checked_add. destruct (_ <=? _); [|eauto].
  destruct (poll_loop_total poll_stdin poll_stdin_takes fuel (ci_now c + budget) c) as [[r c'] ->]; [|cbn; eauto].
  unfold remaining_until. lia.
Qed.

Lemma poll_writable_spec fuel c budget r c' :
  0 <= budget -> poll_writable instant_max fuel c budget = Some (r, c') ->
  same c c' /\ ci_now c <= ci_now c' <= ci_now c + budget + 10 ^ 6 + tau /\ (r = Ok Writable -> ci_now c < ci_now c').
Proof.
  pose proof tau_nonneg. intros Hb. unfold poll_writable, instant_checked_add. destruct (_ <=? _); [|intros [= <- <-]; split; [done|]; split; [lia|done]].
  destruct (poll_loop _ _ _ _) as [[r1 c1]|] eqn:Ep; cbn; [|done]. apply poll_loop_spec in Ep as (Hs & Ht & Hr); [|exact poll_stdin_takes].
  intros [= <- <-]. split; [done|]. split; [lia|]. destruct r1 as [[]|]; [|done..]. intros _. by apply Hr.
Qed.

Lemma poll_readable_total fuel c budget :
  0 <= budget < Z.of_nat fuel -> exists out, poll_readable instant_max fuel c budget = Some out.
Proof.
  intros Hb. unfold poll_readable, instant_checked_add. destruct (_ <=? _); [|eauto].
  destruct (poll_loop_total poll_stdout poll_stdout_takes fuel (ci_now c + budget) c) as [[r c'] ->]; [|cbn; eauto].
  unfold remaining_until. lia.
Qed.

Lemma poll_readable_spec fuel c budget r c' :
  0 <= budget -> poll_readable instant_max fuel c budget = Some (r, c') ->
  same c c' /\ ci_now c <= ci_now c' <= ci_now c + budget + 10 ^ 6 + tau /\
  (r = Ok Readable -> ci_now c < ci_now c' /\ exists c0 ms rc, poll_stdout c0 ms = (Ok rc, c') /\ rc <> 0).
Proof.
  pose proof tau_nonneg. intros Hb. unfold poll_readable, instant_checked_add. destruct (_ <=? _); [|intros [= <- <-]; split; [done|]; split; [lia|done]].
  destruct (poll_loop _ _ _ _) as [[r1 c1]|] eqn:Ep; cbn; [|done]. apply poll_loop_spec in Ep as (Hs & Ht & Hr); [|exact poll_stdout_takes].
  intros [= <- <-]. split; [done|]. split; [lia|]. destruct r1 as [[]|]; [|done..]. intros _. by apply Hr.
Qed.

(** ** The non-blocking flag *)

Lemma nonblock_lor flags : Z.land (Z.lor flags O_NONBLOCK) O_NONBLOCK = O_NONBLOCK.
Proof. apply Z.bits_inj'. intros i Hi. rewrite Z.land_spec, Z.lor_spec. by destruct (Z.testbit flags i), (Z.testbit O_NONBLOCK i). Qed.

Lemma nonblock_pos : O_NONBLOCK <> 0.
Proof. destruct nonblock_bit as (n & Hn & ->). pose proof (Z.pow_pos_nonneg 2 n). lia. Qed.

Lemma nonblock_set flags : Z.land flags O_NONBLOCK <> 0 -> Z.lor flags O_NONBLOCK = flags.
Proof.
  destruct nonblock_bit as (n & Hn & ->). intros Hne. apply Z.bits_inj'. intros i Hi. rewrite Z.lor_spec, Z.pow2_bits_eqb by done.
  destruct (Z.eqb_spec n i) as [<-|]; [|by rewrite orb_false_r]. rewrite orb_true_r. symmetry.
  apply not_false_iff_true. intros Hf. apply Hne. apply Z.bits_inj'. intros j Hj.
  rewrite Z.land_spec, Z.pow2_bits_eqb, Z.bits_0 by done. destruct (Z.eqb_spec n j) as [<-|]; [by rewrite Hf|by rewrite andb_false_r].
Qed.

Lemma nonblock_clear flags : Z.land flags O_NONBLOCK = 0 -> Z.land (Z.lor flags O_NONBLOCK) (Z.lnot O_NONBLOCK) = flags.
Proof.
  intros Hz. apply Z.bits_inj'. intros i Hi. rewrite Z.land_spec, Z.lor_spec, Z.lnot_spec by done.
  assert (Hb := f_equal (fun z => Z.testbit z i) Hz). cbn in Hb. rewrite Z.land_spec, Z.bits_0 in Hb.
  by destruct (Z.testbit flags i), (Z.testbit O_NONBLOCK i).
Qed.

Lemma set_nonblocking_spec c nb r c' :
  set_nonblocking c nb = (r, c') ->
  ci_sent c' = ci_sent c /\ ci_read c' = ci_read c /\ ci_now c <= ci_now c' <= ci_now c + tau /\
  forall was, r = Ok was -> exists flags, fcntl_getfl c = Ok flags /\ was = negb (Z.land flags O_NONBLOCK =? 0) /\
    fcntl_getfl c' = Ok (if nb then Z.lor flags O_NONBLOCK else Z.land flags (Z.lnot O_NONBLOCK)).
Proof.
  pose proof tau_nonneg. unfold set_nonblocking. destruct (fcntl_getfl c) as [flags|e] eqn:Eg; [|intros [= <- <-]; repeat split; done || lia].
  set (new := if nb then _ else _). destruct (Z.eqb_spec new flags) as [En|].
  - intros [= <- <-]. split; [done|]. split; [done|]. split; [lia|]. intros was [= <-]. exists flags. split; [done|]. split; [done|].
    rewrite Eg. f_equal. symmetry. exact En.
  - destruct (fcntl_setfl c new) as [[u|e] c1] eqn:Es; apply setfl_sets in Es as (? & ? & ? & Hfl); intros [= <- <-];
      (split; [done|]; split; [done|]; split; [lia|]); [|done]. intros was [= <-]. by exists flags.
Qed.
(** ** Writing *)

Lemma write_all_nonblocking_total poll_fuel fuel c buf deadline timeout flags :
  fcntl_getfl c = Ok flags -> Z.land flags O_NONBLOCK <> 0 ->
  remaining_until deadline c < Z.of_nat poll_fuel -> remaining_until deadline c < Z.of_nat fuel ->
  exists out, write_all_nonblocking instant_max poll_fuel fuel c buf deadline timeout = Some out.
Proof.
  revert c buf. induction fuel as [|fuel IH]; intros c buf Hg Hnb Hp Hf; [unfold remaining_until in Hf; lia|].
  cbn [write_all_nonblocking]. destruct buf as [|b buf]; [eauto|].
  destruct (Z.eqb_spec (remaining_until deadline c) 0); [eauto|].
  destruct (poll_writable_total poll_fuel c (remaining_until deadline c)) as [[polled c1] Ep]; [unfold remaining_until in *; lia|].
  rewrite Ep. cbn [mbind option_bind]. apply poll_writable_spec in Ep as ((_ & _ & Hg1) & Ht & Hw); [|unfold remaining_until; lia].
  destruct polled as [[]|]; [|eauto..]. specialize (Hw eq_refl). rewrite Hg in Hg1.
  destruct (write_stdin c1 _) as [r c2] eqn:Ew. pose proof (write_takes _ _ _ _ _ Ew Hg1 Hnb) as Ht2.
  apply write_sends in Ew as (_ & Hg2 & _). rewrite Hg1 in Hg2.
  assert (Hlt : remaining_until deadline c2 < remaining_until deadline c) by (unfold remaining_until in *; lia).
  destruct r as [[|k]|e]; [eauto| |destruct (os_kind e); [| |eauto]]; (apply IH; [done|done|lia..]).
Qed.

Lemma write_all_nonblocking_spec poll_fuel fuel c buf deadline timeout flags r c' :
  fcntl_getfl c = Ok flags -> Z.land flags O_NONBLOCK <> 0 ->
  write_all_nonblocking instant_max poll_fuel fuel c buf deadline timeout = Some (r, c') ->
  ci_read c' = ci_read c /\ fcntl_getfl c' = Ok flags /\
  ci_now c <= ci_now c' <= Z.max (ci_now c) (deadline + 10 ^ 6 + 2 * tau) /\
  exists k, ci_sent c' = ci_sent c ++ take k buf /\ (r = Ok tt -> take k buf = buf).
Proof.
  pose proof tau_nonneg. intros Hg Hnb. revert c buf Hg. induction fuel as [|fuel IH]; intros c buf Hg; cbn [write_all_nonblocking]; [done|].
  assert (Hnone : forall e : rstr, ci_sent c = ci_sent c ++ take 0 buf /\ (Err e = Ok tt -> take 0 buf = buf)).
  { intros e. by rewrite take_0, app_nil_r. }
  destruct buf as [|b buf]; [intros [= <- <-]; split_and!; try done; [lia..|]; exists 0%nat; by rewrite app_nil_r|].
  destruct (Z.eqb_spec (remaining_until deadline c) 0); [intros [= <- <-]; split_and!; try done; [lia..|]; by exists 0%nat|].
  destruct (poll_writable _ _ _ _) as [[polled c1]|] eqn:Ep; cbn [mbind option_bind]; [|done].
  apply poll_writable_spec in Ep as ((Hs1 & Hr1 & Hg1) & Ht & _); [|unfold remaining_until; lia]. rewrite Hg in Hg1.
  assert (Ht1 : ci_now c1 <= deadline + 10 ^ 6 + tau) by (unfold remaining_until in *; lia).
  destruct polled as [[]|e]; [|intros [= <- <-]; rewrite Hs1; split_and!; try done; [lia..|]; by exists 0%nat..].
  destruct (write_stdin c1 _) as [r2 c2] eqn:Ew. pose proof (write_takes _ _ _ _ _ Ew Hg1 Hnb) as Ht2.
  apply write_sends in Ew as (Hr2 & Hg2 & Hs2). rewrite Hg1 in Hg2.
  assert (Hgo : forall m, ci_sent c2 = ci_sent c ++ take m (b :: buf) ->
    write_all_nonblocking instant_max poll_fuel fuel c2 (drop m (b :: buf)) deadline timeout = Some (r, c') ->
    ci_read c' = ci_read c /\ fcntl_getfl c' = Ok flags /\
    ci_now c <= ci_now c' <= Z.max (ci_now c) (deadline + 10 ^ 6 + 2 * tau) /\
    exists k, ci_sent c' = ci_sent c ++ take k (b :: buf) /\ (r = Ok tt -> take k (b :: buf) = b :: buf)).
  { intros m Hm Hw. apply IH in Hw as (? & ? & ? & k & Hk & Hall); [|done]. split; [congruence|]. split; [done|]. split; [lia|].
    exists (m + k)%nat. rewrite Hk, Hm, <- app_assoc, take_take_drop. split; [done|]. intros Hr. rewrite <- take_take_drop, (Hall Hr). apply take_drop. }
  destruct r2 as [[|m]|e].
  - intros [= <- <-]. destruct Hs2 as [_ ->]. rewrite Hs1, take_0, app_nil_r. split; [congruence|]. split; [done|]. split; [lia|]. by exists 0%nat.
  - destruct Hs2 as [_ Hs2]. apply Hgo. by rewrite Hs2, Hs1.
  - assert (Hs0 : ci_sent c2 = ci_sent c ++ take 0 (b :: buf)) by (by rewrite take_0, app_nil_r, Hs2).
    destruct (os_kind e); [exact (Hgo 0%nat Hs0)..|].
    intros [= <- <-]. rewrite Hs0. split; [congruence|]. split; [done|]. split; [lia|]. exists 0%nat. done.
Qed.

Lemma write_all_until_deadline_total fuel c buf deadline timeout :
  remaining_until deadline c < Z.of_nat fuel ->
  exists out, write_all_until_deadline instant_max fuel c buf deadline timeout = Some out.
Proof.
  intros Hf. unfold write_all_until_deadline. destruct (set_nonblocking c true) as [[was|e] c1] eqn:Es; [|eauto].
  apply set_nonblocking_spec in Es as (_ & _ & Ht & Hw). destruct (Hw was eq_refl) as (flags & _ & _ & Hg).
  destruct (write_all_nonblocking_total fuel fuel c1 buf deadline timeout _ Hg) as [[r c2] ->]; [|unfold remaining_until in *; lia..|cbn; eauto].
  rewrite nonblock_lor. apply nonblock_pos.
Qed.

Lemma write_all_until_deadline_spec fuel c buf deadline timeout r c' :
  write_all_until_deadline instant_max fuel c buf deadline timeout = Some (r, c') ->
  ci_read c' = ci_read c /\ ci_now c <= ci_now c' <= Z.max (ci_now c + tau) (deadline + 10 ^ 6 + 2 * tau) + tau /\
  exists k, ci_sent c' = ci_sent c ++ take k buf /\ (r = Ok tt -> take k buf = buf).
Proof.
  pose proof tau_nonneg. unfold write_all_until_deadline. destruct (set_nonblocking c true) as [[was|e] c1] eqn:Es;
    apply set_nonblocking_spec in Es as (Hs & Hr & Ht & Hw).
  2: { intros [= <- <-]. split; [done|]. split; [lia|]. exists 0%nat. by rewrite Hs, take_0, app_nil_r. }
  destruct (Hw was eq_refl) as (flags & _ & _ & Hg).
  destruct (write_all_nonblocking _ _ _ _ _ _ _) as [[r1 c2]|] eqn:Ew; cbn [mbind option_bind]; [|done].
  eapply write_all_nonblocking_spec in Ew as (Hr2 & _ & Ht2 & k & Hk & Hall); [|exact Hg|rewrite nonblock_lor; apply nonblock_pos].
  destruct (set_nonblocking c2 was) as [r3 c3] eqn:E3. apply set_nonblocking_spec in E3 as (Hs3 & Hr3 & Ht3 & _).
  intros [= <- <-]. cbn [snd]. split; [congruence|]. split; [lia|]. exists k. split; [congruence|done].
Qed.

(** The descriptor is blocking again after a write exactly when it was before,
    whatever the outcome of the write. *)
Theorem write_restores_blocking fuel c buf deadline timeout r c' flags :
  (forall c v, is_ok (fcntl_setfl c v).1 = true) -> fcntl_getfl c = Ok flags ->
  write_all_until_deadline instant_max fuel c buf deadline timeout = Some (r, c') -> fcntl_getfl c' = Ok flags.
Proof.
  intros Htotal Hg. assert (Hnb : forall c nb, is_ok (fcntl_getfl c) = true -> is_ok (set_nonblocking c nb).1 = true).
  { intros c0 nb Hc. unfold set_nonblocking. destruct (fcntl_getfl c0) as [fl|]; [|done]. destruct (_ =? fl); [done|].
    pose proof (Htotal c0 (if nb then Z.lor fl O_NONBLOCK else Z.land fl (Z.lnot O_NONBLOCK))) as Hk. by destruct (fcntl_setfl _ _) as [[] ?]. }
  unfold write_all_until_deadline. pose proof (Hnb c true) as H1. rewrite Hg in H1. specialize (H1 eq_refl).
  destruct (set_nonblocking c true) as [[was|] c1] eqn:Es; [|done]. apply set_nonblocking_spec in Es as (_ & _ & _ & Hw).
  destruct (Hw was eq_refl) as (fl & Hfl & -> & Hg1). rewrite Hg in Hfl. injection Hfl as <-.
  destruct (write_all_nonblocking _ _ _ _ _ _ _) as [[r1 c2]|] eqn:Ew; cbn [mbind option_bind]; [|done].
  eapply write_all_nonblocking_spec in Ew as (_ & Hg2 & _); [|exact Hg1|rewrite nonblock_lor; apply nonblock_pos].
  set (was := negb _). pose proof (Hnb c2 was) as H3. rewrite Hg2 in H3. specialize (H3 eq_refl).
  destruct (set_nonblocking c2 was) as [[w3|] c3] eqn:E3; [|done]. apply set_nonblocking_spec in E3 as (_ & _ & _ & Hw3).
  destruct (Hw3 w3 eq_refl) as (fl3 & Hfl3 & _ & Hg3). rewrite Hg2 in Hfl3. injection Hfl3 as <-.
  intros [= <- <-]. cbn [snd]. rewrite Hg3. f_equal. unfold was. destruct (Z.eqb_spec (Z.land flags O_NONBLOCK) 0) as [Hz|Hz]; cbn [negb].
  - by apply nonblock_clear.
  - by rewrite !nonblock_set by (rewrite ?nonblock_set; done).
Qed.
End Pipes.

Section Lines.
Context `{SJ : SerdeJson, SS : SerdeSer, TX : SerdeTexts, CI : ChildIo Ch, CL : !ChildLaws tau Ch} (instant_max : Z).

(** A line: up to and including its newline, or up to the end of the output. *)
Definition is_line (l : bytes) : Prop := exists body, (l = body \/ l = body ++ [10]) /\ 10 ∉ body.

Lemma blen_snoc l b : blen (l ++ [b]) = blen l + 1.
Proof. unfold blen. rewrite length_app. cbn. lia. Qed.

Lemma drain_buffer_spec line buffered line' rest nl over_cap :
  10 ∉ line -> blen line <= MAX_INNER_LINE_BYTES -> drain_buffer line buffered = (line', rest, nl, over_cap) ->
  line' ++ rest = line ++ buffered /\
  (over_cap = false -> is_line line' /\ blen line' <= MAX_INNER_LINE_BYTES + 1 /\ (nl = true -> line' <> []) /\
     (nl = false -> rest = [] /\ (10 ∉ line') /\ blen line' <= MAX_INNER_LINE_BYTES)).
Proof.
  revert line. induction buffered as [|b buffered IH]; intros line Hno Hlen; cbn [drain_buffer].
  - intros [= <- <- <- <-]. split; [done|]. intros _. split; [exists line; auto|]. split; [lia|]. split; [done|]. auto.
  - destruct (Z.eqb_spec b 10) as [->|Hb].
    + intros [= <- <- <- <-]. rewrite <- app_assoc. split; [done|]. intros _. split; [exists line; auto|]. rewrite blen_snoc.
      split; [lia|]. split; [|done]. intros _. by destruct line.
    + destruct (Z.ltb_spec MAX_INNER_LINE_BYTES (blen (line ++ [b]))).
      * intros [= <- <- <- <-]. by rewrite <- app_assoc.
      * intros Hd. apply IH in Hd as [-> Hd]; [by rewrite <- app_assoc|set_solver|lia].
Qed.

(** What an operation of the session leaves alone. *)
Definition steady (s s' : Session Ch) : Prop :=
  s_next_id s' = s_next_id s /\ s_poisoned s' = s_poisoned s /\ s_read_timeout s' = s_read_timeout s.

Lemma read_line_total poll_fuel fuel s deadline line :
  10 ∉ line -> blen line <= MAX_INNER_LINE_BYTES ->
  remaining_until deadline (s_child s) < Z.of_nat poll_fuel -> remaining_until deadline (s_child s) < Z.of_nat fuel ->
  exists out, read_line_until_deadline instant_max poll_fuel fuel s deadline line = Some out.
Proof.
  revert s line. induction fuel as [|fuel IH]; intros s line Hno Hlen Hp Hf; [unfold remaining_until in Hf; lia|].
  cbn [read_line_until_deadline]. destruct (drain_buffer line (s_buffer s)) as [[[line' rest] nl] over_cap] eqn:Ed.
  apply drain_buffer_spec in Ed as [_ Hd]; [|done..]. destruct over_cap; [eauto|]. destruct (Hd eq_refl) as (_ & _ & _ & Hfalse).
  destruct nl; [eauto|]. destruct (Hfalse eq_refl) as (-> & Hno' & Hlen').
  change (s_child (s <| s_buffer := [] |>)) with (s_child s).
  destruct (Z.eqb_spec (remaining_until deadline (s_child s)) 0); [eauto|].
  destruct (poll_readable_total instant_max poll_fuel (s_child s) (remaining_until deadline (s_child s))) as [[polled c1] Ep];
    [unfold remaining_until in *; lia|]. rewrite Ep. cbn [mbind option_bind].
  apply poll_readable_spec in Ep as (_ & Ht & Hr); [|unfold remaining_until; lia].
  destruct polled as [[]|]; [|eauto..]. destruct (Hr eq_refl) as (Hlt & c0 & ms & rc & Hpoll & Hrc).
  destruct (read_stdout c1 _) as [[[|b bs]|e] c2] eqn:Er; [eauto| |eauto].
  pose proof (read_takes _ _ _ _ _ _ _ Hpoll Hrc Er) as Ht2.
  apply IH; [done|done|..]; cbn; unfold remaining_until in *; lia.
Qed.

Lemma read_line_spec poll_fuel fuel s deadline line r s' :
  10 ∉ line -> blen line <= MAX_INNER_LINE_BYTES ->
  read_line_until_deadline instant_max poll_fuel fuel s deadline line = Some (r, s') ->
  steady s s' /\ ci_sent (s_child s') = ci_sent (s_child s) /\
  ci_now (s_child s) <= ci_now (s_child s') <= Z.max (ci_now (s_child s)) (deadline + 10 ^ 6 + 2 * tau) /\
  (forall l, r = Ok (Line l) -> is_line l /\ l <> [] /\ blen l <= MAX_INNER_LINE_BYTES + 1 /\
     exists new, ci_read (s_child s') = ci_read (s_child s) ++ new /\ l ++ s_buffer s' = line ++ s_buffer s ++ new).
Proof.
  pose proof tau_nonneg. revert s line. induction fuel as [|fuel IH]; intros s line Hno Hlen; cbn [read_line_until_deadline]; [done|].
  destruct (drain_buffer line (s_buffer s)) as [[[line' rest] nl] over_cap] eqn:Ed.
  apply drain_buffer_spec in Ed as [He Hd]; [|done..].
  destruct over_cap; [intros [= <- <-]; split; [done|]; split; [done|]; split; [cbn; lia|done]|].
  destruct (Hd eq_refl) as (Hline & Hmax & Hne & Hfalse).
  destruct nl.
  { intros [= <- <-]. split; [done|]. split; [done|]. split; [cbn; lia|]. intros l [= <-]. split_and!; try done; [by apply Hne|].
    exists []. cbn. by rewrite !app_nil_r. }
  destruct (Hfalse eq_refl) as (-> & Hno' & Hlen'). rewrite app_nil_r in He. change (s_child (s <| s_buffer := [] |>)) with (s_child s).
  destruct (Z.eqb_spec (remaining_until deadline (s_child s)) 0); [intros [= <- <-]; split; [done|]; split; [done|]; split; [cbn; lia|done]|].
  destruct (poll_readable _ _ _ _) as [[polled c1]|] eqn:Ep; cbn [mbind option_bind]; [|done].
  apply poll_readable_spec in Ep as ((Hs1 & Hr1 & _) & Ht & Hr); [|unfold remaining_until; lia].
  assert (Ht1 : ci_now c1 <= deadline + 10 ^ 6 + tau) by (unfold remaining_until in *; lia).
  destruct polled as [[]|e]; [|intros [= <- <-]; split; [done|]; split; [exact Hs1|]; split; [cbn; lia|done]..].
  destruct (Hr eq_refl) as (Hlt & c0 & ms & rc & Hpoll & Hrc).
  destruct (read_stdout c1 _) as [rd c2] eqn:Er. pose proof (read_takes _ _ _ _ _ _ _ Hpoll Hrc Er) as Ht2.
  apply read_receives in Er as [Hs2 Hr2]. destruct rd as [[|b bs]|e].
  - intros [= <- <-]. split; [done|]. split; [cbn; congruence|]. split; [cbn; lia|]. intros l Hl.
    destruct line' as [|x line']; cbn [is_empty] in Hl; [done|]. injection Hl as <-. split_and!; [done..|]. exists []. cbn.
    split; [congruence|]. cbn in He. by rewrite !app_nil_r.
  - intros Hgo. apply IH in Hgo as (Hst & Hs3 & Ht3 & Hl3); [|done..]. cbn in Hst, Hs3, Ht3, Hl3. split; [done|]. split; [congruence|]. split; [lia|].
    intros l Hl. destruct (Hl3 l Hl) as (? & ? & ? & new & Hn1 & Hn2). split_and!; [done..|]. exists ((b :: bs) ++ new).
    rewrite Hn1, Hr2, Hr1, <- app_assoc. split; [done|]. by rewrite Hn2, He, <- !app_assoc.
  - intros [= <- <-]. split; [done|]. split; [cbn; congruence|]. split; [cbn; lia|done].
Qed.

(** ** The matching line *)

Definition line_text (l : bytes) : rstr := trim (from_utf8_lossy l).

(** The frame carries the wanted id, or there is none to want. *)
Definition matches_id (want_id value : Value) : Prop :=
  want_id = VNull \/ value_eqb (default VNull (get (str "id") value)) want_id = true.

Definition skipped (want_id : Value) (l : bytes) : Prop :=
  line_text l = [] \/ exists value, from_slice (as_bytes (line_text l)) = Some value /\ ~ matches_id want_id value.

Definition answers (want_id : Value) (l response : bytes) : Prop :=
  response = as_bytes (line_text l) /\ exists value, from_slice response = Some value /\ matches_id want_id value.

Lemma matches_id_spec want_id value :
  (match want_id with VNull => true | _ => false end) || value_eqb (default VNull (get (str "id") value)) want_id = true <->
  matches_id want_id value.
Proof. unfold matches_id. rewrite orb_true_iff. destruct want_id; intuition congruence. Qed.

Lemma read_matching_total lines fuel s deadline want_id :
  remaining_until deadline (s_child s) < Z.of_nat fuel ->
  exists out, read_matching instant_max lines fuel s deadline want_id = Some out.
Proof.
  revert s. induction lines as [|lines IH]; intros s Hf; cbn [read_matching]; [eauto|].
  destruct (read_line_total fuel fuel s deadline []) as [[rd s1] Er]; [set_solver|cbn; done|done|done|]. rewrite Er. cbn [mbind option_bind].
  apply read_line_spec in Er as (_ & _ & Ht & _); [|set_solver|cbn; done].
  assert (Hgo : exists out, read_matching instant_max lines fuel s1 deadline want_id = Some out).
  { apply IH. unfold remaining_until in *. lia. }
  destruct rd as [[bs|]|e]; [|eauto..]. destruct (is_empty _); [done|]. destruct (from_slice _); [|eauto]. destruct (_ || _); eauto.
Qed.

(** The answer comes from a line of the child's output after fewer than [lines]
    others, all of which were blank or carried another id; these lines and what
    is left in the buffer are what was in the buffer and has been read since. *)
Definition answered (lines : nat) (want_id : Value) (s s' : Session Ch) (response : bytes) : Prop :=
  exists before l new,
    Forall is_line (before ++ [l]) /\ (length before < lines)%nat /\ blen l <= MAX_INNER_LINE_BYTES + 1 /\
    Forall (skipped want_id) before /\ answers want_id l response /\
    ci_read (s_child s') = ci_read (s_child s) ++ new /\ concat before ++ l ++ s_buffer s' = s_buffer s ++ new.

Lemma read_matching_spec lines fuel s deadline want_id r s' :
  read_matching instant_max lines fuel s deadline want_id = Some (r, s') ->
  steady s s' /\ ci_sent (s_child s') = ci_sent (s_child s) /\
  ci_now (s_child s) <= ci_now (s_child s') <= Z.max (ci_now (s_child s)) (deadline + 10 ^ 6 + 2 * tau) /\
  (forall response, r = Ok response -> answered lines want_id s s' response).
Proof.
  revert s. induction lines as [|lines IH]; intros s; cbn [read_matching]; [intros [= <- <-]; split; [done|]; split; [done|]; split; [lia|done]|].
  destruct (read_line_until_deadline _ _ _ _ _ _) as [[rd s1]|] eqn:Er; cbn [mbind option_bind]; [|done].
  apply read_line_spec in Er as (Hst & Hs & Ht & Hl); [|set_solver|cbn; done].
  destruct rd as [[bs|]|e]; [|intros [= <- <-]; split; [done|]; split; [done|]; split; [lia|done]..].
  destruct (Hl bs eq_refl) as (Hline & _ & Hmax & new & Hn1 & Hn2). cbn in Hn2.
  assert (Hgo : skipped want_id bs -> read_matching instant_max lines fuel s1 deadline want_id = Some (r, s') ->
    steady s s' /\ ci_sent (s_child s') = ci_sent (s_child s) /\
    ci_now (s_child s) <= ci_now (s_child s') <= Z.max (ci_now (s_child s)) (deadline + 10 ^ 6 + 2 * tau) /\
    (forall response, r = Ok response -> answered (S lines) want_id s s' response)).
  { intros Hsk Hrm. apply IH in Hrm as (Hst' & Hs' & Ht' & Hr'). split; [destruct Hst as (? & ? & ?), Hst' as (? & ? & ?); split_and!; congruence|].
    split; [congruence|]. split; [lia|]. intros response Hresp.
    destruct (Hr' response Hresp) as (before & l & new' & H1 & H2 & H3 & H4 & H5 & H6 & H7). exists (bs :: before), l, (new ++ new').
    split_and!; [by constructor|cbn; lia|done|by constructor|done|rewrite H6, Hn1; by rewrite app_assoc|].
    cbn [concat]. rewrite <- app_assoc, H7, !app_assoc. by rewrite Hn2. }
  fold (line_text bs). destruct (line_text bs) as [|x t] eqn:Et; cbn [is_empty]; [apply Hgo; by left|]. rewrite <- Et in *.
  destruct (from_slice _) as [value|] eqn:Ev; [|intros [= <- <-]; split; [done|]; split; [done|]; split; [lia|done]].
  destruct (_ || _) eqn:Em.
  - intros [= <- <-]. split; [done|]. split; [done|]. split; [lia|]. intros response [= <-]. exists [], bs, new.
    split_and!; [by repeat constructor|cbn; lia|done|constructor| |done|done].
    split; [done|]. exists value. split; [done|]. by apply matches_id_spec.
  - apply Hgo. right. exists value. split; [done|]. rewrite <- matches_id_spec. by rewrite Em.
Qed.
(** ** The exchange *)

Lemma write_labelled_total fuel s buf deadline label :
  remaining_until deadline (s_child s) < Z.of_nat fuel ->
  exists out, write_labelled instant_max fuel s buf deadline label = Some out.
Proof.
  intros Hf. unfold write_labelled. destruct (write_all_until_deadline_total instant_max fuel _ buf _ (s_read_timeout s) Hf) as [[r c] ->].
  cbn. eauto.
Qed.

Lemma write_labelled_spec fuel s buf deadline label r s' :
  write_labelled instant_max fuel s buf deadline label = Some (r, s') ->
  steady s s' /\ s_buffer s' = s_buffer s /\ ci_read (s_child s') = ci_read (s_child s) /\
  ci_now (s_child s) <= ci_now (s_child s') <= Z.max (ci_now (s_child s) + tau) (deadline + 10 ^ 6 + 2 * tau) + tau /\
  (is_ok r = true -> ci_sent (s_child s') = ci_sent (s_child s) ++ buf).
Proof.
  unfold write_labelled. destruct (write_all_until_deadline _ _ _ _ _ _) as [[r1 c]|] eqn:Ew; cbn [mbind option_bind]; [|done].
  apply write_all_until_deadline_spec in Ew as (Hr & Ht & k & Hs & Hall). intros [= <- <-]. cbn. split_and!; try done; try lia.
  intros Hok. destruct r1 as [[]|]; [|done]. rewrite Hs. f_equal. by apply Hall.
Qed.

(** Every step of the exchange ends by its deadline. *)
Lemma exchange_total fuel s request want_id :
  0 <= s_read_timeout s < Z.of_nat fuel ->
  exists out, write_line_read_matching instant_max fuel s request want_id = Some out.
Proof.
  intros Hf. unfold write_line_read_matching, instant_checked_add. destruct (bool_decide _); [eauto|]. destruct (_ <=? _); [|eauto].
  set (d := ci_now (s_child s) + s_read_timeout s).
  destruct (write_labelled_total fuel s request d (str "write to inner stdin: ")) as [[r1 s1] E1]; [unfold remaining_until, d; lia|].
  rewrite E1. cbn [mbind option_bind]. apply write_labelled_spec in E1 as ((_ & _ & Hto) & _ & _ & Ht1 & _). destruct r1; [|eauto].
  destruct (write_labelled_total fuel s1 [10] d (str "write newline to inner stdin: ")) as [[r2 s2] E2]; [unfold remaining_until, d; lia|].
  rewrite E2. cbn [mbind option_bind]. apply write_labelled_spec in E2 as ((_ & _ & Hto2) & _ & _ & Ht2 & _). destruct r2; [|eauto].
  destruct (flush_stdin (s_child s2)) as [[|] c3] eqn:E3; [|eauto]. apply flush_takes in E3 as [_ Ht3].
  destruct (_ <=? _); [|eauto]. apply read_matching_total. unfold remaining_until. cbn. lia.
Qed.

Lemma exchange_spec fuel s request want_id r s' :
  0 <= s_read_timeout s -> write_line_read_matching instant_max fuel s request want_id = Some (r, s') ->
  steady s s' /\ ci_now (s_child s) <= ci_now (s_child s') <= ci_now (s_child s) + 2 * s_read_timeout s + 2 * 10 ^ 6 + 9 * tau /\
  (forall response, r = Ok response -> (10 ∉ request) /\ ci_sent (s_child s') = ci_sent (s_child s) ++ request ++ [10] /\
     answered (S MAX_SKIPPED_LINES) want_id s s' response).
Proof.
  pose proof tau_nonneg. intros Hto. unfold write_line_read_matching, instant_checked_add.
  case_bool_decide as Hnl; [intros [= <- <-]; split; [done|]; split; [lia|done]|].
  destruct (_ <=? _); [|intros [= <- <-]; split; [done|]; split; [lia|done]].
  destruct (write_labelled _ _ _ request _ _) as [[r1 s1]|] eqn:E1; cbn [mbind option_bind]; [|done].
  apply write_labelled_spec in E1 as (Hst1 & Hb1 & Hr1 & Ht1 & Hs1).
  destruct r1 as [[]|]; [|intros [= <- <-]; split; [done|]; split; [lia|done]].
  destruct (write_labelled _ _ _ [10] _ _) as [[r2 s2]|] eqn:E2; cbn [mbind option_bind]; [|done].
  apply write_labelled_spec in E2 as (Hst2 & Hb2 & Hr2 & Ht2 & Hs2).
  assert (Hst12 : steady s s2) by (destruct Hst1 as (? & ? & ?), Hst2 as (? & ? & ?); split_and!; congruence).
  destruct r2 as [[]|]; [|intros [= <- <-]; split; [done|]; split; [lia|done]].
  destruct (flush_stdin (s_child s2)) as [r3 c3] eqn:E3. apply flush_takes in E3 as [(Hs3 & Hr3 & _) Ht3].
  destruct r3; [|intros [= <- <-]; split; [done|]; split; [cbn; lia|done]].
  change (s_child (s2 <| s_child := c3 |>)) with c3. change (s_read_timeout (s2 <| s_child := c3 |>)) with (s_read_timeout s2).
  assert (Hto2 : s_read_timeout s2 = s_read_timeout s) by (by destruct Hst12 as (_ & _ & ?)). rewrite Hto2.
  destruct (_ <=? _); [|intros [= <- <-]; split; [done|]; split; [cbn; lia|done]].
  intros (Hst4 & Hs4 & Ht4 & Hans)%read_matching_spec. unfold steady in Hst4. cbn in Hst4, Hs4, Ht4.
  split; [destruct Hst12 as (? & ? & ?), Hst4 as (? & ? & ?); split_and!; congruence|]. split; [lia|].
  intros response Hresp. split; [done|]. split.
  { rewrite Hs4, Hs3, (Hs2 eq_refl), (Hs1 eq_refl). by rewrite <- app_assoc. }
  destruct (Hans response Hresp) as (before & l & new & H1 & H2 & H3 & H4 & H5 & H6 & H7). exists before, l, new.
  split_and!; try done; [by rewrite H6; cbn; rewrite Hr3, Hr2, Hr1|]. rewrite H7. cbn. by rewrite Hb2, Hb1.
Qed.

(** From [c0] the child was killed and waited for, [c2] being the outcome:
    after a kill that succeeded the wait is short, and a wait that succeeded
    leaves no child. *)
Definition reaped (c0 c2 : Ch) (log : list LogEntry) : Prop :=
  exists killed c1 waited, child_kill c0 = (killed, c1) /\ child_wait c1 = (waited, c2) /\
    log = (if killed : bool then [LogEvent (Killed (str "dispatch failure"))] else []) ++ [LogEvent (Exited (exit_code waited))] /\
    (killed = true -> ci_now c2 <= ci_now c0 + tau) /\ (is_ok waited = true -> ci_gone c2 = true).

Lemma kill_and_reap_reaped s s' log :
  kill_and_reap s (str "dispatch failure") = (s', log) ->
  reaped (s_child s) (s_child s') log /\ s_poisoned s' = s_poisoned s.
Proof.
  unfold kill_and_reap. destruct (child_kill (s_child s)) as [killed c1] eqn:Ek. destruct (child_wait c1) as [waited c2] eqn:Ew.
  intros [= <- <-]. split; [|done]. exists killed, c1, waited. split_and!; try done.
  - intros ->. apply (wait_takes _ _ _ _ Ek Ew).
  - destruct waited; [intros _; by eapply wait_reaps|done].
Qed.

(** Fuel above the timeout in nanoseconds is enough: each system call takes one
    at least. *)
Lemma persistent_dispatch_ends fuel (p : PersistentSubprocessInner Ch) request :
  0 <= s_read_timeout (pi_session p) < Z.of_nat fuel ->
  exists response log p', persistent_dispatch instant_max fuel p request = Some (response, log, p').
Proof.
  intros Hf. unfold persistent_dispatch. destruct (pi_lock_poisoned p); [by eexists _, _, _|].
  destruct (s_poisoned _); [by eexists _, _, _|]. unfold exchange.
  destruct (exchange_total fuel (pi_session p) request (request_id request) Hf) as [[r s] E]. rewrite E. cbn [mbind option_bind].
  destruct r; [by eexists _, _, _|]. destruct (kill_and_reap _ _). by eexists _, _, _.
Qed.

Lemma persistent_dispatch_answers fuel (p p' : PersistentSubprocessInner Ch) request response log :
  0 <= s_read_timeout (pi_session p) -> pi_lock_poisoned p = false -> s_poisoned (pi_session p) = false ->
  persistent_dispatch instant_max fuel p request = Some (response, log, p') ->
  let bound := ci_now (s_child (pi_session p)) + 2 * s_read_timeout (pi_session p) + 2 * 10 ^ 6 + 9 * tau in
  (s_poisoned (pi_session p') = false /\ log = [] /\ (10 ∉ request) /\ ci_now (s_child (pi_session p')) <= bound /\
   ci_sent (s_child (pi_session p')) = ci_sent (s_child (pi_session p)) ++ request ++ [10] /\
   answered 65 (request_id request) (pi_session p) (pi_session p') response) \/
  (exists err s teardown, exchange instant_max fuel (pi_session p) request = Some (Err err, s) /\
   response = persistent_fail_closed err /\ log = LogEvent (ProtocolError err) :: teardown /\
   ci_now (s_child s) <= bound /\ reaped (s_child s) (s_child (pi_session p')) teardown /\
   forall fuel' request', persistent_dispatch instant_max fuel' p' request' =
     Some (persistent_fail_closed (str "inner session previously failed"), [], p')).
Proof.
  intros Hto Hlock Hp. unfold persistent_dispatch at 1, exchange. rewrite Hlock, Hp.
  destruct (write_line_read_matching _ _ _ _ _) as [[r s]|] eqn:E; cbn [mbind option_bind]; [|done].
  apply exchange_spec in E as ((_ & Hpo & _) & Ht & Hok); [|done]. destruct r as [resp|err].
  - destruct (Hok resp eq_refl) as (Hnl & Hs & Hans). pose proof Hans as (before & l & new & _ & _ & _ & _ & (_ & v & Hv & _) & _).
    rewrite Hv. intros [= <- <- <-]. left. split_and!; try done; cbn; [congruence|lia].
  - destruct (kill_and_reap _ _) as [s' teardown] eqn:Ek. apply kill_and_reap_reaped in Ek as [Hr Hps]. intros [= <- <- <-]. right.
    exists err, s, teardown. split_and!; [done|done|done|lia|exact Hr|].
    intros fuel' request'. unfold persistent_dispatch. cbn. by rewrite Hlock, Hps.
Qed.

(** C36: A dispatch to a live session always ends and is answered or fails
    closed.  However the child behaves (silent, chatty, not reading its input,
    writing lines without an end, interrupting every system call), the exchange
    with it is over by twice the timeout, two milliseconds for the granularity
    of the polls and nine times [tau], the bound on a call that does not block.
    Either the request, which has no newline, went out as exactly one line, and
    the answer is a line of at most 1 MiB of the child's output with the id of
    the request (any line, if the request has none), after at most 64 lines
    that were blank or carried another id, no byte of the output being lost,
    repeated or read out of order, and the session stays live; or the answer is
    the error object, the failure is logged, and the kill and the wait were
    made on the child as the exchange left it: the child is gone if the wait
    succeeded, and one more [tau] has passed if the kill did.  The session is
    then finished: every later dispatch gives the error object and leaves the
    child alone. *)
Theorem persistent_dispatch_live fuel (p : PersistentSubprocessInner Ch) request :
  0 <= s_read_timeout (pi_session p) < Z.of_nat fuel -> pi_lock_poisoned p = false -> s_poisoned (pi_session p) = false ->
  let bound := ci_now (s_child (pi_session p)) + 2 * s_read_timeout (pi_session p) + 2 * 10 ^ 6 + 9 * tau in
  exists response log p', persistent_dispatch instant_max fuel p request = Some (response, log, p') /\
    ((s_poisoned (pi_session p') = false /\ log = [] /\ (10 ∉ request) /\ ci_now (s_child (pi_session p')) <= bound /\
      ci_sent (s_child (pi_session p')) = ci_sent (s_child (pi_session p)) ++ request ++ [10] /\
      answered 65 (request_id request) (pi_session p) (pi_session p') response) \/
     (exists err s teardown, exchange instant_max fuel (pi_session p) request = Some (Err err, s) /\
      response = persistent_fail_closed err /\ log = LogEvent (ProtocolError err) :: teardown /\
      ci_now (s_child s) <= bound /\ reaped (s_child s) (s_child (pi_session p')) teardown /\
      forall fuel' request', persistent_dispatch instant_max fuel' p' request' =
        Some (persistent_fail_closed (str "inner session previously failed"), [], p'))).
Proof.
  intros Hf Hlock Hp. destruct (persistent_dispatch_ends fuel p request Hf) as (response & log & p' & E). exists response, log, p'.
  split; [done|]. apply (persistent_dispatch_answers fuel p p' request response log); [lia|done..].
Qed.

(** Dropping the inner server ends too: if the kill succeeds, within a second,
    or the timeout if that is less, whatever the child does with its input. *)
Theorem persistent_drop_ends fuel (p : PersistentSubprocessInner Ch) :
  0 <= s_read_timeout (pi_session p) -> Z.min (s_read_timeout (pi_session p)) NANOS < Z.of_nat fuel ->
  exists log p', persistent_drop instant_max fuel p = Some (log, p') /\
    (s_poisoned (pi_session p) = false -> pi_lock_poisoned p = false -> exists c0 killed c1 waited,
       child_kill c0 = (killed, c1) /\ child_wait c1 = (waited, s_child (pi_session p')) /\
       let bound := ci_now (s_child (pi_session p)) + Z.min (s_read_timeout (pi_session p)) NANOS + 10 ^ 6 + 7 * tau in
       ci_now c0 <= bound /\ (killed = true -> ci_now (s_child (pi_session p')) <= bound + tau)).
Proof.
  pose proof tau_nonneg. intros Hto Hf. unfold persistent_drop.
  destruct (_ || _) eqn:Eb; [eexists _, _; split; [done|]; intros Hs Hl; by rewrite Hs, Hl in Eb|].
  cbn [alloc_id]. set (s := (pi_session p) <| s_next_id := s_next_id (pi_session p) + 1 |>). change (s_child (pi_session p)) with (s_child s).
  change (s_read_timeout (pi_session p)) with (s_read_timeout s) in *. clearbody s.
  assert (Hfl : forall c, ci_now (flush_stdin c).2 <= ci_now c + tau).
  { intros c. destruct (flush_stdin c) as [r3 c3] eqn:E3. by apply flush_takes in E3 as [_ [_ ?]]. }
  assert (Hw : exists s1, (match to_vec (shutdown_request (s_next_id (pi_session p))) with Some bs => write_shutdown instant_max fuel s bs | None => Some s end) = Some s1 /\
    ci_now (s_child s1) <= ci_now (s_child s) + Z.min (s_read_timeout s) NANOS + 10 ^ 6 + 7 * tau).
  { destruct (to_vec _) as [bs|]; [|eexists; split; [done|unfold NANOS; lia]]. unfold write_shutdown, instant_checked_add.
    destruct (_ <=? _).
    - set (d := ci_now (s_child s) + _).
      destruct (write_labelled_total fuel s bs d []) as [[r1 s1] E1]; [unfold remaining_until, d, NANOS in *; lia|]. rewrite E1. cbn [mbind option_bind].
      apply write_labelled_spec in E1 as (_ & _ & _ & Ht1 & _).
      destruct (write_labelled_total fuel s1 [10] d []) as [[r2 s2] E2]; [unfold remaining_until, d, NANOS in *; lia|]. rewrite E2. cbn [mbind option_bind].
      apply write_labelled_spec in E2 as (_ & _ & _ & Ht2 & _). eexists. split; [done|]. cbn.
      pose proof (Hfl (s_child s2)). unfold d, NANOS in *. lia.
    - eexists. split; [done|]. cbn. pose proof (Hfl (s_child s)). unfold NANOS. lia. }
  destruct Hw as (s1 & -> & Ht). cbn [mbind option_bind]. destruct (child_kill (s_child s1)) as [killed c1] eqn:Ek. cbn [snd].
  destruct (child_wait c1) as [waited c2] eqn:Ew. eexists _, _. split; [done|]. intros _ _. exists (s_child s1), killed, c1, waited.
  split_and!; [done..|]. intros ->. pose proof (wait_takes _ _ _ _ Ek Ew). cbn. lia.
Qed.

(** ** Construction *)

(** A persistent inner server exists only after the launch policy was applied,
    the child was spawned with it, and it answered the [initialize] request,
    the first line it was sent, with a result under the same id and no error. *)
Theorem persistent_new_initialized `{FS : Fs, PL : Platform} spawn getter fuel program args launch p log :
  0 <= inner_read_timeout launch ->
  persistent_new instant_max spawn getter fuel (program :: args) launch = Some (Ok p, log) ->
  exists command pid c bs response value result,
    launch_command launch getter = Ok command /\ spawn program args command = Ok (pid, c) /\
    to_vec (initialize_request 1) = Some bs /\ ci_sent (s_child (pi_session p)) = ci_sent c ++ bs ++ [10] /\
    from_slice response = Some value /\ matches_id (value_of_i64 1) value /\
    get (str "result") value = Some result /\ get (str "error") value = None /\
    s_poisoned (pi_session p) = false /\ log = [LogEvent (Spawned pid)].
Proof.
  intros Hto. unfold persistent_new. destruct (launch_command launch getter) as [command|e]; [|done].
  destruct (spawn program args command) as [[pid c]|e] eqn:Esp; [|done]. unfold initialize. cbn [alloc_id s_next_id].
  destruct (to_vec (initialize_request 1)) as [bs|] eqn:Et; [|cbn [mbind option_bind]; by destruct (kill_and_reap _ _)].
  destruct (write_line_read_matching _ _ _ _ _) as [[r s1]|] eqn:E; cbn [mbind option_bind]; [|done].
  apply exchange_spec in E as ((_ & Hpo & _) & _ & Hok); [|cbn; unfold NANOS; lia].
  destruct r as [response|err]; [|by destruct (kill_and_reap _ _)]. destruct (Hok response eq_refl) as (_ & Hs & Hans).
  destruct Hans as (before & l & new & _ & _ & _ & _ & (_ & value & Hv & Hm) & _). rewrite Hv.
  destruct (get (str "error") value) eqn:Ee; [by destruct (kill_and_reap _ _)|].
  destruct (get (str "result") value) as [result|] eqn:Er; [|by destruct (kill_and_reap _ _)].
  intros [= <- <-]. exists command, pid, c, bs, response, value, result. by split_and!.
Qed.
End Lines.

(** ** A scripted child *)

(** Its clock, what it has received, what has been read, its flags, the chunks
    it will write and whether it then closes its output, and whether it reads
    its input, and whether it is alive: it is killed at once, or refuses and
    goes on for some time. *)
Inductive Life : Type := Alive | Refusing (ns : Z) | Dead.

Record ToyChild : Type := {
  tc_now : Z;
  tc_sent : bytes;
  tc_read : bytes;
  tc_flags : Z;
  tc_out : list bytes;
  tc_closes : bool;
  tc_drains : bool;
  tc_life : Life;
}.
#[export] Instance ToyChild_settable : Settable ToyChild := fun c => {|
  tc_now := tc_now c; tc_sent := tc_sent c; tc_read := tc_read c; tc_flags := tc_flags c; tc_out := tc_out c;
  tc_closes := tc_closes c; tc_drains := tc_drains c; tc_life := tc_life c |}.

Definition tc_wait (d : Z) (c : ToyChild) : ToyChild := c <| tc_now := tc_now c + d |>.

Definition toy_read (c : ToyChild) (n : nat) : result bytes OsError * ToyChild :=
  match tc_out c with
  | [] => (Ok [], tc_wait 1 c)
  | chunk :: rest =>
      (Ok (take n chunk),
       tc_wait 1 (c <| tc_out := (if is_empty (drop n chunk) then rest else drop n chunk :: rest) |>
                    <| tc_read := tc_read c ++ take n chunk |>))
  end.

Definition toy_poll (ready : bool) (c : ToyChild) (ms : Z) : result Z OsError * ToyChild :=
  if ready then (Ok 1, tc_wait 1 c) else (Ok 0, tc_wait (ms * 10 ^ 6) c).

#[export] Instance toy_child : ChildIo ToyChild := {
  ci_now := tc_now;
  poll_stdin c := toy_poll (tc_drains c) c;
  poll_stdout c := toy_poll (negb (is_empty (tc_out c)) || tc_closes c) c;
  write_stdin c bs := (Ok (length bs), tc_wait 1 (c <| tc_sent := tc_sent c ++ bs |>));
  flush_stdin c := (Ok tt, c);
  read_stdout := toy_read;
  O_NONBLOCK := 2048;
  fcntl_getfl c := Ok (tc_flags c);
  fcntl_setfl c flags := (Ok tt, c <| tc_flags := flags |>);
  child_kill c := match tc_life c with Refusing _ => (false, c) | _ => (true, c <| tc_life := Dead |>) end;
  child_wait c := (Ok None, tc_wait (match tc_life c with Refusing ns => Z.max 0 ns | _ => 1 end) (c <| tc_life := Dead |>));
}.

Lemma toy_poll_takes ready c ms r c' :
  0 < ms -> toy_poll ready c ms = (r, c') -> (tc_sent c' = tc_sent c /\ tc_read c' = tc_read c /\ Ok (E := OsError) (tc_flags c') = Ok (tc_flags c)) /\
  tc_now c < tc_now c' <= tc_now c + ms * 10 ^ 6 + 1.
Proof. intros Hms. unfold toy_poll. destruct ready; intros [= <- <-]; (split; [done|cbn; lia]). Qed.

Definition tc_gone (c : ToyChild) : bool := match tc_life c with Dead => true | _ => false end.

#[export] Program Instance toy_child_laws : ChildLaws 1 ToyChild := { ci_sent := tc_sent; ci_read := tc_read; ci_gone := tc_gone; }.
Next Obligation. lia. Qed.
Next Obligation. exists 11. split; [lia|reflexivity]. Qed.
Next Obligation. intros c ms r c'. apply toy_poll_takes. Qed.
Next Obligation. intros c ms r c'. apply toy_poll_takes. Qed.
Next Obligation. intros c bs r c' [= <- <-]. cbn. by rewrite firstn_all. Qed.
Next Obligation. intros c bs r c' flags [= <- <-] _ _. cbn. lia. Qed.
Next Obligation.
  intros c n r c' Hr. cbn in Hr. unfold toy_read in Hr. destruct (tc_out c); injection Hr as <- <-; cbn; [by rewrite app_nil_r|done].
Qed.
Next Obligation.
  intros c0 ms rc c n r c' _ _ Hr. cbn in Hr. unfold toy_read in Hr. destruct (tc_out c); injection Hr as <- <-; cbn; lia.
Qed.
Next Obligation. intros c r c' [= <- <-]. cbn. split; [done|lia]. Qed.
Next Obligation. intros c flags r c' [= <- <-]. cbn. split_and!; try done; lia. Qed.
Next Obligation. intros c killed c1. cbn. destruct (tc_life c); intros [= <- <-]; cbn; lia. Qed.
Next Obligation. intros c c1 waited c2. cbn. destruct (tc_life c); intros [= <-] [= <- <-]; cbn; lia. Qed.
Next Obligation. intros c code c' [= <- <-]. done. Qed.

Import Toy ToyProxy.

#[local] Instance toy_no_texts : SerdeTexts :=
  {| value_display _ := []; ser_error_display _ := []; de_error_display _ := [] |}.

Definition toy_inner_child (out : list bytes) (closes drains : bool) : ToyChild :=
  {| tc_now := 0; tc_sent := []; tc_read := []; tc_flags := 2; tc_out := out; tc_closes := closes; tc_drains := drains; tc_life := Alive |}.

Definition sample_persistent (c : ToyChild) : PersistentSubprocessInner ToyChild :=
  {| pi_identity := str "inner"; pi_lock_poisoned := false;
     pi_session := {| s_child := c; s_buffer := []; s_next_id := 2; s_poisoned := false; s_read_timeout := 1000 |} |}.

(** A JSON text: apostrophes stand for quotation marks. *)
Definition json_line (s : string) : bytes := (fun c => if c =? 39 then 34 else c) <$> as_bytes (str s).
Arguments json_line s%_string_scope.

Definition sample_frame : bytes := json_line "{'id':7,'method':'tools/list'}".
Definition sample_result : bytes := json_line "{'id':7,'result':{}}".

(** A notification, a blank line, and the answer in two pieces. *)
Definition sample_chatty : ToyChild :=
  toy_inner_child [json_line "{'method':'ping'}" ++ [10; 10] ++ take 5 sample_result; drop 5 sample_result ++ [10]] false true.

Definition dispatched (c : ToyChild) : option (bytes * list LogEntry * bytes * bool) :=
  '(response, log, p') ← persistent_dispatch (10 ^ 18) 1001 (sample_persistent c) sample_frame;
  Some (response, log, tc_sent (s_child (pi_session p')), s_poisoned (pi_session p')).

Example sample_answered : dispatched sample_chatty = Some (sample_result, [], sample_frame ++ [10], false).
Proof. vm_compute. reflexivity. Qed.

(** A silent child, one that does not read its input, and one that exits. *)
Example sample_silent :
  dispatched (toy_inner_child [] false true) =
  Some (persistent_fail_closed (read_exceeded 1000),
        [LogEvent (ProtocolError (read_exceeded 1000)); LogEvent (Killed (str "dispatch failure")); LogEvent (Exited None)],
        sample_frame ++ [10], true).
Proof. vm_compute. reflexivity. Qed.

Example sample_not_draining :
  (fun o => o.1.1.1) <$> dispatched (toy_inner_child [] false false) =
  Some (persistent_fail_closed (str "write to inner stdin: " ++ write_exceeded 1000)).
Proof. vm_compute. reflexivity. Qed.

Example sample_crashed :
  (fun o => o.1.1.1) <$> dispatched (toy_inner_child [] true true) =
  Some (persistent_fail_closed (str "inner closed stdout (crash mid-session?) before responding")).
Proof. vm_compute. reflexivity. Qed.

(** The handshake. *)
Example sample_initialize :
  (fun o => o.1) <$> initialize (10 ^ 18) 1001 (pi_session (sample_persistent (toy_inner_child [json_line "{'id':2,'result':{}}" ++ [10]] false true))) =
  Some (Ok tt) /\
  (fun o => is_ok o.1) <$> initialize (10 ^ 18) 1001 (pi_session (sample_persistent (toy_inner_child [json_line "{'error':{},'id':2}" ++ [10]] false true))) =
  Some false.
Proof. vm_compute. by split. Qed.

(** A child whose kill fails is still waited for, however long it goes on. *)
Theorem failed_kill_blocks ns :
  0 <= ns ->
  exists response log p', persistent_dispatch (10 ^ 18) 1001 (sample_persistent ((toy_inner_child [] true true) <| tc_life := Refusing ns |>)) sample_frame =
    Some (response, log, p') /\ ns <= ci_now (s_child (pi_session p')).
Proof. intros Hns. eexists _, _, _. split; [vm_compute; reflexivity|]. change (ns <= 6 + Z.max 0 ns). lia. Qed.

(** An answered request, and a silent child that is killed and gone. *)
Lemma persistent_dispatch_live_witness :
  (exists response log p', persistent_dispatch (10 ^ 18) 1001 (sample_persistent sample_chatty) sample_frame = Some (response, log, p') /\
    ci_now (s_child (pi_session p')) <= 0 + 2 * 1000 + 2 * 10 ^ 6 + 9 * 1 /\
    answered 65 (request_id sample_frame) (pi_session (sample_persistent sample_chatty)) (pi_session p') response) /\
  (exists response log p', persistent_dispatch (10 ^ 18) 1001 (sample_persistent (toy_inner_child [] false true)) sample_frame = Some (response, log, p') /\
    tc_life (s_child (pi_session p')) = Dead).
Proof.
  assert (Hf : 0 <= 1000 < Z.of_nat 1001) by lia. split.
  - destruct (persistent_dispatch_live (10 ^ 18) 1001 (sample_persistent sample_chatty) sample_frame Hf eq_refl eq_refl)
      as (response & log & p' & E & H).
    exists response, log, p'. split; [exact E|]. vm_compute in E. injection E as <- <- <-.
    destruct H as [(_ & _ & _ & Ht & _ & H)|(err & s & teardown & _ & _ & H & _)]; [split; [exact Ht|exact H]|discriminate H].
  - destruct (persistent_dispatch_live (10 ^ 18) 1001 (sample_persistent (toy_inner_child [] false true)) sample_frame Hf eq_refl eq_refl)
      as (response & log & p' & E & H).
    exists response, log, p'. split; [exact E|]. vm_compute in E. injection E as <- <- <-. reflexivity.
Defined.
