(* ===== verification/Serve.v ===== *)
(** * The connection pipeline of the sidecar

    [mcps-proxy/src/tls.rs] from an accepted socket to the written response,
    and the serve loop of [main.rs] over the handler of [Proxy].  A handler is
    a function on its own state that may panic; [serve]'s connection cap is a
    step relation over the accepting thread and the workers.  rustls is a
    parameter between the reader and the deadline stream, and the time of the
    read phase is bounded at the socket below it. *)

From S2P Require Import Prelude Utf8 Errors Json Canonical Strings Crypto Transport Envelope Instances UrlGuard Ocsp.
From S2P Require Import Http HttpTheorems Replay Pipeline Samples Unwrap Graft Policy KeySource Proxy ProxyTheorems.

(** ** Sockets and TLS sessions *)

(** The socket options, [ServerConnection::new] with [StreamOwned::new], what
    the session reports and takes.  Reading a session is its [Read]. *)
Class Tls (Tcp Str : Type) := {
  set_read_timeout : Tcp -> option Z -> result Tcp IoError;
  set_write_timeout : Tcp -> option Z -> result Tcp IoError;
  server_session : DeadlineStream Tcp -> result Str IoError;
  peer_certificates : Str -> option (list bytes);
  write_all : Str -> bytes -> result unit IoError * Str;
  close_notify : Str -> Str;
}.

(** Client authentication is mandatory: data only comes after a handshake in
    which the client proved a certificate. *)
Class TlsLaws (Tcp Str : Type) `{Tls Tcp Str, Read Str} : Prop := {
  read_authenticated s n c s' : read s n = (Ok c, s') -> exists leaf chain, peer_certificates s' = Some (leaf :: chain);
}.

(** ** Identity *)

Section Identity.
Context `{X509}.

(** [general_names.iter().find_map(..)]. *)
Definition find_name {A} (f : GeneralName -> option A) (names : list GeneralName) : option A := head (omap f names).

Definition extract_identity (leaf_der : bytes) (policy : IdentityPolicy) : option TransportIdentity :=
  cert ← x509_from_der leaf_der;
  match policy with
  | PolicyUriSan =>
      san ← x_alt_names cert;
      find_name (fun name => match name with
                             | NameUri uri => Some {| ti_value := uri; ti_source := SourceUriSan |}
                             | _ => None
                             end) san
  | PolicyDnsSan =>
      san ← x_alt_names cert;
      find_name (fun name => match name with
                             | NameDns dns => Some {| ti_value := dns; ti_source := SourceDnsSan |}
                             | _ => None
                             end) san
  | PolicyCnLegacy =>
      cn ← head (x_common_names cert); cn ← cn;
      Some {| ti_value := cn; ti_source := SourceCommonName |}
  end.

Inductive IdentityStrategy : Type :=
| DirectTls
| ReverseProxyHeader (provider : ReverseProxyMtlsProvider)
| LbAssertionStrategy.

(** [max_client_cert_lifetime] in seconds. *)
Record ServerOptions : Type := {
  identity_policy : IdentityPolicy;
  identity_strategy : IdentityStrategy;
  limits : ServerLimits;
  max_client_cert_lifetime : option Z;
  ocsp_checker : option OcspChecker;
}.

Definition server_options_default : ServerOptions := {|
  identity_policy := PolicyUriSan; identity_strategy := DirectTls; limits := server_limits_default;
  max_client_cert_lifetime := None; ocsp_checker := None |}.

Definition MCP_INGRESS_ASSERTION_HEADER : rstr := str "mcp-ingress-assertion".

(** [certs] is what [conn.peer_certificates()] gives. *)
Definition connection_identity (certs : option (list bytes)) (policy : IdentityPolicy) : option TransportIdentity :=
  certs ← certs; leaf ← head certs; extract_identity leaf policy.

Definition resolve_identity (certs : option (list bytes)) (options : ServerOptions) (headers : RequestHeaders)
  : option TransportIdentity :=
  match identity_strategy options with
  | DirectTls => connection_identity certs (identity_policy options)
  | ReverseProxyHeader provider => verified_identity provider headers
  | LbAssertionStrategy => None
  end.

Definition assertion_header (options : ServerOptions) (headers : RequestHeaders) : option rstr :=
  match identity_strategy options with
  | LbAssertionStrategy =>
      if negb (count_header headers MCP_INGRESS_ASSERTION_HEADER =? 1)%nat then None
      else first_header headers MCP_INGRESS_ASSERTION_HEADER
  | _ => None
  end.

Definition leaf_cert_lifetime_secs (leaf_der : bytes) : option Z :=
  cert ← x509_from_der leaf_der;
  if x_not_after cert <=? x_not_before cert then None else Some (x_not_after cert - x_not_before cert).
End Identity.

(** ** Rejections before the handler *)

(** [u64 as i64]. *)
Definition u64_as_i64 (z : Z) : Z := if z <? 2 ^ 63 then z else z - 2 ^ 64.

(** What the OCSP check of one connection draws: a nonce, and the clock. *)
Record OcspDraw : Type := { od_nonce : result bytes OcspError; od_now : Z }.

Section Rejection.
Context `{SerdeJson, SerdeSer, X509, OcspDer, Sha2, Responder}.

(** The transport error bound to the id of the request, where it has one. *)
Definition transport_rejection (request : bytes) : bytes :=
  json_rpc_error_object TransportBindingFailed (default VNull (v ← from_slice request; get (str "id") v)).

Definition cert_lifetime_rejection (certs : option (list bytes)) (options : ServerOptions) (request : bytes) : option bytes :=
  max ← max_client_cert_lifetime options;
  certs ← certs; leaf ← head certs;
  let within_limit := match leaf_cert_lifetime_secs leaf with
                      | Some lifetime => lifetime <=? u64_as_i64 max
                      | None => false
                      end in
  if within_limit then None else Some (transport_rejection request).

Definition routing_header_rejection (headers : RequestHeaders) (request : bytes) : option bytes :=
  match validate_routing_headers headers with
  | Ok _ => None
  | Err _ => Some (transport_rejection request)
  end.

Definition ocsp_rejection (certs : option (list bytes)) (options : ServerOptions) (request : bytes) (draw : OcspDraw)
  : option bytes :=
  checker ← ocsp_checker options;
  certs ← certs; leaf ← head certs;
  let unless (pass : bool) := if pass then None else Some (transport_rejection request) in
  match certs !! 1%nat with
  | None => unless (allows_on_error checker)
  | Some issuer =>
      match check checker leaf issuer (od_nonce draw) (od_now draw) with
      | Ok status => unless (allows checker status)
      | Err _ => unless (allows_on_error checker)
      end
  end.

Definition connection_rejection (certs : option (list bytes)) (options : ServerOptions) (request : bytes) (draw : OcspDraw)
  : option bytes :=
  match cert_lifetime_rejection certs options request with
  | Some error => Some error
  | None => ocsp_rejection certs options request draw
  end.
End Rejection.

(** ** One connection *)

Section Connection.
Context `{SerdeJson, SerdeSer, X509, OcspDer, Sha2, Responder}.
Context `{Clocked Tcp, Read Str, !Tls Tcp Str} {W : Type}.
Context (instant_max : Z).

Definition apply_socket_timeouts (tcp : Tcp) (l : ServerLimits) : result Tcp IoError :=
  let? tcp := set_read_timeout tcp (sl_read_timeout l) in
  set_write_timeout tcp (sl_write_timeout l).

(** A handler over its state: the request, the identity, the assertion. *)
Definition Handler : Type := bytes -> option TransportIdentity -> option rstr -> W -> outcome bytes * W.

(** What a connection leaves: its result, the session if there was one, and
    the handler's state. *)
Record Served : Type := {
  sv_result : outcome (result (option TransportIdentity) IoError);
  sv_session : option Str;
  sv_world : W;
}.

Definition dropped (e : IoError) (s : option Str) (w : W) : Served :=
  {| sv_result := Returns (Err e); sv_session := s; sv_world := w |}.

(** [write_http_response], then the clean shutdown. *)
Definition reply (s : Str) (response : bytes) (identity : option TransportIdentity) (w : W) : Served :=
  match write_all s (http_response response) with
  | (Err e, s') => dropped e (Some s') w
  | (Ok _, s') => {| sv_result := Returns (Ok identity); sv_session := Some (close_notify s'); sv_world := w |}
  end.

(** From the accepted socket on; [None] is fuel exhausted in the reading. *)
Definition serve_session (tcp : Tcp) (options : ServerOptions) (draw : OcspDraw) (handler : Handler) (w : W) : option Served :=
  match apply_socket_timeouts tcp (limits options) with
  | Err e => Some (dropped e None w)
  | Ok tcp =>
      match server_session (server_deadline_stream instant_max tcp (limits options)) with
      | Err e => Some (dropped e None w)
      | Ok s =>
          '(request, s) ← read_http_request (limits options) s;
          match request with
          | Err e => Some (dropped e (Some s) w)
          | Ok request =>
              let headers := parse_headers (header_block request) in
              let identity := resolve_identity (peer_certificates s) options headers in
              let assertion := assertion_header options headers in
              match match connection_rejection (peer_certificates s) options (http_body request) draw with
                    | Some error => Some error
                    | None => routing_header_rejection headers (http_body request)
                    end with
              | Some error => Some (reply s error identity w)
              | None =>
                  match handler (http_body request) identity assertion w with
                  | (Returns response, w') => Some (reply s response identity w')
                  | (Panics, w') => Some {| sv_result := Panics; sv_session := Some s; sv_world := w' |}
                  end
              end
          end
      end
  end.

(** [accepted] is what [listener.accept()] gives. *)
Definition serve_once_with_assertion (accepted : result Tcp IoError) (options : ServerOptions) (draw : OcspDraw)
    (handler : Handler) (w : W) : option Served :=
  match accepted with
  | Err e => Some (dropped e None w)
  | Ok tcp => serve_session tcp options draw handler w
  end.

(** A handler that does not take the assertion. *)
Definition without_assertion (handler : bytes -> option TransportIdentity -> W -> outcome bytes * W) : Handler :=
  fun request identity _ w => handler request identity w.

Definition serve_once (accepted : result Tcp IoError) (options : ServerOptions) (draw : OcspDraw)
    (handler : bytes -> option TransportIdentity -> W -> outcome bytes * W) (w : W) : option Served :=
  serve_once_with_assertion accepted options draw (without_assertion handler) w.

(** The same body, its result dropped to [()]. *)
Definition serve_connection (tcp : Tcp) (options : ServerOptions) (draw : OcspDraw)
    (handler : bytes -> option TransportIdentity -> W -> outcome bytes * W) (w : W)
  : option (outcome (result unit IoError) * W) :=
  served ← serve_session tcp options draw (without_assertion handler) w;
  Some (match sv_result served with
        | Panics => Panics
        | Returns r => Returns (let? _ := r in Ok tt)
        end, sv_world served).

(** ** main.rs: the loop *)

(** One turn of the loop: what is accepted, what the check draws, the clock. *)
Record Arrival : Type := { ar_accepted : result Tcp IoError; ar_draw : OcspDraw; ar_now : Z }.

(** The loop over the connections that arrive: a rejected connection is
    logged and passed over, a panic ends the process.  [handler now] is the
    closure over the sidecar. *)
Fixpoint serve_loop (options : ServerOptions) (handler : Z -> Handler) (arrivals : list Arrival) (w : W)
  : option (outcome (list (option Str)) * W) :=
  match arrivals with
  | [] => Some (Returns [], w)
  | a :: rest =>
      served ← serve_once_with_assertion (ar_accepted a) options (ar_draw a) (handler (ar_now a)) w;
      match sv_result served with
      | Panics => Some (Panics, sv_world served)
      | Returns _ =>
          '(r, w') ← serve_loop options handler rest (sv_world served);
          Some (match r with Panics => Panics | Returns sessions => Returns (sv_session served :: sessions) end, w')
      end
  end.
End Connection.

Arguments Served Str W : clear implicits.
Arguments Arrival Tcp : clear implicits.
Arguments Handler W : clear implicits.

(** The closure of [main.rs]. *)
Definition proxy_handler `{SerdeJson, SerdeSer, Base64, Sha2, Dalek, !Deserialize RequestEnvelope,
    !Deserialize Draft02RequestEnvelope, ReplayCache C, InnerServer Srv} (p : Proxy) (now : Z) : Handler (World C Srv) :=
  fun request identity assertion w => handle_with_transport p request now identity assertion w.

(** ** The connection cap of [serve] *)

(** The accepting thread between two connections, or between its [fetch_add]
    and what follows; [prev] is what the counter held. *)
Inductive Acceptor : Type := Accepting | Reserved (prev : Z).

(** A worker serves, has returned from [serve_connection] but not yet released
    its slot, has released it, or has panicked. *)
Inductive Worker : Type := Serving | Returned | Released | Panicked.

Record Cap : Type := { acceptor : Acceptor; workers : list Worker; in_flight : Z; refused : Z }.

Definition USIZE : Z := 2 ^ 64.
Definition fetch_add (c : Z) : Z := (c + 1) mod USIZE.
Definition fetch_sub (c : Z) : Z := (c - 1) mod USIZE.

Definition cap_init : Cap := {| acceptor := Accepting; workers := []; in_flight := 0; refused := 0 |}.

(** The atomic steps of the accepting thread and of the workers, in any order;
    every access to the counter is one read-modify-write. *)
Inductive cap_step (max : Z) : Cap -> Cap -> Prop :=
| step_reserve ws c r : cap_step max {| acceptor := Accepting; workers := ws; in_flight := c; refused := r |}
    {| acceptor := Reserved c; workers := ws; in_flight := fetch_add c; refused := r |}
| step_refuse prev ws c r : max <= prev -> cap_step max {| acceptor := Reserved prev; workers := ws; in_flight := c; refused := r |}
    {| acceptor := Accepting; workers := ws; in_flight := fetch_sub c; refused := r + 1 |}
| step_spawn prev ws c r : prev < max -> cap_step max {| acceptor := Reserved prev; workers := ws; in_flight := c; refused := r |}
    {| acceptor := Accepting; workers := ws ++ [Serving]; in_flight := c; refused := r |}
| step_return a ws ws' c r : cap_step max {| acceptor := a; workers := ws ++ Serving :: ws'; in_flight := c; refused := r |}
    {| acceptor := a; workers := ws ++ Returned :: ws'; in_flight := c; refused := r |}
| step_panic a ws ws' c r : cap_step max {| acceptor := a; workers := ws ++ Serving :: ws'; in_flight := c; refused := r |}
    {| acceptor := a; workers := ws ++ Panicked :: ws'; in_flight := c; refused := r |}
| step_release a ws ws' c r : cap_step max {| acceptor := a; workers := ws ++ Returned :: ws'; in_flight := c; refused := r |}
    {| acceptor := a; workers := ws ++ Released :: ws'; in_flight := fetch_sub c; refused := r |}.

(** ** What a connection can do

    From the socket to the inner server: everything a connection must pass
    before the handler's effects, the serve loop, and the connection cap. *)

(** ** Rejections *)

Section Vetting.
Context `{SJ : SerdeJson, SS : SerdeSer, XC : X509, OD : OcspDer, SH : Sha2, RE : Responder}.

(** What the guards before the handler establish of a client certificate. *)
Definition vetted (options : ServerOptions) (draw : OcspDraw) (leaf : bytes) (chain : list bytes) : Prop :=
  (forall max, max_client_cert_lifetime options = Some max -> 0 <= max ->
     exists cert, x509_from_der leaf = Some cert /\ 0 < x_not_after cert - x_not_before cert <= max) /\
  (forall c, ocsp_checker options = Some c ->
     (forall issuer, head chain = Some issuer -> check c leaf issuer (od_nonce draw) (od_now draw) <> Ok Ocsp.Revoked) /\
     (soft_fail c = false -> exists issuer n id request url vet response,
        head chain = Some issuer /\ od_nonce draw = Ok n /\ identifies leaf issuer id /\
        ocsp_request_to_der id n = Some request /\ ocsp_post url request vet = Ok response /\
        trusted_answer response issuer id n (od_now draw) StatusGood)).

Lemma lifetime_vetted options leaf chain request max :
  cert_lifetime_rejection (Some (leaf :: chain)) options request = None -> max_client_cert_lifetime options = Some max -> 0 <= max ->
  exists cert, x509_from_der leaf = Some cert /\ 0 < x_not_after cert - x_not_before cert <= max.
Proof.
  unfold cert_lifetime_rejection, leaf_cert_lifetime_secs. intros H Hm H0. rewrite Hm in H. cbn [mbind option_bind head] in H.
  destruct (x509_from_der leaf) as [cert|]; cbn [mbind option_bind] in H; [|done]. exists cert. split; [done|].
  destruct (Z.leb_spec (x_not_after cert) (x_not_before cert)); [done|].
  destruct (Z.leb_spec (x_not_after cert - x_not_before cert) (u64_as_i64 max)) as [Hle|]; [|done].
  unfold u64_as_i64 in Hle. destruct (max <? 2 ^ 63); lia.
Qed.

Lemma ocsp_vetted options leaf chain request draw c :
  ocsp_rejection (Some (leaf :: chain)) options request draw = None -> ocsp_checker options = Some c ->
  (forall issuer, head chain = Some issuer -> check c leaf issuer (od_nonce draw) (od_now draw) <> Ok Ocsp.Revoked) /\
  (soft_fail c = false -> exists issuer n id request url vet response,
     head chain = Some issuer /\ od_nonce draw = Ok n /\ identifies leaf issuer id /\ ocsp_request_to_der id n = Some request /\
     ocsp_post url request vet = Ok response /\ trusted_answer response issuer id n (od_now draw) StatusGood).
Proof.
  unfold ocsp_rejection. intros H Hc. rewrite Hc in H. cbn [mbind option_bind head] in H.
  destruct chain as [|issuer chain]; cbn in H.
  - split; [done|]. intros Hs. unfold allows_on_error, decide_allow in H. by rewrite Hs in H.
  - split.
    + intros ? [= <-] E. by rewrite E in H.
    + intros Hs. destruct (check c leaf issuer _ _) as [verdict|e] eqn:E; unfold allows_on_error, allows, decide_allow in H; rewrite Hs in H;
        [|done]. destruct verdict; try done.
      apply check_spec in E as (n & id & req & url & vet & resp & status & H1 & H2 & H3 & H4 & H5 & H6 & _); [|done].
      destruct status; try done. by exists issuer, n, id, req, url, vet, resp.
Qed.

Lemma connection_vetted options leaf chain request draw :
  connection_rejection (Some (leaf :: chain)) options request draw = None -> vetted options draw leaf chain.
Proof.
  unfold connection_rejection. destruct (cert_lifetime_rejection _ _ _) eqn:E; [done|]. intros H. split.
  - intros max Hm H0. by eapply lifetime_vetted.
  - intros c Hc. by eapply ocsp_vetted.
Qed.
End Vetting.

(** ** One connection *)

Section Connection.
Context `{SJ : SerdeJson, SJL : !SerdeJsonLaws, SS : !SerdeSer, SSL : !SerdeSerLaws, B64 : !Base64, SH : !Sha2, DK : !Dalek}.
Context `{D1 : !Deserialize RequestEnvelope, D2 : !Deserialize Draft02RequestEnvelope}.
Context `{L1 : !DeserializeLaws RequestEnvelope, L2 : !DeserializeLaws Draft02RequestEnvelope}.
Context `{RC : ReplayCache C, IS : InnerServer Srv}.
Context `{XC : X509, OD : !OcspDer, RE : !Responder}.
Context `{CK : Clocked Tcp, RD : Read Str, RL : !ReadLaws Str, TL : !Tls Tcp Str, TLL : !TlsLaws Tcp Str}.
Context (instant_max : Z).

(** A whole request was read only from an authenticated peer. *)
Lemma read_headers_authenticated fuel l (s s' : Str) buf r :
  read_headers fuel l s buf = Some (Ok r, s') -> find_subsequence buf HEADER_END = None ->
  exists leaf chain, peer_certificates s' = Some (leaf :: chain).
Proof.
  revert s buf. induction fuel as [|fuel IH]; intros s buf; cbn [read_headers]; [done|]. intros H E. rewrite E in H.
  destruct (max_header_bytes l <? blen buf); [done|]. destruct (read s 1024) as [[chunk|e] s1] eqn:Er; [|done].
  destruct (is_empty chunk); [done|]. destruct (find_subsequence (buf ++ chunk) HEADER_END) as [pos|] eqn:Ef; [|by eapply IH].
  destruct fuel as [|fuel]; cbn [read_headers] in H; [done|]. rewrite Ef in H. simplify_eq. by eapply read_authenticated.
Qed.

Lemma read_body_authenticated fuel l (s s' : Str) body n r :
  read_body fuel l s body n = Some (Ok r, s') -> (exists leaf chain, peer_certificates s = Some (leaf :: chain)) ->
  exists leaf chain, peer_certificates s' = Some (leaf :: chain).
Proof.
  revert s body. induction fuel as [|fuel IH]; intros s body; cbn [read_body]; [done|]. intros H Hc.
  destruct (negb _); [by simplify_eq|]. destruct (_ <? _); [done|]. destruct (read s 1024) as [[chunk|e] s1] eqn:Er; [|done].
  apply read_authenticated in Er. destruct (is_empty chunk); [by simplify_eq|]. by eapply IH.
Qed.

Lemma read_request_authenticated l (s s' : Str) q :
  read_http_request l s = Some (Ok q, s') -> exists leaf chain, peer_certificates s' = Some (leaf :: chain).
Proof.
  unfold read_http_request. destruct (read_headers _ l s []) as [[[[buf pos]|e] s1]|] eqn:Eh; cbn [mbind option_bind]; try done.
  apply read_headers_authenticated in Eh; [|done]. destruct (reject_malformed_header_framing _); [|done].
  destruct (_ <? _); [done|]. destruct (read_body _ l s1 _ _) as [[[body|e] s2]|] eqn:Eb; cbn [mbind option_bind]; try done.
  intros [= _ <-]. by eapply read_body_authenticated.
Qed.

Lemma reply_world {W} (s : Str) response identity (w : W) : sv_world (reply s response identity w) = w.
Proof. unfold reply. by destruct (write_all s _) as [[]]. Qed.

Lemma reply_no_panic {W} (s : Str) response identity (w : W) : sv_result (reply s response identity w) <> Panics.
Proof. unfold reply. by destruct (write_all s _) as [[]]. Qed.

(** What the session over the accepted socket gave: the request [q], read by
    [read_http_request] from that session, and the certificates its peer
    proved. *)
Definition session_gave (accepted : result Tcp IoError) (options : ServerOptions) (q : HttpRequest) (s : Str)
    (leaf : bytes) (chain : list bytes) : Prop :=
  exists tcp tcp' s0, accepted = Ok tcp /\ apply_socket_timeouts tcp (limits options) = Ok tcp' /\
    server_session (server_deadline_stream instant_max tcp' (limits options)) = Ok s0 /\
    read_http_request (limits options) s0 = Some (Ok q, s) /\ peer_certificates s = Some (leaf :: chain).

(** How a connection ends: before the handler, or with it. *)
Lemma serve_cases {W} (tcp : Tcp) options draw (handler : Handler W) (w : W) :
  0 <= max_header_bytes (limits options) -> 0 <= max_body_bytes (limits options) ->
  exists served, serve_session instant_max tcp options draw handler w = Some served /\
    ((sv_world served = w /\ sv_result served <> Panics) \/
     exists q (s : Str) leaf chain, sound_request (limits options) q /\ session_gave (Ok tcp) options q s leaf chain /\
       vetted options draw leaf chain /\ validate_routing_headers (parse_headers (header_block q)) = Ok tt /\
       let hs := parse_headers (header_block q) in
       let identity := resolve_identity (Some (leaf :: chain)) options hs in
       let (out, w') := handler (http_body q) identity (assertion_header options hs) w in
       sv_world served = w' /\
       match out with
       | Panics => sv_result served = Panics
       | Returns response => served = reply s response identity w'
       end).
Proof.
  intros Hh Hb. unfold serve_session. destruct (apply_socket_timeouts tcp _) as [tcp'|e] eqn:Et; [|eexists; split; [done|left; done]].
  destruct (server_session _) as [s0|e] eqn:Es; [|eexists; split; [done|left; done]].
  destruct (read_http_request_sound (limits options) s0 Hh Hb) as (r & s & Hr & Hq). rewrite Hr. cbn [mbind option_bind].
  destruct r as [q|e]; [|eexists; split; [done|left; done]]. specialize (Hq q eq_refl).
  destruct (read_request_authenticated _ _ _ _ Hr) as (leaf & chain & Hc).
  assert (Hg : session_gave (Ok tcp) options q s leaf chain) by (by exists tcp, tcp', s0). rewrite Hc.
  assert (Hrej : forall e, exists served, Some (reply s e (resolve_identity (Some (leaf :: chain)) options (parse_headers (header_block q))) w)
            = Some served /\ sv_world served = w /\ sv_result served <> Panics).
  { intros e. eexists. split; [done|]. by rewrite reply_world; split; [|apply reply_no_panic]. }
  destruct (connection_rejection _ _ _ _) as [e|] eqn:Ec; [destruct (Hrej e) as (sv & -> & ?); by eauto|].
  apply connection_vetted in Ec. unfold routing_header_rejection.
  destruct (validate_routing_headers _) as [[]|e] eqn:Ev; [|destruct (Hrej (transport_rejection (http_body q))) as (sv & -> & ?); by eauto].
  destruct (handler _ _ _ _) as [[response|] w'] eqn:Eh; (eexists; split; [done|right]); exists q, s, leaf, chain; rewrite Eh;
    split_and!; try done. apply reply_world.
Qed.

(** From the socket to the inner server. *)
Lemma serve_mediates_holds p (accepted : result Tcp IoError) options draw now (w : World C Srv) :
  0 <= max_header_bytes (limits options) -> 0 <= max_body_bytes (limits options) ->
  exists served, serve_once_with_assertion instant_max accepted options draw (proxy_handler p now) w = Some served /\
    (~ (w_inner (sv_world served) = w_inner w /\ w_effects (sv_world served) = w_effects w) ->
     exists q s leaf chain replay vr replay' fwd,
       session_gave accepted options q s leaf chain /\ sound_request (limits options) q /\ vetted options draw leaf chain /\
       validate_routing_headers (parse_headers (header_block q)) = Ok tt /\
       w_replay w = Some replay /\
       admitted p (http_body q) now (resolve_identity (Some (leaf :: chain)) options (parse_headers (header_block q)))
         (assertion_header options (parse_headers (header_block q))) replay vr replay' /\
       build_forwarded_request p (http_body q) vr now = Returns (Ok fwd) /\
       w_replay (sv_world served) = Some replay' /\ w_inner (sv_world served) = (inner_dispatch (w_inner w) fwd).2 /\
       dispatched (w_effects (sv_world served)) = dispatched (w_effects w) ++ [fwd]).
Proof.
  intros Hh Hb. destruct accepted as [tcp|e]; [|eexists; split; [done|]; by intros []].
  destruct (serve_cases tcp options draw (proxy_handler p now) w Hh Hb) as (served & Hs & Hc). exists served. split; [done|].
  intros Hch. destruct Hc as [[Hw _]|(q & s & leaf & chain & Hq & Hg & Hv & Hr & Hc)]; [rewrite Hw in Hch; by destruct Hch|].
  cbn zeta in Hc. destruct (proxy_handler _ _ _ _ _ _) as [out w'] eqn:Eh. destruct Hc as [Hw _]. rewrite Hw in *.
  apply handle_mediates_holds in Eh as Hm. destruct Hm as [Hyes Hno]. unfold proxy_handler in Eh.
  destruct (handle_cases p (http_body q) now (resolve_identity (Some (leaf :: chain)) options (parse_headers (header_block q)))
    (assertion_header options (parse_headers (header_block q))) w) as [(replay & vr & replay' & H1 & H2 & _)|[H1 _]].
  - destruct (Hyes _ _ _ H1 H2) as (fwd & ?). exists q, s, leaf, chain, replay, vr, replay', fwd. tauto.
  - destruct (Hno H1) as (? & ? & _). by destruct Hch.
Qed.


(** ** The loop *)

(** The serve loop outlives its connections: whatever arrives, each turn
    ends and the loop goes on to the next connection, with one entry per
    connection, unless the handler itself panics; then the process is gone
    with the state that connection left, and nothing after it is served. *)
Theorem serve_loop_runs {W} options (handler : Z -> Handler W) (arrivals : list (Arrival Tcp)) (w : W) :
  0 <= max_header_bytes (limits options) -> 0 <= max_body_bytes (limits options) ->
  exists out w', serve_loop instant_max options handler arrivals w = Some (out, w') /\
    match out with
    | Returns sessions => length sessions = length arrivals
    | Panics => exists pre a post sessions w1 served q identity assertion,
        arrivals = pre ++ a :: post /\ serve_loop instant_max options handler pre w = Some (Returns sessions, w1) /\
        serve_once_with_assertion instant_max (ar_accepted a) options (ar_draw a) (handler (ar_now a)) w1 = Some served /\
        handler (ar_now a) q identity assertion w1 = (Panics, w')
    end.
Proof.
  intros Hh Hb. revert w. induction arrivals as [|a rest IH]; intros w; cbn [serve_loop]; [by do 2 eexists|].
  assert (exists served, serve_once_with_assertion instant_max (ar_accepted a) options (ar_draw a) (handler (ar_now a)) w = Some served /\
    (sv_result served = Panics -> exists q identity assertion, handler (ar_now a) q identity assertion w = (Panics, sv_world served)))
    as (served & Hs & Hp).
  { unfold serve_once_with_assertion. destruct (ar_accepted a) as [tcp|e]; [|by eexists].
    destruct (serve_cases tcp options (ar_draw a) (handler (ar_now a)) w Hh Hb) as (served & Hs & Hc). exists served. split; [done|].
    intros Hp. destruct Hc as [[_ ?]|(q & s & leaf & chain & _ & _ & _ & _ & Hc)]; [done|]. cbn zeta in Hc.
    destruct (handler _ _ _ _ _) as [[r|] w'] eqn:Eh in Hc; destruct Hc as [Hw Hc]; [|by rewrite Hw; eauto].
    rewrite Hc in Hp. by apply reply_no_panic in Hp. }
  rewrite Hs. cbn [mbind option_bind]. destruct (sv_result served) eqn:Er.
  - destruct (IH (sv_world served)) as (out & w' & -> & Ho). cbn [mbind option_bind]. do 2 eexists. split; [done|].
    destruct out as [sessions|]; [cbn [length]; by rewrite Ho|].
    destruct Ho as (pre & a' & post & ss & w1 & sv & q & i & h & -> & Hpre & Hsv & Hpanic).
    exists (a :: pre), a', post, (sv_session served :: ss), w1, sv, q, i, h. cbn [serve_loop]. rewrite Hs. cbn [mbind option_bind].
    rewrite Er, Hpre. done.
  - do 2 eexists. split; [done|]. destruct (Hp eq_refl) as (q & i & h & Hq). by exists [], a, rest, [], w, served, q, i, h.
Qed.
End Connection.

(** ** Time *)

(** The socket under a session. *)
Class TlsSocket (Tcp Str : Type) := socket_of : Str -> DeadlineStream Tcp.

(** [StreamOwned::new] touches no socket; a read of the session is any number
    of reads and writes of its socket: a handshake, a record in pieces, the
    answer to a key update. *)
Class TlsSocketLaws (Tcp Str : Type) `{Clocked Tcp, Read Tcp, Write Tcp, Read Str, Tls Tcp Str, TimedSocket Tcp, TlsSocket Tcp Str} : Prop := {
  set_read_timeout_sets tcp t tcp' : set_read_timeout tcp t = Ok tcp' -> so_rcvtimeo tcp' = t /\ so_sndtimeo tcp' = so_sndtimeo tcp;
  set_write_timeout_sets tcp t tcp' : set_write_timeout tcp t = Ok tcp' -> so_sndtimeo tcp' = t /\ so_rcvtimeo tcp' = so_rcvtimeo tcp;
  session_starts d s : server_session d = Ok s -> socket_of s = d;
  session_reads s n r s' : read s n = (r, s') -> rtc server_socket_step (socket_of s) (socket_of s');
}.

(** The client's [complete_io] makes all its calls on the stream it is given. *)
Class ClientSocketLaws (Tcp Conn Cli : Type) `{Clocked Tcp, Read Tcp, Write Tcp, TimedSocket Tcp, !TlsClient Tcp Conn Cli} : Prop := {
  client_set_read_sets tcp t tcp' : client_set_read_timeout tcp t = Ok tcp' -> so_rcvtimeo tcp' = t /\ so_sndtimeo tcp' = so_sndtimeo tcp;
  client_set_write_sets tcp t tcp' : client_set_write_timeout tcp t = Ok tcp' -> so_sndtimeo tcp' = t /\ so_rcvtimeo tcp' = so_rcvtimeo tcp;
  complete_io_calls conn d r d' : complete_io conn d = (r, d') -> rtc client_socket_step d d';
}.

Section Time.
Context `{CK : Clocked Tcp, RT : !Read Tcp, WT : !Write Tcp, TS : !TimedSocket Tcp, TSL : !TimedSocketLaws Tcp}.
Context `{RD : Read Str, RL : !ReadLaws Str, TL : !Tls Tcp Str, SO : !TlsSocket Tcp Str, SOL : !TlsSocketLaws Tcp Str}.
Context {Conn Cli : Type} `{TC : !TlsClient Tcp Conn Cli, CSL : !ClientSocketLaws Tcp Conn Cli}.
Context (instant_max : Z).

Lemma apply_socket_timeouts_sets (tcp : Tcp) l tcp' :
  apply_socket_timeouts tcp l = Ok tcp' -> so_rcvtimeo tcp' = sl_read_timeout l /\ so_sndtimeo tcp' = sl_write_timeout l.
Proof.
  unfold apply_socket_timeouts. destruct (set_read_timeout tcp _) as [t1|] eqn:E1; [|done]. cbn. intros E2.
  apply set_read_timeout_sets in E1 as [<- _]. by apply set_write_timeout_sets in E2 as [-> ->].
Qed.

(** C29: A peer that trickles bytes cannot hold the sidecar's reader, nor the
    client's handshake.  With a socket read bounded by the read timeout and a
    socket write by the write timeout, and rustls free to make any number of
    either for one read of its session (bytes of a handshake, pieces of a
    record), the whole read phase of a connection, handshake included, comes
    to an end by the request deadline, one socket read, and the socket writes
    that were made in it; no number of reads adds to it (where the deadline
    overflows it counts as elapsed).  The client's handshake ends by the read
    timeout and one socket call more, reads and writes alike. *)
Theorem slow_loris_bounded (tcp tcp' : Tcp) (s0 : Str) limits T tau tw :
  0 <= T -> 0 <= tau -> 0 <= tw -> 0 <= max_header_bytes limits -> 0 <= max_body_bytes limits ->
  request_deadline limits = Some T -> sl_read_timeout limits = Some tau -> sl_write_timeout limits = Some tw ->
  apply_socket_timeouts tcp limits = Ok tcp' -> server_session (server_deadline_stream instant_max tcp' limits) = Ok s0 ->
  (exists r s, read_http_request limits s0 = Some (r, s) /\
     instant_now (socket_of s) <= instant_now tcp' + T + tau + tw * (writes_made (ds_inner (socket_of s)) - writes_made tcp')) /\
  (forall (l : ClientLimits) (c c1 c2 : Tcp) (conn : Conn) r io,
     client_set_read_timeout c (cl_read_timeout l) = Ok c1 -> client_set_write_timeout c1 (cl_write_timeout l) = Ok c2 ->
     cl_read_timeout l = Some tau -> cl_write_timeout l = Some tw -> instant_now c2 + tau <= instant_max ->
     complete_io conn {| ds_inner := c2; ds_deadline := client_deadline instant_max (cl_read_timeout l) (instant_now c2) |} = (r, io) ->
     instant_now io <= instant_now c2 + tau + Z.max tau tw).
Proof.
  intros HT Htau Htw Hh Hb Hd Hrt Hwt Ht Hs. split.
  - destruct (read_http_request_sound limits s0 Hh Hb) as (r & s & Hr & _). exists r, s. split; [done|].
    apply apply_socket_timeouts_sets in Ht as [E1 E2]. apply session_starts in Hs.
    enough (Hw : within tau tw (instant_now tcp' + T) (writes_made tcp') (fun k => tau + tw * k) (socket_of s)).
    { destruct Hw as (_ & _ & _ & _ & Hw). unfold instant_now at 1, deadline_clock. lia. }
    revert Hr. apply (read_http_request_invariant (fun s => within tau tw (instant_now tcp' + T) (writes_made tcp') (fun k => tau + tw * k) (socket_of s))).
    + intros s1 n r1 s2 H1 E. apply session_reads in E. revert H1. apply rtc_within with (R := server_socket_step); [|done].
      intros a b. by apply server_step_within.
    + rewrite Hs. unfold within. cbn [server_deadline_stream ds_inner ds_deadline]. rewrite Hd, E1, E2, Hrt, Hwt. split_and!; try done; try lia.
      eexists. split; [reflexivity|]. unfold instant_checked_add. destruct (_ <=? _); cbn; lia.
  - intros l c c1 c2 conn r io H1 H2 Er Ew Hmax Hc. apply client_set_read_sets in H1 as [H1 _]. apply client_set_write_sets in H2 as [H2 H3].
    apply complete_io_calls in Hc. unfold client_deadline, instant_checked_add in Hc. rewrite Er in Hc. cbn [mbind option_bind] in Hc.
    rewrite (proj2 (Z.leb_le _ _)) in Hc by done.
    assert (Hw : within tau tw (instant_now c2 + tau) (writes_made c2) (fun _ => Z.max tau tw) io).
    { revert Hc. intros Hc. eapply rtc_within; [|exact Hc|].
      - intros a b. by apply client_step_within.
      - unfold within. cbn [ds_inner ds_deadline]. rewrite H2, H3, H1. split_and!; try done; try lia. by eexists. }
    destruct Hw as (_ & _ & _ & _ & Hw). unfold instant_now at 1, deadline_clock. lia.
Qed.
End Time.

(** ** The connection cap *)

(** Workers that hold a slot, and those that never give it back. *)
Definition busy (ws : list Worker) : Z := Z.of_nat (length (List.filter (fun w => match w with Released => false | _ => true end) ws)).
Definition lost (ws : list Worker) : Z := Z.of_nat (length (List.filter (fun w => match w with Panicked => true | _ => false end) ws)).

Lemma busy_app a b : busy (a ++ b) = busy a + busy b.
Proof. unfold busy. rewrite List.filter_app, length_app. lia. Qed.

Lemma lost_app a b : lost (a ++ b) = lost a + lost b.
Proof. unfold lost. rewrite List.filter_app, length_app. lia. Qed.

Lemma busy_cons w ws : busy (w :: ws) = (match w with Released => 0 | _ => 1 end) + busy ws.
Proof. unfold busy. destruct w; cbn [List.filter length]; lia. Qed.

Lemma lost_cons w ws : lost (w :: ws) = (match w with Panicked => 1 | _ => 0 end) + lost ws.
Proof. unfold lost. destruct w; cbn [List.filter length]; lia. Qed.

Lemma lost_le_busy ws : 0 <= lost ws <= busy ws.
Proof.
  induction ws as [|w ws IH]; [unfold lost, busy; cbn; lia|]. rewrite lost_cons, busy_cons. destruct w; lia.
Qed.

(** The counter counts the slots held, one more while the accepting thread
    decides, modulo the width of the counter. *)
Record cap_inv (max : Z) (s : Cap) : Prop := {
  cap_counter : in_flight s = (busy (workers s) + match acceptor s with Accepting => 0 | Reserved _ => 1 end) mod USIZE;
  cap_bound : busy (workers s) <= max;
  cap_reserved prev : acceptor s = Reserved prev -> busy (workers s) <= prev <= max;
}.

Ltac cap_counts := rewrite ?busy_app, ?busy_cons, ?lost_app, ?lost_cons in *; change (busy []) with 0 in *; change (lost []) with 0 in *.

Lemma fetch_add_mod b : fetch_add (b mod USIZE) = (b + 1) mod USIZE.
Proof. unfold fetch_add. rewrite Zplus_mod_idemp_l. done. Qed.

Lemma fetch_sub_mod b : fetch_sub (b mod USIZE) = (b - 1) mod USIZE.
Proof. unfold fetch_sub. rewrite Zminus_mod_idemp_l. done. Qed.

Lemma cap_inv_step max s s' : 0 <= max < USIZE -> cap_inv max s -> cap_step max s s' -> cap_inv max s'.
Proof.
  intros Hm [Hc Hb Hr] Hs. destruct Hs; cbn [workers acceptor in_flight] in *; subst c; split; cbn [workers acceptor in_flight];
    rewrite ?fetch_add_mod, ?fetch_sub_mod; cap_counts; try done; try (f_equal; lia); try lia.
  all: try (specialize (Hr _ eq_refl); lia).
  all: intros ? E; try (specialize (Hr _ E); lia).
  injection E as <-. pose proof (lost_le_busy ws). rewrite Z.add_0_r, Z.mod_small; lia.
Qed.

Lemma cap_reachable max s : 0 <= max < USIZE -> rtc (cap_step max) cap_init s -> cap_inv max s.
Proof.
  intros Hm. assert (H0 : cap_inv max cap_init) by (split; cbn [cap_init workers acceptor in_flight]; [done|change (busy []) with 0; lia|done]). revert H0. generalize cap_init.
  intros s0 H0 Hs. induction Hs as [|s1 s2 s3 Hs _ IH]; [done|]. apply IH. by eapply cap_inv_step.
Qed.

(** C31: The connection cap holds under every interleaving of the accepting
    thread with the workers, the counter wrapping at the width of the machine:
    never more than [max] connections are served at once, between connections
    the counter is the number of slots held, and a connection is turned away
    only if all [max] slots were taken when it asked. *)
Theorem connection_cap max s :
  0 <= max < USIZE -> rtc (cap_step max) cap_init s ->
  busy (workers s) <= max /\
  (acceptor s = Accepting -> in_flight s = busy (workers s)) /\
  (forall s', cap_step max s s' -> acceptor s = Accepting -> forall prev, acceptor s' = Reserved prev ->
     prev = busy (workers s) /\ (max <= prev -> busy (workers s) = max)).
Proof.
  intros Hm [Hc Hb Hr]%cap_reachable; [|done]. pose proof (lost_le_busy (workers s)) as Hl.
  assert (Hi : acceptor s = Accepting -> in_flight s = busy (workers s)).
  { intros Ha. rewrite Hc, Ha, Z.add_0_r. apply Z.mod_small. lia. }
  split_and!; [done|done|]. intros s' Hs Ha prev Hp. specialize (Hi Ha).
  destruct Hs; cbn in *; simplify_eq; try done. split; [done|]. lia.
Qed.

(** A worker that panics never releases its slot: once [max] have, no
    connection is ever served again. *)
Theorem panics_exhaust_cap max s s' :
  0 <= max < USIZE -> rtc (cap_step max) cap_init s -> lost (workers s) = max -> rtc (cap_step max) s s' ->
  length (workers s') = length (workers s) /\ ~ exists ws ws', workers s' = ws ++ Serving :: ws'.
Proof.
  intros Hm Hi Hlost Hs. assert (lost (workers s') = max /\ length (workers s') = length (workers s)) as [Hl Hlen].
  { apply cap_reachable in Hi; [|done]. revert Hlost Hi. induction Hs as [|s1 s2 s3 Hstep _ IH]; intros Hlost Hi; [done|].
    assert (lost (workers s2) = max /\ length (workers s2) = length (workers s1)) as [E1 E2].
    { assert (Hi2 : cap_inv max s2) by (by eapply cap_inv_step). destruct Hi as [_ Hb Hr], Hi2 as [_ Hb2 _].
      destruct Hstep; cbn [workers acceptor] in *; try done; rewrite ?length_app in *; cap_counts; cbn [length];
        try (split; [lia|done]); pose proof (lost_le_busy ws); try (pose proof (lost_le_busy ws')); lia. }
    rewrite <- E2. apply IH; [done|]. by eapply cap_inv_step. }
  split; [done|]. intros (ws & ws' & E). assert (Hi' : cap_inv max s') by (apply cap_reachable; [done|]; by etrans).
  destruct Hi' as [_ Hb _]. rewrite E in *. cap_counts. pose proof (lost_le_busy ws). pose proof (lost_le_busy ws'). lia.
Qed.

(** ** On a sample connection *)

(** A session over a scripted peer that proved a certificate. *)
Record Session : Type := { ses_stream : DeadlineStream Peer; ses_written : bytes; ses_closed : bool }.

Definition sample_leaf : bytes := [1].
Definition sample_issuer : bytes := [2].

#[local] Instance session_read : Read Session := fun s n =>
  let (r, d) := read (ses_stream s) n in
  (r, {| ses_stream := d; ses_written := ses_written s; ses_closed := ses_closed s |}).

#[local] Instance session_read_laws : ReadLaws Session.
Proof.
  split. intros s n c s'. unfold read, session_read. unfold read at 1, deadline_read. destruct (check_deadline _); [|done].
  destruct (read (ds_inner (ses_stream s)) n) as [r i] eqn:E. intros [= -> _]. by eapply read_at_most.
Qed.

#[local] Instance session_tls : Tls Peer Session := {|
  set_read_timeout tcp _ := Ok tcp;
  set_write_timeout tcp _ := Ok tcp;
  server_session d := Ok {| ses_stream := d; ses_written := []; ses_closed := false |};
  peer_certificates _ := Some [sample_leaf; sample_issuer];
  write_all s bs := (Ok tt, {| ses_stream := ses_stream s; ses_written := ses_written s ++ bs; ses_closed := ses_closed s |});
  close_notify s := {| ses_stream := ses_stream s; ses_written := ses_written s; ses_closed := true |} |}.

#[local] Instance session_tls_laws : TlsLaws Peer Session.
Proof. split. intros s n c s' _. by exists sample_leaf, [sample_issuer]. Qed.

(** A leaf valid for 3000 seconds with an OCSP responder, and its issuer. *)
#[local] Instance toy_x509 : X509 := {|
  x509_from_der der := Some {|
    x_alt_names := Some [NameDns (str "host"); NameUri (str "did:a")]; x_common_names := []; x_not_before := 0; x_not_after := 3000;
    x_extended_key_usage := None; x_authority_info := [[(ID_AD_OCSP, NameUri (str "http://ocsp.example.com/"))]] |};
  certificate_from_der der := Some {| dc_subject_der := Some (48 :: der); dc_public_key := 49 :: der; dc_serial := der |};
  x509_signed_by _ _ := false;
  x509_verify_signature signer alg sig tbs := bool_decide (sig = signer ++ alg ++ tbs);
  algorithm_from_der _ := true;
  asn1_from_timestamp t := Some t |}.

Definition sample_cert_id : CertId := {|
  ci_algorithm := OID_SHA256; ci_issuer_name_hash := toy_sha2 [48; 2]; ci_issuer_key_hash := toy_sha2 [49; 2]; ci_serial := [1] |}.

(** An answer [Good] of the issuer, produced at second 1000. *)
#[local] Instance toy_ocsp_der : OcspDer := {|
  ocsp_response_from_der der := Some {| response_status := Successful; response_bytes := Some der |};
  basic_response_from_der der := Some {|
    b_tbs_der := Some der; b_responder_id := ByName (Some [48; 2]);
    b_responses := [{| sr_cert_id := sample_cert_id; sr_cert_status := StatusGood; sr_this_update := 1000; sr_next_update := Some 1600 |}];
    b_nonce := None; b_algorithm_der := Some [5]; b_signature := [2; 5] ++ der; b_certs := None |};
  ocsp_request_to_der id nonce := Some nonce |}.

#[local] Instance toy_responder : Responder := fun _ request _ => Ok request.

Definition sample_options : ServerOptions := {|
  identity_policy := PolicyUriSan; identity_strategy := DirectTls; limits := server_limits_default;
  max_client_cert_lifetime := Some 3600; ocsp_checker := Some (ocsp_checker_new None false) |}.

Definition sample_draw : OcspDraw := {| od_nonce := Ok [7; 7]; od_now := 1200 * NANOS |}.

Import Toy ToyProxy.

Definition sample_tcp : Peer := {| peer_now := 0; arrivals := [(1, http_post (str "proxy.internal") sample_raw01 ++ sample_raw01)] |}.

Definition sample_serve (answer : bytes) (draw : OcspDraw) (w : World InMemoryReplayCache nat) : option (Served Session (World InMemoryReplayCache nat)) :=
  serve_once_with_assertion 1000 (Ok sample_tcp) sample_options draw
    (@proxy_handler _ _ _ _ _ _ _ _ _ _ (toy_inner answer) sample_proxy sample_now) w.

(** The request is served; half an hour after the answer expired it is not. *)
Example sample_serve_reached : w_inner ∘ sv_world <$> sample_serve good_answer sample_draw sample_world = Some 1%nat.
Proof. vm_compute. reflexivity. Qed.

Example sample_serve_stale :
  w_inner ∘ sv_world <$> sample_serve good_answer {| od_nonce := Ok [7; 7]; od_now := 3400 * NANOS |} sample_world = Some 0%nat.
Proof. vm_compute. reflexivity. Qed.

Lemma sample_serve_world served : sample_serve good_answer sample_draw sample_world = Some served -> w_inner (sv_world served) = 1%nat.
Proof. intros E. pose proof sample_serve_reached as H. rewrite E in H. cbn in H. by injection H. Qed.


(** A peer that sends a byte a second, five to a record. *)
#[local] Instance trickle_tls : Tls Trickle (Recording (DeadlineStream Trickle)) := {|
  set_read_timeout tcp t := Ok {| tr_now := tr_now tcp; tr_rcv := t; tr_snd := tr_snd tcp; tr_writes := tr_writes tcp |};
  set_write_timeout tcp t := Ok {| tr_now := tr_now tcp; tr_rcv := tr_rcv tcp; tr_snd := t; tr_writes := tr_writes tcp |};
  server_session d := Ok {| rec_sock := d; rec_len := 5 |};
  peer_certificates _ := Some [sample_leaf; sample_issuer];
  write_all s _ := (Ok tt, s);
  close_notify s := s |}.

#[local] Instance trickle_socket : TlsSocket Trickle (Recording (DeadlineStream Trickle)) := rec_sock.

Lemma fill_record_steps k (d d' : DeadlineStream Trickle) r : fill_record k d = (r, d') -> rtc server_socket_step d d' /\ rtc client_socket_step d d'.
Proof.
  revert d. induction k as [|k IH]; intros d; cbn [fill_record]; [by intros [= _ <-]|].
  destruct (read d 1) as [[c|e] d1] eqn:E.
  - intros [H1 H2]%IH. split; (eapply rtc_l; [|done]); [by eapply server_reads|by eapply client_reads].
  - intros [= _ <-]. split; apply rtc_once; [by eapply server_reads|by eapply client_reads].
Qed.

#[local] Instance trickle_socket_laws : TlsSocketLaws Trickle (Recording (DeadlineStream Trickle)).
Proof.
  split.
  - by intros tcp t tcp' [= <-].
  - by intros tcp t tcp' [= <-].
  - by intros d s [= <-].
  - intros s n r s'. unfold read at 1, recording_read. destruct (fill_record _ _) as [r1 d] eqn:E. intros [= _ <-].
    by apply fill_record_steps in E as [? _].
Qed.

(** A client whose handshake takes forty bytes. *)
#[local] Instance trickle_client : TlsClient Trickle unit unit := {|
  tcp_connect _ := Err (io_error OtherKind);
  client_set_read_timeout tcp t := Ok {| tr_now := tr_now tcp; tr_rcv := t; tr_snd := tr_snd tcp; tr_writes := tr_writes tcp |};
  client_set_write_timeout tcp t := Ok {| tr_now := tr_now tcp; tr_rcv := tr_rcv tcp; tr_snd := t; tr_writes := tr_writes tcp |};
  client_connection_new := Some tt;
  complete_io _ d := let (r, d) := fill_record 40 d in (r, d);
  stream_owned _ _ := tt;
  client_write_all s _ := (Ok tt, s);
  client_flush s := (Ok tt, s) |}.

#[local] Instance trickle_client_laws : ClientSocketLaws Trickle unit unit.
Proof.
  split.
  - by intros tcp t tcp' [= <-].
  - by intros tcp t tcp' [= <-].
  - intros conn d r d'. cbn [complete_io trickle_client]. destruct (fill_record 40 d) as [r1 d1] eqn:E. intros [= _ <-].
    by apply fill_record_steps in E as [_ ?].
Qed.

Definition trickle_start : Trickle := {| tr_now := 0; tr_rcv := None; tr_snd := None; tr_writes := 0 |}.
Definition trickle_timed_start : Trickle := {| tr_now := 0; tr_rcv := Some 5; tr_snd := Some 5; tr_writes := 0 |}.

(** Without its deadline the sidecar would read on to the header limit. *)
Lemma slow_loris_bounded_witness :
  exists r s, read_http_request sample_limits {| rec_sock := server_deadline_stream 1000 trickle_timed_start sample_limits; rec_len := 5 |} = Some (r, s) /\
    r = Err (io_error TimedOut) /\ instant_now (rec_sock s) <= 0 + 30 + 5 + 5 * 0.
Proof.
  destruct (proj1 (@slow_loris_bounded Trickle _ _ _ _ _ _ _ _ _ _ _ unit unit _ _ 1000 trickle_start trickle_timed_start
    {| rec_sock := server_deadline_stream 1000 trickle_timed_start sample_limits; rec_len := 5 |} sample_limits 30 5 5
    ltac:(lia) ltac:(lia) ltac:(lia) ltac:(vm_compute; discriminate) ltac:(vm_compute; discriminate) eq_refl eq_refl eq_refl eq_refl eq_refl))
    as (r & s & E & Hb).
  exists r, s. split; [exact E|]. vm_compute in E. injection E as <- <-. split; [reflexivity|exact Hb].
Defined.

(** An inner server whose answer panics the handler: the second connection is
    not served. *)
Definition sample_arrival : Arrival Peer := {| ar_accepted := Ok sample_tcp; ar_draw := sample_draw; ar_now := sample_now |}.

Definition sample_loop (answer : bytes) : option (outcome (list (option Session)) * World InMemoryReplayCache nat) :=
  serve_loop 1000 sample_options (fun now => @proxy_handler _ _ _ _ _ _ _ _ _ _ (toy_inner answer) sample_proxy now)
    [sample_arrival; sample_arrival] sample_world.

Example serve_loop_dies :
  (fun r => match r with (Panics, w) => w_inner w | (Returns _, _) => 0%nat end) <$> sample_loop bad_answer = Some 1%nat.
Proof. vm_compute. reflexivity. Qed.

Lemma sample_loop_returns out w' :
  sample_loop good_answer = Some (out, w') -> match out with Panics => false | Returns _ => true end = true.
Proof.
  assert (E : (fun r => match r.1 with Panics => false | Returns _ => true end) <$> sample_loop good_answer = Some true)
    by (vm_compute; reflexivity).
  intros H. rewrite H in E. cbn in E. by injection E.
Qed.

(** Two connections served, the third turned away. *)
Definition sample_cap : Cap := {| acceptor := Reserved 2; workers := [Serving; Serving]; in_flight := 3; refused := 0 |}.

Lemma connection_cap_witness :
  rtc (cap_step 2) cap_init sample_cap /\ busy (workers sample_cap) <= 2.
Proof.
  assert (H : rtc (cap_step 2) cap_init sample_cap).
  { eapply rtc_l; [apply (step_reserve 2)|]. eapply rtc_l; [apply (step_spawn 2); lia|].
    eapply rtc_l; [apply (step_reserve 2)|]. eapply rtc_l; [apply (step_spawn 2); reflexivity|].
    eapply rtc_l; [apply (step_reserve 2)|]. apply rtc_refl. }
  split; [exact H|]. refine (proj1 (connection_cap 2 sample_cap _ H)). split; [lia|reflexivity].
Defined.
