(* ===== verification/Cli.v ===== *)
(** * The command line of the sidecar

    [mcps-proxy/src/cli.rs]: the flags, the loop that reads them, the guards on
    their combinations, and the strict posture.  The value-taking flags are a
    table in the order of the source's match; an error is a constructor where
    the source builds a message. *)

From S2P Require Import Prelude Utf8 Errors Json Canonical Strings Tiers Crypto Transport Http Ocsp Pipeline TrustCache Sandbox Launch.

Inductive KeySourceKind : Type := KeyFile | KeyEnv | KeyPkcs11 | KeyAwsKms | KeyGcpKms.
Inductive ReplayKind : Type := ReplayMemory | ReplayFile | ReplayShared.
Inductive BindingKind : Type := BindNone | BindExact | BindLbAssertion.
Inductive OcspKind : Type := OcspOff | OcspRequire.
Inductive AuthzKind : Type := AuthzOff | AuthzReference.
Inductive InnerModeKind : Type := OneShot | Persistent.

#[export] Instance ReplayDurabilityTier_eq_dec : EqDecision ReplayDurabilityTier.
Proof. solve_decision. Defined.
#[export] Instance KeySourceKind_eq_dec : EqDecision KeySourceKind.
Proof. solve_decision. Defined.
#[export] Instance ReplayKind_eq_dec : EqDecision ReplayKind.
Proof. solve_decision. Defined.
#[export] Instance BindingKind_eq_dec : EqDecision BindingKind.
Proof. solve_decision. Defined.
#[export] Instance OcspKind_eq_dec : EqDecision OcspKind.
Proof. solve_decision. Defined.
#[export] Instance AuthzKind_eq_dec : EqDecision AuthzKind.
Proof. solve_decision. Defined.
#[export] Instance IdentityPolicy_eq_dec : EqDecision IdentityPolicy.
Proof. solve_decision. Defined.

(** What [strict_violations] reports. *)
Inductive Violation : Type :=
| VEnvKeys | VNoCertLifetime | VInheritEnv | VCnLegacy | VBestEffortRlimits | VMemoryReplay | VWeakTier (wire : rstr)
| VSandboxOff | VReverseProxy | VBindingNone | VBindingLb | VCrlUnknown | VEmptyRevocation | VReferenceAuthz | VOcspSoftFail.

Inductive CliError : Type :=
| Misplaced (flag : rstr)
| RequiresValue (flag : rstr)
| InvalidValue (flag value : rstr)
| MustBePositive (flag : rstr)
| OverCap (flag : rstr) (secs : Z)
| EmptySegment (flag value : rstr)
| BadTier (flag : rstr) (e : TierError)
| UnknownFlag (flag : rstr)
| Missing (flag : rstr)
| Requires (what flag : rstr)
| NoEffect (flag : rstr)
| Conflict (flag other : rstr)
| DuplicateKeyId (key_id : rstr)
| InvalidLbKey (key_id : rstr)
| NotInThisBuild (flag : rstr)
| Unacknowledged (flag : rstr)
| StrictRefuses (violations : list Violation).

(** ** Configuration *)

(** The flags without a default. *)
Record Required : Type := {
  r_bind : option rstr;
  r_audience : option rstr;
  r_server_signer : option rstr;
  r_server_key_id : option rstr;
  r_signing_key_seed : option rstr;
  r_tls_cert : option rstr;
  r_tls_key : option rstr;
  r_client_ca : option rstr;
  r_trust_path : option rstr;
}.
#[export] Instance Required_settable : Settable Required := fun r => {|
  r_bind := r_bind r; r_audience := r_audience r; r_server_signer := r_server_signer r; r_server_key_id := r_server_key_id r;
  r_signing_key_seed := r_signing_key_seed r; r_tls_cert := r_tls_cert r; r_tls_key := r_tls_key r; r_client_ca := r_client_ca r;
  r_trust_path := r_trust_path r |}.

(** The others; they go into [Config] as they are.  Durations are in seconds. *)
Record Options : Type := {
  o_max_clock_skew : Z;
  o_expected_version_policy : ExpectedVersionPolicy;
  o_key_source : KeySourceKind;
  o_client_crl_paths : list rstr;
  o_crl_allow_unknown_status : bool;
  o_client_ocsp : OcspKind;
  o_ocsp_responder_url : option rstr;
  o_ocsp_soft_fail : bool;
  o_replay : ReplayKind;
  o_replay_path : option rstr;
  o_replay_redis_url : option rstr;
  o_cpstore_etcd_endpoint : option rstr;
  o_replay_durability_tier : option ReplayDurabilityTier;
  o_revocation_tier : RevocationTier;
  o_binding : BindingKind;
  o_identity_source : IdentityPolicy;
  o_reverse_proxy_identity_header : option rstr;
  o_reverse_proxy_header_format : ReverseProxyHeaderFormat;
  o_ingress_lb_keys : list (rstr * rstr);
  o_authz : AuthzKind;
  o_revocation_list_paths : list rstr;
  o_allow_empty_revocation : bool;
  o_allow_reference_authz : bool;
  o_inner_mode : InnerModeKind;
  o_allow_env_keysource : bool;
  o_pkcs11_module : option rstr;
  o_pkcs11_pin : option rstr;
  o_pkcs11_token_label : option rstr;
  o_pkcs11_key_label : option rstr;
  o_pkcs11_tls_key_label : option rstr;
  o_aws_kms_region : option rstr;
  o_aws_kms_key_id : option rstr;
  o_aws_kms_endpoint : option rstr;
  o_aws_kms_tls_key_id : option rstr;
  o_gcp_kms_key_version : option rstr;
  o_gcp_kms_endpoint : option rstr;
  o_gcp_kms_tls_key_version : option rstr;
  o_gcp_kms_use_metadata : bool;
  o_limits : ServerLimits;
  o_max_client_cert_lifetime : option Z;
  o_inner_command : list rstr;
  o_inner_launch : InnerLaunchConfig;
  o_strict : bool;
  o_sandbox_explicitly_off : bool;
}.
#[export] Instance Options_settable : Settable Options := fun o => {|
  o_max_clock_skew := o_max_clock_skew o; o_expected_version_policy := o_expected_version_policy o; o_key_source := o_key_source o;
  o_client_crl_paths := o_client_crl_paths o; o_crl_allow_unknown_status := o_crl_allow_unknown_status o;
  o_client_ocsp := o_client_ocsp o; o_ocsp_responder_url := o_ocsp_responder_url o; o_ocsp_soft_fail := o_ocsp_soft_fail o;
  o_replay := o_replay o; o_replay_path := o_replay_path o; o_replay_redis_url := o_replay_redis_url o;
  o_cpstore_etcd_endpoint := o_cpstore_etcd_endpoint o; o_replay_durability_tier := o_replay_durability_tier o;
  o_revocation_tier := o_revocation_tier o; o_binding := o_binding o; o_identity_source := o_identity_source o;
  o_reverse_proxy_identity_header := o_reverse_proxy_identity_header o;
  o_reverse_proxy_header_format := o_reverse_proxy_header_format o; o_ingress_lb_keys := o_ingress_lb_keys o; o_authz := o_authz o;
  o_revocation_list_paths := o_revocation_list_paths o; o_allow_empty_revocation := o_allow_empty_revocation o;
  o_allow_reference_authz := o_allow_reference_authz o; o_inner_mode := o_inner_mode o;
  o_allow_env_keysource := o_allow_env_keysource o; o_pkcs11_module := o_pkcs11_module o; o_pkcs11_pin := o_pkcs11_pin o;
  o_pkcs11_token_label := o_pkcs11_token_label o; o_pkcs11_key_label := o_pkcs11_key_label o;
  o_pkcs11_tls_key_label := o_pkcs11_tls_key_label o; o_aws_kms_region := o_aws_kms_region o; o_aws_kms_key_id := o_aws_kms_key_id o;
  o_aws_kms_endpoint := o_aws_kms_endpoint o; o_aws_kms_tls_key_id := o_aws_kms_tls_key_id o;
  o_gcp_kms_key_version := o_gcp_kms_key_version o; o_gcp_kms_endpoint := o_gcp_kms_endpoint o;
  o_gcp_kms_tls_key_version := o_gcp_kms_tls_key_version o; o_gcp_kms_use_metadata := o_gcp_kms_use_metadata o; o_limits := o_limits o;
  o_max_client_cert_lifetime := o_max_client_cert_lifetime o; o_inner_command := o_inner_command o;
  o_inner_launch := o_inner_launch o; o_strict := o_strict o; o_sandbox_explicitly_off := o_sandbox_explicitly_off o |}.

#[export] Instance ServerLimits_settable : Settable ServerLimits := fun l => {|
  max_header_bytes := max_header_bytes l; max_body_bytes := max_body_bytes l; sl_read_timeout := sl_read_timeout l;
  request_deadline := request_deadline l; sl_write_timeout := sl_write_timeout l;
  max_concurrent_connections := max_concurrent_connections l |}.

(** The locals of [parse_args]. *)
Record Args : Type := { required : Required; options : Options }.
#[export] Instance Args_settable : Settable Args := fun a => {| required := required a; options := options a |}.

Record Config : Type := {
  c_bind : rstr;
  c_audience : rstr;
  c_server_signer : rstr;
  c_server_key_id : rstr;
  c_signing_key_seed : rstr;
  c_tls_cert : rstr;
  c_tls_key : rstr;
  c_client_ca : rstr;
  c_trust_path : rstr;
  c_options : Options;
}.

Definition required_init : Required := {|
  r_bind := None; r_audience := None; r_server_signer := None; r_server_key_id := None; r_signing_key_seed := None;
  r_tls_cert := None; r_tls_key := None; r_client_ca := None; r_trust_path := None |}.

Definition options_init : Options := {|
  o_max_clock_skew := 300; o_expected_version_policy := Draft01AndDraft02; o_key_source := KeyFile;
  o_client_crl_paths := []; o_crl_allow_unknown_status := false; o_client_ocsp := OcspOff; o_ocsp_responder_url := None;
  o_ocsp_soft_fail := false; o_replay := ReplayMemory; o_replay_path := None; o_replay_redis_url := None;
  o_cpstore_etcd_endpoint := None; o_replay_durability_tier := None; o_revocation_tier := BoundedCache DEFAULT_T_SECS;
  o_binding := BindExact; o_identity_source := PolicyUriSan; o_reverse_proxy_identity_header := None;
  o_reverse_proxy_header_format := FormatXfcc; o_ingress_lb_keys := []; o_authz := AuthzOff; o_revocation_list_paths := [];
  o_allow_empty_revocation := false; o_allow_reference_authz := false; o_inner_mode := OneShot; o_allow_env_keysource := false;
  o_pkcs11_module := None; o_pkcs11_pin := None; o_pkcs11_token_label := None; o_pkcs11_key_label := None;
  o_pkcs11_tls_key_label := None; o_aws_kms_region := None; o_aws_kms_key_id := None; o_aws_kms_endpoint := None;
  o_aws_kms_tls_key_id := None; o_gcp_kms_key_version := None; o_gcp_kms_endpoint := None; o_gcp_kms_tls_key_version := None;
  o_gcp_kms_use_metadata := false; o_limits := server_limits_default; o_max_client_cert_lifetime := Some 3600;
  o_inner_command := []; o_inner_launch := inner_launch_new; o_strict := false; o_sandbox_explicitly_off := false |}.

Definition args_init : Args := {| required := required_init; options := options_init |}.

(** ** Values *)

Definition MAX_INNER_READ_TIMEOUT_SECS : Z := 86400.

Definition parse_timeout (flag value : rstr) : result (option Z) CliError :=
  let? secs := ok_or (parse_u64 value) (InvalidValue flag value) in
  if MAX_INNER_READ_TIMEOUT_SECS <? secs then Err (OverCap flag secs)
  else Ok (if secs =? 0 then None else Some secs).

Definition parse_positive_timeout (flag value : rstr) : result Z CliError :=
  let? secs := ok_or (parse_u64 value) (InvalidValue flag value) in
  if secs =? 0 then Err (MustBePositive flag)
  else if MAX_INNER_READ_TIMEOUT_SECS <? secs then Err (OverCap flag secs)
  else Ok secs.

(** The product is of [u64]s and wraps (release profile). *)
Definition parse_cert_lifetime (flag value : rstr) : result (option Z) CliError :=
  if bool_decide (value = str "none") then Ok None
  else
    let '(digits, multiplier) :=
      match strip_suffix (str "h") value with
      | Some d => (d, 3600)
      | None => match strip_suffix (str "m") value with
                | Some d => (d, 60)
                | None => (default value (strip_suffix (str "s") value), 1)
                end
      end in
    let? n := ok_or (parse_u64 digits) (InvalidValue flag value) in
    Ok (if n =? 0 then None else Some (n * multiplier mod 2 ^ 64)).

Definition parse_env_pair (flag value : rstr) : result (rstr * rstr) CliError :=
  match split_once 61 value with
  | Some (key, val) => if is_empty key then Err (InvalidValue flag value) else Ok (key, val)
  | None => Err (InvalidValue flag value)
  end.

Definition parse_rlimit_value (flag value : rstr) : result (option Z) CliError :=
  if bool_decide (value = str "none") then Ok None
  else let? n := ok_or (parse_u64 value) (InvalidValue flag value) in Ok (Some n).

(** [value.parse::<usize>()] that must not be zero. *)
Definition parse_count (flag value : rstr) : result Z CliError :=
  let? n := ok_or (parse_u64 value) (InvalidValue flag value) in
  if n =? 0 then Err (MustBePositive flag) else Ok n.

(** A match of the value against its tokens. *)
Fixpoint one_of {A} (flag value : rstr) (cases : list (rstr * A)) : result A CliError :=
  match cases with
  | [] => Err (InvalidValue flag value)
  | (token, a) :: rest => if bool_decide (value = token) then Ok a else one_of flag value rest
  end.

(** The comma-separated paths. *)
Definition segments (flag value : rstr) : result (list rstr) CliError :=
  let parts := str_split 44 value in
  if existsb is_empty parts then Err (EmptySegment flag value) else Ok parts.

Definition nonblank (flag value : rstr) : result rstr CliError :=
  if is_empty (trim value) then Err (InvalidValue flag value) else Ok value.

Definition lb_key_pair (flag value : rstr) : result (rstr * rstr) CliError :=
  let? kv := ok_or (split_once 58 value) (InvalidValue flag value) in
  if is_empty kv.1 || is_empty kv.2 then Err (InvalidValue flag value) else Ok kv.

(** ** The flags *)

(** Valueless flags. *)
Definition boolean_flags : list (rstr * (Options -> Options)) := [
  (str "--allow-env-keysource", fun o => o <| o_allow_env_keysource := true |>);
  (str "--crl-allow-unknown-status", fun o => o <| o_crl_allow_unknown_status := true |>);
  (str "--ocsp-soft-fail", fun o => o <| o_ocsp_soft_fail := true |>);
  (str "--allow-empty-revocation", fun o => o <| o_allow_empty_revocation := true |>);
  (str "--allow-reference-authz", fun o => o <| o_allow_reference_authz := true |>);
  (str "--gcp-kms-use-metadata", fun o => o <| o_gcp_kms_use_metadata := true |>);
  (str "--strict", fun o => o <| o_strict := true |>);
  (str "--production", fun o => o <| o_strict := true |>)].

(** An arm of the match: from the flag, the value and the locals. *)
Definition Arm : Type := rstr -> rstr -> Args -> result Args CliError.

Definition set_required (f : rstr -> Required -> Required) : Arm :=
  fun _ value a => Ok (a <| required ::= f value |>).
Definition set_option (f : rstr -> Options -> Options) : Arm :=
  fun _ value a => Ok (a <| options ::= f value |>).
Definition set_parsed {A} (parse : rstr -> rstr -> result A CliError) (f : A -> Options -> Options) : Arm :=
  fun flag value a => let? x := parse flag value in Ok (a <| options ::= f x |>).

Section Flags.
Context `{Lowercase}.

Definition value_flags : list (rstr * Arm) := [
  (str "--bind", set_required (fun v r => r <| r_bind := Some v |>));
  (str "--audience", set_required (fun v r => r <| r_audience := Some v |>));
  (str "--server-signer", set_required (fun v r => r <| r_server_signer := Some v |>));
  (str "--server-key-id", set_required (fun v r => r <| r_server_key_id := Some v |>));
  (str "--max-clock-skew", set_parsed (fun f v => ok_or (parse_i64 v) (InvalidValue f v)) (fun n o => o <| o_max_clock_skew := n |>));
  (str "--expected-version-policy",
     set_parsed (fun f v => map_err (fun _ => InvalidValue f v) (version_policy_from_config (Some v))) (fun p o => o <| o_expected_version_policy := p |>));
  (str "--key-source",
     set_parsed (fun f v => one_of f v [(str "file", KeyFile); (str "env", KeyEnv); (str "pkcs11", KeyPkcs11);
                                        (str "aws-kms", KeyAwsKms); (str "gcp-kms", KeyGcpKms)]) (fun k o => o <| o_key_source := k |>));
  (str "--pkcs11-module", set_option (fun v o => o <| o_pkcs11_module := Some v |>));
  (str "--pkcs11-pin", set_option (fun v o => o <| o_pkcs11_pin := Some v |>));
  (str "--pkcs11-token-label", set_option (fun v o => o <| o_pkcs11_token_label := Some v |>));
  (str "--pkcs11-key-label", set_option (fun v o => o <| o_pkcs11_key_label := Some v |>));
  (str "--pkcs11-tls-key-label", set_option (fun v o => o <| o_pkcs11_tls_key_label := Some v |>));
  (str "--aws-kms-region", set_option (fun v o => o <| o_aws_kms_region := Some v |>));
  (str "--aws-kms-key-id", set_option (fun v o => o <| o_aws_kms_key_id := Some v |>));
  (str "--aws-kms-endpoint", set_option (fun v o => o <| o_aws_kms_endpoint := Some v |>));
  (str "--aws-kms-tls-key-id", set_option (fun v o => o <| o_aws_kms_tls_key_id := Some v |>));
  (str "--gcp-kms-key-version", set_option (fun v o => o <| o_gcp_kms_key_version := Some v |>));
  (str "--gcp-kms-endpoint", set_option (fun v o => o <| o_gcp_kms_endpoint := Some v |>));
  (str "--gcp-kms-tls-key-version", set_option (fun v o => o <| o_gcp_kms_tls_key_version := Some v |>));
  (str "--signing-key-seed", set_required (fun v r => r <| r_signing_key_seed := Some v |>));
  (str "--tls-cert", set_required (fun v r => r <| r_tls_cert := Some v |>));
  (str "--tls-key", set_required (fun v r => r <| r_tls_key := Some v |>));
  (str "--client-ca", set_required (fun v r => r <| r_client_ca := Some v |>));
  (str "--client-crl", set_parsed segments (fun ps o => o <| o_client_crl_paths ::= fun l => l ++ ps |>));
  (str "--trust", set_required (fun v r => r <| r_trust_path := Some v |>));
  (str "--revocation-list", set_parsed segments (fun ps o => o <| o_revocation_list_paths ::= fun l => l ++ ps |>));
  (str "--client-ocsp",
     set_parsed (fun f v => one_of f v [(str "off", OcspOff); (str "require", OcspRequire)]) (fun k o => o <| o_client_ocsp := k |>));
  (str "--ocsp-responder-url", set_parsed nonblank (fun u o => o <| o_ocsp_responder_url := Some u |>));
  (str "--replay-cache",
     set_parsed (fun f v => one_of f v [(str "memory", ReplayMemory); (str "file", ReplayFile); (str "shared", ReplayShared)])
       (fun k o => o <| o_replay := k |>));
  (str "--replay-path", set_option (fun v o => o <| o_replay_path := Some v |>));
  (str "--replay-redis-url", set_option (fun v o => o <| o_replay_redis_url := Some v |>));
  (str "--cpstore-etcd-endpoint", set_parsed nonblank (fun u o => o <| o_cpstore_etcd_endpoint := Some u |>));
  (str "--replay-durability-tier",
     set_parsed (fun f v => map_err (BadTier f) (ReplayTier.parse v)) (fun t o => o <| o_replay_durability_tier := Some t |>));
  (str "--revocation-tier", set_parsed (fun f v => map_err (BadTier f) (RevTier.parse v)) (fun t o => o <| o_revocation_tier := t |>));
  (str "--transport-binding",
     set_parsed (fun f v => one_of f v [(str "none", BindNone); (str "exact", BindExact); (str "lb-assertion", BindLbAssertion)])
       (fun k o => o <| o_binding := k |>));
  (str "--ingress-lb-key", set_parsed lb_key_pair (fun kv o => o <| o_ingress_lb_keys ::= fun l => l ++ [kv] |>));
  (str "--transport-identity-source",
     set_parsed (fun f v => one_of f v [(str "uri_san", PolicyUriSan); (str "dns_san", PolicyDnsSan); (str "cn_legacy", PolicyCnLegacy)])
       (fun k o => o <| o_identity_source := k |>));
  (str "--reverse-proxy-identity-header", set_parsed nonblank (fun h o => o <| o_reverse_proxy_identity_header := Some h |>));
  (str "--reverse-proxy-header-format",
     set_parsed (fun f v => one_of f v [(str "plain", FormatPlain); (str "xfcc", FormatXfcc)])
       (fun k o => o <| o_reverse_proxy_header_format := k |>));
  (str "--authz",
     set_parsed (fun f v => one_of f v [(str "off", AuthzOff); (str "reference", AuthzReference)]) (fun k o => o <| o_authz := k |>));
  (str "--inner-mode",
     set_parsed (fun f v => one_of f v [(str "oneshot", OneShot); (str "persistent", Persistent)]) (fun k o => o <| o_inner_mode := k |>));
  (str "--max-header-bytes",
     set_parsed (fun f v => ok_or (parse_u64 v) (InvalidValue f v)) (fun n o => o <| o_limits ::= fun l => l <| max_header_bytes := n |> |>));
  (str "--max-body-bytes",
     set_parsed (fun f v => ok_or (parse_u64 v) (InvalidValue f v)) (fun n o => o <| o_limits ::= fun l => l <| max_body_bytes := n |> |>));
  (str "--read-timeout-secs", set_parsed parse_timeout (fun t o => o <| o_limits ::= fun l => l <| sl_read_timeout := t |> |>));
  (str "--request-deadline-secs", set_parsed parse_timeout (fun t o => o <| o_limits ::= fun l => l <| request_deadline := t |> |>));
  (str "--write-timeout-secs", set_parsed parse_timeout (fun t o => o <| o_limits ::= fun l => l <| sl_write_timeout := t |> |>));
  (str "--inner-read-timeout-secs",
     set_parsed parse_positive_timeout (fun t o => o <| o_inner_launch ::= fun l => l <| inner_read_timeout := t |> |>));
  (str "--max-connections", set_parsed parse_count (fun n o => o <| o_limits ::= fun l => l <| max_concurrent_connections := n |> |>));
  (str "--max-client-cert-lifetime", set_parsed parse_cert_lifetime (fun t o => o <| o_max_client_cert_lifetime := t |>));
  (str "--inherit-env",
     set_parsed (fun f v => one_of f v [(str "true", true); (str "false", false)])
       (fun b o => o <| o_inner_launch ::= fun l => l <| inherit_env := b |> |>));
  (str "--inner-env", set_parsed parse_env_pair (fun kv o => o <| o_inner_launch ::= fun l => l <| explicit_env ::= fun e => e ++ [kv] |> |>));
  (str "--inner-env-allow", set_option (fun v o => o <| o_inner_launch ::= fun l => l <| allow_env_names ::= fun e => e ++ [v] |> |>));
  (str "--inner-working-dir", set_option (fun v o => o <| o_inner_launch ::= fun l => l <| working_dir := Some v |> |>));
  (str "--inner-stderr-cap-bytes", set_parsed parse_count (fun n o => o <| o_inner_launch ::= fun l => l <| stderr_cap_bytes := n |> |>));
  (str "--inner-stderr-cap-lines", set_parsed parse_count (fun n o => o <| o_inner_launch ::= fun l => l <| stderr_cap_lines := n |> |>));
  (str "--inner-rlimit-nofile",
     set_parsed parse_rlimit_value (fun n o => o <| o_inner_launch ::= fun l => l <| il_rlimits ::= fun r => r <| nofile := n |> |> |>));
  (str "--inner-rlimit-cpu-seconds",
     set_parsed parse_rlimit_value (fun n o => o <| o_inner_launch ::= fun l => l <| il_rlimits ::= fun r => r <| cpu_seconds := n |> |> |>));
  (str "--inner-rlimit-as-bytes",
     set_parsed parse_rlimit_value
       (fun n o => o <| o_inner_launch ::= fun l => l <| il_rlimits ::= fun r => r <| address_space_bytes := n |> |> |>));
  (str "--inner-rlimit-data-bytes",
     set_parsed parse_rlimit_value (fun n o => o <| o_inner_launch ::= fun l => l <| il_rlimits ::= fun r => r <| data_bytes := n |> |> |>));
  (str "--inner-rlimit-core-bytes",
     set_parsed parse_rlimit_value (fun n o => o <| o_inner_launch ::= fun l => l <| il_rlimits ::= fun r => r <| core_bytes := n |> |> |>));
  (str "--inner-rlimit-fsize-bytes",
     set_parsed parse_rlimit_value (fun n o => o <| o_inner_launch ::= fun l => l <| il_rlimits ::= fun r => r <| fsize_bytes := n |> |> |>));
  (str "--inner-rlimit-best-effort",
     set_parsed (fun f v => one_of f v [(str "true", true); (str "false", false)])
       (fun b o => o <| o_inner_launch ::= fun l => l <| il_rlimits ::= fun r => r <| best_effort := b |> |> |>));
  (str "--inner-sandbox",
     set_parsed (fun f v => one_of f v [(str "off", SandboxOff); (str "enforce", SandboxEnforce)])
       (fun k o => (match k with SandboxOff => o <| o_sandbox_explicitly_off := true |> | SandboxEnforce => o end)
                   <| o_inner_launch ::= fun l => l <| il_sandbox ::= fun s => s <| sb_mode := k |> |> |>));
  (str "--inner-fs-allow-read",
     set_parsed segments (fun ps o => o <| o_inner_launch ::= fun l => l <| il_sandbox ::= fun s => s <| fs_allow_read ::= fun r => r ++ ps |> |> |>));
  (str "--inner-fs-allow-write",
     set_parsed segments (fun ps o => o <| o_inner_launch ::= fun l => l <| il_sandbox ::= fun s => s <| fs_allow_write ::= fun r => r ++ ps |> |> |>));
  (str "--inner-net",
     set_parsed (fun f v => one_of f v [(str "deny", DenyAll); (str "allow", AllowNet)])
       (fun k o => o <| o_inner_launch ::= fun l => l <| il_sandbox ::= fun s => s <| network := k |> |> |>))].

Definition lookup_flag {A} (flag : rstr) (table : list (rstr * A)) : option A :=
  snd <$> List.find (fun e => bool_decide (e.1 = flag)) table.

Definition KNOWN_PROXY_FLAGS : list rstr := [
  str "--allow-env-keysource"; str "--allow-reference-authz"; str "--crl-allow-unknown-status"; str "--ocsp-soft-fail";
  str "--gcp-kms-use-metadata"; str "--strict"; str "--production";
  str "--bind"; str "--audience"; str "--server-signer"; str "--server-key-id"; str "--max-clock-skew"; str "--expected-version-policy";
  str "--key-source"; str "--pkcs11-module"; str "--pkcs11-pin"; str "--pkcs11-token-label"; str "--pkcs11-key-label";
  str "--pkcs11-tls-key-label"; str "--aws-kms-region"; str "--aws-kms-key-id"; str "--aws-kms-endpoint"; str "--aws-kms-tls-key-id";
  str "--gcp-kms-key-version"; str "--gcp-kms-endpoint"; str "--gcp-kms-tls-key-version"; str "--signing-key-seed"; str "--tls-cert";
  str "--tls-key"; str "--client-ca"; str "--client-crl"; str "--trust"; str "--client-ocsp"; str "--ocsp-responder-url";
  str "--replay-cache"; str "--replay-path"; str "--replay-redis-url"; str "--cpstore-etcd-endpoint"; str "--replay-durability-tier";
  str "--revocation-tier"; str "--transport-binding"; str "--transport-identity-source"; str "--reverse-proxy-identity-header";
  str "--reverse-proxy-header-format"; str "--ingress-lb-key"; str "--authz"; str "--revocation-list"; str "--allow-empty-revocation";
  str "--inner-mode"; str "--max-body-bytes"; str "--read-timeout-secs"; str "--request-deadline-secs"; str "--write-timeout-secs";
  str "--inner-read-timeout-secs"; str "--max-connections"; str "--max-client-cert-lifetime"; str "--inherit-env"; str "--inner-env";
  str "--inner-env-allow"; str "--inner-working-dir"; str "--inner-stderr-cap-bytes"; str "--inner-stderr-cap-lines";
  str "--inner-rlimit-nofile"; str "--inner-rlimit-cpu-seconds"; str "--inner-rlimit-as-bytes"; str "--inner-rlimit-data-bytes";
  str "--inner-rlimit-core-bytes"; str "--inner-rlimit-fsize-bytes"; str "--inner-rlimit-best-effort"; str "--inner-sandbox";
  str "--inner-fs-allow-read"; str "--inner-fs-allow-write"; str "--inner-net"].

Definition INNER_COMMAND : rstr := str "--inner-command".

(** The loop over the arguments. *)
Fixpoint read_args (args : list rstr) (a : Args) : result Args CliError :=
  match args with
  | [] => Ok a
  | flag :: rest =>
      if bool_decide (flag = INNER_COMMAND) then
        match List.find (fun t => bool_decide (t ∈ KNOWN_PROXY_FLAGS)) rest with
        | Some misplaced => Err (Misplaced misplaced)
        | None => Ok (a <| options ::= fun o => o <| o_inner_command := rest |> |>)
        end
      else
        match lookup_flag flag boolean_flags with
        | Some f => read_args rest (a <| options ::= f |>)
        | None =>
            match rest with
            | [] => Err (RequiresValue flag)
            | value :: rest' =>
                match lookup_flag flag value_flags with
                | Some arm => let? a' := arm flag value a in read_args rest' a'
                | None => Err (UnknownFlag flag)
                end
            end
        end
  end.
End Flags.

(** ** Guards *)

(** A chain of [if condition { return Err(..) }]. *)
Fixpoint reject_if (guards : list (bool * CliError)) : result unit CliError :=
  match guards with
  | [] => Ok tt
  | (refused, e) :: rest => if refused then Err e else reject_if rest
  end.

Definition none {A} (o : option A) : bool := negb (is_some o).

Definition validate_tls_signing_exclusivity (has_delegated_tls has_exported_tls_key : bool) : result unit CliError :=
  if has_delegated_tls && has_exported_tls_key then Err (Conflict (str "--tls-key") (str "delegated TLS")) else Ok tt.

Definition tier_is_linearizable (o : Options) : bool :=
  match o_replay_durability_tier o with Some Linearizable => true | _ => false end.

Definition has_delegated_tls (o : Options) : bool :=
  is_some (o_pkcs11_tls_key_label o) || is_some (o_aws_kms_tls_key_id o) || is_some (o_gcp_kms_tls_key_version o).

(** Up to the ingress assertion, in the order of the source. *)
Definition replay_guards (o : Options) : list (bool * CliError) :=
  let shared := bool_decide (o_replay o = ReplayShared) in
  [ (bool_decide (o_replay o = ReplayFile) && none (o_replay_path o), Requires (str "--replay-cache file") (str "--replay-path"));
    (shared && none (o_replay_durability_tier o), Requires (str "--replay-cache shared") (str "--replay-durability-tier"));
    (shared && tier_is_linearizable o && none (o_cpstore_etcd_endpoint o),
       Requires (str "--replay-durability-tier linearizable") (str "--cpstore-etcd-endpoint"));
    (shared && negb (tier_is_linearizable o) && none (o_replay_redis_url o),
       Requires (str "--replay-cache shared") (str "--replay-redis-url"));
    (is_some (o_cpstore_etcd_endpoint o) && negb (shared && tier_is_linearizable o), NoEffect (str "--cpstore-etcd-endpoint")) ].

Definition key_guards (o : Options) : list (bool * CliError) :=
  let source k := bool_decide (o_key_source o = k) in
  [ (source KeyEnv && negb (o_allow_env_keysource o), Requires (str "--key-source env") (str "--allow-env-keysource"));
    (inherit_env (o_inner_launch o) && source KeyEnv, Conflict (str "--inherit-env") (str "--key-source env"));
    (source KeyPkcs11 && none (o_pkcs11_module o), Requires (str "--key-source pkcs11") (str "--pkcs11-module"));
    (source KeyPkcs11 && none (o_pkcs11_pin o), Requires (str "--key-source pkcs11") (str "--pkcs11-pin"));
    (source KeyPkcs11 && none (o_pkcs11_token_label o), Requires (str "--key-source pkcs11") (str "--pkcs11-token-label"));
    (source KeyPkcs11 && none (o_pkcs11_key_label o), Requires (str "--key-source pkcs11") (str "--pkcs11-key-label"));
    (is_some (o_pkcs11_tls_key_label o) && negb (source KeyPkcs11), NoEffect (str "--pkcs11-tls-key-label"));
    (source KeyAwsKms && none (o_aws_kms_region o), Requires (str "--key-source aws-kms") (str "--aws-kms-region"));
    (source KeyAwsKms && none (o_aws_kms_key_id o), Requires (str "--key-source aws-kms") (str "--aws-kms-key-id"));
    (is_some (o_aws_kms_tls_key_id o) && negb (source KeyAwsKms), NoEffect (str "--aws-kms-tls-key-id"));
    (source KeyGcpKms && none (o_gcp_kms_key_version o), Requires (str "--key-source gcp-kms") (str "--gcp-kms-key-version"));
    (is_some (o_gcp_kms_tls_key_version o) && negb (source KeyGcpKms), NoEffect (str "--gcp-kms-tls-key-version"));
    (o_gcp_kms_use_metadata o && negb (source KeyGcpKms), NoEffect (str "--gcp-kms-use-metadata")) ].

Definition ingress_guards (o : Options) : list (bool * CliError) :=
  [ (is_empty (o_inner_command o), Missing INNER_COMMAND);
    (is_some (o_reverse_proxy_identity_header o) && is_some (o_max_client_cert_lifetime o),
       Conflict (str "--reverse-proxy-identity-header") (str "--max-client-cert-lifetime"));
    (negb (is_empty (o_ingress_lb_keys o)) && negb (bool_decide (o_binding o = BindLbAssertion)), NoEffect (str "--ingress-lb-key"));
    (bool_decide (o_binding o = BindLbAssertion) && is_empty (o_ingress_lb_keys o),
       Requires (str "--transport-binding lb-assertion") (str "--ingress-lb-key")) ].

(** [online] is whether the build has the [online_ocsp] feature. *)
Definition ocsp_guards (online : bool) (o : Options) : list (bool * CliError) :=
  let require := bool_decide (o_client_ocsp o = OcspRequire) in
  [ (negb require && is_some (o_ocsp_responder_url o), NoEffect (str "--ocsp-responder-url"));
    (negb require && o_ocsp_soft_fail o, NoEffect (str "--ocsp-soft-fail"));
    (negb online && require, NotInThisBuild (str "--client-ocsp"));
    (online && require && is_some (o_reverse_proxy_identity_header o),
       Conflict (str "--client-ocsp") (str "--reverse-proxy-identity-header")) ].

(** On the built configuration. *)
Definition authz_guards (o : Options) : list (bool * CliError) :=
  let reference := bool_decide (o_authz o = AuthzReference) in
  [ (reference && is_empty (o_revocation_list_paths o) && negb (o_allow_empty_revocation o), Unacknowledged (str "--allow-empty-revocation"));
    (reference && negb (o_allow_reference_authz o), Unacknowledged (str "--allow-reference-authz")) ].

Definition strict_violations (o : Options) : list Violation :=
  let when b v := if b : bool then [v] else [] in
  when (bool_decide (o_key_source o = KeyEnv)) VEnvKeys ++
  when (none (o_max_client_cert_lifetime o)) VNoCertLifetime ++
  when (inherit_env (o_inner_launch o)) VInheritEnv ++
  when (bool_decide (o_identity_source o = PolicyCnLegacy)) VCnLegacy ++
  when (best_effort (il_rlimits (o_inner_launch o))) VBestEffortRlimits ++
  when (bool_decide (o_replay o = ReplayMemory)) VMemoryReplay ++
  (match o_replay o, o_replay_durability_tier o with
   | ReplayShared, Some tier => when (negb (ReplayTier.meets_strict_production_minimum tier)) (VWeakTier (ReplayTier.wire_name tier))
   | _, _ => []
   end) ++
  when (o_sandbox_explicitly_off o) VSandboxOff ++
  when (is_some (o_reverse_proxy_identity_header o)) VReverseProxy ++
  when (bool_decide (o_binding o = BindNone)) VBindingNone ++
  when (bool_decide (o_binding o = BindLbAssertion)) VBindingLb ++
  when (o_crl_allow_unknown_status o && negb (is_empty (o_client_crl_paths o))) VCrlUnknown ++
  when (bool_decide (o_authz o = AuthzReference) && o_allow_empty_revocation o) VEmptyRevocation ++
  when (bool_decide (o_authz o = AuthzReference)) VReferenceAuthz ++
  when (o_ocsp_soft_fail o) VOcspSoftFail.

Section Parse.
Context `{Lowercase, Base64, Dalek}.

(** The loop over the ingress keys. *)
Fixpoint check_lb_keys (seen : list rstr) (keys : list (rstr * rstr)) : result unit CliError :=
  match keys with
  | [] => Ok tt
  | (key_id, key_b64) :: rest =>
      if bool_decide (key_id ∈ seen) then Err (DuplicateKeyId key_id)
      else if negb (is_ok (vk_from_b64url key_b64)) then Err (InvalidLbKey key_id)
      else check_lb_keys (key_id :: seen) rest
  end.

Definition require (o : option rstr) (name : string) : result rstr CliError := ok_or o (Missing (str name)).

Definition build_config (r : Required) (o : Options) : result Config CliError :=
  let? bind := require (r_bind r) "--bind" in
  let? audience := require (r_audience r) "--audience" in
  let? server_signer := require (r_server_signer r) "--server-signer" in
  let? server_key_id := require (r_server_key_id r) "--server-key-id" in
  let? signing_key_seed := require (r_signing_key_seed r) "--signing-key-seed" in
  let? tls_cert := require (r_tls_cert r) "--tls-cert" in
  let? tls_key := if has_delegated_tls o then Ok (default [] (r_tls_key r)) else require (r_tls_key r) "--tls-key" in
  let? client_ca := require (r_client_ca r) "--client-ca" in
  let? trust_path := require (r_trust_path r) "--trust" in
  Ok {| c_bind := bind; c_audience := audience; c_server_signer := server_signer; c_server_key_id := server_key_id;
        c_signing_key_seed := signing_key_seed; c_tls_cert := tls_cert; c_tls_key := tls_key; c_client_ca := client_ca;
        c_trust_path := trust_path; c_options := o |}.

Definition parse_args (online : bool) (args : list rstr) : result Config CliError :=
  let? a := read_args args args_init in
  let o := options a in
  try? reject_if (replay_guards o) ;;
  try? reject_if (key_guards o) ;;
  try? reject_if (ingress_guards o) ;;
  try? check_lb_keys [] (o_ingress_lb_keys o) ;;
  try? reject_if (ocsp_guards online o) ;;
  try? validate_tls_signing_exclusivity (has_delegated_tls o) (is_some (r_tls_key (required a))) ;;
  let? config := build_config (required a) o in
  try? reject_if (authz_guards o) ;;
  let violations := strict_violations o in
  if o_strict o && negb (is_empty violations) then Err (StrictRefuses violations) else Ok config.
End Parse.

Definition key_file_mode_is_insecure (mode : Z) : bool := negb (Z.land mode 0x3F =? 0).

(** ** What is built from a configuration *)

Section Build.
Context `{Base64, Dalek}.

Definition identity_source_of (p : IdentityPolicy) : IdentitySource :=
  match p with PolicyUriSan => SourceUriSan | PolicyDnsSan => SourceDnsSan | PolicyCnLegacy => SourceCommonName end.

Fixpoint add_lb_keys (keys : list (rstr * rstr)) (b : LbAssertionBinding) : result LbAssertionBinding CliError :=
  match keys with
  | [] => Ok b
  | (key_id, key_b64) :: rest =>
      let? key := map_err (fun _ => InvalidLbKey key_id) (vk_from_b64url key_b64) in
      add_lb_keys rest (add_key b key_id key)
  end.

Definition build_lb_assertion_binding (o : Options) : result (option LbAssertionBinding) CliError :=
  if negb (bool_decide (o_binding o = BindLbAssertion)) then Ok None
  else let? b := add_lb_keys (o_ingress_lb_keys o) (lb_binding_new (identity_source_of (o_identity_source o))) in Ok (Some b).

Definition build_ocsp_checker (o : Options) : option OcspChecker :=
  match o_client_ocsp o with
  | OcspOff => None
  | OcspRequire => Some (ocsp_checker_new (o_ocsp_responder_url o) (o_ocsp_soft_fail o))
  end.
End Build.
