(* ===== verification/CliTheorems.v ===== *)
(** * What an accepted command line means

    Invariants of the options along the argument loop, which tokens are read
    as flags, what the guards leave, and sample command lines. *)

From S2P Require Import Prelude Utf8 Errors Json Canonical Strings Tiers Crypto Transport Http Ocsp Pipeline TrustCache Sandbox Launch Cli.
From S2P Require Import Instances.

(** ** Values *)

Lemma parse_timeout_range flag value t : parse_timeout flag value = Ok (Some t) -> 1 <= t <= MAX_INNER_READ_TIMEOUT_SECS.
Proof.
  unfold parse_timeout. destruct (parse_u64 value) as [n|] eqn:E; cbn [ok_or]; [|done]. apply parse_unsigned_range in E.
  destruct (Z.ltb_spec MAX_INNER_READ_TIMEOUT_SECS n); [done|]. destruct (Z.eqb_spec n 0); [done|]. intros [= <-]. lia.
Qed.

Lemma parse_positive_timeout_range flag value t : parse_positive_timeout flag value = Ok t -> 1 <= t <= MAX_INNER_READ_TIMEOUT_SECS.
Proof.
  unfold parse_positive_timeout. destruct (parse_u64 value) as [n|] eqn:E; cbn [ok_or]; [|done]. apply parse_unsigned_range in E.
  destruct (Z.eqb_spec n 0); [done|]. destruct (Z.ltb_spec MAX_INNER_READ_TIMEOUT_SECS n); [done|]. intros [= <-]. lia.
Qed.

Lemma parse_count_range flag value n : parse_count flag value = Ok n -> 1 <= n <= U64_MAX.
Proof.
  unfold parse_count. destruct (parse_u64 value) as [m|] eqn:E; cbn [ok_or]; [|done]. apply parse_unsigned_range in E.
  destruct (Z.eqb_spec m 0); [done|]. intros [= <-]. lia.
Qed.

Lemma parse_cert_lifetime_range flag value t : parse_cert_lifetime flag value = Ok (Some t) -> 0 <= t <= U64_MAX.
Proof.
  unfold parse_cert_lifetime. destruct (bool_decide _); [done|].
  destruct (match strip_suffix (str "h") value with Some d => (d, 3600) | None => _ end) as [digits m].
  destruct (parse_u64 digits) as [n|]; cbn [ok_or]; [|done]. destruct (n =? 0); [done|]. intros [= <-].
  unfold U64_MAX. pose proof (Z.mod_pos_bound (n * m) (2 ^ 64)). lia.
Qed.

Lemma segments_nonempty flag value ps : segments flag value = Ok ps -> Forall (fun p => p <> []) ps.
Proof.
  unfold segments. destruct (existsb is_empty _) eqn:E; [done|]. intros [= <-]. apply Forall_forall. intros p Hp ->.
  apply not_true_iff_false in E. apply E. apply existsb_exists. exists []. split; [by apply list_elem_of_In|done].
Qed.

Lemma env_pair_key flag value kv : parse_env_pair flag value = Ok kv -> kv.1 <> [] /\ 61 ∉ kv.1.
Proof.
  unfold parse_env_pair. destruct (split_once 61 value) as [[k v]|] eqn:E; [|done]. destruct k as [|c k]; [done|]. intros [= <-].
  split; [done|]. by apply split_once_Some in E as [_ ?].
Qed.

Lemma parse_rlimit_range flag value r : parse_rlimit_value flag value = Ok r -> forall n, r = Some n -> 0 <= n <= U64_MAX.
Proof.
  unfold parse_rlimit_value. destruct (bool_decide _); [by intros [= <-]|]. destruct (parse_u64 value) as [m|] eqn:E; cbn [ok_or]; [|done].
  intros [= <-] n [= <-]. by apply parse_unsigned_range in E.
Qed.

Lemma nonblank_text flag value s : nonblank flag value = Ok s -> trim s <> [].
Proof. unfold nonblank. destruct (trim value) eqn:E; [done|]. intros [= <-]. by rewrite E. Qed.

Lemma lb_key_pair_parts flag value kv : lb_key_pair flag value = Ok kv -> kv.1 <> [] /\ kv.2 <> [] /\ 58 ∉ kv.1.
Proof.
  unfold lb_key_pair. destruct (split_once 58 value) as [[k v]|] eqn:E; [|done]. cbn [ok_or fst snd]. destruct k as [|c k]; [done|].
  destruct v as [|d v]; [done|]. intros [= <-]. split_and!; [done..|]. by apply split_once_Some in E as [_ ?].
Qed.

(** ** The options along the loop *)

Definition rlimit_values (r : RLimits) : list (option Z) :=
  [nofile r; cpu_seconds r; address_space_bytes r; data_bytes r; core_bytes r; fsize_bytes r].

(** What every prefix of the command line establishes. *)
Record options_ok (o : Options) : Prop := {
  ok_read : forall t, sl_read_timeout (o_limits o) = Some t -> 1 <= t <= MAX_INNER_READ_TIMEOUT_SECS;
  ok_deadline : forall t, request_deadline (o_limits o) = Some t -> 1 <= t <= MAX_INNER_READ_TIMEOUT_SECS;
  ok_write : forall t, sl_write_timeout (o_limits o) = Some t -> 1 <= t <= MAX_INNER_READ_TIMEOUT_SECS;
  ok_header : 0 <= max_header_bytes (o_limits o) <= U64_MAX;
  ok_body : 0 <= max_body_bytes (o_limits o) <= U64_MAX;
  ok_connections : 1 <= max_concurrent_connections (o_limits o) <= U64_MAX;
  ok_lifetime : forall t, o_max_client_cert_lifetime o = Some t -> 0 <= t <= U64_MAX;
  ok_inner_read : 1 <= inner_read_timeout (o_inner_launch o) <= MAX_INNER_READ_TIMEOUT_SECS;
  ok_stderr : 1 <= stderr_cap_bytes (o_inner_launch o) <= U64_MAX /\ 1 <= stderr_cap_lines (o_inner_launch o) <= U64_MAX;
  ok_rlimits : Forall (fun r => forall n, r = Some n -> 0 <= n <= U64_MAX) (rlimit_values (il_rlimits (o_inner_launch o)));
  ok_skew : in_i64 (o_max_clock_skew o);
  ok_lb_keys : Forall (fun kv => kv.1 <> [] /\ kv.2 <> [] /\ 58 ∉ kv.1) (o_ingress_lb_keys o);
  ok_texts : Forall (fun v => forall s, v = Some s -> trim s <> [])
    [o_ocsp_responder_url o; o_cpstore_etcd_endpoint o; o_reverse_proxy_identity_header o];
  ok_env : Forall (fun kv => kv.1 <> [] /\ 61 ∉ kv.1) (explicit_env (o_inner_launch o));
  ok_fs : Forall (fun p => p <> []) (fs_allow_read (il_sandbox (o_inner_launch o)) ++ fs_allow_write (il_sandbox (o_inner_launch o)));
  ok_lists : Forall (fun p => p <> []) (o_client_crl_paths o ++ o_revocation_list_paths o);
  ok_tiers : revocation_tier_ok (o_revocation_tier o) /\ forall t, o_replay_durability_tier o = Some t -> replay_tier_ok t;
}.

(** One goal per entry of a list that was rebuilt with one entry replaced. *)
Ltac each_value := unfold rlimit_values in *; cbn in *;
  repeat match goal with H : Forall _ (_ :: _) |- _ => apply Forall_cons in H as [? H] end;
  repeat (apply Forall_cons; split); try apply Forall_nil.

Lemma options_init_ok : options_ok options_init.
Proof.
  split; cbn; try (intros ? [= <-]); unfold MAX_INNER_READ_TIMEOUT_SECS, U64_MAX, DEFAULT_INNER_READ_TIMEOUT,
    DEFAULT_STDERR_CAP_BYTES, DEFAULT_STDERR_CAP_LINES, DEFAULT_T_SECS, in_i64, I64_MIN, I64_MAX; try lia; try done; try lia.
  - each_value; try done. by intros n [= <-].
  - each_value; done.
Qed.

Definition arm_keeps (I : Options -> Prop) (arm : Arm) : Prop :=
  forall flag value a a', I (options a) -> arm flag value a = Ok a' -> I (options a').

Lemma set_required_keeps I f : arm_keeps I (set_required f).
Proof. intros flag value a a' Hi [= <-]. done. Qed.

Lemma set_option_keeps (I : Options -> Prop) f : (forall v o, I o -> I (f v o)) -> arm_keeps I (set_option f).
Proof. intros Hf flag value a a' Hi [= <-]. by apply Hf. Qed.

Lemma set_parsed_keeps {A} (I : Options -> Prop) (parse : rstr -> rstr -> result A CliError) f :
  (forall flag value x o, parse flag value = Ok x -> I o -> I (f x o)) -> arm_keeps I (set_parsed parse f).
Proof.
  intros Hf flag value a a' Hi. unfold set_parsed. destruct (parse flag value) as [x|] eqn:E; [|done]. intros [= <-]. by eapply Hf.
Qed.

Ltac each_arm := repeat (apply Forall_cons; split; [cbn [snd]; first [apply set_required_keeps | apply set_option_keeps | apply set_parsed_keeps]|]);
  try apply Forall_nil; try done.

Section Loop.
Context `{LL : LowercaseLaws}.

Lemma one_flag {A} flag (table : list (rstr * A)) x (P : A -> Prop) :
  lookup_flag flag table = Some x -> Forall (fun e => P e.2) table -> P x.
Proof.
  unfold lookup_flag. intros (e & He & ->)%fmap_Some HP. apply find_some in He as [Hin _].
  eapply (Forall_forall (fun e => P e.2) table) in HP; [exact HP|by apply list_elem_of_In].
Qed.

(** An invariant of the options that the inner command leaves alone. *)
Lemma read_args_keeps (I : Options -> Prop) :
  Forall (fun e => forall o, I o -> I (e.2 o)) boolean_flags -> Forall (fun e => arm_keeps I e.2) value_flags ->
  (forall o rest, I o -> Forall (fun t => t ∉ KNOWN_PROXY_FLAGS) rest -> I (o <| o_inner_command := rest |>)) ->
  forall n args a a', (length args <= n)%nat -> I (options a) -> read_args args a = Ok a' -> I (options a').
Proof.
  intros Hb Hv Hc. induction n as [|n IH]; intros args a a' Hn Hi; (destruct args as [|flag rest]; [by intros [= <-]|]); [cbn in Hn; lia|].
  cbn [read_args]. destruct (bool_decide (flag = INNER_COMMAND)).
  - destruct (List.find _ rest) as [m|] eqn:Ef; [done|]. intros [= <-]. apply Hc; [done|]. apply Forall_forall. intros t Ht Hk.
    eapply find_none in Ef; [|by apply list_elem_of_In]. by rewrite bool_decide_eq_true_2 in Ef.
  - cbn [length] in Hn. destruct (lookup_flag flag boolean_flags) as [f|] eqn:Eb.
    + apply IH; [lia|]. cbn. by apply (one_flag _ _ _ (fun f => forall o, I o -> I (f o)) Eb Hb).
    + destruct rest as [|value rest]; [done|]. cbn [length] in Hn. destruct (lookup_flag flag value_flags) as [arm|] eqn:Ev; [|done].
      destruct (arm flag value a) as [a1|] eqn:Ea; [|done]. apply IH; [lia|].
      by eapply (one_flag _ _ _ (arm_keeps I) Ev Hv).
Qed.

Lemma boolean_flags_ok : Forall (fun e => forall o, options_ok o -> options_ok (e.2 o)) boolean_flags.
Proof. repeat (apply Forall_cons; split; [intros o [? ? ? ? ? ? ? ? ? ? ? ? ? ? ? ? ?]; by split|]). apply Forall_nil. done. Qed.

Lemma value_flags_ok : Forall (fun e => arm_keeps options_ok e.2) value_flags.
Proof.
  each_arm; try (intros v o [? ? ? ? ? ? ? ? ? ? ? ? ? ? ? ? ?]; by split).
  all: intros flag value x o Hx [? ? ? ? ? ? ? ? ? ? ? ? ? ? ? ? ?]; try by split.
  all: try (split; try done; cbn; apply segments_nonempty in Hx; rewrite ?Forall_app in *; tauto).
  all: try (split; try done; cbn; first [intros t ->; by eapply parse_timeout_range | intros t ->; by eapply parse_cert_lifetime_range | by eapply parse_positive_timeout_range
    | by eapply parse_count_range]).
  all: try (split; try done; cbn; destruct (parse_u64 value) eqn:E; cbn in Hx; simplify_eq; by apply parse_unsigned_range in E).
  all: try (split; try done; cbn; apply parse_count_range in Hx; lia).
  all: try (split; try done; cbn; pose proof (parse_rlimit_range _ _ _ Hx); each_value; done).
  all: try (split; try done; cbn; pose proof (nonblank_text _ _ _ Hx); each_value; first [done | by intros s [= <-]]).
  - destruct (parse_i64 value) eqn:E; cbn in Hx; simplify_eq. split; try done. cbn. apply parse_i64_range in E. unfold in_i64, I64_MIN, I64_MAX. lia.
  - apply map_err_Ok, replay_tier_parse_ok in Hx. split; try done. cbn. split; [tauto|]. by intros t [= <-].
  - apply map_err_Ok, revocation_tier_parse_ok in Hx. split; try done. cbn. tauto.
  - apply lb_key_pair_parts in Hx. split; try done. cbn. rewrite Forall_app. split; [done|]. by constructor.
  - apply env_pair_key in Hx. split; try done. cbn. rewrite Forall_app. split; [done|]. by constructor.
  - destruct x; by split.
Qed.

(** ** Which tokens are flags *)

(** The tokens the loop reads as flags, the last being [--inner-command]. *)
Fixpoint flags_read (args : list rstr) : list rstr :=
  match args with
  | [] => []
  | flag :: rest =>
      if bool_decide (flag = INNER_COMMAND) then [flag]
      else if is_some (lookup_flag flag boolean_flags) then flag :: flags_read rest
      else match rest with [] => [flag] | _ :: rest' => flag :: flags_read rest' end
  end.

Definition strict_flag (flag : rstr) : Prop := flag = str "--strict" \/ flag = str "--production".

Lemma boolean_flags_strict :
  Forall (fun e => (strict_flag e.1 /\ forall o, o_strict (e.2 o) = true) \/ (~ strict_flag e.1 /\ forall o, o_strict (e.2 o) = o_strict o))
    boolean_flags.
Proof.
  repeat (apply Forall_cons; split; [|]); try apply Forall_nil; try done; unfold strict_flag; cbn [fst snd];
    first [left; split; [by (left + right)|done] | right; split; [by intros [E|E]; vm_compute in E|done]].
Qed.

Lemma value_flags_strict b : Forall (fun e => arm_keeps (fun o => o_strict o = b) e.2) value_flags.
Proof. each_arm; [..|]; try (intros v o; done); intros flag value x o _; try done. by destruct x. Qed.

Lemma read_args_strict n args a a' :
  (length args <= n)%nat -> read_args args a = Ok a' ->
  (o_strict (options a') = true <-> o_strict (options a) = true \/ exists f, strict_flag f /\ f ∈ flags_read args).
Proof.
  assert (Hnone : forall (Q : Prop) flag l, ~ strict_flag flag -> (Q \/ (exists f, strict_flag f /\ f ∈ flag :: l)) <-> Q \/ exists f, strict_flag f /\ f ∈ l).
  { intros Q flag l Hn. split; intros [?|(f & Hf & Hin)]; eauto. - apply elem_of_cons in Hin as [->|]; [done|eauto]. - right. exists f. set_solver. }
  revert args a. induction n as [|n IH]; intros args a Hn; (destruct args as [|flag rest]; [intros [= <-]; cbn; split; [by left|intros [?|(f & _ & []%elem_of_nil)]; done]|]);
    [cbn in Hn; lia|]. cbn [length] in Hn. cbn [read_args flags_read]. destruct (bool_decide (flag = INNER_COMMAND)) eqn:Ei.
  - apply bool_decide_eq_true in Ei as ->. destruct (List.find _ rest); [done|]. intros [= <-]. cbn [options set_field o_strict].
    rewrite Hnone by (intros [E|E]; vm_compute in E; discriminate). split; [by left|]. intros [?|(f & _ & []%elem_of_nil)]. done.
  - destruct (lookup_flag flag boolean_flags) as [fl|] eqn:Eb; cbn [is_some].
    + intros Hr%IH; [|lia]. rewrite Hr. cbn [options set_field].
      assert (Hb : (strict_flag flag /\ forall o, o_strict (fl o) = true) \/ (~ strict_flag flag /\ forall o, o_strict (fl o) = o_strict o)).
      { unfold lookup_flag in Eb. apply fmap_Some in Eb as (e & He & ->). apply find_some in He as [Hin He%bool_decide_eq_true]. subst flag.
        pose proof boolean_flags_strict as Hf. eapply Forall_forall in Hf; [|by apply list_elem_of_In]. done. }
      destruct Hb as [[Hs Ho]|[Hs Ho]]; [|rewrite Ho; by rewrite Hnone]. rewrite Ho. split; [|by left]. intros _. right. exists flag. set_solver.
    + assert (Hs : ~ strict_flag flag).
      { unfold lookup_flag in Eb. apply fmap_None in Eb. intros Hs.
        destruct Hs as [->| ->]; vm_compute in Eb; discriminate. }
      destruct rest as [|value rest]; [done|]. cbn [length] in Hn. destruct (lookup_flag flag value_flags) as [arm|] eqn:Ev; [|done].
      destruct (arm flag value a) as [a1|] eqn:Ea; [|done]. intros Hr%IH; [|lia]. rewrite Hr, Hnone by done.
      pose proof (one_flag _ _ _ (arm_keeps (fun o => o_strict o = o_strict (options a))) Ev (value_flags_strict _)) as Hk.
      by rewrite (Hk flag value a a1 eq_refl Ea).
Qed.

(** The flags of the loop and the list the inner command is scanned for. *)
Lemma known_flags_but_one f : f ∈ boolean_flags.*1 ++ value_flags.*1 -> f ∈ KNOWN_PROXY_FLAGS \/ f = str "--max-header-bytes".
Proof.
  assert (H0 : forallb (fun f => bool_decide (f ∈ KNOWN_PROXY_FLAGS) || bool_decide (f = str "--max-header-bytes"))
           (boolean_flags.*1 ++ value_flags.*1) = true) by (vm_compute; reflexivity).
  intros Hf. eapply forallb_forall in H0; [|by apply list_elem_of_In].
  apply orb_true_iff in H0 as [?%bool_decide_eq_true|?%bool_decide_eq_true]; tauto.
Qed.

Lemma value_flags_command l : Forall (fun e => arm_keeps (fun o => o_inner_command o = l) e.2) value_flags.
Proof. each_arm; [..|]; try (intros v o; done); intros flag value x o _; try done. by destruct x. Qed.

Definition command_clean (o : Options) : Prop := Forall (fun t => t ∉ KNOWN_PROXY_FLAGS) (o_inner_command o).

Lemma read_args_command args a : read_args args args_init = Ok a -> command_clean (options a).
Proof.
  apply (read_args_keeps command_clean) with (n := length args); [| |intros o rest _ Hr; exact Hr|done|by constructor].
  - repeat (apply Forall_cons; split; [intros o Ho; exact Ho|]). by apply Forall_nil.
  - eapply Forall_impl; [apply (Forall_forall (fun e => forall l, arm_keeps (fun o => o_inner_command o = l) e.2))|].
    + intros e He l. pose proof (value_flags_command l) as Hl. by eapply (Forall_forall _ value_flags) in Hl.
    + intros e Hk flag value a0 a1 Hc Ha. unfold command_clean. rewrite (Hk _ flag value a0 a1 eq_refl Ha). exact Hc.
Qed.

Lemma read_args_ok args a : read_args args args_init = Ok a -> options_ok (options a).
Proof.
  apply (read_args_keeps options_ok boolean_flags_ok value_flags_ok) with (n := length args); [|done|apply options_init_ok].
  intros o rest [? ? ? ? ? ? ? ? ? ? ? ? ? ? ? ? ?] _. by split.
Qed.
End Loop.

(** ** The guards *)

Lemma filter_all {A} (P : A -> Prop) `{forall x, Decision (P x)} l : Forall P l -> filter P l = l.
Proof. induction 1 as [|x l Hx _ IH]; [done|]. by rewrite filter_cons_True, IH. Qed.

Lemma reject_if_Ok gs u : reject_if gs = Ok u -> Forall (fun g => g.1 = false) gs.
Proof.
  induction gs as [|[b e] gs IH]; cbn [reject_if]; [by constructor|]. destruct b; [done|]. intros H. constructor; [done|by apply IH].
Qed.

Lemma none_false {A} (o : option A) : none o = false -> exists x, o = Some x.
Proof. destruct o; [by eexists|done]. Qed.

Lemma not_empty {A} (l : list A) : is_empty l = false -> l <> [].
Proof. by destruct l. Qed.

Section Posture.
Context `{LL : LowercaseLaws, B64 : Base64, DK : Dalek}.

Lemma check_lb_keys_Ok seen keys u :
  check_lb_keys seen keys = Ok u ->
  NoDup (keys.*1) /\ Forall (fun kv => (kv.1) ∉ seen /\ exists key, vk_from_b64url (kv.2) = Ok key) keys.
Proof.
  revert seen. induction keys as [|[id b64] keys IH]; intros seen; cbn [check_lb_keys]; [by repeat constructor|].
  destruct (bool_decide (id ∈ seen)) eqn:Ei; [done|]. apply bool_decide_eq_false in Ei.
  destruct (vk_from_b64url b64) as [key|] eqn:Ek; cbn [is_ok negb]; [|done]. intros [Hd Hf]%IH.
  assert (Hf' : Forall (fun kv => (kv.1) ∉ seen /\ exists key, vk_from_b64url (kv.2) = Ok key) keys /\ id ∉ (keys.*1)).
  { split; [eapply Forall_impl; [exact Hf|]; set_solver|]. intros ([k v] & -> & Hin)%list_elem_of_fmap.
    eapply (Forall_forall _ keys) in Hf; [|exact Hin]. cbn in Hf. set_solver. }
  split; [constructor; [apply Hf'|done]|]. constructor; [|apply Hf']. split; [done|by exists key].
Qed.

(** The decisions a configuration stands for. *)
Record posture (online : bool) (c : Config) : Prop := {
  po_options : options_ok (c_options c);
  po_replay_file : o_replay (c_options c) = ReplayFile -> exists path, o_replay_path (c_options c) = Some path;
  po_replay_shared : o_replay (c_options c) = ReplayShared -> exists tier, o_replay_durability_tier (c_options c) = Some tier /\
    if decide (tier = Linearizable) then exists e, o_cpstore_etcd_endpoint (c_options c) = Some e
    else exists url, o_replay_redis_url (c_options c) = Some url;
  po_etcd : o_cpstore_etcd_endpoint (c_options c) <> None ->
    o_replay (c_options c) = ReplayShared /\ o_replay_durability_tier (c_options c) = Some Linearizable;
  po_env_keys : o_key_source (c_options c) = KeyEnv ->
    o_allow_env_keysource (c_options c) = true /\ inherit_env (o_inner_launch (c_options c)) = false;
  po_pkcs11 : o_key_source (c_options c) = KeyPkcs11 ->
    Forall (fun v => v <> None) [o_pkcs11_module (c_options c); o_pkcs11_pin (c_options c); o_pkcs11_token_label (c_options c); o_pkcs11_key_label (c_options c)];
  po_aws : o_key_source (c_options c) = KeyAwsKms -> Forall (fun v => v <> None) [o_aws_kms_region (c_options c); o_aws_kms_key_id (c_options c)];
  po_gcp : o_key_source (c_options c) = KeyGcpKms -> o_gcp_kms_key_version (c_options c) <> None;
  po_tls_keys : (o_pkcs11_tls_key_label (c_options c) <> None -> o_key_source (c_options c) = KeyPkcs11) /\
    (o_aws_kms_tls_key_id (c_options c) <> None -> o_key_source (c_options c) = KeyAwsKms) /\
    (o_gcp_kms_tls_key_version (c_options c) <> None -> o_key_source (c_options c) = KeyGcpKms) /\
    (o_gcp_kms_use_metadata (c_options c) = true -> o_key_source (c_options c) = KeyGcpKms);
  po_lb : (o_binding (c_options c) = BindLbAssertion <-> o_ingress_lb_keys (c_options c) <> []) /\
    NoDup (o_ingress_lb_keys (c_options c)).*1 /\
    Forall (fun kv => exists key, vk_from_b64url (kv.2) = Ok key) (o_ingress_lb_keys (c_options c));
  po_reverse : is_some (o_reverse_proxy_identity_header (c_options c)) = true ->
    o_max_client_cert_lifetime (c_options c) = None /\ o_client_ocsp (c_options c) = OcspOff;
  po_ocsp : (o_client_ocsp (c_options c) = OcspRequire -> online = true) /\
    (o_ocsp_soft_fail (c_options c) = true -> o_client_ocsp (c_options c) = OcspRequire) /\
    (o_ocsp_responder_url (c_options c) <> None -> o_client_ocsp (c_options c) = OcspRequire);
  po_authz : o_authz (c_options c) = AuthzReference -> o_allow_reference_authz (c_options c) = true /\
    (o_revocation_list_paths (c_options c) <> [] \/ o_allow_empty_revocation (c_options c) = true);
  po_command : o_inner_command (c_options c) <> [] /\ command_clean (c_options c);
  po_strict : o_strict (c_options c) = true ->
    o_key_source (c_options c) <> KeyEnv /\ (exists t, o_max_client_cert_lifetime (c_options c) = Some t) /\
    inherit_env (o_inner_launch (c_options c)) = false /\ o_identity_source (c_options c) <> PolicyCnLegacy /\
    best_effort (il_rlimits (o_inner_launch (c_options c))) = false /\ o_replay (c_options c) <> ReplayMemory /\
    (forall t, o_replay (c_options c) = ReplayShared -> o_replay_durability_tier (c_options c) = Some t ->
       ReplayTier.meets_strict_production_minimum t = true) /\
    o_sandbox_explicitly_off (c_options c) = false /\ o_reverse_proxy_identity_header (c_options c) = None /\
    o_binding (c_options c) = BindExact /\
    (o_crl_allow_unknown_status (c_options c) = true -> o_client_crl_paths (c_options c) = []) /\
    o_authz (c_options c) = AuthzOff /\ o_ocsp_soft_fail (c_options c) = false;
}.

Lemma strict_violations_nil o :
  strict_violations o = [] ->
  o_key_source o <> KeyEnv /\ (exists t, o_max_client_cert_lifetime o = Some t) /\ inherit_env (o_inner_launch o) = false /\
  o_identity_source o <> PolicyCnLegacy /\ best_effort (il_rlimits (o_inner_launch o)) = false /\ o_replay o <> ReplayMemory /\
  (forall t, o_replay o = ReplayShared -> o_replay_durability_tier o = Some t -> ReplayTier.meets_strict_production_minimum t = true) /\
  o_sandbox_explicitly_off o = false /\ o_reverse_proxy_identity_header o = None /\ o_binding o = BindExact /\
  (o_crl_allow_unknown_status o = true -> o_client_crl_paths o = []) /\ o_authz o = AuthzOff /\ o_ocsp_soft_fail o = false.
Proof.
  assert (W : forall b (v : Violation), (if b : bool then [v] else []) = [] -> b = false) by (by intros []).
  unfold strict_violations. intros Hs. repeat (apply app_eq_nil in Hs as [?%W Hs] || (apply app_eq_nil in Hs as [? Hs])). apply W in Hs.
  repeat match goal with H : bool_decide _ = false |- _ => apply bool_decide_eq_false in H end.
  split_and!; try done.
  - by apply none_false.
  - intros t Et Ett. match goal with H : match o_replay o with _ => _ end = [] |- _ => rewrite Et, Ett in H; apply W in H; by apply negb_false_iff in H end.
  - by destruct (o_reverse_proxy_identity_header o).
  - by destruct (o_binding o).
  - intros Hu. match goal with H : o_crl_allow_unknown_status o && _ = false |- _ => rewrite Hu in H end. by destruct (o_client_crl_paths o).
  - by destruct (o_authz o).
Qed.

(** The mandatory values, as they were read, one delegated key or an exported one. *)
Definition mandatory (r : Required) (c : Config) : Prop :=
  r_bind r = Some (c_bind c) /\ r_audience r = Some (c_audience c) /\ r_server_signer r = Some (c_server_signer c) /\
  r_server_key_id r = Some (c_server_key_id c) /\ r_signing_key_seed r = Some (c_signing_key_seed c) /\
  r_tls_cert r = Some (c_tls_cert c) /\ r_client_ca r = Some (c_client_ca c) /\ r_trust_path r = Some (c_trust_path c) /\
  (if has_delegated_tls (c_options c) then r_tls_key r = None /\ c_tls_key c = [] else r_tls_key r = Some (c_tls_key c)).

Lemma build_config_spec r o c :
  build_config r o = Ok c -> validate_tls_signing_exclusivity (has_delegated_tls o) (is_some (r_tls_key r)) = Ok tt ->
  c_options c = o /\ mandatory r c.
Proof.
  unfold build_config, require, mandatory, validate_tls_signing_exclusivity.
  destruct (r_bind r), (r_audience r), (r_server_signer r), (r_server_key_id r), (r_signing_key_seed r), (r_tls_cert r); cbn [ok_or]; try done.
  destruct (has_delegated_tls o) eqn:Ed, (r_tls_key r); cbn [ok_or is_some andb default]; try done;
    (destruct (r_client_ca r), (r_trust_path r); cbn [ok_or]; try done); intros [= <-] _; cbn; rewrite Ed; split_and!; done.
Qed.

(** What the guards, passed one after the other, leave of a command line. *)
Lemma parse_args_inv online args c :
  parse_args online args = Ok c ->
  exists a, read_args args args_init = Ok a /\ c_options c = options a /\ mandatory (required a) c /\
    check_lb_keys [] (o_ingress_lb_keys (options a)) = Ok tt /\
    Forall (fun g => g.1 = false) (replay_guards (options a) ++ key_guards (options a) ++ ingress_guards (options a) ++
      ocsp_guards online (options a) ++ authz_guards (options a)) /\
    (o_strict (options a) = true -> strict_violations (options a) = []).
Proof.
  unfold parse_args. destruct (read_args args args_init) as [a|]; [|done].
  destruct (reject_if (replay_guards _)) eqn:E1; [|done]. destruct (reject_if (key_guards _)) eqn:E2; [|done].
  destruct (reject_if (ingress_guards _)) eqn:E3; [|done]. destruct (check_lb_keys [] _) as [[]|] eqn:E4; [|done].
  destruct (reject_if (ocsp_guards online _)) eqn:E5; [|done].
  destruct (validate_tls_signing_exclusivity _ _) as [[]|] eqn:E6; [|done].
  destruct (build_config _ _) as [cfg|] eqn:E7; [|done]. destruct (reject_if (authz_guards _)) eqn:E8; [|done].
  destruct (o_strict _ && _) eqn:E9; [done|]. intros [= <-]. apply reject_if_Ok in E1, E2, E3, E5, E8.
  destruct (build_config_spec _ _ _ E7 E6) as [Eo Hm]. exists a. split_and!; try done.
  - rewrite !Forall_app. tauto.
  - intros Hs. rewrite Hs in E9. cbn [andb] in E9. by destruct (strict_violations _).
Qed.

Lemma some_given {A} (v : option A) : v <> None <-> is_some v = true.
Proof. by destruct v. Qed.

(** A guard names the flags that a mode needs. *)
Lemma guard_needs {A} (b : bool) (v : option A) : b && none v = false -> b = true -> v <> None.
Proof. by destruct b, v. Qed.

(** A guard refuses a flag that has no effect outside its mode. *)
Lemma guard_within (given b : bool) : given && negb b = false -> given = true -> b = true.
Proof. by destruct given, b. Qed.

Ltac guards Hg :=
  repeat match type of Hg with Forall _ (_ :: _) => let H := fresh "G" in apply Forall_cons in Hg as [H Hg]; cbn [fst] in H end.

Lemma key_guards_ok o :
  Forall (fun g => g.1 = false) (key_guards o) ->
  (o_key_source o = KeyEnv -> o_allow_env_keysource o = true /\ inherit_env (o_inner_launch o) = false) /\
  (o_key_source o = KeyPkcs11 -> Forall (fun v => v <> None) [o_pkcs11_module o; o_pkcs11_pin o; o_pkcs11_token_label o; o_pkcs11_key_label o]) /\
  (o_key_source o = KeyAwsKms -> Forall (fun v => v <> None) [o_aws_kms_region o; o_aws_kms_key_id o]) /\
  (o_key_source o = KeyGcpKms -> o_gcp_kms_key_version o <> None) /\
  (o_pkcs11_tls_key_label o <> None -> o_key_source o = KeyPkcs11) /\ (o_aws_kms_tls_key_id o <> None -> o_key_source o = KeyAwsKms) /\
  (o_gcp_kms_tls_key_version o <> None -> o_key_source o = KeyGcpKms) /\ (o_gcp_kms_use_metadata o = true -> o_key_source o = KeyGcpKms).
Proof.
  unfold key_guards. intros Hg. guards Hg. split_and!.
  - intros Hk. rewrite Hk in *. cbn in *. split; [by destruct (o_allow_env_keysource o)|by destruct (inherit_env _)].
  - intros Hk. repeat constructor; (eapply guard_needs; [eassumption|by apply bool_decide_eq_true]).
  - intros Hk. repeat constructor; (eapply guard_needs; [eassumption|by apply bool_decide_eq_true]).
  - intros Hk. eapply guard_needs; [eassumption|by apply bool_decide_eq_true].
  - intros Hv%some_given. eapply bool_decide_eq_true, guard_within; [|exact Hv]; eassumption.
  - intros Hv%some_given. eapply bool_decide_eq_true, guard_within; [|exact Hv]; eassumption.
  - intros Hv%some_given. eapply bool_decide_eq_true, guard_within; [|exact Hv]; eassumption.
  - intros Hv. eapply bool_decide_eq_true, guard_within; [|exact Hv]; eassumption.
Qed.

Lemma replay_guards_ok o :
  Forall (fun g => g.1 = false) (replay_guards o) ->
  (o_replay o = ReplayFile -> exists path, o_replay_path o = Some path) /\
  (o_replay o = ReplayShared -> exists tier, o_replay_durability_tier o = Some tier /\
    if decide (tier = Linearizable) then exists e, o_cpstore_etcd_endpoint o = Some e else exists url, o_replay_redis_url o = Some url) /\
  (o_cpstore_etcd_endpoint o <> None -> o_replay o = ReplayShared /\ o_replay_durability_tier o = Some Linearizable).
Proof.
  unfold replay_guards. intros Hg. guards Hg. split_and!.
  - intros Hr. rewrite Hr in *. by apply none_false.
  - intros Hr. rewrite Hr in *. cbn in *. destruct (o_replay_durability_tier o) as [t|] eqn:Et; [|done]. exists t. split; [done|].
    unfold tier_is_linearizable in *. rewrite Et in *. destruct t; cbn in *; (destruct (decide _); [|]); try done; by apply none_false.
  - intros Hv%some_given. eapply guard_within in Hv; [|eassumption]. apply andb_true_iff in Hv as [Hs%bool_decide_eq_true Ht].
    split; [done|]. unfold tier_is_linearizable in Ht. by destruct (o_replay_durability_tier o) as [[]|].
Qed.

Lemma parse_args_posture online args c : parse_args online args = Ok c -> posture online c.
Proof.
  intros (a & Ea & Eo & Hm & E4 & Hg & Hs)%parse_args_inv. apply read_args_ok in Ea as Hok. apply read_args_command in Ea as Hcmd.
  apply check_lb_keys_Ok in E4 as [Hnd Hkeys]. rewrite <- Eo in *. clear Ea Eo. set (o := c_options c) in *.
  rewrite !Forall_app in Hg. destruct Hg as (Hr & Hk & Hi & Hc & Hz). apply replay_guards_ok in Hr as (? & ? & ?). apply key_guards_ok in Hk.
  unfold ingress_guards, ocsp_guards, authz_guards in *. guards Hi. guards Hc. guards Hz.
  assert (Hd : has_delegated_tls o = true -> c_tls_key c = []).
  { intros Hd. unfold mandatory in Hm. fold o in Hm. rewrite Hd in Hm. apply Hm. }
  split; fold o; try tauto.
  - split_and!; [|done|eapply Forall_impl; [exact Hkeys|]; naive_solver].
    split.
    + intros Hb. rewrite Hb in *. cbn in *. by apply not_empty.
    + intros Hne. destruct (o_ingress_lb_keys o); [done|]. cbn in *. by destruct (o_binding o).
  - intros Hrev. rewrite Hrev in *. cbn in *. split; [by destruct (o_max_client_cert_lifetime o)|].
    destruct (o_client_ocsp o); [done|]. cbn in *. by destruct online.
  - split_and!; [intros Hq; rewrite Hq in *; cbn in *; by destruct online| |];
      [intros Hs'; rewrite Hs' in *; by destruct (o_client_ocsp o)|].
    intros Hv%some_given. rewrite Hv in *. by destruct (o_client_ocsp o).
  - intros Ha. rewrite Ha in *. cbn in *. split; [by destruct (o_allow_reference_authz o)|].
    destruct (o_revocation_list_paths o); [right|by left]. by destruct (o_allow_empty_revocation o).
  - split; [by apply not_empty|done].
  - intros Hst. by apply strict_violations_nil, Hs.
Qed.

(** The keys of the binding are those of the command line. *)
Lemma add_lb_keys_spec keys b :
  NoDup (keys.*1) -> Forall (fun kv => exists key, vk_from_b64url (kv.2) = Ok key) keys ->
  Forall (fun kv => kv.1 ∉ (lbk_key_id <$> lb_keys b)) keys ->
  exists b', add_lb_keys keys b = Ok b' /\ lb_source b' = lb_source b /\ max_age_secs b' = max_age_secs b /\
    exists added, lb_keys b' = lb_keys b ++ added /\ Forall2 (fun kv e => lbk_key_id e = kv.1 /\ vk_from_b64url (kv.2) = Ok (lbk_key e)) keys added.
Proof.
  revert b. induction keys as [|[id b64] keys IH]; intros b Hnd Hk Hfresh; cbn [add_lb_keys].
  - exists b. split_and!; try done. exists []. by rewrite app_nil_r.
  - apply Forall_cons in Hk as [[key Ek] Hk]. cbn [snd] in Ek. rewrite Ek. cbn [map_err].
    apply Forall_cons in Hfresh as [Hid Hfresh]. cbn [fst] in Hid. rewrite fmap_cons in Hnd. apply NoDup_cons in Hnd as [Hnid Hnd].
    assert (Ekeys : lb_keys (add_key b id key) = lb_keys b ++ [{| lbk_key_id := id; lbk_key := key |}]).
    { cbn [add_key lb_keys]. f_equal. apply filter_all. apply Forall_forall. intros e He Ei. apply Hid. rewrite <- Ei. by apply list_elem_of_fmap_2. }
    destruct (IH (add_key b id key) Hnd Hk) as (b' & Eb & Es & Em & added & Ea & Hall).
    { rewrite Ekeys, fmap_app. apply Forall_forall. intros [k v] Hin. rewrite Forall_forall in Hfresh. specialize (Hfresh _ Hin).
      intros [?|Hx%list_elem_of_singleton]%elem_of_app; [done|]. cbn in Hx. subst k. apply Hnid. by apply (list_elem_of_fmap_2 fst) in Hin. }
    exists b'. split_and!; try done. exists ({| lbk_key_id := id; lbk_key := key |} :: added). split; [by rewrite Ea, Ekeys, <- app_assoc|].
    by constructor.
Qed.

Lemma parse_args_strict online args c :
  parse_args online args = Ok c -> (o_strict (c_options c) = true <-> exists f, strict_flag f /\ f ∈ flags_read args).
Proof.
  intros (a & Ea & -> & _)%parse_args_inv. rewrite (read_args_strict _ _ _ _ (Nat.le_refl _) Ea). naive_solver.
Qed.


(** Every configuration the command line accepts can be started with its ingress assertions: with that binding, each key
    identifier of the command line is in the verifier once, in order, with the key its text decodes to; with another, there is no
    verifier.  In particular the start-up step never fails on a key the parser let through. *)
Theorem cli_ingress_keys online args c :
  parse_args online args = Ok c ->
  (o_binding (c_options c) = BindLbAssertion ->
    exists b, build_lb_assertion_binding (c_options c) = Ok (Some b) /\
      lb_source b = identity_source_of (o_identity_source (c_options c)) /\
      Forall2 (fun kv e => lbk_key_id e = kv.1 /\ vk_from_b64url (kv.2) = Ok (lbk_key e)) (o_ingress_lb_keys (c_options c)) (lb_keys b)) /\
  (o_binding (c_options c) <> BindLbAssertion -> build_lb_assertion_binding (c_options c) = Ok None).
Proof.
  intros Hp%parse_args_posture. destruct (po_lb _ _ Hp) as (_ & Hnd & Hk). unfold build_lb_assertion_binding.
  split; intros E; [|by rewrite bool_decide_eq_false_2]. rewrite bool_decide_eq_true_2 by done. cbn [negb].
  destruct (add_lb_keys_spec _ (lb_binding_new (identity_source_of (o_identity_source (c_options c)))) Hnd Hk) as (b & -> & Es & _ & added & Ea & Hall).
  { apply Forall_forall. intros kv _. cbn. set_solver. }
  exists b. cbn in Ea. rewrite Ea. split_and!; done.
Qed.
End Posture.

(** ** Samples *)

Import Toy.

Definition sample_args : list rstr :=
  [str "--bind"; str "127.0.0.1:8443"; str "--audience"; str "did:srv"; str "--server-signer"; str "did:srv"; str "--server-key-id"; str "s1";
   str "--signing-key-seed"; str "seed"; str "--tls-cert"; str "cert.pem"; str "--tls-key"; str "key.pem"; str "--client-ca"; str "ca.pem";
   str "--trust"; str "trust.json"; str "--replay-cache"; str "file"; str "--replay-path"; str "replay.db"].
Definition sample_inner_command : list rstr := [INNER_COMMAND; str "inner"; str "--verbose"].
Definition sample_lb : list rstr :=
  [str "--transport-binding"; str "lb-assertion"; str "--ingress-lb-key"; str "lb1:" ++ toy_encode (replicate 32 1);
   str "--ingress-lb-key"; str "lb2:" ++ toy_encode (replicate 32 2)].

#[local] Existing Instance ascii_only_lowercase.
#[local] Existing Instance ascii_only_lowercase_laws.


Definition parsed_or (c : Config) (r : result Config CliError) : Config := match r with Ok c => c | Err _ => c end.
Definition no_config : Config := {|
  c_bind := []; c_audience := []; c_server_signer := []; c_server_key_id := []; c_signing_key_seed := []; c_tls_cert := [];
  c_tls_key := []; c_client_ca := []; c_trust_path := []; c_options := options_init |}.

Definition sample_strict_config : Config := parsed_or no_config (parse_args false (sample_args ++ [str "--strict"] ++ sample_inner_command)).
Definition sample_lb_config : Config := parsed_or no_config (parse_args false (sample_args ++ sample_lb ++ sample_inner_command)).

Lemma sample_strict_parsed : parse_args false (sample_args ++ [str "--strict"] ++ sample_inner_command) = Ok sample_strict_config.
Proof. vm_compute. reflexivity. Qed.
Lemma sample_lb_parsed : parse_args false (sample_args ++ sample_lb ++ sample_inner_command) = Ok sample_lb_config.
Proof. vm_compute. reflexivity. Qed.

Lemma sample_lb_bound : o_binding (c_options sample_lb_config) = BindLbAssertion.
Proof. vm_compute. reflexivity. Qed.

(** A PKCS#11 signer with a delegated TLS key and no exported one. *)
Definition sample_pkcs11 : list rstr :=
  [str "--key-source"; str "pkcs11"; str "--pkcs11-module"; str "hsm.so"; str "--pkcs11-pin"; str "pin"; str "--pkcs11-token-label"; str "token";
   str "--pkcs11-key-label"; str "signer"; str "--pkcs11-tls-key-label"; str "tls"; str "--strict"].
Definition sample_pkcs11_args : list rstr := take 12 sample_args ++ drop 14 sample_args ++ sample_pkcs11 ++ sample_inner_command.
Definition sample_pkcs11_config : Config := parsed_or no_config (parse_args false sample_pkcs11_args).

Lemma sample_pkcs11_parsed : parse_args false sample_pkcs11_args = Ok sample_pkcs11_config.
Proof. vm_compute. reflexivity. Qed.


(** Without the pin, or with the TLS key of another source, the same line is refused. *)
Example sample_pkcs11_refused :
  parse_args false (take 12 sample_args ++ drop 14 sample_args ++ take 4 sample_pkcs11 ++ drop 6 sample_pkcs11 ++ sample_inner_command) =
  Err (Requires (str "--key-source pkcs11") (str "--pkcs11-pin")) /\
  parse_args false (sample_args ++ [str "--aws-kms-tls-key-id"; str "k"] ++ sample_inner_command) = Err (NoEffect (str "--aws-kms-tls-key-id")).
Proof. split; vm_compute; reflexivity. Qed.

(** Strict mode refuses the memory store and the keyless binding together. *)
Example sample_strict_refused :
  parse_args false (take 18 sample_args ++ [str "--transport-binding"; str "none"; str "--production"] ++ sample_inner_command) =
  Err (StrictRefuses [VMemoryReplay; VBindingNone]).
Proof. vm_compute. reflexivity. Qed.

(** A flag after the inner command is refused, except the one that the list omits: it is then an argument of the inner server and the
    header limit stays at its default. *)
Example sample_flag_after_command :
  parse_args false (sample_args ++ sample_inner_command ++ [str "--strict"]) = Err (Misplaced (str "--strict")).
Proof. vm_compute. reflexivity. Qed.

Theorem header_limit_lost :
  exists c, parse_args false (sample_args ++ sample_inner_command ++ [str "--max-header-bytes"; str "1024"]) = Ok c /\
    max_header_bytes (o_limits (c_options c)) = max_header_bytes server_limits_default /\
    str "--max-header-bytes" ∈ o_inner_command (c_options c) /\ str "--max-header-bytes" ∈ (value_flags.*1).
Proof.
  eexists. split; [vm_compute; reflexivity|]. split; [reflexivity|]. split; apply list_elem_of_In; vm_compute; tauto.
Qed.

(** The hours wrap: more than five thousand billion of them are less than one. *)
Example cert_lifetime_wraps :
  parse_cert_lifetime (str "--max-client-cert-lifetime") (str "5124095576030432h") = Ok (Some 3584).
Proof. vm_compute. reflexivity. Qed.

(** A product that is a multiple of the word size even disables nothing and allows nothing: a lifetime of zero seconds. *)
Example cert_lifetime_zero :
  parse_cert_lifetime (str "--max-client-cert-lifetime") (str "4611686018427387904m") = Ok (Some 0).
Proof. vm_compute. reflexivity. Qed.
