(* ===== verification/Kms.v ===== *)
(** * Keys in a cloud service

    [mcps-proxy/src/kms_keysource.rs], [aws_kms_keysource.rs],
    [gcp_kms_keysource.rs] and [delegated_tls.rs]: response and handshake
    signing by a service that never exports the key.  The HTTP exchange with a
    service, the environment and the clock are parameters; an exchange is a
    function of the request, and the theorems hold for every function. *)

From S2P Require Import Prelude Utf8 Strings Errors Json Canonical Time Crypto Envelope Unwrap Http Ocsp KeySource EtcdStore Sigv4.

(** [base64::STANDARD.decode]; the error is its text. *)
Class StandardDecode := standard_decode : rstr -> result bytes rstr.

Definition KMS_SIGNATURE_LEN : nat := 64.
Definition ED25519_PUBLIC_KEY_LEN : nat := 32.
Definition ED25519_SPKI_PREFIX : bytes := [48; 42; 48; 5; 6; 3; 43; 101; 112; 3; 33; 0].
Definition ED25519_SPKI_LEN : nat := length ED25519_SPKI_PREFIX + ED25519_PUBLIC_KEY_LEN.

(** ** kms_keysource.rs *)

(** [trait KmsEd25519Backend]. *)
Record KmsEd25519Backend : Type := {
  sign_raw_ed25519 : bytes -> result bytes KeyError;
  public_key_spki_der : result bytes KeyError;
}.

Definition ed25519_raw_point_from_spki (der : bytes) : result bytes KeyError :=
  if negb (bool_decide (length der = ED25519_SPKI_LEN)) ||
     negb (bool_decide (take (length ED25519_SPKI_PREFIX) der = ED25519_SPKI_PREFIX))
  then Err (KeyMalformed
         (str "kms: public key is not an RFC 8410 Ed25519 SubjectPublicKeyInfo (got " ++
          display_unsigned (blen der) ++
          str " bytes); the KMS key MUST be an Ed25519 key (AWS ECC_NIST_EDWARDS25519 / GCP EC_SIGN_ED25519)"))
  else Ok (drop (length ED25519_SPKI_PREFIX) der).

Section Kms.
Context `{Base64, Dalek}.

Definition kms_public_key (b : KmsEd25519Backend) : result VerificationKey KeyError :=
  let? der := public_key_spki_der b in
  let? raw := ed25519_raw_point_from_spki der in
  map_err (fun e => KeyMalformed (str "kms: invalid Ed25519 public key: " ++ wire_code e)) (vk_from_bytes raw).

(** [impl ResponseSigner for KmsResponseSigner]. *)
Definition kms_response_signer (b : KmsEd25519Backend) : ResponseSigner := {|
  sign_response preimage :=
    let? signature := sign_raw_ed25519 b preimage in
    if negb (bool_decide (length signature = KMS_SIGNATURE_LEN))
    then Err (KeyMalformed (str "kms: backend returned a " ++ display_unsigned (blen signature) ++
           str "-byte signature; expected 64 (expected a raw Ed25519 signature)"))
    else
      let encoded := b64url_encode signature in
      let? key := kms_public_key b in
      try? map_err (fun _ => KeyMalformed
             (str "kms: backend produced a signature that does not verify as Ed25519 under its advertised public key (response_public_key)"))
             (verify_ed25519 preimage encoded key) ;;
      Ok encoded;
  response_public_key := kms_public_key b;
|}.

(** ** delegated_tls.rs *)

(** [trait RawEd25519TlsSigner]. *)
Record RawEd25519TlsSigner : Type := {
  sign_tls_ed25519 : bytes -> result bytes KeyError;
  tls_public_key_spki_der : result bytes KeyError;
}.

(** [SignatureScheme], by its code point. *)
Definition SCHEME_ED25519 : Z := 2055.

Definition key_error_display (e : KeyError) : rstr :=
  match e with
  | KeyNotFound what => str "key material not found: " ++ what
  | KeyMalformed what => str "key material malformed: " ++ what
  end.

(** [Signer::sign]; the error is the text of [rustls::Error::General]. *)
Definition delegated_tls_sign (s : RawEd25519TlsSigner) (message : bytes) : result bytes rstr :=
  let? sig := map_err (fun e => str "delegated TLS Ed25519 sign: " ++ key_error_display e) (sign_tls_ed25519 s message) in
  if negb (bool_decide (length sig = KMS_SIGNATURE_LEN))
  then Err (str "delegated TLS Ed25519 sign returned " ++ display_unsigned (blen sig) ++ str " bytes; expected 64")
  else Ok sig.

(** [SigningKey::choose_scheme]: a signer for Ed25519 or none. *)
Definition choose_scheme (s : RawEd25519TlsSigner) (offered : list Z) : option (bytes -> result bytes rstr) :=
  if bool_decide (SCHEME_ED25519 ∈ offered) then Some (delegated_tls_sign s) else None.

(** A validated backend: the DER it was built from and its key. *)
Record KmsKey : Type := { kk_spki_der : bytes; kk_verify_key : VerificationKey }.

(** [with_client] and [with_transport] after the response was parsed. *)
Definition kms_key (service : rstr) (spki_der : bytes) : result KmsKey KeyError :=
  let? raw := ed25519_raw_point_from_spki spki_der in
  let? verify_key := map_err (fun e => KeyMalformed (service ++ str ": invalid Ed25519 public key: " ++ wire_code e)) (vk_from_bytes raw) in
  Ok {| kk_spki_der := spki_der; kk_verify_key := verify_key |}.
End Kms.

(** ** aws_kms_keysource.rs *)

Section Aws.
Context `{SerdeJson, SerdeSer, SerdeTexts, StandardBase64, StandardDecode, Base64, Dalek, Sha2, HmacSha256}.

Definition KMS_CONTENT_TYPE : rstr := str "application/x-amz-json-1.1".
Definition TARGET_GET_PUBLIC_KEY : rstr := str "TrentService.GetPublicKey".
Definition TARGET_SIGN : rstr := str "TrentService.Sign".
Definition MAX_KMS_RESPONSE_BYTES : nat := Z.to_nat (256 * 1024).
Definition KEY_SPEC_ED25519 : rstr := str "ECC_NIST_EDWARDS25519".
Definition SIGNING_ALGORITHM_ED25519 : rstr := str "ED25519_SHA_512".
Definition MESSAGE_TYPE_RAW : rstr := str "RAW".

Record AwsKmsConfig : Type := { aws_region : rstr; aws_key_id : rstr; aws_endpoint : option rstr }.

Definition aws_credentials_from_env (env : rstr -> option rstr) : result AwsCredentials KeyError :=
  let? access_key_id := ok_or (env (str "AWS_ACCESS_KEY_ID")) (KeyNotFound (str "aws-kms: AWS_ACCESS_KEY_ID not set")) in
  let? secret_access_key := ok_or (env (str "AWS_SECRET_ACCESS_KEY")) (KeyNotFound (str "aws-kms: AWS_SECRET_ACCESS_KEY not set")) in
  Ok {| access_key_id := access_key_id; secret_access_key := secret_access_key;
        session_token := match env (str "AWS_SESSION_TOKEN") with
                         | Some s => if is_empty s then None else Some s
                         | None => None
                         end |}.

(** The segment of [url] after the first and before a second "://". *)
Definition after_scheme (url : rstr) : option rstr :=
  match window_position (str "://") url with
  | None => None
  | Some i =>
      let rest := drop (i + 3) url in
      Some (match window_position (str "://") rest with Some j => take j rest | None => rest end)
  end.

Definition authority_of (url : rstr) : result rstr KeyError :=
  let? rest := ok_or (after_scheme url)
                 (KeyMalformed (str "aws-kms: endpoint '" ++ url ++ str "' is not scheme://host")) in
  let (authority, path) := default (rest, []) (split_once 47 rest) in
  if is_empty authority then Err (KeyMalformed (str "aws-kms: endpoint '" ++ url ++ str "' has no host"))
  else if negb (is_empty path) then Err (KeyMalformed (str "aws-kms: endpoint '" ++ url ++ str "' must not include a path"))
  else Ok authority.

(** [to_string().into_bytes()] of a [json!] value. *)
Definition json_bytes (v : Value) : bytes := default [] (to_vec v).

Definition aws_sign_request_body (key_id : rstr) (preimage : bytes) : bytes :=
  json_bytes (json_object
    [(str "KeyId", VString key_id); (str "Message", VString (standard_encode preimage));
     (str "MessageType", VString MESSAGE_TYPE_RAW); (str "SigningAlgorithm", VString SIGNING_ALGORITHM_ED25519)]).

Definition get_public_key_request_body (key_id : rstr) : bytes :=
  json_bytes (json_object [(str "KeyId", VString key_id)]).

(** [Option::or_else]: the second member only where the first is absent. *)
Definition key_spec_of (v : Value) : option rstr :=
  match get (str "KeySpec") v with
  | Some s => as_str s
  | None => get (str "CustomerMasterKeySpec") v ≫= as_str
  end.

Definition parse_get_public_key_response (body : bytes) : result bytes KeyError :=
  let? v := ok_or (from_slice body) (KeyMalformed (str "aws-kms: GetPublicKey JSON: " ++ de_error_display body)) in
  let? key_spec := ok_or (key_spec_of v) (KeyMalformed (str "aws-kms: GetPublicKey has no KeySpec")) in
  if negb (bool_decide (key_spec = KEY_SPEC_ED25519))
  then Err (KeyMalformed (str "aws-kms: KMS key spec is '" ++ key_spec ++ str "', not " ++ KEY_SPEC_ED25519 ++
                          str "; the KMS key MUST be an Ed25519 key"))
  else
    let? pk_b64 := ok_or (get (str "PublicKey") v ≫= as_str) (KeyMalformed (str "aws-kms: GetPublicKey has no PublicKey")) in
    map_err (fun e => KeyMalformed (str "aws-kms: PublicKey base64: " ++ e)) (standard_decode pk_b64).

Definition aws_parse_sign_response (body : bytes) : result bytes KeyError :=
  let? v := ok_or (from_slice body) (KeyMalformed (str "aws-kms: Sign JSON: " ++ de_error_display body)) in
  let? sig_b64 := ok_or (get (str "Signature") v ≫= as_str) (KeyMalformed (str "aws-kms: Sign response has no Signature")) in
  map_err (fun e => KeyMalformed (str "aws-kms: Signature base64: " ++ e)) (standard_decode sig_b64).

(** [trait KmsHttpClient]: target and body. *)
Definition KmsHttpClient : Type := rstr -> bytes -> result bytes KeyError.

(** [AwsKmsEd25519Backend::with_client]. *)
Definition aws_with_client (client : KmsHttpClient) (key_id : rstr) : result KmsKey KeyError :=
  let? resp := client TARGET_GET_PUBLIC_KEY (get_public_key_request_body key_id) in
  let? spki_der := parse_get_public_key_response resp in
  kms_key (str "aws-kms") spki_der.

(** The check both adapters make of what the service returned. *)
Definition verify_before_return (length_error verify_error : rstr -> rstr) (k : KmsKey) (preimage signature : bytes)
  : result bytes KeyError :=
  if negb (bool_decide (length signature = KMS_SIGNATURE_LEN))
  then Err (KeyMalformed (length_error (display_unsigned (blen signature))))
  else
    try? map_err (fun e => KeyMalformed (verify_error (wire_code e)))
           (verify_ed25519 preimage (b64url_encode signature) (kk_verify_key k)) ;;
    Ok signature.

Definition aws_backend (client : KmsHttpClient) (key_id : rstr) (k : KmsKey) : KmsEd25519Backend := {|
  sign_raw_ed25519 preimage :=
    let? resp := client TARGET_SIGN (aws_sign_request_body key_id preimage) in
    let? signature := aws_parse_sign_response resp in
    verify_before_return
      (fun n => str "aws-kms: Sign returned a " ++ n ++ str "-byte signature; expected a raw 64-byte Ed25519 signature")
      (fun e => str "aws-kms: KMS signature did NOT verify against the advertised public key (misconfigured DIGEST/prehash key or key mismatch?): " ++ e)
      k preimage signature;
  public_key_spki_der := Ok (kk_spki_der k);
|}.

(** [impl RawEd25519TlsSigner] of both backends. *)
Definition kms_tls_signer (b : KmsEd25519Backend) : RawEd25519TlsSigner := {|
  sign_tls_ed25519 := sign_raw_ed25519 b;
  tls_public_key_spki_der := public_key_spki_der b;
|}.

(** An HTTP request as [ureq] sends it, and what comes of it. *)
Record OutRequest : Type := { or_url : rstr; or_headers : list (rstr * rstr); or_timeout : Z; or_body : bytes }.
(** [into_string] is [ureq]'s reading of an error response as text, [None] when
    it fails; [display] the text of the error. *)
Inductive HttpOutcome : Type :=
| HttpOk (body : HttpBody)
| HttpStatus (code : Z) (body : HttpBody) (into_string : option rstr) (display : rstr)
| HttpTransport (e : rstr).

Record UreqKmsClient : Type := { uk_signer : SigV4Signer; uk_url : rstr; uk_authority : rstr }.

Definition ureq_kms_client_new (credentials : AwsCredentials) (config : AwsKmsConfig) : result UreqKmsClient KeyError :=
  let url := default (str "https://kms." ++ aws_region config ++ str ".amazonaws.com") (aws_endpoint config) in
  let? authority := authority_of url in
  Ok {| uk_signer := {| sv_credentials := credentials; sv_region := aws_region config; sv_service := str "kms" |};
        uk_url := url; uk_authority := authority |}.

(** The request [post_kms] sends at a time in seconds. *)
Definition kms_request (c : UreqKmsClient) (now : Z) (target : rstr) (body : bytes) : OutRequest :=
  let signed := sigv4_sign (uk_signer c)
    [{| header_name := str "host"; header_value := uk_authority c |};
     {| header_name := str "content-type"; header_value := KMS_CONTENT_TYPE |};
     {| header_name := str "x-amz-target"; header_value := target |}] body (format_amz_date now) in
  {| or_url := uk_url c;
     or_headers :=
       [(str "Host", uk_authority c); (str "Content-Type", KMS_CONTENT_TYPE); (str "X-Amz-Target", target);
        (str "X-Amz-Date", sa_amz_date signed); (str "Authorization", authorization signed)] ++
       match security_token signed with Some token => [(str "X-Amz-Security-Token", token)] | None => [] end;
     or_timeout := 5 * NANOS;
     or_body := body |}.

Definition post_kms (http : OutRequest -> HttpOutcome) (c : UreqKmsClient) (now : Z) : KmsHttpClient :=
  fun target body =>
    match http (kms_request c now target body) with
    | HttpOk resp =>
        let? buf := map_err (fun e => KeyNotFound (str "aws-kms: read response body: " ++ e))
                      (read_limited (S MAX_KMS_RESPONSE_BYTES) resp) in
        if (MAX_KMS_RESPONSE_BYTES <? length buf)%nat
        then Err (KeyMalformed (str "aws-kms: response body exceeds 262144-byte cap"))
        else Ok buf
    | HttpStatus code _ text _ =>
        Err (KeyNotFound (str "aws-kms: " ++ target ++ str " returned HTTP " ++ display_unsigned code ++ str ": " ++ default [] text))
    | HttpTransport e => Err (KeyNotFound (str "aws-kms: " ++ target ++ str " transport: " ++ e))
    end.

(** [AwsKmsEd25519Backend::from_env]. *)
Definition aws_from_env (env : rstr -> option rstr) (http : OutRequest -> HttpOutcome) (now : Z) (config : AwsKmsConfig)
  : result KmsEd25519Backend KeyError :=
  let? credentials := aws_credentials_from_env env in
  let? client := ureq_kms_client_new credentials config in
  let? k := aws_with_client (post_kms http client now) (aws_key_id config) in
  Ok (aws_backend (post_kms http client now) (aws_key_id config) k).

(** [LocalKeyKmsTransport]: a service that holds a local key. *)
Definition spki_of (k : SigningKey) : bytes := ED25519_SPKI_PREFIX ++ vk_to_bytes (public_key k).

Definition local_kms_transport (key : SigningKey) : KmsHttpClient :=
  fun target body =>
    if bool_decide (target = TARGET_GET_PUBLIC_KEY) then
      Ok (json_bytes (json_object [(str "KeySpec", VString KEY_SPEC_ED25519);
                                   (str "PublicKey", VString (standard_encode (spki_of key)))]))
    else if bool_decide (target = TARGET_SIGN) then
      let? v := ok_or (from_slice body) (KeyMalformed (str "fake kms: Sign body: " ++ de_error_display body)) in
      let? msg := map_err (fun e => KeyMalformed (str "fake kms: Message b64: " ++ e))
                    (standard_decode (default [] (get (str "Message") v ≫= as_str))) in
      let? raw := map_err (fun e => KeyMalformed (str "fake kms: sign: " ++ wire_code e)) (b64url_decode (sign key msg)) in
      Ok (json_bytes (json_object [(str "Signature", VString (standard_encode raw));
                                   (str "SigningAlgorithm", VString SIGNING_ALGORITHM_ED25519)]))
    else Err (KeyMalformed (str "fake kms: unexpected target " ++ target)).
End Aws.

(** ** gcp_kms_keysource.rs *)

Section Gcp.
Context `{SerdeJson, SerdeSer, SerdeTexts, StandardBase64, StandardDecode, Base64, Dalek}.

Definition ALGORITHM_ED25519 : rstr := str "EC_SIGN_ED25519".
Definition DEFAULT_KMS_ENDPOINT : rstr := str "https://cloudkms.googleapis.com".
Definition DEFAULT_METADATA_ENDPOINT : rstr := str "http://metadata.google.internal".
Definition TOKEN_REFRESH_MARGIN : Z := 60 * NANOS.
Definition NETWORK_TIMEOUT : Z := 5 * NANOS.
Definition MAX_ERROR_BODY_BYTES : nat := 8 * 1024.

Record GcpKmsConfig : Type := { key_version_name : rstr; gcp_endpoint : option rstr }.

(** *** Access tokens *)

(** [EnvAccessTokenSource]. *)
Definition env_access_token (env : rstr -> option rstr) : result rstr KeyError :=
  match env (str "MCPS_GCP_ACCESS_TOKEN") with
  | Some t => if is_empty t then Err (KeyNotFound (str "gcp-kms: MCPS_GCP_ACCESS_TOKEN not set")) else Ok t
  | None => Err (KeyNotFound (str "gcp-kms: MCPS_GCP_ACCESS_TOKEN not set"))
  end.

(** Times are nanoseconds of [SystemTime], at most [time_max]. *)
Definition expiry_from_now (time_max now expires_in : Z) : Z :=
  if now + expires_in * NANOS <=? time_max then now + expires_in * NANOS else now.

Record CachedToken : Type := { ct_token : rstr; ct_expires_at : Z }.

Record MetadataServerTokenSource : Type := {
  ms_endpoint : rstr;
  ms_cache : option CachedToken;
  ms_poisoned : bool;
}.

Definition metadata_source_new (endpoint : option rstr) : MetadataServerTokenSource :=
  {| ms_endpoint := default DEFAULT_METADATA_ENDPOINT endpoint; ms_cache := None; ms_poisoned := false |}.

Definition CACHE_POISONED : rstr := str "gcp-kms: token cache poisoned: poisoned lock: another task failed inside".

(** The token request, and its body: the text, or the error of the call or of
    reading it. *)
Definition token_request (s : MetadataServerTokenSource) : OutRequest :=
  {| or_url := ms_endpoint s ++ str "/computeMetadata/v1/instance/service-account/default/token";
     or_headers := [(str "Metadata-Flavor", str "Google")]; or_timeout := NETWORK_TIMEOUT; or_body := [] |}.

(** [take(64 KiB).read_to_string]: the bytes must be UTF-8. *)
Definition read_to_string (limit : nat) (b : HttpBody) : result rstr rstr :=
  let? bs := read_limited limit b in
  ok_or (from_utf8 bs) (str "stream did not contain valid UTF-8").

Definition fetch_token (http : OutRequest -> HttpOutcome) (s : MetadataServerTokenSource) : result (rstr * Z) KeyError :=
  let fetch_failed e := Err (KeyNotFound (str "gcp-kms: metadata-server token fetch: " ++ e)) in
  let? body := match http (token_request s) with
               | HttpOk resp => map_err (fun e => KeyNotFound (str "gcp-kms: read token: " ++ e)) (read_to_string (Z.to_nat (64 * 1024)) resp)
               | HttpStatus _ _ _ e => fetch_failed e
               | HttpTransport e => fetch_failed e
               end in
  let? v := ok_or (from_slice (as_bytes body)) (KeyMalformed (str "gcp-kms: token JSON: " ++ de_error_display (as_bytes body))) in
  let? token := ok_or (get (str "access_token") v ≫= as_str) (KeyMalformed (str "gcp-kms: token has no access_token")) in
  Ok (token, default 0 (get (str "expires_in") v ≫= (fun x => match x with VNumber n => as_u64 n | _ => None end))).

(** [MetadataServerTokenSource::access_token] at a time. *)
Definition metadata_access_token (time_max : Z) (http : OutRequest -> HttpOutcome) (now : Z) (s : MetadataServerTokenSource)
  : result rstr KeyError * MetadataServerTokenSource :=
  if ms_poisoned s then (Err (KeyNotFound CACHE_POISONED), s)
  else
    let cached := match ms_cache s with
                  | Some c => if now + TOKEN_REFRESH_MARGIN <? ct_expires_at c then Some (ct_token c) else None
                  | None => None
                  end in
    match cached with
    | Some token => (Ok token, s)
    | None =>
        match fetch_token http s with
        | Err e => (Err e, s)
        | Ok (token, expires_in) =>
            (Ok token, {| ms_endpoint := ms_endpoint s; ms_poisoned := ms_poisoned s;
                          ms_cache := Some {| ct_token := token; ct_expires_at := expiry_from_now time_max now expires_in |} |})
        end
    end.

(** *** The service *)

(** [trait GcpKmsTransport]. *)
Record GcpKmsTransport : Type := {
  gcp_get_public_key : result bytes KeyError;
  asymmetric_sign : bytes -> result bytes KeyError;
}.

Definition read_body (b : HttpBody) : result bytes KeyError :=
  map_err (fun e => KeyNotFound (str "gcp-kms: read response: " ++ e)) (read_limited (Z.to_nat (256 * 1024)) b).

(** What had been read before an error stays in the buffer. *)
Definition read_error_body (b : HttpBody) : rstr := from_utf8_lossy (take MAX_ERROR_BODY_BYTES (hb_bytes b)).

Definition gcp_outcome (what : rstr) (o : HttpOutcome) : result bytes KeyError :=
  match o with
  | HttpOk resp => read_body resp
  | HttpStatus code resp _ _ =>
      Err (KeyNotFound (str "gcp-kms: " ++ what ++ str " HTTP " ++ display_unsigned code ++ str ": " ++ read_error_body resp))
  | HttpTransport e => Err (KeyNotFound (str "gcp-kms: " ++ what ++ str ": " ++ e))
  end.

(** [UreqGcpClient] over a token source. *)
Definition ureq_gcp_client (http : OutRequest -> HttpOutcome) (token : result rstr KeyError) (config : GcpKmsConfig) : GcpKmsTransport :=
  let base := default DEFAULT_KMS_ENDPOINT (gcp_endpoint config) in
  let bearer := let? t := token in Ok (str "Bearer " ++ t) in
  {| gcp_get_public_key :=
       let? auth := bearer in
       gcp_outcome (str "getPublicKey")
         (http {| or_url := base ++ str "/v1/" ++ key_version_name config ++ str "/publicKey";
                  or_headers := [(str "Authorization", auth)]; or_timeout := NETWORK_TIMEOUT; or_body := [] |});
     asymmetric_sign body :=
       let? auth := bearer in
       gcp_outcome (str "asymmetricSign")
         (http {| or_url := base ++ str "/v1/" ++ key_version_name config ++ str ":asymmetricSign";
                  or_headers := [(str "Authorization", auth); (str "Content-Type", str "application/json")];
                  or_timeout := NETWORK_TIMEOUT; or_body := body |}) |}.

Definition gcp_sign_request_body (preimage : bytes) : bytes :=
  json_bytes (json_object [(str "data", VString (standard_encode preimage))]).

(** The loop over the lines of a PEM text. *)
Fixpoint pem_body (in_body : bool) (lines : list rstr) : rstr :=
  match lines with
  | [] => []
  | line :: rest =>
      let t := trim line in
      if starts_with (str "-----BEGIN") t then pem_body true rest
      else if starts_with (str "-----END") t then []
      else if in_body then t ++ pem_body in_body rest
      else pem_body in_body rest
  end.

Definition spki_der_from_pem (pem : rstr) : result bytes KeyError :=
  let b64 := pem_body false (str_lines pem) in
  if is_empty b64 then Err (KeyMalformed (str "gcp-kms: public-key PEM has no body"))
  else map_err (fun e => KeyMalformed (str "gcp-kms: PEM base64: " ++ e)) (standard_decode b64).

Definition parse_public_key_response (body : bytes) : result bytes KeyError :=
  let? v := ok_or (from_slice body) (KeyMalformed (str "gcp-kms: getPublicKey JSON: " ++ de_error_display body)) in
  let? algorithm := ok_or (get (str "algorithm") v ≫= as_str) (KeyMalformed (str "gcp-kms: getPublicKey has no algorithm")) in
  if negb (bool_decide (algorithm = ALGORITHM_ED25519))
  then Err (KeyMalformed (str "gcp-kms: key algorithm is '" ++ algorithm ++ str "', not " ++ ALGORITHM_ED25519 ++
                          str "; the KMS key MUST be an Ed25519 key"))
  else
    let? pem := ok_or (get (str "pem") v ≫= as_str) (KeyMalformed (str "gcp-kms: getPublicKey has no pem")) in
    spki_der_from_pem pem.

Definition gcp_parse_sign_response (body : bytes) : result bytes KeyError :=
  let? v := ok_or (from_slice body) (KeyMalformed (str "gcp-kms: asymmetricSign JSON: " ++ de_error_display body)) in
  let? sig_b64 := ok_or (get (str "signature") v ≫= as_str) (KeyMalformed (str "gcp-kms: asymmetricSign response has no signature")) in
  map_err (fun e => KeyMalformed (str "gcp-kms: signature base64: " ++ e)) (standard_decode sig_b64).

(** [GcpKmsEd25519Backend::with_transport]. *)
Definition gcp_with_transport (t : GcpKmsTransport) : result KmsKey KeyError :=
  let? resp := gcp_get_public_key t in
  let? spki_der := parse_public_key_response resp in
  kms_key (str "gcp-kms") spki_der.

Definition gcp_backend (t : GcpKmsTransport) (k : KmsKey) : KmsEd25519Backend := {|
  sign_raw_ed25519 preimage :=
    let? resp := asymmetric_sign t (gcp_sign_request_body preimage) in
    let? signature := gcp_parse_sign_response resp in
    verify_before_return
      (fun n => str "gcp-kms: asymmetricSign returned a " ++ n ++ str "-byte signature; expected a raw 64-byte Ed25519 signature")
      (fun e => str "gcp-kms: KMS signature did NOT verify against the advertised public key: " ++ e)
      k preimage signature;
  public_key_spki_der := Ok (kk_spki_der k);
|}.

(** [LocalKeyGcpTransport]: a service that holds a local key; the PEM has lines
    of 64 characters. *)
Fixpoint pem_lines (fuel : nat) (b64 : rstr) : rstr :=
  match fuel with
  | O => []
  | S fuel' => if is_empty b64 then [] else take 64 b64 ++ [10] ++ pem_lines fuel' (drop 64 b64)
  end.

Definition PEM_BEGIN : rstr := str "-----BEGIN PUBLIC KEY-----".
Definition PEM_END : rstr := str "-----END PUBLIC KEY-----".

Definition pem_of (b64 : rstr) : rstr := PEM_BEGIN ++ [10] ++ pem_lines (length b64) b64 ++ PEM_END ++ [10].

Definition local_gcp_transport (key : SigningKey) : GcpKmsTransport := {|
  gcp_get_public_key :=
    Ok (json_bytes (json_object [(str "algorithm", VString ALGORITHM_ED25519);
                                 (str "pem", VString (pem_of (standard_encode (spki_of key))))]));
  asymmetric_sign body :=
    let? v := ok_or (from_slice body) (KeyMalformed (str "fake gcp kms: sign body: " ++ de_error_display body)) in
    let? data := map_err (fun e => KeyMalformed (str "fake gcp kms: data b64: " ++ e))
                   (standard_decode (default [] (get (str "data") v ≫= as_str))) in
    let? raw := map_err (fun e => KeyMalformed (str "fake gcp kms: sign: " ++ wire_code e)) (b64url_decode (sign key data)) in
    Ok (json_bytes (json_object [(str "signature", VString (standard_encode raw))]));
|}.
End Gcp.
