(* ===== verification/Startup.v ===== *)
(** * From the command line to the serve loop

    [mcps-proxy/src/main.rs], [run] up to its loop, with the builders of
    [cli.rs] it calls and the file-backed key source of [key_source.rs].  The
    operating system, the PEM reader, rustls and the key and store clients are
    a class of operations. *)

From S2P Require Import Prelude Utf8 Errors Json Canonical Strings Tiers Signing Time Crypto Envelope Transport Http Ocsp.
From S2P Require Import UrlGuard Replay Resolver Pipeline Unwrap Graft Policy KeySource Kms TrustCache DurableReplay Proxy Sandbox Launch Serve Cli.

(** ** Key material *)

(** [trait KeySource]. *)
Record KeySource `{Dalek} : Type := {
  ks_signer : ResponseSigner;
  tls_server_cert_chain : result (list bytes) KeyError;
  tls_server_key : result bytes KeyError;
  client_ca_roots : result (list bytes) KeyError;
  tls_delegated_signer : option RawEd25519TlsSigner;
}.

(** Who signs the handshake: a private key, or a device behind a resolver of
    the certificate. *)
Inductive TlsServerKey : Type :=
| ExportedKey (der : bytes)
| DelegatedKey (signer : RawEd25519TlsSigner).

(** What rustls is given. *)
Record TlsMaterial : Type := {
  tm_chain : list bytes;
  tm_key : TlsServerKey;
  tm_client_ca : list bytes;
  tm_crls : list bytes;
  tm_allow_unknown_status : bool;
}.

(** Timeouts of a store client, in seconds. *)
Record StoreTimeouts : Type := { st_connect : Z; st_read : option Z; st_write : option Z }.

(** The features of the build. *)
Record Features : Type := { online_ocsp : bool; redis_replay : bool; cpstore_etcd : bool; dev_env_key_source : bool }.

(** [pem_certs], [pem_key] and [pem_crls] are the iterators of
    [rustls_pki_types]; [certificate_spki] is [x509_parser]'s reading of the
    public key of a certificate, its error as text; [device_key_source] opens a
    token or a cloud key and is an error in a build without it. *)
Class Host `{Dalek} := {
  fs_read : rstr -> option bytes;
  fs_mode : rstr -> option Z;
  disk_of : rstr -> Disk;
  process_env : rstr -> option rstr;
  pem_certs : bytes -> option (list bytes);
  pem_key : bytes -> option bytes;
  pem_crls : bytes -> option (list bytes);
  device_key_source : Config -> result KeySource KeyError;
  certificate_spki : bytes -> result bytes rstr;
  rustls_server_config : TlsMaterial -> bool;
  redis_connect : rstr -> StoreTimeouts -> bool;
  persistent_start : list rstr -> InnerLaunchConfig -> bool;
  tcp_bind : rstr -> bool;
  wall_clock : Z;
}.

Inductive StartupError : Type :=
| SCli (e : CliError)
| SKeyMode (path : rstr)
| SKey (e : KeyError)
| SUnreadable (path : rstr)
| STrustNotJson | STrustNotArray | STrustMissing (field : string) | STrustBadKey (signer key_id : rstr)
| SLaunch (e : LaunchError)
| SInner
| SReplayFile (path : rstr) (e : DurableReplay.IoError)
| SNoBackend | SStore | SLinearizableOnRedis
| SVolatileReplay
| SEmptyDenyList (path : rstr)
| SEmptyCrl (path : rstr) | SMalformedCrl (path : rstr)
| STls | SDelegatedKeyMismatch (what : rstr)
| SBind
| SInternal (what : string).

Section Material.
Context `{Base64, DK : Dalek, HO : !Host}.

Definition certs_from_pem (pem : bytes) (what : string) : result (list bytes) KeyError :=
  let? certs := ok_or (pem_certs pem) (KeyMalformed (str what)) in
  if is_empty certs then Err (KeyMalformed (str what ++ str ": no certificates in PEM")) else Ok certs.

Definition key_from_pem (pem : bytes) : result bytes KeyError := ok_or (pem_key pem) (KeyMalformed (str "tls key")).

Definition ks_read (path : rstr) : result bytes KeyError := ok_or (fs_read path) (KeyNotFound path).

Definition FileKeySource (signing_key_seed_path tls_cert_path tls_key_path client_ca_path : rstr) : KeySource := {|
  ks_signer := file_key_source_signer ks_read signing_key_seed_path;
  tls_server_cert_chain := let? pem := ks_read tls_cert_path in certs_from_pem pem "tls cert chain";
  tls_server_key := let? pem := ks_read tls_key_path in key_from_pem pem;
  client_ca_roots := let? pem := ks_read client_ca_path in certs_from_pem pem "client CA";
  tls_delegated_signer := None |}.

(** The signer of [EnvKeySource]: the variable is read at each call. *)
Definition env_read (var : rstr) : result bytes KeyError := ok_or (as_bytes <$> process_env var) (KeyNotFound (str "env var " ++ var)).

Definition env_signing_key (var : rstr) : result SigningKey KeyError :=
  let? text := ok_or (process_env var) (KeyNotFound (str "env var " ++ var)) in signing_key_from_seed_b64url text.

Definition EnvKeySource (signing_key_seed_var tls_cert_var tls_key_var client_ca_var : rstr) : KeySource := {|
  ks_signer := {|
    sign_response preimage := let? k := env_signing_key signing_key_seed_var in sign_response (signing_key_signer k) preimage;
    response_public_key := let? k := env_signing_key signing_key_seed_var in response_public_key (signing_key_signer k) |};
  tls_server_cert_chain := let? pem := env_read tls_cert_var in certs_from_pem pem "tls cert chain";
  tls_server_key := let? pem := env_read tls_key_var in key_from_pem pem;
  client_ca_roots := let? pem := env_read client_ca_var in certs_from_pem pem "client CA";
  tls_delegated_signer := None |}.

Definition build_key_source (f : Features) (c : Config) : result KeySource KeyError :=
  match o_key_source (c_options c) with
  | KeyFile => Ok (FileKeySource (c_signing_key_seed c) (c_tls_cert c) (c_tls_key c) (c_client_ca c))
  | KeyEnv =>
      if dev_env_key_source f then Ok (EnvKeySource (c_signing_key_seed c) (c_tls_cert c) (c_tls_key c) (c_client_ca c))
      else Err (KeyNotFound (str "env key source is development-only"))
  | KeyPkcs11 | KeyAwsKms | KeyGcpKms => device_key_source c
  end.

(** ** The delegated TLS credential (tls.rs) *)

Definition leaf_ed25519_raw_point (leaf_der : bytes) : result bytes StartupError :=
  let? spki_der := map_err (fun e => SDelegatedKeyMismatch (str "leaf certificate is not parseable DER: " ++ e)) (certificate_spki leaf_der) in
  map_err (fun e => SDelegatedKeyMismatch
      (str "delegated TLS is Ed25519-only; leaf certificate public key is not an RFC 8410 Ed25519 SubjectPublicKeyInfo: " ++ key_error_display e))
    (ed25519_raw_point_from_spki spki_der).

(** [build_server_config_delegated_validated] up to rustls. *)
Definition delegated_validated (server_chain : list bytes) (signer : RawEd25519TlsSigner) : result unit StartupError :=
  let? leaf := ok_or (head server_chain) (SDelegatedKeyMismatch (str "delegated TLS server certificate chain is empty")) in
  let? leaf_point := leaf_ed25519_raw_point leaf in
  let? signer_spki := map_err (fun e => SDelegatedKeyMismatch
      (str "delegated TLS signer did not yield an exportable public key: " ++ key_error_display e)) (tls_public_key_spki_der signer) in
  let? signer_point := map_err (fun e => SDelegatedKeyMismatch
      (str "delegated TLS signer public key is not an RFC 8410 Ed25519 SubjectPublicKeyInfo: " ++ key_error_display e))
      (ed25519_raw_point_from_spki signer_spki) in
  if negb (bool_decide (signer_point = leaf_point))
  then Err (SDelegatedKeyMismatch (str
    "the delegated TLS signer's Ed25519 public key does not match the leaf certificate's SubjectPublicKeyInfo; the signer signs for a different key than the certificate presents"))
  else Ok tt.

(** A file whose metadata cannot be read passes. *)
Definition check_key_file_perms (path : rstr) (strict : bool) : result unit StartupError :=
  match fs_mode path with
  | Some mode => if key_file_mode_is_insecure mode && strict then Err (SKeyMode path) else Ok tt
  | None => Ok tt
  end.

(** ** Trust, revocation lists, CRLs *)

Definition member_str (entry : Value) (k : string) : option rstr := v ← get (str k) entry; as_str v.

Fixpoint load_trust_entries (r : InMemoryTrustResolver) (array : list Value) : result InMemoryTrustResolver StartupError :=
  match array with
  | [] => Ok r
  | entry :: rest =>
      let? signer := ok_or (member_str entry "signer") (STrustMissing "signer") in
      let? key_id := ok_or (member_str entry "key_id") (STrustMissing "key_id") in
      let? pk := ok_or (member_str entry "public_key") (STrustMissing "public_key") in
      let? key := map_err (fun _ => STrustBadKey signer key_id) (vk_from_b64url pk) in
      load_trust_entries (resolver_insert r signer key_id key) rest
  end.

Definition load_trust `{SerdeJson} (bs : bytes) : result InMemoryTrustResolver StartupError :=
  let? value := ok_or (from_slice bs) STrustNotJson in
  match value with
  | VArray array => load_trust_entries in_memory_resolver_new array
  | _ => Err STrustNotArray
  end.

(** The lines that name a grant. *)
Definition revocation_ids (text : rstr) : list rstr :=
  List.filter (fun id => negb (is_empty id || starts_with (str "#") id)) (trim <$> str_lines text).

(** [read_to_string] fails on bytes that are no UTF-8. *)
Fixpoint load_revocation_list (paths : list rstr) : result (list rstr) StartupError :=
  match paths with
  | [] => Ok []
  | path :: rest =>
      let? bs := ok_or (fs_read path) (SUnreadable path) in
      let? text := ok_or (from_utf8 bs) (SUnreadable path) in
      let ids := revocation_ids text in
      if is_empty ids then Err (SEmptyDenyList path)
      else let? more := load_revocation_list rest in Ok (ids ++ more)
  end.

Fixpoint load_client_crls (paths : list rstr) : result (list bytes) StartupError :=
  match paths with
  | [] => Ok []
  | path :: rest =>
      let? bs := ok_or (fs_read path) (SUnreadable path) in
      let? pem := ok_or (pem_crls bs) (SMalformedCrl path) in
      let? crls := if is_empty pem then (if is_empty bs then Err (SEmptyCrl path) else Ok [bs]) else Ok pem in
      let? more := load_client_crls rest in Ok (crls ++ more)
  end.

(** ** The resolver of the declared tier *)

Inductive TieredResolver : Type :=
| TierBounded (c : BoundedTrustCache)
| TierLive (l : LiveTrustResolver)
| TierPush (p : PushInvalidationTrustCache InMemoryInvalidationChannel).

Definition build_revocation_resolver (tier : RevocationTier) (base : TrustResolver) : TieredResolver :=
  match tier with
  | BoundedCache t => TierBounded (bounded_new t DEFAULT_NEGATIVE_TTL_SECS)
  | Live => TierLive (live_new base)
  | Push t => TierPush (push_new t DEFAULT_NEGATIVE_TTL_SECS channel_new)
  end.

(** [resolve] of the boxed resolver, over the store [base] and the clock. *)
Definition tiered_resolve (base : TrustResolver) (now : Z) (r : TieredResolver) (signer key_id : rstr)
  : result VerificationKey TrustResolverError * TieredResolver :=
  match r with
  | TierBounded c => let (a, c') := bounded_resolve base now c signer key_id in (a, TierBounded c')
  | TierLive l => (live_resolve l signer key_id, TierLive l)
  | TierPush p => let (a, p') := push_resolve base now p signer key_id in (a, TierPush p')
  end.

(** ** Replay stores *)

(** The cache the proxy is given. *)
Inductive ReplayBackend : Type :=
| BackendMemory
| BackendFile (c : DurableReplayCache)
| BackendRedis (url : rstr) (timeouts : StoreTimeouts) (wait : option (Z * Z)) (skew : Z)
| BackendEtcd (endpoint : rstr) (timeout skew : Z).

(** [durability_class] of the cache or of its store. *)
Definition backend_class (b : ReplayBackend) : ReplayDurabilityClass :=
  match b with BackendMemory => SingleProcessReference | BackendFile _ | BackendRedis _ _ _ _ | BackendEtcd _ _ _ => Durable end.

Definition build_shared_replay_cache (f : Features) (url : rstr) (skew : Z) (read_timeout write_timeout : option Z)
    (tier : ReplayDurabilityTier) : result ReplayBackend StartupError :=
  if negb (redis_replay f) then Err SNoBackend
  else
    let timeouts := {| st_connect := default 30 read_timeout; st_read := read_timeout; st_write := write_timeout |} in
    if negb (redis_connect url timeouts) then Err SStore
    else match tier with
         | RedisWaitQuorum quorum timeout_ms => Ok (BackendRedis url timeouts (Some (quorum, timeout_ms)) skew)
         | RedisAsyncBounded | SingleStoreFailClosed => Ok (BackendRedis url timeouts None skew)
         | Linearizable => Err SLinearizableOnRedis
         end.

Definition build_cpstore_replay_cache (f : Features) (endpoint : rstr) (skew : Z) (read_timeout write_timeout : option Z)
  : result ReplayBackend StartupError :=
  if negb (cpstore_etcd f) then Err SNoBackend
  else
    let timeout := match read_timeout, write_timeout with
                   | Some r, Some w => Z.max r w
                   | Some t, None | None, Some t => t
                   | None, None => 30
                   end in
    Ok (BackendEtcd endpoint timeout skew).

(** The two blocks of [run] that choose the cache. *)
Definition select_replay `{SerdeJson} (f : Features) (o : Options) : result ReplayBackend StartupError :=
  match o_replay o with
  | ReplayMemory => Ok BackendMemory
  | ReplayFile =>
      let? path := ok_or (o_replay_path o) (SInternal "--replay-cache file requires --replay-path") in
      let? cache := map_err (SReplayFile path) (durable_open (disk_of path) (o_max_clock_skew o) wall_clock) in
      Ok (BackendFile cache)
  | ReplayShared =>
      let? tier := ok_or (o_replay_durability_tier o) (SInternal "--replay-cache shared requires --replay-durability-tier") in
      if bool_decide (tier = Linearizable) then
        let? endpoint := ok_or (o_cpstore_etcd_endpoint o) (SInternal "linearizable requires --cpstore-etcd-endpoint") in
        build_cpstore_replay_cache f endpoint (o_max_clock_skew o) (sl_read_timeout (o_limits o)) (sl_write_timeout (o_limits o))
      else
        let? url := ok_or (o_replay_redis_url o) (SInternal "--replay-cache shared requires --replay-redis-url") in
        build_shared_replay_cache f url (o_max_clock_skew o) (sl_read_timeout (o_limits o)) (sl_write_timeout (o_limits o)) tier
  end.

(** ** The sidecar *)

Definition identity_strategy_of (o : Options) : IdentityStrategy :=
  if bool_decide (o_binding o = BindLbAssertion) then LbAssertionStrategy
  else match o_reverse_proxy_identity_header o with
       | None => DirectTls
       | Some header => ReverseProxyHeader {| header_name := header; rp_format := o_reverse_proxy_header_format o; rp_policy := o_identity_source o |}
       end.

(** The checker is only in a build with the feature. *)
Definition serve_options (f : Features) (o : Options) : ServerOptions := {|
  identity_policy := o_identity_source o;
  identity_strategy := identity_strategy_of o;
  limits := o_limits o;
  max_client_cert_lifetime := o_max_client_cert_lifetime o;
  ocsp_checker := if online_ocsp f then build_ocsp_checker o else None |}.

(** What the policy block adds. *)
Definition policy_of (ids : list rstr) : InMemoryRevocationSource := foldl revocation_revoke in_memory_revocation_new ids.

Section Wire.
Context `{SerdeJson, SerdeSer, !Sha2, !Deserialize ReferenceGrant}.

(** The proxy over the resolver as it answers now. *)
Definition wire_proxy (c : Config) (signer : ResponseSigner) (resolver : TrustResolver) (denied : option (list rstr))
    (lb : option LbAssertionBinding) : Proxy :=
  let o := c_options c in
  let p := with_log_sink (with_expected_version_policy
             (proxy_new signer (c_server_signer c) (c_server_key_id c) resolver (c_audience c) (o_max_clock_skew o))
             (o_expected_version_policy o)) in
  let p := match denied with
           | Some ids => with_policy_enforcement p (register evaluator_new ReferenceProfile) (in_memory_revocation_status (policy_of ids))
           | None => p
           end in
  let p := if bool_decide (o_binding o = BindExact) then with_transport_binding p exact_match_check else p in
  match lb with
  | Some b => with_lb_assertion (with_transport_binding p exact_match_check) b
  | None => p
  end.
End Wire.

(** [run] when it reaches its loop. *)
Record Sidecar : Type := {
  sc_config : Config;
  sc_keys : KeySource;
  sc_store : InMemoryTrustResolver;
  sc_resolver : TieredResolver;
  sc_replay : ReplayBackend;
  sc_denied : option (list rstr);
  sc_lb : option LbAssertionBinding;
  sc_tls : TlsMaterial;
  sc_options : ServerOptions;
}.

(** The startup check of the one-shot inner server. *)
Definition subprocess_inner_new `{Fs, Platform} (l : InnerLaunchConfig) : result unit StartupError :=
  map_err SLaunch (let? c := apply_env l process_env command_new in
                   let? c := apply_working_dir l c in
                   let? c := apply_rlimits l c in
                   let? c := apply_sandbox l c in Ok tt).

Definition run `{SerdeJson, Lowercase, Fs, Platform} (f : Features) (args : list rstr) : result Sidecar StartupError :=
  let? c := map_err SCli (parse_args (online_ocsp f) args) in
  let o := c_options c in
  try? (if bool_decide (o_key_source o = KeyFile)
        then try? check_key_file_perms (c_signing_key_seed c) (o_strict o) ;; check_key_file_perms (c_tls_key c) (o_strict o)
        else Ok tt) ;;
  let? keys := map_err SKey (build_key_source f c) in
  let? chain := map_err SKey (tls_server_cert_chain keys) in
  let? client_ca := map_err SKey (client_ca_roots keys) in
  let? server_key := match tls_delegated_signer keys with
                     | Some _ => Ok None
                     | None => let? k := map_err SKey (tls_server_key keys) in Ok (Some k)
                     end in
  let? trust_bytes := ok_or (fs_read (c_trust_path c)) (SUnreadable (c_trust_path c)) in
  let? store := load_trust trust_bytes in
  let resolver := build_revocation_resolver (o_revocation_tier o) (in_memory_resolve store) in
  try? match o_inner_mode o with
       | OneShot => subprocess_inner_new (o_inner_launch o)
       | Persistent => if persistent_start (o_inner_command o) (o_inner_launch o) then Ok tt else Err SInner
       end ;;
  let? replay := select_replay f o in
  try? (if o_strict o && bool_decide (backend_class replay = SingleProcessReference) then Err SVolatileReplay else Ok tt) ;;
  let? denied := if bool_decide (o_authz o = AuthzReference)
                 then (let? ids := load_revocation_list (o_revocation_list_paths o) in Ok (Some ids)) else Ok None in
  let? lb := if bool_decide (o_binding o = BindLbAssertion)
             then (let? b := map_err SCli (build_lb_assertion_binding o) in
                   let? b := ok_or b (SInternal "lb-assertion binding selected but no verifier built") in Ok (Some b))
             else Ok None in
  let? crls := load_client_crls (o_client_crl_paths o) in
  let? key := match tls_delegated_signer keys with
              | Some signer => try? delegated_validated chain signer ;; Ok (DelegatedKey signer)
              | None => let? k := ok_or server_key (SInternal "exported TLS key missing on the non-delegated path") in Ok (ExportedKey k)
              end in
  let tls := {| tm_chain := chain; tm_key := key; tm_client_ca := client_ca; tm_crls := crls;
                tm_allow_unknown_status := o_crl_allow_unknown_status o |} in
  if negb (rustls_server_config tls) then Err STls
  else if negb (tcp_bind (c_bind c)) then Err SBind
  else Ok {| sc_config := c; sc_keys := keys; sc_store := store; sc_resolver := resolver; sc_replay := replay; sc_denied := denied;
             sc_lb := lb; sc_tls := tls; sc_options := serve_options f o |}.
End Material.
