(* ===== verification/StartupTheorems.v ===== *)
(** * What a started sidecar guarantees

    The files behind its decisions, the errors start-up can end with, the
    sidecar as it runs (its replay cache, resolver and connections, as
    reachable states), and the chain from a strict command line to the inner
    server. *)

From S2P Require Import SharedReplay RedisStore EtcdStore.
From S2P Require Import Prelude Utf8 Errors Json Canonical Strings Tiers Signing Time Crypto Envelope Transport Http HttpTheorems Ocsp.
From S2P Require Import UrlGuard Replay Resolver Pipeline Unwrap Graft Policy PipelineSpec PipelineTheorems KeySource TrustCache DurableReplay CanonicalRound Proxy ProxyTheorems Sandbox Launch Serve Cli CliTheorems.
From S2P Require Import Instances PolicySpec Samples LaunchTheorems Startup.

(** ** The trust file *)

Section Trust.
Context `{B64 : Base64, DK : Dalek}.

(** The bindings of a trust file, in order. *)
Definition trust_entry (entry : Value) : option (rstr * rstr * VerificationKey) :=
  signer ← member_str entry "signer"; key_id ← member_str entry "key_id"; pk ← member_str entry "public_key";
  key ← result_ok (vk_from_b64url pk); Some (signer, key_id, key).

(** The last binding of a pair. *)
Definition last_binding (entries : list (rstr * rstr * VerificationKey)) (s k : rstr) : option VerificationKey :=
  snd <$> last (filter (fun e => e.1 = (s, k)) entries).

Lemma load_trust_entries_spec (r r' : InMemoryTrustResolver) array :
  load_trust_entries r array = Ok r' ->
  exists entries, Forall2 (fun v e => trust_entry v = Some e) array entries /\
    r' = foldl (fun r e => resolver_insert r (e.1.1) (e.1.2) (e.2)) r entries.
Proof.
  revert r. induction array as [|v array IH]; intros r; cbn [load_trust_entries].
  - intros [= <-]. exists []. by split; [constructor|].
  - destruct (member_str v "signer") as [s|] eqn:E1; cbn [ok_or]; [|done].
    destruct (member_str v "key_id") as [k|] eqn:E2; cbn [ok_or]; [|done].
    destruct (member_str v "public_key") as [pk|] eqn:E3; cbn [ok_or]; [|done].
    destruct (vk_from_b64url pk) as [key|] eqn:E4; cbn [map_err]; [|done].
    intros (entries & E & ->)%IH. exists ((s, k, key) :: entries). split; [|done]. constructor; [|done].
    unfold trust_entry. rewrite E1, E2, E3. cbn. by rewrite E4.
Qed.

Lemma trust_entries_lookup entries (r : InMemoryTrustResolver) s k :
  str_wf s -> str_wf k -> Forall (fun e : rstr * rstr * VerificationKey => str_wf (e.1.1) /\ str_wf (e.1.2)) entries ->
  in_memory_resolve (foldl (fun r e => resolver_insert r (e.1.1) (e.1.2) (e.2)) r entries) s k =
  match last_binding entries s k with Some key => Ok key | None => in_memory_resolve r s k end.
Proof.
  intros Ws Wk Hw. revert r. induction entries as [|[[s' k'] key] entries IH] using rev_ind; intros r; [done|].
  apply Forall_app in Hw as [Hw [[Ws' Wk'] _]%Forall_cons]. cbn [fst snd] in *.
  rewrite foldl_app. cbn [foldl fst snd]. unfold last_binding. rewrite filter_app, filter_cons, filter_nil. cbn [fst snd].
  unfold in_memory_resolve at 1. cbn [resolver_insert bindings]. case_decide as E.
  - injection E as -> ->. rewrite lookup_insert_eq, last_snoc. done.
  - rewrite lookup_insert_ne; [|intros [-> ->]%compose_key_inj; done]. rewrite app_nil_r. apply (IH Hw).
Qed.

Lemma member_str_wf v k s : value_wf v -> member_str v k = Some s -> str_wf s.
Proof.
  unfold member_str. intros Hv. destruct (get (str k) v) as [x|] eqn:E; cbn [mbind option_bind]; [|done].
  assert (Hx : value_wf x) by (eapply (value_wf_path [str k] v); [done|cbn; by rewrite E]).
  destruct x; cbn; try done. intros [= <-]. by apply value_wf_string.
Qed.

Lemma trust_entry_wf v e : value_wf v -> trust_entry v = Some e -> str_wf (e.1.1) /\ str_wf (e.1.2).
Proof.
  unfold trust_entry. intros Hv.
  destruct (member_str v "signer") as [s|] eqn:E1; cbn [mbind option_bind]; [|done].
  destruct (member_str v "key_id") as [k|] eqn:E2; cbn [mbind option_bind]; [|done].
  destruct (member_str v "public_key") as [pk|]; cbn [mbind option_bind]; [|done].
  destruct (result_ok _); cbn [mbind option_bind]; [|done]. intros [= <-]. split; by eapply member_str_wf.
Qed.

Lemma load_trust_resolves `{SJ : SerdeJson, SJL : !SerdeJsonLaws} bs r :
  load_trust bs = Ok r ->
  exists array entries, from_slice bs = Some (VArray array) /\ Forall2 (fun v e => trust_entry v = Some e) array entries /\
    forall s k, str_wf s -> str_wf k ->
      in_memory_resolve r s k = match last_binding entries s k with Some key => Ok key | None => Err NotFound end.
Proof.
  unfold load_trust. destruct (from_slice bs) as [v|] eqn:Ev; cbn [ok_or]; [|done]. apply from_slice_wf in Ev as Hv.
  destruct v as [| | | |array|]; try done. intros (entries & Hf & ->)%load_trust_entries_spec. exists array, entries. split_and!; [done..|].
  intros s k Ws Wk. rewrite trust_entries_lookup; [done|done|done|].
  assert (Ha : Forall value_wf array) by (by inversion Hv).
  clear -Ha Hf. induction Hf as [|v e array entries He _ IH]; constructor; [|by apply IH; inversion Ha].
  eapply trust_entry_wf; [|done]. by inversion Ha.
Qed.
End Trust.

(** ** A run that reaches the loop *)

Section Run.
Context `{B64 : Base64, DK : Dalek, HO : !Host, SJ : SerdeJson, LC : Lowercase, FS : Fs, PL : Platform}.

Record started (f : Features) (args : list rstr) (sc : Sidecar) : Prop := {
  st_parsed : parse_args (online_ocsp f) args = Ok (sc_config sc);
  st_modes : o_key_source (c_options (sc_config sc)) = KeyFile -> o_strict (c_options (sc_config sc)) = true ->
    forall path mode, path = c_signing_key_seed (sc_config sc) \/ path = c_tls_key (sc_config sc) -> fs_mode path = Some mode ->
      key_file_mode_is_insecure mode = false;
  st_keys : build_key_source f (sc_config sc) = Ok (sc_keys sc);
  st_trust : exists bs, fs_read (c_trust_path (sc_config sc)) = Some bs /\ load_trust bs = Ok (sc_store sc);
  st_resolver : sc_resolver sc = build_revocation_resolver (o_revocation_tier (c_options (sc_config sc))) (in_memory_resolve (sc_store sc));
  st_replay : select_replay f (c_options (sc_config sc)) = Ok (sc_replay sc);
  st_durable : o_strict (c_options (sc_config sc)) = true -> backend_class (sc_replay sc) = Durable;
  st_denied : if bool_decide (o_authz (c_options (sc_config sc)) = AuthzReference)
    then exists ids, load_revocation_list (o_revocation_list_paths (c_options (sc_config sc))) = Ok ids /\ sc_denied sc = Some ids
    else sc_denied sc = None;
  st_lb : build_lb_assertion_binding (c_options (sc_config sc)) = Ok (sc_lb sc);
  st_tls : rustls_server_config (sc_tls sc) = true /\ tls_server_cert_chain (sc_keys sc) = Ok (tm_chain (sc_tls sc)) /\
    match tls_delegated_signer (sc_keys sc) with
    | Some signer => tm_key (sc_tls sc) = DelegatedKey signer /\ delegated_validated (tm_chain (sc_tls sc)) signer = Ok tt
    | None => exists key, tls_server_key (sc_keys sc) = Ok key /\ tm_key (sc_tls sc) = ExportedKey key
    end;
  st_options : sc_options sc = serve_options f (c_options (sc_config sc));
}.

Lemma perms_Ok path strict u : check_key_file_perms path strict = Ok u ->
  strict = true -> forall mode, fs_mode path = Some mode -> key_file_mode_is_insecure mode = false.
Proof.
  unfold check_key_file_perms. intros H -> mode E. rewrite E, andb_true_r in H. by destruct (key_file_mode_is_insecure mode).
Qed.

Lemma build_lb_none o : o_binding o <> BindLbAssertion -> build_lb_assertion_binding o = Ok None.
Proof. intros E. unfold build_lb_assertion_binding. by rewrite bool_decide_eq_false_2. Qed.

Lemma run_started f args sc : run f args = Ok sc -> started f args sc.
Proof.
  unfold run. destruct (parse_args (online_ocsp f) args) as [c|] eqn:Ep; cbn [map_err]; [|done].
  destruct (if bool_decide (o_key_source (c_options c) = KeyFile) then _ else _) eqn:Em; [|done].
  destruct (build_key_source f c) as [keys|] eqn:Ek; cbn [map_err]; [|done].
  destruct (tls_server_cert_chain keys) as [chain|] eqn:Ech; cbn [map_err]; [|done].
  destruct (client_ca_roots keys) as [ca|]; cbn [map_err]; [|done].
  destruct (match tls_delegated_signer keys with Some _ => Ok None | None => _ end) as [skey|] eqn:Es; [|done].
  destruct (fs_read (c_trust_path c)) as [bs|] eqn:Et; cbn [ok_or]; [|done].
  destruct (load_trust bs) as [store|] eqn:El; [|done].
  destruct (match o_inner_mode (c_options c) with OneShot => _ | Persistent => _ end); [|done].
  destruct (select_replay f (c_options c)) as [replay|] eqn:Er; [|done].
  destruct (if o_strict (c_options c) && _ then _ else _) eqn:Ed; [|done].
  destruct (if bool_decide (o_authz (c_options c) = AuthzReference) then _ else _) as [denied|] eqn:Ea; [|done].
  destruct (if bool_decide (o_binding (c_options c) = BindLbAssertion) then _ else _) as [lb|] eqn:Eb; [|done].
  destruct (load_client_crls _) as [crls|]; [|done].
  destruct (match tls_delegated_signer keys with Some signer => try? delegated_validated chain signer ;; _ | None => _ end) as [key|] eqn:Ekey; [|done].
  destruct (rustls_server_config _) eqn:Etls; cbn [negb]; [|done]. destruct (tcp_bind _); cbn [negb]; [|done].
  intros [= <-]. split; cbn; try done.
  - intros Hk Hs path mode [->| ->]; rewrite bool_decide_eq_true_2 in Em by done;
      (destruct (check_key_file_perms (c_signing_key_seed c) _) eqn:Ec; [|done]); by eapply perms_Ok.
  - by exists bs.
  - intros Hs. rewrite Hs in Ed. cbn in Ed. destruct (backend_class replay); [done|done].
  - destruct (bool_decide (o_authz _ = _)); [|by simplify_eq]. destruct (load_revocation_list _) as [ids|]; [|done].
    exists ids. by simplify_eq.
  - destruct (bool_decide_reflect (o_binding (c_options c) = BindLbAssertion)); [|simplify_eq; by apply build_lb_none].
    destruct (build_lb_assertion_binding _) as [[b|]|]; cbn in Eb; by simplify_eq.
  - split_and!; [done..|]. destruct (tls_delegated_signer keys) as [signer|].
    + destruct (delegated_validated chain signer) as [[]|]; by simplify_eq.
    + destruct (tls_server_key keys) as [k|]; cbn in Es; simplify_eq. cbn in Ekey. simplify_eq. by exists k.
Qed.

(** The branches that only a broken parser could reach. *)
Definition parser_broken (e : StartupError) : Prop :=
  match e with
  | SInternal _ | SLinearizableOnRedis | SVolatileReplay => True
  | SCli (InvalidLbKey _) => True
  | _ => False
  end.


(** Errors of the outside world, along a chain of steps. *)
Definition external {A} (r : result A StartupError) : Prop := forall e, r = Err e -> ~ parser_broken e.

Lemma external_ok {A} (x : A) : external (Ok x).
Proof. by intros e. Qed.

Lemma external_err {A} e : ~ parser_broken e -> external (Err e : result A StartupError).
Proof. by intros He e' [= <-]. Qed.

Lemma external_bind {A B} (r : result A StartupError) (k : A -> result B StartupError) :
  external r -> (forall x, r = Ok x -> external (k x)) -> external (let? x := r in k x).
Proof. intros Hr Hk. destruct r; [by apply Hk|]. intros e' [= <-]. by apply Hr. Qed.

Lemma external_map_err {A E} (g : E -> StartupError) (r : result A E) : (forall e, ~ parser_broken (g e)) -> external (map_err g r).
Proof. intros Hg. destruct r; [apply external_ok|by apply external_err]. Qed.

Lemma external_ok_or {A} (o : option A) e : ~ parser_broken e -> external (ok_or o e).
Proof. destruct o; [intros _; apply external_ok|apply external_err]. Qed.

Ltac external_step :=
  match goal with
  | |- external (Ok _) => apply external_ok
  | |- external (Err _) => apply external_err; by intros []
  | |- external (map_err _ _) => apply external_map_err; by intros ? []
  | |- external (ok_or _ _) => apply external_ok_or; by intros []
  | |- external (match ?r with Ok _ => _ | Err _ => _ end) => refine (external_bind r _ _ _); [|intros ? ?]
  | |- external (if ?b then _ else _) => destruct b eqn:?
  | |- external (match ?o with Some _ => _ | None => _ end) => destruct o eqn:?
  | |- external (let '_ := _ in _) => cbv zeta
  end.

Lemma load_trust_entries_external (r : InMemoryTrustResolver) array : external (load_trust_entries r array).
Proof. revert r. induction array as [|v array IH]; intros r; cbn [load_trust_entries]; [external_step|]. repeat external_step. apply IH. Qed.

Lemma load_trust_external bs : external (load_trust bs).
Proof.
  unfold load_trust. repeat external_step. match goal with |- external (match ?v with _ => _ end) => destruct v end; repeat external_step.
  apply load_trust_entries_external.
Qed.

Lemma load_revocation_external paths : external (load_revocation_list paths).
Proof. induction paths as [|path paths IH]; cbn [load_revocation_list]; repeat external_step. apply IH. Qed.

Lemma load_crls_external paths : external (load_client_crls paths).
Proof. induction paths as [|path paths IH]; cbn [load_client_crls]; repeat external_step. apply IH. Qed.

Lemma check_perms_external path strict : external (check_key_file_perms path strict).
Proof. unfold check_key_file_perms. destruct (fs_mode path); repeat external_step. Qed.
Lemma select_external `{LL : !LowercaseLaws} f online c : posture online c -> external (select_replay f (c_options c)).
Proof.
  intros Hp. unfold select_replay. destruct (o_replay (c_options c)) eqn:Er; [external_step| |].
  - destruct (po_replay_file _ _ Hp Er) as [path ->]. cbn [ok_or]. repeat external_step.
  - destruct (po_replay_shared _ _ Hp Er) as (tier & -> & Ht). cbn [ok_or]. case_bool_decide as El.
    + rewrite decide_True in Ht by done. destruct Ht as [ep ->]. cbn [ok_or]. unfold build_cpstore_replay_cache. repeat external_step.
    + rewrite decide_False in Ht by done. destruct Ht as [url ->]. cbn [ok_or]. unfold build_shared_replay_cache. repeat external_step.
      destruct tier; by repeat external_step.
Qed.

Lemma select_memory f o : select_replay f o = Ok BackendMemory -> o_replay o = ReplayMemory.
Proof.
  unfold select_replay. destruct (o_replay o); [done| |].
  - destruct (o_replay_path o); cbn [ok_or]; [|done]. by destruct (durable_open _ _ _).
  - destruct (o_replay_durability_tier o) as [t|]; cbn [ok_or]; [|done]. case_bool_decide.
    + destruct (o_cpstore_etcd_endpoint o); cbn [ok_or]; [|done]. unfold build_cpstore_replay_cache. by destruct (negb _).
    + destruct (o_replay_redis_url o); cbn [ok_or]; [|done]. unfold build_shared_replay_cache. destruct (negb _); [done|].
      destruct (negb _); [done|]. by destruct t.
Qed.

Lemma strict_not_volatile `{LL : !LowercaseLaws} f online c replay :
  posture online c -> o_strict (c_options c) = true -> select_replay f (c_options c) = Ok replay -> backend_class replay = Durable.
Proof.
  intros Hp Hs Hr. destruct replay; try done. apply select_memory in Hr. apply (po_strict _ _ Hp) in Hs as (_ & _ & _ & _ & _ & Hm & _). done.
Qed.

Lemma lb_external `{LL : !LowercaseLaws} online c :
  posture online c -> o_binding (c_options c) = BindLbAssertion -> exists b, build_lb_assertion_binding (c_options c) = Ok (Some b).
Proof.
  intros Hp E. destruct (po_lb _ _ Hp) as (_ & Hnd & Hk). unfold build_lb_assertion_binding. rewrite bool_decide_eq_true_2 by done. cbn [negb].
  destruct (add_lb_keys_spec _ (lb_binding_new (identity_source_of (o_identity_source (c_options c)))) Hnd Hk) as (b & -> & _).
  { apply Forall_forall. intros kv _. cbn. set_solver. }
  by exists b.
Qed.

Lemma delegated_external chain signer : external (delegated_validated chain signer).
Proof. unfold delegated_validated, leaf_ed25519_raw_point. repeat external_step. Qed.

(** C33: Start-up relies on the parser only where the parser delivers: on an accepted command line, [run] reaches its loop or ends with
    an error of the outside world (an unreadable or malformed file, a missing key, a refused directory, a store, rustls, the socket),
    never with one of its internal errors, never by finding a linearizable tier handed to Redis or an ingress key that does not decode,
    and never by finding a volatile replay store under strict mode, however the build was configured. *)
Theorem startup_trusts_parser `{LL : !LowercaseLaws} f args c e :
  parse_args (online_ocsp f) args = Ok c -> run f args = Err e -> ~ parser_broken e.
Proof.
  intros Hc. apply parse_args_posture in Hc as Hp. revert e. change (external (run f args)). unfold run. rewrite Hc. cbn [map_err].
  external_step; [repeat external_step; apply check_perms_external|]. repeat external_step.
  - apply load_trust_external.
  - apply external_map_err. by intros ? [].
  - by eapply select_external.
  - exfalso. match goal with H : _ && _ = true |- _ => apply andb_true_iff in H as [Hs Hv%bool_decide_eq_true] end.
    match goal with H : select_replay _ _ = Ok _ |- _ => rewrite (strict_not_volatile _ _ _ _ Hp Hs H) in Hv end. done.
  - apply load_revocation_external.
  - match goal with H : bool_decide (o_binding _ = _) = true |- _ => apply bool_decide_eq_true in H; destruct (lb_external _ _ Hp H) as [b ->] end.
    apply external_ok.
  - match goal with H : bool_decide (o_binding _ = _) = true, H2 : map_err SCli _ = Ok _ |- _ =>
      apply bool_decide_eq_true in H; destruct (lb_external _ _ Hp H) as [b Eb]; rewrite Eb in H2; injection H2 as <- end. apply external_ok.
  - apply load_crls_external.
  - apply delegated_external.
  - destruct (tls_server_key _); cbn in *; simplify_eq. apply external_ok.
Qed.
End Run.

(** ** The files behind the decisions *)

Section Files.
Context `{SJ : SerdeJson, SJL : !SerdeJsonLaws, B64 : !Base64, DK : !Dalek, HO : !Host}.

Lemma policy_of_status ids id :
  in_memory_revocation_status (policy_of ids) id = Ok (if bool_decide (id ∈ ids) then Policy.Revoked else NotRevoked).
Proof.
  assert (Hr : forall s, revoked (foldl revocation_revoke s ids) = list_to_set ids ∪ revoked s).
  { induction ids as [|i ids IH]; intros s; cbn [foldl]; [set_solver|]. rewrite IH. cbn [revocation_revoke revoked list_to_set]. set_solver. }
  unfold in_memory_revocation_status, policy_of. rewrite Hr. cbn [in_memory_revocation_new revoked].
  case_bool_decide as E1; case_bool_decide as E2; try done; set_solver.
Qed.

(** The identifiers of the files, none of them silent. *)
Definition deny_list_of (paths ids : list rstr) : Prop :=
  exists texts, Forall2 (fun path text => from_utf8 <$> fs_read path = Some (Some text) /\ revocation_ids text <> []) paths texts /\
    ids = concat (revocation_ids <$> texts).

Lemma load_revocation_list_spec paths ids : load_revocation_list paths = Ok ids -> deny_list_of paths ids.
Proof.
  revert ids. induction paths as [|path paths IH]; intros ids; cbn [load_revocation_list].
  - intros [= <-]. exists []. by split; [constructor|].
  - destruct (fs_read path) as [bs|] eqn:Er; cbn [ok_or]; [|done]. destruct (from_utf8 bs) as [text|] eqn:Eu; cbn [ok_or]; [|done].
    destruct (is_empty (revocation_ids text)) eqn:Ee; [done|]. destruct (load_revocation_list paths) as [more|]; [|done].
    destruct (IH more eq_refl) as (texts & Hf & ->). intros [= <-]. exists (text :: texts). split; [|done]. constructor; [|done].
    split; [rewrite Er; cbn; by rewrite Eu|by apply not_empty].
Qed.

(** A line names a grant when something is left of it that is no comment. *)
Lemma revocation_ids_spec text id :
  id ∈ revocation_ids text <-> exists line, line ∈ str_lines text /\ id = trim line /\ id <> [] /\ starts_with (str "#") id = false.
Proof.
  unfold revocation_ids. rewrite list_elem_of_In, filter_In, <- list_elem_of_In, list_elem_of_fmap, negb_true_iff, orb_false_iff. split.
  - intros [(line & -> & Hl) [He Hs]]. exists line. split_and!; try done. by apply not_empty.
  - intros (line & Hl & -> & He & Hs). split; [by exists line|]. split; [by destruct (trim line)|done].
Qed.

(** What the sidecar decides with is what its files say.  A sidecar that reached its loop resolves a signer and a key identifier to
    the key of the last entry of the trust file that names the pair and to nothing else, every entry having decoded; and when it
    enforces the reference policy, a grant is reported revoked exactly when its identifier is a line (blank lines and comments aside)
    of one of the configured lists, each of which was readable and named at least one grant. *)
Theorem startup_loads_files `{LC : Lowercase, FS : Fs, PL : Platform} f args sc :
  run f args = Ok sc ->
  (exists bs array entries, fs_read (c_trust_path (sc_config sc)) = Some bs /\ from_slice bs = Some (VArray array) /\
     Forall2 (fun v e => trust_entry v = Some e) array entries /\
     forall s k, str_wf s -> str_wf k ->
       in_memory_resolve (sc_store sc) s k = match last_binding entries s k with Some key => Ok key | None => Err NotFound end) /\
  (forall ids, sc_denied sc = Some ids -> deny_list_of (o_revocation_list_paths (c_options (sc_config sc))) ids /\
     forall id, in_memory_revocation_status (policy_of ids) id = Ok (if bool_decide (id ∈ ids) then Policy.Revoked else NotRevoked)).
Proof.
  intros Hr%run_started. destruct (st_trust _ _ _ Hr) as (bs & Hb & Hl). apply load_trust_resolves in Hl as (array & entries & Hs & Hf & He).
  split; [by exists bs, array, entries|]. intros ids Hi. split; [|intros id; apply policy_of_status].
  pose proof (st_denied _ _ _ Hr) as Hd. destruct (bool_decide _); [|congruence]. destruct Hd as (ids' & Hload & Hi').
  rewrite Hi in Hi'. simplify_eq. by apply load_revocation_list_spec.
Qed.
End Files.

(** ** The sidecar while it runs *)

(** The boxed cache behind the proxy's mutex. *)
Inductive RunningCache (Sv Cn Tr : Type) : Type :=
| RunMemory (c : InMemoryReplayCache)
| RunFile (c : DurableReplayCache)
| RunRedis (c : SharedReplayCache (RedisAtomicReplayStore Sv Cn))
| RunEtcd (c : SharedReplayCache (EtcdAtomicReplayStore Tr)).
Arguments RunMemory {Sv Cn Tr} c.
Arguments RunFile {Sv Cn Tr} c.
Arguments RunRedis {Sv Cn Tr} c.
Arguments RunEtcd {Sv Cn Tr} c.

(** The clients that start-up connects, over the servers they talk to, and the
    texts of file errors. *)
Class StoreClients (Sv Cn Tr : Type) := {
  redis_client_for : rstr -> StoreTimeouts -> option (Z * Z) -> RedisAtomicReplayStore Sv Cn;
  etcd_client_for : rstr -> Z -> EtcdAtomicReplayStore Tr;
  io_text : DurableReplay.IoError -> rstr;
}.

Section Running.
Context `{SJ : SerdeJson, SS : !SerdeSer, B64 : !Base64, SH : !Sha2, DK : !Dalek}.
Context `{RD : Redis Sv Cn, SB : StandardBase64, ST : SerdeTexts, ET : EtcdTransport Tr, SC : !StoreClients Sv Cn Tr}.

(** Dynamic dispatch. *)
#[export] Instance running_cache : ReplayCache (RunningCache Sv Cn Tr) := {|
  check_and_insert c s a n t :=
    match c with
    | RunMemory c => let (r, c) := in_memory_check_and_insert c s a n t in (r, RunMemory c)
    | RunFile c => let (r, c) := durable_check_and_insert io_text c s a n t in (r, RunFile c)
    | RunRedis c => let (r, c) := shared_check_and_insert c s a n t in (r, RunRedis c)
    | RunEtcd c => let (r, c) := shared_check_and_insert c s a n t in (r, RunEtcd c)
    end;
  durability_class c :=
    match c with
    | RunMemory c => in_memory_durability_class c
    | RunFile c => @durability_class _ (durable_replay_cache io_text) c
    | RunRedis c => durability_class c
    | RunEtcd c => durability_class c
    end |}.

(** The cache start-up gives the proxy; without one it keeps its own. *)
Definition cache_of (skew : Z) (b : ReplayBackend) : RunningCache Sv Cn Tr :=
  match b with
  | BackendMemory => RunMemory (in_memory_new skew)
  | BackendFile c => RunFile c
  | BackendRedis url timeouts wait skew => RunRedis (shared_new (redis_client_for url timeouts wait) skew)
  | BackendEtcd endpoint timeout skew => RunEtcd (shared_new (etcd_client_for endpoint timeout) skew)
  end.

(** Between connections the clock of a file cache goes on, and a store is in
    the hands of its server and the other nodes. *)
Inductive idles : RunningCache Sv Cn Tr -> RunningCache Sv Cn Tr -> Prop :=
| idles_file now c : idles (RunFile c) (RunFile (set_clock now c))
| idles_redis st c : idles (RunRedis c) (RunRedis (shared_new st (src_max_clock_skew_secs c)))
| idles_etcd st c : idles (RunEtcd c) (RunEtcd (shared_new st (src_max_clock_skew_secs c))).

Lemma running_class_insert (c : RunningCache Sv Cn Tr) s a n t : durability_class (check_and_insert c s a n t).2 = durability_class c.
Proof.
  destruct c as [c|c|c|c]; cbn; [by destruct (in_memory_check_and_insert _ _ _ _ _)|by destruct (durable_check_and_insert _ _ _ _ _ _)|..];
    by destruct (shared_check_and_insert _ _ _ _ _).
Qed.

Lemma running_class_idles c c' : idles c c' -> durability_class c' = durability_class c.
Proof. by intros []. Qed.

Lemma cache_of_class skew b : durability_class (cache_of skew b) = backend_class b.
Proof. by destruct b. Qed.

(** Every answer a tier gives or holds is the store's. *)
Definition answers_from (store : InMemoryTrustResolver) (c : BoundedTrustCache) : Prop :=
  forall s k e, tc_cache c !! compose_key s k = Some e -> to_result (ce_outcome e) = in_memory_resolve store s k.

Definition tier_from (store : InMemoryTrustResolver) (r : TieredResolver) : Prop :=
  match r with
  | TierBounded c => answers_from store c
  | TierLive l => live_inner l = in_memory_resolve store
  | TierPush p => answers_from store (pt_cache p)
  end.

Lemma answers_from_subset store c c' :
  (forall k e, tc_cache c' !! k = Some e -> tc_cache c !! k = Some e) -> answers_from store c -> answers_from store c'.
Proof. intros Hs Hc s k e He. by apply Hc, Hs. Qed.

Lemma bounded_resolve_from store now c s k :
  answers_from store c ->
  answers_from store (bounded_resolve (in_memory_resolve store) now c s k).2 /\
  forall key, (bounded_resolve (in_memory_resolve store) now c s k).1 = Ok key -> in_memory_resolve store s k = Ok key.
Proof.
  intros Hc. destruct (bounded_resolve_cases (in_memory_resolve store) now c s k)
    as [(r & Hr & ->)|(_ & _ & c' & -> & Hc')]; cbn [fst snd].
  - split; [done|]. intros key ->. unfold cached in Hr. destruct (tc_poisoned c); [done|].
    apply bind_Some in Hr as (e & He & Hr). destruct (now <? _); [|done]. injection Hr as Hr. by rewrite <- (Hc _ _ _ He).
  - split; [|done]. destruct Hc' as [->|(o & Ho & ->)]; [done|]. intros s' k' e He. cbn [tc_cache with_cache] in He.
    destruct (decide (compose_key s k = compose_key s' k')) as [E|E].
    + rewrite E, lookup_insert_eq in He. injection He as <-. cbn [ce_outcome]. rewrite Ho. unfold in_memory_resolve. by rewrite E.
    + rewrite lookup_insert_ne in He by done. by apply Hc.
Qed.

Lemma evict_all_from store (events : list InvalidationEvent) n c : answers_from store c ->
  answers_from store (foldl (fun acc ev => let (gone, c') := evict acc.2 (ie_signer ev) (ie_key_id ev) in
    ((if gone then S acc.1 else acc.1), c')) (n, c) events).2.
Proof.
  revert n c. induction events as [|ev events IH]; intros n c Hc; cbn [foldl]; [done|].
  destruct (evict (n, c).2 _ _) as [gone c'] eqn:E. apply IH. cbn [snd] in E. unfold evict in E.
  destruct (tc_poisoned c); injection E as _ <-; [done|]. eapply answers_from_subset; [|exact Hc].
  intros k e. cbn [tc_cache with_cache]. rewrite lookup_delete_Some. naive_solver.
Qed.

Lemma tiered_resolve_from store now r s k :
  tier_from store r ->
  tier_from store (tiered_resolve (in_memory_resolve store) now r s k).2 /\
  forall key, (tiered_resolve (in_memory_resolve store) now r s k).1 = Ok key -> in_memory_resolve store s k = Ok key.
Proof.
  destruct r as [c|l|p]; cbn [tier_from tiered_resolve]; intros Hr.
  - pose proof (bounded_resolve_from store now c s k Hr) as H. by destruct (bounded_resolve _ _ _ _ _).
  - cbn. split; [done|]. intros key. unfold live_resolve. by rewrite Hr.
  - unfold push_resolve. set (p1 := (apply_pending_invalidations p).2).
    assert (H1 : answers_from store (pt_cache p1)).
    { subst p1. unfold apply_pending_invalidations. destruct (drain_pending _) as [events ch].
      pose proof (evict_all_from store events 0%nat (pt_cache p) Hr) as H. unfold evict_all. by destruct (foldl _ _ _). }
    pose proof (bounded_resolve_from store now (pt_cache p1) s k H1) as H. by destruct (bounded_resolve _ _ _ _ _).
Qed.

Lemma build_revocation_resolver_from store tier : tier_from store (build_revocation_resolver tier (in_memory_resolve store)).
Proof. destruct tier; cbn; try done; intros s k e He; by rewrite lookup_empty in He. Qed.
End Running.

(** What the handler leaves in the mutex has every property a call keeps. *)
Lemma handle_replay `{SJ : SerdeJson, SS : !SerdeSer, B64 : !Base64, SH : !Sha2, DK : !Dalek, D1 : !Deserialize RequestEnvelope,
    D2 : !Deserialize Draft02RequestEnvelope, RC : ReplayCache C, IS : InnerServer Srv, SJL : !SerdeJsonLaws, L1 : !DeserializeLaws RequestEnvelope,
    L2 : !DeserializeLaws Draft02RequestEnvelope} (P : C -> Prop) p raw now ti header (w w' : World C Srv) out :
  (forall c s a n t, P c -> P (check_and_insert c s a n t).2) ->
  handle_with_transport p raw now ti header w = (out, w') ->
  (forall c, w_replay w = Some c -> P c) -> forall c, w_replay w' = Some c -> P c.
Proof.
  intros HP Hh Hw. unfold handle_with_transport in Hh. destruct (w_replay w) as [replay|] eqn:Er.
  2:{ injection Hh as _ <-. by rewrite Er. }
  destruct (verify_request_dispatch _ _ _ _ _ replay) as [r replay'] eqn:Ev.
  assert (Hr : P replay').
  { specialize (Hw _ eq_refl). destruct (dispatch_cases raw (p_resolver p) (p_config p) now (p_version_policy p) (C := C))
      as [[err He]|(v & c & auth & cid & pre & te & _ & _ & _ & He)]; rewrite He in Ev; [by injection Ev as _ <-|].
    specialize (HP replay (c_signer c) (PipelineSpec.c_audience c) (c_nonce c) te Hw). unfold commit in Ev.
    destruct (check_and_insert _ _ _ _ _) as [[[]|] c1]; by injection Ev as _ <-. }
  enough (w_replay w' = Some replay') as -> by (by intros c [= <-]).
  assert (Hd : forall (w1 : World C Srv) vr out1 w2, dispatch_and_sign p raw vr now (default VNull (v ← from_slice raw; get (str "id") v)) w1 = (out1, w2) ->
    w_replay w2 = w_replay w1).
  { intros w1 vr out1 w2. unfold dispatch_and_sign. destruct (build_forwarded_request _ _ _ _) as [[fwd|]|]; try (by intros [= _ <-]).
    destruct (inner_dispatch _ _). destruct (build_signed_response _ _ _ _ _) as [[]|]; by intros [= _ <-]. }
  destruct r as [vr|]; [|by injection Hh as _ <-]. destruct (policy_refusal _ _ _ _ _); [by injection Hh as _ <-|].
  destruct (lb_verified_identity _ _ _ _); [|by injection Hh as _ <-].
  destruct (match p_transport_binding p with Some _ => _ | None => _ end); [|by injection Hh as _ <-].
  destruct (dispatch_and_sign _ _ _ _ _ _) as [o w2] eqn:Ed. apply Hd in Ed. cbn [w_replay] in Ed.
  destruct o as [[]|]; injection Hh as _ <-; exact Ed.
Qed.

(** ** A strict sidecar, end to end *)

Section Strict.
Context `{SJ : SerdeJson, SJL : !SerdeJsonLaws, SS : !SerdeSer, SSL : !SerdeSerLaws, B64 : !Base64, SH : !Sha2, DK : !Dalek}.
Context `{D1 : !Deserialize RequestEnvelope, D2 : !Deserialize Draft02RequestEnvelope, D3 : !Deserialize ReferenceGrant}.
Context `{L1 : !DeserializeLaws RequestEnvelope, L2 : !DeserializeLaws Draft02RequestEnvelope}.
Context `{RDS : Redis Sv Cn, SB : StandardBase64, ST : SerdeTexts, ET : EtcdTransport Tr, SC : !StoreClients Sv Cn Tr}.
Context `{IS : InnerServer Srv}.
Context `{XC : X509, OD : !OcspDer, RE : !Responder}.
Context `{CK : Clocked Tcp, RD : Read Str, RL : !ReadLaws Str, TL : !Tls Tcp Str, TLL : !TlsLaws Tcp Str}.
Context (instant_max : Z).
Context `{HO : !Host, LC : Lowercase, LL : !LowercaseLaws, FS : Fs, PL : Platform}.

(** The loop's handler over the resolver as it answers at that instant. *)
Definition sidecar_proxy (sc : Sidecar) (resolver : TrustResolver) : Proxy :=
  wire_proxy (sc_config sc) (ks_signer (sc_keys sc)) resolver (sc_denied sc) (sc_lb sc).

Lemma sidecar_proxy_verifies sc resolver :
  p_resolver (sidecar_proxy sc resolver) = resolver /\
  p_version_policy (sidecar_proxy sc resolver) = o_expected_version_policy (c_options (sc_config sc)).
Proof. unfold sidecar_proxy, wire_proxy. by destruct (sc_denied sc), (bool_decide _), (sc_lb sc). Qed.

(** What strict mode promises of a request that reached the inner server. *)
Definition strictly_authenticated (sc : Sidecar) (draw : OcspDraw) (leaf : bytes) (chain : list bytes) (vr : VerifiedRequest) : Prop :=
  exists identity cert max,
    extract_identity leaf (o_identity_source (c_options (sc_config sc))) = Some identity /\
    o_identity_source (c_options (sc_config sc)) <> PolicyCnLegacy /\ ti_value identity = vr_verified_signer vr /\
    x509_from_der leaf = Some cert /\ o_max_client_cert_lifetime (c_options (sc_config sc)) = Some max /\
    0 < x_not_after cert - x_not_before cert <= max /\
    (o_client_ocsp (c_options (sc_config sc)) = OcspRequire -> exists issuer n id request url vet response,
       head chain = Some issuer /\ od_nonce draw = Ok n /\ identifies leaf issuer id /\ ocsp_request_to_der id n = Some request /\
       ocsp_post url request vet = Ok response /\ trusted_answer response issuer id n (od_now draw) StatusGood).

(** What the parts of a strict sidecar are. *)
Lemma strict_parts f args sc flag :
  run f args = Ok sc -> strict_flag flag -> flag ∈ flags_read args ->
  started f args sc /\ posture (online_ocsp f) (sc_config sc) /\ o_strict (c_options (sc_config sc)) = true /\
  identity_strategy (sc_options sc) = DirectTls /\ sc_lb sc = None /\ sc_denied sc = None.
Proof.
  intros Hr Hf Hin. apply run_started in Hr. pose proof (st_parsed _ _ _ Hr) as Hp.
  assert (Hs : o_strict (c_options (sc_config sc)) = true) by (apply (parse_args_strict _ _ _ Hp); eauto).
  apply parse_args_posture in Hp. destruct (po_strict _ _ Hp Hs) as (_ & _ & _ & _ & _ & _ & _ & _ & Hrev & Hb & _ & Ha & _).
  split_and!; try done.
  - rewrite (st_options _ _ _ Hr). cbn. unfold identity_strategy_of. rewrite Hb, Hrev. done.
  - pose proof (st_lb _ _ _ Hr) as Hlb. rewrite build_lb_none in Hlb by (rewrite Hb; done). by injection Hlb.
  - pose proof (st_denied _ _ _ Hr) as Hd. by rewrite Ha in Hd.
Qed.

Lemma strict_admits f args sc flag resolver draw leaf chain hs raw now replay vr replay' :
  run f args = Ok sc -> strict_flag flag -> flag ∈ flags_read args -> vetted (sc_options sc) draw leaf chain ->
  admitted (C := RunningCache Sv Cn Tr) (sidecar_proxy sc resolver) raw now (resolve_identity (Some (leaf :: chain)) (sc_options sc) hs)
    (assertion_header (sc_options sc) hs) replay vr replay' ->
  strictly_authenticated sc draw leaf chain vr.
Proof.
  intros Hr Hf Hin [Hlife Hocsp] (_ & _ & Hch). destruct (strict_parts _ _ _ _ Hr Hf Hin) as (Hst & Hp & Hs & Hstrat & Hlb & Hd).
  destruct (po_strict _ _ Hp Hs) as (_ & (max & Hmax) & _ & Hcn & _ & _ & _ & _ & Hrev & Hb & _ & _ & Hsoft).
  unfold channel_bound, sidecar_proxy, wire_proxy in Hch. rewrite Hlb, Hd, bool_decide_eq_true_2 in Hch by done. cbn in Hch.
  unfold resolve_identity in Hch. rewrite Hstrat, (st_options _ _ _ Hst) in Hch. cbn in Hch.
  destruct (extract_identity leaf _) as [identity|] eqn:Ei; cbn in Hch; [|done]. case_bool_decide as Ev; [|done].
  destruct (Hlife max) as (cert & Hc & Hw).
  { by rewrite (st_options _ _ _ Hst). }
  { by destruct (ok_lifetime _ (po_options _ _ Hp) _ Hmax). }
  exists identity, cert, max. split_and!; try done; try lia.
  intros Hreq. destruct (po_ocsp _ _ Hp) as [Hon _]. specialize (Hon Hreq).
  destruct (Hocsp (ocsp_checker_new (o_ocsp_responder_url (c_options (sc_config sc))) (o_ocsp_soft_fail (c_options (sc_config sc))))) as [_ Hgood].
  { rewrite (st_options _ _ _ Hst). cbn. rewrite Hon. unfold build_ocsp_checker. by rewrite Hreq. }
  apply Hgood. exact Hsoft.
Qed.

(** The state of a running sidecar: its world, with the cache behind the mutex,
    and the resolver of the declared tier. *)
Record Running : Type := { rn_world : World (RunningCache Sv Cn Tr) Srv; rn_resolver : TieredResolver }.

(** The resolver as it answers at [now]. *)
Definition resolver_now (sc : Sidecar) (rn : Running) (now : Z) : TrustResolver :=
  fun s k => (tiered_resolve (in_memory_resolve (sc_store sc)) now (rn_resolver rn) s k).1.

Definition running_handler (sc : Sidecar) (rn : Running) (now : Z) : Handler (World (RunningCache Sv Cn Tr) Srv) :=
  proxy_handler (sidecar_proxy sc (resolver_now sc rn now)) now.

(** What a sidecar comes to: it starts with the cache and the resolver start-up
    built; it serves a connection; a consultation changes the resolver; its
    cache idles; its invalidation channel receives events or loses health. *)
Inductive sidecar_reaches (sc : Sidecar) : Running -> Prop :=
| reaches_start inner :
    sidecar_reaches sc {| rn_world := {| w_replay := Some (cache_of (o_max_clock_skew (c_options (sc_config sc))) (sc_replay sc));
                                         w_inner := inner; w_effects := [] |}; rn_resolver := sc_resolver sc |}
| reaches_serve rn accepted draw now served :
    sidecar_reaches sc rn ->
    serve_once_with_assertion (Tcp := Tcp) (Str := Str) instant_max accepted (sc_options sc) draw (running_handler sc rn now) (rn_world rn) = Some served ->
    sidecar_reaches sc {| rn_world := sv_world served; rn_resolver := rn_resolver rn |}
| reaches_consult rn now s k :
    sidecar_reaches sc rn ->
    sidecar_reaches sc {| rn_world := rn_world rn; rn_resolver := (tiered_resolve (in_memory_resolve (sc_store sc)) now (rn_resolver rn) s k).2 |}
| reaches_idle rn c c' :
    sidecar_reaches sc rn -> w_replay (rn_world rn) = Some c -> idles c c' ->
    sidecar_reaches sc {| rn_world := {| w_replay := Some c'; w_inner := w_inner (rn_world rn); w_effects := w_effects (rn_world rn) |};
                          rn_resolver := rn_resolver rn |}
| reaches_pushed rn p ch :
    sidecar_reaches sc rn -> rn_resolver rn = TierPush p ->
    sidecar_reaches sc {| rn_world := rn_world rn; rn_resolver := TierPush {| pt_cache := pt_cache p; pt_channel := ch |} |}.

(** The cache keeps the durability start-up chose, and the tier answers from
    the trust file. *)
Lemma reaches_inv f args sc rn :
  run f args = Ok sc -> sidecar_reaches sc rn ->
  (forall c, w_replay (rn_world rn) = Some c -> durability_class c = backend_class (sc_replay sc)) /\
  tier_from (sc_store sc) (rn_resolver rn).
Proof.
  intros Hst%run_started Hr. induction Hr as [inner|rn accepted draw now served _ [IH1 IH2] Hs|rn now s k _ [IH1 IH2]
    |rn c c' _ [IH1 IH2] Hc Hi|rn p ch _ [IH1 IH2] Hp]; cbn [rn_world rn_resolver w_replay] in *.
  - split; [intros c [= <-]; apply cache_of_class|]. rewrite (st_resolver _ _ _ Hst). apply build_revocation_resolver_from.
  - split; [|done]. unfold serve_once_with_assertion, serve_session in Hs.
    destruct accepted as [tcp|e]; [|injection Hs as <-; done].
    destruct (apply_socket_timeouts tcp _) as [tcp'|]; [|injection Hs as <-; done].
    destruct (server_session _) as [s0|]; [|injection Hs as <-; done].
    destruct (read_http_request _ s0) as [[[q|e] s1]|]; cbn [mbind option_bind] in Hs; [|injection Hs as <-; done|done].
    destruct (match connection_rejection _ _ _ _ with Some _ => _ | None => _ end); [injection Hs as <-; rewrite reply_world; done|].
    destruct (running_handler _ _ _ _ _ _ _) as [o w'] eqn:Eh. unfold running_handler, proxy_handler in Eh.
    assert (Hw : forall c, w_replay w' = Some c -> durability_class c = backend_class (sc_replay sc)).
    { eapply (handle_replay (fun c => durability_class c = backend_class (sc_replay sc))); [|exact Eh|exact IH1].
      intros. by rewrite running_class_insert. }
    destruct o; injection Hs as <-; [by rewrite reply_world|done].
  - split; [done|]. by apply tiered_resolve_from.
  - split; [|done]. intros c0 [= <-]. rewrite (running_class_idles _ _ Hi). by apply IH1.
  - split; [done|]. rewrite Hp in IH2. exact IH2.
Qed.

(** C3: The whole chain under strict mode.  A sidecar that started with a strict flag and whatever it has come to since (connections
    served, consultations of its resolver, time passing, its store in other hands): the replay cache it runs on declares itself
    durable, no key file it reads is open to group or world, and the connection is the only source of identity (no load-balancer
    assertion, no forwarded header).  Every connection then comes to an end, and if it reached the inner server, the request was read
    from the TLS session over the accepted socket, [leaf] is the certificate the peer of that session proved, the pipeline verified
    the request against that very cache, under a signature by a key that the trust file read at start-up gives for its signer and key
    id, the signer is the name in [leaf] (never the legacy common name), the lifetime of [leaf] is positive and within the configured
    maximum, with OCSP on it was answered [Good] for exactly [leaf] by its issuer or an appointed responder, and exactly one message,
    the forwarded form, was sent. *)
Theorem strict_sidecar_mediates f args sc flag rn (accepted : result Tcp Http.IoError) draw now :
  run f args = Ok sc -> strict_flag flag -> flag ∈ flags_read args -> sidecar_reaches sc rn ->
  (forall c, w_replay (rn_world rn) = Some c -> durability_class c = Durable) /\
  (o_key_source (c_options (sc_config sc)) = KeyFile -> forall path mode,
     path = c_signing_key_seed (sc_config sc) \/ path = c_tls_key (sc_config sc) -> fs_mode path = Some mode -> Z.land mode 0x3F = 0) /\
  identity_strategy (sc_options sc) = DirectTls /\ sc_lb sc = None /\
  exists served, serve_once_with_assertion instant_max accepted (sc_options sc) draw (running_handler sc rn now) (rn_world rn) = Some served /\
    (~ (w_inner (sv_world served) = w_inner (rn_world rn) /\ w_effects (sv_world served) = w_effects (rn_world rn)) ->
     exists q s leaf chain replay vr replay' fwd,
       session_gave instant_max accepted (sc_options sc) q s leaf chain /\
       strictly_authenticated sc draw leaf chain vr /\ w_replay (rn_world rn) = Some replay /\
       verify_request_dispatch (http_body q) (resolver_now sc rn now) (p_config (sidecar_proxy sc (resolver_now sc rn now))) now
         (o_expected_version_policy (c_options (sc_config sc))) replay = (Ok vr, replay') /\
       (exists file v sig pre key, fs_read (c_trust_path (sc_config sc)) = Some file /\ load_trust file = Ok (sc_store sc) /\
          in_memory_resolve (sc_store sc) (vr_verified_signer vr) (vr_key_id vr) = Ok key /\
          from_slice (http_body q) = Some v /\ key_id sig = vr_key_id vr /\ signed_by Request v pre sig key) /\
       build_forwarded_request (sidecar_proxy sc (resolver_now sc rn now)) (http_body q) vr now = Returns (Ok fwd) /\
       w_replay (sv_world served) = Some replay' /\
       dispatched (w_effects (sv_world served)) = dispatched (w_effects (rn_world rn)) ++ [fwd]).
Proof.
  intros Hr Hf Hin Hreach. destruct (strict_parts _ _ _ _ Hr Hf Hin) as (Hst & Hp & Hs & Hstrat & Hlb & Hd).
  destruct (reaches_inv _ _ _ _ Hr Hreach) as [Hclass Htier].
  split; [intros c Hc; rewrite (Hclass c Hc); by apply (st_durable _ _ _ Hst)|]. split.
  { intros Hk path mode Hpath Hm. pose proof (st_modes _ _ _ Hst Hk Hs path mode Hpath Hm) as Hi. unfold key_file_mode_is_insecure in Hi.
    apply negb_false_iff in Hi. lia. }
  split; [done|]. split; [done|]. set (resolver := resolver_now sc rn now).
  destruct (serve_mediates_holds instant_max (sidecar_proxy sc resolver) accepted (sc_options sc) draw now (rn_world rn)) as (served & Hsv & H).
  1-2: rewrite (st_options _ _ _ Hst); cbn; pose proof (ok_header _ (po_options _ _ Hp)); pose proof (ok_body _ (po_options _ _ Hp)); lia.
  exists served. split; [done|]. intros Hch.
  destruct (H Hch) as (q & s & leaf & chain & replay & vr & replay' & fwd & Hg & _ & Hv & _ & Hw & Ha & Hfw & Hw' & _ & Hdis).
  exists q, s, leaf, chain, replay, vr, replay', fwd. destruct (sidecar_proxy_verifies sc resolver) as [E1 E2].
  pose proof Ha as [Hdisp _]. rewrite E1, E2 in Hdisp. split_and!; try done; [by eapply strict_admits|].
  destruct (st_trust _ _ _ Hst) as (file & Hfile & Hload).
  apply dispatch_accepted in Hdisp as (v & c & pre & te & (Hv0 & _) & (_ & _ & _ & key & Hkey & Hsig) & _ & Hpv).
  assert (Hvr : vr_verified_signer vr = c_signer c /\ vr_key_id vr = key_id (c_signature c))
    by (destruct Hpv as [(e & _ & _ & ->)|(e & _ & _ & ->)]; done).
  destruct Hvr as [-> ->]. exists file, v, (c_signature c), pre, key. split_and!; try done.
  apply (proj2 (tiered_resolve_from (sc_store sc) now (rn_resolver rn) (c_signer c) (key_id (c_signature c)) Htier)). exact Hkey.
Qed.
End Strict.

(** ** A sample start *)

Import Toy ToyProxy ToyPolicy.

#[local] Existing Instance ascii_only_lowercase.
#[local] Existing Instance ascii_only_lowercase_laws.
#[local] Existing Instance sample_fs.
#[local] Existing Instance linux.
#[local] Existing Instance session_read.
#[local] Existing Instance session_read_laws.
#[local] Existing Instance session_tls.
#[local] Existing Instance session_tls_laws.
#[local] Existing Instance toy_x509.
#[local] Existing Instance toy_ocsp_der.
#[local] Existing Instance toy_responder.

Definition sample_trust_file : bytes :=
  json_text "[{'signer':'did:a','key_id':'k1','public_key':'" ++ toy_encode (replicate 32 1) ++ json_text "'}]".

#[local] Instance sample_host : Host := {|
  fs_read path := if bool_decide (path = str "trust.json") then Some sample_trust_file else Some [1];
  fs_mode _ := Some 0x180; disk_of _ := {| disk_file := None; disk_unreadable := None; disk_faults := [] |};
  process_env _ := None; pem_certs bs := Some [bs]; pem_key bs := Some bs; pem_crls _ := Some [];
  device_key_source _ := Err (KeyNotFound []); certificate_spki _ := Err []; rustls_server_config _ := true; redis_connect _ _ := true;
  persistent_start _ _ := true; tcp_bind _ := true; wall_clock := 0 |}.

Definition all_features : Features := {| online_ocsp := true; redis_replay := true; cpstore_etcd := true; dev_env_key_source := true |}.

Definition sample_strict_args : list rstr := sample_args ++ [str "--strict"; str "--client-ocsp"; str "require"] ++ sample_inner_command.

#[local] Existing Instance toy_texts.
#[local] Instance sample_standard : StandardBase64 := toy_encode.

(** No store is asked for. *)
#[local] Instance sample_clients : StoreClients ToyServer unit ToyGateway := {|
  redis_client_for _ _ _ := sample_node 0 (toy_server 0 []); etcd_client_for _ _ := sample_etcd_node 0 []; io_text _ := [] |}.

Definition SampleWorld : Type := World (RunningCache ToyServer unit ToyGateway) nat.

#[local] Instance sample_inner : InnerServer nat := toy_inner good_answer.

(** The sidecar as start-up leaves it. *)
Definition sample_running (sc : Sidecar) : Running := {|
  rn_world := {| w_replay := Some (cache_of (o_max_clock_skew (c_options (sc_config sc))) (sc_replay sc)); w_inner := 0%nat; w_effects := [] |} : SampleWorld;
  rn_resolver := sc_resolver sc |}.

(** The sample request over a connection of the sample sidecar. *)
Definition sample_strict_serve (sc : Sidecar) : option (Served Session SampleWorld) :=
  serve_once_with_assertion 1000 (Ok sample_tcp) (sc_options sc) sample_draw
    (running_handler sc (sample_running sc) sample_now) (rn_world (sample_running sc)).

Definition reach (started : result Sidecar StartupError) (serve : Sidecar -> option (Served Session SampleWorld)) : option nat :=
  match started with
  | Ok sc => served ← serve sc; Some (w_inner (sv_world served))
  | Err _ => None
  end.

Lemma reach_steps r serve n :
  reach r serve = Some n -> exists sc served, r = Ok sc /\ serve sc = Some served /\ w_inner (sv_world served) = n.
Proof.
  unfold reach. destruct r as [sc|]; [|done]. destruct (serve sc) as [served|] eqn:E; cbn; [|done]. intros [= <-]. by exists sc, served.
Qed.

Example sample_strict_reached : reach (run all_features sample_strict_args) sample_strict_serve = Some 1%nat.
Proof. vm_compute. reflexivity. Qed.

Lemma sample_strict_flag : str "--strict" ∈ flags_read sample_strict_args.
Proof. apply list_elem_of_In. vm_compute. tauto. Qed.

Lemma strict_sidecar_mediates_witness :
  exists sc served q s leaf chain vr fwd, run all_features sample_strict_args = Ok sc /\ sample_strict_serve sc = Some served /\
    session_gave 1000 (Ok sample_tcp) (sc_options sc) q s leaf chain /\
    strictly_authenticated sc sample_draw leaf chain vr /\ dispatched (w_effects (sv_world served)) = [fwd].
Proof.
  destruct (reach_steps _ _ _ sample_strict_reached) as (sc & served & Hr & Hs & Hi).
  destruct (strict_sidecar_mediates 1000 all_features sample_strict_args sc (str "--strict") (sample_running sc) (Ok sample_tcp) sample_draw sample_now Hr
    (or_introl eq_refl) sample_strict_flag (reaches_start 1000 sc 0%nat)) as (_ & _ & _ & _ & served' & Hs' & H).
  assert (E : served' = served) by (apply (inj Some); exact (eq_trans (eq_sym Hs') Hs)). subst served'.
  destruct H as (q & s & leaf & chain & replay & vr & replay' & fwd & Hg & Ha & _ & _ & _ & _ & _ & Hd).
  { intros [E _]. pose proof (eq_trans (eq_sym Hi) E) as E1. discriminate E1. }
  exists sc, served, q, s, leaf, chain, vr, fwd. split; [exact Hr|]. split; [exact Hs|]. split; [exact Hg|]. split; [exact Ha|exact Hd].
Defined.

(** A host whose port is taken, and one whose trust file is not there. *)
Definition busy_host : Host := {|
  fs_read := @fs_read _ sample_host; fs_mode := @fs_mode _ sample_host; disk_of := @disk_of _ sample_host; process_env _ := None;
  pem_certs bs := Some [bs]; pem_key bs := Some bs; pem_crls _ := Some []; device_key_source _ := Err (KeyNotFound []);
  certificate_spki _ := Err []; rustls_server_config _ := true; redis_connect _ _ := true; persistent_start _ _ := true; tcp_bind _ := false; wall_clock := 0 |}.

Definition err_of {A E} (r : result A E) : option E := match r with Ok _ => None | Err e => Some e end.

Lemma err_of_Some {A E} (r : result A E) e : err_of r = Some e -> r = Err e.
Proof. destruct r; [done|]. by intros [= ->]. Qed.

Lemma sample_accepted : is_ok (parse_args (online_ocsp all_features) sample_strict_args) = true.
Proof. vm_compute. reflexivity. Qed.
Lemma sample_busy : err_of (@run _ _ busy_host _ _ _ _ all_features sample_strict_args) = Some SBind.
Proof. vm_compute. reflexivity. Qed.

Lemma startup_trusts_parser_witness : ~ parser_broken SBind.
Proof.
  destruct (parse_args (online_ocsp all_features) sample_strict_args) as [c|e] eqn:Ec.
  - exact (@startup_trusts_parser _ _ busy_host _ _ _ _ _ all_features sample_strict_args c SBind Ec (err_of_Some _ _ sample_busy)).
  - pose proof sample_accepted as H. rewrite Ec in H. discriminate H.
Defined.

(** ** Combinations that are accepted *)

(** The load-balancer assertion together with a forwarded identity header: accepted, and the header is never read. *)
Definition sample_both_args : list rstr :=
  sample_args ++ sample_lb ++
  [str "--reverse-proxy-identity-header"; str "x-client-id"; str "--max-client-cert-lifetime"; str "none"] ++ sample_inner_command.

Theorem forwarded_header_ignored :
  exists c, parse_args false sample_both_args = Ok c /\ o_reverse_proxy_identity_header (c_options c) = Some (str "x-client-id") /\
    identity_strategy_of (c_options c) = LbAssertionStrategy.
Proof. eexists. split; [vm_compute; reflexivity|]. split; reflexivity. Qed.

(** With the read timeout off, the connection to the store is bounded and its reads are not. *)
Theorem store_reads_unbounded url tier skew write :
  tier <> Linearizable -> redis_connect url {| st_connect := 30; st_read := None; st_write := write |} = true ->
  exists wait, build_shared_replay_cache all_features url skew None write tier =
    Ok (BackendRedis url {| st_connect := 30; st_read := None; st_write := write |} wait skew).
Proof. intros Ht Hc. unfold build_shared_replay_cache. cbn. destruct tier; try done; by eexists. Qed.

Definition sample_unbounded_args : list rstr :=
  take 18 sample_args ++ [str "--replay-cache"; str "shared"; str "--replay-durability-tier"; str "redis-async";
    str "--replay-redis-url"; str "redis://r"; str "--read-timeout-secs"; str "0"] ++ sample_inner_command.

Example sample_unbounded_accepted :
  match parse_args false sample_unbounded_args with Ok c => sl_read_timeout (o_limits (c_options c)) | Err _ => Some 1 end = None.
Proof. vm_compute. reflexivity. Qed.
