(* ===== verification/KmsTheorems.v ===== *)
(** * Theorems of the cloud-service signers

    Whatever a service answers, only signatures that verify under the
    advertised key leave the sidecar; over a service that holds the key, both
    adapters build and sign; and a cached access token is used only while it
    is valid. *)

From S2P Require Import Prelude Utf8 Strings Errors Json Canonical CanonicalRound Signing Time Crypto Envelope Values Instances.
From S2P Require Import Unwrap Http Ocsp KeySource EtcdStore Sigv4 Kms Proxy.

(** ** Any service *)

Lemma ed25519_raw_point_from_spki_Ok der raw :
  ed25519_raw_point_from_spki der = Ok raw <-> der = ED25519_SPKI_PREFIX ++ raw /\ length raw = ED25519_PUBLIC_KEY_LEN.
Proof.
  unfold ed25519_raw_point_from_spki. split.
  - case_bool_decide as Hl; [|done]. case_bool_decide as Hp; [|done]. intros [= <-].
    split; [rewrite <- Hp at 1; symmetry; apply take_drop|]. rewrite length_drop, Hl. reflexivity.
  - intros [-> Hr]. rewrite bool_decide_eq_true_2 by (rewrite length_app, Hr; reflexivity).
    rewrite take_app_length, bool_decide_eq_true_2, drop_app_length by done. done.
Qed.

Section Any.
Context `{SJ : SerdeJson, SS : SerdeSer, TX : SerdeTexts, SB : StandardBase64, SD : StandardDecode}.
Context `{B64 : Base64, DK : Dalek}.

(** The seam keeps the contract of a response signer over any backend. *)
#[export] Instance kms_signer_laws (b : KmsEd25519Backend) : SignerLaws (kms_response_signer b).
Proof.
  split. intros pre sg key Hs Hk. cbn in Hs, Hk. destruct (sign_raw_ed25519 b pre) as [sig|]; [|done]. cbn in Hs.
  case_bool_decide; [|done]. cbn in Hs. rewrite Hk in Hs. cbn in Hs.
  destruct (verify_ed25519 pre (b64url_encode sig) key) as [[]|] eqn:E; [|done]. cbn in Hs. congruence.
Qed.

Lemma verify_before_return_Ok f g (k : KmsKey) pre sig sig' :
  verify_before_return f g k pre sig = Ok sig' ->
  sig' = sig /\ length sig = KMS_SIGNATURE_LEN /\ verify_ed25519 pre (b64url_encode sig) (kk_verify_key k) = Ok tt.
Proof.
  unfold verify_before_return. case_bool_decide; [|done]. cbn.
  destruct (verify_ed25519 _ _ _) as [[]|]; [|done]. cbn. by intros [= ->].
Qed.

Lemma kms_key_Ok service der (k : KmsKey) :
  kms_key service der = Ok k ->
  kk_spki_der k = der /\ exists raw, der = ED25519_SPKI_PREFIX ++ raw /\ length raw = ED25519_PUBLIC_KEY_LEN /\
    vk_from_bytes raw = Ok (kk_verify_key k).
Proof.
  unfold kms_key. destruct (ed25519_raw_point_from_spki der) as [raw|] eqn:Er; [|done]. cbn.
  apply ed25519_raw_point_from_spki_Ok in Er as [-> Hl].
  destruct (vk_from_bytes raw) as [vk|] eqn:Ev; [|done]. intros [= <-]. split; [done|]. by exists raw.
Qed.

(** A backend over a validated key: what it advertises and what it signs. *)
Definition backend_of (b : KmsEd25519Backend) (k : KmsKey) : Prop :=
  (exists client key_id, aws_with_client client key_id = Ok k /\ b = aws_backend client key_id k) \/
  (exists t, gcp_with_transport t = Ok k /\ b = gcp_backend t k).

Lemma backend_key b k :
  backend_of b k -> public_key_spki_der b = Ok (kk_spki_der k) /\ exists service, kms_key service (kk_spki_der k) = Ok k.
Proof.
  intros [(client & key_id & Hw & ->)|(t & Hw & ->)]; (split; [done|]).
  - unfold aws_with_client in Hw. destruct (client _ _) as [resp|]; [|done]. cbn in Hw.
    destruct (parse_get_public_key_response resp) as [der|]; [|done]. cbn in Hw. exists (str "aws-kms").
    by destruct (kms_key_Ok _ _ _ Hw) as [-> _].
  - unfold gcp_with_transport in Hw. destruct (gcp_get_public_key t) as [resp|]; [|done]. cbn in Hw.
    destruct (parse_public_key_response resp) as [der|]; [|done]. cbn in Hw. exists (str "gcp-kms").
    by destruct (kms_key_Ok _ _ _ Hw) as [-> _].
Qed.

(** Both cloud adapters fail closed against every service: whatever it
    answers, the key a backend advertises, for responses and for handshakes, is
    the Ed25519 key of the public-key document it validated when it was built;
    every signature it returns is 64 bytes long and verifies under that key;
    and so does every response signature made from it, while a delegated
    handshake is signed for Ed25519 only, with 64 bytes. *)
Theorem backend_facts b k :
  backend_of b k ->
  response_public_key (kms_response_signer b) = Ok (kk_verify_key k) /\
  (exists raw, tls_public_key_spki_der (kms_tls_signer b) = Ok (ED25519_SPKI_PREFIX ++ raw) /\
     vk_from_bytes raw = Ok (kk_verify_key k)) /\
  (forall pre sig, sign_raw_ed25519 b pre = Ok sig ->
     length sig = KMS_SIGNATURE_LEN /\ verify_ed25519 pre (b64url_encode sig) (kk_verify_key k) = Ok tt) /\
  (forall pre sg, sign_response (kms_response_signer b) pre = Ok sg -> verify_ed25519 pre sg (kk_verify_key k) = Ok tt) /\
  (forall offered f message sig, choose_scheme (kms_tls_signer b) offered = Some f -> f message = Ok sig ->
     SCHEME_ED25519 ∈ offered /\ length sig = KMS_SIGNATURE_LEN /\
     verify_ed25519 message (b64url_encode sig) (kk_verify_key k) = Ok tt).
Proof.
  intros Hb. destruct (backend_key b k Hb) as [Hpk (service & Hk)]. apply kms_key_Ok in Hk as (_ & raw & Hder & Hlen & Hvk).
  assert (Hresp : kms_public_key b = Ok (kk_verify_key k)).
  { unfold kms_public_key. rewrite Hpk. cbn. rewrite Hder, (proj2 (ed25519_raw_point_from_spki_Ok _ raw)) by done. cbn. by rewrite Hvk. }
  assert (Hsign : forall pre sig, sign_raw_ed25519 b pre = Ok sig ->
     length sig = KMS_SIGNATURE_LEN /\ verify_ed25519 pre (b64url_encode sig) (kk_verify_key k) = Ok tt).
  { intros pre sig Hs. destruct Hb as [(client & key_id & _ & ->)|(t & _ & ->)]; cbn in Hs.
    - destruct (client _ _) as [resp|]; [|done]. cbn in Hs. destruct (aws_parse_sign_response resp) as [s|]; [|done]. cbn in Hs.
      by apply verify_before_return_Ok in Hs as (-> & ? & ?).
    - destruct (asymmetric_sign t _) as [resp|]; [|done]. cbn in Hs. destruct (gcp_parse_sign_response resp) as [s|]; [|done]. cbn in Hs.
      by apply verify_before_return_Ok in Hs as (-> & ? & ?). }
  split; [exact Hresp|]. split; [exists raw; cbn; rewrite Hpk, Hder; done|]. split; [done|]. split.
  - intros pre sg Hs. by eapply (signer_signs (s := kms_response_signer b)).
  - intros offered f message sig. unfold choose_scheme. case_bool_decide as Ho; [|done]. intros [= <-]. unfold delegated_tls_sign. cbn.
    destruct (sign_raw_ed25519 b message) as [s|] eqn:Es; [|done]. cbn. case_bool_decide; [|done]. intros [= <-].
    split; [done|]. by apply Hsign.
Qed.
End Any.

(** ** A service that holds the key *)

Definition b64_char (c : rchar) : bool :=
  in_range 65 90 c || in_range 97 122 c || in_range 48 57 c || bool_decide (c = 43) || bool_decide (c = 47) || bool_decide (c = 61).

(** The documented behaviour of the standard alphabet. *)
Class StandardLaws `{StandardBase64, StandardDecode} : Prop := {
  standard_roundtrip bs : bytes_wf bs -> standard_decode (standard_encode bs) = Ok bs;
  standard_chars bs : bytes_wf bs -> Forall (fun c => b64_char c = true) (standard_encode bs);
  standard_nonempty bs : bs <> [] -> standard_encode bs <> [];
}.

Lemma b64_char_plain c : b64_char c = true -> is_whitespace c = false /\ c <> 10 /\ c <> 13 /\ c <> 45 /\ is_scalar c = true.
Proof.
  unfold b64_char, in_range. rewrite !orb_true_iff, !andb_true_iff, !bool_decide_eq_true, !Z.leb_le. intros H.
  assert (43 <= c <= 122 /\ c <> 45) by lia. unfold is_whitespace, in_range. rewrite is_scalar_spec. split_and!; [|lia..].
  by zguard.
Qed.

(** *** The PEM text *)

Lemma lines_from_line part a rest :
  10 ∉ a -> 13 ∉ part ++ a -> lines_from part (a ++ 10 :: rest) = (part ++ a) :: lines_from [] rest.
Proof.
  revert part. induction a as [|c a IH]; intros part H10 H13; cbn [lines_from app].
  - change (10 =? 10) with true. cbv iota. rewrite app_nil_r in H13 |- *.
    destruct (strip_suffix [13] part) as [line|] eqn:E; [|done]. apply strip_suffix_Some in E. subst part. set_solver.
  - apply not_elem_of_cons in H10 as [Hc H10]. destruct (Z.eqb_spec c 10); [congruence|].
    rewrite IH; [by rewrite <- app_assoc|done|by rewrite <- app_assoc].
Qed.

Definition plain_line (a : rstr) : Prop := Forall (fun c => b64_char c = true) a.

Lemma plain_line_text a : plain_line a -> (10 ∉ a) /\ (13 ∉ a) /\ trim a = a /\ (a <> [] -> forall rest, starts_with (str "-----" ++ rest) a = false).
Proof.
  intros Ha. unfold plain_line in Ha. rewrite Forall_forall in Ha.
  assert (Hno : forall c, c = 10 \/ c = 13 -> c ∉ a).
  { intros c Hc Hin. apply Ha, b64_char_plain in Hin as (_ & ? & ? & _). lia. }
  split_and!; [apply Hno; auto|apply Hno; auto| |].
  - destruct a as [|c a]; [done|]. apply trim_padded; [done|]. apply Forall_forall. intros x Hx. by apply Ha, b64_char_plain in Hx as [? _].
  - intros Hne rest. destruct (starts_with _ a) eqn:E; [|done]. apply starts_with_spec in E as [t ->].
    assert (H45 : b64_char 45 = true) by (apply Ha; by left). done.
Qed.

Lemma pem_lines_body fuel b64 rest :
  (length b64 <= fuel)%nat -> plain_line b64 ->
  pem_body true (lines_from [] (pem_lines fuel b64 ++ PEM_END ++ [10] ++ rest)) = b64.
Proof.
  revert b64. induction fuel as [|fuel IH]; intros b64 Hl Hp.
  { destruct b64; [|cbn in Hl; lia]. cbn [pem_lines app]. rewrite (lines_from_line [] PEM_END rest) by (apply (bool_decide_unpack _); vm_compute; exact I).
    cbn [app pem_body]. reflexivity. }
  cbn [pem_lines]. destruct b64 as [|c b64].
  { cbn [is_empty app]. rewrite (lines_from_line [] PEM_END rest) by (apply (bool_decide_unpack _); vm_compute; exact I). reflexivity. }
  cbn [is_empty]. set (all := c :: b64) in *. rewrite <- !app_assoc. cbn [app].
  assert (Ht : plain_line (take 64 all)) by (by apply Forall_take). assert (Hd : plain_line (drop 64 all)) by (by apply Forall_drop).
  destruct (plain_line_text _ Ht) as (H10 & H13 & Htrim & Hdash). rewrite lines_from_line by done. cbn [app pem_body]. rewrite Htrim.
  change (str "-----BEGIN") with (str "-----" ++ str "BEGIN"). change (str "-----END") with (str "-----" ++ str "END").
  rewrite !Hdash by done.
  cbn [app] in IH. rewrite (IH (drop 64 all)); [apply take_drop| |done]. rewrite length_drop. unfold all in Hl |- *. cbn [length] in Hl |- *. lia.
Qed.

Lemma spki_der_from_pem_of `{SL : StandardLaws} bs :
  bytes_wf bs -> bs <> [] -> spki_der_from_pem (pem_of (standard_encode bs)) = Ok bs.
Proof.
  intros Hb Hne%standard_nonempty. unfold spki_der_from_pem, pem_of, str_lines.
  assert (E : pem_body false (lines_from [] (PEM_BEGIN ++ [10] ++ pem_lines (length (standard_encode bs)) (standard_encode bs) ++ PEM_END ++ [10])) = standard_encode bs).
  { change ([10] ++ pem_lines (length (standard_encode bs)) (standard_encode bs) ++ PEM_END ++ [10]) with
      (10 :: (pem_lines (length (standard_encode bs)) (standard_encode bs) ++ PEM_END ++ [10])).
    rewrite (lines_from_line [] PEM_BEGIN) by (apply (bool_decide_unpack _); vm_compute; exact I). cbn [app].
    transitivity (pem_body true (lines_from [] (pem_lines (length (standard_encode bs)) (standard_encode bs) ++ PEM_END ++ [10] ++ []))); [reflexivity|].
    apply pem_lines_body; [lia|]. by apply standard_chars. }
  rewrite E. destruct (standard_encode bs) eqn:Ee; [done|]. cbn [is_empty]. rewrite <- Ee, standard_roundtrip by done. done.
Qed.

(** *** The exchanges *)

Section Local.
Context `{SJ : SerdeJson, SS : SerdeSer, TX : SerdeTexts, SB : StandardBase64, SD : StandardDecode}.
Context `{B64 : Base64, DK : Dalek}.
Context `{SSL : !SerdeSerLaws, SW : !SerdeWrites, SL : !StandardLaws, B64L : !Base64Laws, DKL : !DalekLaws}.

(** An object of strings, and what a reader of its bytes finds. *)
Definition strings (members : list (rstr * rstr)) : Value := json_object (prod_map id VString <$> members).

Lemma json_bytes_strings members :
  Forall (fun kv => str_wf kv.1 /\ str_wf kv.2) members ->
  exists v, from_slice (json_bytes (strings members)) = Some v /\
    forall k s, get k (strings members) = Some (VString s) -> get k v = Some (VString s).
Proof.
  intros H. unfold json_bytes. destruct (to_vec_total (strings members)) as [bs E]. rewrite E. cbn [default].
  destruct (to_vec_reads (strings members) bs) as (_ & v & Hv & _ & Hq); [..|done|].
  - apply value_wf_json_object. apply Forall_fmap. eapply Forall_impl; [exact H|]. intros [k s] [Hk Hs]. split; [done|by constructor].
  - apply safe_json_object. apply Forall_fmap, Forall_forall. intros [k s] _. apply safe_string.
  - exists v. split; [done|]. intros k s Hg. destruct (value_equiv_get _ _ _ _ Hq Hg) as (y & Hy & Hs%value_equiv_string). by subst.
Qed.

Lemma standard_wf bs : bytes_wf bs -> str_wf (standard_encode bs).
Proof. intros H%standard_chars. eapply Forall_impl; [exact H|]. intros c Hc. by apply b64_char_plain. Qed.

Lemma sign_bytes_wf key pre : bytes_wf (dalek_sign (sk_inner key) pre).
Proof. apply dalek_sign_wf. Qed.

Lemma pem_lines_wf fuel b64 : str_wf b64 -> str_wf (pem_lines fuel b64).
Proof.
  revert b64. induction fuel as [|fuel IH]; intros b64 H; cbn [pem_lines]; [constructor|]. destruct (is_empty b64); [constructor|].
  apply Forall_app. split; [by apply Forall_take|]. cbn [app]. constructor; [done|]. by apply IH, Forall_drop.
Qed.

Lemma pem_of_wf b64 : str_wf b64 -> str_wf (pem_of b64).
Proof.
  intros H. unfold pem_of. repeat (apply Forall_app; split); try by apply pem_lines_wf.
  - change (str_wf PEM_BEGIN). solve_str_wf.
  - by constructor.
  - change (str_wf PEM_END). solve_str_wf.
  - by constructor.
Qed.

Lemma spki_of_wf key : bytes_wf (spki_of key).
Proof. apply Forall_app. split; [apply (bool_decide_unpack _); vm_compute; exact I|]. apply dalek_vk_wf. Qed.

(** The members of the objects exchanged are ordinary strings. *)
Ltac members_wf :=
  rewrite !Forall_cons, Forall_nil; split_and!; cbn [fst snd]; try exact I; try assumption;
  lazymatch goal with
  | |- str_wf (standard_encode _) => apply standard_wf; first [assumption | apply spki_of_wf | apply sign_bytes_wf]
  | |- str_wf (pem_of _) => apply pem_of_wf, standard_wf, spki_of_wf
  | |- _ => solve_str_wf
  end.

Lemma kms_key_spki service key : kms_key service (spki_of key) = Ok {| kk_spki_der := spki_of key; kk_verify_key := public_key key |}.
Proof.
  unfold kms_key. rewrite (proj2 (ed25519_raw_point_from_spki_Ok _ (vk_to_bytes (public_key key)))).
  - cbn. unfold vk_from_bytes, vk_to_bytes. by rewrite dalek_vk_roundtrip.
  - split; [done|]. apply dalek_vk_length.
Qed.

Lemma verify_before_return_signed f g der key pre :
  verify_before_return f g {| kk_spki_der := der; kk_verify_key := public_key key |} pre (dalek_sign (sk_inner key) pre) =
  Ok (dalek_sign (sk_inner key) pre).
Proof.
  unfold verify_before_return. rewrite bool_decide_eq_true_2 by apply dalek_sign_length. cbn [negb kk_verify_key].
  change (b64url_encode (dalek_sign (sk_inner key) pre)) with (sign key pre). unfold verify_ed25519. by rewrite verify_sign.
Qed.

Definition local_key (key : SigningKey) : KmsKey := {| kk_spki_der := spki_of key; kk_verify_key := public_key key |}.

Lemma sign_raw key pre : b64url_decode (sign key pre) = Ok (dalek_sign (sk_inner key) pre).
Proof. apply b64url_roundtrip, dalek_sign_wf. Qed.

Lemma aws_local_key key key_id : aws_with_client (local_kms_transport key) key_id = Ok (local_key key).
Proof.
  unfold aws_with_client, local_kms_transport. rewrite bool_decide_eq_true_2 by done.
  destruct (json_bytes_strings [(str "KeySpec", KEY_SPEC_ED25519); (str "PublicKey", standard_encode (spki_of key))]) as (v & Hv & Hg).
  { members_wf. }
  unfold parse_get_public_key_response. change (from_slice _) with (from_slice (json_bytes (strings
    [(str "KeySpec", KEY_SPEC_ED25519); (str "PublicKey", standard_encode (spki_of key))]))). rewrite Hv. cbn [ok_or].
  unfold key_spec_of. rewrite (Hg (str "KeySpec") KEY_SPEC_ED25519 eq_refl), (Hg (str "PublicKey") (standard_encode (spki_of key)) eq_refl).
  cbn [as_str ok_or mbind option_bind]. rewrite bool_decide_eq_true_2 by done. cbn [negb].
  rewrite standard_roundtrip by apply spki_of_wf. cbn [map_err]. apply kms_key_spki.
Qed.

Lemma aws_local_sign key key_id pre :
  str_wf key_id -> bytes_wf pre ->
  sign_raw_ed25519 (aws_backend (local_kms_transport key) key_id (local_key key)) pre = Ok (dalek_sign (sk_inner key) pre).
Proof.
  intros Hid Hp. cbn [sign_raw_ed25519 aws_backend]. unfold local_kms_transport.
  rewrite bool_decide_eq_false_2 by done. rewrite bool_decide_eq_true_2 by done.
  destruct (json_bytes_strings [(str "KeyId", key_id); (str "Message", standard_encode pre);
     (str "MessageType", MESSAGE_TYPE_RAW); (str "SigningAlgorithm", SIGNING_ALGORITHM_ED25519)]) as (v & Hv & Hg).
  { members_wf. }
  change (aws_sign_request_body key_id pre) with (json_bytes (strings [(str "KeyId", key_id); (str "Message", standard_encode pre);
     (str "MessageType", MESSAGE_TYPE_RAW); (str "SigningAlgorithm", SIGNING_ALGORITHM_ED25519)])).
  rewrite Hv. cbn [ok_or]. rewrite (Hg (str "Message") (standard_encode pre) eq_refl). cbn [mbind option_bind as_str from_option id].
  rewrite standard_roundtrip by done. cbn [map_err]. rewrite sign_raw. cbn [map_err].
  destruct (json_bytes_strings [(str "Signature", standard_encode (dalek_sign (sk_inner key) pre));
     (str "SigningAlgorithm", SIGNING_ALGORITHM_ED25519)]) as (w & Hw & Hgw).
  { members_wf. }
  unfold aws_parse_sign_response. change (from_slice _) with (from_slice (json_bytes (strings
    [(str "Signature", standard_encode (dalek_sign (sk_inner key) pre)); (str "SigningAlgorithm", SIGNING_ALGORITHM_ED25519)]))).
  rewrite Hw. cbn [ok_or]. rewrite (Hgw (str "Signature") (standard_encode (dalek_sign (sk_inner key) pre)) eq_refl). cbn [mbind option_bind as_str ok_or].
  rewrite standard_roundtrip by apply dalek_sign_wf. cbn [map_err]. apply verify_before_return_signed.
Qed.

Lemma gcp_local_key key : gcp_with_transport (local_gcp_transport key) = Ok (local_key key).
Proof.
  unfold gcp_with_transport. cbn [gcp_get_public_key local_gcp_transport].
  destruct (json_bytes_strings [(str "algorithm", ALGORITHM_ED25519); (str "pem", pem_of (standard_encode (spki_of key)))]) as (v & Hv & Hg).
  { members_wf. }
  unfold parse_public_key_response. change (from_slice _) with (from_slice (json_bytes (strings
    [(str "algorithm", ALGORITHM_ED25519); (str "pem", pem_of (standard_encode (spki_of key)))]))). rewrite Hv. cbn [ok_or].
  rewrite (Hg (str "algorithm") ALGORITHM_ED25519 eq_refl), (Hg (str "pem") (pem_of (standard_encode (spki_of key))) eq_refl).
  cbn [as_str ok_or mbind option_bind]. rewrite bool_decide_eq_true_2 by done. cbn [negb].
  rewrite spki_der_from_pem_of by (done || apply spki_of_wf). apply kms_key_spki.
Qed.

Lemma gcp_local_sign key pre :
  bytes_wf pre -> sign_raw_ed25519 (gcp_backend (local_gcp_transport key) (local_key key)) pre = Ok (dalek_sign (sk_inner key) pre).
Proof.
  intros Hp. cbn [sign_raw_ed25519 gcp_backend asymmetric_sign local_gcp_transport].
  destruct (json_bytes_strings [(str "data", standard_encode pre)]) as (v & Hv & Hg); [members_wf|].
  change (gcp_sign_request_body pre) with (json_bytes (strings [(str "data", standard_encode pre)])).
  rewrite Hv. cbn [ok_or]. rewrite (Hg (str "data") (standard_encode pre) eq_refl). cbn [mbind option_bind as_str from_option id].
  rewrite standard_roundtrip by done. cbn [map_err]. rewrite sign_raw. cbn [map_err].
  destruct (json_bytes_strings [(str "signature", standard_encode (dalek_sign (sk_inner key) pre))]) as (w & Hw & Hgw); [members_wf|].
  unfold gcp_parse_sign_response.
  change (from_slice _) with (from_slice (json_bytes (strings [(str "signature", standard_encode (dalek_sign (sk_inner key) pre))]))).
  rewrite Hw. cbn [ok_or]. rewrite (Hgw (str "signature") (standard_encode (dalek_sign (sk_inner key) pre)) eq_refl). cbn [mbind option_bind as_str ok_or].
  rewrite standard_roundtrip by apply sign_bytes_wf. cbn [map_err]. apply verify_before_return_signed.
Qed.

(** A backend that signs with the key it advertises makes the signature the
    key itself makes. *)
Lemma kms_signs b key pre :
  public_key_spki_der b = Ok (spki_of key) -> sign_raw_ed25519 b pre = Ok (dalek_sign (sk_inner key) pre) ->
  response_public_key (kms_response_signer b) = Ok (public_key key) /\
  sign_response (kms_response_signer b) pre = Ok (sign key pre).
Proof.
  intros Hk Hs. assert (Hp : kms_public_key b = Ok (public_key key)).
  { unfold kms_public_key. rewrite Hk. rewrite (proj2 (ed25519_raw_point_from_spki_Ok _ (vk_to_bytes (public_key key)))).
    - unfold vk_from_bytes, vk_to_bytes. by rewrite dalek_vk_roundtrip.
    - split; [done|]. apply dalek_vk_length. }
  split; [done|]. cbn [sign_response kms_response_signer]. rewrite Hs, bool_decide_eq_true_2 by apply dalek_sign_length.
  cbn [negb]. rewrite Hp. change (b64url_encode (dalek_sign (sk_inner key) pre)) with (sign key pre).
  unfold verify_ed25519. by rewrite verify_sign.
Qed.

(** A key kept in a cloud service signs as the key itself would: over a
    service that holds the key, both adapters read its public-key document
    (base64 DER or a PEM text of 64-character lines) back to the key, and a
    response signed through the request and reply bodies carries the very
    signature of the key. *)
Theorem kms_local_key_signs key key_id pre :
  str_wf key_id -> bytes_wf pre ->
  (exists k, aws_with_client (local_kms_transport key) key_id = Ok k /\
     response_public_key (kms_response_signer (aws_backend (local_kms_transport key) key_id k)) = Ok (public_key key) /\
     sign_response (kms_response_signer (aws_backend (local_kms_transport key) key_id k)) pre = Ok (sign key pre)) /\
  (exists k, gcp_with_transport (local_gcp_transport key) = Ok k /\
     response_public_key (kms_response_signer (gcp_backend (local_gcp_transport key) k)) = Ok (public_key key) /\
     sign_response (kms_response_signer (gcp_backend (local_gcp_transport key) k)) pre = Ok (sign key pre)).
Proof.
  intros Hid Hp. split; exists (local_key key).
  - split; [apply aws_local_key|]. apply kms_signs; [done|]. by apply aws_local_sign.
  - split; [apply gcp_local_key|]. apply kms_signs; [done|]. by apply gcp_local_sign.
Qed.
End Local.

(** ** Access tokens *)

Section Tokens.
Context `{SJ : SerdeJson, TX : SerdeTexts}.

(** Calls of [access_token] in order: each with the exchange at its time. *)
Fixpoint token_calls (time_max : Z) (calls : list ((OutRequest -> HttpOutcome) * Z)) (s : MetadataServerTokenSource) : MetadataServerTokenSource :=
  match calls with
  | [] => s
  | (http, now) :: rest => token_calls time_max rest (metadata_access_token time_max http now s).2
  end.

(** The token in the cache came from one of the calls. *)
Definition fetched_at (time_max : Z) (calls : list ((OutRequest -> HttpOutcome) * Z)) (s : MetadataServerTokenSource) (token : rstr) (expiry : Z) : Prop :=
  exists http t0 expires_in, (http, t0) ∈ calls /\ fetch_token http s = Ok (token, expires_in) /\ expiry = expiry_from_now time_max t0 expires_in.

Definition cache_fetched (time_max : Z) (calls : list ((OutRequest -> HttpOutcome) * Z)) (s : MetadataServerTokenSource) : Prop :=
  forall c, ms_cache s = Some c -> fetched_at time_max calls s (ct_token c) (ct_expires_at c).

Lemma fetched_at_endpoint time_max calls calls' s s' token expiry :
  ms_endpoint s' = ms_endpoint s -> calls ⊆ calls' -> fetched_at time_max calls s token expiry -> fetched_at time_max calls' s' token expiry.
Proof.
  intros He Hsub (http & t0 & e & Hin & Hf & ->). exists http, t0, e. split_and!; [set_solver| |done].
  unfold fetch_token, token_request in *. by rewrite He.
Qed.

Lemma metadata_access_token_cache time_max calls http now s :
  cache_fetched time_max calls s ->
  ms_endpoint (metadata_access_token time_max http now s).2 = ms_endpoint s /\
  cache_fetched time_max (calls ++ [(http, now)]) (metadata_access_token time_max http now s).2.
Proof.
  intros Hc. assert (Hkeep : cache_fetched time_max (calls ++ [(http, now)]) s).
  { intros c Hs. eapply fetched_at_endpoint; [done| |by apply Hc]. set_solver. }
  unfold metadata_access_token. destruct (ms_poisoned s); [done|]. destruct (ms_cache s) as [c|] eqn:Ec; [destruct (_ <? _); [done|]|].
  all: destruct (fetch_token http s) as [[token e]|] eqn:Ef; [|done]; split; [done|]; intros c' [= <-]; exists http, now, e.
  all: split_and!; [set_solver|exact Ef|done].
Qed.

Lemma token_calls_cache time_max calls before s :
  cache_fetched time_max before s ->
  ms_endpoint (token_calls time_max calls s) = ms_endpoint s /\ cache_fetched time_max (before ++ calls) (token_calls time_max calls s).
Proof.
  revert before s. induction calls as [|[http now] calls IH]; intros before s Hc; cbn [token_calls]; [by rewrite app_nil_r|].
  destruct (metadata_access_token_cache time_max before http now s Hc) as [He Hc'].
  destruct (IH _ _ Hc') as [He' Hc'']. rewrite <- app_assoc in Hc''. split; [congruence|done].
Qed.

(** A token is fetched by the call that returns it, or comes from an earlier
    call and is still more than a minute from the expiry the metadata server
    gave it then. *)
Theorem token_fresh time_max endpoint calls http now token :
  (metadata_access_token time_max http now (token_calls time_max calls (metadata_source_new endpoint))).1 = Ok token ->
  (exists expires_in, fetch_token http (metadata_source_new endpoint) = Ok (token, expires_in)) \/
  (exists expiry, fetched_at time_max calls (metadata_source_new endpoint) token expiry /\ now + TOKEN_REFRESH_MARGIN < expiry).
Proof.
  destruct (token_calls_cache time_max calls [] (metadata_source_new endpoint)) as [He Hc]; [done|]. cbn [app] in Hc.
  set (s := token_calls time_max calls (metadata_source_new endpoint)) in *. unfold metadata_access_token.
  destruct (ms_poisoned s); [done|]. assert (Hf : fetch_token http (metadata_source_new endpoint) = fetch_token http s).
  { unfold fetch_token, token_request. by rewrite He. }
  rewrite Hf. destruct (ms_cache s) as [c|] eqn:Ec; [destruct (_ <? _) eqn:El|].
  - cbn. intros [= <-]. right. exists (ct_expires_at c). split; [|by apply Z.ltb_lt].
    eapply fetched_at_endpoint; [symmetry; exact He|done|by apply Hc].
  - destruct (fetch_token http s) as [[t e]|]; [|done]. cbn. intros [= <-]. left. by eexists.
  - destruct (fetch_token http s) as [[t e]|]; [|done]. cbn. intros [= <-]. left. by eexists.
Qed.

Lemma expiry_from_now_bound time_max now e : 0 <= e -> now <= expiry_from_now time_max now e <= now + e * NANOS.
Proof. intros He. unfold expiry_from_now, NANOS. destruct (_ <=? _); lia. Qed.
End Tokens.

(** ** A service to evaluate *)

Import Toy ToyProxy.

#[export] Instance toy_standard_decode : StandardDecode := fun s => ok_or (toy_decode s) (str "Invalid symbol").
#[local] Instance toy_standard : StandardBase64 := toy_encode.
#[local] Instance kms_texts : SerdeTexts := {| value_display _ := []; de_error_display _ := str "expected value"; ser_error_display _ := str "unserializable" |}.

Lemma toy_standard_laws : StandardLaws.
Proof.
  split.
  - intros bs Hb. unfold standard_decode, toy_standard_decode, standard_encode, toy_standard.
    change (toy_decode (toy_encode bs)) with (@base64_decode toy_base64 (@base64_encode toy_base64 bs)).
    by rewrite (@base64_decode_encode toy_base64 toy_base64_laws).
  - intros bs Hb. induction Hb as [|b bs Hb _ IH]; [constructor|]. cbn. repeat constructor; [..|exact IH].
    all: unfold b64_char, in_range; rewrite !orb_true_iff, !andb_true_iff, !Z.leb_le; pose proof (Z.mod_pos_bound b 16); pose proof (Z.div_pos b 16);
      pose proof (Z.div_lt_upper_bound b 16 16); lia.
  - intros [|b bs] Hb; done.
Qed.
#[local] Existing Instance toy_standard_laws.

Definition kms_seed : SigningKey := {| sk_inner := true : DalekSigningKey |}.

Lemma kms_local_key_signs_witness :
  sign_response (kms_response_signer (aws_backend (local_kms_transport kms_seed) (str "alias/mcps") (local_key kms_seed))) (str "preimage") =
  Ok (sign kms_seed (str "preimage")).
Proof.
  destruct (kms_local_key_signs kms_seed (str "alias/mcps") (str "preimage")) as [(k & Hk & _ & Hs) _].
  - apply (bool_decide_unpack _). vm_compute. exact I.
  - apply (bool_decide_unpack _). vm_compute. exact I.
  - rewrite aws_local_key in Hk. injection Hk as <-. exact Hs.
Defined.

(** A service whose signatures do not verify. *)
Example kms_wrong_signature :
  sign_raw_ed25519 (gcp_backend (local_gcp_transport {| sk_inner := false : DalekSigningKey |}) (local_key kms_seed)) (str "preimage") =
  Err (KeyMalformed (str "gcp-kms: KMS signature did NOT verify against the advertised public key: mcps.invalid_signature")).
Proof. vm_compute. reflexivity. Qed.
