(* ===== verification/Pkcs11.v ===== *)
(** * Keys on a token

    [mcps-proxy/src/pkcs11_native.rs], the owned wrapper over the raw PKCS#11
    function list, and [pkcs11_keysource.rs], the key source over it: one
    logged-in session reused across operations, keys found by label and used
    through [C_Sign] only.  The module is a parameter, given by its function
    list over a state of its own; any entry may be absent, and any call may
    report any code.  A call that is given a buffer writes into it: what it
    writes is clipped to the buffer, as a module that writes beyond it has no
    defined behaviour. *)

From S2P Require Import Prelude Utf8 Strings Errors Json Canonical Crypto Http KeySource Sigv4 Kms.

(** ** Computations over a module

    A computation may fail, changes the state either way, and is [None] when a
    loop has not ended within its fuel. *)
Definition Ck (W E A : Type) : Type := W -> option (result A E * W).

Section Monad.
Context {W E : Type}.

#[export] Instance ck_ret : MRet (Ck W E) := fun A a w => Some (Ok a, w).
#[export] Instance ck_bind : MBind (Ck W E) := fun A B k c w =>
  match c w with
  | None => None
  | Some (Err e, w') => Some (Err e, w')
  | Some (Ok a, w') => k a w'
  end.

Definition ck_of {A : Type} (r : result A E) : Ck W E A := fun w => Some (r, w).
Definition ck_do (f : W -> W) : Ck W E unit := fun w => Some (Ok tt, f w).
Definition ck_map_err {A F : Type} (f : E -> F) (c : Ck W E A) : Ck W F A :=
  fun w => prod_map (map_err f) id <$> c w.
End Monad.

(** ** pkcs11_native.rs *)

Definition CK_ULONG_MAX : Z := 18446744073709551615.
Definition CK_TOKEN_LABEL_LEN : nat := 32.
Definition CKR_OK : Z := 0.
Definition CKF_OS_LOCKING_OK : Z := 2.
Definition CKF_RW_SESSION : Z := 2.
Definition CKF_SERIAL_SESSION : Z := 4.
Definition CKU_USER : Z := 1.
Definition CKO_PUBLIC_KEY : Z := 2.
Definition CKO_PRIVATE_KEY : Z := 3.
Definition CKK_EC_EDWARDS : Z := 64.
Definition CKM_EDDSA : Z := 4183.
Definition CKA_CLASS : Z := 0.
Definition CKA_LABEL : Z := 3.
Definition CKA_KEY_TYPE : Z := 256.
Definition CKA_EC_POINT : Z := 385.

Inductive Pkcs11Error : Type :=
| P11Load (msg : rstr)
| P11MissingFunction (name : rstr)
| P11Ck (op : rstr) (rv : Z)
| P11Protocol (msg : rstr).

(** [{rv:08x}]: at least eight lower-case hexadecimal digits. *)
Fixpoint hex_digits (fuel : nat) (n : Z) : rstr :=
  match fuel with
  | O => []
  | S fuel' => if n =? 0 then [] else hex_digits fuel' (n / 16) ++ [hex_digit (n mod 16)]
  end.
Definition display_hex08 (n : Z) : rstr := let d := hex_digits 16 n in replicate (8 - length d) 48 ++ d.

Definition pkcs11_error_display (e : Pkcs11Error) : rstr :=
  match e with
  | P11Load msg => msg
  | P11MissingFunction name => str "module does not export " ++ name ++ str " (null function-list entry)"
  | P11Ck op rv => op ++ str ": CK_RV 0x" ++ display_hex08 rv
  | P11Protocol msg => msg
  end.

(** A [CK_ATTRIBUTE] of a search template. *)
Inductive CkAttribute : Type :=
| CkUlong (type : Z) (value : Z)
| CkBytes (type : Z) (value : bytes).

(** One call of a module: the code it returns and what it writes. *)
Definition CkCall (M O : Type) : Type := M -> (Z * O) * M.

(** The entries of [CK_FUNCTION_LIST] the wrapper uses.  An [option nat] is a
    buffer by its capacity, [None] the null pointer of a length query; the
    answer is what was written and the reported length. *)
Record CkFunctionList (M : Type) : Type := {
  C_Initialize : option (Z -> CkCall M unit);
  C_Finalize : option (CkCall M unit);
  C_GetSlotList : option (option nat -> CkCall M (list Z * Z));
  C_GetTokenInfo : option (Z -> CkCall M bytes);
  C_OpenSession : option (Z -> Z -> CkCall M Z);
  C_CloseSession : option (Z -> CkCall M unit);
  C_Login : option (Z -> Z -> bytes -> CkCall M unit);
  C_FindObjectsInit : option (Z -> list CkAttribute -> CkCall M unit);
  C_FindObjects : option (Z -> nat -> CkCall M (list Z * Z));
  C_FindObjectsFinal : option (Z -> CkCall M unit);
  C_SignInit : option (Z -> Z -> Z -> CkCall M unit);
  C_Sign : option (Z -> bytes -> option nat -> CkCall M (bytes * Z));
  C_GetAttributeValue : option (Z -> Z -> Z -> option nat -> CkCall M (bytes * Z));
}.
Arguments C_Initialize {M}. Arguments C_Finalize {M}. Arguments C_GetSlotList {M}. Arguments C_GetTokenInfo {M}.
Arguments C_OpenSession {M}. Arguments C_CloseSession {M}. Arguments C_Login {M}. Arguments C_FindObjectsInit {M}.
Arguments C_FindObjects {M}. Arguments C_FindObjectsFinal {M}. Arguments C_SignInit {M}. Arguments C_Sign {M}.
Arguments C_GetAttributeValue {M}.

(** [RawLoader::new] and its [C_GetFunctionList] symbol; the list may be null. *)
Class CkLoader (M : Type) :=
  raw_loader_new : rstr -> result (result (CkCall M (option (CkFunctionList M))) rstr) rstr.

(** [vec![0; n]] after a call wrote into it. *)
Definition ck_fill (n : nat) (written : list Z) : list Z := take n (written ++ drop (length written) (replicate n 0)).

(** The label field of [CK_TOKEN_INFO], a buffer of 32 bytes padded with blanks
    (or zeros). *)
Fixpoint strip_padding (label : bytes) : bytes :=
  match label with
  | b :: rest => if (b =? 32) || (b =? 0) then strip_padding rest else label
  | [] => []
  end.
Definition trim_ck_label (label : bytes) : rstr := from_utf8_lossy (reverse (strip_padding (reverse label))).

Inductive ObjectClass : Type := ClassPrivate | ClassPublic.
Definition ck_value (c : ObjectClass) : Z := match c with ClassPrivate => CKO_PRIVATE_KEY | ClassPublic => CKO_PUBLIC_KEY end.

Record AttributeTemplate : Type := { at_class : Z; at_key_type : Z; at_label : bytes }.
Definition ed25519_labelled (class : ObjectClass) (label : rstr) : AttributeTemplate :=
  {| at_class := ck_value class; at_key_type := CKK_EC_EDWARDS; at_label := as_bytes label |}.
Definition as_ck_attributes (t : AttributeTemplate) : list CkAttribute :=
  [CkUlong CKA_CLASS (at_class t); CkUlong CKA_KEY_TYPE (at_key_type t); CkBytes CKA_LABEL (at_label t)].

Section Native.
Context {M : Type}.
#[local] Abbreviation NCk := (Ck M Pkcs11Error).

(** [func!], the call and [check]. *)
Definition invoke {F O : Type} (f : option F) (name op : string) (args : F -> CkCall M O) : NCk O :=
  match f with
  | None => ck_of (Err (P11MissingFunction (str name)))
  | Some f => fun m =>
      let '((rv, out), m') := args f m in
      Some (if rv =? CKR_OK then Ok out else Err (P11Ck (str op) rv), m')
  end.

Definition load_and_initialize `{CkLoader M} (module_path : rstr) : NCk (CkFunctionList M) :=
  match raw_loader_new module_path with
  | Err e => ck_of (Err (P11Load (str "load module '" ++ module_path ++ str "': " ++ e)))
  | Ok (Err e) => ck_of (Err (P11Load (str "module '" ++ module_path ++ str "' does not export C_GetFunctionList: " ++ e)))
  | Ok (Ok get_list) =>
      list ← invoke (Some get_list) "C_GetFunctionList" "C_GetFunctionList" (fun f => f);
      match list with
      | None => ck_of (Err (P11Load (str "module '" ++ module_path ++ str "' returned a null CK_FUNCTION_LIST")))
      | Some fl =>
          _ ← invoke (C_Initialize fl) "C_Initialize" "C_Initialize" (fun f => f CKF_OS_LOCKING_OK);
          mret fl
      end
  end.

Context (fl : CkFunctionList M).

Fixpoint slot_labels (slots : list Z) : NCk (list (Z * rstr)) :=
  match slots with
  | [] => mret []
  | slot :: rest =>
      label ← invoke (C_GetTokenInfo fl) "C_GetTokenInfo" "C_GetTokenInfo" (fun f => f slot);
      out ← slot_labels rest;
      mret ((slot, trim_ck_label (ck_fill CK_TOKEN_LABEL_LEN label)) :: out)
  end.

Definition token_slots : NCk (list (Z * rstr)) :=
  '(_, count) ← invoke (C_GetSlotList fl) "C_GetSlotList" "C_GetSlotList (count)" (fun f => f None);
  '(written, count') ← invoke (C_GetSlotList fl) "C_GetSlotList" "C_GetSlotList (fill)" (fun f => f (Some (Z.to_nat count)));
  slot_labels (take (Z.to_nat count') (ck_fill (Z.to_nat count) written)).

(** [SessionCloser::close], and the destructors that ignore its result. *)
Definition close_session (handle : Z) : NCk unit :=
  invoke (C_CloseSession fl) "C_CloseSession" "C_CloseSession" (fun f => f handle).
Definition close_ignoring (handle : Z) (m : M) : M := match close_session handle m with Some (_, m') => m' | None => m end.

(** [Drop] of [Pkcs11Context]. *)
Definition context_drop (m : M) : M := match C_Finalize fl with Some f => (f m).2 | None => m end.

Definition open_rw_session (slot : Z) : NCk Z :=
  invoke (C_OpenSession fl) "C_OpenSession" "C_OpenSession" (fun f => f slot (Z.lor CKF_SERIAL_SESSION CKF_RW_SESSION)).

Definition login_user (handle : Z) (pin : rstr) : NCk unit :=
  invoke (C_Login fl) "C_Login" "C_Login (CKU_USER)" (fun f => f handle CKU_USER (as_bytes pin)).

(** A session whose login fails is dropped, and so closed. *)
Definition open_logged_in_handle (slot : Z) (pin : rstr) : NCk Z :=
  handle ← open_rw_session slot;
  (fun m =>
     match login_user handle pin m with
     | None => None
     | Some (Err e, m') => Some (Err e, close_ignoring handle m')
     | Some (Ok _, m') => Some (Ok handle, m')
     end) : NCk Z.

Definition PAGE : nat := 16.

Fixpoint find_objects_collect (fuel : nat) (handle : Z) : NCk (list Z) :=
  match fuel with
  | O => fun _ => None
  | S fuel' =>
      '(page, found) ← invoke (C_FindObjects fl) "C_FindObjects" "C_FindObjects" (fun f => f handle PAGE);
      if Z.of_nat PAGE <? found
      then ck_of (Err (P11Protocol (str "C_FindObjects reported " ++ display_unsigned found ++ str " handles into a 16-slot page")))
      else if found =? 0 then mret []
      else
        let handles := take (Z.to_nat found) (ck_fill PAGE page) in
        if found <? Z.of_nat PAGE then mret handles
        else rest ← find_objects_collect fuel' handle; mret (handles ++ rest)
  end.

(** [C_FindObjectsFinal] is called whatever the search gave; its code counts
    only after a search that succeeded. *)
Definition find_objects_raw (fuel : nat) (handle : Z) (template : AttributeTemplate) : NCk (list Z) :=
  _ ← invoke (C_FindObjectsInit fl) "C_FindObjectsInit" "C_FindObjectsInit" (fun f => f handle (as_ck_attributes template));
  (fun m =>
     match find_objects_collect fuel handle m with
     | None => None
     | Some (found, m1) =>
         match C_FindObjectsFinal fl with
         | None => Some (Err (P11MissingFunction (str "C_FindObjectsFinal")), m1)
         | Some finalize =>
             let '((rv, _), m2) := finalize handle m1 in
             Some (let? handles := found in
                   if rv =? CKR_OK then Ok handles else Err (P11Ck (str "C_FindObjectsFinal") rv), m2)
         end
     end) : NCk (list Z).

Definition sign_eddsa_raw (handle key : Z) (data : bytes) : NCk bytes :=
  _ ← invoke (C_SignInit fl) "C_SignInit" "C_SignInit (CKM_EDDSA)" (fun f => f handle CKM_EDDSA key);
  '(_, sig_len) ← invoke (C_Sign fl) "C_Sign" "C_Sign (length query)" (fun f => f handle data None);
  '(written, sig_len') ← invoke (C_Sign fl) "C_Sign" "C_Sign" (fun f => f handle data (Some (Z.to_nat sig_len)));
  let signature := ck_fill (Z.to_nat sig_len) written in
  if Z.of_nat (length signature) <? sig_len'
  then ck_of (Err (P11Protocol (str "C_Sign reported " ++ display_unsigned sig_len' ++ str " bytes into a " ++
         display_unsigned (blen signature) ++ str "-byte buffer")))
  else mret (take (Z.to_nat sig_len') signature).

Definition get_ec_point_raw (handle key : Z) : NCk bytes :=
  '(_, len) ← invoke (C_GetAttributeValue fl) "C_GetAttributeValue" "C_GetAttributeValue (CKA_EC_POINT length)"
                (fun f => f handle key CKA_EC_POINT None);
  if len =? CK_ULONG_MAX then ck_of (Err (P11Protocol (str "CKA_EC_POINT is unavailable on this object")))
  else
    '(written, len') ← invoke (C_GetAttributeValue fl) "C_GetAttributeValue" "C_GetAttributeValue (CKA_EC_POINT)"
                         (fun f => f handle key CKA_EC_POINT (Some (Z.to_nat len)));
    let value := ck_fill (Z.to_nat len) written in
    if Z.of_nat (length value) <? len'
    then ck_of (Err (P11Protocol (str "CKA_EC_POINT reported " ++ display_unsigned len' ++ str " bytes into a " ++
           display_unsigned (blen value) ++ str "-byte buffer")))
    else mret (take (Z.to_nat len') value).
End Native.

(** ** pkcs11_keysource.rs *)

Definition CKR_DEVICE_ERROR : Z := 48.
Definition CKR_DEVICE_REMOVED : Z := 50.
Definition CKR_SESSION_CLOSED : Z := 176.
Definition CKR_SESSION_COUNT : Z := 177.
Definition CKR_SESSION_HANDLE_INVALID : Z := 179.
Definition CKR_USER_NOT_LOGGED_IN : Z := 257.

Inductive SessionOpError : Type := SessionInvalid (e : KeyError) | SessionFatal (e : KeyError).

(** [trait LoginSessionFactory]; a session is closed when it is dropped. *)
Class LoginSessionFactory (F S W : Type) := {
  open_logged_in : F -> Ck W KeyError S;
  session_drop : F -> S -> W -> W;
}.

(** [AmortizedSession], beside the world its sessions live in. *)
Record Amortized (S W : Type) : Type := { am_cached : option S; am_poisoned : bool; am_world : W }.
Arguments am_cached {S W}. Arguments am_poisoned {S W}. Arguments am_world {S W}. Arguments Build_Amortized {S W}.

Definition amortized_new {S W : Type} (w : W) : Amortized S W := {| am_cached := None; am_poisoned := false; am_world := w |}.

Section Amortized.
Context {F S W : Type} `{LF : !LoginSessionFactory F S W} {T : Type}.

Definition MUTEX_POISONED : rstr := str "pkcs11: session mutex poisoned: poisoned lock: another task failed inside".

(** The first attempt failed with an invalid session, which has been dropped:
    one fresh session, kept only when the retried operation succeeds. *)
Definition retry_session (factory : F) (op : S -> Ck W SessionOpError T) (w : W) : option (result T KeyError * Amortized S W) :=
  match open_logged_in factory w with
  | None => None
  | Some (Err e, w1) => Some (Err e, Build_Amortized None false w1)
  | Some (Ok session, w1) =>
      match op session w1 with
      | None => None
      | Some (Ok value, w2) => Some (Ok value, Build_Amortized (Some session) false w2)
      | Some (Err (SessionFatal e), w2) | Some (Err (SessionInvalid e), w2) =>
          Some (Err e, Build_Amortized None false (session_drop factory session w2))
      end
  end.

(** [AmortizedSession::with_session]. *)
Definition with_session (factory : F) (op : S -> Ck W SessionOpError T) : Ck (Amortized S W) KeyError T := fun st =>
  if am_poisoned st then Some (Err (KeyNotFound MUTEX_POISONED), st)
  else
    let attempt session w :=
      match op session w with
      | None => None
      | Some (Ok value, w1) => Some (Ok value, Build_Amortized (Some session) false w1)
      | Some (Err (SessionFatal e), w1) => Some (Err e, Build_Amortized (Some session) false w1)
      | Some (Err (SessionInvalid _), w1) => retry_session factory op (session_drop factory session w1)
      end in
    match am_cached st with
    | Some session => attempt session (am_world st)
    | None =>
        match open_logged_in factory (am_world st) with
        | None => None
        | Some (Err e, w1) => Some (Err e, Build_Amortized None false w1)
        | Some (Ok session, w1) => attempt session w1
        end
    end.
End Amortized.

Definition is_session_invalid (e : Pkcs11Error) : bool :=
  match e with
  | P11Ck _ rv =>
      bool_decide (rv ∈ [CKR_SESSION_HANDLE_INVALID; CKR_SESSION_CLOSED; CKR_SESSION_COUNT; CKR_USER_NOT_LOGGED_IN;
                         CKR_DEVICE_ERROR; CKR_DEVICE_REMOVED])
  | P11Load _ | P11MissingFunction _ | P11Protocol _ => false
  end.

Definition classify_op_error (make_fatal : rstr -> KeyError) (e : Pkcs11Error) : SessionOpError :=
  if is_session_invalid e
  then SessionInvalid (KeyNotFound (str "pkcs11: transient session fault: " ++ pkcs11_error_display e))
  else SessionFatal (make_fatal (pkcs11_error_display e)).

(** [Pkcs11Token]: what does not change; the session is in [Amortized]. *)
Record Pkcs11Token (M : Type) : Type := { tk_context : CkFunctionList M; tk_slot : Z; tk_pin : rstr }.
Arguments tk_context {M}. Arguments tk_slot {M}. Arguments tk_pin {M}.

(** [LoggedInSession] is its handle. *)
#[export] Instance token_factory {M : Type} : LoginSessionFactory (Pkcs11Token M) Z M := {
  open_logged_in t :=
    ck_map_err (fun e => KeyNotFound (str "pkcs11: open+login session: " ++ pkcs11_error_display e))
      (open_logged_in_handle (tk_context t) (tk_slot t) (tk_pin t));
  session_drop t handle m := close_ignoring (tk_context t) handle m;
}.

Definition class_name (c : ObjectClass) : rstr :=
  match c with ClassPrivate => str "CKO_PRIVATE_KEY" | ClassPublic => str "CKO_PUBLIC_KEY" end.

Definition raw_ed25519_point (ec_point : bytes) : result bytes KeyError :=
  if bool_decide (length ec_point = ED25519_PUBLIC_KEY_LEN) then Ok ec_point
  else
    match ec_point with
    | tag :: len :: raw =>
        if bool_decide (length ec_point = (ED25519_PUBLIC_KEY_LEN + 2)%nat) && (tag =? 4) && (len =? Z.of_nat ED25519_PUBLIC_KEY_LEN)
        then Ok raw
        else Err (KeyMalformed (str "pkcs11: CKA_EC_POINT is " ++ display_unsigned (blen ec_point) ++
               str " bytes; expected a raw or OCTET-STRING-wrapped 32-byte Ed25519 point"))
    | _ => Err (KeyMalformed (str "pkcs11: CKA_EC_POINT is " ++ display_unsigned (blen ec_point) ++
             str " bytes; expected a raw or OCTET-STRING-wrapped 32-byte Ed25519 point"))
    end.

Definition ed25519_spki_from_ec_point (ec_point : bytes) : result bytes KeyError :=
  let? raw := raw_ed25519_point ec_point in
  Ok (ED25519_SPKI_PREFIX ++ raw).

(** [str::trim_end]. *)
Definition trim_end (s : rstr) : rstr := reverse (trim_start (reverse s)).

Section Source.
Context `{B64 : Base64, DK : Dalek} {M : Type}.
Context (fuel : nat).
#[local] Abbreviation OpCk := (Ck M SessionOpError).

Definition find_token_slot (fl : CkFunctionList M) (token_label : rstr) : Ck M KeyError Z :=
  slots ← ck_map_err (fun e => KeyNotFound (str "pkcs11: enumerate token slots: " ++ pkcs11_error_display e)) (token_slots fl);
  match List.find (fun sl => bool_decide (trim_end sl.2 = token_label)) slots with
  | Some (slot, _) => mret slot
  | None => ck_of (Err (KeyNotFound (str "pkcs11: no token with label '" ++ token_label ++ str "'")))
  end.

Definition find_key (fl : CkFunctionList M) (handle : Z) (key_label : rstr) (class : ObjectClass) : OpCk Z :=
  handles ← ck_map_err (classify_op_error (fun e => KeyNotFound (str "pkcs11: find key '" ++ key_label ++ str "': " ++ e)))
              (find_objects_raw fl fuel handle (ed25519_labelled class key_label));
  match handles with
  | [] => ck_of (Err (SessionFatal (KeyNotFound (str "pkcs11: no Ed25519 key object labelled '" ++ key_label ++
            str "' (class " ++ class_name class ++ str ")"))))
  | [h] => mret h
  | _ => ck_of (Err (SessionFatal (KeyMalformed (str "pkcs11: " ++ display_unsigned (Z.of_nat (length handles)) ++
           str " Ed25519 key objects labelled '" ++ key_label ++ str "' (class " ++ class_name class ++ str "); refusing to guess"))))
  end.

Definition verify_before_emit (preimage signature : bytes) (verify_key : VerificationKey) : result rstr KeyError :=
  let signature_b64url := b64url_encode signature in
  try? map_err (fun e => KeyMalformed (str
    "pkcs11: C_Sign signature did NOT verify against the token's advertised public key (mis-bound key or prehash/over-hashing CKM mechanism?): "
    ++ wire_code e)) (verify_ed25519 preimage signature_b64url verify_key) ;;
  Ok signature_b64url.

Definition verification_key (fl : CkFunctionList M) (handle : Z) (key_label : rstr) : OpCk VerificationKey :=
  public ← find_key fl handle key_label ClassPublic;
  ec_point ← ck_map_err (classify_op_error (fun e => KeyMalformed (str "pkcs11: read CKA_EC_POINT: " ++ e)))
               (get_ec_point_raw fl handle public);
  raw ← ck_of (map_err SessionFatal (raw_ed25519_point ec_point));
  ck_of (map_err (fun e => SessionFatal (KeyMalformed (str "pkcs11: invalid Ed25519 public key: " ++ wire_code e))) (vk_from_bytes raw)).

(** The find and sign of one session: [what] opens the error texts. *)
Definition find_and_sign (what : string) (fl : CkFunctionList M) (handle : Z) (key_label : rstr) (data : bytes) : OpCk bytes :=
  private ← find_key fl handle key_label ClassPrivate;
  signature ← ck_map_err (classify_op_error (fun e => KeyMalformed (str what ++ str ": C_Sign (CKM_EDDSA): " ++ e)))
                (sign_eddsa_raw fl handle private data);
  if negb (bool_decide (length signature = KMS_SIGNATURE_LEN))
  then ck_of (Err (SessionFatal (KeyMalformed (str what ++ str ": token returned a " ++ display_unsigned (blen signature) ++
         str "-byte signature; expected 64"))))
  else mret signature.

Definition sign_op (fl : CkFunctionList M) (key_label : rstr) (preimage : bytes) (handle : Z) : OpCk rstr :=
  signature ← find_and_sign "pkcs11" fl handle key_label preimage;
  verify_key ← verification_key fl handle key_label;
  ck_of (map_err SessionFatal (verify_before_emit preimage signature verify_key)).

(** [impl ResponseSigner for Pkcs11KeySource]. *)
Definition pkcs11_sign_response (t : Pkcs11Token M) (key_label : rstr) (preimage : bytes) : Ck (Amortized Z M) KeyError rstr :=
  with_session t (sign_op (tk_context t) key_label preimage).

Definition pkcs11_response_public_key (t : Pkcs11Token M) (key_label : rstr) : Ck (Amortized Z M) KeyError VerificationKey :=
  with_session t (fun handle => verification_key (tk_context t) handle key_label).

(** [impl RawEd25519TlsSigner for Pkcs11TlsSigner]. *)
Definition pkcs11_sign_tls_ed25519 (t : Pkcs11Token M) (tls_key_label : rstr) (message : bytes) : Ck (Amortized Z M) KeyError bytes :=
  with_session t (fun handle => find_and_sign "pkcs11 tls" (tk_context t) handle tls_key_label message).

Definition tls_spki_op (fl : CkFunctionList M) (tls_key_label : rstr) (handle : Z) : OpCk bytes :=
  public ← find_key fl handle tls_key_label ClassPublic;
  ec_point ← ck_map_err (classify_op_error (fun e => KeyMalformed (str "pkcs11 tls: read CKA_EC_POINT: " ++ e)))
               (get_ec_point_raw fl handle public);
  ck_of (map_err SessionFatal (ed25519_spki_from_ec_point ec_point)).

Definition pkcs11_tls_public_key_spki_der (t : Pkcs11Token M) (tls_key_label : rstr) : Ck (Amortized Z M) KeyError bytes :=
  with_session t (tls_spki_op (tk_context t) tls_key_label).

(** Both objects of a label exist, once each. *)
Definition prove_keys (fl : CkFunctionList M) (key_label : rstr) (handle : Z) : OpCk unit :=
  _ ← find_key fl handle key_label ClassPrivate;
  _ ← find_key fl handle key_label ClassPublic;
  mret tt.

(** The last reference to a token: the cached session is closed, then the
    module finalized. *)
Definition token_drop (t : Pkcs11Token M) (st : Amortized Z M) : M :=
  context_drop (tk_context t)
    (match am_cached st with Some handle => session_drop t handle (am_world st) | None => am_world st end).

Record Pkcs11KeySource : Type := { p11_token : Pkcs11Token M; p11_tls_key_label : option rstr; p11_key_label : rstr }.

(** [Pkcs11KeySource::open] and [Pkcs11TlsSigner::open].  An error after the
    module was initialized drops what had been built. *)
Definition pkcs11_open `{CkLoader M} (module_path pin token_label key_label : rstr) (tls_key_label : option rstr) (m : M)
  : option (result (Pkcs11KeySource * Amortized Z M) KeyError * M) :=
  match load_and_initialize module_path m with
  | None => None
  | Some (Err e, m1) =>
      Some (Err (KeyNotFound (str "pkcs11: load+initialize module '" ++ module_path ++ str "': " ++ pkcs11_error_display e)), m1)
  | Some (Ok fl, m1) =>
      match find_token_slot fl token_label m1 with
      | None => None
      | Some (Err e, m2) => Some (Err e, context_drop fl m2)
      | Some (Ok slot, m2) =>
          let token := {| tk_context := fl; tk_slot := slot; tk_pin := pin |} in
          let proved :=
            _ ← with_session token (prove_keys fl key_label);
            match tls_key_label with
            | Some label => with_session token (prove_keys fl label)
            | None => mret tt
            end in
          match proved (amortized_new m2) with
          | None => None
          | Some (Err e, st) => Some (Err e, token_drop token st)
          | Some (Ok _, st) =>
              Some (Ok ({| p11_token := token; p11_tls_key_label := tls_key_label; p11_key_label := key_label |}, st), am_world st)
          end
      end
  end.
End Source.
