(* ===== verification/Pkcs11Theorems.v ===== *)
(** * Theorems of the token key source

    For every module: what leaves the source verifies under the key the token
    advertised over the same session.  For a module that keeps track of its
    sessions: exactly the cached session is open after any history of
    operations, and one login serves them all until the token invalidates it.
    For a module whose searches end: every operation returns. *)

From S2P Require Import Prelude Utf8 Strings Errors Json Canonical Crypto Instances Http KeySource Sigv4 Kms KmsTheorems Pkcs11.

(** ** Relations a computation keeps *)

Section Stays.
Context {W : Type} (R : W -> W -> Prop) `{HR : !PreOrder R}.

(** Whatever [c] answers, the state moves along [R]. *)
Definition stays {E A : Type} (c : Ck W E A) : Prop := forall w r w', c w = Some (r, w') -> R w w'.

Lemma stays_of {E A} (r : result A E) : stays (ck_of r).
Proof. by intros w r' w' [= <- <-]. Qed.

Lemma stays_ret {E A} (a : A) : stays (mret a : Ck W E A).
Proof. by intros w r' w' [= <- <-]. Qed.

Lemma stays_bind {E A B} (c : Ck W E A) (k : A -> Ck W E B) : stays c -> (forall a, stays (k a)) -> stays (c ≫= k).
Proof.
  intros Hc Hk w r w' H. unfold mbind, ck_bind in H. destruct (c w) as [[[a|e] w1]|] eqn:E1; [| |done].
  - etransitivity; [by eapply Hc|by eapply Hk].
  - simplify_eq. by eapply Hc.
Qed.

Lemma stays_map_err {E F A} (f : E -> F) (c : Ck W E A) : stays c -> stays (ck_map_err f c).
Proof.
  intros Hc w r w' H. unfold ck_map_err in H. destruct (c w) as [[r0 w0]|] eqn:E1; [|done].
  cbn in H. simplify_eq. by eapply Hc.
Qed.

Lemma stays_invoke {F O} (f : option F) name op (args : F -> CkCall W O) :
  (forall g, f = Some g -> forall m, R m (args g m).2) -> stays (invoke f name op args).
Proof.
  intros H w r w'. unfold invoke. destruct f as [g|]; [|apply stays_of]. specialize (H g eq_refl w).
  destruct (args g w) as [[rv out] m']. by intros [= _ <-].
Qed.
End Stays.

(** Splits a computation at its binds. *)
Ltac stays_binds := repeat lazymatch goal with |- stays _ (_ ≫= _) => apply stays_bind; [apply _| |intros ?] end.

(** ** The cached session, against the interface *)

(** What a factory keeps of its sessions: which are open, and how many logins
    succeeded. *)
Class FactoryLaws (F S W : Type) `{LF : !LoginSessionFactory F S W} (f : F) := {
  live : S -> W -> Prop;
  logins : W -> nat;
  open_Ok w s w' : open_logged_in f w = Some (Ok s, w') ->
    (forall x, live x w' <-> live x w \/ x = s) /\ logins w' = Datatypes.S (logins w);
  open_Err w e w' : open_logged_in f w = Some (Err e, w') -> (forall x, live x w' <-> live x w) /\ logins w' = logins w;
  drop_closes s w : (forall x, live x (session_drop f s w) <-> live x w /\ x <> s) /\ logins (session_drop f s w) = logins w;
}.

Section Sessions.
Context {F S W : Type} `{LF : !LoginSessionFactory F S W} (f : F) `{FL : !FactoryLaws F S W f}.

(** An operation on a session opens none, closes none and does not log in. *)
Definition same_sessions (w w' : W) : Prop := (forall x, live x w' <-> live x w) /\ logins w' = logins w.
#[export] Instance same_sessions_preorder : PreOrder same_sessions.
Proof.
  split; [done|]. intros a b c [H1 L1] [H2 L2]. split; [|congruence]. intros x. rewrite H2. apply H1.
Qed.

Definition quiet {T} (op : S -> Ck W SessionOpError T) : Prop := forall s, stays same_sessions (op s).

(** Exactly the cached session is open. *)
Definition only_cached (st : Amortized S W) : Prop := forall x, live x (am_world st) <-> am_cached st = Some x.

(** The logins made, and the one owed when no session is cached. *)
Definition login_credit (st : Amortized S W) : nat := logins (am_world st) + match am_cached st with Some _ => 0 | None => 1 end.

(** The first attempt of an operation reports its session invalid. *)
Definition session_lost {T} (op : S -> Ck W SessionOpError T) (st : Amortized S W) : Prop :=
  exists s w e w', op s w = Some (Err (SessionInvalid e), w') /\
    (am_cached st = Some s /\ w = am_world st \/ am_cached st = None /\ open_logged_in f (am_world st) = Some (Ok s, w)).

Lemma retry_session_sessions {T} (op : S -> Ck W SessionOpError T) w r st' :
  quiet op -> (forall x, ~ live x w) -> retry_session f op w = Some (r, st') ->
  only_cached st' /\ (login_credit st' <= logins w + 2)%nat.
Proof.
  intros Hq Hw. unfold retry_session. destruct (open_logged_in f w) as [[[s|e] w1]|] eqn:Eo; [| |done].
  - apply open_Ok in Eo as [Hl1 Hc1]. destruct (op s w1) as [[[v|[e|e]] w2]|] eqn:Eop; [| | |done]; intros [= <- <-].
    all: apply Hq in Eop as [Hl2 Hc2]; unfold only_cached, login_credit; cbn; pose proof (drop_closes (f := f) s w2) as [Hd Hdc];
      (split; [intros x; rewrite ?Hd, Hl2, Hl1; specialize (Hw x); naive_solver|rewrite ?Hdc, Hc2, Hc1; lia]).
  - apply open_Err in Eo as [Hl1 Hc1]. intros [= <- <-]. unfold only_cached, login_credit. cbn.
    split; [intros x; rewrite Hl1; specialize (Hw x); naive_solver|lia].
Qed.

Lemma attempt_sessions {T} (op : S -> Ck W SessionOpError T) s w r st' :
  quiet op -> (forall x, live x w <-> x = s) ->
  match op s w with
  | None => None
  | Some (Ok value, w1) => Some (Ok value, Build_Amortized (Some s) false w1)
  | Some (Err (SessionFatal e), w1) => Some (Err e, Build_Amortized (Some s) false w1)
  | Some (Err (SessionInvalid _), w1) => retry_session f op (session_drop f s w1)
  end = Some (r, st') ->
  only_cached st' /\
  ((login_credit st' <= logins w)%nat \/
   (login_credit st' <= logins w + 2)%nat /\ exists e w1, op s w = Some (Err (SessionInvalid e), w1)).
Proof.
  intros Hq Hw. destruct (op s w) as [[[v|[e|e]] w1]|] eqn:Eop; [| | |done].
  - intros [= <- <-]. apply Hq in Eop as [Hl Hc]. unfold only_cached, login_credit. cbn.
    split; [intros x; rewrite Hl, Hw; naive_solver|left; lia].
  - intros Hr. pose proof (Hq _ _ _ _ Eop) as [Hl Hc]. pose proof (drop_closes (f := f) s w1) as [Hd Hdc].
    apply retry_session_sessions in Hr as [? Hb]; [|done|intros x; rewrite Hd, Hl, Hw; naive_solver].
    split; [done|]. right. rewrite Hdc, Hc in Hb. eauto.
  - intros [= <- <-]. apply Hq in Eop as [Hl Hc]. unfold only_cached, login_credit. cbn.
    split; [intros x; rewrite Hl, Hw; naive_solver|left; lia].
Qed.

(** One operation. *)
Lemma with_session_sessions {T} (op : S -> Ck W SessionOpError T) st r st' :
  quiet op -> only_cached st -> with_session f op st = Some (r, st') ->
  only_cached st' /\
  ((login_credit st' <= login_credit st)%nat \/ (login_credit st' <= login_credit st + 2)%nat /\ session_lost op st).
Proof.
  intros Hq Hst. unfold with_session. destruct (am_poisoned st); [by intros [= <- <-]; auto|].
  destruct (am_cached st) as [s|] eqn:Ec.
  - intros Ha. apply attempt_sessions in Ha as [? [Hb|[Hb (e & w1 & Hop)]]]; [| |done|].
    + split; [done|]. left. unfold login_credit at 2. rewrite Ec. lia.
    + split; [done|]. right. unfold login_credit at 2. rewrite Ec. split; [lia|]. exists s, (am_world st), e, w1. auto.
    + intros x. specialize (Hst x). rewrite Ec in Hst. naive_solver.
  - destruct (open_logged_in f (am_world st)) as [[[s|e] w1]|] eqn:Eo; [| |done].
    + pose proof (open_Ok _ _ _ Eo) as [Hl Hc]. intros Ha.
      apply attempt_sessions in Ha as [? [Hb|[Hb (e & w2 & Hop)]]]; [| |done|].
      * split; [done|]. left. unfold login_credit at 2. rewrite Ec. lia.
      * split; [done|]. right. unfold login_credit at 2. rewrite Ec. split; [lia|]. exists s, w1, e, w2. auto.
      * intros x. rewrite Hl. specialize (Hst x). rewrite Ec in Hst. naive_solver.
    + apply open_Err in Eo as [Hl Hc]. intros [= <- <-]. unfold only_cached, login_credit. cbn.
      split; [intros x; rewrite Hl; specialize (Hst x); rewrite Ec in Hst; naive_solver|]. left. rewrite Ec. lia.
Qed.
End Sessions.

(** ** The token *)

(** What PKCS#11 says of sessions: [C_OpenSession] gives a handle that was not
    open, [C_CloseSession] closes it, [C_Login] is the only login, and the
    calls on objects do neither. *)
Definition sessions_kept {M : Type} (is_open : Z -> M -> Prop) (count : M -> nat) (m m' : M) : Prop :=
  (forall x, is_open x m' <-> is_open x m) /\ count m' = count m.

Class CkSessions {M : Type} (fl : CkFunctionList M) := {
  ck_open : Z -> M -> Prop;
  ck_logins : M -> nat;
  law_open g slot flags m : C_OpenSession fl = Some g ->
    let '((rv, h), m') := g slot flags m in
    ck_logins m' = ck_logins m /\ (rv = CKR_OK -> ~ ck_open h m) /\
    forall x, ck_open x m' <-> ck_open x m \/ (rv = CKR_OK /\ x = h);
  law_login g h user pin m : C_Login fl = Some g ->
    let '((rv, _), m') := g h user pin m in
    (forall x, ck_open x m' <-> ck_open x m) /\ ck_logins m' = ((if (rv =? CKR_OK)%Z then 1 else 0) + ck_logins m)%nat;
  law_close : exists g, C_CloseSession fl = Some g /\
    forall h m, ck_logins (g h m).2 = ck_logins m /\ forall x, ck_open x (g h m).2 <-> ck_open x m /\ x <> h;
  law_find_init g h attrs m : C_FindObjectsInit fl = Some g -> sessions_kept ck_open ck_logins m (g h attrs m).2;
  law_find g h n m : C_FindObjects fl = Some g -> sessions_kept ck_open ck_logins m (g h n m).2;
  law_find_final g h m : C_FindObjectsFinal fl = Some g -> sessions_kept ck_open ck_logins m (g h m).2;
  law_sign_init g h mech key m : C_SignInit fl = Some g -> sessions_kept ck_open ck_logins m (g h mech key m).2;
  law_sign g h data buf m : C_Sign fl = Some g -> sessions_kept ck_open ck_logins m (g h data buf m).2;
  law_attribute g h key attr buf m : C_GetAttributeValue fl = Some g -> sessions_kept ck_open ck_logins m (g h key attr buf m).2;
}.

Section Token.
Context `{B64 : Base64, DK : Dalek} {M : Type}.
Context (fuel : nat) (t : Pkcs11Token M) `{CS : !CkSessions (tk_context t)}.
#[local] Abbreviation fl := (tk_context t).
#[local] Abbreviation kept := (sessions_kept (ck_open (fl := fl)) (ck_logins (fl := fl))).

#[export] Instance kept_preorder : PreOrder kept.
Proof.
  split; [done|]. intros a b c [H1 L1] [H2 L2]. split; [|congruence]. intros x. rewrite H2. apply H1.
Qed.

Lemma close_ignoring_closes h m :
  (forall x, ck_open x (close_ignoring fl h m) <-> ck_open x m /\ x <> h) /\ ck_logins (close_ignoring fl h m) = ck_logins m.
Proof.
  destruct law_close as (g & Hg & Hc). unfold close_ignoring, close_session, invoke. rewrite Hg. specialize (Hc h m).
  destruct (g h m) as [[rv u] m']. naive_solver.
Qed.

Lemma open_logged_in_handle_sessions m r m' :
  open_logged_in_handle fl (tk_slot t) (tk_pin t) m = Some (r, m') ->
  match r with
  | Ok h => (forall x, ck_open x m' <-> ck_open x m \/ x = h) /\ ck_logins m' = S (ck_logins m)
  | Err _ => kept m m'
  end.
Proof.
  unfold open_logged_in_handle, mbind, ck_bind, open_rw_session, invoke at 1.
  destruct (C_OpenSession fl) as [g|] eqn:Eg; [|by intros [= <- <-]].
  pose proof (law_open g (tk_slot t) (Z.lor CKF_SERIAL_SESSION CKF_RW_SESSION) m Eg) as Ho.
  destruct (g _ _ m) as [[rv h] m1]. destruct Ho as (Hl & Hn & Ho).
  destruct (Z.eqb_spec rv CKR_OK) as [->|Hrv]; cbn; [|intros [= <- <-]; split; [naive_solver|done]].
  specialize (Hn eq_refl). unfold login_user, invoke. pose proof (close_ignoring_closes h) as Hclose.
  destruct (C_Login fl) as [g'|] eqn:Eg'.
  - pose proof (law_login g' h CKU_USER (as_bytes (tk_pin t)) m1 Eg') as Hlog. destruct (g' _ _ _ m1) as [[rv' u] m2].
    destruct Hlog as [Ho2 Hl2]. destruct (rv' =? CKR_OK); intros [= <- <-].
    + split; [intros x; rewrite Ho2, Ho; naive_solver|lia].
    + destruct (Hclose m2) as [Hx Hy]. split; [intros x; rewrite Hx, Ho2, Ho; naive_solver|rewrite Hy; lia].
  - intros [= <- <-]. destruct (Hclose m1) as [Hx Hy]. split; [intros x; rewrite Hx, Ho; naive_solver|congruence].
Qed.

#[export] Program Instance token_laws : FactoryLaws (Pkcs11Token M) Z M t := {
  live := ck_open;
  logins := ck_logins;
}.
Next Obligation.
  intros w s w' H. cbn in H. unfold ck_map_err in H. destruct (open_logged_in_handle _ _ _ w) as [[[h|e] w1]|] eqn:E; cbn in H; simplify_eq.
  exact (open_logged_in_handle_sessions _ _ _ E).
Qed.
Next Obligation.
  intros w e w' H. cbn in H. unfold ck_map_err in H. destruct (open_logged_in_handle _ _ _ w) as [[[h|e'] w1]|] eqn:E; cbn in H; simplify_eq.
  exact (open_logged_in_handle_sessions _ _ _ E).
Qed.
Next Obligation. intros s w. apply close_ignoring_closes. Qed.

(** *** The operations on a session *)

Lemma find_objects_kept h tpl : stays kept (find_objects_raw fl fuel h tpl).
Proof.
  assert (Hc : forall n, stays kept (find_objects_collect fl n h)).
  { induction n as [|n IH]; [done|]. cbn [find_objects_collect]. apply stays_bind; [apply _| |].
    - apply stays_invoke; [apply _|]. intros g Hg m. by apply law_find.
    - intros [page found]. destruct (_ <? found); [apply stays_of, _|]. destruct (found =? 0); [apply stays_ret, _|].
      destruct (found <? _); [apply stays_ret, _|]. apply stays_bind; [apply _|exact IH|]. intros. apply stays_ret, _. }
  apply stays_bind; [apply _| |].
  - apply stays_invoke; [apply _|]. intros g Hg m. by apply law_find_init.
  - intros _ m r m' H. destruct (find_objects_collect fl fuel h m) as [[found m1]|] eqn:E; [|done]. apply Hc in E.
    destruct (C_FindObjectsFinal fl) as [g|] eqn:Eg; [|by simplify_eq]. pose proof (law_find_final g h m1 Eg) as Hf.
    destruct (g h m1) as [[rv u] m2]. simplify_eq. by etransitivity.
Qed.

Lemma sign_eddsa_kept h key data : stays kept (sign_eddsa_raw fl h key data).
Proof.
  apply stays_bind; [apply _| |intros _; apply stays_bind; [apply _| |intros [? n]; apply stays_bind; [apply _| |intros [? n']]]].
  - apply stays_invoke; [apply _|]. intros g Hg m. by apply law_sign_init.
  - apply stays_invoke; [apply _|]. intros g Hg m. by apply law_sign.
  - apply stays_invoke; [apply _|]. intros g Hg m. by apply law_sign.
  - cbv zeta. destruct (_ <? _); [apply stays_of, _|apply stays_ret, _].
Qed.

Lemma get_ec_point_kept h key : stays kept (get_ec_point_raw fl h key).
Proof.
  apply stays_bind; [apply _| |intros [? n]; destruct (n =? _); [apply stays_of, _|apply stays_bind; [apply _| |intros [? n']]]].
  - apply stays_invoke; [apply _|]. intros g Hg m. by apply law_attribute.
  - apply stays_invoke; [apply _|]. intros g Hg m. by apply law_attribute.
  - cbv zeta. destruct (_ <? _); [apply stays_of, _|apply stays_ret, _].
Qed.

Lemma find_key_kept h label class : stays kept (find_key fuel fl h label class).
Proof.
  apply stays_bind; [apply _|apply stays_map_err, find_objects_kept|].
  intros [|x [|y l]]; [apply stays_of, _|apply stays_ret, _|apply stays_of, _].
Qed.

Lemma verification_key_kept h label : stays kept (verification_key fuel fl h label).
Proof.
  unfold verification_key. stays_binds; [apply find_key_kept|apply stays_map_err, get_ec_point_kept|apply stays_of, _|apply stays_of, _].
Qed.

Lemma find_and_sign_kept what h label data : stays kept (find_and_sign fuel what fl h label data).
Proof.
  unfold find_and_sign. stays_binds; [apply find_key_kept|apply stays_map_err, sign_eddsa_kept|].
  destruct (negb _); [apply stays_of, _|apply stays_ret, _].
Qed.

(** The operations the source runs on a session. *)
Inductive token_op : forall T : Type, (Z -> Ck M SessionOpError T) -> Prop :=
| op_sign label preimage : token_op rstr (sign_op fuel fl label preimage)
| op_public_key label : token_op VerificationKey (fun h => verification_key fuel fl h label)
| op_tls_sign label message : token_op bytes (fun h => find_and_sign fuel "pkcs11 tls" fl h label message)
| op_tls_key label : token_op bytes (tls_spki_op fuel fl label)
| op_prove label : token_op unit (prove_keys fuel fl label).

Lemma token_op_quiet T op : token_op T op -> quiet t op.
Proof.
  intros H s. destruct H.
  - unfold sign_op. stays_binds; [apply find_and_sign_kept|apply verification_key_kept|apply stays_of, _].
  - apply verification_key_kept.
  - apply find_and_sign_kept.
  - unfold tls_spki_op. stays_binds; [apply find_key_kept|apply stays_map_err, get_ec_point_kept|apply stays_of, _].
  - unfold prove_keys. stays_binds; [apply find_key_kept..|apply stays_ret, _].
Qed.

(** Operations in sequence; the number counts those whose session was lost. *)
Inductive token_history : Amortized Z M -> nat -> Amortized Z M -> Prop :=
| th_nil st : token_history st 0 st
| th_op T op st r st1 n st2 : token_op T op -> ~ session_lost t op st ->
    with_session t op st = Some (r, st1) -> token_history st1 n st2 -> token_history st n st2
| th_lost T op st r st1 n st2 : token_op T op ->
    with_session t op st = Some (r, st1) -> token_history st1 n st2 -> token_history st (S n) st2.

(** The token source neither leaks nor hoards sessions, and one login serves
    all its operations: after any sequence of response signatures, handshake
    signatures and key reads, in whatever way each ended, the one session the
    source holds is the only one open on the module, none is open when it holds
    none, and the successful logins are at most one, plus two for each
    operation whose session the token had invalidated. *)
Theorem token_sessions_bounded m n st :
  token_history (amortized_new m) n st -> (forall x, ~ ck_open x m) ->
  (forall x, ck_open x (am_world st) <-> am_cached st = Some x) /\
  (ck_logins (am_world st) <= ck_logins m + 1 + 2 * n)%nat.
Proof.
  intros H Hm. assert (G : only_cached t (amortized_new (S := Z) m)) by (intros x; cbn; specialize (Hm x); naive_solver).
  assert (Hc : login_credit t (amortized_new (S := Z) m) = (ck_logins m + 1)%nat) by done.
  revert G Hc. generalize (ck_logins m + 1)%nat as k. induction H as [st|T op st r st1 n st2 Hop Hnl Hw Hh IH|T op st r st1 n st2 Hop Hw Hh IH];
    intros k G Hc.
  - split; [exact G|]. unfold login_credit in Hc. cbn in Hc. lia.
  - apply (with_session_sessions t) in Hw as [G1 [Hb|[_ Hl]]]; [|done|by eapply token_op_quiet|done].
    destruct (IH _ G1 eq_refl) as [? ?]. split; [done|]. lia.
  - apply (with_session_sessions t) in Hw as [G1 Hb]; [|by eapply token_op_quiet|done].
    destruct (IH _ G1 eq_refl) as [? ?]. split; [done|]. lia.
Qed.
End Token.

(** ** Every module: failing closed *)

Lemma ck_bind_Ok {W E A B} (c : Ck W E A) (k : A -> Ck W E B) w b w' :
  (c ≫= k) w = Some (Ok b, w') -> exists a w1, c w = Some (Ok a, w1) /\ k a w1 = Some (Ok b, w').
Proof. unfold mbind, ck_bind. destruct (c w) as [[[a|e] w1]|] eqn:Ec; [eauto|done|done]. Qed.

Lemma ck_map_err_Ok {W E F A} (f : E -> F) (c : Ck W E A) w a w' : ck_map_err f c w = Some (Ok a, w') -> c w = Some (Ok a, w').
Proof. unfold ck_map_err. destruct (c w) as [[[x|e] w1]|]; cbn; congruence. Qed.

(** The state an operation that succeeded was run in: the cached session, or
    one opened for it. *)
Definition session_at {F S W} `{LF : !LoginSessionFactory F S W} (f : F) (st : Amortized S W) (s : S) (w : W) : Prop :=
  am_cached st = Some s /\ w = am_world st \/ exists w0, open_logged_in f w0 = Some (Ok s, w).

Lemma with_session_Ok {F S W T} `{LF : !LoginSessionFactory F S W} (f : F) (op : S -> Ck W SessionOpError T) st v st' :
  with_session f op st = Some (Ok v, st') -> exists s w, am_cached st' = Some s /\ session_at f st s w /\ op s w = Some (Ok v, am_world st').
Proof.
  assert (Ha : forall s w, session_at f st s w -> match op s w with
    | None => None
    | Some (Ok value, w1) => Some (Ok value, Build_Amortized (Some s) false w1)
    | Some (Err (SessionFatal e), w1) => Some (Err e, Build_Amortized (Some s) false w1)
    | Some (Err (SessionInvalid _), w1) => retry_session f op (session_drop f s w1)
    end = Some (Ok v, st') -> exists s w, am_cached st' = Some s /\ session_at f st s w /\ op s w = Some (Ok v, am_world st')).
  { intros s w Hs. destruct (op s w) as [[[x|[e|e]] w1]|] eqn:Eop; [|..|done]; [intros [= <- <-]; eauto| |done].
    unfold retry_session. destruct (open_logged_in f _) as [[[s'|e'] w2]|] eqn:Eo; [|done|done].
    destruct (op s' w2) as [[[x|[?|?]] w3]|] eqn:Eop'; [|done..]. intros [= <- <-]. exists s', w2. split_and!; [done| |done].
    right. eauto. }
  unfold with_session. destruct (am_poisoned st); [done|]. destruct (am_cached st) as [s|] eqn:Ec; [apply Ha; by left|].
  destruct (open_logged_in f _) as [[[s|e] w1]|] eqn:Eo; [apply Ha; right; eauto|done|done].
Qed.

(** *** Which calls the module sees *)

Section Calls.
Context {M : Type} (fl : CkFunctionList M).

(** One call, with the arguments given, that the module answered with CKR_OK. *)
Definition called {F O} (f : option F) (args : F -> CkCall M O) (m : M) (out : O) (m' : M) : Prop :=
  exists g, f = Some g /\ args g m = ((0, out), m').

(** Pages of 16 handles until one is not full. *)
Inductive pages (h : Z) : M -> list Z -> M -> Prop :=
| pages_end m page n m' : called (C_FindObjects fl) (fun f => f h 16%nat) m (page, n) m' -> n < 16 ->
    pages h m (take (Z.to_nat n) (ck_fill 16 page)) m'
| pages_more m page m1 ks m' : called (C_FindObjects fl) (fun f => f h 16%nat) m (page, 16) m1 -> pages h m1 ks m' ->
    pages h m (ck_fill 16 page ++ ks) m'.

(** A whole search for the Ed25519 objects (key type 64) of a class (2 public,
    3 private) with a label. *)
Definition searched (h class : Z) (label : rstr) (m : M) (ks : list Z) (m' : M) : Prop :=
  exists m1 m2, called (C_FindObjectsInit fl) (fun f => f h [CkUlong 0 class; CkUlong 256 64; CkBytes 3 (as_bytes label)]) m tt m1 /\
    pages h m1 ks m2 /\ called (C_FindObjectsFinal fl) (fun f => f h) m2 tt m'.

(** An EdDSA signature (mechanism 4183) by an object: length query and answer. *)
Definition signed (h key : Z) (data : bytes) (m : M) (sig : bytes) (m' : M) : Prop :=
  exists m1 m2 query n written n', called (C_SignInit fl) (fun f => f h 4183 key) m tt m1 /\
    called (C_Sign fl) (fun f => f h data None) m1 (query, n) m2 /\
    called (C_Sign fl) (fun f => f h data (Some (Z.to_nat n))) m2 (written, n') m' /\
    sig = take (Z.to_nat n') (ck_fill (Z.to_nat n) written).

(** The EC point (attribute 385) of an object. *)
Definition point_read (h key : Z) (m : M) (point : bytes) (m' : M) : Prop :=
  exists m1 query n written n', called (C_GetAttributeValue fl) (fun f => f h key 385 None) m (query, n) m1 /\
    called (C_GetAttributeValue fl) (fun f => f h key 385 (Some (Z.to_nat n))) m1 (written, n') m' /\
    point = take (Z.to_nat n') (ck_fill (Z.to_nat n) written).

(** The session was kept, or opened on the slot as a serial read-write session
    (flags 6) and logged in as the user (1) with the pin. *)
Definition session_of (slot : Z) (pin : rstr) (st : Amortized Z M) (h : Z) (m : M) : Prop :=
  am_cached st = Some h /\ m = am_world st \/
  exists m0 m1, called (C_OpenSession fl) (fun f => f slot 6) m0 h m1 /\ called (C_Login fl) (fun f => f h 1 (as_bytes pin)) m1 tt m.

Lemma invoke_called {F O} (f : option F) name op (args : F -> CkCall M O) m out m' :
  invoke f name op args m = Some (Ok out, m') -> called f args m out m'.
Proof.
  unfold invoke, called. destruct f as [g|]; [|done]. destruct (args g m) as [[rv o] m1] eqn:E. destruct (Z.eqb_spec rv CKR_OK) as [->|]; [|done].
  intros [= <- <-]. eauto.
Qed.

Lemma find_objects_collect_pages fuel h m ks m' : find_objects_collect fl fuel h m = Some (Ok ks, m') -> pages h m ks m'.
Proof.
  revert m ks m'. induction fuel as [|fuel IH]; intros m ks m'; cbn [find_objects_collect]; [done|].
  intros ([page n] & m1 & Hc%invoke_called & Hk)%ck_bind_Ok. unfold PAGE in *. destruct (Z.ltb_spec (Z.of_nat 16) n); [done|].
  destruct (Z.eqb_spec n 0) as [->|].
  - injection Hk as <- <-. by eapply (pages_end h m page 0).
  - destruct (Z.ltb_spec n (Z.of_nat 16)); [injection Hk as <- <-; eapply pages_end; [done|lia]|].
    assert (n = 16) as -> by lia. apply ck_bind_Ok in Hk as (rest & m2 & Hr%IH & Hk). injection Hk as <- <-.
    rewrite (take_ge (ck_fill 16 page)); [by eapply pages_more|]. unfold ck_fill. rewrite length_take. lia.
Qed.

Lemma find_objects_raw_searched fuel h class label m ks m' :
  find_objects_raw fl fuel h (ed25519_labelled class label) m = Some (Ok ks, m') ->
  searched h (match class with ClassPrivate => 3 | ClassPublic => 2 end) label m ks m'.
Proof.
  intros ([] & m1 & Hi%invoke_called & Hr)%ck_bind_Ok. destruct (find_objects_collect fl fuel h m1) as [[[found|e] m2]|] eqn:Ec; [| |done].
  - destruct (C_FindObjectsFinal fl) as [g|] eqn:Eg; [|done]. destruct (g h m2) as [[rv []] m3] eqn:Ef. destruct (Z.eqb_spec rv CKR_OK) as [->|]; [|done].
    injection Hr as <- <-. exists m1, m2. split_and!; [by destruct class|by eapply find_objects_collect_pages|]. by exists g.
  - destruct (C_FindObjectsFinal fl) as [g|]; [|done]. by destruct (g h m2) as [[rv u] m3].
Qed.

Lemma sign_eddsa_raw_signed h key data m sig m' : sign_eddsa_raw fl h key data m = Some (Ok sig, m') -> signed h key data m sig m'.
Proof.
  intros ([] & m1 & Hi%invoke_called & Hr)%ck_bind_Ok. apply ck_bind_Ok in Hr as ([query n] & m2 & Hq%invoke_called & Hr).
  apply ck_bind_Ok in Hr as ([written n'] & m3 & Hs%invoke_called & Hr). cbv zeta in Hr. destruct (_ <? n'); [done|]. injection Hr as <- <-.
  exists m1, m2, query, n, written, n'. by split_and!.
Qed.

Lemma get_ec_point_raw_read h key m point m' : get_ec_point_raw fl h key m = Some (Ok point, m') -> point_read h key m point m'.
Proof.
  intros ([query n] & m1 & Hq%invoke_called & Hr)%ck_bind_Ok. destruct (n =? _); [done|].
  apply ck_bind_Ok in Hr as ([written n'] & m2 & Hs%invoke_called & Hr). cbv zeta in Hr. destruct (_ <? n'); [done|]. injection Hr as <- <-.
  exists m1, query, n, written, n'. by split_and!.
Qed.
End Calls.

Section FailClosed.
Context `{B64 : Base64, DK : Dalek} {M : Type}.
Context (fuel : nat) (t : Pkcs11Token M).
#[local] Abbreviation fl := (tk_context t).

Lemma session_at_of st h m : session_at t st h m -> session_of fl (tk_slot t) (tk_pin t) st h m.
Proof.
  intros [?|(w0 & Ho)]; [by left|]. right. cbn in Ho. apply ck_map_err_Ok in Ho. unfold open_logged_in_handle in Ho.
  apply ck_bind_Ok in Ho as (h' & m1 & Hs%invoke_called & Hl). unfold login_user in Hl.
  destruct (invoke _ _ _ _ m1) as [[[[]|e] m2]|] eqn:El; [|done..]. injection Hl as -> ->. exists w0, m1. split; [exact Hs|].
  by apply invoke_called in El.
Qed.

Lemma find_key_Ok h label class m k m' :
  find_key fuel fl h label class m = Some (Ok k, m') ->
  searched fl h (match class with ClassPrivate => 3 | ClassPublic => 2 end) label m [k] m'.
Proof.
  intros (hs & m1 & Hf%ck_map_err_Ok & Hk)%ck_bind_Ok. destruct hs as [|x [|y l]]; [done| |done].
  injection Hk as <- <-. by eapply find_objects_raw_searched.
Qed.

Lemma find_and_sign_Ok what h label data m sig m' :
  find_and_sign fuel what fl h label data m = Some (Ok sig, m') ->
  length sig = 64%nat /\ exists k m1, searched fl h 3 label m [k] m1 /\ signed fl h k data m1 sig m'.
Proof.
  intros (k & m1 & Hk%find_key_Ok & (s & m2 & Hs%ck_map_err_Ok & Hl)%ck_bind_Ok)%ck_bind_Ok.
  case_bool_decide; [|done]. injection Hl as -> ->. split; [done|]. exists k, m1. split; [done|by apply sign_eddsa_raw_signed].
Qed.

(** The point of the one public object of a label. *)
Definition public_point (h : Z) (label : rstr) (m : M) (raw : bytes) (m' : M) : Prop :=
  exists k m1 point, searched fl h 2 label m [k] m1 /\ point_read fl h k m1 point m' /\
    (point = raw \/ point = 4 :: 32 :: raw) /\ length raw = 32%nat.

Lemma raw_ed25519_point_Ok p raw : raw_ed25519_point p = Ok raw -> (p = raw \/ p = 4 :: 32 :: raw) /\ length raw = 32%nat.
Proof.
  unfold raw_ed25519_point. case_bool_decide; [intros [= <-]; auto|]. destruct p as [|tag [|len p]]; [done..|].
  destruct (bool_decide _ && _ && _) eqn:E; [|done]. intros [= <-]. breflect. unfold ED25519_PUBLIC_KEY_LEN in *. cbn in *.
  subst tag len. split; [by right|lia].
Qed.

Lemma verification_key_Ok h label m vk m' :
  verification_key fuel fl h label m = Some (Ok vk, m') -> exists raw, public_point h label m raw m' /\ vk_from_bytes raw = Ok vk.
Proof.
  intros (k & m1 & Hk%find_key_Ok & Hr)%ck_bind_Ok. apply ck_bind_Ok in Hr as (point & m2 & Hp%ck_map_err_Ok & Hr).
  apply ck_bind_Ok in Hr as (raw & m3 & Hraw & Hvk). unfold ck_of in *. destruct (raw_ed25519_point point) as [raw'|] eqn:Er; [|done].
  injection Hraw as -> ->. destruct (vk_from_bytes raw) as [vk'|] eqn:Ev; [|done]. injection Hvk as -> ->. exists raw. split; [|done].
  apply raw_ed25519_point_Ok in Er as [? ?]. exists k, m1, point. split_and!; try done. by apply get_ec_point_raw_read.
Qed.

(** C38: Nothing unverified leaves the token source, whatever the module does.
    All calls are made on one session, which is the kept one or was opened on
    the token's slot and logged in with the pin, and is kept afterwards.  A
    response signature is returned only after a complete search by class, key
    type and label gave exactly one private Ed25519 object, [C_SignInit] was
    given the mechanism CKM_EDDSA and that object, [C_Sign] signed the preimage
    itself with 64 bytes, a search for the public object of the same label gave
    exactly one, and the signature verified under the key read from that
    object's EC point.  A handshake signature is 64 bytes made in the same way;
    and a reported handshake key is the RFC 8410 form of the EC point of the one
    public object of its label. *)
Theorem pkcs11_fails_closed label :
  (forall preimage st sg st', pkcs11_sign_response fuel t label preimage st = Some (Ok sg, st') ->
     exists h k sig raw vk m m1 m2, am_cached st' = Some h /\ session_of fl (tk_slot t) (tk_pin t) st h m /\
       searched fl h 3 label m [k] m1 /\ signed fl h k preimage m1 sig m2 /\ length sig = 64%nat /\ sg = b64url_encode sig /\
       public_point h label m2 raw (am_world st') /\ vk_from_bytes raw = Ok vk /\ verify_ed25519 preimage sg vk = Ok tt) /\
  (forall message st sig st', pkcs11_sign_tls_ed25519 fuel t label message st = Some (Ok sig, st') ->
     length sig = 64%nat /\ exists h k m m1, am_cached st' = Some h /\ session_of fl (tk_slot t) (tk_pin t) st h m /\
       searched fl h 3 label m [k] m1 /\ signed fl h k message m1 sig (am_world st')) /\
  (forall st der st', pkcs11_tls_public_key_spki_der fuel t label st = Some (Ok der, st') ->
     exists h m raw, am_cached st' = Some h /\ session_of fl (tk_slot t) (tk_pin t) st h m /\
       public_point h label m raw (am_world st') /\ ed25519_raw_point_from_spki der = Ok raw /\ der = ED25519_SPKI_PREFIX ++ raw).
Proof.
  split_and!.
  - intros preimage st sg st' (h & m & Hc & Hs%session_at_of & Hop)%with_session_Ok.
    apply ck_bind_Ok in Hop as (sig & m2 & (Hlen & k & m1 & Hk & Hsg)%find_and_sign_Ok & Hop).
    apply ck_bind_Ok in Hop as (vk & m3 & (raw & Hp & Hvk)%verification_key_Ok & He). unfold ck_of, verify_before_emit in He.
    destruct (verify_ed25519 preimage (b64url_encode sig) vk) as [[]|] eqn:Ev; [|done]. cbn in He. injection He as <- <-.
    exists h, k, sig, raw, vk, m, m1, m2. split_and!; done.
  - intros message st sig st' (h & m & Hc & Hs%session_at_of & (Hlen & k & m1 & Hk & Hsg)%find_and_sign_Ok)%with_session_Ok.
    split; [done|]. exists h, k, m, m1. done.
  - intros st der st' (h & m & Hc & Hs%session_at_of & Hop)%with_session_Ok.
    apply ck_bind_Ok in Hop as (k & m1 & Hk%find_key_Ok & Hop). apply ck_bind_Ok in Hop as (p & m2 & Hp%ck_map_err_Ok & He).
    unfold ck_of, ed25519_spki_from_ec_point in He. destruct (raw_ed25519_point p) as [raw|] eqn:Er; [|done]. cbn in He. injection He as <- <-.
    pose proof (raw_ed25519_point_Ok _ _ Er) as [Hpt Hln]. exists h, m, raw. split_and!; try done.
    + exists k, m1, p. split_and!; try done. by apply get_ec_point_raw_read.
    + by apply ed25519_raw_point_from_spki_Ok.
Qed.
End FailClosed.

(** ** Every operation returns *)

(** A search hands out the handles it has left, a page at a time. *)
Class CkFinds {M : Type} (fl : CkFunctionList M) := {
  find_left : M -> nat;
  find_max : nat;
  law_find_starts g h attrs m : C_FindObjectsInit fl = Some g -> (g h attrs m).1.1 = CKR_OK -> (find_left (g h attrs m).2 <= find_max)%nat;
  law_find_page g h m : C_FindObjects fl = Some g -> (g h PAGE m).1.2.2 = Z.of_nat PAGE -> (find_left (g h PAGE m).2 < find_left m)%nat;
}.

Section Returns.
Context `{B64 : Base64, DK : Dalek} {M : Type}.
Context (fuel : nat) (t : Pkcs11Token M) `{CF : !CkFinds (tk_context t)}.
#[local] Abbreviation fl := (tk_context t).

Definition ends {W E A} (c : Ck W E A) : Prop := forall w, is_Some (c w).

Lemma ends_of {W E A} (r : result A E) : ends (ck_of r : Ck W E A).
Proof. intros w. by eexists. Qed.

Lemma ends_ret {W E A} (a : A) : ends (mret a : Ck W E A).
Proof. intros w. by eexists. Qed.

Lemma ends_bind {W E A B} (c : Ck W E A) (k : A -> Ck W E B) : ends c -> (forall a, ends (k a)) -> ends (c ≫= k).
Proof.
  intros Hc Hk w. unfold mbind, ck_bind. destruct (Hc w) as [[[a|e] w1] ->]; [apply Hk|by eexists].
Qed.

Lemma ends_map_err {W E F A} (f : E -> F) (c : Ck W E A) : ends c -> ends (ck_map_err f c).
Proof. intros Hc w. unfold ck_map_err. destruct (Hc w) as [[r w1] ->]. by eexists. Qed.

Lemma ends_invoke {F O} (f : option F) name op (args : F -> CkCall M O) : ends (invoke f name op args).
Proof. intros w. unfold invoke. destruct f as [g|]; [|by eexists]. destruct (args g w) as [[rv out] m']. by eexists. Qed.

Ltac ends_tac := repeat lazymatch goal with
  | |- ends (_ ≫= _) => apply ends_bind; [|intros ?]
  | |- ends (ck_of _) => apply ends_of
  | |- ends (mret _) => apply ends_ret
  | |- ends (ck_map_err _ _) => apply ends_map_err
  | |- ends (invoke _ _ _ _) => apply ends_invoke
  | |- ends (if ?b then _ else _) => destruct b
  | |- ends (match ?x with _ => _ end) => destruct x
  end.

Lemma find_objects_collect_ends n h m : (find_left m < n)%nat -> is_Some (find_objects_collect fl n h m).
Proof.
  revert m. induction n as [|n IH]; intros m Hn; [lia|]. cbn [find_objects_collect]. unfold mbind, ck_bind, invoke.
  destruct (C_FindObjects fl) as [g|] eqn:Eg; [|by eexists]. pose proof (law_find_page g h m Eg) as Hp.
  destruct (g h PAGE m) as [[rv [page found]] m1]. cbn in Hp. destruct (rv =? CKR_OK); [|by eexists].
  destruct (Z.ltb_spec (Z.of_nat PAGE) found); [by eexists|]. destruct (found =? 0); [by eexists|].
  destruct (Z.ltb_spec found (Z.of_nat PAGE)); [by eexists|]. specialize (Hp ltac:(lia)).
  destruct (IH m1) as [[[rest|e] m2] ->]; [lia|by eexists|by eexists].
Qed.

Lemma find_objects_ends h tpl : (find_max < fuel)%nat -> ends (find_objects_raw fl fuel h tpl).
Proof.
  intros Hf m. unfold find_objects_raw, mbind, ck_bind, invoke. destruct (C_FindObjectsInit fl) as [g|] eqn:Eg; [|by eexists].
  pose proof (law_find_starts g h (as_ck_attributes tpl) m Eg) as Hs. destruct (g _ _ m) as [[rv u] m1]. cbn in Hs.
  destruct (Z.eqb_spec rv CKR_OK) as [Hrv|]; [|by eexists]. specialize (Hs Hrv).
  destruct (find_objects_collect_ends fuel h m1) as [[found m2] ->]; [lia|].
  destruct (C_FindObjectsFinal fl) as [g'|]; [|by eexists]. destruct (g' h m2) as [[rv' u'] m3]. by eexists.
Qed.

Lemma find_key_ends h label class : (find_max < fuel)%nat -> ends (find_key fuel fl h label class).
Proof. intros Hf. unfold find_key. ends_tac. by apply find_objects_ends. Qed.

Lemma with_session_ends {T} (op : Z -> Ck M SessionOpError T) : (forall h, ends (op h)) -> ends (with_session t op).
Proof.
  intros Hop. assert (Ho : ends (open_logged_in t : Ck M KeyError Z)).
  { intros m. cbn. apply ends_map_err. unfold open_logged_in_handle. apply ends_bind; [apply ends_invoke|]. intros h m1.
    destruct (ends_invoke (C_Login fl) "C_Login" "C_Login (CKU_USER)" (fun g => g h CKU_USER (as_bytes (tk_pin t))) m1) as [[[x|e] m2] E].
    all: unfold login_user; rewrite E; by eexists. }
  assert (Hr : forall w, is_Some (retry_session t op w)).
  { intros w. unfold retry_session. destruct (Ho w) as [[[s|e] w1] ->]; [|by eexists].
    destruct (Hop s w1) as [[[v|[e|e]] w2] ->]; by eexists. }
  intros st. unfold with_session. destruct (am_poisoned st); [by eexists|].
  destruct (am_cached st) as [s|].
  - destruct (Hop s (am_world st)) as [[[v|[e|e]] w2] ->]; [by eexists|apply Hr|by eexists].
  - destruct (Ho (am_world st)) as [[[s|e] w1] ->]; [|by eexists].
    destruct (Hop s w1) as [[[v|[e|e]] w2] ->]; [by eexists|apply Hr|by eexists].
Qed.

(** Over a module whose searches end, every operation of the source returns. *)
Theorem token_ops_return T op st : (find_max < fuel)%nat -> token_op fuel t T op -> is_Some (with_session t op st).
Proof.
  intros Hf H. apply with_session_ends. intros h.
  assert (Hvk : forall label, ends (verification_key fuel fl h label)).
  { intros label. unfold verification_key. ends_tac; [by apply find_key_ends|]. unfold get_ec_point_raw. ends_tac. }
  assert (Hs : forall what label data, ends (find_and_sign fuel what fl h label data)).
  { intros. unfold find_and_sign. ends_tac; [by apply find_key_ends|]. unfold sign_eddsa_raw. cbv zeta. ends_tac. }
  destruct H; [unfold sign_op; ends_tac; auto|auto|auto| |].
  - unfold tls_spki_op. ends_tac; [by apply find_key_ends|]. unfold get_ec_point_raw. ends_tac.
  - unfold prove_keys. ends_tac; by apply find_key_ends.
Qed.
End Returns.

(** ** A token to evaluate *)

Import Toy.

(** A token holds one Ed25519 key pair under one label: object 1 is its private
    key and object 2 its public key. *)
Record ToyToken : Type := { tt_sessions : list Z; tt_logins : nat; tt_search : list Z }.

Definition tt_key : SigningKey := {| sk_inner := true : DalekSigningKey |}.

Definition tt_next (m : ToyToken) : Z := 1 + foldr Z.max 0 (tt_sessions m).

Definition on_session {O : Type} (h : Z) (blank : O) (call : CkCall ToyToken O) : CkCall ToyToken O := fun m =>
  if bool_decide (h ∈ tt_sessions m) then call m else ((CKR_SESSION_HANDLE_INVALID, blank), m).

Definition tt_with_search (found : list Z) (m : ToyToken) : ToyToken :=
  {| tt_sessions := tt_sessions m; tt_logins := tt_logins m; tt_search := found |}.

Definition tt_matches (attrs : list CkAttribute) : list Z :=
  match attrs with
  | [CkUlong 0 class; CkUlong 256 type; CkBytes 3 label] =>
      if bool_decide (type = CKK_EC_EDWARDS) && bool_decide (label = as_bytes (str "response"))
      then (if class =? CKO_PRIVATE_KEY then [1] else [2]) else []
  | _ => []
  end.

Definition toy_functions : CkFunctionList ToyToken := {|
  C_Initialize := Some (fun _ m => ((CKR_OK, tt), m));
  C_Finalize := Some (fun m => ((CKR_OK, tt), m));
  C_GetSlotList := Some (fun _ m => ((CKR_OK, ([7], 1)), m));
  C_GetTokenInfo := Some (fun _ m => ((CKR_OK, as_bytes (str "hsm-1") ++ replicate 27 32), m));
  C_OpenSession := Some (fun _ _ m =>
    ((CKR_OK, tt_next m), {| tt_sessions := tt_next m :: tt_sessions m; tt_logins := tt_logins m; tt_search := [] |}));
  C_CloseSession := Some (fun h m =>
    ((CKR_OK, tt), {| tt_sessions := filter (fun x => x <> h) (tt_sessions m); tt_logins := tt_logins m; tt_search := [] |}));
  C_Login := Some (fun h _ pin m =>
    if bool_decide (pin = as_bytes (str "1234"))
    then ((CKR_OK, tt), {| tt_sessions := tt_sessions m; tt_logins := S (tt_logins m); tt_search := [] |})
    else ((160, tt), m));
  C_FindObjectsInit := Some (fun h attrs => on_session h tt (fun m => ((CKR_OK, tt), tt_with_search (tt_matches attrs) m)));
  C_FindObjects := Some (fun h n => on_session h ([], 0) (fun m =>
    let page := take n (tt_search m) in ((CKR_OK, (page, Z.of_nat (length page))), tt_with_search (drop n (tt_search m)) m)));
  C_FindObjectsFinal := Some (fun h m => ((CKR_OK, tt), m));
  C_SignInit := Some (fun h mech key => on_session h tt (fun m => ((if (mech =? CKM_EDDSA) && (key =? 1) then CKR_OK else 99, tt), m)));
  C_Sign := Some (fun h data buf => on_session h ([], 0) (fun m =>
    ((CKR_OK, (match buf with None => [] | Some _ => dalek_sign (sk_inner tt_key) data end, 64)), m)));
  C_GetAttributeValue := Some (fun h key attr buf => on_session h ([], 0) (fun m =>
    ((if (key =? 2) && (attr =? CKA_EC_POINT) then CKR_OK else 18, (match buf with None => [] | Some _ => 4 :: 32 :: vk_to_bytes (public_key tt_key) end, 34)), m)));
|}.

#[export] Instance toy_loader : CkLoader ToyToken := fun path =>
  if bool_decide (path = str "/usr/lib/softhsm.so") then Ok (Ok (fun m => ((CKR_OK, Some toy_functions), m)))
  else Err (str "no such file").

Lemma on_session_kept {O} h (blank : O) call m :
  (forall m, tt_sessions (call m).2 = tt_sessions m /\ tt_logins (call m).2 = tt_logins m) ->
  sessions_kept (fun x m => x ∈ tt_sessions m) tt_logins m (on_session h blank call m).2.
Proof.
  intros H. unfold on_session. case_bool_decide; [|done]. destruct (H m) as [H1 H2]. split; [|done]. intros x. by rewrite H1.
Qed.

Lemma tt_next_fresh m : tt_next m ∉ tt_sessions m.
Proof.
  assert (H : forall x, x ∈ tt_sessions m -> x <= foldr Z.max 0 (tt_sessions m)).
  { induction (tt_sessions m) as [|y l IH]; intros x Hx; [by apply not_elem_of_nil in Hx|].
    apply elem_of_cons in Hx as [->|Hx]; cbn; [lia|]. specialize (IH x Hx). lia. }
  intros Hin%H. unfold tt_next in Hin. lia.
Qed.

#[export] Program Instance toy_sessions (slot : Z) (pin : rstr) :
  CkSessions (tk_context {| tk_context := toy_functions; tk_slot := slot; tk_pin := pin |}) := {
  ck_open x m := x ∈ tt_sessions m;
  ck_logins := tt_logins;
}.
Next Obligation.
  intros slot pin g s fs m [= <-]. cbn. split_and!; [done|intros _; apply tt_next_fresh|]. intros x. set_solver.
Qed.
Next Obligation. intros slot pin g h u p m [= <-]. cbn. case_bool_decide; done. Qed.
Next Obligation.
  intros slot pin. eexists. split; [reflexivity|]. intros h m. cbn. split; [done|]. intros x. rewrite list_elem_of_filter. naive_solver.
Qed.
Next Obligation. intros slot pin g h attrs m [= <-]. by apply on_session_kept. Qed.
Next Obligation. intros slot pin g h n m [= <-]. by apply on_session_kept. Qed.
Next Obligation. intros slot pin g h m [= <-]. done. Qed.
Next Obligation. intros slot pin g h mech key m [= <-]. by apply on_session_kept. Qed.
Next Obligation. intros slot pin g h data buf m [= <-]. by apply on_session_kept. Qed.
Next Obligation. intros slot pin g h key attr buf m [= <-]. by apply on_session_kept. Qed.

#[export] Program Instance toy_finds (slot : Z) (pin : rstr) :
  CkFinds (tk_context {| tk_context := toy_functions; tk_slot := slot; tk_pin := pin |}) := {
  find_left m := length (tt_search m);
  find_max := 1%nat;
}.
Next Obligation.
  intros slot pin g h attrs m [= <-]. cbn. unfold on_session. case_bool_decide; [intros _|done]. cbn. unfold tt_matches.
  repeat case_match; cbn; lia.
Qed.
Next Obligation.
  intros slot pin g h m [= <-]. cbn. unfold on_session. case_bool_decide; [|done]. cbn [fst snd tt_with_search tt_search].
  rewrite length_take, length_drop. unfold PAGE. lia.
Qed.

Definition toy_token : Pkcs11Token ToyToken := {| tk_context := toy_functions; tk_slot := 7; tk_pin := str "1234" |}.
Definition fresh_token : ToyToken := {| tt_sessions := []; tt_logins := 0; tt_search := [] |}.

(** What an answer says, and how the module is left. *)
Definition toy_answer {A : Type} (r : option (result A KeyError * Amortized Z ToyToken)) : option (result A rstr * option Z * list Z * nat) :=
  option_map (fun x => (map_err key_error_display x.1, am_cached x.2, tt_sessions (am_world x.2), tt_logins (am_world x.2))) r.

Definition toy_sign_at (st : Amortized Z ToyToken) := pkcs11_sign_response 2 toy_token (str "response") (str "preimage") st.

(** The source opens over the token; its error paths close what they opened. *)
Example toy_open :
  option_map (fun x => (is_ok x.1, tt_sessions x.2, tt_logins x.2))
    (pkcs11_open 2 (str "/usr/lib/softhsm.so") (str "1234") (str "hsm-1") (str "response") None fresh_token) = Some (true, [1], 1%nat).
Proof. vm_compute. reflexivity. Qed.

Example toy_open_wrong_pin :
  option_map (fun x => (is_ok x.1, tt_sessions x.2, tt_logins x.2))
    (pkcs11_open 2 (str "/usr/lib/softhsm.so") (str "0000") (str "hsm-1") (str "response") None fresh_token) = Some (false, [], 0%nat).
Proof. vm_compute. reflexivity. Qed.

Example toy_open_no_tls_key :
  option_map (fun x => (is_ok x.1, tt_sessions x.2, tt_logins x.2))
    (pkcs11_open 2 (str "/usr/lib/softhsm.so") (str "1234") (str "hsm-1") (str "response") (Some (str "tls")) fresh_token) = Some (false, [], 1%nat).
Proof. vm_compute. reflexivity. Qed.

(** It signs as the key would, and after the token lost its session it logs in
    once more. *)
Example toy_sign_first : toy_answer (toy_sign_at (amortized_new fresh_token)) = Some (Ok (sign tt_key (str "preimage")), Some 1, [1], 1%nat).
Proof. vm_compute. reflexivity. Qed.

Example toy_sign_after_loss :
  toy_answer (toy_sign_at {| am_cached := Some 9; am_poisoned := false;
                             am_world := {| tt_sessions := []; tt_logins := 1; tt_search := [] |} |}) =
  Some (Ok (sign tt_key (str "preimage")), Some 1, [1], 2%nat).
Proof. vm_compute. reflexivity. Qed.

(** The signature is the token's own key's, over a session opened for it. *)
Lemma pkcs11_fails_closed_witness :
  exists st' h k sig m m1 m2, toy_sign_at (amortized_new fresh_token) = Some (Ok (sign tt_key (str "preimage")), st') /\
    session_of toy_functions 7 (str "1234") (amortized_new fresh_token) h m /\ searched toy_functions h 3 (str "response") m [k] m1 /\
    signed toy_functions h k (str "preimage") m1 sig m2 /\ sign tt_key (str "preimage") = b64url_encode sig.
Proof.
  destruct (toy_sign_at (amortized_new fresh_token)) as [[[sg|e] st']|] eqn:E; [|vm_compute in E; discriminate..].
  destruct (proj1 (pkcs11_fails_closed 2 toy_token (str "response")) (str "preimage") _ _ _ E)
    as (h & k & sig & raw & vk & m & m1 & m2 & _ & Hs & Hk & Hsg & _ & Hb & _).
  assert (Hsame : sg = sign tt_key (str "preimage")).
  { pose proof toy_sign_first as Hf. rewrite E in Hf. cbn in Hf. injection Hf as Hf _ _ _. exact Hf. }
  exists st', h, k, sig, m, m1, m2. split; [by rewrite Hsame|]. split; [exact Hs|]. split; [exact Hk|]. split; [exact Hsg|]. by rewrite <- Hsame.
Defined.

Lemma token_sessions_bounded_witness :
  exists st, token_history 2 toy_token (amortized_new fresh_token) 0 st /\ (tt_logins (am_world st) <= 1)%nat.
Proof.
  destruct (with_session toy_token (sign_op 2 toy_functions (str "response") (str "preimage")) (amortized_new fresh_token)) as [[r st]|] eqn:E;
    [|vm_compute in E; discriminate].
  assert (H : token_history 2 toy_token (amortized_new fresh_token) 0 st).
  { eapply th_op; [apply op_sign| |exact E|constructor]. intros (s & w & e & w' & Hop & [[Hc _]|[_ Ho]]); [discriminate|].
    vm_compute in Ho. injection Ho as <- <-. vm_compute in Hop. discriminate. }
  exists st. split; [exact H|].
  destruct (token_sessions_bounded 2 toy_token fresh_token 0 st H) as [_ Hl]; [intros x Hx; by apply not_elem_of_nil in Hx|exact Hl].
Defined.
