(* ===== verification/DeviceKeys.v ===== *)
(** * Key sources over a device

    [KmsKeySource] of [mcps-proxy/src/kms_keysource.rs], the construction of
    both cloud key sources in [build_key_source] of [cli.rs], and what start-up
    makes of them: a handshake is delegated only to the key its certificate
    names. *)

From S2P Require Import Prelude Utf8 Strings Tiers Errors Json Canonical Signing Time Crypto Envelope Transport Http Ocsp.
From S2P Require Import Unwrap KeySource EtcdStore Sigv4 Kms KmsTheorems Pkcs11 Instances Proxy PolicySpec Sandbox Launch LaunchTheorems Cli CliTheorems Startup StartupTheorems.

Section Device.
Context `{SJ : SerdeJson, SS : SerdeSer, TX : SerdeTexts, SB : StandardBase64, SD : StandardDecode, SH : Sha2, HM : HmacSha256}.
Context `{B64 : Base64, DK : Dalek, HO : !Host}.

(** [KmsKeySource]: the signer over a backend, the rest from files. *)
Definition KmsKeySource (backend : KmsEd25519Backend) (tls : KeySource) (tls_signer : option RawEd25519TlsSigner) : KeySource := {|
  ks_signer := kms_response_signer backend;
  tls_server_cert_chain := tls_server_cert_chain tls;
  tls_server_key := tls_server_key tls;
  client_ca_roots := client_ca_roots tls;
  tls_delegated_signer := tls_signer;
|}.

(** The services of one moment: the environment, an exchange for every request
    and the time. *)
Context (env : rstr -> option rstr) (http : OutRequest -> HttpOutcome) (time_max now : Z).

Definition file_tls (c : Config) : KeySource := FileKeySource (c_signing_key_seed c) (c_tls_cert c) (c_tls_key c) (c_client_ca c).

(** [KeySourceKind::AwsKms] of [build_key_source]. *)
Definition aws_key_source (c : Config) : result KeySource KeyError :=
  let o := c_options c in
  let require opt flag := ok_or opt (KeyNotFound (str "--key-source aws-kms requires " ++ str flag)) in
  let? region := require (o_aws_kms_region o) "--aws-kms-region" in
  let? key_id := require (o_aws_kms_key_id o) "--aws-kms-key-id" in
  let? backend := aws_from_env env http (now / NANOS) {| aws_region := region; aws_key_id := key_id; aws_endpoint := o_aws_kms_endpoint o |} in
  match o_aws_kms_tls_key_id o with
  | Some tls_key_id =>
      let? tls_backend := aws_from_env env http (now / NANOS)
                            {| aws_region := region; aws_key_id := tls_key_id; aws_endpoint := o_aws_kms_endpoint o |} in
      Ok (KmsKeySource backend (file_tls c) (Some (kms_tls_signer tls_backend)))
  | None => Ok (KmsKeySource backend (file_tls c) None)
  end.

(** [GcpKmsEd25519Backend::new]: the token of the metadata server or of the
    environment, asked for at each call. *)
Definition gcp_token (use_metadata_server : bool) : result rstr KeyError :=
  if use_metadata_server then (metadata_access_token time_max http now (metadata_source_new None)).1
  else env_access_token env.

Definition gcp_new (config : GcpKmsConfig) (use_metadata_server : bool) : result KmsEd25519Backend KeyError :=
  let client := ureq_gcp_client http (gcp_token use_metadata_server) config in
  let? k := gcp_with_transport client in
  Ok (gcp_backend client k).

(** [KeySourceKind::GcpKms] of [build_key_source]. *)
Definition gcp_key_source (c : Config) : result KeySource KeyError :=
  let o := c_options c in
  let? key_version := ok_or (o_gcp_kms_key_version o) (KeyNotFound (str "--key-source gcp-kms requires --gcp-kms-key-version")) in
  let? backend := gcp_new {| key_version_name := key_version; gcp_endpoint := o_gcp_kms_endpoint o |} (o_gcp_kms_use_metadata o) in
  match o_gcp_kms_tls_key_version o with
  | Some tls_key_version =>
      let? tls_backend := gcp_new {| key_version_name := tls_key_version; gcp_endpoint := o_gcp_kms_endpoint o |} (o_gcp_kms_use_metadata o) in
      Ok (KmsKeySource backend (file_tls c) (Some (kms_tls_signer tls_backend)))
  | None => Ok (KmsKeySource backend (file_tls c) None)
  end.

(** [KeySourceKind::Pkcs11] of [build_key_source]: the source, its session and
    the file source of its TLS material, whose seed path is never read. *)
Definition pkcs11_key_source {M : Type} `{CkLoader M} (fuel : nat) (c : Config) (m : M)
  : option (result (Pkcs11KeySource * Amortized Z M * KeySource) KeyError * M) :=
  let o := c_options c in
  let require opt flag := ok_or opt (KeyNotFound (str "--key-source pkcs11 requires " ++ str flag)) in
  let settings :=
    let? module := require (o_pkcs11_module o) "--pkcs11-module" in
    let? pin := require (o_pkcs11_pin o) "--pkcs11-pin" in
    let? token_label := require (o_pkcs11_token_label o) "--pkcs11-token-label" in
    let? key_label := require (o_pkcs11_key_label o) "--pkcs11-key-label" in
    Ok (module, pin, token_label, key_label) in
  match settings with
  | Err e => Some (Err e, m)
  | Ok (module, pin, token_label, key_label) =>
      match pkcs11_open fuel module pin token_label key_label (o_pkcs11_tls_key_label o) m with
      | None => None
      | Some (Err e, m') => Some (Err e, m')
      | Some (Ok (source, session), m') =>
          Some (Ok (source, session, FileKeySource (c_tls_key c) (c_tls_cert c) (c_tls_key c) (c_client_ca c)), m')
      end
  end.

(** ** What is built *)

Lemma aws_from_env_backend t config b : aws_from_env env http t config = Ok b -> exists k, backend_of b k.
Proof.
  unfold aws_from_env. destruct (aws_credentials_from_env env) as [cr|]; [|done].
  destruct (ureq_kms_client_new cr config) as [client|]; [|done].
  destruct (aws_with_client _ _) as [k|] eqn:E; [|done]. intros [= <-]. exists k. left. eauto.
Qed.

Lemma gcp_new_backend config m b : gcp_new config m = Ok b -> exists k, backend_of b k.
Proof. unfold gcp_new. destruct (gcp_with_transport _) as [k|] eqn:E; [|done]. intros [= <-]. exists k. right. eauto. Qed.

(** Both sources sign over validated backends, and delegate to one or not at
    all. *)
Lemma kms_key_source_backends c keys :
  aws_key_source c = Ok keys \/ gcp_key_source c = Ok keys ->
  exists b k, backend_of b k /\ ks_signer keys = kms_response_signer b /\
    (tls_delegated_signer keys = None \/ exists tb tk, backend_of tb tk /\ tls_delegated_signer keys = Some (kms_tls_signer tb)).
Proof.
  intros [H|H].
  - unfold aws_key_source in H. destruct (o_aws_kms_region _) as [region|]; [|done]. destruct (o_aws_kms_key_id _) as [key_id|]; [|done]. cbn [ok_or] in H.
    destruct (aws_from_env env http _ {| aws_region := region; aws_key_id := key_id; aws_endpoint := _ |}) as [b|] eqn:Eb; [|done].
    apply aws_from_env_backend in Eb as [k Hk]. destruct (o_aws_kms_tls_key_id _) as [tid|].
    + destruct (aws_from_env _ _ _ _) as [tb|] eqn:Et; [|done]. apply aws_from_env_backend in Et as [tk Htk]. simplify_eq. eauto 10.
    + simplify_eq. eauto 10.
  - unfold gcp_key_source in H. destruct (o_gcp_kms_key_version _) as [v|]; [|done]. cbn [ok_or] in H.
    destruct (gcp_new {| key_version_name := v; gcp_endpoint := _ |} _) as [b|] eqn:Eb; [|done].
    apply gcp_new_backend in Eb as [k Hk]. destruct (o_gcp_kms_tls_key_version _) as [tv|].
    + destruct (gcp_new _ _) as [tb|] eqn:Et; [|done]. apply gcp_new_backend in Et as [tk Htk]. simplify_eq. eauto 10.
    + simplify_eq. eauto 10.
Qed.

Lemma delegated_validated_Ok chain signer u :
  delegated_validated chain signer = Ok u ->
  exists leaf rest raw, chain = leaf :: rest /\ certificate_spki leaf = Ok (ED25519_SPKI_PREFIX ++ raw) /\
    tls_public_key_spki_der signer = Ok (ED25519_SPKI_PREFIX ++ raw) /\ length raw = ED25519_PUBLIC_KEY_LEN.
Proof.
  unfold delegated_validated, leaf_ed25519_raw_point. destruct chain as [|leaf rest]; [done|]. cbn [head ok_or].
  destruct (certificate_spki leaf) as [spki|] eqn:Es; cbn [map_err]; [|done].
  destruct (ed25519_raw_point_from_spki spki) as [raw|] eqn:Er; cbn [map_err]; [|done].
  destruct (tls_public_key_spki_der signer) as [der|] eqn:Ed; cbn [map_err]; [|done].
  destruct (ed25519_raw_point_from_spki der) as [raw'|] eqn:Er'; cbn [map_err]; [|done]. case_bool_decide as Heq; [|done]. subst raw'.
  apply ed25519_raw_point_from_spki_Ok in Er as [-> Hl]. apply ed25519_raw_point_from_spki_Ok in Er' as [-> _]. intros _.
  exists leaf, rest, raw. done.
Qed.
End Device.

Section Delegated.
Context `{SJ : SerdeJson, SS : SerdeSer, TX : SerdeTexts, SB : StandardBase64, SD : StandardDecode, SH : Sha2, HM : HmacSha256}.
Context `{B64 : Base64, DK : Dalek, HO : !Host, LC : Lowercase, FS : Fs, PL : Platform}.
Context (env : rstr -> option rstr) (http : OutRequest -> HttpOutcome) (time_max now : Z).

(** C37: A sidecar that starts with its keys in a cloud service signs with nothing
    else: every response signature it makes verifies under the key it
    advertises; and where the handshake is delegated, no private TLS key is
    handed to rustls, the certificate it presents carries an Ed25519 key, and
    every handshake signature the service returns verifies under that very
    key, whatever the service answers. *)
Theorem delegated_handshake_verifies f args sc :
  run f args = Ok sc -> (o_key_source (c_options (sc_config sc)) = KeyAwsKms \/ o_key_source (c_options (sc_config sc)) = KeyGcpKms) ->
  (device_key_source (sc_config sc) = aws_key_source env http now (sc_config sc) \/
   device_key_source (sc_config sc) = gcp_key_source env http time_max now (sc_config sc)) ->
  (exists vk, response_public_key (ks_signer (sc_keys sc)) = Ok vk /\
     forall pre sg, sign_response (ks_signer (sc_keys sc)) pre = Ok sg -> verify_ed25519 pre sg vk = Ok tt) /\
  (forall signer, tls_delegated_signer (sc_keys sc) = Some signer ->
     tm_key (sc_tls sc) = DelegatedKey signer /\
     exists leaf rest raw vk, tm_chain (sc_tls sc) = leaf :: rest /\ certificate_spki leaf = Ok (ED25519_SPKI_PREFIX ++ raw) /\
       vk_from_bytes raw = Ok vk /\
       forall message sig, sign_tls_ed25519 signer message = Ok sig -> verify_ed25519 message (b64url_encode sig) vk = Ok tt).
Proof.
  intros Hr Hk Hd. apply run_started in Hr as St. pose proof (st_keys _ _ _ St) as Hkeys.
  assert (Hdev : device_key_source (sc_config sc) = Ok (sc_keys sc)).
  { unfold build_key_source in Hkeys. by destruct Hk as [E|E]; rewrite E in Hkeys. }
  destruct (kms_key_source_backends env http time_max now (sc_config sc) (sc_keys sc)) as (b & k & Hb & Hs & Ht).
  { destruct Hd as [Hd|Hd]; [left|right]; congruence. }
  split.
  - exists (kk_verify_key k). rewrite Hs. destruct (backend_facts b k Hb) as (H1 & _ & _ & H4 & _). done.
  - intros signer Hsg. destruct (st_tls _ _ _ St) as (_ & _ & Hm). rewrite Hsg in Hm. destruct Hm as [Hkey Hval]. split; [done|].
    destruct (delegated_validated_Ok _ _ _ Hval) as (leaf & rest & raw & Hc & Hl & Hspki & Hlen).
    destruct Ht as [Ht|(tb & tk & Htb & Ht)]; [congruence|]. assert (Es : signer = kms_tls_signer tb) by congruence. subst signer.
    destruct (backend_facts tb tk Htb) as (_ & (raw' & Hr' & Hvk) & Hsign & _). assert (raw' = raw).
    { rewrite Hr' in Hspki. by injection Hspki as E. }
    subst raw'. exists leaf, rest, raw, (kk_verify_key tk). split_and!; [done..|]. intros message sig Hm. by apply Hsign in Hm as [_ ?].
Qed.
End Delegated.

(** ** A sample start *)

Import Toy ToyProxy ToyPolicy.

#[local] Existing Instance ascii_only_lowercase.
#[local] Existing Instance sample_fs.
#[local] Existing Instance linux.
#[local] Instance device_standard : StandardBase64 := toy_encode.
#[local] Instance device_texts : SerdeTexts := {| value_display _ := []; de_error_display _ := []; ser_error_display _ := [] |}.
#[local] Instance device_hmac : HmacSha256 := fun key data => sha256_digest (key ++ data).

(** The service behind one endpoint holds one key. *)
Definition kms_http (r : OutRequest) : HttpOutcome :=
  match List.find (fun h => bool_decide (h.1 = str "X-Amz-Target")) (or_headers r) with
  | Some (_, target) =>
      match local_kms_transport kms_seed target (or_body r) with
      | Ok body => HttpOk {| hb_bytes := body; hb_error := None |}
      | Err e => HttpTransport (key_error_display e)
      end
  | None => HttpTransport (str "no target")
  end.

Definition kms_env (var : rstr) : option rstr := Some (str "credential").

#[local] Instance device_host : Host := {|
  fs_read := @fs_read _ sample_host; fs_mode := @fs_mode _ sample_host; disk_of := @disk_of _ sample_host; process_env _ := None;
  pem_certs bs := Some [bs]; pem_key bs := Some bs; pem_crls _ := Some [];
  device_key_source c := @aws_key_source _ _ _ _ _ _ _ _ _ sample_host kms_env kms_http (1700000000 * NANOS) c;
  certificate_spki _ := Ok (spki_of kms_seed);
  rustls_server_config _ := true; redis_connect _ _ := true; persistent_start _ _ := true; tcp_bind _ := true; wall_clock := 0 |}.

Definition device_args : list rstr :=
  take 12 sample_args ++ drop 14 sample_args ++
  [str "--key-source"; str "aws-kms"; str "--aws-kms-region"; str "eu-north-1"; str "--aws-kms-key-id"; str "alias/response";
   str "--aws-kms-tls-key-id"; str "alias/tls"] ++ sample_inner_command.

Definition device_started (r : result Sidecar StartupError) : bool :=
  match r with
  | Ok sc => bool_decide (o_key_source (c_options (sc_config sc)) = KeyAwsKms) && is_some (tls_delegated_signer (sc_keys sc))
  | Err _ => false
  end.

Lemma device_starts : device_started (run all_features device_args) = true.
Proof. vm_compute. reflexivity. Qed.

Lemma device_source c : device_key_source c = aws_key_source kms_env kms_http (1700000000 * NANOS) c.
Proof. reflexivity. Qed.

Lemma delegated_handshake_verifies_witness :
  exists sc signer leaf rest raw vk, run all_features device_args = Ok sc /\ tm_key (sc_tls sc) = DelegatedKey signer /\
    tm_chain (sc_tls sc) = leaf :: rest /\ certificate_spki leaf = Ok (ED25519_SPKI_PREFIX ++ raw) /\ vk_from_bytes raw = Ok vk.
Proof.
  pose proof device_starts as H. destruct (run all_features device_args) as [sc|] eqn:E; [|discriminate H].
  apply andb_true_iff in H as [Hk%bool_decide_eq_true Hs]. destruct (tls_delegated_signer (sc_keys sc)) as [signer|] eqn:Es; [|discriminate Hs].
  destruct (delegated_handshake_verifies kms_env kms_http 0 (1700000000 * NANOS) all_features device_args sc E (or_introl Hk)
    (or_introl (device_source (sc_config sc)))) as [_ H].
  destruct (H signer Es) as (Hd & leaf & rest & raw & vk & Hc & Hl & Hv & _).
  exists sc, signer, leaf, rest, raw, vk. split_and!; [reflexivity|exact Hd|exact Hc|exact Hl|exact Hv].
Defined.
