(* ===== verification/ClientCli.v ===== *)
(** * The command line of the client-side proxy

    [mcps-client-proxy-cli/src/main.rs], [kms_signer.rs] and [transport.rs]:
    the arguments, the proxy built from them, and the loop that answers each
    line of standard input with one line.  Files, the TLS client, the name
    resolver, the clock and the random source are parameters; a line of input
    comes with the time at which it was read. *)

From S2P Require Import Prelude Utf8 Errors Json Canonical Strings Time Crypto Transport Signing Values Envelope.
From S2P Require Import Instances Http HttpTheorems Replay Resolver Constraints Pipeline Samples PipelineSpec.
From S2P Require Import PipelineResponses Unwrap EtcdStore Graft Policy PolicySpec KeySource Proxy ClientRequest.
From S2P Require Import ClientRequestTheorems ClientResponse ClientAudience Correlation HostSession ClientProxy Kms.
From S2P Require Import KmsTheorems.

(** ** Arguments *)

Inductive ClientKeySource : Type := CksFile | CksGcpKms.

Record CliArgs : Type := {
  ca_remote_addr : rstr;
  ca_server_name : rstr;
  ca_signer_id : rstr;
  ca_key_id : rstr;
  ca_key_source : ClientKeySource;
  ca_signing_key_seed : option rstr;
  ca_gcp_kms_key_version : option rstr;
  ca_gcp_kms_endpoint : option rstr;
  ca_gcp_kms_use_metadata : bool;
  ca_server_signer : rstr;
  ca_server_key_id : rstr;
  ca_server_pubkey : rstr;
  ca_audience : rstr;
  ca_tls_cert : rstr;
  ca_tls_key : rstr;
  ca_server_ca : rstr;
  ca_route_id : rstr;
  ca_on_behalf_of : rstr;
  ca_ttl_secs : Z;
}.

(** The locals of [parse_args]: the values read so far, by flag. *)
Record CliLocals : Type := { cl_values : gmap rstr rstr; cl_use_metadata : bool; cl_ttl_secs : Z }.

Definition locals_init : CliLocals := {| cl_values := ∅; cl_use_metadata := false; cl_ttl_secs := 300 |}.

Definition VALUE_FLAGS : list rstr :=
  [str "--remote-addr"; str "--server-name"; str "--signer-id"; str "--key-id"; str "--signing-key-seed"; str "--key-source";
   str "--gcp-kms-key-version"; str "--gcp-kms-endpoint"; str "--server-signer"; str "--server-key-id"; str "--server-pubkey";
   str "--audience"; str "--tls-cert"; str "--tls-key"; str "--server-ca"; str "--route-id"; str "--on-behalf-of"].

(** [take]: the next argument, or the error of the flag. *)
Fixpoint read_flags (argv : list rstr) (l : CliLocals) : result CliLocals rstr :=
  match argv with
  | [] => Ok l
  | arg :: rest =>
      if bool_decide (arg = str "--gcp-kms-use-metadata")
      then read_flags rest {| cl_values := cl_values l; cl_use_metadata := true; cl_ttl_secs := cl_ttl_secs l |}
      else if bool_decide (arg ∈ VALUE_FLAGS) || bool_decide (arg = str "--ttl-secs") then
        match rest with
        | [] => Err (arg ++ str " requires a value")
        | value :: rest' =>
            if bool_decide (arg = str "--ttl-secs") then
              let? ttl := ok_or (parse_i64 value) (str "invalid --ttl-secs") in
              read_flags rest' {| cl_values := cl_values l; cl_use_metadata := cl_use_metadata l; cl_ttl_secs := ttl |}
            else read_flags rest' {| cl_values := <[arg := value]> (cl_values l); cl_use_metadata := cl_use_metadata l;
                                     cl_ttl_secs := cl_ttl_secs l |}
        end
      else Err (str "unknown argument '" ++ arg ++ str "'")
  end.

Definition client_parse_args (argv : list rstr) : result CliArgs rstr :=
  let? l := read_flags argv locals_init in
  let value flag := cl_values l !! str flag in
  let req flag := ok_or (value flag) (str flag ++ str " is required") in
  let named := default (str "file") (value "--key-source") in
  let? key_source :=
    if bool_decide (named = str "file") then Ok CksFile
    else if bool_decide (named = str "gcp-kms") then Ok CksGcpKms
    else Err (str "unknown --key-source '" ++ named ++ str "' (file|gcp-kms)") in
  try? match key_source with
       | CksFile => if bool_decide (value "--signing-key-seed" = None)
                    then Err (str "--signing-key-seed is required for --key-source file") else Ok tt
       | CksGcpKms => if bool_decide (value "--gcp-kms-key-version" = None)
                      then Err (str "--gcp-kms-key-version is required for --key-source gcp-kms") else Ok tt
       end ;;
  let? remote_addr := req "--remote-addr" in
  let? server_name := req "--server-name" in
  let? signer_id := req "--signer-id" in
  let? key_id := req "--key-id" in
  let? server_signer := req "--server-signer" in
  let? server_key_id := req "--server-key-id" in
  let? server_pubkey := req "--server-pubkey" in
  let? audience := req "--audience" in
  let? tls_cert := req "--tls-cert" in
  let? tls_key := req "--tls-key" in
  let? server_ca := req "--server-ca" in
  Ok {| ca_remote_addr := remote_addr; ca_server_name := server_name; ca_signer_id := signer_id; ca_key_id := key_id;
        ca_key_source := key_source; ca_signing_key_seed := value "--signing-key-seed";
        ca_gcp_kms_key_version := value "--gcp-kms-key-version"; ca_gcp_kms_endpoint := value "--gcp-kms-endpoint";
        ca_gcp_kms_use_metadata := cl_use_metadata l; ca_server_signer := server_signer; ca_server_key_id := server_key_id;
        ca_server_pubkey := server_pubkey; ca_audience := audience; ca_tls_cert := tls_cert; ca_tls_key := tls_key;
        ca_server_ca := server_ca; ca_route_id := default (str "tools") (value "--route-id");
        ca_on_behalf_of := default (str "user:demo") (value "--on-behalf-of"); ca_ttl_secs := cl_ttl_secs l |}.

(** ** The proxy *)

(** What the process is given: files, the TLS client of [mcps-transport], the
    resolver and, in a build with the [gcp_kms] feature, the Cloud KMS. *)
Class ClientHost (Net : Type) := {
  read_file : rstr -> result bytes rstr;
  tls_from_pem : bytes -> bytes -> bytes -> result unit rstr;
  mtls_client_new : rstr -> result unit rstr;
  to_socket_addrs : rstr -> result (list rstr) rstr;
  mtls_transport : rstr -> rstr -> Net;
}.

Section Build.
Context `{Base64, Sha2, DK : Dalek, ClientHost Net}.
Context (gcp_kms : option (GcpKmsConfig -> bool -> result KmsEd25519Backend KeyError)).

(** [read_to_string] fails on bytes that are no UTF-8. *)
Definition resolve_inline_or_file (value : rstr) : result rstr rstr :=
  match strip_prefix (str "@") value with
  | Some path =>
      let? bs := map_err (fun e => str "read '" ++ path ++ str "': " ++ e) (read_file path) in
      let? text := ok_or (from_utf8 bs) (str "read '" ++ path ++ str "': stream did not contain valid UTF-8") in
      Ok (trim text)
  | None => Ok value
  end.

Definition client_signing_key (seed_b64url : rstr) : result SigningKey rstr :=
  let? bs := map_err (fun _ => str "invalid --signing-key-seed b64url") (b64url_decode seed_b64url) in
  let? array := ok_or (try_into_array 32 bs) (str "signing key seed must be 32 bytes") in
  Ok (sk_from_seed_bytes array).

Definition parse_audience (value : rstr) : result AudienceTuple rstr :=
  match str_split 44 value with
  | [scheme; host; port; tenant; route; realm] =>
      let? port := ok_or (parse_unsigned 65535 port) (str "audience port must be u16") in
      map_err (fun e => str "invalid --audience: " ++ wire_code e) (audience_new scheme host port tenant route realm)
  | f => Err (str "--audience must be scheme,host,port,tenant,route,realm (got " ++ display_unsigned (Z.of_nat (length f)) ++ str " fields)")
  end.

(** [KmsClientSigner] over a backend. *)
Definition kms_client_signer (backend : KmsEd25519Backend) (id key_id : rstr) : ClientSigner := {|
  signer_id := id; signer_key_id := key_id; custody := NonExporting;
  sign_preimage preimage := let? raw := map_err (fun _ => ActorBindingFailed) (sign_raw_ed25519 backend preimage) in Ok (b64url_encode raw) |}.

(** [KmsClientSigner::verification_key]: the last 32 bytes of the document. *)
Definition kms_client_verification_key (backend : KmsEd25519Backend) : result VerificationKey rstr :=
  let? spki := map_err (fun e => str "gcp-kms public key: " ++ key_error_display e) (public_key_spki_der backend) in
  let? raw := ok_or (try_into_array 32 (drop (length spki - 32) spki)) (str "gcp-kms public key SPKI too short") in
  map_err (fun e => str "gcp-kms: invalid Ed25519 public key: " ++ wire_code e) (vk_from_bytes raw).

Definition build_kms_signer (args : CliArgs) (base_policy : SignerPolicy) : result (ClientSigner * SignerPolicy) rstr :=
  match gcp_kms with
  | None => Err (str "--key-source gcp-kms requires a build with the `gcp_kms` feature")
  | Some gcp_new =>
      let? key_version := ok_or (ca_gcp_kms_key_version args) (str "--gcp-kms-key-version is required for --key-source gcp-kms") in
      let? backend := map_err (fun e => str "gcp-kms client signer: " ++ key_error_display e)
                        (gcp_new {| key_version_name := key_version; gcp_endpoint := ca_gcp_kms_endpoint args |} (ca_gcp_kms_use_metadata args)) in
      Ok (kms_client_signer backend (ca_signer_id args) (ca_key_id args), with_require_non_exporting base_policy)
  end.

Definition build_signer (args : CliArgs) : result (ClientSigner * SignerPolicy) rstr :=
  let base_policy := signer_policy_new (ca_signer_id args) Production true in
  match ca_key_source args with
  | CksFile =>
      let? seed := ok_or (ca_signing_key_seed args) (str "--signing-key-seed is required for --key-source file") in
      let? seed_b64url := resolve_inline_or_file seed in
      let? key := client_signing_key seed_b64url in
      Ok (software_signer key (ca_signer_id args) (ca_key_id args), base_policy)
  | CksGcpKms => build_kms_signer args base_policy
  end.

Definition WALKTHROUGH_GRANT : bytes := as_bytes (str "mcps-walkthrough-grant").

Definition cli_route (args : CliArgs) (audience : AudienceTuple) : Route := {|
  rt_route_id := ca_route_id args; enforcement_mode := RequireMcps; legacy_allowed := false;
  signer_audience := {| sab_expected_server_signer := ca_server_signer args; sab_audience := audience |};
  authz_policy := both_base_forms; authz_provider := opaque_bytes_provider WALKTHROUGH_GRANT |}.

Definition build_proxy (args : CliArgs) : result (ClientProxy Net * rstr) rstr :=
  let? signing := build_signer args in
  let? server_pubkey_b64url := resolve_inline_or_file (ca_server_pubkey args) in
  let? server_key := map_err (fun e => str "invalid --server-pubkey: " ++ wire_code e) (vk_from_b64url server_pubkey_b64url) in
  let trust := resolver_insert in_memory_resolver_new (ca_server_signer args) (ca_server_key_id args) server_key in
  let? audience := parse_audience (ca_audience args) in
  let? cert := map_err (fun e => str "read --tls-cert: " ++ e) (read_file (ca_tls_cert args)) in
  let? key := map_err (fun e => str "read --tls-key: " ++ e) (read_file (ca_tls_key args)) in
  let? ca := map_err (fun e => str "read --server-ca: " ++ e) (read_file (ca_server_ca args)) in
  try? map_err (fun e => str "client TLS config: " ++ e) (tls_from_pem cert key ca) ;;
  try? map_err (fun e => str "mtls client: " ++ e) (mtls_client_new (ca_server_name args)) ;;
  let? addrs := map_err (fun e => str "resolve --remote-addr '" ++ ca_remote_addr args ++ str "': " ++ e) (to_socket_addrs (ca_remote_addr args)) in
  let? addr := ok_or (head addrs) (str "--remote-addr '" ++ ca_remote_addr args ++ str "' resolved to no address") in
  Ok (client_proxy_new (registry_register registry_new (cli_route args audience)) signing.1 signing.2 (in_memory_resolve trust)
        (mtls_transport (ca_server_name args) addr), addr).
End Build.

(** ** The remote leg *)

(** [MtlsRemoteTransport::round_trip]: one round trip of the TLS client, whose
    failure becomes a [TransportError].  [shown] is the text of the failure,
    which carries that of [rustls] or of the system; [None] is fuel exhausted. *)
Definition remote_round_trip `{Clocked Tcp, Read Str, Clocked Str, TC : !TlsClient Tcp Conn Str} (shown : ClientTransportError -> rstr)
    (addr : rstr) (instant_max : Z) (l : ClientLimits) (host : rstr) (request_bytes : bytes) : option (result bytes RemoteError) :=
  map_err (fun e => {| detail := str "mtls round-trip to " ++ addr ++ str ": " ++ shown e |}) <$> mtls_round_trip (Str := Str) instant_max l host request_bytes.

(** ** The loop *)

(** [i64] addition (release profile). *)
Definition wrap_i64 (z : Z) : Z := (z + 2 ^ 63) mod 2 ^ 64 - 2 ^ 63.

Definition call_params `{Base64, NonceSource Ns} (ns : Ns) (now : Z) (on_behalf_of : rstr) (ttl_secs : Z) : CallParams * Ns :=
  let deadline := wrap_i64 (now + ttl_secs) in
  let (nonce_bytes, ns') := fill ns 16 in
  ({| cp_on_behalf_of := on_behalf_of; cp_nonce := b64url_encode nonce_bytes; cp_issued_at := unix_to_rfc3339_utc now;
      cp_expires_at := unix_to_rfc3339_utc deadline; cp_now_unix := now; cp_deadline_unix := deadline |}, ns').

Definition error_response (id : Value) (err : ProxyError) : Value :=
  let (code, message) := match err with
    | FailedClosed e => (-32001, wire_code e)
    | TransportFailed t => (-32002, str "transport: " ++ detail t)
    | UnknownRoute r => (-32601, str "unknown route: " ++ r)
    | MalformedRequest => (-32600, str "malformed request")
    end in
  json_object [(str "jsonrpc", VString (str "2.0")); (str "id", id);
               (str "error", json_object [(str "code", VNumber (NegInt code)); (str "message", VString message)])].

(** How the process ends: [main]'s success, a failure with its text, or a panic. *)
Inductive CliEnd : Type := CliSuccess | CliFailure (err : rstr) | CliPanic.

Section Loop.
Context `{SerdeJson, !SerdeSer, Base64, Sha2, DK : Dalek, !Deserialize Draft02ResponseEnvelope}.
Context `{RT : RemoteTransport Net, NS : NonceSource Ns}.

(** The answer to a line that is not blank; [None] is a panic. *)
Definition answer_line (args : CliArgs) (line : rstr) (now : Z) (c : ClientProxy Net) (ns : Ns)
  : option (Value * ClientProxy Net * Ns) :=
  match from_slice (as_bytes line) with
  | None => Some (error_response VNull MalformedRequest, c, ns)
  | Some request =>
      if now <? 0 then None
      else
        let (params, ns') := call_params ns now (ca_on_behalf_of args) (ca_ttl_secs args) in
        match handle c (ca_route_id args) request params with
        | (Panics, _) => None
        | (Returns (Ok ok), c') => Some (pr_plain_response ok, c', ns')
        | (Returns (Err err), c') => Some (error_response (request_id request) err, c', ns')
        end
  end.

(** [run] after the proxy was built.  Each line of input comes with its time;
    [budget] is how many lines standard output takes before it fails. *)
Fixpoint cli_loop (args : CliArgs) (lines : list (result rstr rstr * Z)) (budget : option nat) (c : ClientProxy Net) (ns : Ns)
  : list Value * CliEnd :=
  match lines with
  | [] => ([], CliSuccess)
  | (Err e, _) :: _ => ([], CliFailure (str "read stdin: " ++ e))
  | (Ok line, now) :: rest =>
      if is_empty (trim line) then cli_loop args rest budget c ns
      else
        match answer_line args line now c ns with
        | None => ([], CliPanic)
        | Some (response, c', ns') =>
            match budget with
            | Some O => ([], CliFailure (str "write stdout: broken pipe"))
            | _ =>
                let (out, fin) := cli_loop args rest (pred <$> budget) c' ns' in
                (response :: out, fin)
            end
        end
  end.

Definition cli_run `{!ClientHost Net} (gcp_kms : option (GcpKmsConfig -> bool -> result KmsEd25519Backend KeyError))
    (argv : list rstr) (lines : list (result rstr rstr * Z)) (budget : option nat) (ns : Ns) : list Value * CliEnd :=
  match client_parse_args argv with
  | Err e => ([], CliFailure e)
  | Ok args =>
      match build_proxy gcp_kms args with
      | Err e => ([], CliFailure e)
      | Ok (c, _) => cli_loop args lines budget c ns
      end
  end.
End Loop.

(** ** What the client command line guarantees

    Every line that asks is answered by one line, in order and under its own
    id: with an error, or with a result whose evidence verifies under the one
    server key of the command line.  There is no other way to a result: the
    route is strict whatever the arguments are. *)

(** ** The client never panics *)

Lemma index_update_returns ks k f v m : path_get ks v = Some (VObject m) -> index_update (ks ++ [k]) f v <> Panics.
Proof.
  revert v. induction ks as [|k0 ks IH]; intros v; cbn [path_get app index_update].
  - intros [= ->]. done.
  - destruct v as [| | | | |mv]; try done. cbn [get]. intros (x & Hx & Hw)%bind_Some. rewrite Hx. cbn [default from_option id].
    specialize (IH x Hw). by destruct (index_update _ f x).
Qed.

Section NoPanic.
Context `{SS : SerdeSer, B64 : Base64, SH : Sha2, DK : Dalek}.

Lemma build_signed_request_returns id method params inputs sign :
  build_signed_request_with id method params inputs sign <> Panics.
Proof.
  unfold build_signed_request_with. destruct (client_check_canonicalization_id _); [|done].
  destruct (request_signing_preimage _); [|done]. destruct (sign _) as [sg|]; [|done].
  set (request := request_object _ _ _).
  assert (Hp : exists m, path_get [str "params"; str "_meta"; REQUEST_META_KEY; str "signature"] request = Some (VObject m)).
  { eexists. change [str "params"; str "_meta"; REQUEST_META_KEY; str "signature"] with (envelope_path Request ++ [str "signature"]).
    rewrite path_get_app. unfold request. rewrite request_object_path. reflexivity. }
  destruct Hp as [m Hm]. pose proof (index_update_returns _ (str "value") (fun _ => VString sg) _ _ Hm) as Hi.
  change ([str "params"; str "_meta"; REQUEST_META_KEY; str "signature"] ++ [str "value"]) with VALUE_PATH in Hi.
  by destruct (index_update VALUE_PATH _ _).
Qed.
End NoPanic.

(** ** Answers *)

Section Answers.
Context `{SJ : SerdeJson, SJL : !SerdeJsonLaws, SS : !SerdeSer, B64 : !Base64, SH : !Sha2, DK : !Dalek}.
Context `{D4 : !Deserialize Draft02ResponseEnvelope, L4 : !DeserializeLaws Draft02ResponseEnvelope}.
Context `{RT : RemoteTransport Net, NS : NonceSource Ns}.

Definition cli_trust (args : CliArgs) (key : VerificationKey) : TrustResolver :=
  in_memory_resolve (resolver_insert in_memory_resolver_new (ca_server_signer args) (ca_server_key_id args) key).

(** The proxy built from the arguments, whatever it has done since. *)
Definition built_from (args : CliArgs) (audience : AudienceTuple) (key : VerificationKey) (c : ClientProxy Net) : Prop :=
  registry c = registry_register registry_new (cli_route args audience) /\ trust_resolver c = cli_trust args key.

(** What may be printed for a line. *)
Definition cli_answer (args : CliArgs) (audience : AudienceTuple) (key : VerificationKey) (line : rstr) (v : Value) : Prop :=
  match from_slice (as_bytes line) with
  | None => v = error_response VNull MalformedRequest
  | Some req =>
      (exists err, v = error_response (request_id req) err) \/
      exists signed bs vr object res u, evidence bs (cli_trust args key) (call_expectation (cli_route args audience) signed) vr /\
        from_slice bs = Some object /\ get (str "result") object = Some res /\ unwrap_verified_result res = Ok u /\
        v = plain_message (request_id req) u
  end.

(** One key is trusted. *)
Lemma cli_trust_only args key s k key' : cli_trust args key s k = Ok key' -> key' = key.
Proof.
  unfold cli_trust, in_memory_resolve, resolver_insert. cbn [Resolver.bindings in_memory_resolver_new].
  destruct (decide (compose_key s k = compose_key (ca_server_signer args) (ca_server_key_id args))) as [->|Hne].
  - rewrite lookup_insert_eq. congruence.
  - rewrite lookup_insert_ne, lookup_empty by done. done.
Qed.

Lemma handle_returns c route_id req params : (handle c route_id req params).1 <> Panics.
Proof.
  unfold handle. destruct (registry_get _ _) as [route|]; [|done].
  assert (Hs : sign_call c route route_id req params <> Panics).
  { unfold sign_call. destruct (_ ≫= as_str); [|done]. destruct (resolve_authorization_binding _ _ _); [|done].
    unfold build_signed_request_with_signer. destruct (authorize_signer _ _); [|done].
    pose proof (build_signed_request_returns (request_id req) l (request_params req)
      (bind_inputs (call_inputs c route a params) (px_signer c)) (sign_preimage (px_signer c))) as H.
    by destruct (build_signed_request_with _ _ _ _ _). }
  destruct (sign_call _ _ _ _ _) as [[[binding signed]|e]|]; [|done|done].
  destruct (correlation_register _ _ _) as [[u|e] s1]; [|done]. destruct (round_trip _ _) as [[bs|e] net].
  - by destruct (take_for_response _ _ _) as [[p|e] s2].
  - by destruct (cancel _ _).
Qed.

Lemma handle_keeps args audience key c route_id req params :
  built_from args audience key c -> built_from args audience key (handle c route_id req params).2.
Proof.
  intros Hb. destruct (handle_runs c route_id req params) as [(e & He & _)|(route & binding & signed & _ & _ & _ & Hr)].
  - by rewrite He.
  - destruct (round_trip _ _) as [res net]. rewrite Hr. exact Hb.
Qed.

Lemma answer_line_spec args audience key line now c ns v c' ns' :
  built_from args audience key c -> answer_line args line now c ns = Some (v, c', ns') ->
  cli_answer args audience key line v /\ built_from args audience key c'.
Proof.
  intros Hb. unfold answer_line, cli_answer. destruct (from_slice (as_bytes line)) as [req|]; [|by intros [= <- <- <-]].
  destruct (now <? 0); [done|]. destruct (call_params _ _ _ _) as [params ns1].
  pose proof (handle_keeps args audience key c (ca_route_id args) req params Hb) as Hk.
  destruct (handle c (ca_route_id args) req params) as [[[ok|err]|] c1] eqn:Eh; cbn in Hk; [| |done]; intros [= <- <- <-].
  - split; [|done]. right. destruct (handle_runs c (ca_route_id args) req params) as [(e & He & Hno)|(route & binding & signed & (Hg & _) & _ & _ & Hr)].
    { rewrite He in Eh. injection Eh as -> ->. by destruct (Hno ok). }
    destruct Hb as [Hreg Htr]. assert (Ert : route = cli_route args audience).
    { unfold registry_get in Hg. rewrite Hreg in Hg. cbn [registry_register routes registry_new] in Hg.
      change (ca_route_id args) with (rt_route_id (cli_route args audience)) in Hg. rewrite lookup_insert_eq in Hg. congruence. }
    subst route. destruct (round_trip _ _) as [[bs|e] net]; rewrite Hr in Eh; injection Eh as Eh _; [|done].
    destruct (_ <? _); [done|]. rewrite Htr in Eh.
    apply deliver_Ok in Eh as [(vr & object & res & u & Hev & Ho & Hres & Hu & ->)|(Hm & _)]; [|done].
    exists signed, bs, vr, object, res, u. done.
  - split; [|done]. left. by eexists.
Qed.

(** The lines that ask for an answer. *)
Definition asked (l : result rstr rstr * Z) : option rstr :=
  match l.1 with Ok line => if is_empty (trim line) then None else Some line | Err _ => None end.

Lemma cli_loop_spec args audience key lines budget c ns out fin :
  built_from args audience key c -> cli_loop args lines budget c ns = (out, fin) ->
  exists answered rest, omap asked lines = answered ++ rest /\ Forall2 (cli_answer args audience key) answered out /\
    (fin = CliSuccess -> rest = []) /\
    (budget = None -> Forall (fun l => is_ok l.1 = true /\ 0 <= l.2) lines -> fin = CliSuccess).
Proof.
  revert budget c ns out fin. induction lines as [|[[line|e] now] lines IH]; intros budget c ns out fin Hb; cbn [cli_loop].
  - intros [= <- <-]. exists [], []. by split_and!.
  - cbn [omap list_omap asked fst]. destruct (is_empty (trim line)) eqn:Eb.
    { intros H. destruct (IH _ _ _ _ _ Hb H) as (an & rest & ? & ? & ? & Hs). exists an, rest. split_and!; [done..|].
      intros Hn Hf. apply Hs; [done|]. by inversion Hf. }
    destruct (answer_line args line now c ns) as [[[v c'] ns']|] eqn:Ea.
    + destruct (answer_line_spec _ _ _ _ _ _ _ _ _ _ Hb Ea) as [Hv Hb'].
      assert (Hgo : forall b out1 fin1, cli_loop args lines b c' ns' = (out1, fin1) -> (budget = None -> b = None) ->
        exists answered rest, line :: omap asked lines = answered ++ rest /\ Forall2 (cli_answer args audience key) answered (v :: out1) /\
          (fin1 = CliSuccess -> rest = []) /\
          (budget = None -> Forall (fun l => is_ok l.1 = true /\ 0 <= l.2) ((Ok line, now) :: lines) -> fin1 = CliSuccess)).
      { intros b out1 fin1 H Hbud. destruct (IH _ _ _ _ _ Hb' H) as (an & rest & Hl & Hf & Hr & Hs). exists (line :: an), rest.
        split_and!; [by rewrite Hl|by constructor|done|]. intros Hn Hall. apply Hs; [by apply Hbud|]. by inversion Hall. }
      destruct budget as [[|b]|].
      * intros [= <- <-]. exists [], (line :: omap asked lines). by split_and!.
      * destruct (cli_loop args lines _ c' ns') as [out1 fin1] eqn:El. intros [= <- <-]. by eapply Hgo.
      * destruct (cli_loop args lines _ c' ns') as [out1 fin1] eqn:El. intros [= <- <-]. by eapply Hgo.
    + intros [= <- <-]. exists [], (line :: omap asked lines). split_and!; [done..|]. intros _ Hall. exfalso.
      apply Forall_cons in Hall as [[_ Hnow] _]. cbn in Hnow. unfold answer_line in Ea. destruct (from_slice _) as [req|]; [|done].
      destruct (Z.ltb_spec now 0); [lia|]. destruct (call_params _ _ _ _) as [params ns1].
      pose proof (handle_returns c (ca_route_id args) req params) as Hp. by destruct (handle _ _ _ _) as [[[?|?]|] ?].
  - intros [= <- <-]. exists [], (omap asked lines). split_and!; [done..|]. intros _ Hall. by apply Forall_cons in Hall as [[? _] _].
Qed.

Context `{CH : !ClientHost Net}.

End Answers.

(** ** A client key in the cloud *)

Section Kms.
Context `{SJ : SerdeJson, SS : SerdeSer, TX : SerdeTexts, SB : StandardBase64, SD : StandardDecode, B64 : Base64, DK : Dalek}.

(** The key a client publishes is the key of the document its backend
    validated, every signature it makes verifies under it, and only such a
    signer passes the policy of its route. *)
Theorem kms_client_signer_verifies b k id key_id :
  backend_of b k ->
  kms_client_verification_key b = Ok (kk_verify_key k) /\
  (forall pre sg, sign_preimage (kms_client_signer b id key_id) pre = Ok sg -> verify_ed25519 pre sg (kk_verify_key k) = Ok tt) /\
  (forall policy signer, authorize_signer (with_require_non_exporting policy) signer = Ok tt -> custody signer = NonExporting).
Proof.
  intros Hb. destruct (backend_facts b k Hb) as (_ & (raw & Hs & Hv) & Hsign & _). cbn in Hs.
  destruct (backend_key b k Hb) as [Hpk (service & Hk)]. apply kms_key_Ok in Hk as (_ & raw' & Hder & Hlen & _).
  rewrite Hpk, Hder in Hs. injection Hs as Hraw. subst raw'. split_and!.
  - unfold kms_client_verification_key. rewrite Hpk, Hder. cbn [map_err].
    assert (E : drop (length (ED25519_SPKI_PREFIX ++ raw) - 32) (ED25519_SPKI_PREFIX ++ raw) = raw).
    { rewrite length_app, Hlen. apply (drop_app_length ED25519_SPKI_PREFIX). }
    rewrite E. unfold try_into_array. rewrite bool_decide_eq_true_2 by done. cbn [ok_or]. by rewrite Hv.
  - intros pre sg H. cbn in H. destruct (sign_raw_ed25519 b pre) as [sig|] eqn:Es; cbn in H; [|done]. injection H as <-.
    by apply Hsign in Es as [_ ?].
  - intros policy signer H. unfold authorize_signer in H. cbn [require_non_exporting with_require_non_exporting] in H.
    destruct (custody signer) eqn:Ec; [done| |]; cbn in H; repeat (case_match; try done).
Qed.
End Kms.

(** The remote leg comes back, with a body within the limit of the client or
    with a transport failure. *)
Lemma remote_round_trip_total `{Clocked Tcp, Read Str, Clocked Str, TC : !TlsClient Tcp Conn Str} shown addr instant_max l host request_bytes :
  exists r, remote_round_trip (Str := Str) shown addr instant_max l host request_bytes = Some r /\
    forall resp, r = Ok resp -> blen resp <= Z.max 0 (max_response_bytes l).
Proof.
  destruct (mtls_round_trip_total (Cli := Str) instant_max l host request_bytes) as (r & E & Hr). unfold remote_round_trip. rewrite E.
  eexists. split; [done|]. destruct r as [resp|]; [|done]. intros ? [= <-]. by apply Hr.
Qed.

(** ** A sample session *)

Import Toy ToyPolicy ToyProxy.

(** The sidecar on the other side of the remote leg, and a host with every
    file it needs. *)
#[local] Instance cli_net : RemoteTransport (World InMemoryReplayCache nat) :=
  sidecar_net (IS := toy_inner good_answer) sample_call_proxy sample_now None.
#[local] Instance cli_host : ClientHost (World InMemoryReplayCache nat) := {|
  read_file _ := Ok []; tls_from_pem _ _ _ := Ok tt; mtls_client_new _ := Ok tt; to_socket_addrs a := Ok [a];
  mtls_transport _ _ := sample_world |}.

Definition cli_key_text : rstr := toy_encode (1 :: replicate 31 0).

Definition cli_argv : list rstr :=
  [str "--remote-addr"; str "10.0.0.1:8443"; str "--server-name"; str "proxy.local"; str "--signer-id"; str "did:a"; str "--key-id"; str "k1";
   str "--signing-key-seed"; cli_key_text; str "--server-signer"; str "did:srv"; str "--server-key-id"; str "s1"; str "--server-pubkey"; cli_key_text;
   str "--audience"; str "https,api,443,t,r,"; str "--tls-cert"; str "c.pem"; str "--tls-key"; str "k.pem"; str "--server-ca"; str "ca.pem";
   str "--route-id"; str "r"; str "--ttl-secs"; str "30"].

Definition cli_line : rstr := json_text "{'jsonrpc':'2.0','id':7,'method':'tools/call','params':{'name':'t'}}".

Definition cli_input : list (result rstr rstr * Z) :=
  [(Ok cli_line, sample_now); (Ok (str "  "), sample_now); (Ok (str "not json"), sample_now); (Ok (json_text "{'id':8}"), sample_now)].

Definition cli_sample : list Value * CliEnd := cli_run None cli_argv cli_input None (seeded_new [1; 2; 3]).

Lemma cli_sample_run :
  cli_sample =
  ([plain_message (VNumber (PosInt 7)) (UObject (VObject [(str "ok", VBool true)]));
    error_response VNull MalformedRequest; error_response (VNumber (PosInt 8)) MalformedRequest], CliSuccess).
Proof. vm_compute. reflexivity. Qed.

Lemma cli_sample_shape out fin : cli_sample = (out, fin) -> length out = 3%nat.
Proof. rewrite cli_sample_run. by intros [= <- _]. Qed.

