(* ===== verification/FileSystem.v ===== *)
(** * Paths and the file system

    What the file server uses of [std::path] and [std::fs] on Unix: lexical
    components, the walk of a path through directories and symbolic links, and
    the calls built on it.  Permissions and a disk that fills up are a class. *)

From S2P Require Import Prelude Utf8 Json Canonical Strings.

Definition drop_last {A} (l : list A) : list A := take (pred (length l)) l.

(** ** std::path *)

Definition SLASH : rchar := 47.

Definition is_absolute (path : rstr) : bool := starts_with [SLASH] path.

Definition DOT : rstr := str ".".
Definition DOTDOT : rstr := str "..".

Inductive Component : Type := RootDir | CurDir | ParentDir | Normal (name : rstr).

(** A segment between separators; an empty one and a dot vanish. *)
Definition segment (seg : rstr) : option Component :=
  if is_empty seg || bool_decide (seg = DOT) then None
  else if bool_decide (seg = DOTDOT) then Some ParentDir else Some (Normal seg).

(** [Path::components]: a dot counts only at the very start. *)
Definition components (path : rstr) : list Component :=
  let segs := str_split SLASH path in
  (if is_absolute path then [RootDir] else if bool_decide (head segs = Some DOT) then [CurDir] else []) ++ omap segment segs.

Definition file_name (path : rstr) : option rstr :=
  match last (components path) with Some (Normal name) => Some name | _ => None end.

Definition component_str (c : Component) : rstr :=
  match c with RootDir => [] | CurDir => DOT | ParentDir => DOTDOT | Normal name => name end.

(** [Path::parent], up to separators that are repeated or trailing. *)
Definition parent (path : rstr) : option rstr :=
  match last (components path) with
  | None | Some RootDir => None
  | _ =>
      match drop_last (components path) with
      | [RootDir] => Some [SLASH]
      | cs => Some (join_with SLASH (component_str <$> cs))
      end
  end.

(** [Path::join]. *)
Definition path_join (base path : rstr) : rstr :=
  if is_absolute path then path
  else if is_empty base || bool_decide (last base = Some SLASH) then base ++ path
  else base ++ [SLASH] ++ path.

(** The text of an absolute path. *)
Definition absolute (p : list rstr) : rstr := [SLASH] ++ join_with SLASH p.

(** ** std::fs *)

Inductive Node : Type := NDir | NFile (content : bytes) | NLink (target : rstr).

Inductive FsError : Type := NotFound | NotADirectory | FilesystemLoop | PermissionDenied | IsADirectory | InvalidInput | StorageFull.

(** The nodes by absolute path, and the working directory of the process. *)
Record FileSystem : Type := { fs_nodes : gmap (list rstr) Node; fs_cwd : list rstr }.

(** What the process may do, how far a write gets before the disk is full
    ([None] when all of it is written), and which entries of a directory fail to
    be read or described. *)
Class Access := {
  searchable : list rstr -> bool;
  readable : list rstr -> bool;
  writable : list rstr -> bool;
  short_write : list rstr -> bytes -> option nat;
  entry_error : list rstr -> option FsError;
  entry_metadata_ok : list rstr -> bool;
  fs_error_display : FsError -> rstr;
}.

(** The kernel follows this many links in one path. *)
Definition MAX_LINKS : nat := 40.

Section Fs.
Context `{Access}.

Definition enter (fs : FileSystem) (dir : list rstr) : result unit FsError :=
  match fs_nodes fs !! dir with
  | Some NDir => if searchable dir then Ok tt else Err PermissionDenied
  | Some _ => Err NotADirectory
  | None => Err NotFound
  end.

(** The walk: [cur] is where it stands, never a link.  With [create] a last
    name that does not exist yet is accepted. *)
Fixpoint walk (create : bool) (fs : FileSystem) (links : nat) : list rstr -> list rstr -> result (list rstr) FsError :=
  fix go cur segs :=
    match segs with
    | [] => Ok cur
    | seg :: rest =>
        try? enter fs cur ;;
        if is_empty seg || bool_decide (seg = DOT) then go cur rest
        else if bool_decide (seg = DOTDOT) then go (drop_last cur) rest
        else
          match fs_nodes fs !! (cur ++ [seg]) with
          | Some (NLink target) =>
              match links with
              | O => Err FilesystemLoop
              | S links' => walk create fs links' (if is_absolute target then [] else cur) (str_split SLASH target ++ rest)
              end
          | Some _ => go (cur ++ [seg]) rest
          | None => if create && is_empty rest then Ok (cur ++ [seg]) else Err NotFound
          end
    end.

(** A path with a NUL is refused, and the empty one names nothing. *)
Definition resolve (create : bool) (fs : FileSystem) (path : rstr) : result (list rstr) FsError :=
  if bool_decide (0 ∈ path) then Err InvalidInput
  else if is_empty path then Err NotFound
  else walk create fs MAX_LINKS (if is_absolute path then [] else fs_cwd fs) (str_split SLASH path).

Definition fs_canonicalize (fs : FileSystem) (path : rstr) : result (list rstr) FsError := resolve false fs path.

(** The node a path leads to. *)
Definition fs_metadata (fs : FileSystem) (path : rstr) : result Node FsError :=
  let? p := resolve false fs path in
  ok_or (fs_nodes fs !! p) NotFound.

Definition fs_read (fs : FileSystem) (path : rstr) : result bytes FsError :=
  let? p := resolve false fs path in
  match fs_nodes fs !! p with
  | Some (NFile content) => if readable p then Ok content else Err PermissionDenied
  | Some _ => Err IsADirectory
  | None => Err NotFound
  end.

(** The places in a directory with their nodes, links not followed. *)
Definition children (fs : FileSystem) (dir : list rstr) : list (list rstr * rstr * Node) :=
  omap (fun kv => match last kv.1 with
                  | Some name => if bool_decide (kv.1 = dir ++ [name]) then Some (kv.1, name, kv.2) else None
                  | None => None
                  end) (map_to_list (fs_nodes fs)).

Definition fs_read_dir (fs : FileSystem) (path : rstr) : result (list (list rstr * rstr * Node)) FsError :=
  let? p := resolve false fs path in
  match fs_nodes fs !! p with
  | Some NDir => if readable p then Ok (children fs p) else Err PermissionDenied
  | Some _ => Err NotADirectory
  | None => Err NotFound
  end.

Definition put_file (fs : FileSystem) (p : list rstr) (content : bytes) : FileSystem :=
  {| fs_nodes := <[p := NFile content]> (fs_nodes fs); fs_cwd := fs_cwd fs |}.

(** [std::fs::write]: open or create, truncate, write. *)
Definition fs_write (fs : FileSystem) (path : rstr) (content : bytes) : result unit FsError * FileSystem :=
  match resolve true fs path with
  | Err e => (Err e, fs)
  | Ok p =>
      let put := match short_write p content with
                 | None => (Ok tt, put_file fs p content)
                 | Some n => (Err StorageFull, put_file fs p (take n content))
                 end in
      match fs_nodes fs !! p with
      | Some (NFile _) => if writable p then put else (Err PermissionDenied, fs)
      | Some _ => (Err IsADirectory, fs)
      | None => if writable (drop_last p) then put else (Err PermissionDenied, fs)
      end
  end.

End Fs.

(** ** Facts on lists and paths *)

Lemma list_last_inv {A} (l : list A) : l = [] \/ exists l' x, l = l' ++ [x].
Proof. induction l as [|x l _] using rev_ind; [by left|right; by exists l, x]. Qed.

Lemma drop_last_snoc {A} (l : list A) x : drop_last (l ++ [x]) = l.
Proof. unfold drop_last. rewrite length_app. cbn. replace (pred (length l + 1)) with (length l) by lia. apply take_app_length. Qed.

Lemma drop_last_prefix {A} (l : list A) : drop_last l `prefix_of` l.
Proof. exists (drop (pred (length l)) l). unfold drop_last. by rewrite take_drop. Qed.

Lemma prefix_snoc_inv {A} (k l : list A) x : k `prefix_of` l ++ [x] -> k `prefix_of` l \/ k = l ++ [x].
Proof.
  intros [m Hm]. destruct (list_last_inv m) as [->|[m' [y ->]]]; [right; by rewrite app_nil_r in Hm|left].
  rewrite (assoc_L (++)) in Hm. apply app_inj_tail in Hm as [-> _]. by exists m'.
Qed.

Lemma split_on_app_sep sep part a b : split_on sep part (a ++ sep :: b) = split_on sep part a ++ str_split sep b.
Proof.
  revert part. induction a as [|c a IH]; intros part; cbn [app split_on].
  - by rewrite Z.eqb_refl.
  - destruct (c =? sep); [by rewrite IH|apply IH].
Qed.

Lemma split_on_clean sep part s : sep ∉ s -> split_on sep part s = [part ++ s].
Proof.
  revert part. induction s as [|c s IH]; intros part Hs; cbn [split_on]; [by rewrite app_nil_r|].
  apply not_elem_of_cons in Hs as [Hc Hs]. rewrite (proj2 (Z.eqb_neq c sep)) by congruence. rewrite IH by done.
  by rewrite <- (assoc_L (++)).
Qed.

Lemma str_split_join_with sep ps : ps <> [] -> Forall (fun p => sep ∉ p) ps -> str_split sep (join_with sep ps) = ps.
Proof.
  intros Hn. induction ps as [|p ps IH]; [done|]. intros [Hp Hps]%Forall_cons. destruct ps as [|q ps].
  - cbn. unfold str_split. by rewrite split_on_clean.
  - rewrite join_with_cons by done. unfold str_split at 1. cbn [app]. rewrite split_on_app_sep, split_on_clean, IH by done. done.
Qed.

(** Joining paths concatenates their segments. *)
Lemma str_split_path_join base path :
  base <> [] -> is_absolute path = false ->
  exists base', str_split SLASH (path_join base path) = str_split SLASH base' ++ str_split SLASH path /\
    (base = base' \/ base = base' ++ [SLASH]) /\ path_join base path = base' ++ [SLASH] ++ path.
Proof.
  intros Hb Ha. unfold path_join. rewrite Ha. destruct (list_last_inv base) as [->|[b' [c ->]]]; [done|].
  replace (is_empty (b' ++ [c])) with false by (by destruct b'). cbn [orb]. rewrite last_snoc. case_bool_decide as E.
  - injection E as ->. exists b'. rewrite <- (assoc_L (++)). split_and!; [apply split_on_app_sep|by right|done].
  - exists (b' ++ [c]). split_and!; [apply split_on_app_sep|by left|done].
Qed.

(** A name a directory can hold. *)
Definition name_ok (name : rstr) : Prop := name <> [] /\ name <> DOT /\ name <> DOTDOT /\ (SLASH ∉ name) /\ (0 ∉ name).

Lemma name_ok_slashes p : Forall name_ok p -> Forall (fun n => SLASH ∉ n) p.
Proof. intros H. eapply Forall_impl; [exact H|]. by intros n (_ & _ & _ & ? & _). Qed.

Lemma join_with_nul p : Forall name_ok p -> 0 ∉ join_with SLASH p.
Proof.
  induction 1 as [|n p (_ & _ & _ & _ & Hn) Hp IH]; [cbn; set_solver|]. destruct p as [|m p]; [done|].
  rewrite join_with_cons by done. rewrite !not_elem_of_app. split_and!; [done| |done]. unfold SLASH. set_solver.
Qed.

Lemma absolute_split p : Forall name_ok p -> str_split SLASH (absolute p) = [] :: (if decide (p = []) then [[]] else p).
Proof.
  intros Hp. unfold absolute. change (str_split SLASH ([SLASH] ++ join_with SLASH p)) with ([] :: str_split SLASH (join_with SLASH p)).
  f_equal. case_decide as E; [by subst p|]. by apply str_split_join_with, name_ok_slashes.
Qed.

(** ** Facts on walks *)

Section Walks.
Context `{AC : Access}.

(** Every node has proper names, links no NUL, and the working directory can be
    reached. *)
Record fs_wf (fs : FileSystem) : Prop := {
  fw_names p node : fs_nodes fs !! p = Some node -> Forall name_ok p;
  fw_links p target : fs_nodes fs !! p = Some (NLink target) -> 0 ∉ target;
  fw_cwd dir : dir `prefix_of` fs_cwd fs -> enter fs dir = Ok tt;
}.

(** A place a walk can stand at: the directories above it can be entered, its
    names are proper and no link is there. *)
Record stand (fs : FileSystem) (p : list rstr) : Prop := {
  st_above dir name : (dir ++ [name]) `prefix_of` p -> enter fs dir = Ok tt;
  st_names : Forall name_ok p;
  st_no_link target : fs_nodes fs !! p <> Some (NLink target);
}.

Lemma enter_dir fs dir : enter fs dir = Ok tt -> fs_nodes fs !! dir = Some NDir.
Proof. unfold enter. by destruct (fs_nodes fs !! dir) as [[]|]. Qed.

Lemma stand_prefix fs p dir : stand fs p -> dir `prefix_of` p -> stand fs dir.
Proof.
  intros [Ha Hn Hl] Hd. split.
  - intros d n H. apply (Ha d n). by trans dir.
  - destruct Hd as [k ->]. by apply Forall_app in Hn as [? _].
  - intros target. destruct Hd as [[|n k] ->]; [rewrite app_nil_r in Hl; apply Hl|].
    rewrite (enter_dir fs dir); [done|]. apply (Ha dir n). exists k. by rewrite <- (assoc_L (++)).
Qed.

Lemma stand_snoc fs p name :
  stand fs p -> enter fs p = Ok tt -> name_ok name -> (forall target, fs_nodes fs !! (p ++ [name]) <> Some (NLink target)) -> stand fs (p ++ [name]).
Proof.
  intros [Ha Hn Hl] He Hok Hnl. split; [| |done].
  - intros d n [H|H]%prefix_snoc_inv; [by apply (Ha d n)|]. by apply app_inj_tail in H as [-> _].
  - apply Forall_app. split; [done|]. by apply Forall_singleton.
Qed.

Lemma stand_cwd fs : fs_wf fs -> stand fs (fs_cwd fs).
Proof.
  intros W. assert (Hc : fs_nodes fs !! fs_cwd fs = Some NDir) by by apply enter_dir, fw_cwd.
  split; [|by apply (fw_names fs W _ _ Hc)|by rewrite Hc]. intros d n H. apply fw_cwd; [done|]. trans (d ++ [n]); [by exists [n]|done].
Qed.

Lemma stand_root fs : fs_wf fs -> stand fs [].
Proof. intros W. apply (stand_prefix fs (fs_cwd fs)); [by apply stand_cwd|apply prefix_nil]. Qed.

(** Segments of a path without NUL. *)
Definition seg_ok (seg : rstr) : Prop := (SLASH ∉ seg) /\ (0 ∉ seg).

Lemma elem_of_join_with sep ps part x : part ∈ ps -> x ∈ part -> x ∈ join_with sep ps.
Proof.
  intros Hp Hx. induction ps as [|q ps IH]; [by apply elem_of_nil in Hp|]. destruct ps as [|r ps].
  - apply list_elem_of_singleton in Hp. by subst.
  - rewrite join_with_cons by done. rewrite !elem_of_app. apply elem_of_cons in Hp as [->|Hp]; [by left|]. right. right. by apply IH.
Qed.

Lemma seg_ok_split path : 0 ∉ path -> Forall seg_ok (str_split SLASH path).
Proof.
  intros Hz. destruct (split_on_spec SLASH [] path ltac:(apply not_elem_of_nil)) as (_ & Hj & Hf). change (split_on SLASH [] path) with (str_split SLASH path) in *.
  apply Forall_forall. intros seg Hseg. split; [exact (proj1 (Forall_forall _ _) Hf seg Hseg)|]. intros H0. apply Hz.
  change path with ([] ++ path). rewrite <- Hj. by apply (elem_of_join_with _ _ seg).
Qed.

Lemma walk_nil create fs links cur : walk create fs links cur [] = Ok cur.
Proof. by destruct links. Qed.

Lemma walk_cons create fs links cur seg rest :
  walk create fs links cur (seg :: rest) =
    (try? enter fs cur ;;
     if is_empty seg || bool_decide (seg = DOT) then walk create fs links cur rest
     else if bool_decide (seg = DOTDOT) then walk create fs links (drop_last cur) rest
     else match fs_nodes fs !! (cur ++ [seg]) with
          | Some (NLink target) =>
              match links with
              | O => Err FilesystemLoop
              | S links' => walk create fs links' (if is_absolute target then [] else cur) (str_split SLASH target ++ rest)
              end
          | Some _ => walk create fs links (cur ++ [seg]) rest
          | None => if create && is_empty rest then Ok (cur ++ [seg]) else Err NotFound
          end).
Proof. by destruct links. Qed.

(** Where a walk ends: at a place one can stand at, which exists unless it may
    be created. *)
Lemma walk_stands create fs links cur segs p :
  fs_wf fs -> stand fs cur -> is_Some (fs_nodes fs !! cur) -> Forall seg_ok segs -> walk create fs links cur segs = Ok p ->
  stand fs p /\ (fs_nodes fs !! p = None -> create = true /\ exists dir name, p = dir ++ [name] /\ enter fs dir = Ok tt).
Proof.
  intros W. revert cur segs. induction links as [links IHl] using lt_wf_ind.
  intros cur segs. revert cur. induction segs as [|seg rest IH]; intros cur Hst Hex Hsegs.
  { rewrite walk_nil. intros [= <-]. split; [done|]. intros E. rewrite E in Hex. by destruct Hex. }
  apply Forall_cons in Hsegs as [[Hsl Hz] Hrest].
  rewrite walk_cons. destruct (enter fs cur) as [[]|] eqn:He; [|done].
  destruct (is_empty seg || bool_decide (seg = DOT)) eqn:Edot; [by apply IH|].
  destruct (bool_decide (seg = DOTDOT)) eqn:Edd.
  { apply IH; [apply (stand_prefix fs cur); [done|apply drop_last_prefix]| |done].
    destruct (list_last_inv cur) as [->|[d [n ->]]]; [done|]. rewrite drop_last_snoc.
    assert (Hd : enter fs d = Ok tt) by (by apply (st_above fs _ Hst d n)). by rewrite (enter_dir _ _ Hd). }
  apply orb_false_iff in Edot as [Ee Ed]. apply bool_decide_eq_false in Ed, Edd.
  assert (Hok : name_ok seg) by (split_and!; try done; by destruct seg).
  destruct (fs_nodes fs !! (cur ++ [seg])) as [[|content|target]|] eqn:En.
  - apply IH; [|by rewrite En|done]. apply stand_snoc; try done. by rewrite En.
  - apply IH; [|by rewrite En|done]. apply stand_snoc; try done. by rewrite En.
  - destruct links as [|links]; [done|]. apply IHl; [lia| | |].
    + destruct (is_absolute target); [by apply stand_root|done].
    + destruct (is_absolute target); [|done]. rewrite (enter_dir fs []); [done|]. apply fw_cwd; [done|apply prefix_nil].
    + apply Forall_app. split; [|done]. apply seg_ok_split. by apply (fw_links fs W _ _ En).
  - destruct (create && is_empty rest) eqn:Ec; [|done]. apply andb_true_iff in Ec as [-> _]. intros [= <-]. split.
    + apply stand_snoc; try done. by rewrite En.
    + intros _. split; [done|]. by exists cur, seg.
Qed.

Lemma resolve_stands create fs path p :
  fs_wf fs -> resolve create fs path = Ok p ->
  stand fs p /\ (fs_nodes fs !! p = None -> create = true /\ exists dir name, p = dir ++ [name] /\ enter fs dir = Ok tt).
Proof.
  intros W. unfold resolve. case_bool_decide as Hz; [done|]. destruct (is_empty path); [done|]. intros Hw.
  apply (walk_stands create fs MAX_LINKS _ _ p) in Hw; [done|done| | |by apply seg_ok_split]; destruct (is_absolute path).
  - by apply stand_root.
  - by apply stand_cwd.
  - rewrite (enter_dir fs []); [done|]. apply fw_cwd; [done|apply prefix_nil].
  - rewrite (enter_dir fs (fs_cwd fs)); [done|]. by apply fw_cwd.
Qed.

(** A step to a proper name that is no link. *)
Lemma walk_name create fs links cur name rest :
  enter fs cur = Ok tt -> name_ok name -> (forall target, fs_nodes fs !! (cur ++ [name]) <> Some (NLink target)) ->
  walk create fs links cur (name :: rest) =
  match fs_nodes fs !! (cur ++ [name]) with
  | Some _ => walk create fs links (cur ++ [name]) rest
  | None => if create && is_empty rest then Ok (cur ++ [name]) else Err NotFound
  end.
Proof.
  intros He (Hn1 & Hn2 & Hn3 & _) Hl. rewrite walk_cons, He. rewrite (bool_decide_eq_false_2 _ Hn2), (bool_decide_eq_false_2 _ Hn3).
  replace (is_empty name) with false by (by destruct name). cbn [orb].
  destruct (fs_nodes fs !! (cur ++ [name])) as [[]|]; try done. by destruct (Hl target).
Qed.

(** The names of a standing place lead to it. *)
Lemma walk_along create fs links p rest :
  stand fs p -> is_Some (fs_nodes fs !! p) -> enter fs [] = Ok tt -> walk create fs links [] (p ++ rest) = walk create fs links p rest.
Proof.
  intros Hst Hex H0. revert rest Hst Hex. induction p as [|name p IH] using rev_ind; intros rest Hst Hex; [done|].
  assert (He : enter fs p = Ok tt) by (by apply (st_above fs _ Hst p name)).
  rewrite <- (assoc_L (++)). rewrite IH; [|by apply (stand_prefix fs (p ++ [name])); [done|exists [name]]|by rewrite (enter_dir _ _ He)].
  cbn [app]. rewrite walk_name; [|done| |apply (st_no_link fs _ Hst)].
  - by destruct Hex as [node ->].
  - pose proof (st_names fs _ Hst) as Hn. apply Forall_app in Hn as [_ Hn]. by apply Forall_cons in Hn as [? _].
Qed.

Lemma absolute_no_nul p : Forall name_ok p -> 0 ∉ absolute p.
Proof. intros Hp. unfold absolute. rewrite not_elem_of_app. split; [unfold SLASH; set_solver|by apply join_with_nul]. Qed.

Lemma resolve_absolute_unfold create fs p :
  fs_wf fs -> Forall name_ok p -> p <> [] -> resolve create fs (absolute p) = walk create fs MAX_LINKS [] p.
Proof.
  intros W Hn Hne. unfold resolve. rewrite bool_decide_eq_false_2 by by apply absolute_no_nul. cbn [absolute app is_empty].
  change (is_absolute (SLASH :: join_with SLASH p)) with true. change (SLASH :: join_with SLASH p) with (absolute p).
  rewrite absolute_split, decide_False by done. rewrite walk_cons, (fw_cwd fs W []) by apply prefix_nil. done.
Qed.

(** The text of a standing place resolves to it. *)
Lemma resolve_absolute create fs p :
  fs_wf fs -> stand fs p -> is_Some (fs_nodes fs !! p) -> resolve create fs (absolute p) = Ok p.
Proof.
  intros W Hst Hex. assert (H0 : enter fs [] = Ok tt) by (apply fw_cwd; [done|apply prefix_nil]).
  destruct (decide (p = [])) as [->|Hne].
  - unfold resolve. rewrite bool_decide_eq_false_2 by (unfold absolute, SLASH; cbn; set_solver). cbn [absolute app is_empty join_with].
    change (str_split SLASH [SLASH]) with ([[]; []] : list rstr). cbn [is_absolute]. change (is_absolute [SLASH]) with true.
    by rewrite !walk_cons, H0.
  - rewrite resolve_absolute_unfold by (try done; apply Hst). rewrite <- (app_nil_r p) at 1. rewrite walk_along by done. apply walk_nil.
Qed.

(** A new name, or an existing one that is no link, below a directory. *)
Lemma resolve_create fs dir name :
  fs_wf fs -> stand fs dir -> enter fs dir = Ok tt -> name_ok name ->
  (forall target, fs_nodes fs !! (dir ++ [name]) <> Some (NLink target)) ->
  resolve true fs (absolute (dir ++ [name])) = Ok (dir ++ [name]).
Proof.
  intros W Hst He Hn Hl. rewrite resolve_absolute_unfold; [|done| |by destruct dir].
  2: { apply Forall_app. split; [apply Hst|by apply Forall_singleton]. }
  rewrite walk_along; [|done|by rewrite (enter_dir _ _ He)|apply fw_cwd; [done|apply prefix_nil]].
  rewrite walk_name by done. destruct (fs_nodes fs !! (dir ++ [name])); [apply walk_nil|done].
Qed.

(** A walk that succeeds can be continued from where it ended. *)
Lemma walk_app create fs links cur segs p :
  walk false fs links cur segs = Ok p -> exists links', forall rest, walk create fs links cur (segs ++ rest) = walk create fs links' p rest.
Proof.
  revert cur segs. induction links as [links IHl] using lt_wf_ind. intros cur segs. revert cur.
  induction segs as [|seg segs IH]; intros cur.
  { rewrite walk_nil. intros [= ->]. by exists links. }
  rewrite walk_cons. destruct (enter fs cur) as [[]|] eqn:He; [|done].
  assert (G : forall cur' links', (exists links'', forall rest, walk create fs links' cur' (segs ++ rest) = walk create fs links'' p rest) ->
    (forall rest, walk create fs links cur ((seg :: segs) ++ rest) = walk create fs links' cur' (segs ++ rest)) ->
    exists links'', forall rest, walk create fs links cur ((seg :: segs) ++ rest) = walk create fs links'' p rest).
  { intros cur' links' [l'' H1] H2. exists l''. intros rest. by rewrite H2. }
  destruct (is_empty seg || bool_decide (seg = DOT)) eqn:E1.
  { intros Hw. apply (G cur links); [by apply IH|]. intros rest. cbn [app]. by rewrite walk_cons, He, E1. }
  destruct (bool_decide (seg = DOTDOT)) eqn:E2.
  { intros Hw. apply (G (drop_last cur) links); [by apply IH|]. intros rest. cbn [app]. by rewrite walk_cons, He, E1, E2. }
  destruct (fs_nodes fs !! (cur ++ [seg])) as [[|content|target]|] eqn:En.
  1,2: intros Hw; apply (G (cur ++ [seg]) links); [by apply IH|]; intros rest; cbn [app]; by rewrite walk_cons, He, E1, E2, En.
  - destruct links as [|links]; [done|]. intros Hw. apply IHl in Hw as [l' Hw]; [|lia]. exists l'. intros rest. cbn [app].
    rewrite walk_cons, He, E1, E2, En. by rewrite (assoc_L (++)).
  - done.
Qed.

Lemma walk_app_inv fs links cur segs rest p :
  walk false fs links cur (segs ++ rest) = Ok p -> exists q links', walk false fs links cur segs = Ok q /\ walk false fs links' q rest = Ok p.
Proof.
  revert cur segs. induction links as [links IHl] using lt_wf_ind. intros cur segs. revert cur.
  induction segs as [|seg segs IH]; intros cur; cbn [app].
  { intros Hw. exists cur, links. by rewrite walk_nil. }
  rewrite !walk_cons. destruct (enter fs cur) as [[]|]; [|done].
  destruct (is_empty seg || bool_decide (seg = DOT)); [apply IH|]. destruct (bool_decide (seg = DOTDOT)); [apply IH|].
  destruct (fs_nodes fs !! (cur ++ [seg])) as [[|content|target]|]; [apply IH|apply IH| |done].
  destruct links as [|links]; [done|]. rewrite (assoc_L (++)). apply IHl. lia.
Qed.

(** Writing a file where there was none, or a file, disturbs no walk. *)
Lemma enter_put fs p content dir :
  fs_nodes fs !! p <> Some NDir -> enter fs dir = Ok tt -> enter (put_file fs p content) dir = Ok tt.
Proof.
  intros Hp He. assert (Hd := enter_dir _ _ He). unfold enter in *. cbn [fs_nodes put_file]. rewrite lookup_insert_ne by congruence. done.
Qed.

Lemma walk_put fs p content links cur segs q :
  (forall node, fs_nodes fs !! p = Some node -> exists old, node = NFile old) ->
  walk false fs links cur segs = Ok q -> walk false (put_file fs p content) links cur segs = Ok q.
Proof.
  intros Hp. assert (Hd : fs_nodes fs !! p <> Some NDir) by (intros E; by destruct (Hp _ E)).
  revert cur segs. induction links as [links IHl] using lt_wf_ind. intros cur segs. revert cur.
  induction segs as [|seg segs IH]; intros cur; [by rewrite !walk_nil|]. rewrite !walk_cons.
  destruct (enter fs cur) as [[]|] eqn:He; [|done]. rewrite (enter_put fs p content cur Hd He).
  destruct (is_empty seg || bool_decide (seg = DOT)); [apply IH|]. destruct (bool_decide (seg = DOTDOT)); [apply IH|].
  cbn [put_file fs_nodes]. destruct (decide (cur ++ [seg] = p)) as [<-|Hne].
  - rewrite lookup_insert_eq. destruct (fs_nodes fs !! (cur ++ [seg])) as [node|]; [|done]. destruct (Hp _ eq_refl) as [old ->]. apply IH.
  - rewrite lookup_insert_ne by done. destruct (fs_nodes fs !! (cur ++ [seg])) as [[|old|target]|]; [apply IH|apply IH| |done].
    destruct links as [|links]; [done|]. apply IHl. lia.
Qed.

Lemma fs_wf_put fs p content :
  fs_wf fs -> (forall node, fs_nodes fs !! p = Some node -> exists old, node = NFile old) -> Forall name_ok p -> fs_wf (put_file fs p content).
Proof.
  intros W Hp Hn. split.
  - intros q node. cbn. destruct (decide (p = q)) as [<-|]; [done|]. rewrite lookup_insert_ne by done. apply fw_names. done.
  - intros q target. cbn. destruct (decide (p = q)) as [<-|]; [by rewrite lookup_insert_eq|]. rewrite lookup_insert_ne by done. by apply fw_links.
  - intros dir Hdir. apply enter_put; [intros E; by destruct (Hp _ E)|by apply fw_cwd].
Qed.
End Walks.
