(* ===== verification/FileServer.v ===== *)
(** * The demonstration file server

    [mcps-demo-fileserver/src/server.rs], [error.rs], [stdio.rs] and [main.rs]:
    a plain MCP server with four file tools under one root.  The file system
    and the log of received calls are explicit state. *)

From S2P Require Import Prelude Utf8 Errors Json Canonical Strings Values Envelope Instances Unwrap Proxy FileSystem.

(** ** error.rs *)

Inductive FileServerError : Type :=
| FsParseError (detail : rstr)
| FsInvalidRequest (detail : rstr)
| FsMethodNotFound (name : rstr)
| FsUnknownTool (name : rstr)
| FsInvalidParams (detail : rstr)
| PathEscapesRoot (path : rstr)
| FsReadDir (path detail : rstr)
| FsIo (path detail : rstr)
| FsNotUtf8 (path : rstr)
| FsTooLarge (path : rstr) (limit : Z).

Definition quoted (s : rstr) : rstr := str "'" ++ s ++ str "'".

Definition fileserver_error_display (e : FileServerError) : rstr :=
  match e with
  | FsParseError d => str "parse error: " ++ d
  | FsInvalidRequest d => str "invalid request: " ++ d
  | FsMethodNotFound n => str "method not found: " ++ n
  | FsUnknownTool n => str "unknown tool: " ++ n
  | FsInvalidParams d => str "invalid parameters: " ++ d
  | PathEscapesRoot p => str "path " ++ quoted p ++ str " escapes the demo root"
  | FsReadDir p d => str "cannot read directory " ++ quoted p ++ str ": " ++ d
  | FsIo p d => str "cannot access " ++ quoted p ++ str ": " ++ d
  | FsNotUtf8 p => str "file " ++ quoted p ++ str " is not valid UTF-8 text"
  | FsTooLarge p n => str "file " ++ quoted p ++ str " exceeds the " ++ display_unsigned n ++ str "-byte demo limit"
  end.

Definition json_rpc_code (e : FileServerError) : Z :=
  match e with
  | FsParseError _ => -32700
  | FsInvalidRequest _ => -32600
  | FsMethodNotFound _ => -32601
  | FsUnknownTool _ | FsInvalidParams _ | PathEscapesRoot _ | FsNotUtf8 _ | FsTooLarge _ _ => -32602
  | FsReadDir _ _ | FsIo _ _ => -32603
  end.

(** ** server.rs: results *)

Definition FILESERVER_PROTOCOL_VERSION : rstr := str "2025-06-18".
Definition TOOL_LIST_FILES : rstr := str "list_files".
Definition TOOL_READ_FILE : rstr := str "read_file".
Definition TOOL_STAT : rstr := str "stat".
Definition TOOL_WRITE_FILE : rstr := str "write_file".
Definition INTENDED_SCOPE_KEY : rstr := str "net.mcps.intendedScope".
Definition SCOPE_PROTECTED : rstr := str "protected".
Definition SCOPE_ADMIN : rstr := str "admin".
Definition MAX_FILE_BYTES : Z := 2 ^ 20.
Definition CARGO_PKG_VERSION : rstr := str "0.7.0".

Definition vstr (s : rstr) : Value := VString s.
Definition vnat (n : Z) : Value := VNumber (PosInt n).
Definition obj (members : list (string * Value)) : Value := json_object ((fun kv => (str kv.1, kv.2)) <$> members).

Definition tool_descriptor (name description intended_scope : rstr) (input_schema : Value) : Value :=
  obj [("name", vstr name); ("description", vstr description); ("inputSchema", input_schema);
       ("annotations", json_object [(INTENDED_SCOPE_KEY, vstr intended_scope)])]%string.

Definition json_rpc_result (id result : Value) : Value :=
  obj [("jsonrpc", vstr (str "2.0")); ("id", id); ("result", result)]%string.

Definition rpc_error (id : Value) (code : Z) (message : rstr) : Value :=
  obj [("jsonrpc", vstr (str "2.0")); ("id", id); ("error", obj [("code", value_of_i64 code); ("message", vstr message)])]%string.

Definition json_rpc_error (id : Value) (err : FileServerError) : Value := rpc_error id (json_rpc_code err) (fileserver_error_display err).

(** [content] with one text, [structuredContent] and [isError: false]. *)
Definition tool_success (text : rstr) (structured : Value) : Value :=
  obj [("content", VArray [obj [("type", vstr (str "text")); ("text", vstr text)]]); ("structuredContent", structured);
       ("isError", VBool false)]%string.

Definition list_success (path : rstr) (entries : list Value) : Value :=
  tool_success (display_unsigned (Z.of_nat (length entries)) ++ str " entr" ++ (if bool_decide (length entries = 1%nat) then str "y" else str "ies") ++
                str " under " ++ quoted path)
    (obj [("path", vstr path); ("entries", VArray entries)]%string).

Definition read_success (path text : rstr) : Value :=
  tool_success text (obj [("path", vstr path); ("content", vstr text); ("size", vnat (str_len text))]%string).

Definition write_success (path : rstr) (bytes_written : Z) : Value :=
  tool_success (str "wrote " ++ display_unsigned bytes_written ++ str " byte" ++ (if bytes_written =? 1 then [] else str "s") ++ str " to " ++ quoted path)
    (obj [("path", vstr path); ("bytes_written", vnat bytes_written)]%string).

Definition as_u64_value (v : Value) : option Z := match v with VNumber n => as_u64 n | _ => None end.

Definition stat_success (info : Value) : Value :=
  tool_success (default (str "entry") (get (str "type") info ≫= as_str) ++ str " " ++ quoted (default [] (get (str "path") info ≫= as_str)) ++
                str " (" ++ display_unsigned (default 0 (get (str "size") info ≫= as_u64_value)) ++ str " bytes)") info.

Definition tool_error (err : FileServerError) : Value :=
  obj [("content", VArray [obj [("type", vstr (str "text")); ("text", vstr (fileserver_error_display err))]]); ("isError", VBool true)]%string.

Definition initialize_result : Value :=
  obj [("protocolVersion", vstr FILESERVER_PROTOCOL_VERSION); ("capabilities", obj [("tools", VObject [])]%string);
       ("serverInfo", obj [("name", vstr (str "mcps-demo-fileserver")); ("version", vstr CARGO_PKG_VERSION)]%string)]%string.

Definition string_property (description : rstr) : Value := obj [("type", vstr (str "string")); ("description", vstr description)]%string.

Definition path_schema : Value :=
  obj [("type", vstr (str "object"));
       ("properties", obj [("path", string_property (str "Path resolved against (and confined to) the demo root."))]%string);
       ("required", VArray [vstr (str "path")]); ("additionalProperties", VBool false)]%string.

Definition write_schema : Value :=
  obj [("type", vstr (str "object"));
       ("properties", obj [("path", string_property (str "File path resolved against (and confined to) the demo root."));
                           ("content", string_property (str "UTF-8 text to write."))]%string);
       ("required", VArray [vstr (str "path"); vstr (str "content")]); ("additionalProperties", VBool false)]%string.

Definition tools_list_result : Value :=
  obj [("tools", VArray
    [tool_descriptor TOOL_LIST_FILES (str "List the entries of a directory inside the demo root.") SCOPE_PROTECTED path_schema;
     tool_descriptor TOOL_READ_FILE (str "Read a UTF-8 text file inside the demo root.") SCOPE_PROTECTED path_schema;
     tool_descriptor TOOL_STAT (str "Report the type and size of a path inside the demo root.") SCOPE_PROTECTED path_schema;
     tool_descriptor TOOL_WRITE_FILE (str "Create or overwrite a text file inside the demo root.") SCOPE_ADMIN write_schema])]%string.

(** ** server.rs: the tools *)

(** [FileServer] with what it acts on: its root, the file system, and the log
    of received calls when one is attached. *)
Record FileServer : Type := { demo_root : rstr; fsv_fs : FileSystem; received_log : option (list bytes) }.
#[export] Instance FileServer_settable : Settable FileServer := fun s => {|
  demo_root := demo_root s; fsv_fs := fsv_fs s; received_log := received_log s |}.

Section Server.
Context `{SerdeJson, !SerdeSer, Access}.

Definition fileserver_new (root : rstr) (fs : FileSystem) : FileServer := {| demo_root := root; fsv_fs := fs; received_log := None |}.

(** Best effort: a record that cannot be serialized is dropped. *)
Definition record_received_call (id : Value) (tool : rstr) (s : FileServer) : FileServer :=
  match received_log s, to_vec (obj [("id", id); ("tool", vstr tool)]%string) with
  | Some log, Some bs => s <| received_log := Some (log ++ [bs ++ [10]]) |>
  | _, _ => s
  end.

Definition reject_lexical_escape (requested : rstr) : result unit FileServerError :=
  if forallb (fun c => match c with ParentDir | RootDir => false | CurDir | Normal _ => true end) (components requested)
  then Ok tt else Err (PathEscapesRoot requested).

Definition canonical_root (s : FileServer) : result (list rstr) FileServerError :=
  map_err (fun e => FsReadDir (str ".") (fs_error_display e)) (fs_canonicalize (fsv_fs s) (demo_root s)).

Definition resolve_within_root (s : FileServer) (requested : rstr) : result rstr FileServerError :=
  try? reject_lexical_escape requested ;;
  let joined := path_join (demo_root s) requested in
  let? root := canonical_root s in
  match fs_canonicalize (fsv_fs s) joined with
  | Ok target => if bool_decide (root `prefix_of` target) then Ok (absolute target) else Err (PathEscapesRoot requested)
  | Err _ => Ok joined
  end.

Definition resolve_for_write (s : FileServer) (requested : rstr) : result rstr FileServerError :=
  try? reject_lexical_escape requested ;;
  let? name := ok_or (file_name requested) (FsInvalidParams (str "write_file requires a file path, got " ++ quoted requested)) in
  let parent_rel := default [] (parent requested) in
  let? root := canonical_root s in
  let? canonical_parent := map_err (fun e => FsIo requested (fs_error_display e)) (fs_canonicalize (fsv_fs s) (path_join (demo_root s) parent_rel)) in
  if bool_decide (root `prefix_of` canonical_parent) then Ok (path_join (absolute canonical_parent) name) else Err (PathEscapesRoot requested).

(** Type and size as a listing shows them: links are not followed. *)
Definition entry_value (place : list rstr) (name : rstr) (node : Node) : Value :=
  let (kind, size) :=
    if entry_metadata_ok place then
      match node with
      | NDir => (str "directory", 0)
      | NFile content => (str "file", Z.of_nat (length content))
      | NLink target => (str "file", str_len target)
      end
    else (str "unknown", 0) in
  obj [("name", vstr name); ("type", vstr kind); ("size", vnat size)]%string.

Fixpoint entry_values (requested : rstr) (es : list (list rstr * rstr * Node)) : result (list (rstr * Value)) FileServerError :=
  match es with
  | [] => Ok []
  | (place, name, node) :: rest =>
      match entry_error place with
      | Some e => Err (FsReadDir requested (fs_error_display e))
      | None => let? vs := entry_values requested rest in Ok ((name, entry_value place name node) :: vs)
      end
  end.

(** [sort_by] name. *)
Fixpoint insert_entry (e : rstr * Value) (es : list (rstr * Value)) : list (rstr * Value) :=
  match es with
  | [] => [e]
  | f :: rest => if str_ltb f.1 e.1 then f :: insert_entry e rest else e :: es
  end.

Definition sort_entries (es : list (rstr * Value)) : list (rstr * Value) := foldr insert_entry [] es.

Definition list_files (s : FileServer) (requested : rstr) : result (list Value) FileServerError :=
  let? resolved := resolve_within_root s requested in
  let? es := map_err (fun e => FsReadDir requested (fs_error_display e)) (fs_read_dir (fsv_fs s) resolved) in
  let? vs := entry_values requested es in
  Ok (sort_entries vs).*2.

Definition read_file (s : FileServer) (requested : rstr) : result rstr FileServerError :=
  let? resolved := resolve_within_root s requested in
  let io e := FsIo requested (fs_error_display e) in
  let? meta := map_err io (fs_metadata (fsv_fs s) resolved) in
  match meta with
  | NFile content =>
      if MAX_FILE_BYTES <? Z.of_nat (length content) then Err (FsTooLarge requested MAX_FILE_BYTES)
      else
        let? bs := map_err io (fs_read (fsv_fs s) resolved) in
        ok_or (from_utf8 bs) (FsNotUtf8 requested)
  | _ => Err (FsIo requested (str "is a directory"))
  end.

Definition stat (s : FileServer) (requested : rstr) : result Value FileServerError :=
  let? resolved := resolve_within_root s requested in
  let? meta := map_err (fun e => FsIo requested (fs_error_display e)) (fs_metadata (fsv_fs s) resolved) in
  let (kind, size) := match meta with NFile content => (str "file", Z.of_nat (length content)) | _ => (str "directory", 0) end in
  Ok (obj [("path", vstr requested); ("type", vstr kind); ("size", vnat size)]%string).

Definition write_file (s : FileServer) (requested content : rstr) : result Z FileServerError * FileServer :=
  if MAX_FILE_BYTES <? str_len content then (Err (FsTooLarge requested MAX_FILE_BYTES), s)
  else
    match resolve_for_write s requested with
    | Err e => (Err e, s)
    | Ok target =>
        let (res, fs') := fs_write (fsv_fs s) target (as_bytes content) in
        (let? _u := map_err (fun e => FsIo requested (fs_error_display e)) res in Ok (str_len content), s <| fsv_fs := fs' |>)
    end.

(** ** server.rs: dispatch *)

Definition str_arg (arguments : Value) (key : string) (tool : rstr) : result rstr FileServerError :=
  ok_or (get (str key) arguments ≫= as_str) (FsInvalidParams (tool ++ str " requires a string " ++ quoted (str key) ++ str " argument")).

(** A tool failure is an answer with [isError]. *)
Definition tool_answer {A} (success : A -> Value) (r : result A FileServerError) : Value :=
  match r with Ok a => success a | Err e => tool_error e end.

Definition run_tool (s : FileServer) (name : rstr) (arguments : Value) : result Value FileServerError * FileServer :=
  if bool_decide (name = TOOL_LIST_FILES) then
    (let? path := str_arg arguments "path" TOOL_LIST_FILES in Ok (tool_answer (list_success path) (list_files s path)), s)
  else if bool_decide (name = TOOL_READ_FILE) then
    (let? path := str_arg arguments "path" TOOL_READ_FILE in Ok (tool_answer (read_success path) (read_file s path)), s)
  else if bool_decide (name = TOOL_STAT) then
    (let? path := str_arg arguments "path" TOOL_STAT in Ok (tool_answer stat_success (stat s path)), s)
  else if bool_decide (name = TOOL_WRITE_FILE) then
    match str_arg arguments "path" TOOL_WRITE_FILE with
    | Err e => (Err e, s)
    | Ok path =>
        match str_arg arguments "content" TOOL_WRITE_FILE with
        | Err e => (Err e, s)
        | Ok content => let (res, s') := write_file s path content in (Ok (tool_answer (write_success path) res), s')
        end
    end
  else (Err (FsUnknownTool name), s).

Definition known_tool (name : rstr) : bool := bool_decide (name ∈ [TOOL_LIST_FILES; TOOL_READ_FILE; TOOL_STAT; TOOL_WRITE_FILE]).

Definition value_id (v : Value) : Value := default VNull (get (str "id") v).

Definition tools_call_result (s : FileServer) (request : Value) : result Value FileServerError * FileServer :=
  let params := default VNull (get (str "params") request) in
  match get (str "name") params ≫= as_str with
  | None => (Err (FsInvalidParams (str "missing tool 'name'")), s)
  | Some name =>
      let s := if known_tool name then record_received_call (value_id request) name s else s in
      run_tool s name (default VNull (get (str "arguments") params))
  end.

Definition fileserver_dispatch (s : FileServer) (parsed : option Value) (request_bytes : bytes) : result Value FileServerError * FileServer :=
  match parsed with
  | None => (Err (FsParseError (str "not valid JSON (" ++ display_unsigned (Z.of_nat (length request_bytes)) ++ str " bytes)")), s)
  | Some request =>
      match get (str "method") request ≫= as_str with
      | None => (Err (FsInvalidRequest (str "missing string 'method'")), s)
      | Some method =>
          if bool_decide (method = str "initialize") then (Ok initialize_result, s)
          else if bool_decide (method = str "tools/list") then (Ok tools_list_result, s)
          else if bool_decide (method = str "tools/call") then tools_call_result s request
          else (Err (FsMethodNotFound method), s)
      end
  end.

(** The literal of last resort. *)
Definition serialization_failed : bytes :=
  json_text "{'jsonrpc':'2.0','id':null,'error':{'code':-32603,'message':'serialization failed'}}".

Definition fileserver_handle (s : FileServer) (request_bytes : bytes) : bytes * FileServer :=
  let parsed := from_slice request_bytes in
  let id := from_option value_id VNull parsed in
  let (res, s') := fileserver_dispatch s parsed request_bytes in
  let response := match res with Ok result => json_rpc_result id result | Err err => json_rpc_error id err end in
  (default serialization_failed (to_vec response), s').

(** ** stdio.rs *)

(** The lines of the input, each a text or a read error; [budget] is how many
    responses the output takes.  The responses written, and the count served or
    the error. *)
Fixpoint fileserver_stdio (s : FileServer) (lines : list (result rstr rstr)) (budget : option nat) : list bytes * result Z rstr * FileServer :=
  match lines with
  | [] => ([], Ok 0, s)
  | Err e :: _ => ([], Err e, s)
  | Ok line :: rest =>
      if is_empty (trim line) then fileserver_stdio s rest budget
      else
        let (response, s') := fileserver_handle s (as_bytes line) in
        match budget with
        | Some O => ([], Err (str "broken pipe"), s')
        | _ =>
            let '(out, served, s'') := fileserver_stdio s' rest (pred <$> budget) in
            ((response ++ [10]) :: out, (let? n := served in Ok (n + 1)), s'')
        end
  end.

(** ** main.rs *)

Record FileServerArgs : Type := { fa_demo_root : rstr; fa_received_log : option rstr }.

Fixpoint fileserver_flags (argv : list rstr) (root log : option rstr) : result (option rstr * option rstr) rstr :=
  match argv with
  | [] => Ok (root, log)
  | arg :: rest =>
      if bool_decide (arg = str "--demo-root") then
        match rest with [] => Err (str "--demo-root requires a value") | v :: rest' => fileserver_flags rest' (Some v) log end
      else if bool_decide (arg = str "--received-log") then
        match rest with [] => Err (str "--received-log requires a value") | v :: rest' => fileserver_flags rest' root (Some v) end
      else Err (str "unknown argument " ++ quoted arg)
  end.

(** [env] is the value of [RECEIVED_LOG_ENV]. *)
Definition fileserver_args (argv : list rstr) (env : option rstr) : result FileServerArgs rstr :=
  let? flags := fileserver_flags argv None None in
  let? root := ok_or flags.1 (str "usage: mcps-demo-fileserver --demo-root <DIR> [--received-log <PATH>]") in
  let fallback := env ≫= (fun path => if is_empty (trim path) then None else Some (trim path)) in
  Ok {| fa_demo_root := root; fa_received_log := match flags.2 with Some p => Some p | None => fallback end |}.

(** [run]: [log_opens] says whether the log file can be created. *)
Definition fileserver_run (argv : list rstr) (env : option rstr) (log_opens : rstr -> result unit rstr) (fs : FileSystem)
    (lines : list (result rstr rstr)) (budget : option nat) : result (list bytes * result Z rstr * FileServer) rstr :=
  let? args := fileserver_args argv env in
  let server := fileserver_new (fa_demo_root args) fs in
  let? server := match fa_received_log args with
                 | None => Ok server
                 | Some path =>
                     try? map_err (fun e => str "open received-log " ++ quoted path ++ str ": " ++ e) (log_opens path) ;;
                     Ok (server <| received_log := Some [] |>)
                 end in
  Ok (fileserver_stdio server lines budget).
End Server.

(** ** What the file server guarantees

    Reads, listings and reports come from below the root whatever the request
    and the links say; a write changes one file, below the root unless the file
    name itself is a link there; what was written is read back. *)

Section Confined.
Context `{SJ : SerdeJson, SS : !SerdeSer, AC : Access}.

(** A place of the file system below the canonical root. *)
Definition below_root (s : FileServer) (p : list rstr) : Prop := exists root, canonical_root s = Ok root /\ root `prefix_of` p.

Lemma resolve_within_root_below s requested path p :
  fs_wf (fsv_fs s) -> resolve_within_root s requested = Ok path -> resolve false (fsv_fs s) path = Ok p -> below_root s p.
Proof.
  intros W. unfold resolve_within_root. destruct (reject_lexical_escape requested); [|done].
  destruct (canonical_root s) as [root|] eqn:Er; [|done].
  destruct (fs_canonicalize (fsv_fs s) (path_join (demo_root s) requested)) as [target|] eqn:Ec.
  - case_bool_decide as Hp; [|done]. intros [= <-]. destruct (resolve_stands _ _ _ _ W Ec) as [Hst Hex].
    rewrite resolve_absolute; [|done|done|].
    + intros [= <-]. by exists root.
    + destruct (fs_nodes (fsv_fs s) !! target); [done|]. by destruct (Hex eq_refl).
  - intros [= <-]. unfold fs_canonicalize in Ec. by rewrite Ec.
Qed.

Lemma read_file_below s requested text :
  fs_wf (fsv_fs s) -> read_file s requested = Ok text ->
  exists p content, below_root s p /\ fs_nodes (fsv_fs s) !! p = Some (NFile content) /\ readable p = true /\
    from_utf8 content = Some text /\ Z.of_nat (length content) <= MAX_FILE_BYTES.
Proof.
  intros W. unfold read_file, fs_metadata, fs_read. destruct (resolve_within_root s requested) as [path|] eqn:Ep; [|done].
  destruct (resolve false (fsv_fs s) path) as [p|] eqn:Er; [|done]. cbn [map_err].
  destruct (fs_nodes (fsv_fs s) !! p) as [[|content|]|] eqn:En; try done. cbn [ok_or map_err].
  destruct (Z.ltb_spec MAX_FILE_BYTES (Z.of_nat (length content))); [done|]. destruct (readable p) eqn:Erd; [|done]. cbn [map_err].
  destruct (from_utf8 content) as [t|] eqn:Eu; [|done]. intros [= <-]. exists p, content. split_and!; try done.
  by apply (resolve_within_root_below s requested path).
Qed.

Lemma stat_below s requested v :
  fs_wf (fsv_fs s) -> stat s requested = Ok v ->
  exists p node, below_root s p /\ fs_nodes (fsv_fs s) !! p = Some node /\
    v = obj [("path", vstr requested); ("type", vstr (match node with NFile _ => str "file" | _ => str "directory" end));
             ("size", vnat (match node with NFile content => Z.of_nat (length content) | _ => 0 end))]%string.
Proof.
  intros W. unfold stat, fs_metadata. destruct (resolve_within_root s requested) as [path|] eqn:Ep; [|done].
  destruct (resolve false (fsv_fs s) path) as [p|] eqn:Er; [|done]. cbn [map_err].
  destruct (fs_nodes (fsv_fs s) !! p) as [node|] eqn:En; [|done]. cbn [ok_or map_err]. intros H. exists p, node. split_and!; try done.
  - by apply (resolve_within_root_below s requested path).
  - by destruct node; simplify_eq.
Qed.

Lemma list_files_below s requested vs :
  fs_wf (fsv_fs s) -> list_files s requested = Ok vs ->
  exists p es, below_root s p /\ fs_nodes (fsv_fs s) !! p = Some NDir /\ readable p = true /\
    entry_values requested (children (fsv_fs s) p) = Ok es /\ vs = (sort_entries es).*2.
Proof.
  intros W. unfold list_files, fs_read_dir. destruct (resolve_within_root s requested) as [path|] eqn:Ep; [|done].
  destruct (resolve false (fsv_fs s) path) as [p|] eqn:Er; [|done]. destruct (fs_nodes (fsv_fs s) !! p) as [[]|] eqn:En; try done.
  destruct (readable p) eqn:Erd; [|done]. cbn [map_err]. destruct (entry_values requested _) as [es|] eqn:Ee; [|done]. intros [= <-].
  exists p, es. split_and!; try done. by apply (resolve_within_root_below s requested path).
Qed.

(** ** Writes *)

(** The place a write is meant for: a name in a directory below the root. *)
Definition meant_for (s : FileServer) (dir : list rstr) (name : rstr) : Prop :=
  below_root s dir /\ stand (fsv_fs s) dir /\ is_Some (fs_nodes (fsv_fs s) !! dir).

(** One file changed: the one meant, unless a link stands in its place. *)
Definition one_file_written (s s' : FileServer) : Prop :=
  exists dir name q content, meant_for s dir name /\ fsv_fs s' = put_file (fsv_fs s) q content /\
    Z.of_nat (length content) <= MAX_FILE_BYTES /\
    (q = dir ++ [name] \/ exists target, fs_nodes (fsv_fs s) !! (dir ++ [name]) = Some (NLink target)).

Lemma file_name_ok requested name : file_name requested = Some name -> (0 ∉ name) -> name_ok name.
Proof.
  unfold file_name. destruct (last (components requested)) as [[| | |n]|] eqn:El; try done. intros [= <-] Hz.
  apply last_Some_elem_of in El. unfold components in El. apply elem_of_app in El as [El|El].
  { destruct (is_absolute requested); [set_solver|]. case_bool_decide; set_solver. }
  apply list_elem_of_omap in El as (seg & Hin & Hs).
  destruct (split_on_spec SLASH [] requested ltac:(apply not_elem_of_nil)) as (_ & _ & Hok). rewrite Forall_forall in Hok. specialize (Hok seg Hin).
  unfold segment in Hs. destruct (is_empty seg) eqn:Ee; [done|]. cbn [orb] in Hs.
  repeat case_bool_decide; simplify_eq. split_and!; try done. intros ->. done.
Qed.

Lemma path_join_absolute dir name : Forall name_ok dir -> (SLASH ∉ name) -> path_join (absolute dir) name = absolute (dir ++ [name]).
Proof.
  intros Hd Hn. unfold path_join. replace (is_absolute name) with false.
  2: { destruct name as [|c name]; [done|]. apply not_elem_of_cons in Hn as [Hc _]. unfold is_absolute, starts_with. cbn [strip_prefix].
       by rewrite (proj2 (Z.eqb_neq SLASH c)). }
  cbn [absolute app is_empty orb]. destruct (list_last_inv dir) as [->|(d & n & ->)].
  - by rewrite bool_decide_eq_true_2.
  - apply Forall_app in Hd as [_ [(Hne & _ & _ & Hs & _) _]%Forall_cons].
    assert (E : forall ps m, join_with SLASH (ps ++ [m]) = join_with SLASH ps ++ (if is_empty ps then [] else [SLASH]) ++ m).
    { induction ps as [|q ps IH]; intros m; [done|]. cbn [app is_empty]. rewrite join_with_cons by by destruct ps. rewrite IH.
      destruct ps; [done|]. rewrite (join_with_cons SLASH q) by done. cbn [is_empty]. by rewrite <- !(assoc_L (++)). }
    rewrite bool_decide_eq_false_2.
    + unfold absolute. rewrite (E (d ++ [n]) name). replace (is_empty (d ++ [n])) with false by by destruct d. done.
    + rewrite E. destruct (list_last_inv n) as [->|(n' & c & ->)]; [done|]. intros Hl. apply Hs. apply elem_of_app. right.
      change (SLASH :: _) with ([SLASH] ++ (join_with SLASH d ++ (if is_empty d then [] else [SLASH]) ++ (n' ++ [c]))) in Hl.
      rewrite !(assoc_L (++)), last_snoc in Hl. injection Hl as ->. set_solver.
Qed.

(** Where a write is meant to go. *)
Lemma resolve_for_write_meant s requested path :
  fs_wf (fsv_fs s) -> resolve_for_write s requested = Ok path ->
  exists dir name, meant_for s dir name /\ file_name requested = Some name /\ path = path_join (absolute dir) name /\
    fs_canonicalize (fsv_fs s) (path_join (demo_root s) (default [] (parent requested))) = Ok dir.
Proof.
  intros W. unfold resolve_for_write. destruct (reject_lexical_escape requested); [|done].
  destruct (file_name requested) as [name|]; [|done]. cbn [ok_or]. destruct (canonical_root s) as [root|] eqn:Er; [|done].
  destruct (fs_canonicalize _ (path_join _ (default _ _))) as [dir|] eqn:Ec; [|done]. cbn [map_err]. case_bool_decide as Hp; [|done]. intros [= <-].
  exists dir, name. destruct (resolve_stands _ _ _ _ W Ec) as [Hst Hex]. split; [|done]. split_and!; [by exists root|done|].
  destruct (fs_nodes (fsv_fs s) !! dir); [done|]. by destruct (Hex eq_refl).
Qed.

(** A name that is not a link below a standing place: created, or found. *)
Lemma resolve_below fs dir name q :
  fs_wf fs -> stand fs dir -> is_Some (fs_nodes fs !! dir) -> name_ok name ->
  resolve true fs (absolute (dir ++ [name])) = Ok q ->
  enter fs dir = Ok tt /\ (q = dir ++ [name] \/ exists target, fs_nodes fs !! (dir ++ [name]) = Some (NLink target)).
Proof.
  intros W Hst Hex Hn. rewrite resolve_absolute_unfold; [|done| |by destruct dir].
  2: { apply Forall_app. split; [apply Hst|by apply Forall_singleton]. }
  rewrite walk_along; [|done|done|apply fw_cwd; [done|apply prefix_nil]]. pose proof Hn as (Hn1 & Hn2 & Hn3 & _).
  destruct (enter fs dir) as [[]|] eqn:He; [|rewrite walk_cons, He; done].
  destruct (fs_nodes fs !! (dir ++ [name])) as [[| |target]|] eqn:En; intros Hw; (split; [done|]).
  3: { right. by exists target. }
  all: left; rewrite walk_name in Hw by (try done; by rewrite En); rewrite En in Hw; rewrite ?walk_nil in Hw; cbn in Hw; by injection Hw.
Qed.

Lemma fs_write_spec fs path content res fs' :
  fs_wf fs -> fs_write fs path content = (res, fs') ->
  fs' = fs /\ is_ok res = false \/
  exists q n, resolve true fs path = Ok q /\ fs' = put_file fs q (take n content) /\ fs_wf fs' /\
    (forall node, fs_nodes fs !! q = Some node -> exists old, node = NFile old) /\ (is_ok res = true -> take n content = content).
Proof.
  intros W. unfold fs_write. destruct (resolve true fs path) as [q|] eqn:Er; [|intros [= <- <-]; by left].
  destruct (resolve_stands _ _ _ _ W Er) as [Hst _].
  assert (P : (forall node, fs_nodes fs !! q = Some node -> exists old, node = NFile old) ->
    (match short_write q content with None => (Ok tt, put_file fs q content) | Some n => (Err StorageFull, put_file fs q (take n content)) end) = (res, fs') ->
    exists q' n, Ok q = Ok (E := FsError) q' /\ fs' = put_file fs q' (take n content) /\ fs_wf fs' /\
      (forall node, fs_nodes fs !! q' = Some node -> exists old, node = NFile old) /\ (is_ok res = true -> take n content = content)).
  { intros Hf. destruct (short_write q content) as [n|]; intros [= <- <-]; [exists q, n|exists q, (length content)].
    - split_and!; try done. apply fs_wf_put; [done|done|apply Hst].
    - rewrite firstn_all. split_and!; try done. apply fs_wf_put; [done|done|apply Hst]. }
  destruct (fs_nodes fs !! q) as [[|old|target]|] eqn:En.
  - intros [= <- <-]. by left.
  - destruct (writable q); [|intros [= <- <-]; by left]. intros H. right. apply P; [|done]. intros node [= <-]. by exists old.
  - intros [= <- <-]. by left.
  - destruct (writable _); [|intros [= <- <-]; by left]. intros H. right. by apply P.
Qed.

Lemma write_file_one s requested content res s' :
  fs_wf (fsv_fs s) -> write_file s requested content = (res, s') ->
  demo_root s' = demo_root s /\ received_log s' = received_log s /\ fs_wf (fsv_fs s') /\ (fsv_fs s' = fsv_fs s \/ one_file_written s s').
Proof.
  intros W. unfold write_file. destruct (Z.ltb_spec MAX_FILE_BYTES (str_len content)) as [|Hlen]; [intros [= <- <-]; eauto|].
  destruct (resolve_for_write s requested) as [path|] eqn:Ep; [|intros [= <- <-]; eauto].
  destruct (fs_write _ path _) as [r fs'] eqn:Ew. intros [= <- <-]. split_and!; try done; destruct (fs_write_spec _ _ _ _ _ W Ew) as
    [[-> _]|(q & n & Hq & -> & W' & _)]; try done; [by left|right].
  destruct (resolve_for_write_meant _ _ _ W Ep) as (dir & name & Hm & Hfn & -> & _). pose proof Hm as (_ & Hst & Hex).
  exists dir, name, q, (take n (as_bytes content)). split_and!; try done.
  - rewrite length_take. unfold str_len in Hlen. lia.
  - destruct (decide (0 ∈ name)) as [Hz|Hz].
    { unfold resolve in Hq. rewrite bool_decide_eq_true_2 in Hq; [done|]. unfold path_join. destruct (is_absolute name); [done|].
      destruct (_ || _); rewrite !elem_of_app; auto. }
    apply file_name_ok in Hfn; [|done]. rewrite path_join_absolute in Hq by (apply Hst || apply Hfn).
    by destruct (resolve_below _ _ _ _ W Hst Hex Hfn Hq) as [_ ?].
Qed.
(** ** Requests *)

Lemma one_file_written_frame s1 s2 s' :
  demo_root s1 = demo_root s2 -> fsv_fs s1 = fsv_fs s2 -> one_file_written s1 s' -> one_file_written s2 s'.
Proof. unfold one_file_written, meant_for, below_root, canonical_root. by intros -> ->. Qed.

Lemma record_received_call_frame id tool s :
  demo_root (record_received_call id tool s) = demo_root s /\ fsv_fs (record_received_call id tool s) = fsv_fs s.
Proof. unfold record_received_call. by repeat case_match. Qed.

(** The call a request is logged as: a known tool, by name and id. *)
Definition logged_call (parsed : option Value) : option (Value * rstr) :=
  request ← parsed;
  method ← get (str "method") request ≫= as_str;
  if bool_decide (method = str "tools/call") then
    name ← get (str "name") (default VNull (get (str "params") request)) ≫= as_str;
    if known_tool name then Some (value_id request, name) else None
  else None.

Definition log_call (parsed : option Value) (s : FileServer) : FileServer :=
  match logged_call parsed with Some (id, tool) => record_received_call id tool s | None => s end.

Lemma run_tool_one s name arguments res s' :
  fs_wf (fsv_fs s) -> run_tool s name arguments = (res, s') ->
  demo_root s' = demo_root s /\ received_log s' = received_log s /\ fs_wf (fsv_fs s') /\
  (fsv_fs s' = fsv_fs s \/ known_tool name = true /\ one_file_written s s').
Proof.
  intros W. unfold run_tool. do 3 (case_bool_decide; [intros [= <- <-]; by eauto|]).
  case_bool_decide as E; [|intros [= <- <-]; by eauto]. subst name.
  destruct (str_arg arguments "path" _) as [path|]; [|intros [= <- <-]; by eauto].
  destruct (str_arg arguments "content" _) as [content|]; [|intros [= <- <-]; by eauto].
  destruct (write_file s path content) as [r s1] eqn:Ew. intros [= <- <-].
  apply (write_file_one _ _ _ _ _ W) in Ew as (? & ? & ? & [?|?]); eauto 6.
Qed.

Lemma handle_one s request_bytes response s' :
  fs_wf (fsv_fs s) -> fileserver_handle s request_bytes = (response, s') ->
  demo_root s' = demo_root s /\ fs_wf (fsv_fs s') /\
  received_log s' = received_log (log_call (from_slice request_bytes) s) /\
  (fsv_fs s' = fsv_fs s \/ is_Some (logged_call (from_slice request_bytes)) /\ one_file_written s s').
Proof.
  intros W. unfold fileserver_handle. destruct (fileserver_dispatch s _ request_bytes) as [res s1] eqn:Ed. intros [= _ <-].
  unfold fileserver_dispatch, log_call, logged_call in *. destruct (from_slice request_bytes) as [request|]; cbn [mbind option_bind]; [|by simplify_eq; eauto].
  destruct (get (str "method") request ≫= as_str) as [method|]; cbn [mbind option_bind]; [|by simplify_eq; eauto].
  destruct (bool_decide (method = str "initialize")) eqn:E1.
  { apply bool_decide_eq_true in E1 as ->. simplify_eq. by eauto. }
  destruct (bool_decide (method = str "tools/list")) eqn:E2.
  { apply bool_decide_eq_true in E2 as ->. simplify_eq. by eauto. }
  destruct (bool_decide (method = str "tools/call")); [|by simplify_eq; eauto].
  unfold tools_call_result in Ed. destruct (get (str "name") _ ≫= as_str) as [name|]; cbn [mbind option_bind]; [|by simplify_eq; eauto].
  destruct (known_tool name) eqn:Ek.
  - destruct (record_received_call_frame (value_id request) name s) as [Hr Hf]. apply run_tool_one in Ed; [|by rewrite Hf].
    rewrite Hr, Hf in Ed. destruct Ed as (? & ? & ? & [?|[_ Hw]]); split_and!; try done; [by left|right]. split; [done|].
    by apply (one_file_written_frame _ s) in Hw.
  - apply run_tool_one in Ed as (? & ? & ? & [?|[? _]]); [by eauto|by rewrite Ek in *|done].
Qed.

(** C40: The file server stays below its root.  Whatever path a request names and
    whatever links the file system holds: a file that is read, a directory that
    is listed and a thing that is reported on stand below the canonical root,
    and the answer is theirs; a request changes nothing, or it is a logged tool
    call and changes the content of one file, of at most the size limit, which
    is a name in a directory below the root unless a link stands at that name. *)
Theorem fileserver_confined s :
  fs_wf (fsv_fs s) ->
  (forall requested text, read_file s requested = Ok text ->
     exists p content, below_root s p /\ fs_nodes (fsv_fs s) !! p = Some (NFile content) /\ readable p = true /\
       from_utf8 content = Some text /\ Z.of_nat (length content) <= MAX_FILE_BYTES) /\
  (forall requested vs, list_files s requested = Ok vs ->
     exists p es, below_root s p /\ fs_nodes (fsv_fs s) !! p = Some NDir /\ readable p = true /\
       entry_values requested (children (fsv_fs s) p) = Ok es /\ vs = (sort_entries es).*2) /\
  (forall requested v, stat s requested = Ok v ->
     exists p node, below_root s p /\ fs_nodes (fsv_fs s) !! p = Some node /\
       v = obj [("path", vstr requested); ("type", vstr (match node with NFile _ => str "file" | _ => str "directory" end));
                ("size", vnat (match node with NFile content => Z.of_nat (length content) | _ => 0 end))]%string) /\
  (forall request_bytes response s', fileserver_handle s request_bytes = (response, s') ->
     demo_root s' = demo_root s /\ fs_wf (fsv_fs s') /\ received_log s' = received_log (log_call (from_slice request_bytes) s) /\
     (fsv_fs s' = fsv_fs s \/ is_Some (logged_call (from_slice request_bytes)) /\ one_file_written s s')).
Proof.
  intros W. split_and!; intros.
  - by apply (read_file_below s requested).
  - by apply list_files_below.
  - by apply stat_below.
  - by apply (handle_one s request_bytes response).
Qed.

(** ** Reading back what was written *)

Lemma clean_components names :
  names <> [] -> Forall name_ok names ->
  is_absolute (join_with SLASH names) = false /\ components (join_with SLASH names) = Normal <$> names.
Proof.
  intros Hne Hn. assert (Ha : is_absolute (join_with SLASH names) = false).
  { destruct names as [|n names]; [done|]. apply Forall_cons in Hn as [(Hn0 & _ & _ & Hs & _) _]. destruct n as [|c n]; [done|].
    apply not_elem_of_cons in Hs as [Hc _]. unfold is_absolute, starts_with.
    assert (E : exists t, join_with SLASH ((c :: n) :: names) = c :: t) by (destruct names; cbn; by eexists). destruct E as [t ->].
    cbn [strip_prefix]. by rewrite (proj2 (Z.eqb_neq SLASH c)). }
  split; [done|]. unfold components. rewrite Ha, str_split_join_with by (try done; by apply name_ok_slashes).
  rewrite bool_decide_eq_false_2.
  2: { destruct names as [|n names]; [done|]. apply Forall_cons in Hn as [(_ & Hd & _) _]. cbn. congruence. }
  cbn [app]. clear Hne Ha. induction Hn as [|n names (Hn0 & Hd & Hdd & _) Hn IH]; [done|]. cbn. rewrite IH. unfold segment.
  rewrite !bool_decide_eq_false_2 by done. by destruct n.
Qed.

Lemma clean_file_name names name :
  Forall name_ok (names ++ [name]) ->
  reject_lexical_escape (join_with SLASH (names ++ [name])) = Ok tt /\
  file_name (join_with SLASH (names ++ [name])) = Some name /\ parent (join_with SLASH (names ++ [name])) = Some (join_with SLASH names).
Proof.
  intros Hn. destruct (clean_components (names ++ [name]) ltac:(by destruct names) Hn) as [_ Hc].
  unfold reject_lexical_escape, file_name, parent. rewrite Hc. rewrite fmap_app. cbn [fmap list_fmap]. rewrite last_snoc, drop_last_snoc. split_and!; [|done|].
  - replace (forallb _ _) with true; [done|]. symmetry. apply forallb_forall. intros c Hin. apply list_elem_of_In in Hin. clear Hc Hn.
    apply elem_of_app in Hin as [Hin|Hin]; [|set_solver]. apply list_elem_of_fmap in Hin as (n & -> & _). done.
  - assert (E : component_str <$> (Normal <$> names) = names) by (rewrite <- list_fmap_compose; apply list_fmap_id).
    destruct names as [|n names]; [done|]. cbn [fmap list_fmap] in E |- *. by rewrite E.
Qed.

(** Walking to a file below a root and a directory. *)
Lemma resolve_joined fs root names name dir :
  root <> [] -> Forall name_ok (names ++ [name]) ->
  fs_canonicalize fs (path_join root (join_with SLASH names)) = Ok dir ->
  enter fs dir = Ok tt -> (exists content, fs_nodes fs !! (dir ++ [name]) = Some (NFile content)) ->
  fs_canonicalize fs (path_join root (join_with SLASH (names ++ [name]))) = Ok (dir ++ [name]).
Proof.
  intros Hroot Hn Hc He [content Hf]. pose proof Hn as [Hns Hname]%Forall_app. rewrite Forall_singleton in Hname.
  destruct (clean_components (names ++ [name]) ltac:(by destruct names) Hn) as [Ha _].
  assert (Ha' : is_absolute (join_with SLASH names) = false) by (destruct names as [|m ns]; [done|exact (proj1 (clean_components (m :: ns) ltac:(done) Hns))]).
  destruct (str_split_path_join root _ Hroot Ha) as (b & Hs & Hb & Hj). destruct (str_split_path_join root _ Hroot Ha') as (b2 & Hs2 & Hb2 & Hj2).
  assert (b2 = b) as ->.
  { unfold path_join in Hj, Hj2. rewrite Ha in Hj. rewrite Ha' in Hj2. destruct (_ || _).
    - assert (R1 : root = b ++ [SLASH]) by (rewrite (assoc_L (++)) in Hj; by apply app_inv_tail in Hj).
      assert (R2 : root = b2 ++ [SLASH]) by (rewrite (assoc_L (++)) in Hj2; by apply app_inv_tail in Hj2).
      rewrite R1 in R2. by apply app_inj_tail in R2 as [-> _].
    - apply app_inv_tail in Hj, Hj2. congruence. }
  assert (Hz : forall path, (0 ∉ b) -> 0 ∉ path -> 0 ∉ b ++ [SLASH] ++ path) by (intros path ? ?; rewrite !not_elem_of_app; split_and!; [done|unfold SLASH; set_solver|done]).
  unfold fs_canonicalize, resolve in *. rewrite Hj2 in Hc. rewrite Hj.
  destruct (bool_decide (0 ∈ b ++ [SLASH] ++ join_with SLASH names)) eqn:Hz2; [done|]. apply bool_decide_eq_false in Hz2. rewrite !not_elem_of_app in Hz2. destruct Hz2 as (Hzb & _ & _).
  rewrite bool_decide_eq_false_2 by (apply Hz; [done|by apply join_with_nul]).
  assert (Hne : forall path, is_empty (b ++ [SLASH] ++ path) = false) by (intros; by destruct b). rewrite Hne in *.
  assert (Hab : forall path, is_absolute (b ++ [SLASH] ++ path) = is_absolute (b ++ [SLASH])) by (intros; destruct b as [|c b]; [done|]; unfold is_absolute, starts_with; cbn [app strip_prefix]; by destruct (SLASH =? c)).
  rewrite Hab in *. rewrite <- Hj2, Hs2 in Hc. rewrite <- Hj, Hs.
  set (start := if is_absolute (b ++ [SLASH]) then [] else fs_cwd fs) in *.
  assert (G : exists links, walk false fs MAX_LINKS start (str_split SLASH b ++ str_split SLASH (join_with SLASH (names ++ [name]))) =
    walk false fs links dir [name]).
  { rewrite str_split_join_with; [|by destruct names|by apply name_ok_slashes]. destruct (decide (names = [])) as [->|Hne'].
    - apply walk_app_inv in Hc as (q & l & Hq & Hr). change (str_split SLASH (join_with SLASH [])) with ([[]] : list rstr) in Hr.
      rewrite walk_cons in Hr. destruct (enter fs q); [|done]. cbn [is_empty orb] in Hr. rewrite walk_nil in Hr. injection Hr as ->.
      apply (walk_app false) in Hq as [l' Hq]. exists l'. apply Hq.
    - rewrite (assoc_L (++)). rewrite str_split_join_with in Hc; [|done|by apply name_ok_slashes]. apply (walk_app false) in Hc as [l' Hc]. exists l'. apply Hc. }
  destruct G as [links ->]. rewrite walk_name; [by rewrite Hf, walk_nil|exact He|exact Hname|by rewrite Hf].
Qed.

(** What was written is read back.  After a successful write to a path of
    proper names whose directory resolves, at a name where no link stands and
    which may be read, the report counts the bytes of the text and reading the
    same path returns the very text. *)
Theorem fileserver_roundtrip s names name content n s' dir :
  fs_wf (fsv_fs s) -> Forall name_ok (names ++ [name]) -> str_wf content ->
  fs_canonicalize (fsv_fs s) (path_join (demo_root s) (join_with SLASH names)) = Ok dir ->
  (forall target, fs_nodes (fsv_fs s) !! (dir ++ [name]) <> Some (NLink target)) -> readable (dir ++ [name]) = true ->
  write_file s (join_with SLASH (names ++ [name])) content = (Ok n, s') ->
  n = str_len content /\ read_file s' (join_with SLASH (names ++ [name])) = Ok content.
Proof.
  intros W Hn Hwf Hc Hl Hrd. destruct (clean_file_name names name Hn) as (Hlex & Hfn & Hpar).
  unfold write_file. destruct (Z.ltb_spec MAX_FILE_BYTES (str_len content)) as [|Hlen]; [done|].
  destruct (resolve_for_write s _) as [path|] eqn:Ep; [|done]. destruct (fs_write _ path _) as [r fs'] eqn:Ew. intros [= Hres <-].
  destruct r as [[]|]; [|done]. injection Hres as <-. split; [done|].
  destruct (resolve_for_write_meant _ _ _ W Ep) as (dir' & name' & (Hb & Hst & Hex) & Hfn' & -> & Hc').
  rewrite Hfn in Hfn'. injection Hfn' as <-. rewrite Hpar in Hc'. cbn [default] in Hc'. unfold from_option, id in Hc'.
  assert (dir' = dir) as -> by congruence. clear Hc'.
  destruct (fs_write_spec _ _ _ _ _ W Ew) as [[_ ?]|(q & k & Hq & -> & W' & Hfile & Htake)]; [done|]. rewrite (Htake eq_refl) in *.
  pose proof Hn as [_ Hname]%Forall_app. rewrite Forall_singleton in Hname.
  rewrite path_join_absolute in Hq by (apply Hst || apply Hname).
  destruct (resolve_below _ _ _ _ W Hst Hex Hname Hq) as [He [->|[target Ht]]]; [|by destruct (Hl target)].
  set (fs' := put_file (fsv_fs s) (dir ++ [name]) (as_bytes content)) in *.
  assert (Hnew : fs_nodes fs' !! (dir ++ [name]) = Some (NFile (as_bytes content))) by apply lookup_insert_eq.
  assert (Hput : forall path p, fs_canonicalize (fsv_fs s) path = Ok p -> fs_canonicalize fs' path = Ok p).
  { intros path p. unfold fs_canonicalize, resolve. destruct (bool_decide _); [done|]. destruct (is_empty path); [done|].
    intros Hw. exact (walk_put _ _ _ _ _ _ _ Hfile Hw). }
  assert (Hstand : stand fs' (dir ++ [name])).
  { assert (Hc2 := Hput _ _ Hc). destruct (resolve_stands _ _ _ _ W' Hc2) as [Hst' _]. apply stand_snoc; try done; [|by rewrite Hnew].
    apply enter_put; [|done]. intros E. by destruct (Hfile _ E). }
  destruct Hb as (root & Hroot & Hpre). unfold canonical_root in Hroot. destruct (fs_canonicalize (fsv_fs s) (demo_root s)) as [root'|] eqn:Er; [|done].
  injection Hroot as ->.
  assert (Hjoin : fs_canonicalize fs' (path_join (demo_root s) (join_with SLASH (names ++ [name]))) = Ok (dir ++ [name])).
  { apply resolve_joined; [|done|by apply Hput| |by eexists].
    - intros E. rewrite E in Er. done.
    - apply enter_put; [|done]. intros E. by destruct (Hfile _ E). }
  set (s1 := s <| fsv_fs := fs' |>). assert (Hs1 : demo_root s1 = demo_root s /\ fsv_fs s1 = fs') by done. destruct Hs1 as [Hs1 Hs2]. clearbody s1.
  unfold read_file, resolve_within_root, canonical_root. rewrite Hs1, Hs2, Hlex, (Hput _ _ Er). cbn [map_err]. rewrite Hjoin.
  rewrite bool_decide_eq_true_2 by (trans dir; [done|by exists [name]]).
  assert (Habs : resolve false fs' (absolute (dir ++ [name])) = Ok (dir ++ [name])) by (apply resolve_absolute; [done|done|by rewrite Hnew]).
  unfold fs_metadata, fs_read. rewrite Habs, Hnew. cbn [ok_or map_err].
  rewrite (proj2 (Z.ltb_ge _ _)) by (unfold str_len in Hlen; lia). rewrite Hrd. cbn [map_err]. by rewrite from_utf8_as_bytes.
Qed.
End Confined.

(** ** A sample tree *)

Import Toy.
#[local] Existing Instance toy_to_vec.

#[local] Instance open_access : Access := {|
  searchable _ := true; readable _ := true; writable _ := true; short_write _ _ := None; entry_error _ := None; entry_metadata_ok _ := true;
  fs_error_display e := match e with NotFound => str "not found" | _ => str "refused" end |}.

(** A root with a file, a link to the outside and a link to a directory. *)
Definition sample_nodes : list (list rstr * Node) :=
  [([], NDir); ([str "srv"], NDir); ([str "srv"; str "a.txt"], NFile [104; 105]); ([str "srv"; str "out"], NLink (str "/etc/secret"));
   ([str "srv"; str "up"], NLink (str "../etc")); ([str "etc"], NDir); ([str "etc"; str "secret"], NFile [33])].

Definition sample_fs : FileSystem := {| fs_nodes := list_to_map sample_nodes; fs_cwd := [] |}.

Definition sample_server : FileServer := (fileserver_new (str "/srv") sample_fs) <| received_log := Some [] |>.

Lemma sample_fs_wf : fs_wf sample_fs.
Proof.
  assert (Hno : forall name, bool_decide (name <> [] /\ name <> DOT /\ name <> DOTDOT /\ (SLASH ∉ name) /\ (0 ∉ name)) = true -> name_ok name)
    by (intros name H; by apply bool_decide_eq_true in H).
  split.
  - intros p node H%elem_of_list_to_map_2. unfold sample_nodes in H. rewrite !elem_of_cons, elem_of_nil in H.
    destruct_or! H; simplify_eq; repeat (constructor; [apply Hno; vm_compute; reflexivity|]); constructor.
  - intros p target H%elem_of_list_to_map_2. unfold sample_nodes in H. rewrite !elem_of_cons, elem_of_nil in H.
    destruct_or! H; simplify_eq; apply (bool_decide_eq_true_1 (0 ∉ _)); vm_compute; reflexivity.
  - intros dir Hd. apply prefix_nil_inv in Hd as ->. vm_compute. reflexivity.
Qed.

(** Reads through either link are refused, as are the lexical escapes; a path
    that ends in a file is read. *)
Example sample_reads :
  read_file sample_server (str "./a.txt") = Ok (str "hi") /\
  read_file sample_server (str "out") = Err (PathEscapesRoot (str "out")) /\
  read_file sample_server (str "up/secret") = Err (PathEscapesRoot (str "up/secret")) /\
  read_file sample_server (str "../etc/secret") = Err (PathEscapesRoot (str "../etc/secret")) /\
  read_file sample_server (str "/etc/secret") = Err (PathEscapesRoot (str "/etc/secret")) /\
  read_file sample_server (str "a.txt/") = Err (FsIo (str "a.txt/") (str "refused")) /\
  (write_file sample_server (str "up/new") (str "x")).1 = Err (PathEscapesRoot (str "up/new")).
Proof. vm_compute. done. Qed.

(** A write follows the link at the file name: the file outside is replaced. *)
Theorem write_escapes_through_link :
  exists s', write_file sample_server (str "out") (str "gone") = (Ok 4, s') /\ ~ below_root sample_server [str "etc"; str "secret"] /\
    fs_nodes (fsv_fs s') !! [str "etc"; str "secret"] = Some (NFile (as_bytes (str "gone"))).
Proof.
  eexists. split; [reflexivity|]. split; [|vm_compute; reflexivity]. intros (root & Hr & Hp).
  assert (E : canonical_root sample_server = Ok [str "srv"]) by (vm_compute; reflexivity). rewrite E in Hr. injection Hr as <-.
  destruct Hp as [k Hk]. discriminate Hk.
Qed.

Definition sample_call : bytes :=
  json_text "{'jsonrpc':'2.0','id':1,'method':'tools/call','params':{'name':'write_file','arguments':{'path':'b.txt','content':'ok'}}}".

Lemma sample_call_writes :
  read_file (fileserver_handle sample_server sample_call).2 (str "b.txt") = Ok (str "ok") /\
  length <$> received_log (fileserver_handle sample_server sample_call).2 = Some 1%nat.
Proof. vm_compute. done. Qed.

Lemma sample_no_ok p content : fs_nodes sample_fs !! p = Some (NFile content) -> from_utf8 content <> Some (str "ok").
Proof.
  assert (F : forallb (fun kv => match kv.2 with NFile c => negb (bool_decide (from_utf8 c = Some (str "ok"))) | _ => true end) sample_nodes = true)
    by (vm_compute; reflexivity).
  intros H%elem_of_list_to_map_2. rewrite forallb_forall in F. apply list_elem_of_In, F in H. cbn in H. by apply negb_true_iff, bool_decide_eq_false in H.
Qed.

Lemma fileserver_confined_witness :
  (exists p content, below_root sample_server p /\ fs_nodes sample_fs !! p = Some (NFile content) /\ from_utf8 content = Some (str "hi")) /\
  exists s', (fileserver_handle sample_server sample_call).2 = s' /\ fs_wf (fsv_fs s') /\
    read_file s' (str "b.txt") = Ok (str "ok") /\ one_file_written sample_server s'.
Proof.
  destruct (fileserver_confined sample_server sample_fs_wf) as (Hread & _ & _ & Hwrite). split.
  - destruct (Hread (str "./a.txt") (str "hi") (proj1 sample_reads)) as (p & content & Hb & Hn & _ & Hu & _). exists p, content. done.
  - destruct (fileserver_handle sample_server sample_call) as [resp s'] eqn:E. pose proof (proj1 sample_call_writes) as Hr. rewrite E in Hr.
    exists s'. destruct (Hwrite _ _ _ E) as (_ & W & _ & Hone). split; [done|]. split; [done|]. split; [done|]. destruct Hone as [Hsame|[_ Hone]]; [|done].
    exfalso. destruct (read_file_below _ _ _ W Hr) as (p & content & _ & Hn & _ & Hu & _). cbn [snd] in Hn. rewrite Hsame in Hn.
    exact (sample_no_ok p content Hn Hu).
Defined.

Lemma fileserver_roundtrip_witness :
  exists s', write_file sample_server (str "b.txt") (str "ok") = (Ok 2, s') /\ read_file s' (str "b.txt") = Ok (str "ok").
Proof.
  destruct (write_file sample_server (str "b.txt") (str "ok")) as [r s'] eqn:E.
  assert (Hr : r = Ok 2) by (change r with (r, s').1; rewrite <- E; vm_compute; reflexivity). subst r.
  exists s'. split; [reflexivity|].
  apply (fileserver_roundtrip sample_server [] (str "b.txt") (str "ok") 2 s' [str "srv"] sample_fs_wf); try exact E.
  - constructor; [|constructor]. apply (bool_decide_eq_true_1 (str "b.txt" <> [] /\ str "b.txt" <> DOT /\ str "b.txt" <> DOTDOT /\
      (SLASH ∉ str "b.txt") /\ (0 ∉ str "b.txt"))). vm_compute. reflexivity.
  - solve_str_wf.
  - vm_compute. reflexivity.
  - intros target. vm_compute. discriminate.
  - reflexivity.
Defined.
