(* ===== verification/DemoServer.v ===== *)
(** * The long-lived demonstration server

    [mcps-demo-server/src/server.rs], [error.rs], [stdio.rs] and [main.rs]: an
    MCP server with a lifecycle (nothing runs before [initialize]), three tools
    over an item set, and a log of the calls it executed.  Shapes of results it
    shares with the file server come from there. *)

From S2P Require Import Prelude Utf8 Errors Json Canonical Strings Envelope Instances Unwrap FileSystem FileServer Proxy.

(** ** error.rs *)

Inductive DemoServerError : Type :=
| DsParseError (detail : rstr)
| DsInvalidRequest (detail : rstr)
| DsNotInitialized (method : rstr)
| DsMethodNotFound (name : rstr)
| DsUnknownTool (name : rstr)
| DsInvalidParams (detail : rstr).

Definition demo_error_display (e : DemoServerError) : rstr :=
  match e with
  | DsParseError d => str "parse error: " ++ d
  | DsInvalidRequest d => str "invalid request: " ++ d
  | DsNotInitialized m => str "server not initialized: " ++ quoted m ++ str " arrived before 'initialize'"
  | DsMethodNotFound n => str "method not found: " ++ n
  | DsUnknownTool n => str "unknown tool: " ++ n
  | DsInvalidParams d => str "invalid parameters: " ++ d
  end.

Definition demo_error_code (e : DemoServerError) : Z :=
  match e with
  | DsParseError _ => -32700
  | DsInvalidRequest _ => -32600
  | DsNotInitialized _ => -32002
  | DsMethodNotFound _ => -32601
  | DsUnknownTool _ | DsInvalidParams _ => -32602
  end.

(** ** server.rs *)

Definition TOOL_ECHO : rstr := str "echo".
Definition TOOL_LIST_ITEMS : rstr := str "list_items".
Definition TOOL_RESET_ITEMS : rstr := str "reset_items".
Definition SCOPE_PUBLIC : rstr := str "public".

Record DemoServer : Type := { seed_items : list rstr; ds_items : list rstr; initialized : bool; ds_received_log : option (list bytes) }.
#[export] Instance DemoServer_settable : Settable DemoServer := fun s => {|
  seed_items := seed_items s; ds_items := ds_items s; initialized := initialized s; ds_received_log := ds_received_log s |}.

Definition demo_new (seed : list rstr) : DemoServer := {| seed_items := seed; ds_items := seed; initialized := false; ds_received_log := None |}.

Definition demo_tool_error (message : rstr) : Value :=
  obj [("content", VArray [obj [("type", vstr (str "text")); ("text", vstr message)]]); ("isError", VBool true)]%string.

Definition call_echo (arguments : Value) : Value :=
  match get (str "message") arguments ≫= as_str with
  | Some message => tool_success message (obj [("message", vstr message)]%string)
  | None => demo_tool_error (str "echo requires a string 'message' argument")
  end.

Definition items_value (items : list rstr) : Value := obj [("items", VArray (VString <$> items))]%string.

Definition call_list_items (s : DemoServer) : Value :=
  tool_success (display_unsigned (Z.of_nat (length (ds_items s))) ++ str " item" ++ (if bool_decide (length (ds_items s) = 1%nat) then [] else str "s"))
    (items_value (ds_items s)).

Definition call_reset_items (s : DemoServer) : Value * DemoServer :=
  let s' := s <| ds_items := seed_items s |> in
  (tool_success (str "reset to " ++ display_unsigned (Z.of_nat (length (ds_items s'))) ++ str " seed item(s)") (items_value (ds_items s')), s').

Definition demo_initialize_result : Value :=
  obj [("protocolVersion", vstr FILESERVER_PROTOCOL_VERSION); ("capabilities", obj [("tools", VObject [])]%string);
       ("serverInfo", obj [("name", vstr (str "mcps-demo-server")); ("version", vstr CARGO_PKG_VERSION)]%string)]%string.

Definition empty_schema : Value := obj [("type", vstr (str "object")); ("properties", VObject []); ("additionalProperties", VBool false)]%string.

Definition echo_schema : Value :=
  obj [("type", vstr (str "object"));
       ("properties", obj [("message", string_property (str "The text to echo back."))]%string);
       ("required", VArray [vstr (str "message")]); ("additionalProperties", VBool false)]%string.

Definition demo_tools_list_result : Value :=
  obj [("tools", VArray
    [tool_descriptor TOOL_ECHO (str "Echo back the supplied 'message' string. PUBLIC: intended to need no Phase-5 grant.") SCOPE_PUBLIC echo_schema;
     tool_descriptor TOOL_LIST_ITEMS (str "List the in-memory demo items. PROTECTED: intended to require a Phase-5 grant.") SCOPE_PROTECTED empty_schema;
     tool_descriptor TOOL_RESET_ITEMS (str "Restore the in-memory demo items to their seed set. ADMIN: intended to require a higher scope.")
       SCOPE_ADMIN empty_schema])]%string.

Section Demo.
Context `{SerdeJson, !SerdeSer}.

(** The line recorded for a call. *)
Definition call_record (id : Value) (tool : rstr) : list bytes :=
  match to_vec (obj [("id", id); ("tool", vstr tool)]%string) with Some bs => [bs ++ [10]] | None => [] end.

Definition demo_record (id : Value) (tool : rstr) (s : DemoServer) : DemoServer :=
  s <| ds_received_log ::= fun log => (fun l => l ++ call_record id tool) <$> log |>.

Definition demo_tool (name : rstr) : bool := bool_decide (name ∈ [TOOL_ECHO; TOOL_LIST_ITEMS; TOOL_RESET_ITEMS]).

Definition request_method (v : Value) : option rstr := get (str "method") v ≫= as_str.
Definition call_name (v : Value) : option rstr := get (str "name") (default VNull (get (str "params") v)) ≫= as_str.

Definition demo_tools_call (s : DemoServer) (request : Value) : result Value DemoServerError * DemoServer :=
  match call_name request with
  | None => (Err (DsInvalidParams (str "missing tool 'name'")), s)
  | Some name =>
      let arguments := default VNull (get (str "arguments") (default VNull (get (str "params") request))) in
      let s := if demo_tool name then demo_record (value_id request) name s else s in
      if bool_decide (name = TOOL_ECHO) then (Ok (call_echo arguments), s)
      else if bool_decide (name = TOOL_LIST_ITEMS) then (Ok (call_list_items s), s)
      else if bool_decide (name = TOOL_RESET_ITEMS) then let (v, s') := call_reset_items s in (Ok v, s')
      else (Err (DsUnknownTool name), s)
  end.

Definition demo_dispatch (s : DemoServer) (parsed : option Value) (request_bytes : bytes) : result Value DemoServerError * DemoServer :=
  match parsed with
  | None => (Err (DsParseError (str "not valid JSON (" ++ display_unsigned (Z.of_nat (length request_bytes)) ++ str " bytes)")), s)
  | Some request =>
      match request_method request with
      | None => (Err (DsInvalidRequest (str "missing string 'method'")), s)
      | Some method =>
          if bool_decide (method = str "initialize") then (Ok demo_initialize_result, s <| initialized := true |>)
          else if negb (bool_decide (method = str "shutdown")) && negb (initialized s) then (Err (DsNotInitialized method), s)
          else if bool_decide (method = str "tools/list") then (Ok demo_tools_list_result, s)
          else if bool_decide (method = str "tools/call") then demo_tools_call s request
          else if bool_decide (method = str "shutdown") then (Ok (obj [("ok", VBool true)]%string), s)
          else (Err (DsMethodNotFound method), s)
      end
  end.

Definition demo_handle (s : DemoServer) (request_bytes : bytes) : bytes * DemoServer :=
  let parsed := from_slice request_bytes in
  let id := from_option value_id VNull parsed in
  let (res, s') := demo_dispatch s parsed request_bytes in
  let response := match res with Ok result => json_rpc_result id result | Err err => rpc_error id (demo_error_code err) (demo_error_display err) end in
  (default serialization_failed (to_vec response), s').

Definition handle_should_stop (request_bytes : bytes) : bool := bool_decide (from_slice request_bytes ≫= request_method = Some (str "shutdown")).

(** ** stdio.rs *)

(** The responses written, the count served or the error, and the server. *)
Fixpoint demo_stdio (s : DemoServer) (lines : list (result rstr rstr)) (budget : option nat) : list bytes * result Z rstr * DemoServer :=
  match lines with
  | [] => ([], Ok 0, s)
  | Err e :: _ => ([], Err e, s)
  | Ok line :: rest =>
      if is_empty (trim line) then demo_stdio s rest budget
      else
        let stop := handle_should_stop (as_bytes line) in
        let (response, s') := demo_handle s (as_bytes line) in
        match budget with
        | Some O => ([], Err (str "broken pipe"), s')
        | _ =>
            if stop then ([response ++ [10]], Ok 1, s')
            else
              let '(out, served, s'') := demo_stdio s' rest (pred <$> budget) in
              ((response ++ [10]) :: out, (let? n := served in Ok (n + 1)), s'')
        end
  end.

(** ** main.rs *)

Definition default_seed : list rstr := [str "alpha"; str "beta"; str "gamma"].

Fixpoint demo_flags (argv : list rstr) (seed : list rstr) (log : option rstr) : result (list rstr * option rstr) rstr :=
  match argv with
  | [] => Ok (seed, log)
  | arg :: rest =>
      if bool_decide (arg = str "--seed") then
        match rest with [] => Err (str "--seed requires a value") | v :: rest' => demo_flags rest' (seed ++ [v]) log end
      else if bool_decide (arg = str "--received-log") then
        match rest with [] => Err (str "--received-log requires a value") | v :: rest' => demo_flags rest' seed (Some v) end
      else Err (str "unknown argument " ++ quoted arg)
  end.

Definition demo_args (argv : list rstr) (env : option rstr) : result (list rstr * option rstr) rstr :=
  let? flags := demo_flags argv [] None in
  let seed := if is_empty flags.1 then default_seed else flags.1 in
  let fallback := env ≫= (fun path => if is_empty path then None else Some path) in
  Ok (seed, match flags.2 with Some p => Some p | None => fallback end).

Definition demo_run (argv : list rstr) (env : option rstr) (log_opens : rstr -> result unit rstr)
    (lines : list (result rstr rstr)) (budget : option nat) : result (list bytes * result Z rstr * DemoServer) rstr :=
  let? args := demo_args argv env in
  let server := demo_new args.1 in
  let? server := match args.2 with
                 | None => Ok server
                 | Some path =>
                     try? map_err (fun e => str "open received-log " ++ quoted path ++ str ": " ++ e) (log_opens path) ;;
                     Ok (server <| ds_received_log := Some [] |>)
                 end in
  Ok (demo_stdio server lines budget).

(** ** The lifecycle *)

(** The requests a session reads: its lines that are not blank, up to the first
    [shutdown]. *)
Fixpoint asked (lines : list rstr) : list (option Value) :=
  match lines with
  | [] => []
  | line :: rest =>
      if is_empty (trim line) then asked rest
      else from_slice (as_bytes line) :: (if handle_should_stop (as_bytes line) then [] else asked rest)
  end.

(** The calls that run: known tools, asked for after an [initialize]. *)
Fixpoint executed (ready : bool) (requests : list (option Value)) : list (Value * rstr) :=
  match requests with
  | [] => []
  | request :: rest =>
      let ready' := ready || bool_decide (request ≫= request_method = Some (str "initialize")) in
      let here :=
        v ← request;
        method ← request_method v;
        name ← call_name v;
        if ready && bool_decide (method = str "tools/call") && demo_tool name then Some (value_id v, name) else None in
      from_option (fun c => [c]) [] here ++ executed ready' rest
  end.

Lemma demo_handle_step s bs resp s' :
  demo_handle s bs = (resp, s') -> ds_items s = seed_items s ->
  seed_items s' = seed_items s /\ ds_items s' = seed_items s' /\
  initialized s' = initialized s || bool_decide (from_slice bs ≫= request_method = Some (str "initialize")) /\
  forall rest, ds_received_log s' = (fun l => l ++ mjoin ((fun c => call_record c.1 c.2) <$> executed (initialized s) [from_slice bs])) <$> ds_received_log s /\
    executed (initialized s) (from_slice bs :: rest) = executed (initialized s) [from_slice bs] ++ executed (initialized s') rest.
Proof.
  intros Hh Hi. unfold demo_handle in Hh. destruct (demo_dispatch s (from_slice bs) bs) as [res s1] eqn:Ed. injection Hh as _ <-.
  assert (Hid : forall log : option (list bytes), (fun l => l ++ []) <$> log = log) by (intros [l|]; cbn; [by rewrite app_nil_r|done]).
  assert (G : seed_items s1 = seed_items s /\ ds_items s1 = seed_items s1 /\
    initialized s1 = initialized s || bool_decide (from_slice bs ≫= request_method = Some (str "initialize")) /\
    ds_received_log s1 = (fun l => l ++ mjoin ((fun c => call_record c.1 c.2) <$> executed (initialized s) [from_slice bs])) <$> ds_received_log s).
  { cbn [executed]. rewrite app_nil_r. unfold demo_dispatch in Ed. destruct (from_slice bs) as [request|]; cbn [mbind option_bind].
    2: { injection Ed as _ <-. cbn. by rewrite orb_false_r, Hid. }
    destruct (request_method request) as [method|]; cbn [mbind option_bind].
    2: { injection Ed as _ <-. cbn. by rewrite orb_false_r, Hid. }
    destruct (bool_decide (method = str "initialize")) eqn:E1.
    { apply bool_decide_eq_true in E1 as ->. injection Ed as _ <-. cbn [initialized seed_items ds_items ds_received_log].
      rewrite bool_decide_eq_true_2, orb_true_r by done. split_and!; try done. destruct (call_name request); cbn [mbind option_bind]; [|by rewrite Hid].
      rewrite (bool_decide_eq_false_2 (str "initialize" = str "tools/call")) by done. rewrite andb_false_r. by rewrite Hid. }
    apply bool_decide_eq_false in E1. rewrite (bool_decide_eq_false_2 (Some method = _)) by congruence. rewrite orb_false_r.
    destruct (negb (bool_decide (method = str "shutdown")) && negb (initialized s)) eqn:E2.
    { injection Ed as _ <-. apply andb_true_iff in E2 as [_ E2]. apply negb_true_iff in E2. rewrite E2. split_and!; try done.
      destruct (call_name request); by rewrite Hid. }
    destruct (bool_decide (method = str "tools/call")) eqn:E3.
    2: { assert (Hsame : s1 = s) by (destruct (bool_decide (method = str "tools/list")), (bool_decide (method = str "shutdown")); by injection Ed).
         subst s1. split_and!; try done. destruct (call_name request); cbn [mbind option_bind]; rewrite ?andb_false_r; cbn; by rewrite Hid. }
    apply bool_decide_eq_true in E3 as ->. rewrite (bool_decide_eq_false_2 (str "tools/call" = str "tools/list")) in Ed by done.
    assert (Er : initialized s = true) by (destruct (initialized s); [done|]; by rewrite bool_decide_eq_false_2 in E2).
    rewrite Er. cbn [andb]. unfold demo_tools_call in Ed. destruct (call_name request) as [name|]; cbn [mbind option_bind].
    2: { injection Ed as _ <-. by rewrite Hid. }
    destruct (demo_tool name) eqn:Ek.
    - cbn [from_option fmap list_fmap mjoin list_join app fst snd]. rewrite app_nil_r. unfold call_reset_items in Ed.
      repeat case_bool_decide; injection Ed as _ <-; by split_and!.
    - unfold demo_tool in Ek. apply bool_decide_eq_false in Ek. rewrite !bool_decide_eq_false_2 in Ed by set_solver. injection Ed as _ <-. by rewrite Hid. }
  destruct G as (G1 & G2 & G3 & G4). split_and!; try done. intros rest. split; [done|]. cbn [executed]. rewrite app_nil_r. by rewrite <- G3.
Qed.

(** A session of the long-lived server.  It answers every request it reads,
    one line each, up to and including the first [shutdown]; it ends with the
    item set at the seed; and its log holds exactly, in order, the calls of
    known tools that came after an [initialize]: no tool runs before the
    handshake, after [shutdown], or without a record. *)
Theorem demo_session s lines :
  ds_items s = seed_items s ->
  exists out s', demo_stdio s (Ok <$> lines) None = (out, Ok (Z.of_nat (length out)), s') /\
    length out = length (asked lines) /\ ds_items s' = seed_items s /\
    ds_received_log s' = (fun l => l ++ mjoin ((fun c => call_record c.1 c.2) <$> executed (initialized s) (asked lines))) <$> ds_received_log s.
Proof.
  revert s. induction lines as [|line lines IH]; intros s Hi.
  { exists [], s. split_and!; try done. cbn. destruct (ds_received_log s); cbn; [by rewrite app_nil_r|done]. }
  rewrite fmap_cons. cbn [demo_stdio asked].
  destruct (is_empty (trim line)); [by apply IH|]. destruct (demo_handle s (as_bytes line)) as [resp s1] eqn:Eh.
  destruct (demo_handle_step _ _ _ _ Eh Hi) as (H1 & H2 & H3 & H4). cbn [length].
  destruct (handle_should_stop (as_bytes line)).
  - exists [resp ++ [10]], s1. split_and!; try done; [congruence|]. apply (H4 []).
  - destruct (IH s1 ltac:(congruence)) as (out & s2 & E & Hl & Hit & Hlog). 
    exists ((resp ++ [10]) :: out), s2. replace (pred <$> None) with (None : option nat) by done. rewrite E.
    replace (Z.of_nat (length ((resp ++ [10]) :: out))) with (Z.of_nat (length out) + 1) by (cbn [length]; lia). split; [reflexivity|]. cbn [length]. split_and!; [lia|congruence|].
    destruct (H4 (asked lines)) as [Hl1 Hex]. rewrite Hex, Hlog, Hl1, fmap_app, join_app. destruct (ds_received_log s) as [log|]; [|done].
    apply (f_equal Some). by rewrite (assoc_L (++)).
Qed.
End Demo.

(** ** A sample session *)

Import Toy.
#[local] Existing Instance toy_to_vec.

Definition demo_lines : list rstr :=
  [json_text "{'id':1,'method':'tools/call','params':{'name':'echo','arguments':{'message':'early'}}}"; str " ";
   json_text "{'id':2,'method':'initialize'}";
   json_text "{'id':3,'method':'tools/call','params':{'name':'echo','arguments':{'message':'hi'}}}";
   json_text "{'id':4,'method':'tools/call','params':{'name':'rm'}}"; json_text "{'id':5,'method':'shutdown'}";
   json_text "{'id':6,'method':'tools/call','params':{'name':'echo'}}"].

Definition demo_server : DemoServer := (demo_new default_seed) <| ds_received_log := Some [] |>.

Lemma demo_executed : length (asked demo_lines) = 5%nat /\ executed false (asked demo_lines) = [(VNumber (PosInt 3), str "echo")].
Proof. vm_compute. done. Qed.

Lemma demo_session_witness :
  exists out s', demo_stdio demo_server (Ok <$> demo_lines) None = (out, Ok (Z.of_nat (length out)), s') /\
    length out = 5%nat /\ ds_received_log s' = Some (call_record (VNumber (PosInt 3)) (str "echo")).
Proof.
  destruct (demo_session demo_server demo_lines eq_refl) as (out & s' & E & Hl & _ & Hlog). exists out, s'. split; [exact E|].
  rewrite (proj1 demo_executed) in Hl. split; [exact Hl|]. rewrite Hlog. change (initialized demo_server) with false. rewrite (proj2 demo_executed).
  change (ds_received_log demo_server) with (Some ([] : list bytes)). apply (f_equal Some). apply app_nil_r.
Defined.
