(* ===== verification/PySdk.v ===== *)
(** * The native core of the Python SDK

    [sdk/python/src/lib.rs]: the functions and classes exported to Python over
    the client core.  A [ValueError] is an error with its text; a Python
    callback that signs is a function that may fail. *)

From S2P Require Import Prelude Utf8 Errors Json Canonical Strings Signing Values Time Crypto Envelope Instances.
From S2P Require Import Constraints Replay Resolver Pipeline PipelineSpec PipelineResponses Unwrap Graft Samples Proxy.
From S2P Require Import ClientRequest ClientRequestTheorems ClientResponse ClientAudience Correlation.

(** [Debug] of an error, and of a text. *)
Class SdkTexts := { debug_error : McpsError -> rstr; debug_str : rstr -> rstr }.

(** ** Helpers *)

Section Helpers.
Context `{SerdeJson, TX : SerdeTexts, ST : SdkTexts, Base64, DK : Dalek}.

Definition to_py_err (e : McpsError) : rstr := str "mcps-client-core: " ++ debug_error e.

Definition parse_id (id_json : rstr) : result Value rstr :=
  ok_or (from_slice (as_bytes id_json)) (str "invalid id_json: " ++ de_error_display (as_bytes id_json)).

(** Parsing into a [Map] fails on anything but an object. *)
Definition parse_params (params_json : rstr) : result Map rstr :=
  ok_or (from_slice (as_bytes params_json) ≫= as_object) (str "params_json must be a JSON object: " ++ de_error_display (as_bytes params_json)).

Definition seed_to_key (seed : bytes) : result SigningKey rstr :=
  let? array := ok_or (try_into_array 32 seed) (str "seed must be exactly 32 bytes, got " ++ display_unsigned (Z.of_nat (length seed))) in
  Ok (sk_from_seed_bytes array).

Definition opaque_binding (digest_alg digest_value : rstr) : AuthorizationBinding := OpaqueBytes digest_alg digest_value.

Definition parse_env (s : rstr) : result Environment rstr :=
  if bool_decide (s = str "production") then Ok Production
  else if bool_decide (s ∈ [str "dev-test"; str "dev_test"; str "devtest"]) then Ok DevTest
  else Err (str "environment must be 'production' or 'dev-test', got " ++ debug_str s).

Definition parse_mode (s : rstr) : result EnforcementMode rstr :=
  if bool_decide (s = str "require_mcps") then Ok RequireMcps
  else if bool_decide (s = str "allow_legacy_explicit") then Ok AllowLegacyExplicit
  else Err (str "enforcement_mode must be 'require_mcps' or 'allow_legacy_explicit', got " ++ debug_str s).

Definition absence_str (reason : AbsenceReason) : rstr :=
  match reason with
  | TransportFailurePreEvidence => str "transport-failure-pre-evidence"
  | PlainUnsigned => str "plain-unsigned"
  | ExplicitUnsupportedHint => str "explicit-unsupported-hint"
  end.

Definition corr_err (e : CorrelationError) : rstr := str "mcps-client-core correlation: " ++ wire_code (correlation_to_mcps_error e).

Definition core_version : rstr := VERSION_DRAFT_02.
Definition sdk_canonicalization_id : rstr := CANONICALIZATION_ID_INT53_V1.
Definition response_meta_key : rstr := RESPONSE_META_KEY.

(** ** Signers and policies *)

(** [DelegatedSigner]: a callback that raises, or returns no string, cannot
    sign. *)
Definition delegated_signer (id key_id : rstr) (sign_cb : bytes -> option rstr) : ClientSigner := {|
  signer_id := id; signer_key_id := key_id; custody := NonExporting;
  sign_preimage preimage := ok_or (sign_cb preimage) ActorBindingFailed |}.

Inductive SignerKind : Type :=
| KindSoftware (key : SigningKey) (signer key_id : rstr)
| KindDevFile (key : SigningKey) (signer key_id : rstr)
| KindDelegated (signer key_id : rstr) (sign_cb : bytes -> option rstr).

Definition as_dyn (k : SignerKind) : ClientSigner :=
  match k with
  | KindSoftware key signer key_id => software_signer key signer key_id
  | KindDevFile key signer key_id => dev_file_signer key signer key_id
  | KindDelegated signer key_id sign_cb => delegated_signer signer key_id sign_cb
  end.

Definition signer_software (seed : bytes) (signer key_id : rstr) : result SignerKind rstr :=
  let? key := seed_to_key seed in Ok (KindSoftware key signer key_id).

Definition signer_dev_file (seed : bytes) (signer key_id : rstr) : result SignerKind rstr :=
  let? key := seed_to_key seed in Ok (KindDevFile key signer key_id).

Definition signer_non_exporting (signer key_id : rstr) (sign_callback : bytes -> option rstr) : SignerKind := KindDelegated signer key_id sign_callback.

Definition signer_custody (k : SignerKind) : rstr :=
  match custody (as_dyn k) with
  | NonExporting => str "non-exporting"
  | SoftwareHeldPrivate => str "software-held-private"
  | DevFileUnprotected => str "dev-file-unprotected"
  end.

(** [SigningDevice]: a private software signer whose only operation signs. *)
Record PySigningDevice : Type := { device_inner : ClientSigner }.

Definition device_from_seed (seed : bytes) (signer key_id : rstr) : result PySigningDevice rstr :=
  let? key := seed_to_key seed in Ok {| device_inner := software_signer key signer key_id |}.

Definition device_sign (d : PySigningDevice) (preimage : bytes) : result rstr rstr := map_err to_py_err (sign_preimage (device_inner d) preimage).

Definition py_signer_policy_new (expected environment : rstr) (require : bool) : result SignerPolicy rstr :=
  let? env := parse_env environment in Ok (signer_policy_new expected env require).

(** ** Authorization bindings *)

Definition py_opaque_bytes `{Sha2} (artifact_bytes : bytes) : result AuthorizationBinding rstr :=
  map_err to_py_err (opaque_bytes_provider artifact_bytes
    {| ctx_audience := []; ctx_route_id := []; ctx_method := None; ctx_tool_id := None; ctx_deadline_unix := 0 |}).

Definition py_authz_system_reference (authorization_system_id reference_scheme_id reference_value digest_value : rstr) : AuthorizationBinding :=
  AuthzSystemReference authorization_system_id reference_scheme_id reference_value DIGEST_ALG_SHA256 digest_value.

Definition py_binding_type (b : AuthorizationBinding) : rstr :=
  match b with OpaqueBytes _ _ => BINDING_TYPE_OPAQUE_BYTES | AuthzSystemReference _ _ _ _ _ => BINDING_TYPE_AUTHZ_SYSTEM_REFERENCE end.

Definition py_digest_alg (b : AuthorizationBinding) : rstr := match b with OpaqueBytes alg _ | AuthzSystemReference _ _ _ alg _ => alg end.

Definition py_digest_value (b : AuthorizationBinding) : rstr := match b with OpaqueBytes _ v | AuthzSystemReference _ _ _ _ v => v end.

Definition py_authorization_system_id (b : AuthorizationBinding) : option rstr :=
  match b with AuthzSystemReference id _ _ _ _ => Some id | OpaqueBytes _ _ => None end.

Definition py_reference_value (b : AuthorizationBinding) : option rstr :=
  match b with AuthzSystemReference _ _ r _ _ => Some r | OpaqueBytes _ _ => None end.

Definition opaque_only : AuthorizationBindingPolicy := {| allowed_types := [TagOpaqueBytes] |}.
Definition reference_only : AuthorizationBindingPolicy := {| allowed_types := [TagAuthzSystemReference] |}.
Definition closed_policy : AuthorizationBindingPolicy := {| allowed_types := [] |}.

Definition py_enforce (policy : AuthorizationBindingPolicy) (binding : AuthorizationBinding) : result unit rstr :=
  if permits policy (binding_tag binding) then Ok tt else Err (wire_code AuthorizationBindingTypeUnsupported).

(** Exactly one way of naming the binding. *)
Definition resolve_binding (binding : option AuthorizationBinding) (digest_alg digest_value : option rstr) : result AuthorizationBinding rstr :=
  match binding, digest_alg, digest_value with
  | Some b, None, None => Ok b
  | None, Some alg, Some value => Ok (opaque_binding alg value)
  | None, None, None =>
      Err (str "an authorization binding is required: pass authorization_binding= (a provider-built AuthorizationBinding) or binding_digest_alg=/binding_digest_value= (the dev/test opaque shortcut)")
  | _, _, _ => Err (str "pass EITHER authorization_binding= OR binding_digest_alg=/binding_digest_value=, not both")
  end.
End Helpers.

(** ** Signing *)

Record PySignedRequest : Type := { py_wire : bytes; py_request_hash : rstr }.

Definition from_signed (signed : SignedRequest) : PySignedRequest := {| py_wire := wire_bytes signed; py_request_hash := sr_request_hash signed |}.

Section Sign.
Context `{SerdeJson, TX : SerdeTexts, ST : SdkTexts, Base64, DK : Dalek, !SerdeSer, Sha2}.

(** The keyword arguments both entry points share. *)
Record SignArgs : Type := {
  sa_id_json : rstr;
  sa_method : rstr;
  sa_params_json : rstr;
  sa_on_behalf_of : rstr;
  sa_audience : rstr;
  sa_nonce : rstr;
  sa_issued_at : rstr;
  sa_expires_at : rstr;
  sa_authorization_binding : option AuthorizationBinding;
  sa_binding_digest_alg : option rstr;
  sa_binding_digest_value : option rstr;
}.

Definition sign_inputs (a : SignArgs) (signer key_id : rstr) (binding : AuthorizationBinding) : RequestSigningInputs :=
  with_default_canonicalization signer key_id (sa_on_behalf_of a) (sa_audience a) binding (sa_nonce a) (sa_issued_at a) (sa_expires_at a).

(** What crosses the boundary; a panic surfaces as Python's own. *)
Definition py_signed (r : outcome (result SignedRequest McpsError)) : outcome (result PySignedRequest rstr) :=
  match r with Panics => Panics | Returns r => Returns (let? signed := map_err to_py_err r in Ok (from_signed signed)) end.

Definition sign_request (a : SignArgs) (signer key_id : rstr) (seed : bytes) : outcome (result PySignedRequest rstr) :=
  match (let? id := parse_id (sa_id_json a) in
         let? params := parse_params (sa_params_json a) in
         let? key := seed_to_key seed in
         let? binding := resolve_binding (sa_authorization_binding a) (sa_binding_digest_alg a) (sa_binding_digest_value a) in
         Ok (id, params, key, binding)) with
  | Err e => Returns (Err e)
  | Ok (id, params, key, binding) => py_signed (build_signed_request id (sa_method a) params (sign_inputs a signer key_id binding) key)
  end.

Definition sign_request_with_signer (a : SignArgs) (signer : SignerKind) (policy : SignerPolicy) : outcome (result PySignedRequest rstr) :=
  match (let? id := parse_id (sa_id_json a) in
         let? params := parse_params (sa_params_json a) in
         let? binding := resolve_binding (sa_authorization_binding a) (sa_binding_digest_alg a) (sa_binding_digest_value a) in
         Ok (id, params, binding)) with
  | Err e => Returns (Err e)
  | Ok (id, params, binding) =>
      let s := as_dyn signer in
      py_signed (build_signed_request_with_signer id (sa_method a) params (sign_inputs a (signer_id s) (signer_key_id s) binding) s policy)
  end.
End Sign.

(** ** Verifying *)

Section Verify.
Context `{ST : SdkTexts, Base64, DK : Dalek}.

Definition insert_public_key (r : InMemoryTrustResolver) (signer key_id : rstr) (public : bytes) : result InMemoryTrustResolver rstr :=
  let? pk := ok_or (try_into_array 32 public) (str "public_key must be exactly 32 bytes, got " ++ display_unsigned (Z.of_nat (length public))) in
  let? key := map_err to_py_err (vk_from_bytes pk) in
  Ok (resolver_insert r signer key_id key).

Definition insert_dev_seed (r : InMemoryTrustResolver) (signer key_id : rstr) (seed : bytes) : result InMemoryTrustResolver rstr :=
  let? key := seed_to_key seed in Ok (resolver_insert r signer key_id (public_key key)).

Record PyVerifyResult : Type := {
  pv_decision : rstr;
  pv_path : rstr;
  pv_outcome : rstr;
  pv_reason : option rstr;
  pv_legacy_reason : option rstr;
  pv_server_signer : option rstr;
  pv_key_id : option rstr;
  pv_request_hash : option rstr;
  pv_accepted : bool;
}.

Definition path_str (p : ClientPath) : rstr := match p with McpsVerified => str "mcps-verified" | LegacyExplicit => str "legacy-explicit" end.

Definition outcome_str (o : ClientOutcome) : rstr :=
  match o with Accepted => str "accepted" | FellBackToLegacy => str "fell-back" | Rejected => str "rejected" end.

Definition decision_str (d : EnforcementDecision) : rstr * bool :=
  match d with AcceptMcps => (str "accept", true) | FallBackToLegacy _ => (str "fallback", false) | FailClosed _ => (str "fail-closed", false) end.

Context `{SerdeJson, Sha2, !Deserialize Draft02ResponseEnvelope}.

Definition expectation_of (request_hash : rstr) (canonicalization_id server_signer : option rstr) : ResponseExpectation :=
  let expectation := expectation_new request_hash (default CANONICALIZATION_ID_INT53_V1 canonicalization_id) in
  match server_signer with Some signer => with_expected_server_signer expectation signer | None => expectation end.

Definition sdk_verify_response (raw : bytes) (resolver : InMemoryTrustResolver) (request_hash : rstr)
    (canonicalization_id server_signer : option rstr) (enforcement_mode : rstr) (legacy_allowed : bool) : result PyVerifyResult rstr :=
  let expectation := expectation_of request_hash canonicalization_id server_signer in
  let? mode := parse_mode enforcement_mode in
  let res := verify_signed_response raw (in_memory_resolve resolver) expectation in
  let verified := result_ok res in
  let decision := decide_outcome mode legacy_allowed (classify_response_result res) in
  let audit := audit_for_decision decision in
  Ok {| pv_decision := (decision_str decision).1; pv_path := path_str (ca_path audit); pv_outcome := outcome_str (ca_outcome audit);
        pv_reason := ca_reason audit; pv_legacy_reason := absence_str <$> ca_legacy_reason audit;
        pv_server_signer := vresp_server_signer <$> verified; pv_key_id := vresp_key_id <$> verified;
        pv_request_hash := vresp_request_hash <$> verified; pv_accepted := (decision_str decision).2 |}.
End Verify.

(** ** Correlation *)

Definition py_register (s : CorrelationStore) (id hash nonce : rstr) (deadline now issued_at : Z) (route audience : rstr)
    (signers : list rstr) (version canonicalization_id : option rstr) (digest : rstr) : result unit rstr * CorrelationStore :=
  let pending := {| correlation_id := id; pr_request_hash := hash; pr_nonce := nonce; issued_at_unix := issued_at; deadline_unix := deadline;
                    pr_route_id := route; pr_audience := audience; expected_server_signers := signers;
                    pr_version := default VERSION_DRAFT_02 version;
                    pr_canonicalization_id := default CANONICALIZATION_ID_INT53_V1 canonicalization_id; authz_digest := digest |} in
  let (r, s') := correlation_register s pending now in (map_err corr_err r, s').

Definition py_take_for_response (s : CorrelationStore) (id : rstr) (now : Z) : result PendingRequest rstr * CorrelationStore :=
  let (r, s') := take_for_response s id now in (map_err corr_err r, s').

Definition py_cancel (s : CorrelationStore) (id : rstr) : bool * CorrelationStore :=
  let (r, s') := cancel s id in (bool_decide (is_Some r), s').

Definition py_sweep_expired (s : CorrelationStore) (now : Z) : nat * CorrelationStore := sweep_expired s now.

(** ** What the SDK reports *)

Section Reports.
Context `{SJ : SerdeJson, SJL : !SerdeJsonLaws, ST : SdkTexts, B64 : !Base64, SH : !Sha2, DK : !Dalek}.
Context `{DR : !Deserialize Draft02ResponseEnvelope, DL : !DeserializeLaws Draft02ResponseEnvelope}.

(** The report on a response is the verifier's verdict.  It says accepted
    exactly when the bytes are genuine evidence for the request under the
    caller's trust, and then names the signer, the key and the request hash of
    that evidence; otherwise it names none of them.  A fallback is reported only
    in migration mode, on an allow-listed route and for a response without a
    signature object; a reason only for a refusal, and it is the token of the
    verifier's own error. *)
Theorem sdk_verify_exact raw resolver hash cid signer mode allowed r :
  sdk_verify_response raw resolver hash cid signer mode allowed = Ok r ->
  let x := expectation_of hash cid signer in
  (pv_accepted r = true <-> exists v, evidence raw (in_memory_resolve resolver) x v) /\
  (forall v, evidence raw (in_memory_resolve resolver) x v ->
     pv_server_signer r = Some (vresp_server_signer v) /\ pv_key_id r = Some (vresp_key_id v) /\ pv_request_hash r = Some hash /\ pv_reason r = None) /\
  (pv_accepted r = false -> pv_server_signer r = None /\ pv_key_id r = None /\ pv_request_hash r = None) /\
  (pv_decision r = str "fallback" ->
     mode = str "allow_legacy_explicit" /\ allowed = true /\ exists v, from_slice raw = Some v /\ has_signature_block Response v = false) /\
  (pv_decision r = str "fail-closed" <-> is_Some (pv_reason r)) /\
  (forall code, pv_reason r = Some code -> exists e, verify_signed_response raw (in_memory_resolve resolver) x = Err e /\ code = wire_code e).
Proof.
  intros H x. unfold sdk_verify_response in H. fold x in H. destruct (parse_mode mode) as [m|] eqn:Em; [|done]. injection H as <-.
  cbn [pv_accepted pv_server_signer pv_key_id pv_request_hash pv_reason pv_decision].
  pose proof (verify_signed_response_Ok raw (in_memory_resolve resolver) x) as HOk.
  destruct (verify_signed_response raw (in_memory_resolve resolver) x) as [v|e] eqn:Ev; cbn [classify_response_result decide_outcome].
  - assert (Hv := proj1 (HOk v) eq_refl). cbn. split_and!; [split; [intros _; by exists v|done]| |done|done|split; [done|by intros []]|done].
    intros v' Hv'. assert (v' = v) as -> by (apply HOk in Hv'; congruence). split_and!; try done.
    destruct Hv as (? & ? & ? & ? & _ & _ & _ & _ & _ & _ & _ & ->). cbn. f_equal. unfold x, expectation_of. by destruct signer.
  - assert (Hno : forall v, ~ evidence raw (in_memory_resolve resolver) x v) by (intros v Hv; by apply HOk in Hv).
    assert (Hnv : forall P : Prop, (exists v, evidence raw (in_memory_resolve resolver) x v) -> P) by (intros P [v Hv]; by destruct (Hno v)).
    destruct (decide (e = MissingEnvelope)) as [->|Hne].
    + assert (Hfb : exists v, from_slice raw = Some v /\ has_signature_block Response v = false).
      { unfold verify_signed_response in Ev. destruct (verify_response_draft02 _ _ _ _) eqn:E2; [|simplify_eq; by eapply missing_envelope_inv].
        destruct (expected_server_signer x); [|done]. by destruct (negb _). }
      destruct m, allowed; cbn; split_and!; try done.
      all: try (by split; [|intros Hx; apply (Hnv _ Hx)]). all: try (intros v Hv; by destruct (Hno v)).
      all: try (split; [intros _; by eexists|done]). all: try (intros code [= <-]; by exists MissingEnvelope).
      * intros _. split_and!; try done. unfold parse_mode in Em. repeat case_bool_decide; by simplify_eq.
    + assert (Hc : classify_response_result (Err e) = Invalid e) by (by destruct e). cbn [classify_response_result] in Hc. rewrite Hc. cbn.
      split_and!; [by split; [|intros Hx; apply (Hnv _ Hx)]|intros v Hv; by destruct (Hno v)|done|done|split; [intros _; by eexists|done]|].
      intros code [= <-]. by exists e.
Qed.

(** Only an admitted signer signs through the policy, and under the hardening
    profile only a delegated one. *)
Lemma sdk_custody `{TX : SerdeTexts, SS : !SerdeSer} a k policy sr :
  sign_request_with_signer a k policy = Returns (Ok sr) ->
  custody_admitted policy (as_dyn k) /\ (require_non_exporting policy = true -> exists i ki cb, k = KindDelegated i ki cb).
Proof.
  unfold sign_request_with_signer. destruct (parse_id _); [|done]. destruct (parse_params _); [|done]. destruct (resolve_binding _ _ _); [|done].
  unfold build_signed_request_with_signer. destruct (authorize_signer policy (as_dyn k)) as [u|] eqn:Ea; [|done]. intros _.
  apply authorize_signer_Ok in Ea. split; [done|]. intros Hr. destruct Ea as (_ & _ & Hc & _). specialize (Hc Hr).
  destruct k as [| |i ki cb]; try done. by exists i, ki, cb.
Qed.
End Reports.

(** ** On the sample responses *)

Import Toy.
#[local] Instance sample_texts : SdkTexts := {| debug_error := wire_code; debug_str s := s |}.

Definition sdk_resolver : InMemoryTrustResolver := resolver_insert in_memory_resolver_new (str "did:srv") (str "s1") (public_key sample_key).

Definition sdk_sample : result PyVerifyResult rstr :=
  sdk_verify_response sample_response02 sdk_resolver sample_hash02 None (Some (str "did:srv")) (str "require_mcps") false.

Lemma sdk_sample_accepted : match sdk_sample with Ok r => pv_accepted r | Err _ => false end = true.
Proof. vm_compute. reflexivity. Qed.

Lemma sdk_verify_exact_witness :
  exists r, sdk_sample = Ok r /\ pv_server_signer r = Some (str "did:srv") /\
    exists v, evidence sample_response02 (in_memory_resolve sdk_resolver) (expectation_of sample_hash02 None (Some (str "did:srv"))) v.
Proof.
  pose proof sdk_sample_accepted as Ha. destruct sdk_sample as [r|] eqn:E; [|discriminate Ha]. exists r. split; [reflexivity|].
  destruct (sdk_verify_exact _ _ _ _ _ _ _ r E) as (H1 & H2 & _). destruct (proj1 H1 Ha) as [v Hv]. split; [|exists v; exact Hv].
  destruct (H2 v Hv) as (Hs & _). rewrite Hs. destruct Hv as (? & e & ? & ? & _ & _ & _ & _ & _ & _ & Hpin & ->). cbn [vresp_server_signer].
  rewrite (Hpin (str "did:srv") eq_refl). reflexivity.
Defined.
