(* ===== verification/Conformance.v ===== *)
(** * The conformance runner and its two servers

    [mcps-conformance/src]: the vectors and their loader, the object target and
    the runner with its report, the native echo server, the sidecar around a
    plain echo server, the loop that serves either over standard input, and the
    command lines.  The text readers [serde] derives for a vector and a manifest
    and the pretty printer of the report are parameters. *)

From S2P Require Import Prelude Utf8 Errors Json Canonical Strings Time Crypto Signing Envelope Replay Resolver Pipeline PipelineSpec PipelineTheorems.
From S2P Require Import Unwrap Graft KeySource Proxy FileSystem.

(** ** vector.rs *)

Inductive Expected : Type := VerifyOk | ExpectedError (code : rstr).

Definition VERIFY_OK : rstr := str "verify_ok".

Definition from_token (token : rstr) : Expected := if bool_decide (token = VERIFY_OK) then VerifyOk else ExpectedError token.

Definition as_token (e : Expected) : rstr := match e with VerifyOk => VERIFY_OK | ExpectedError code => code end.

Record ResolverEntry : Type := { re_signer_key : rstr; re_public_key_b64url : rstr }.

Record VectorCase : Type := {
  vc_name : rstr;
  vc_kind : rstr;
  vc_message : option Value;
  vc_raw_text : option rstr;
  vc_raw_bytes_b64url : option rstr;
  vc_expected : rstr;
  vc_resolver : option ResolverEntry;
  vc_requires_pipeline : bool;
}.

Definition case_expected (c : VectorCase) : Expected := from_token (vc_expected c).

Record ManifestEntry : Type := { me_name : rstr; me_file : rstr; me_kind : rstr; me_expected : rstr; me_requires_pipeline : bool }.

(** ** loader.rs *)

(** [serde_json::from_str] at a type with a derived [Deserialize]. *)
Class FromStr (T : Type) := from_str : rstr -> result T rstr.

Section Loader.
Context `{Access, !FromStr (list ManifestEntry), !FromStr VectorCase}.

Definition parse_manifest (text : rstr) : result (list ManifestEntry) rstr := map_err (app (str "parse manifest failed: ")) (from_str text).

Definition parse_case (text : rstr) : result VectorCase rstr := map_err (app (str "parse vector failed: ")) (from_str text).

(** [std::fs::read_to_string], its error labelled with the path. *)
Definition read_text (fs : FileSystem) (path : rstr) : result rstr rstr :=
  map_err (fun e => str "read " ++ path ++ str ": " ++ e)
    (let? bs := map_err fs_error_display (fs_read fs path) in ok_or (from_utf8 bs) (str "stream did not contain valid UTF-8")).

Fixpoint load_cases (fs : FileSystem) (dir : rstr) (entries : list ManifestEntry) : result (list VectorCase) rstr :=
  match entries with
  | [] => Ok []
  | entry :: rest =>
      let? text := read_text fs (path_join dir (me_file entry)) in
      let? case := parse_case text in
      let? cases := load_cases fs dir rest in
      Ok (case :: cases)
  end.

Definition load_from_dir (fs : FileSystem) (dir : rstr) : result (list VectorCase) rstr :=
  let? manifest_text := read_text fs (path_join dir (str "manifest.json")) in
  let? entries := parse_manifest manifest_text in
  load_cases fs dir entries.
End Loader.

(** ** target.rs *)

Definition TEST_AUDIENCE : rstr := str "did:example:server-1".
Definition TEST_MAX_CLOCK_SKEW_SECS : Z := 300.

Record TargetOutcome : Type := { token : rstr }.
Definition outcome_ok : TargetOutcome := {| token := VERIFY_OK |}.
Definition outcome_err (code : rstr) : TargetOutcome := {| token := code |}.
Definition outcome_matches (o : TargetOutcome) (e : Expected) : bool := bool_decide (token o = as_token e).

Record RunContext : Type := { ctx_canonical_request_hash : option rstr }.

(** [trait ConformanceTarget]. *)
Class ConformanceTarget := run_case : VectorCase -> RunContext -> result TargetOutcome rstr.

(** [&value[key]]. *)
Definition index (k : rstr) (v : Value) : Value := default VNull (get k v).

(** The seconds of [now_unix_for_case] stay far inside [i64]: a timestamp that
    parses has a year of four digits. *)
Definition now_unix_for_case (case : VectorCase) : result Z rstr :=
  match vc_message case with
  | None => Ok 0
  | Some message =>
      let envelope := index REQUEST_META_KEY (index (str "_meta") (index (str "params") message)) in
      let issued_at := as_str (index (str "issued_at") envelope) in
      let expires_at := as_str (index (str "expires_at") envelope) in
      let issued :=
        match issued_at with
        | Some iss =>
            let? iss_unix := map_err (fun e => str "parse issued_at failed: " ++ wire_code e) (parse_rfc3339_utc iss) in
            Ok (iss_unix + 60)
        | None => Ok 0
        end in
      if bool_decide (vc_expected case = str "mcps.expired_request") then
        match expires_at with
        | Some exp =>
            let? exp_unix := map_err (fun e => str "parse expires_at failed: " ++ wire_code e) (parse_rfc3339_utc exp) in
            Ok (exp_unix + TEST_MAX_CLOCK_SKEW_SECS + 1)
        | None => issued
        end
      else issued
  end.

Section Target.
Context `{SJ : SerdeJson, SS : !SerdeSer, ST : !SerdeTexts, B64 : !Base64, SH : !Sha2, DK : !Dalek}.
Context `{D1 : !Deserialize RequestEnvelope, D3 : !Deserialize ResponseEnvelope}.

Definition target_config : VerificationConfig := {| expected_audience := TEST_AUDIENCE; max_clock_skew_secs := TEST_MAX_CLOCK_SKEW_SECS |}.

Definition resolver_for (case : VectorCase) : result InMemoryTrustResolver rstr :=
  match vc_resolver case with
  | None => Ok in_memory_resolver_new
  | Some entry =>
      let? split := ok_or (split_once 35 (re_signer_key entry)) (str "resolver signer_key missing '#': " ++ re_signer_key entry) in
      let? key := map_err (fun e => str "resolver public key decode failed: " ++ wire_code e) (vk_from_b64url (re_public_key_b64url entry)) in
      Ok (resolver_insert in_memory_resolver_new split.1 split.2 key)
  end.

Definition case_bytes (case : VectorCase) : result bytes rstr :=
  match vc_raw_text case, vc_raw_bytes_b64url case, vc_message case with
  | Some text, _, _ => Ok (as_bytes text)
  | None, Some b64, _ => map_err (fun e => str "raw_bytes_b64url decode failed: " ++ wire_code e) (b64url_decode b64)
  | None, None, Some message => ok_or (to_vec message) (str "serialize message failed: " ++ ser_error_display message)
  | None, None, None => Err (str "vector '" ++ vc_name case ++ str "' has neither message nor raw bytes")
  end.

Definition outcome_of {A} (r : result A McpsError) : TargetOutcome :=
  match r with Ok _ => outcome_ok | Err err => outcome_err (wire_code err) end.

Definition run_raw (bs : bytes) : TargetOutcome := outcome_of (canonicalize bs).

(** A replay shows on the second submission to one cache. *)
Definition run_request (case : VectorCase) (bs : bytes) : result TargetOutcome rstr :=
  let? resolver := resolver_for case in
  let? now := now_unix_for_case case in
  let verify := verify_request bs (in_memory_resolve resolver) target_config now in
  let replay := in_memory_new TEST_MAX_CLOCK_SKEW_SECS in
  if bool_decide (vc_expected case = str "mcps.replay_detected")
  then Ok (outcome_of (verify (verify replay).2).1)
  else Ok (outcome_of (verify replay).1).

Definition run_response (case : VectorCase) (bs : bytes) (ctx : RunContext) : result TargetOutcome rstr :=
  let? resolver := resolver_for case in
  let? expected_hash := ok_or (ctx_canonical_request_hash ctx) (str "response vector needs canonical_request_hash in RunContext") in
  Ok (outcome_of (verify_response bs (in_memory_resolve resolver) expected_hash)).

Definition canonical_request_hash (case : VectorCase) : result rstr rstr :=
  let? message := ok_or (vc_message case) (str "vector '" ++ vc_name case ++ str "' has no message") in
  map_err (fun e => str "request_hash failed: " ++ wire_code e) (request_hash message).

(** [impl ConformanceTarget for ObjectTarget]. *)
Definition object_run_case (case : VectorCase) (ctx : RunContext) : result TargetOutcome rstr :=
  let? bs := case_bytes case in
  if bool_decide (vc_kind case = str "raw") then Ok (run_raw bs)
  else if bool_decide (vc_kind case = str "request") then run_request case bs
  else if bool_decide (vc_kind case = str "response") then run_response case bs ctx
  else Err (str "unknown vector kind '" ++ vc_kind case ++ str "' for '" ++ vc_name case ++ str "'").

Definition ObjectTarget : ConformanceTarget := object_run_case.

(** ** runner.rs *)

Definition CANONICAL_REQUEST_NAME : rstr := str "v1_valid_request".

Record CaseResult : Type := {
  cr_name : rstr; cr_kind : rstr; cr_expected : rstr; cr_actual : rstr; cr_pass : bool; cr_requires_pipeline : bool }.

Record RunReport : Type := { results : list CaseResult; passed : Z; failed : Z; total : Z }.

Definition all_passed (r : RunReport) : bool := (failed r =? 0) && (passed r =? total r).

(** [{:<n}]: filled with spaces to the right. *)
Definition padded (n : nat) (s : rstr) : rstr := s ++ replicate (n - length s) 32.

Definition to_human_string (r : RunReport) : rstr :=
  mjoin ((fun c => (if cr_pass c then str "PASS" else str "FAIL") ++ str "  " ++ padded 34 (cr_name c) ++ str "  expected=" ++
            padded 28 (cr_expected c) ++ str " actual=" ++ cr_actual c ++ [10]) <$> results r) ++
  [10] ++ display_unsigned (passed r) ++ str " passed, " ++ display_unsigned (failed r) ++ str " failed, " ++
  display_unsigned (total r) ++ str " total" ++ [10].

Definition build_context (cases : list VectorCase) : RunContext :=
  let named := List.find (fun c => bool_decide (vc_name c = CANONICAL_REQUEST_NAME)) cases in
  let canonical :=
    match named with
    | Some c => Some c
    | None => List.find (fun c => bool_decide (vc_kind c = str "request") && bool_decide (vc_expected c = VERIFY_OK)) cases
    end in
  {| ctx_canonical_request_hash := c ← canonical; result_ok (canonical_request_hash c) |}.

(** One round of the loop of [run_suite]. *)
Definition judge (target : ConformanceTarget) (ctx : RunContext) (case : VectorCase) : CaseResult :=
  let expected := case_expected case in
  let (actual, pass) :=
    match target case ctx with
    | Ok outcome => (token outcome, outcome_matches outcome expected)
    | Err harness_err => (str "harness_error: " ++ harness_err, false)
    end in
  {| cr_name := vc_name case; cr_kind := vc_kind case; cr_expected := as_token expected; cr_actual := actual; cr_pass := pass;
     cr_requires_pipeline := vc_requires_pipeline case |}.

Fixpoint suite_loop (target : ConformanceTarget) (ctx : RunContext) (cases : list VectorCase) (acc : list CaseResult) (passed failed : Z) : RunReport :=
  match cases with
  | [] => {| results := acc; passed := passed; failed := failed; total := Z.of_nat (length acc) |}
  | case :: rest =>
      let r := judge target ctx case in
      if cr_pass r then suite_loop target ctx rest (acc ++ [r]) (passed + 1) failed
      else suite_loop target ctx rest (acc ++ [r]) passed (failed + 1)
  end.

Definition run_suite (target : ConformanceTarget) (cases : list VectorCase) : RunReport :=
  suite_loop target (build_context cases) cases [] 0 0.
End Target.

(** ** main.rs *)

Definition DEFAULT_VECTORS_DIR : rstr := str "../mcps-core/tests/vectors".

Record ConformanceArgs : Type := { ca_vectors_dir : rstr; ca_json : bool }.

Fixpoint conformance_flags (argv : list rstr) (dir : rstr) (json : bool) : result ConformanceArgs rstr :=
  match argv with
  | [] => Ok {| ca_vectors_dir := dir; ca_json := json |}
  | arg :: rest =>
      if bool_decide (arg = str "--json") then conformance_flags rest dir true
      else if bool_decide (arg = str "--vectors-dir") then
        match rest with [] => Err (str "--vectors-dir requires a value") | value :: rest' => conformance_flags rest' value json end
      else if bool_decide (arg = str "--profile") then
        match rest with
        | [] => Err (str "--profile requires a value")
        | value :: rest' =>
            if negb (bool_decide (value = str "core")) then Err (str "unsupported profile '" ++ value ++ str "' (only 'core')")
            else conformance_flags rest' dir json
        end
      else Err (str "unknown argument '" ++ arg ++ str "'")
  end.

Definition conformance_args (argv : list rstr) : result ConformanceArgs rstr :=
  match argv with
  | [] => Err (str "usage: mcps-conformance object [--vectors-dir DIR] [--profile core] [--json]")
  | subcommand :: rest =>
      if negb (bool_decide (subcommand = str "object"))
      then Err (str "unknown subcommand '" ++ subcommand ++ str "' (only 'object' is implemented in MCPS-010)")
      else conformance_flags rest DEFAULT_VECTORS_DIR false
  end.

(** [run]: the text printed and whether everything passed. *)
Definition conformance_run `{SerdeJson, !SerdeSer, !SerdeTexts, !Base64, !Sha2, !Dalek, !Deserialize RequestEnvelope, !Deserialize ResponseEnvelope}
    `{Access, !FromStr (list ManifestEntry), !FromStr VectorCase}
    (to_json_string : RunReport -> result rstr rstr) (argv : list rstr) (fs : FileSystem) : result (rstr * bool) rstr :=
  let? args := conformance_args argv in
  let? cases := load_from_dir fs (ca_vectors_dir args) in
  let report := run_suite ObjectTarget cases in
  let? text := (if ca_json args then let? s := to_json_string report in Ok (s ++ [10]) else Ok (to_human_string report)) in
  Ok (text, all_passed report).

(** ** What a report says *)

Lemma as_from_token t : as_token (from_token t) = t.
Proof. unfold from_token. by case_bool_decide. Qed.

Section Reports.
Context `{SJ : SerdeJson, SS : !SerdeSer, ST : !SerdeTexts, B64 : !Base64, SH : !Sha2, DK : !Dalek}.
Context (target : ConformanceTarget).

Lemma suite_loop_spec ctx cases acc p f :
  let verdicts := judge target ctx <$> cases in
  suite_loop target ctx cases acc p f =
  {| results := acc ++ verdicts; passed := p + Z.of_nat (length (filter (fun r => cr_pass r = true) verdicts));
     failed := f + Z.of_nat (length (filter (fun r => cr_pass r = false) verdicts));
     total := Z.of_nat (length acc + length cases) |}.
Proof.
  revert acc p f. induction cases as [|c cases IH]; intros acc p f; cbn [suite_loop fmap list_fmap].
  { cbn. rewrite app_nil_r. f_equal; lia. }
  rewrite !filter_cons. destruct (cr_pass (judge target ctx c)) eqn:E; rewrite IH; cbn zeta;
    rewrite <- app_assoc, length_app; repeat (destruct (decide _) as [?|?]; [|try congruence]); try congruence; cbn [length app]; f_equal; lia.
Qed.

Lemma judge_pass ctx c : cr_pass (judge target ctx c) = true <-> exists o, target c ctx = Ok o /\ token o = vc_expected c.
Proof.
  unfold judge, case_expected. destruct (target c ctx) as [o|e]; cbn [cr_pass].
  - unfold outcome_matches. rewrite bool_decide_eq_true, as_from_token. split; [eauto|]. intros (? & [= <-] & ?). done.
  - split; [done|]. intros (? & ? & _). done.
Qed.

(** The report of a suite: one verdict for each vector, in order; the counts
    add up; and the suite passes exactly when the target gave every vector the
    token it expects, a vector the harness could not run being a failure. *)
Theorem run_suite_exact cases :
  let report := run_suite target cases in
  results report = judge target (build_context cases) <$> cases /\
  total report = Z.of_nat (length cases) /\ passed report + failed report = total report /\
  (all_passed report = true <-> Forall (fun c => exists o, target c (build_context cases) = Ok o /\ token o = vc_expected c) cases).
Proof.
  unfold run_suite. rewrite suite_loop_spec. cbn [results passed failed total app length]. set (ctx := build_context cases). clearbody ctx.
  assert (Hcount : forall l : list CaseResult,
    (length (filter (fun r => cr_pass r = true) l) + length (filter (fun r => cr_pass r = false) l) = length l)%nat).
  { induction l as [|r l IH]; [done|]. rewrite !filter_cons. destruct (cr_pass r); repeat (destruct (decide _); try congruence); cbn [length]; lia. }
  pose proof (Hcount (judge target ctx <$> cases)) as Hc. rewrite length_fmap in Hc. split_and!; [done|lia|lia|].
  unfold all_passed. cbn [failed passed total]. rewrite andb_true_iff, !Z.eqb_eq.
  trans (Forall (fun r => cr_pass r = true) (judge target ctx <$> cases)).
  - split.
    + intros [Hf _]. apply Forall_forall. intros r Hr. destruct (cr_pass r) eqn:E; [done|].
      assert (Hin : r ∈ filter (fun r => cr_pass r = false) (judge target ctx <$> cases)) by (by apply list_elem_of_filter).
      destruct (filter _ _) as [|? ?] eqn:Efl in Hin, Hf; [by apply not_elem_of_nil in Hin|cbn in Hf; lia].
    + intros Ha. assert (length (filter (fun r => cr_pass r = false) (judge target ctx <$> cases)) = 0%nat); [|lia].
      clear Hc. induction Ha as [|r l Hr _ IH]; [done|]. rewrite filter_cons. by destruct (decide _); [congruence|].
  - rewrite Forall_fmap. apply Forall_iff. intros c. apply judge_pass.
Qed.
End Reports.

Section Replays.
Context `{SJ : SerdeJson, SS : !SerdeSer, ST : !SerdeTexts, B64 : !Base64, SH : !Sha2, DK : !Dalek}.
Context `{D1 : !Deserialize RequestEnvelope, D3 : !Deserialize ResponseEnvelope}.

(** The replay vector is a test of the cache and of nothing else: the second
    submission is refused as a replay exactly when the first was accepted, and
    repeats the first verdict otherwise. *)
Theorem replay_vector_exact case bs resolver now :
  vc_expected case = str "mcps.replay_detected" -> resolver_for case = Ok resolver -> now_unix_for_case case = Ok now ->
  let first := verify_request bs (in_memory_resolve resolver) target_config now (in_memory_new TEST_MAX_CLOCK_SKEW_SECS) in
  run_request case bs = Ok {| token := match first.1 with Ok _ => str "mcps.replay_detected" | Err e => wire_code e end |}.
Proof.
  intros He Hr Hn. unfold run_request. rewrite Hr, Hn, He, bool_decide_eq_true_2 by done. cbn zeta. rewrite !verify_request_checks.
  destruct (checks01 _ _ _ _) as [[[e pre] te]|err]; [|done]. unfold commit. cbn [check_and_insert in_memory_replay_cache].
  unfold in_memory_check_and_insert at 2 3. cbn [seen in_memory_new]. rewrite lookup_empty. cbn [fst snd].
  unfold in_memory_check_and_insert. cbn [seen]. rewrite lookup_insert_eq. done.
Qed.
End Replays.
