(* ===== verification/EchoServer.v ===== *)
(** * The two servers of the conformance suite

    [mcps-conformance/src/echo_server.rs], [fixtures.rs], [server.rs],
    [stdio.rs], [stdio_server_main.rs] and [stdio_target.rs]: a native echo
    server that verifies and signs itself, the sidecar around a plain echo
    server, the loop that serves either over standard input, and the harness on
    the other end of the pipes. *)

From S2P Require Import Prelude Utf8 Errors Json Canonical CanonicalParse CanonicalRound Strings Signing Values Time Crypto Envelope Instances.
From S2P Require Import Constraints Replay Resolver Pipeline Samples PipelineSpec PipelineTheorems PipelineResponses Unwrap Graft Policy PolicySpec.
From S2P Require Import Transport KeySource Proxy ProxyMeta ProxyTheorems ProxyResponses ProxyClient Conformance.

(** ** echo_server.rs *)

Section Echo.
Context `{SJ : SerdeJson, SS : !SerdeSer, B64 : !Base64, SH : !Sha2, DK : !Dalek}.
Context `{D1 : !Deserialize RequestEnvelope, D2 : !Deserialize Draft02RequestEnvelope, D3 : !Deserialize ResponseEnvelope}.

(** [es_replay] is the content of the [RefCell], [None] while it is borrowed. *)
Record EchoServer : Type := {
  es_signing_key : SigningKey;
  es_server_signer : rstr;
  es_key_id : rstr;
  es_resolver : TrustResolver;
  es_config : VerificationConfig;
  es_replay : option InMemoryReplayCache;
}.
#[export] Instance EchoServer_settable : Settable EchoServer := fun s => {|
  es_signing_key := es_signing_key s; es_server_signer := es_server_signer s; es_key_id := es_key_id s;
  es_resolver := es_resolver s; es_config := es_config s; es_replay := es_replay s |}.

Definition echo_new (signing_key : SigningKey) (server_signer key_id : rstr) (resolver : TrustResolver)
    (expected_audience : rstr) (max_clock_skew_secs : Z) : EchoServer := {|
  es_signing_key := signing_key; es_server_signer := server_signer; es_key_id := key_id; es_resolver := resolver;
  es_config := {| expected_audience := expected_audience; max_clock_skew_secs := max_clock_skew_secs |};
  es_replay := Some (in_memory_new max_clock_skew_secs) |}.

(** [value["params"]["arguments"]["text"].as_str()], empty if absent. *)
Definition echoed_text (v : Value) : rstr :=
  default [] (as_str (index (str "text") (index (str "arguments") (index (str "params") v)))).

Definition echo_content (text : rstr) : Value :=
  VArray [json_object [(str "type", VString (str "text")); (str "text", VString text)]].

Definition echo_signed_response (s : EchoServer) (request : option Value) (verified : VerifiedRequest) (now_unix : Z) (id_value : Value)
  : outcome (result bytes McpsError) :=
  let echoed := from_option echoed_text [] request in
  let issued_at := unix_to_rfc3339_utc now_unix in
  let response := json_object
    [(str "jsonrpc", VString (str "2.0"));
     (str "id", id_value);
     (str "result", json_object
        [(str "content", echo_content echoed);
         (str "_meta", json_object
            [(RESPONSE_META_KEY, json_object
                [(str "request_hash", VString (vr_request_hash verified));
                 (str "server_signer", VString (es_server_signer s));
                 (str "issued_at", VString issued_at);
                 (str "signature", json_object
                    [(str "alg", VString SIG_ALG_ED25519); (str "key_id", VString (es_key_id s))])])])])] in
  match response_signing_preimage response with
  | Err e => Returns (Err e)
  | Ok preimage =>
      let signature := sign (es_signing_key s) preimage in
      match index_update [str "result"; str "_meta"; RESPONSE_META_KEY; str "signature"; str "value"]
              (fun _ => VString signature) response with
      | Panics => Panics
      | Returns response => Returns (ok_or (to_vec response) CanonicalizationFailed)
      end
  end.

Definition echo_handle (s : EchoServer) (request_bytes : bytes) (now_unix : Z) : outcome bytes * EchoServer :=
  let parsed := from_slice request_bytes in
  let id_value := default VNull (v ← parsed; get (str "id") v) in
  let (verify_result, s') :=
    match es_replay s with
    | Some replay =>
        let (r, replay') := verify_request request_bytes (es_resolver s) (es_config s) now_unix replay in
        (r, s <| es_replay := Some replay' |>)
    | None => (Err ReplayCacheUnavailable, s)
    end in
  match verify_result with
  | Ok verified =>
      match echo_signed_response s parsed verified now_unix id_value with
      | Panics => (Panics, s')
      | Returns (Ok bs) => (Returns bs, s')
      | Returns (Err err) => (Returns (json_rpc_error_object err id_value), s')
      end
  | Err err => (Returns (json_rpc_error_object err id_value), s')
  end.

Definition echo_request_object (signer key_id audience on_behalf_of authorization_hash nonce issued_at expires_at tool_text id : rstr) : Value :=
  json_object
    [(str "id", VString id);
     (str "jsonrpc", VString (str "2.0"));
     (str "method", VString (str "tools/call"));
     (str "params", json_object
        [(str "name", VString (str "echo"));
         (str "arguments", json_object [(str "text", VString tool_text)]);
         (str "_meta", json_object
            [(REQUEST_META_KEY, json_object
                [(str "version", VString VERSION_DRAFT_01);
                 (str "signer", VString signer);
                 (str "on_behalf_of", VString on_behalf_of);
                 (str "audience", VString audience);
                 (str "authorization_hash", VString authorization_hash);
                 (str "nonce", VString nonce);
                 (str "issued_at", VString issued_at);
                 (str "expires_at", VString expires_at);
                 (str "signature", json_object [(str "alg", VString SIG_ALG_ED25519); (str "key_id", VString key_id)])])])])].

Definition build_echo_request (signing_key : SigningKey)
    (signer key_id audience on_behalf_of authorization_hash nonce issued_at expires_at tool_text id : rstr)
  : outcome (result bytes McpsError) :=
  let request := echo_request_object signer key_id audience on_behalf_of authorization_hash nonce issued_at expires_at tool_text id in
  match request_signing_preimage request with
  | Err e => Returns (Err e)
  | Ok preimage =>
      match index_update [str "params"; str "_meta"; REQUEST_META_KEY; str "signature"; str "value"]
              (fun _ => VString (sign signing_key preimage)) request with
      | Panics => Panics
      | Returns request => Returns (ok_or (to_vec request) CanonicalizationFailed)
      end
  end.

(** ** fixtures.rs *)

Definition SIGNER : rstr := str "did:example:agent-1".
Definition SIGNER_KEY_ID : rstr := str "key-1".
Definition SERVER : rstr := str "did:example:server-1".
Definition SERVER_KEY_ID : rstr := str "server-key-1".
Definition AUDIENCE : rstr := str "did:example:server-1".
Definition ON_BEHALF_OF : rstr := str "did:example:user-1".
Definition AUTH_HASH : rstr := str "sha256:RBNvo1WzZ4oRRq0W9-hknpT7T8If536DEMBg9hyq_4o".
Definition ISSUED_AT : rstr := str "2026-05-28T20:00:00Z".
Definition EXPIRES_AT : rstr := str "2026-05-28T20:05:00Z".
Definition MAX_CLOCK_SKEW_SECS : Z := 300.

Definition signer_key : SigningKey := sk_from_seed_bytes (replicate 32 1).
Definition server_key : SigningKey := sk_from_seed_bytes (replicate 32 2).

Definition inbound_resolver : InMemoryTrustResolver := resolver_insert in_memory_resolver_new SIGNER SIGNER_KEY_ID (public_key signer_key).
Definition response_resolver : InMemoryTrustResolver := resolver_insert in_memory_resolver_new SERVER SERVER_KEY_ID (public_key server_key).

Definition documented_echo_server : EchoServer :=
  echo_new server_key SERVER SERVER_KEY_ID (in_memory_resolve inbound_resolver) AUDIENCE MAX_CLOCK_SKEW_SECS.

Definition plain_echo_value (request : bytes) : Value :=
  let value := default VNull (from_slice request) in
  json_object
    [(str "jsonrpc", VString (str "2.0"));
     (str "id", default VNull (get (str "id") value));
     (str "result", json_object [(str "content", echo_content (echoed_text value))])].

Definition plain_echo_inner (request : bytes) : bytes := default [] (to_vec (plain_echo_value request)).

(** The closure as an inner server: it has no state. *)
#[export] Instance plain_echo_server : InnerServer unit := fun _ request => (plain_echo_inner request, tt).

Definition documented_proxy : Proxy :=
  proxy_new (signing_key_signer server_key) SERVER SERVER_KEY_ID (in_memory_resolve inbound_resolver) AUDIENCE MAX_CLOCK_SKEW_SECS.

Definition proxy_world : World InMemoryReplayCache unit :=
  {| w_replay := Some (in_memory_new MAX_CLOCK_SKEW_SECS); w_inner := tt; w_effects := [] |}.

(** ** server.rs *)

Inductive ServerKind : Type := Native | SidecarWrapped.

Definition from_mode (mode : rstr) : option ServerKind :=
  if bool_decide (mode = str "native") then Some Native
  else if bool_decide (mode = str "proxy") then Some SidecarWrapped else None.

Definition mode_arg (kind : ServerKind) : rstr := match kind with Native => str "native" | SidecarWrapped => str "proxy" end.

(** [Box<dyn McpsServer>]: the implementation with its state. *)
Inductive McpsServer : Type :=
| NativeServer (s : EchoServer)
| WrappedServer (p : Proxy) (w : World InMemoryReplayCache unit).

Definition server_handle (s : McpsServer) (request : bytes) (now_unix : Z) : outcome bytes * McpsServer :=
  match s with
  | NativeServer e => let (r, e') := echo_handle e request now_unix in (r, NativeServer e')
  | WrappedServer p w => let (r, w') := handle p request now_unix w in (r, WrappedServer p w')
  end.

Definition build_server (kind : ServerKind) : McpsServer :=
  match kind with Native => NativeServer documented_echo_server | SidecarWrapped => WrappedServer documented_proxy proxy_world end.

(** ** stdio.rs *)

(** The lines of the input, each a text or a read error; what is written, and
    the count served or the error.  A panic ends the process. *)
Fixpoint serve_stdio (s : McpsServer) (now_unix : Z) (lines : list (result rstr rstr)) : outcome (bytes * result Z rstr) :=
  match lines with
  | [] => Returns ([], Ok 0)
  | Err e :: _ => Returns ([], Err e)
  | Ok line :: rest =>
      if is_empty (trim line) then serve_stdio s now_unix rest
      else
        match server_handle s (as_bytes line) now_unix with
        | (Panics, _) => Panics
        | (Returns response, s') =>
            match serve_stdio s' now_unix rest with
            | Panics => Panics
            | Returns (out, served) => Returns (response ++ [10] ++ out, let? n := served in Ok (n + 1))
            end
        end
  end.

(** ** stdio_server_main.rs *)

(** The text of the integer parser's error is left out. *)
Fixpoint stdio_flags (argv : list rstr) (now_unix : option Z) (kind : ServerKind) : result (option Z * ServerKind) rstr :=
  match argv with
  | [] => Ok (now_unix, kind)
  | arg :: rest =>
      if bool_decide (arg = str "--now-unix") then
        match rest with
        | [] => Err (str "--now-unix requires a value")
        | value :: rest' =>
            match parse_i64 value with
            | Some n => stdio_flags rest' (Some n) kind
            | None => Err (str "--now-unix not an integer")
            end
        end
      else if bool_decide (arg = str "--mode") then
        match rest with
        | [] => Err (str "--mode requires a value")
        | value :: rest' =>
            match from_mode value with
            | Some k => stdio_flags rest' now_unix k
            | None => Err (str "--mode must be native|proxy, got '" ++ value ++ str "'")
            end
        end
      else Err (str "unknown argument '" ++ arg ++ str "'")
  end.

Definition stdio_args (argv : list rstr) : result (Z * ServerKind) rstr :=
  let? flags := stdio_flags argv None Native in
  let? now_unix := ok_or flags.1 (str "usage: mcps-stdio-server --now-unix <SECONDS> [--mode native|proxy]") in
  Ok (now_unix, flags.2).

(** [BufRead::lines]: split at line feeds, one carriage return before them
    dropped; a line that is not UTF-8 is a read error. *)
Fixpoint byte_lines (part bs : bytes) : list bytes :=
  match bs with
  | [] => if is_empty part then [] else [part]
  | b :: bs' => if b =? 10 then default part (strip_suffix [13] part) :: byte_lines [] bs' else byte_lines (part ++ [b]) bs'
  end.

Definition input_lines (stdin : bytes) : list (result rstr rstr) :=
  (fun l => ok_or (from_utf8 l) (str "stream did not contain valid UTF-8")) <$> byte_lines [] stdin.

(** A run of the program: what it writes and whether it succeeds.  What a run
    wrote before a panic is not kept, as nobody reads it. *)
Definition stdio_server_run (argv : list rstr) (stdin : bytes) : bytes * bool :=
  match stdio_args argv with
  | Err _ => ([], false)
  | Ok (now_unix, kind) =>
      match serve_stdio (build_server kind) now_unix (input_lines stdin) with
      | Panics => ([], false)
      | Returns (out, served) => (out, is_ok served)
      end
  end.

(** ** stdio_target.rs *)

(** [StdioHarness::serve_kind], over a child that starts and a pipe that never
    breaks: all the requests are written, then the output is read to its end.
    The error of a failed child carries no standard error here. *)
Definition harness_serve_kind (child : list rstr -> bytes -> bytes * bool) (requests : list bytes) (now_unix : Z) (kind : ServerKind)
  : result (list bytes) rstr :=
  let stdin := mjoin ((fun r => r ++ [10]) <$> requests) in
  let (stdout, success) := child [str "--now-unix"; display_signed now_unix; str "--mode"; mode_arg kind] stdin in
  if negb success then Err (str "server exited")
  else Ok (filter (fun line => line <> []) (str_split 10 stdout)).

Definition harness_serve (child : list rstr -> bytes -> bytes * bool) (requests : list bytes) (now_unix : Z) : result (list bytes) rstr :=
  harness_serve_kind child requests now_unix Native.

Definition harness_roundtrip (child : list rstr -> bytes -> bytes * bool) (request : bytes) (now_unix : Z) : result bytes rstr :=
  let? responses := harness_serve child [request] now_unix in
  match responses with
  | [response] => Ok response
  | _ => Err (str "expected 1 response, got " ++ display_unsigned (Z.of_nat (length responses)))
  end.

Definition outcome_token `{!SerdeTexts} (response : bytes) (expected_request_hash : rstr) (resolver : TrustResolver) : rstr :=
  match from_slice response with
  | None => str "harness_error: parse response: " ++ de_error_display response
  | Some value =>
      match get (str "error") value ≫= get (str "message") with
      | Some message => default (str "harness_error: non-string error.message") (as_str message)
      | None =>
          match verify_response response resolver expected_request_hash with
          | Ok _ => VERIFY_OK
          | Err err => wire_code err
          end
      end
  end.
End Echo.

(** ** The two servers agree *)

(** *** Values up to member order *)

Lemma scrub_member_equiv b v w : value_equiv v w -> value_equiv (scrub_member b v) (scrub_member b w).
Proof.
  revert b w. induction v as [|x|x|x|l IH|m IH] using Value_ind'; intros b w H; inversion H as [| | | |? l2 Hl|? m2 Hm]; subst; try done.
  - cbn [scrub_member]. constructor. clear H. revert l2 Hl. induction IH as [|x l Hx _ IHl]; intros l2 Hl; inversion Hl; subst; cbn; constructor; auto.
  - rewrite !scrub_member_object.
    assert (He : forall k, option_Forall2 value_equiv (map_get k (scrub_entry <$> m)) (map_get k (scrub_entry <$> m2))).
    { intros k. rewrite !map_get_scrub_entry. specialize (Hm k). destruct (map_get k m) as [x|] eqn:E, (map_get k m2); inversion Hm; subst; cbn; constructor.
      apply map_get_Some in E. eapply (Forall_forall _ m) in IH; [|exact E]. by apply IH. }
    destruct b; constructor; intros k; rewrite ?map_get_remove_owned; [|done]. case_bool_decide; [constructor|done].
Qed.

Lemma update_at_equiv ks f v w :
  (forall x y, value_equiv x y -> value_equiv (f x) (f y)) -> value_equiv v w -> value_equiv (update_at ks f v) (update_at ks f w).
Proof. intros Hf. revert v w. induction ks as [|k ks IH]; intros v w H; cbn; [auto|]. by apply value_equiv_update. Qed.

Lemma object_insert_equiv k x m1 m2 :
  value_equiv (VObject m1) (VObject m2) -> value_equiv (VObject (map_insert k x m1)) (VObject (map_insert k x m2)).
Proof.
  intros H. inversion H as [| | | | |? ? Hm]; subst. constructor. intros k'. rewrite !map_get_insert.
  case_bool_decide; [constructor; reflexivity|done].
Qed.

Lemma fill_signature_equiv loc sg v w : value_equiv v w -> value_equiv (fill_signature loc sg v) (fill_signature loc sg w).
Proof.
  apply update_at_equiv. intros x y H. inversion H; subst; try done. by apply (object_insert_equiv (str "value") (VString sg)).
Qed.

Lemma response_base_equiv id r1 r2 : value_equiv r1 r2 -> value_equiv (response_base id r1) (response_base id r2).
Proof.
  intros H. unfold response_base, json_object. cbn [foldl fst snd]. constructor. intros k. rewrite !map_get_insert.
  case_bool_decide; [by constructor|]. case_bool_decide; [constructor; reflexivity|]. case_bool_decide; constructor. reflexivity.
Qed.

Lemma with_envelope_base id m m' : with_envelope id m m' = response_base id (VObject m').
Proof. reflexivity. Qed.

(** Adding the envelope to equivalent results that have no metadata. *)
Lemma add_envelope_equiv envelope m1 m2 :
  map_get META_FIELD m1 = None -> value_equiv (VObject m1) (VObject m2) ->
  exists m1' m2', add_envelope envelope m1 = Some m1' /\ add_envelope envelope m2 = Some m2' /\ value_equiv (VObject m1') (VObject m2').
Proof.
  intros H1 Hq. assert (H2 : map_get META_FIELD m2 = None).
  { inversion Hq as [| | | | |? ? Hm]; subst. specialize (Hm META_FIELD). rewrite H1 in Hm. by inversion Hm. }
  unfold add_envelope. rewrite H1, H2. cbn [default]. do 2 eexists. split_and!; [done..|]. by apply object_insert_equiv.
Qed.

(** *** The text that is echoed *)

Lemma index_equiv k v w : value_equiv v w -> value_equiv (index k v) (index k w).
Proof.
  intros H. unfold index. destruct H as [| | | | |m1 m2 Hm]; try reflexivity. cbn [get]. destruct (Hm k); [done|reflexivity].
Qed.

Lemma echoed_text_equiv v w : value_equiv v w -> echoed_text v = echoed_text w.
Proof.
  intros H. unfold echoed_text. set (f := fun x => index (str "text") (index (str "arguments") (index (str "params") x))).
  change (default [] (as_str (f v)) = default [] (as_str (f w))).
  assert (Hf : value_equiv (f v) (f w)) by (by apply index_equiv, index_equiv, index_equiv). by destruct Hf.
Qed.

Lemma index_scrub b k v : k ∉ PROXY_OWNED_META_KEYS -> k <> META_FIELD -> index k (scrub_member b v) = scrub_member false (index k v).
Proof. intros Hk Hm. unfold index. rewrite scrub_member_get by done. rewrite bool_decide_eq_false_2 by done. by destruct (get k v). Qed.

Lemma echoed_text_forwarded ctx v m : echoed_text (forwarded_form ctx v m) = echoed_text v.
Proof.
  unfold echoed_text, forwarded_form. set (f := fun _ : Value => VObject _).
  change (update_at _ f ?x) with (update_member (str "params") (update_member META_FIELD f) x).
  assert (H1 : index (str "params") (update_member (str "params") (update_member META_FIELD f) (scrub_proxy_owned_meta v)) =
               update_member META_FIELD f (index (str "params") (scrub_proxy_owned_meta v))).
  { unfold index. rewrite get_update_member, bool_decide_eq_true_2 by done. by destruct (get (str "params") _). }
  assert (H2 : forall x, index (str "arguments") (update_member META_FIELD f x) = index (str "arguments") x).
  { intros x. unfold index. rewrite get_update_member, bool_decide_eq_false_2 by done. by rewrite option_fmap_id. }
  rewrite H1, H2. unfold scrub_proxy_owned_meta. rewrite !index_scrub by (try done; by apply (bool_decide_unpack _)).
  by destruct (index (str "text") _).
Qed.

(** *** Room for the messages *)

Lemma safe_get n k v x : safe (S n) v -> get k v = Some x -> safe n x.
Proof. destruct v as [| | | | |m]; try done. rewrite safe_object. intros H E. apply map_get_Some in E. by eapply (Forall_forall _ m) in H; [|exact E]. Qed.

Lemma safe_update_const n k f v : (forall x, safe n x -> safe n (f x)) -> safe (S n) v -> safe (S n) (update_member k f v).
Proof.
  intros Hf. destruct v as [| | | | |m]; try done. cbn [update_member]. rewrite !safe_object. unfold map_alter. intros H.
  apply Forall_fmap. eapply Forall_impl; [exact H|]. intros [k' x] Hx. cbn in *. case_bool_decide; cbn; auto.
Qed.

Lemma safe_forwarded n ctx v m :
  safe (S n) ctx -> safe (S (S (S (S n)))) v -> path_get [str "params"; META_FIELD] v = Some (VObject m) ->
  safe (S (S (S (S n)))) (forwarded_form ctx v m).
Proof.
  intros Hc Hv Hm. pose proof (safe_scrub _ false _ Hv) as Hs. apply scrub_meta in Hm.
  cbn [path_get] in Hm. apply bind_Some in Hm as (x & Hx & Hm). apply bind_Some in Hm as (y & Hy & [= ->]).
  pose proof (safe_get _ _ _ _ (safe_get _ _ _ _ Hs Hx) Hy) as Hmm. unfold forwarded_form. cbn [update_at].
  apply safe_update_const; [|done]. intros z Hz. apply safe_update_const; [|done]. intros _ _. by apply safe_insert.
Qed.

Section Agreement.
Context `{SJ : SerdeJson, SJL : !SerdeJsonLaws, SS : !SerdeSer, SSL : !SerdeSerLaws, SW : !SerdeWrites, ST : !SerdeTexts}.
Context `{B64 : !Base64, B64L : !Base64Laws, SH : !Sha2, SHL : !Sha2Laws, DK : !Dalek, DKL : !DalekLaws}.
Context `{D1 : !Deserialize RequestEnvelope, D2 : !Deserialize Draft02RequestEnvelope}.
Context `{L1 : !DeserializeLaws RequestEnvelope, L2 : !DeserializeLaws Draft02RequestEnvelope}.
Context `{D3 : !Deserialize ResponseEnvelope, D4 : !Deserialize Draft02ResponseEnvelope}.
Context `{L3 : !DeserializeLaws ResponseEnvelope, L4 : !DeserializeLaws Draft02ResponseEnvelope}.

(** A native server and a sidecar around the plain one with the same key, names,
    trust and cache, the sidecar without policy and without binding. *)
Record twins (e : EchoServer) (p : Proxy) (w : World InMemoryReplayCache unit) : Prop := {
  tw_signer : p_signer p = signing_key_signer (es_signing_key e);
  tw_server_signer : p_server_signer p = es_server_signer e;
  tw_key_id : p_key_id p = es_key_id e;
  tw_resolver : p_resolver p = es_resolver e;
  tw_config : p_config p = es_config e;
  tw_version : p_version_policy p = Draft01AndDraft02;
  tw_policy : p_policy p = None;
  tw_binding : p_transport_binding p = None;
  tw_assertion : p_lb_assertion p = None;
  tw_replay : w_replay w = es_replay e;
  tw_names : str_wf (es_server_signer e) /\ str_wf (es_key_id e);
}.

(** A message that is no JSON, or one of the draft-01 profile with safe numbers
    and a nesting that [serde_json] reads. *)
Definition draft01_message (raw : bytes) : Prop :=
  forall v, from_slice raw = Some v -> read_request_envelope_version v = Ok VERSION_DRAFT_01 /\ safe SERDE_MAX_NESTING v.

Lemma dispatch_draft01_only raw resolver config now (replay : InMemoryReplayCache) :
  (forall v, from_slice raw = Some v -> read_request_envelope_version v = Ok VERSION_DRAFT_01) ->
  verify_request_dispatch raw resolver config now Draft01AndDraft02 replay = verify_request raw resolver config now replay.
Proof.
  intros Hd. unfold verify_request_dispatch, verify_request, from_slice_or_fail. destruct (from_slice raw) as [v|]; [|done].
  specialize (Hd v eq_refl). cbn [ok_or]. destruct (reject_batch v); [|done]. destruct (reject_notification v); [|done].
  rewrite Hd. reflexivity.
Qed.

Definition echo_members (text : rstr) : Map := [(str "content", echo_content text)].

Lemma echo_members_wf text : str_wf text -> value_wf (VObject (echo_members text)).
Proof.
  intros Ht. apply (value_wf_json_object [(str "content", echo_content text)]). rewrite Forall_singleton. cbn [fst snd].
  split; [solve_str_wf|]. constructor. rewrite Forall_singleton. apply value_wf_json_object.
  rewrite !Forall_cons, Forall_nil. split_and!; cbn [fst snd]; try done; solve_str_wf.
Qed.

Lemma echo_members_safe n text : safe (S (S (S n))) (VObject (echo_members text)).
Proof.
  unfold echo_members. rewrite safe_object, Forall_singleton. cbn [snd]. unfold echo_content. rewrite safe_array, Forall_singleton.
  apply safe_json_object. rewrite !Forall_cons, Forall_nil. split_and!; try done; apply safe_string.
Qed.

Lemma echoed_text_wf v : value_wf v -> str_wf (echoed_text v).
Proof.
  intros W. assert (Hi : forall k x, value_wf x -> value_wf (index k x)).
  { intros k x Wx. unfold index. destruct x as [| | | | |m]; try constructor. cbn [get]. apply value_wf_object in Wx as (_ & _ & Hg).
    destruct (map_get k m) eqn:E; [eauto|constructor]. }
  unfold echoed_text. pose proof (Hi (str "text") _ (Hi (str "arguments") _ (Hi (str "params") _ W))) as Wt.
  destruct (index (str "text") _); try constructor. by inversion Wt.
Qed.

Section Accepted.
Context (e : EchoServer) (p : Proxy) (w : World InMemoryReplayCache unit) (raw : bytes) (now : Z).
Context (T : twins e p w) (replay replay' : InMemoryReplayCache) (vr : VerifiedRequest) (v : Value).
Context (Hrep : es_replay e = Some replay) (Hv : from_slice raw = Some v) (Hsafe : safe SERDE_MAX_NESTING v).
Context (Hver : verify_request raw (es_resolver e) (es_config e) now replay = (Ok vr, replay')).
Context (Hdis : verify_request_dispatch raw (p_resolver p) (p_config p) now (p_version_policy p) replay = (Ok vr, replay')).

Let text := echoed_text v.
Let id := answer_id raw.

Lemma accepted_draft01 : exists h, vr_authorization vr = Draft01Hash h.
Proof. apply verify_request_Ok in Hver as (? & env & pre & te & _ & _ & _ & _ & ->). eauto. Qed.

Lemma id_safe : safe 126 id.
Proof.
  unfold id, answer_id. rewrite Hv. cbn [mbind option_bind]. destruct (get (str "id") v) as [i|] eqn:E; [|done].
  exact (safe_get 126 _ _ _ Hsafe E).
Qed.

Lemma answer_facts :
  names_wf p vr /\ value_wf id /\ id <> VNull /\ exists envelope, build_response_envelope p vr now = Ok envelope /\
    unsigned_envelope envelope /\ safe 2 envelope.
Proof.
  destruct T, tw_names0 as [H1 H2].
  destruct (accepted_answerable p raw now replay replay' vr) as (Hn & Wid & Hid & env & He & Hu); [by rewrite tw_server_signer0|by rewrite tw_key_id0|exact Hdis|].
  split_and!; [done..|]. exists env. split_and!; [done..|]. by eapply safe_envelope.
Qed.

(** The value to be signed has a preimage, and the signed one a text. *)
Lemma signed_exists envelope m m' :
  value_wf (VObject m) -> safe 126 (VObject m) -> unsigned_envelope envelope -> safe 2 envelope -> value_wf id ->
  add_envelope envelope m = Some m' -> exists pre bs, signing_preimage (with_envelope id m m') Response = Ok pre /\
    to_vec (fill_signature Response (sign (es_signing_key e) pre) (with_envelope id m m')) = Some bs /\
    safe 127 (fill_signature Response (sign (es_signing_key e) pre) (with_envelope id m m')).
Proof.
  intros Wm Hm Hu Hs Wid Ha. pose proof (safe_add_envelope 124 _ _ _ (safe_mono 2 124 _ ltac:(lia) Hs) Hm Ha) as Hm'.
  pose proof (safe_with_envelope _ _ _ _ id_safe Hm Hm') as Hw.
  destruct (safe_signing_preimage Response (with_envelope id m m')) as [pre Hpre].
  - by eapply with_envelope_wf.
  - by apply (safe_mono 127 MAX_PARSE_DEPTH _ ltac:(by apply (bool_decide_eq_true_1 _))).
  - apply unsigned_block. by eapply with_envelope_unsigned.
  - destruct (to_vec_total (fill_signature Response (sign (es_signing_key e) pre) (with_envelope id m m'))) as [bs Hbs].
    exists pre, bs. split_and!; [done..|]. by apply safe_fill_signature.
Qed.

(** The native server's answer. *)
Lemma native_answer envelope :
  build_response_envelope p vr now = Ok envelope -> unsigned_envelope envelope -> value_wf id ->
  exists m', add_envelope envelope (echo_members text) = Some m' /\
    forall pre bs, signing_preimage (with_envelope id (echo_members text) m') Response = Ok pre ->
      to_vec (fill_signature Response (sign (es_signing_key e) pre) (with_envelope id (echo_members text) m')) = Some bs ->
      echo_signed_response e (Some v) vr now id = Returns (Ok bs).
Proof.
  intros He Hu Wid. destruct accepted_draft01 as [h Hh]. eexists. split; [reflexivity|]. intros pre bs Hpre Hbs.
  pose proof He as He'. unfold build_response_envelope in He'. rewrite Hh in He'. injection He' as He'.
  destruct T as [_ Hss Hki _ _ _ _ _ _ _ _]. rewrite Hss, Hki in He'. unfold signature_stub in He'.
  unfold echo_signed_response. cbn [from_option]. fold text. rewrite He'.
  set (m' := map_insert _ _ (echo_members text)) in *.
  change (json_object [(str "jsonrpc", _); _; _]) with (with_envelope id (echo_members text) m').
  unfold response_signing_preimage. rewrite Hpre.
  assert (U : unsigned Response (with_envelope id (echo_members text) m')).
  { eapply (with_envelope_unsigned id envelope); [done| |done|reflexivity]. apply echo_members_wf, echoed_text_wf. by eapply from_slice_wf. }
  change [str "result"; str "_meta"; RESPONSE_META_KEY; str "signature"; str "value"] with (signature_path Response ++ [str "value"]).
  rewrite (index_signature Response _ U). by rewrite Hbs.
Qed.

(** The verified context holds strings only. *)
Lemma context_strings ctx : build_verified_context p vr now = Ok ctx -> value_wf ctx /\ safe 1 ctx.
Proof.
  pose proof Hver as (v0 & env & pre & te & (Hv0 & _) & (m & Hp & Hm & _) & _ & _ & ->)%verify_request_Ok. rewrite Hv in Hv0. injection Hv0 as <-.
  pose proof (value_wf_path _ _ _ (from_slice_wf _ _ Hv) Hp) as (_ & _ & Hg)%value_wf_object.
  cbn in Hm. unfold field in Hm. destruct_and! Hm. destruct T as [_ Hss _ _ _ _ _ _ _ _ [Hn _]].
  assert (Hstr : forall k s, map_get k m = Some (VString s) -> str_wf s) by (intros k s Hk; by eapply value_wf_string, Hg).
  assert (Hkid : str_wf (key_id (req_signature env))).
  { match goal with H : nested_object _ _ _ _ |- _ => destruct H as (sm & Hsm & (_ & Hk & _)) end.
    pose proof (Hg _ _ Hsm) as (_ & _ & Hgs)%value_wf_object. by eapply value_wf_string, Hgs. }
  unfold build_verified_context. cbn [verdict vr_authorization vr_verified_signer vr_key_id vr_on_behalf_of vr_audience vr_request_hash claims01
    c_signer c_on_behalf_of c_audience c_signature]. intros [= <-]. unfold verified_context_value.
  cbn [vc_verified_signer vc_key_id vc_on_behalf_of vc_audience vc_authorization_hash vc_request_hash vc_verifier vc_verified_at]. split.
  - apply value_wf_json_object. rewrite !Forall_cons, Forall_nil. cbn [fst snd].
    split_and!; try exact I; first [solve [match goal with |- str_wf (str _) => solve_str_wf end]|constructor].
    + by eapply Hstr.
    + exact Hkid.
    + by eapply Hstr.
    + by eapply Hstr.
    + by eapply Hstr.
    + apply sha256_hash_id_wf.
    + by rewrite Hss.
    + apply str_wf_rfc3339.
  - apply safe_json_object. rewrite !Forall_cons, Forall_nil. split_and!; try done; apply safe_string.
Qed.

Lemma forwarded_wf ctx m : value_wf ctx -> path_get [str "params"; META_FIELD] v = Some (VObject m) -> value_wf (forwarded_form ctx v m).
Proof.
  intros Wc Hm. pose proof (scrub_member_wf false v (from_slice_wf _ _ Hv)) as Ws. apply value_wf_update_at; [done|]. intros _ _.
  apply map_insert_wf; [solve_str_wf|done|]. apply scrub_meta in Hm. exact (value_wf_path _ _ _ Ws Hm).
Qed.

(** What the sidecar makes of the plain server's answer: the same result, up to
    the order of its members. *)
Lemma wrapped_inner : exists fwd inner m,
  build_forwarded_request p raw vr now = Returns (Ok fwd) /\ from_slice (plain_echo_inner fwd) = Some inner /\
  scrub_proxy_owned_meta (wrap_inner inner) = VObject m /\ value_wf (VObject m) /\
  value_equiv (VObject (echo_members text)) (VObject m).
Proof.
  pose proof (from_slice_wf _ _ Hv) as W. pose proof Hdis as (v0 & c & pre & te & (Hv0 & _) & _ & _ & Hp)%dispatch_accepted.
  rewrite Hv in Hv0. injection Hv0 as <-. destruct (accepted_meta _ _ _ _ Hp) as [mt Hm]. destruct (accepted_context p _ _ _ _ now Hp) as [ctx Hctx].
  destruct (context_strings ctx Hctx) as [Wc Sc].
  pose proof (forwarded_is p raw v mt vr now ctx W Hv Hm Hctx) as Hf. set (fv := forwarded_form ctx v mt) in *.
  destruct (to_vec_total fv) as [fwd Hfwd]. rewrite Hfwd in Hf.
  assert (Sf : safe 127 fv) by (apply (safe_forwarded 123); [by apply (safe_mono 1); [lia|]|exact Hsafe|done]).
  pose proof (forwarded_wf ctx mt Wc Hm : value_wf fv) as Wf.
  destruct (to_vec_reads fv fwd Wf Sf Hfwd) as (_ & fv' & Hr & W' & Hq).
  assert (Ht : echoed_text fv' = text) by (rewrite <- (echoed_text_equiv _ _ Hq); apply echoed_text_forwarded).
  pose proof (safe_equiv 127 _ _ W' Hq Sf) as S'.
  assert (Hpv : plain_echo_value fwd = response_base (default VNull (get (str "id") fv')) (VObject (echo_members text))).
  { unfold plain_echo_value. rewrite Hr. change (default VNull (Some fv')) with fv'. by rewrite Ht. }
  set (i := default VNull (get (str "id") fv')) in *.
  assert (Wi : value_wf i /\ safe 126 i).
  { unfold i. destruct (get (str "id") fv') as [x|] eqn:E; [|by split; [constructor|]]. split; [|exact (safe_get 126 _ _ _ S' E)].
    destruct fv' as [| | | | |fm]; try done. apply value_wf_object in W' as (_ & _ & Hg). eauto. }
  destruct Wi as [Wi Si].
  assert (Wt : value_wf (VObject (echo_members text))) by (by apply echo_members_wf, echoed_text_wf).
  destruct (to_vec_total (plain_echo_value fwd)) as [ib Hib].
  assert (Wp : value_wf (plain_echo_value fwd)) by (rewrite Hpv; by apply response_base_wf).
  assert (Sp : safe 127 (plain_echo_value fwd)).
  { rewrite Hpv. apply safe_json_object. rewrite !Forall_cons, Forall_nil. cbn [snd]. by split_and!. }
  destruct (to_vec_reads _ ib Wp Sp Hib) as (_ & inner & Hin & Win & Hqi).
  rewrite Hpv in Hqi. destruct (value_equiv_get _ _ _ _ Hqi (proj1 (response_base_get _ _))) as (r & Hgr & Hqr).
  destruct (value_equiv_is_object _ _ Hqr eq_refl) as [rm ->].
  exists fwd, inner. destruct (wrap_inner_object inner Win) as (wm & Hwm & Wwm). unfold wrap_inner in *. rewrite Hgr in *. injection Hwm as <-.
  pose proof (scrub_member_equiv false _ _ Hqr) as Hsq. change (scrub_member false (VObject (echo_members text))) with (VObject (echo_members text)) in Hsq.
  pose proof (scrub_member_wf false _ Wwm) as Wsc.
  destruct (value_equiv_is_object _ _ Hsq eq_refl) as [m Hme]. exists m. unfold scrub_proxy_owned_meta. rewrite Hme in *.
  split_and!; try done. unfold plain_echo_inner. by rewrite Hib.
Qed.

Lemma wrapped_answer fwd inner envelope m m' pre bs :
  from_slice (plain_echo_inner fwd) = Some inner -> scrub_proxy_owned_meta (wrap_inner inner) = VObject m ->
  build_response_envelope p vr now = Ok envelope -> unsigned_envelope envelope -> value_wf id -> add_envelope envelope m = Some m' ->
  signing_preimage (with_envelope id m m') Response = Ok pre ->
  to_vec (fill_signature Response (sign (es_signing_key e) pre) (with_envelope id m m')) = Some bs ->
  build_signed_response p (plain_echo_inner fwd) vr now id = Returns (Ok bs).
Proof.
  intros Hi Hm He Hu Wid Ha Hpre Hbs. rewrite (build_signed_response_spec _ _ _ _ _ _ _ _ Hi Wid Hu He Hm), Ha, Hpre.
  destruct T as [-> _ _ _ _ _ _ _ _ _ _]. cbn [signing_key_signer sign_response map_err]. by rewrite Hbs.
Qed.

Lemma signed_no_error sg m m' v1 : value_equiv (fill_signature Response sg (with_envelope id m m')) v1 -> get (str "error") v1 = None.
Proof.
  intros Hq. destruct (get (str "error") v1) as [x|] eqn:E; [|done]. symmetry in Hq.
  destruct (value_equiv_get _ _ _ _ Hq E) as (y & Hy & _). unfold fill_signature, signature_path in Hy. cbn [update_at container_key] in Hy.
  rewrite get_update_member, with_envelope_base in Hy. unfold response_base in Hy. by rewrite json_object_get in Hy.
Qed.

(** Either answer, read back, is accepted by whoever trusts the server's key. *)
Lemma answer_accepted envelope m m' pre bs :
  names_wf p vr -> value_wf id -> id <> VNull -> value_wf (VObject m) -> safe 126 (VObject m) -> unsigned_envelope envelope -> safe 2 envelope ->
  build_response_envelope p vr now = Ok envelope -> add_envelope envelope m = Some m' ->
  signing_preimage (with_envelope id m m') Response = Ok pre ->
  to_vec (fill_signature Response (sign (es_signing_key e) pre) (with_envelope id m m')) = Some bs ->
  exists v1, from_slice bs = Some v1 /\ value_equiv (fill_signature Response (sign (es_signing_key e) pre) (with_envelope id m m')) v1 /\
    forall resolver, resolver (es_server_signer e) (es_key_id e) = Ok (public_key (es_signing_key e)) ->
      outcome_token bs (vr_request_hash vr) resolver = VERIFY_OK.
Proof.
  intros Hn Wid Hid Wm Hm Hu Hs He Ha Hpre Hbs. destruct (signed_exists envelope m m' Wm Hm Hu Hs Wid Ha) as (pre' & bs' & Hpre' & _ & Ssg).
  rewrite Hpre in Hpre'. injection Hpre' as <-. set (sg := sign (es_signing_key e) pre) in *.
  assert (Wsg : str_wf sg) by (apply base64_encode_wf, dalek_sign_wf).
  pose proof (answer_wf p vr now id envelope m m' sg Hn Wid Wm He Ha Wsg) as Wa.
  destruct (to_vec_reads _ bs Wa Ssg Hbs) as (Hc & v1 & Hr & W1 & Hq). exists v1. split_and!; [done..|]. intros resolver Hres.
  assert (Hpin : pinned_profile vr) by (by eapply accepted_pinned).
  assert (Hsig : verify_ed25519 pre sg (public_key (es_signing_key e)) = Ok tt).
  { eapply (signer_signs (s := signing_key_signer (es_signing_key e))); reflexivity. }
  assert (Hres' : resolver (p_server_signer p) (p_key_id p) = Ok (public_key (es_signing_key e))) by (destruct T as [_ -> -> _ _ _ _ _ _ _ _]; done).
  pose proof (answer_verifies p vr now id envelope m m' sg pre _ Hn Hpin Wid Hid Wm He Ha Hpre Wsg Hsig bs v1 resolver Hr Hc W1 Hq Hres') as Hok.
  unfold outcome_token. rewrite Hr, (signed_no_error _ _ _ _ Hq). cbn [mbind option_bind].
  unfold client_verify in Hok. destruct accepted_draft01 as [h Hh]. rewrite Hh in Hok. by rewrite Hok.
Qed.

(** The two answers to an accepted request. *)
Lemma accepted_agree : exists bs1 bs2 v1 v2,
  echo_signed_response e (Some v) vr now id = Returns (Ok bs1) /\
  (exists fwd, build_forwarded_request p raw vr now = Returns (Ok fwd) /\ build_signed_response p (plain_echo_inner fwd) vr now id = Returns (Ok bs2)) /\
  from_slice bs1 = Some v1 /\ from_slice bs2 = Some v2 /\ value_equiv v1 v2 /\
  forall resolver, resolver (es_server_signer e) (es_key_id e) = Ok (public_key (es_signing_key e)) ->
    outcome_token bs1 (vr_request_hash vr) resolver = VERIFY_OK /\ outcome_token bs2 (vr_request_hash vr) resolver = VERIFY_OK.
Proof.
  destruct answer_facts as (Hn & Wid & Hid & env & He & Hu & Hs). destruct wrapped_inner as (fwd & inner & m2 & Hf & Hi & Hm2 & W2 & Hq).
  destruct (native_answer env He Hu Wid) as (m1' & Ha1 & Hnat). set (m1 := echo_members text) in *.
  assert (W1 : value_wf (VObject m1)) by (by apply echo_members_wf, echoed_text_wf, (from_slice_wf raw)).
  assert (S1 : safe 126 (VObject m1)) by (apply (echo_members_safe 123)). pose proof (safe_equiv 126 _ _ W2 Hq S1) as S2.
  destruct (add_envelope_equiv env m1 m2 eq_refl Hq) as (m1'' & m2' & Ha1' & Ha2 & Hq'). rewrite Ha1 in Ha1'. injection Ha1' as <-.
  destruct (signed_exists env m1 m1' W1 S1 Hu Hs Wid Ha1) as (pre & bs1 & Hpre1 & Hbs1 & _).
  destruct (signed_exists env m2 m2' W2 S2 Hu Hs Wid Ha2) as (pre2 & bs2 & Hpre2 & Hbs2 & _).
  assert (Hqe : value_equiv (with_envelope id m1 m1') (with_envelope id m2 m2')) by (rewrite !with_envelope_base; by apply response_base_equiv).
  pose proof (signing_preimage_equiv Response _ _ _ (with_envelope_wf _ _ _ _ Wid W1 Hu Ha1) (with_envelope_wf _ _ _ _ Wid W2 Hu Ha2) Hqe Hpre1) as Hpre.
  rewrite Hpre2 in Hpre. injection Hpre as ->.
  destruct (answer_accepted env m1 m1' pre bs1 Hn Wid Hid W1 S1 Hu Hs He Ha1 Hpre1 Hbs1) as (v1 & Hr1 & Hq1 & Hok1).
  destruct (answer_accepted env m2 m2' pre bs2 Hn Wid Hid W2 S2 Hu Hs He Ha2 Hpre2 Hbs2) as (v2 & Hr2 & Hq2 & Hok2).
  exists bs1, bs2, v1, v2. split_and!; try done.
  - by eapply Hnat.
  - exists fwd. split; [done|]. by eapply wrapped_answer.
  - etrans; [symmetry; exact Hq1|]. etrans; [|exact Hq2]. by apply fill_signature_equiv.
  - intros resolver Hres. split; [by apply Hok1|by apply Hok2].
Qed.
End Accepted.

(** The native server and the sidecar around the plain one are the same server
    to a client.  From the same trust and the same cache, on any draft-01
    message, both answer, and their caches stay the same.  A message that is
    refused gets the same bytes from both.  An accepted one gets answers that
    agree up to the order of members, signature included, and both are accepted
    by a client that trusts the server's key. *)
Theorem native_wrapped_agree e p w raw now :
  twins e p w -> draft01_message raw ->
  exists bs1 e' bs2 w', echo_handle e raw now = (Returns bs1, e') /\ handle p raw now w = (Returns bs2, w') /\ twins e' p w' /\
    ((exists err, bs1 = json_rpc_error_object err (answer_id raw) /\ bs2 = bs1 /\
        forall replay, es_replay e = Some replay -> (verify_request raw (es_resolver e) (es_config e) now replay).1 = Err err) \/
     exists replay replay' vr v1 v2, es_replay e = Some replay /\ es_replay e' = Some replay' /\
       verify_request raw (es_resolver e) (es_config e) now replay = (Ok vr, replay') /\
       from_slice bs1 = Some v1 /\ from_slice bs2 = Some v2 /\ value_equiv v1 v2 /\
       forall resolver, resolver (es_server_signer e) (es_key_id e) = Ok (public_key (es_signing_key e)) ->
         outcome_token bs1 (vr_request_hash vr) resolver = VERIFY_OK /\ outcome_token bs2 (vr_request_hash vr) resolver = VERIFY_OK).
Proof.
  intros T Hd. unfold handle, handle_with_transport, echo_handle. fold (answer_id raw).
  pose proof T as [_ _ _ Hrs Hcf Hvp Hpo Hbi Hlb Hrp _]. rewrite Hrp, Hrs, Hcf, Hvp.
  destruct (es_replay e) as [replay|] eqn:Hrep.
  2: { do 4 eexists. split_and!; [reflexivity..| |]; [done|]. left. eexists. split_and!; done. }
  rewrite dispatch_draft01_only by (intros x Hx; by apply Hd).
  destruct (verify_request raw (es_resolver e) (es_config e) now replay) as [[vr|err] replay'] eqn:Ev.
  2: { do 4 eexists. split_and!; [reflexivity..| |]; [by destruct T|]. left. exists err. split_and!; [done..|]. by intros ? [= <-]; rewrite Ev. }
  pose proof Ev as (v & _ & _ & _ & (Hv & _) & _)%verify_request_Ok. destruct (Hd v Hv) as [Hdv Hsafe].
  assert (Hdis : verify_request_dispatch raw (p_resolver p) (p_config p) now (p_version_policy p) replay = (Ok vr, replay')).
  { rewrite Hrs, Hcf, Hvp, dispatch_draft01_only; [done|]. intros x Hx. by apply Hd. }
  destruct (accepted_agree e p w raw now T replay replay' vr v Hv Hsafe Ev Hdis) as (bs1 & bs2 & v1 & v2 & Hn & (fwd & Hf & Hs) & H1 & H2 & Hq & Hok).
  unfold policy_refusal, lb_verified_identity, dispatch_and_sign. rewrite Hpo, Hlb, Hbi, Hv, Hn, Hf. cbn [inner_dispatch plain_echo_server w_inner]. rewrite Hs.
  do 4 eexists. split_and!; [reflexivity..| |]; [by destruct T|]. right. by exists replay, replay', vr, v1, v2.
Qed.
End Agreement.

(** The two documented servers are such a pair. *)
Lemma documented_twins `{B64 : Base64, DK : !Dalek} : twins documented_echo_server documented_proxy proxy_world.
Proof. split; try reflexivity. split; solve_str_wf. Qed.

(** ** On the sample request *)

Import Toy ToyPolicy ToyProxy.

#[local] Instance echo_texts : SerdeTexts := {| value_display _ := []; ser_error_display _ := []; de_error_display _ := [] |}.

Definition sample_echo : EchoServer := echo_new sample_key (str "did:srv") (str "s1") sample_resolver (str "did:srv") 60.

Definition sample_echo_world : World InMemoryReplayCache unit :=
  {| w_replay := es_replay sample_echo; w_inner := tt; w_effects := [] |}.

Lemma sample_draft01 : draft01_message sample_raw01.
Proof. intros v Hv. vm_compute in Hv. injection Hv as <-. split; vm_compute; reflexivity. Qed.

(** The first submission is answered and signed by both, the second refused. *)
Lemma native_wrapped_agree_witness :
  exists bs1 e' bs2 w', echo_handle sample_echo sample_raw01 sample_now = (Returns bs1, e') /\
    handle sample_proxy sample_raw01 sample_now sample_echo_world = (Returns bs2, w') /\
    exists v1 v2, from_slice bs1 = Some v1 /\ from_slice bs2 = Some v2 /\ value_equiv v1 v2.
Proof.
  destruct (native_wrapped_agree sample_echo sample_proxy sample_echo_world sample_raw01 sample_now) as (bs1 & e' & bs2 & w' & H1 & H2 & _ & H).
  - split; try reflexivity. split; solve_str_wf.
  - exact sample_draft01.
  - exists bs1, e', bs2, w'. split; [exact H1|]. split; [exact H2|]. destruct H as [(err & _ & _ & Hno)|H].
    + specialize (Hno _ eq_refl). vm_compute in Hno. discriminate Hno.
    + destruct H as (_ & _ & _ & v1 & v2 & _ & _ & _ & Hv1 & Hv2 & Hq & _). exists v1, v2. exact (conj Hv1 (conj Hv2 Hq)).
Defined.
